(* ===== verification/_CoqProject ===== *)
-Q . S2P
Prelude.v
Result.v
Hoare.v
ByteBuf.v
Config.v
Message.v
Packet.v
Protocol.v
Windows.v
Payloads.v
Reliability.v
Ordered.v
Fragmentation.v
Congestion.v
Stream.v
Crypto.v
Stats.v
Endpoint.v
Socket.v
Client.v
ClientRecv.v
ClientInv.v
ClientSafe.v
ClientProps.v
ClientAuth.v
Server.v
ServerSend.v
ServerRecv.v
ServerInv.v
ServerSafe.v
ServerSafeRecv.v
ServerAdmit.v
ServerLoop.v
ServerProps.v
ServerAuth.v
RateLimit.v
Codec.v
NatHints.v
Router.v
RequestReply.v
IoContext.v
Sealing.v
ServerTx.v
Deliver.v
ClientDeliver.v
EndToEnd.v
Downlink.v
Exchange.v
Large.v
Link.v
Address.v
ClientApi.v
ServerApi.v
StateSync.v
Async.v
Facades.v
Sockets.v
WireTypes.v
Builders.v
