(* ===== verification/Prelude.v ===== *)
(** * securecnet: a verified model of an encrypted UDP transport

    securecnet is a C++ library: a client and a server exchange messages over
    UDP, encrypted after a handshake, on channels that are unreliable, sequenced,
    reliable or reliable and ordered.  This development translates the library's
    own logic to Rocq definitions and proves what makes it correct.  Paths below
    are under [src/src/securecnet]; [include] stands for [include/securecnet].

    ** How the program is put together

    [Client] (client.hpp, client.cpp) and [Server] (server.hpp, server.cpp) are
    single-threaded state machines.  [tick] flushes the queue of packed datagrams
    to the socket, retransmits reliable messages that are due, receives and
    handles every waiting datagram, and runs timeouts.  A message goes through
    an envelope (reliable, ordered, sequenced or fragment), a message frame, the
    AEAD seal and the packet header; the receiver undoes each layer.  A handshake
    is hello, optional retry with a stateless token, hello with the token,
    server hello with a MAC of the transcript, and the first sealed packet.  The
    server keeps a [PeerSession] per connection id, a table from endpoints to
    connection ids, and per-host counters against abuse.

    ** Files

    - [Prelude]: machine integers as [Z] with their wrap-around, list and
      arithmetic lemmas, automation.
    - [Result] (include/result.hpp): error codes and the monad [io W A] of
      computations on a state [W] that end in [Done], [Err] (a failed [Result]
      returned early) or [UB] (undefined behaviour: an access out of bounds, a
      dangling reference, [std::clamp] on an empty range, or a loop that uses up
      its fuel).  [Hoare]: weakest preconditions, [Safe], [Stable].
    - [ByteBuf] (bytebuf.hpp, bytebuf.cpp): readers and writers, and the classes
      [Wire] and [WireFrame] of inverse encoders and decoders against which the
      formats are proved.
    - [Config] (config.hpp), [Message] (message.hpp), [Packet] (packet.hpp,
      packet.cpp), [Protocol] (protocol.hpp), [Payloads] (reliability.hpp):
      constants, configurations with validators, and every wire format.
    - [Windows] (the receive windows of protocol.hpp and reliability.hpp),
      [Reliability] ([ReliableSession]), [Ordered] ([OrderedReceiveWindow]),
      [Fragmentation] (fragmentation.hpp), [Congestion]
      (congestion_control.hpp), [Stream] (stream.hpp): the parts that both ends
      use.
    - [Crypto] (crypto.cpp): the wrappers around libsodium.  libsodium is the
      class [Sodium], what is relied on is [SodiumLaws], and [toy_sodium] is an
      instance on which examples run.
    - [Stats] (transport_stats.hpp), [Endpoint] (endpoint.hpp, endpoint.cpp),
      [Socket] (udp_socket.hpp, udp_socket.cpp): statistics, addresses, and the
      socket on a scripted operating system [Net].
    - [Client], [ClientRecv] model client.cpp operation by operation; [ClientInv],
      [ClientSafe] hold the invariant and the proof that every operation keeps
      it; [ClientProps], [ClientAuth] the theorems.
    - [Server], [ServerSend], [ServerRecv] model server.cpp; [ServerInv],
      [ServerSafe], [ServerSafeRecv], [ServerAdmit], [ServerLoop] hold its
      invariant and the safety proofs; [ServerProps], [ServerAuth], [RateLimit] the
      theorems.
    - [Codec] (codec.hpp), [NatHints] (nat.hpp), [Router] (router.hpp) and
      [RequestReply] (request_reply.hpp) model what applications build on top;
      [IoContext] (io_context.hpp, io_context.cpp) the loop that drives them, with
      its threads as an interleaving of critical sections.
    - [Sealing]: what both ends share of the way of a message, from its frame to
      the sealed packet.  [Deliver], [EndToEnd]: one message from [Client::send]
      through the seal, the packet and the server's windows to the callback.
      [ServerTx], [ClientDeliver], [Downlink]: the way back, from [Server::send]
      to the callbacks of the client.  [Exchange]: a reliable message and its
      acknowledgement.  [Large]: a message cut into fragments.  [Link]: the
      ordered channel of a sender and a receiver over a network that loses,
      repeats and reorders.
    - [Address] (address.cpp, socket_init.cpp, [connect] and [listen] by name and
      port), [ClientApi], [ServerApi]: every public call of [Client], [Server] and
      [Server::Peer] that can change their state as a constructor of [client_call],
      [server_call], [peer_call] over the operations of the core; [for_each_peer],
      [local_endpoint] and the user data of a peer are definitions of their own.  [Builders]: the configuration builders.
      [StateSync]: the state synchronisation example (examples/state_sync_example.cpp
      of the repository) on top of them.
    - [Async] (async.hpp, [post_task] of io_context.hpp): the facade with its
      worker thread and its futures, over any object that satisfies
      [AsyncServiceLaws]; [Facades]: [AsyncClient], [AsyncServer] and
      [LocalSession] (local_session.hpp) as instances.
    - [Sockets] (udp_socket.cpp): who owns a descriptor when sockets are opened,
      moved and destroyed.  [WireTypes]: the types of everything that is parsed.

    A member function is a definition of the same name, prefixed with [srv_] on
    the server where the client has one too; a member [_x] is a field [c_x],
    [s_x] or [ps_x].  A [PeerSession&] is the key of the session in the table, so
    use after erasure is visible as [UB].  Calls back into the user are events in
    a log, newest first; the model assumes that a callback does not call the
    transport again.

    ** What is proved

    - Client and server as a whole ([ClientProps], [ServerProps]): over any
      sequence of public calls, any clock, any datagrams and any answers of the
      socket, no operation is undefined and every loop ends; queues are exact,
      bounded and ordered; tables agree and respect the limits for the server and
      for each host; nonces never repeat within a session; state changes are
      edges of the connection state machine.
    - Authentication ([ClientAuth], [ServerAuth], [RateLimit]): unauthenticated
      packets deliver nothing (a client drops a replay and closes on a forgery); a client session is established only by an authentic
      server hello; a server session needs a valid token; a retry token is
      accepted exactly when the server would make it; both ends of a handshake
      agree on the keys; the rate of handshakes per host, over all its ports and
      whatever else the server does, is bounded; a sealed packet is opened by the
      peer.
    - Channels ([Windows], [Reliability], [Ordered], [Fragmentation]): refinement
      of the bitmaps to sets, exactly-once filtering, in-order delivery of a
      prefix, reassembly that is complete and hands over only what was sent, and
      an invariant of the reliable queue with the behaviour of each operation.
    - Formats ([Packet], [Protocol], [Message], [Payloads], [Fragmentation],
      [Stream]): round trips, canonicity, and readers that never leave their
      buffer.
    - Bounds ([Congestion], [Config], [Reliability]): rates, windows and timers
      stay within their configured range.
    - Applications ([Codec], [NatHints], [Router], [RequestReply], [IoContext]):
      typed fields and hints round trip; a message reaches the handler registered
      last; every request is settled at most once and by its own reply; under any
      interleaving of threads posted callbacks are dequeued in order and run once
      each, and in order unless several threads call [poll] themselves.
    - End to end ([EndToEnd], [Downlink], [Exchange], [Large], [Link]): a message
      that one end sends is handed to the user of the other, with its channel,
      type and bytes, in both directions; a reliable message is acknowledged and
      released at the sender; a message of several fragments is handed over whole
      whatever the order of its packets; over a lossy network the ordered channel
      delivers a prefix of what was submitted, and for a sender that keeps within
      the windows one round of retransmission that arrives delivers the rest.  [StateSync]: the client shows exactly the
      states the server publishes.
    - The interface ([Address], [ClientApi], [ServerApi], [Async], [Facades]): each
      public call is one core operation or is refused without effect, so the
      theorems on runs hold for any use; names resolve to the preferred address or
      fail without effect; handles of peers are safe when stale; the asynchronous
      facades are sequential objects and their workers empty their queues.
    - Types and resources ([WireTypes], [Builders], [Sockets]): whatever is parsed
      or built has every field in the range of its type, and descriptors are
      neither leaked nor closed twice.

    ** Bounds and fuel

    Loops that are not structural take fuel and are undefined without: the
    flush loop of the client takes the length of its queue, that of the server one
    more (its last round finds nothing to send), the receive loops one more than the
    datagrams waiting, the dispatch loops one more than the bytes of the payload.
    The safety theorems exclude [UB], so the fuel is always enough.  The two
    loops that draw random numbers until one is free or non-zero
    ([draw_conn_id], [draw_ticket]) end with the script of random draws, by a
    draw that is accepted: that the generator produces one at last is assumed.
    [server_usable] and [client_usable] say that a configuration passes the
    validator of [listen] or [connect] and that its fields are in the range of
    their C++ types, [usable_config] the same of the reliability options;
    [quota_sane], used only for the memory bound, says that the memory limits are
    not so near 2^64 that a sum wraps, and [bytes_fit], used only for the exact byte
    counter of a reliable session, that [max_pending_bytes] is at most
    [U32_MAX - 65543], which the validator does not check
    ([Reliability.byte_budget_wraps] shows the 32-bit sum wrapping).  The recovery
    theorem of [Link] needs a sender that stays within the receive window and the
    limits ([unhurried], [holds_all]), messages without lifetime and timers that have
    run out; the findings on full windows and stuck resends say what happens
    otherwise.

    ** Parameters

    libsodium ([Sodium], [SodiumLaws]); [inet_ntop] ([Ntop], and [NtopLaws] for the
    limit per host: it prints every address and reads nothing else); [getaddrinfo] and
    [gai_strerror] ([Resolver], [ResolverLaws]: addresses fit a
    [sockaddr_storage]); [getsockname] ([SockName]); the order in which the hash
    table of sessions is traversed ([Traversal], a permutation of the keys);
    [std::hash] of integers ([Endpoint]).  The instances of the module
    [ServerProps.Pair] satisfy all the laws and run a complete handshake between
    both ends.

    ** Not modelled

    The umbrella headers (easy.hpp, scn.hpp: includes and aliases), trivial
    accessors, the Windows branch of the socket, its options and its start-up
    (on Linux [ensure_socket_runtime] always succeeds), the copy of
    crypto.cpp under include, demos, benchmarks, tests and the examples other
    than state synchronisation, which only call the library and print.  The facades
    of async.hpp are modelled for one user thread, since [_started] is not
    protected; [run_async] is a parameter of [listen_and_connect]. *)
From stdpp Require Export base numbers list gmap strings.
#[global] Set Default Goal Selector "!".
#[local] Open Scope Z_scope.

(** ** Machine integers

    A C++ unsigned integer of [w] bits is a [Z]; arithmetic that the source
    performs at that width is followed by the wrap-around below. *)

Abbreviation U8 := Z (only parsing).
Abbreviation U16 := Z (only parsing).
Abbreviation U32 := Z (only parsing).
Abbreviation U64 := Z (only parsing).
Abbreviation ST := Z (only parsing).

Definition w8 (z : Z) : U8 := z mod 256.
Definition w16 (z : Z) : U16 := z mod 65536.
Definition w32 (z : Z) : U32 := z mod 4294967296.
Definition w64 (z : Z) : U64 := z mod 18446744073709551616.

Definition U16_MAX : Z := 65535.
Definition U32_MAX : Z := 4294967295.
Definition U64_MAX : Z := 18446744073709551615.

Definition is_u8 (z : Z) : Prop := 0 <= z < 256.
Definition is_u16 (z : Z) : Prop := 0 <= z < 65536.
Definition is_u32 (z : Z) : Prop := 0 <= z < 4294967296.
Definition is_u64 (z : Z) : Prop := 0 <= z < 18446744073709551616.

#[global] Instance is_u8_dec z : Decision (is_u8 z).
Proof. unfold is_u8. apply _. Defined.
#[global] Instance is_u16_dec z : Decision (is_u16 z).
Proof. unfold is_u16. apply _. Defined.
#[global] Instance is_u32_dec z : Decision (is_u32 z).
Proof. unfold is_u32. apply _. Defined.
#[global] Instance is_u64_dec z : Decision (is_u64 z).
Proof. unfold is_u64. apply _. Defined.

(** The length of a list as a [size_t]. *)
Abbreviation zlen l := (Z.of_nat (length l)).

(** A byte string: every element is a [U8]. *)
Definition bytes_ok (bs : list U8) : Prop := Forall is_u8 bs.

#[global] Instance bytes_ok_dec bs : Decision (bytes_ok bs).
Proof. unfold bytes_ok. apply _. Defined.

(** Unfold ranges and wraps and call [lia]. *)
Ltac widths :=
  unfold is_u8, is_u16, is_u32, is_u64, w8, w16, w32, w64,
    U16_MAX, U32_MAX, U64_MAX in *.
Ltac ulia := widths; lia.

(** Take the branches that decided boolean guards select. *)
Ltac branch := cbv beta iota zeta delta [negb andb orb].

(** Case analysis on the boolean comparisons of the goal and hypotheses. *)
Ltac zcases :=
  repeat match goal with
  | |- context [?a =? ?b] => destruct (Z.eqb_spec a b)
  | |- context [?a <? ?b] => destruct (Z.ltb_spec a b)
  | |- context [?a <=? ?b] => destruct (Z.leb_spec a b)
  | H : context [?a =? ?b] |- _ => destruct (Z.eqb_spec a b)
  | H : context [?a <? ?b] |- _ => destruct (Z.ltb_spec a b)
  | H : context [?a <=? ?b] |- _ => destruct (Z.leb_spec a b)
  end.

Lemma w8_range z : is_u8 (w8 z).
Proof. unfold is_u8, w8. apply Z.mod_pos_bound. lia. Qed.
Lemma w16_range z : is_u16 (w16 z).
Proof. unfold is_u16, w16. apply Z.mod_pos_bound. lia. Qed.
Lemma w32_range z : is_u32 (w32 z).
Proof. unfold is_u32, w32. apply Z.mod_pos_bound. lia. Qed.
Lemma w64_range z : is_u64 (w64 z).
Proof. unfold is_u64, w64. apply Z.mod_pos_bound. lia. Qed.

Lemma w8_id z : is_u8 z → w8 z = z.
Proof. unfold is_u8, w8. apply Z.mod_small. Qed.
Lemma w16_id z : is_u16 z → w16 z = z.
Proof. unfold is_u16, w16. apply Z.mod_small. Qed.
Lemma w32_id z : is_u32 z → w32 z = z.
Proof. unfold is_u32, w32. apply Z.mod_small. Qed.
Lemma w64_id z : is_u64 z → w64 z = z.
Proof. unfold is_u64, w64. apply Z.mod_small. Qed.

(** ** Big-endian byte strings

    [be n v] is the [n]-byte network-order form of [v]; [be_value] reads one
    back.  They are the specification of the integer fields on the wire. *)

Fixpoint be (n : nat) (v : Z) : list U8 :=
  match n with
  | O => []
  | S k => (v / 256 ^ Z.of_nat k) mod 256 :: be k v
  end.

Definition be_value (bs : list U8) : Z := foldl (λ acc b, acc * 256 + b) 0 bs.

Lemma length_be n v : length (be n v) = n.
Proof. induction n; simpl; congruence. Qed.

Lemma be_ok n v : bytes_ok (be n v).
Proof.
  induction n as [|n IH]; constructor; [|done].
  apply Z.mod_pos_bound. lia.
Qed.

Lemma bytes_ok_app bs1 bs2 : bytes_ok bs1 → bytes_ok bs2 → bytes_ok (bs1 ++ bs2).
Proof. apply Forall_app_2. Qed.

Lemma be_value_snoc bs b : be_value (bs ++ [b]) = be_value bs * 256 + b.
Proof. unfold be_value. by rewrite foldl_app. Qed.

Lemma be_snoc n v : be (S n) v = be n (v / 256) ++ [v mod 256].
Proof.
  induction n as [|n IH].
  { simpl. by rewrite Z.div_1_r. }
  change (be (S (S n)) v) with ((v / 256 ^ Z.of_nat (S n)) mod 256 :: be (S n) v).
  rewrite IH. simpl. f_equal.
  rewrite Z.div_div by lia. f_equal. f_equal.
  rewrite <- Z.pow_succ_r by lia. f_equal. lia.
Qed.

Lemma be_value_be n v : 0 <= v < 256 ^ Z.of_nat n → be_value (be n v) = v.
Proof.
  revert v. induction n as [|n IH]; intros v Hv.
  { simpl in *. unfold be_value. simpl. lia. }
  rewrite be_snoc, be_value_snoc, IH.
  - pose proof (Z.div_mod v 256). lia.
  - rewrite Nat2Z.inj_succ, Z.pow_succ_r in Hv by lia.
    split; [apply Z.div_pos; lia | apply Z.div_lt_upper_bound; lia].
Qed.

Lemma be_value_bound bs :
  bytes_ok bs → 0 <= be_value bs < 256 ^ zlen bs.
Proof.
  induction bs as [|b bs IH] using rev_ind; intros Hok.
  { unfold be_value. simpl. lia. }
  apply Forall_app in Hok as [Hbs Hb]. rewrite Forall_singleton in Hb.
  rewrite be_value_snoc, length_app. simpl.
  rewrite Nat2Z.inj_add, Z.pow_add_r by lia. change (256 ^ Z.of_nat 1) with 256.
  specialize (IH Hbs). unfold is_u8 in Hb. lia.
Qed.

Lemma be_be_value bs n :
  bytes_ok bs → length bs = n → be n (be_value bs) = bs.
Proof.
  intros Hok <-. induction bs as [|b bs IH] using rev_ind; [done|].
  apply Forall_app in Hok as [Hbs Hb]. rewrite Forall_singleton in Hb.
  rewrite length_app, be_value_snoc. simpl. rewrite Nat.add_1_r, be_snoc.
  unfold is_u8 in Hb.
  rewrite Z.div_add_l, (Z.div_small b) by lia.
  rewrite Z.add_0_r, IH by done.
  f_equal. f_equal.
  rewrite Z.add_comm, Z.mod_add, Z.mod_small by lia. done.
Qed.

#[global] Arguments be : simpl never.

(** ** Bits of wrapped values *)

Lemma w64_testbit z i :
  0 <= i → Z.testbit (w64 z) i = (i <? 64) && Z.testbit z i.
Proof.
  intros Hi. unfold w64. change 18446744073709551616 with (2 ^ 64).
  destruct (Z.ltb_spec i 64).
  - by rewrite Z.mod_pow2_bits_low by lia.
  - by rewrite Z.mod_pow2_bits_high by lia.
Qed.

Lemma u64_testbit_high z i : is_u64 z → 64 <= i → Z.testbit z i = false.
Proof.
  intros Hz Hi. rewrite <- (w64_id z Hz), w64_testbit by lia.
  destruct (Z.ltb_spec i 64); [lia|done].
Qed.

(** A shifted value and one that fits below the shift do not overlap. *)
Lemma lor_shiftl_add a b k :
  0 <= k → 0 <= b < 2 ^ k → Z.lor (Z.shiftl a k) b = a * 2 ^ k + b.
Proof.
  intros Hk Hb.
  assert (Z.land (Z.shiftl a k) b = 0) as Hdisj.
  { apply Z.bits_inj'. intros i Hi. rewrite Z.land_spec, Z.bits_0, Z.shiftl_spec by lia.
    destruct (Z.ltb_spec i k).
    - by rewrite Z.testbit_neg_r by lia.
    - rewrite andb_comm. rewrite <- (Z.mod_small b (2 ^ k)) by lia.
      by rewrite Z.mod_pow2_bits_high by lia. }
  rewrite <- Z.lxor_lor, <- Z.add_nocarry_lxor by done.
  by rewrite Z.shiftl_mul_pow2 by lia.
Qed.

(** ** Hint databases

    [wire] rewrites the specifications of the wire primitives; [scn] collects
    the range facts that side conditions need. *)
Create HintDb scn.
#[export] Hint Resolve w8_range w16_range w32_range w64_range be_ok bytes_ok_app : scn.
Create Rewrite HintDb wire.
#[export] Hint Rewrite @length_app length_be @length_replicate : wire.

(** ** Record fields as assignable variables

    [x <| f := v |>] is [x] with field [f] set to [v].  An instance of
    [Assign f] is derived from the eta-expansion of the record. *)
Class Assign {R T : Type} (f : R → T) := assign : T → R → R.
#[global] Hint Mode Assign - - ! : typeclass_instances.
#[global] Arguments assign {R T} f {_} v x.

Declare Scope record_scope.
Delimit Scope record_scope with record.
#[warnings="-postfix-notation-not-level-1"]
Notation "x <| f := v |>" := (assign f v x)
  (at level 12, f at next level, left associativity) : record_scope.
#[global] Open Scope record_scope.

(** [derive_assign eta] solves [Assign f] where [eta x] rebuilds [x] field by field. *)
Ltac derive_assign eta :=
  match goal with
  | |- Assign ?f =>
      let v := fresh "v" in let x := fresh "x" in
      intros v x;
      let b := eval cbv beta delta [eta] in (eta x) in
      let p := eval pattern (f x) in b in
      match p with ?g _ => let r := eval cbv beta in (g v) in exact r end
  end.
