(* ===== verification/Result.v ===== *)
(** * Result codes and the effect monad

    [src/securecnet/include/securecnet/result.hpp]: the error enumeration,
    [Result], and the state-and-error monad in which the byte-level and
    session-level code is translated. *)
From S2P Require Import Prelude.
#[local] Open Scope Z_scope.

Module Errc.
Inductive Errc : Set :=
  | Ok
  | InvalidArg
  | SocketError
  | ResolveError
  | WouldBlock
  | Truncated
  | BadPacket
  | Internal
  | EndOfStream
  | QueueFull
  | UnsupportedVersion
  | AuthFailed
  | Timeout
  | Closed
  | StateError
  | Replay
  | ProtocolError
  | TooLarge
  | RateLimited
  | Backpressure.
End Errc.
Abbreviation Errc := Errc.Errc.

#[global] Instance Errc_eq_dec : EqDecision Errc.
Proof. solve_decision. Defined.

Record Result := mkResult { code : Errc; msg : string }.

#[global] Instance Result_eq_dec : EqDecision Result.
Proof. solve_decision. Defined.

(** [Result::ok], [Result::success], [Result::fail]. *)
Definition ok (r : Result) : bool := bool_decide (code r = Errc.Ok).
Definition success : Result := mkResult Errc.Ok "".
Definition fail_result (c : Errc) (m : string) : Result := mkResult c m.

(** What a call yields: a value, an early [return rc] with a failing code, or
    undefined behaviour (an access outside its buffer, [std::clamp] with
    crossed bounds, ...).  [UB] lets the safety theorems be stated. *)
Inductive outcome (A : Type) : Type :=
  | Done (a : A)
  | Err (rc : Result)
  | UB.
Arguments Done {A} a.
Arguments Err {A} rc.
Arguments UB {A}.

#[global] Instance outcome_eq_dec `{EqDecision A} : EqDecision (outcome A).
Proof. solve_decision. Defined.

Definition io (S A : Type) : Type := S → outcome A * S.

#[global] Instance io_ret S : MRet (io S) := λ _ a s, (Done a, s).
#[global] Instance io_bind S : MBind (io S) := λ _ _ f m s,
  match m s with
  | (Done a, s') => f a s'
  | (Err rc, s') => (Err rc, s')
  | (UB, s') => (UB, s')
  end.

(** [return Result::fail(c, m);] *)
Definition fail {S A} (c : Errc) (m : string) : io S A :=
  λ s, (Err (fail_result c m), s).
Definition undefined {S A} : io S A := λ s, (UB, s).
Definition get {S} : io S S := λ s, (Done s, s).
Definition put {S} (s' : S) : io S unit := λ _, (Done tt, s').

(** A computation outside the state, [auto rc = f(...)] without an early
    return, and an assignment to the state. *)
Definition lift {S A} (o : outcome A) : io S A := λ s, (o, s).
Definition attempt {S} (m : io S unit) : io S Result := λ s,
  match m s with
  | (Done _, s') => (Done success, s')
  | (Err rc, s') => (Done rc, s')
  | (UB, s') => (UB, s')
  end.
Definition modify {S} (f : S → S) : io S unit := λ s, (Done tt, f s).
Definition when {S} (b : bool) (m : io S unit) : io S unit := if b then m else mret tt.

(** The [Result] a caller sees. *)
Definition result_of {A} (o : outcome A) : option Result :=
  match o with Done _ => Some success | Err rc => Some rc | UB => None end.

(** [std::clamp(v, lo, hi)], undefined when the bounds cross. *)
Definition std_clamp (v lo hi : Z) : outcome Z :=
  if hi <? lo then UB
  else Done (if v <? lo then lo else if hi <? v then hi else v).

Lemma std_clamp_ok v lo hi : lo <= hi → ∃ r, std_clamp v lo hi = Done r ∧ lo <= r <= hi.
Proof.
  intros H. unfold std_clamp. rewrite (proj2 (Z.ltb_ge _ _)) by lia.
  eexists. split; [done|]. zcases; lia.
Qed.

Section monad_laws.
Context {S : Type}.
Implicit Types (s : S).

Lemma bind_done {A B} (m : io S A) (f : A → io S B) s a s' :
  m s = (Done a, s') → (m ≫= f) s = f a s'.
Proof. intros H. unfold mbind, io_bind. by rewrite H. Qed.

Lemma bind_err {A B} (m : io S A) (f : A → io S B) s rc s' :
  m s = (Err rc, s') → (m ≫= f) s = (Err rc, s').
Proof. intros H. unfold mbind, io_bind. by rewrite H. Qed.

Lemma bind_inv_done {A B} (m : io S A) (f : A → io S B) s b s'' :
  (m ≫= f) s = (Done b, s'') →
  ∃ a s', m s = (Done a, s') ∧ f a s' = (Done b, s'').
Proof.
  unfold mbind, io_bind. destruct (m s) as [[a|rc|] s']; intros; naive_solver.
Qed.

Lemma bind_assoc {A B C} (m : io S A) (f : A → io S B) (g : B → io S C) s :
  ((m ≫= f) ≫= g) s = (m ≫= λ a, f a ≫= g) s.
Proof. unfold mbind, io_bind. by destruct (m s) as [[a|rc|] s']. Qed.

Lemma bind_ext {A B} (m : io S A) (f g : A → io S B) s :
  (∀ a s', f a s' = g a s') → (m ≫= f) s = (m ≫= g) s.
Proof. unfold mbind, io_bind. intros H. destruct (m s) as [[a|rc|] s']; [apply H|done..]. Qed.

Lemma bind_ret_tt (m : io S unit) s : (m;; mret tt) s = m s.
Proof. unfold mbind, io_bind. by destruct (m s) as [[[]|rc|] s']. Qed.

Lemma fail_not_done {A} c m s (a : A) s' : fail c m s ≠ (Done a, s').
Proof. unfold fail. naive_solver. Qed.
End monad_laws.

(** Decompose a successful run into its steps. *)
Ltac inv_done H :=
  let a := fresh "a" in let s := fresh "s" in
  let H1 := fresh "Hm" in
  apply bind_inv_done in H as (a & s & H1 & H).
