(* ===== verification/Hoare.v ===== *)
(** * Reasoning about effectful operations

    A weakest precondition and a [Safe] judgement for the [io] monad, over any
    state.  [Safe P m] says that from a state with [P] the operation [m] is not
    undefined and leaves a state with [P], whether it succeeds or fails. *)
From S2P Require Import Prelude Result.
#[local] Open Scope Z_scope.

(** [wp E m w Q]: from [w], [m] is not undefined, a value and the world after
    satisfy [Q], and the world after an early return satisfies [E]. *)
Definition wp {W A} (E : W → Prop) (m : io W A) (w : W) (Q : A → W → Prop) : Prop :=
  match m w with
  | (Done a, w') => Q a w'
  | (Err _, w') => E w'
  | (UB, _) => False
  end.

Definition Safe {W A} (P : W → Prop) (m : io W A) : Prop :=
  ∀ w, P w → wp P m w (λ _, P).

Section wp.
Context {W A B : Type} (E : W → Prop).
Implicit Types (w : W).

Lemma wp_bind (m : io W A) (f : A → io W B) w Q :
  wp E m w (λ a w', wp E (f a) w' Q) → wp E (m ≫= f) w Q.
Proof. unfold wp, mbind, io_bind. by destruct (m w) as [[a|rc|] w']. Qed.

Lemma wp_ret (a : A) w (Q : A → W → Prop) : Q a w → wp E (mret a) w Q.
Proof. done. Qed.
Lemma wp_fail c m w (Q : A → W → Prop) : E w → wp E (fail c m) w Q.
Proof. done. Qed.
Lemma wp_err rc w (Q : A → W → Prop) : E w → wp E (lift (Err rc)) w Q.
Proof. done. Qed.
Lemma wp_lift (o : outcome A) w (Q : A → W → Prop) :
  o ≠ UB → (∀ a, o = Done a → Q a w) → (∀ rc, o = Err rc → E w) → wp E (lift o) w Q.
Proof. unfold wp, lift. destruct o; naive_solver. Qed.
Lemma wp_done (a : A) w (Q : A → W → Prop) : Q a w → wp E (lift (Done a)) w Q.
Proof. done. Qed.

Lemma wp_mono (m : io W A) w (Q Q' : A → W → Prop) :
  wp E m w Q → (∀ a w', Q a w' → Q' a w') → wp E m w Q'.
Proof. unfold wp. destruct (m w) as [[a|rc|] w']; naive_solver. Qed.
End wp.

Section rules.
Context {W : Type}.
Implicit Types (P E : W → Prop).

Lemma wp_weaken {A} E E' (m : io W A) w (Q Q' : A → W → Prop) :
  wp E m w Q → (∀ w', E w' → E' w') → (∀ a w', Q a w' → Q' a w') → wp E' m w Q'.
Proof. unfold wp. destruct (m w) as [[a|rc|] w']; naive_solver. Qed.

Lemma wp_safe {A} P E (m : io W A) w (Q : A → W → Prop) :
  Safe P m → P w → (∀ w', P w' → E w') → (∀ a w', P w' → Q a w') → wp E m w Q.
Proof. intros Hm Hw HE HQ. specialize (Hm w Hw). unfold wp in *. destruct (m w) as [[a|rc|] w']; auto. Qed.

Lemma wp_seq {A B} P E (m : io W A) (f : A → io W B) w Q :
  Safe P m → P w → (∀ w', P w' → E w') → (∀ a w', P w' → wp E (f a) w' Q) → wp E (m ≫= f) w Q.
Proof. intros. apply wp_bind. by eapply wp_safe. Qed.

(** Regroup a sequence. *)
Lemma wp_assoc {A B C} E (m : io W A) (f : A → io W B) (g : B → io W C) w Q :
  wp E (m ≫= f) w (λ b w', wp E (g b) w' Q) → wp E (m ≫= λ a, f a ≫= g) w Q.
Proof.
  unfold wp, mbind, io_bind. destruct (m w) as [[a|?|] w']; [|done..].
  by destruct (f a w') as [[b|?|] w''].
Qed.

Lemma wp_attempt P E (m : io W unit) w (Q : Result → W → Prop) :
  Safe P m → P w → (∀ rc w', P w' → Q rc w') → wp E (attempt m) w Q.
Proof.
  intros Hm Hw HQ. specialize (Hm w Hw). unfold wp, attempt in *.
  destruct (m w) as [[a|rc|] w']; auto.
Qed.

Lemma safe_ret {A} P (a : A) : Safe P (mret a).
Proof. by intros w Hw. Qed.
Lemma safe_fail {A} P c m : Safe (A:=A) P (fail c m).
Proof. by intros w Hw. Qed.
Lemma safe_err {A} P rc : Safe (A:=A) P (lift (Err rc)).
Proof. by intros w Hw. Qed.
Lemma safe_bind {A B} P (m : io W A) (f : A → io W B) :
  Safe P m → (∀ a, Safe P (f a)) → Safe P (m ≫= f).
Proof. intros Hm Hf w Hw. apply wp_bind. eapply wp_safe; [done..|]. intros. by apply Hf. Qed.
Lemma safe_when P b m : Safe P m → Safe P (when b m).
Proof. destruct b; [done|]. intros. apply safe_ret. Qed.
Lemma safe_attempt P m : Safe P m → Safe P (attempt m).
Proof. intros Hm w Hw. by eapply wp_attempt. Qed.
Lemma safe_if {A} P (b : bool) (m1 m2 : io W A) :
  (b = true → Safe P m1) → (b = false → Safe P m2) → Safe P (if b then m1 else m2).
Proof. destruct b; auto. Qed.
Lemma safe_lift {A} P (o : outcome A) : o ≠ UB → Safe P (lift o).
Proof. intros Ho w Hw. by apply wp_lift. Qed.
Lemma safe_bind_lift {A B} P (o : outcome A) (f : A → io W B) :
  o ≠ UB → (∀ a, o = Done a → Safe P (f a)) → Safe P (lift o ≫= f).
Proof. intros Ho Hf w Hw. apply wp_bind, wp_lift; [done| |done]. intros a Ha. by apply Hf. Qed.
End rules.

(** ** Operations that keep a part of the state *)

Definition Stable {W A X} (g : W → X) (m : io W A) : Prop := ∀ w, g (m w).2 = g w.

Section stable.
Context {W X : Type} (g : W → X).

Lemma stable_ret {A} (a : A) : Stable g (mret a).
Proof. done. Qed.
Lemma stable_lift {A} (o : outcome A) : Stable g (lift o).
Proof. done. Qed.
Lemma stable_bind {A B} (m : io W A) (f : A → io W B) :
  Stable g m → (∀ a, Stable g (f a)) → Stable g (m ≫= f).
Proof.
  intros Hm Hf w. specialize (Hm w). unfold mbind, io_bind.
  destruct (m w) as [[a|rc|] w']; cbn in *; [|done..]. by rewrite Hf.
Qed.
Lemma stable_when b m : Stable g m → Stable g (when b m).
Proof. by destruct b. Qed.
Lemma stable_if {A} (b : bool) (m1 m2 : io W A) :
  Stable g m1 → Stable g m2 → Stable g (if b then m1 else m2).
Proof. by destruct b. Qed.
Lemma stable_attempt (m : io W unit) : Stable g m → Stable g (attempt m).
Proof. intros Hm w. specialize (Hm w). unfold attempt. destruct (m w) as [[a|rc|] w']; exact Hm. Qed.

Lemma wp_stable {A} (P E : W → Prop) (m : io W A) w (Q : A → W → Prop) :
  Safe P m → Stable g m → P w → (∀ w', P w' → E w') →
  (∀ a w', P w' → g w' = g w → Q a w') → wp E m w Q.
Proof.
  intros Hm Hk Hw HE HQ. specialize (Hm w Hw). specialize (Hk w). unfold wp in *.
  destruct (m w) as [[a|rc|] w']; cbn in *; auto.
Qed.
End stable.

Create HintDb stable.
#[export] Hint Resolve stable_ret stable_lift stable_bind stable_when stable_if stable_attempt : stable.

Create HintDb safe.
#[export] Hint Resolve safe_ret safe_fail safe_err safe_when safe_attempt : safe.

(** Walk through a straight-line body whose steps are all in the database. *)
Ltac safe_steps :=
  repeat first
    [ solve [eauto with safe]
    | apply safe_bind; [solve [eauto with safe]|intros ?]
    | apply safe_if; intros ? ].
