(* ===== verification/ByteBuf.v ===== *)
(** * Network-order byte buffers

    [src/securecnet/lib/bytebuf.cpp] and [include/securecnet/bytebuf.hpp]: the
    bounds-checked cursor types [ByteWriter] and [ByteReader].  A pointer is an
    [option (list U8)] ([None] is [nullptr]); an access outside the list is
    [UB].  The second half gives each primitive its specification on the
    canonical cursors [writer_at] and [reader_at], and packages encoders and
    decoders that are inverse to each other in the class [Wire]. *)
From S2P Require Import Prelude Result.
#[local] Open Scope Z_scope.

Abbreviation ptr := (option (list U8)).

(** ** The writer *)

Record ByteWriter := mkWriter { dst : ptr; cap : ST; w_off : ST }.

Definition w_remaining (w : ByteWriter) : ST :=
  if w_off w <=? cap w then cap w - w_off w else 0.

Definition need_w (n : ST) : io ByteWriter unit := λ w,
  if (0 <? n) && bool_decide (dst w = None)
  then fail Errc.InvalidArg "ByteWriter destination is null" w
  else if n <=? w_remaining w then (Done tt, w)
  else fail Errc.Truncated "ByteWriter overflow" w.

(** [dst[off++] = v] *)
Definition store_byte (v : U8) : io ByteWriter unit := λ w,
  match dst w with
  | None => (UB, w)
  | Some d =>
      if (0 <=? w_off w) && (w_off w <? zlen d)
      then (Done tt, mkWriter (Some (<[Z.to_nat (w_off w) := v]> d)) (cap w) (w_off w + 1))
      else (UB, w)
  end.

(** [static_cast<U8>((v >> shift) & 0xFFu)] *)
Definition octet (v shift : Z) : U8 := w8 (Z.land (Z.shiftr v shift) 255).

Definition write_u8 (v : U8) : io ByteWriter unit :=
  need_w 1;; store_byte v.

Definition write_u16 (v : U16) : io ByteWriter unit :=
  need_w 2;;
  store_byte (octet v 8);;
  store_byte (octet v 0).

Definition write_u32 (v : U32) : io ByteWriter unit :=
  need_w 4;;
  store_byte (octet v 24);;
  store_byte (octet v 16);;
  store_byte (octet v 8);;
  store_byte (octet v 0).

(** [for (int i = 7; i >= 0; --i) dst[off++] = ...]: [store_octets (S i)] is
    the loop entered at index [i]. *)
Fixpoint store_octets (i : nat) (v : Z) : io ByteWriter unit :=
  match i with
  | O => mret tt
  | S k => store_byte (octet v (Z.of_nat k * 8));; store_octets k v
  end.

Definition write_u64 (v : U64) : io ByteWriter unit :=
  need_w 8;; store_octets 8 v.

(** [std::memcpy(dst + off, p, n); off += n] *)
Definition memcpy_in (p : list U8) (n : ST) : io ByteWriter unit := λ w,
  match dst w with
  | None => (UB, w)
  | Some d =>
      if (n <=? zlen p) && (0 <=? w_off w) && (w_off w + n <=? zlen d)
      then (Done tt,
            mkWriter (Some (take (Z.to_nat (w_off w)) d ++ take (Z.to_nat n) p
                            ++ drop (Z.to_nat (w_off w + n)) d))
                     (cap w) (w_off w + n))
      else (UB, w)
  end.

Definition write_bytes (p : ptr) (n : ST) : io ByteWriter unit :=
  if (0 <? n) && bool_decide (p = None)
  then fail Errc.InvalidArg "ByteWriter source is null"
  else
    need_w n;;
    (if 0 <? n then memcpy_in (default [] p) n else mret tt).

(** ** The reader *)

Record ByteReader := mkReader { src : ptr; r_len : ST; r_off : ST }.

Definition r_remaining (r : ByteReader) : ST :=
  if r_off r <=? r_len r then r_len r - r_off r else 0.

Definition need_r (n : ST) : io ByteReader unit := λ r,
  if (0 <? n) && bool_decide (src r = None)
  then fail Errc.InvalidArg "ByteReader source is null" r
  else if n <=? r_remaining r then (Done tt, r)
  else fail Errc.Truncated "ByteReader underrun" r.

(** [src[off + i]] *)
Definition load_byte (i : Z) : io ByteReader U8 := λ r,
  match src r with
  | None => (UB, r)
  | Some s =>
      if 0 <=? r_off r + i
      then match s !! Z.to_nat (r_off r + i) with
           | Some b => (Done b, r)
           | None => (UB, r)
           end
      else (UB, r)
  end.

(** [off += n] *)
Definition advance (n : ST) : io ByteReader unit := λ r,
  (Done tt, mkReader (src r) (r_len r) (r_off r + n)).

Definition read_u8 : io ByteReader U8 :=
  need_r 1;; b ← load_byte 0; advance 1;; mret b.

Definition read_u16 : io ByteReader U16 :=
  need_r 2;;
  b0 ← load_byte 0; b1 ← load_byte 1;
  advance 2;;
  mret (w16 (Z.lor (Z.shiftl b0 8) b1)).

Definition read_u32 : io ByteReader U32 :=
  need_r 4;;
  b0 ← load_byte 0; b1 ← load_byte 1; b2 ← load_byte 2; b3 ← load_byte 3;
  advance 4;;
  mret (Z.lor (Z.lor (Z.lor (w32 (Z.shiftl b0 24)) (w32 (Z.shiftl b1 16)))
                     (w32 (Z.shiftl b2 8))) b3).

(** [for (int i = 0; i < 8; ++i) v = (v << 8) | src[off + i]]: [load_be k i v]
    runs the [k] remaining iterations from index [i]. *)
Fixpoint load_be (k : nat) (i : Z) (v : U64) : io ByteReader U64 :=
  match k with
  | O => mret v
  | S k' => b ← load_byte i; load_be k' (i + 1) (Z.lor (w64 (Z.shiftl v 8)) b)
  end.

Definition read_u64 : io ByteReader U64 :=
  need_r 8;; v ← load_be 8 0 0; advance 8;; mret v.

(** [std::memcpy(p, src + off, n)] *)
Definition memcpy_out (n : ST) : io ByteReader (list U8) := λ r,
  match src r with
  | None => (UB, r)
  | Some s =>
      if (0 <=? r_off r) && (r_off r + n <=? zlen s)
      then (Done (take (Z.to_nat n) (drop (Z.to_nat (r_off r)) s)), r)
      else (UB, r)
  end.

(** [read_bytes(p, n)] with the [n] bytes stored through [p] as the value;
    [dst_null] says whether [p] is [nullptr]. *)
Definition read_bytes_to (dst_null : bool) (n : ST) : io ByteReader (list U8) :=
  if (0 <? n) && dst_null
  then fail Errc.InvalidArg "ByteReader destination is null"
  else
    need_r n;;
    (if 0 <? n then bs ← memcpy_out n; advance n;; mret bs else mret []).

Definition read_bytes (n : ST) : io ByteReader (list U8) := read_bytes_to false n.

(** The pointer [src + off] is represented by the [n] bytes it gives access to. *)
Definition peek_ptr (n : ST) (r : ByteReader) : ptr :=
  if r_remaining r <? n then None
  else if (0 <? n) && bool_decide (src r = None) then None
  else take (Z.to_nat n) ∘ drop (Z.to_nat (r_off r)) <$> src r.

Definition skip_r (n : ST) : io ByteReader unit := need_r n;; advance n.

(** ** Canonical cursors

    [writer_at out rest] has written [out] and has room for [length rest] more
    bytes; [reader_at pre rest] has consumed [pre] and has [rest] left. *)

Definition writer_at (out rest : list U8) : ByteWriter :=
  mkWriter (Some (out ++ rest)) (zlen (out ++ rest)) (zlen out).

Definition reader_at (pre rest : list U8) : ByteReader :=
  mkReader (Some (pre ++ rest)) (zlen (pre ++ rest)) (zlen pre).

(** The bytes written so far: [(dst, off)]. *)
Definition written (w : ByteWriter) : list U8 :=
  take (Z.to_nat (w_off w)) (default [] (dst w)).

(** A cursor over a buffer whose extent is what the caller says it is. *)
Definition writer_wf (w : ByteWriter) : Prop :=
  0 <= w_off w <= cap w ∧ match dst w with Some d => zlen d = cap w | None => cap w = 0 end.

Definition reader_wf (r : ByteReader) : Prop :=
  0 <= r_off r <= r_len r ∧ match src r with Some s => zlen s = r_len r | None => r_len r = 0 end.

Lemma writer_wf_at out rest : writer_wf (writer_at out rest).
Proof. unfold writer_wf, writer_at. simpl. rewrite length_app. lia. Qed.

Lemma reader_wf_at pre rest : reader_wf (reader_at pre rest).
Proof. unfold reader_wf, reader_at. simpl. rewrite length_app. lia. Qed.

Lemma written_at out rest : written (writer_at out rest) = out.
Proof. unfold written, writer_at. simpl. by rewrite Nat2Z.id, take_app_length. Qed.

Lemma writer_wf_inv w d :
  writer_wf w → dst w = Some d →
  w = writer_at (take (Z.to_nat (w_off w)) d) (drop (Z.to_nat (w_off w)) d).
Proof.
  intros [Hoff Hd] Hdst. rewrite Hdst in Hd. unfold writer_at.
  rewrite take_drop, length_take. destruct w; simpl in *. subst. f_equal. lia.
Qed.

Lemma reader_wf_inv r s :
  reader_wf r → src r = Some s →
  r = reader_at (take (Z.to_nat (r_off r)) s) (drop (Z.to_nat (r_off r)) s).
Proof.
  intros [Hoff Hs] Hsrc. rewrite Hsrc in Hs. unfold reader_at.
  rewrite take_drop, length_take. destruct r; simpl in *. subst. f_equal. lia.
Qed.

Lemma w_remaining_at out rest : w_remaining (writer_at out rest) = zlen rest.
Proof.
  unfold w_remaining, writer_at. simpl. rewrite length_app.
  destruct (Z.leb_spec (zlen out) (Z.of_nat (length out + length rest))); lia.
Qed.

Lemma r_remaining_at pre rest : r_remaining (reader_at pre rest) = zlen rest.
Proof.
  unfold r_remaining, reader_at. simpl. rewrite length_app.
  destruct (Z.leb_spec (zlen pre) (Z.of_nat (length pre + length rest))); lia.
Qed.

#[export] Hint Rewrite w_remaining_at r_remaining_at written_at : wire.

(** ** Specifications of the writer primitives *)

Lemma octet_be v k : octet v (Z.of_nat k * 8) = (v / 256 ^ Z.of_nat k) mod 256.
Proof.
  unfold octet. rewrite Z.shiftr_div_pow2 by lia.
  change 255 with (Z.ones 8). rewrite Z.land_ones by lia.
  rewrite (Z.mul_comm _ 8), Z.pow_mul_r by lia.
  change (2 ^ 8) with 256. unfold w8. by rewrite Z.mod_mod by lia.
Qed.

Lemma need_w_at n out rest :
  need_w n (writer_at out rest) =
    if n <=? zlen rest then (Done tt, writer_at out rest)
    else fail Errc.Truncated "ByteWriter overflow" (writer_at out rest).
Proof.
  unfold need_w. rewrite w_remaining_at. simpl.
  by rewrite andb_false_r.
Qed.

Lemma store_byte_at v out b rest :
  store_byte v (writer_at out (b :: rest)) = (Done tt, writer_at (out ++ [v]) rest).
Proof.
  unfold store_byte, writer_at. simpl. rewrite !length_app. simpl.
  destruct (Z.leb_spec 0 (zlen out)); [|lia].
  destruct (Z.ltb_spec (zlen out) (Z.of_nat (length out + S (length rest)))); [|lia].
  simpl. rewrite Nat2Z.id, insert_app_r_alt, Nat.sub_diag by lia. simpl.
  rewrite <- app_assoc. simpl. do 2 f_equal; lia.
Qed.

Lemma store_octets_at n v out rest :
  (n <= length rest)%nat →
  store_octets n v (writer_at out rest) = (Done tt, writer_at (out ++ be n v) (drop n rest)).
Proof.
  revert out rest. induction n as [|n IH]; intros out rest Hlen.
  { simpl. by rewrite app_nil_r. }
  destruct rest as [|b rest]; [simpl in *; lia|].
  change (store_octets (S n) v) with
    (store_byte (octet v (Z.of_nat n * 8));; store_octets n v).
  rewrite (bind_done _ _ _ _ _ (store_byte_at _ _ _ _)).
  rewrite IH by (simpl in Hlen; lia). rewrite octet_be, <- app_assoc. done.
Qed.

(** The three fixed-width writers are instances of the loop. *)
Lemma write_u8_loop v w : is_u8 v → write_u8 v w = (need_w 1;; store_octets 1 v) w.
Proof.
  intros Hv. apply bind_ext. intros _ w1. cbn [store_octets].
  rewrite bind_ret_tt, octet_be. change (256 ^ Z.of_nat 0) with 1.
  by rewrite Z.div_1_r, Z.mod_small by done.
Qed.

Lemma write_u16_loop v w : write_u16 v w = (need_w 2;; store_octets 2 v) w.
Proof. do 2 (apply bind_ext; intros). cbn [store_octets]. by rewrite bind_ret_tt. Qed.

Lemma write_u32_loop v w : write_u32 v w = (need_w 4;; store_octets 4 v) w.
Proof. do 4 (apply bind_ext; intros). cbn [store_octets]. by rewrite bind_ret_tt. Qed.

Section write_int.
Context (n : nat) (v : Z) (out rest : list U8).

Lemma write_loop_at :
  (n <= length rest)%nat →
  (need_w (Z.of_nat n);; store_octets n v) (writer_at out rest) =
    (Done tt, writer_at (out ++ be n v) (drop n rest)).
Proof.
  intros Hlen. erewrite bind_done; [by apply store_octets_at|].
  rewrite need_w_at. destruct (Z.leb_spec (Z.of_nat n) (zlen rest)); [done|lia].
Qed.

Lemma write_loop_short :
  (length rest < n)%nat →
  (need_w (Z.of_nat n);; store_octets n v) (writer_at out rest) =
    (Err (fail_result Errc.Truncated "ByteWriter overflow"), writer_at out rest).
Proof.
  intros Hlen. apply bind_err.
  rewrite need_w_at. destruct (Z.leb_spec (Z.of_nat n) (zlen rest)); [lia|done].
Qed.
End write_int.

Lemma write_bytes_at p n out rest :
  zlen p = n → n <= zlen rest →
  write_bytes (Some p) n (writer_at out rest) =
    (Done tt, writer_at (out ++ p) (drop (length p) rest)).
Proof.
  intros Hn Hlen. unfold write_bytes.
  rewrite bool_decide_eq_false_2, andb_false_r by done.
  erewrite bind_done; [|rewrite need_w_at; destruct (Z.leb_spec n (zlen rest)); [done|lia]].
  destruct (Z.ltb_spec 0 n).
  - unfold memcpy_in, writer_at. simpl. rewrite !length_app.
    rewrite (proj2 (Z.leb_le n (zlen p))), (proj2 (Z.leb_le 0 (zlen out))) by lia.
    rewrite (proj2 (Z.leb_le _ _)) by lia. simpl.
    rewrite Nat2Z.id, take_app_length, take_ge by lia.
    replace (Z.to_nat (zlen out + n)) with (length out + length p)%nat by lia.
    rewrite drop_app_add, <- app_assoc. do 2 f_equal; rewrite ?length_app, ?length_drop; lia.
  - destruct p; [|simpl in *; lia]. simpl. by rewrite app_nil_r.
Qed.

(** Only the first [n] bytes behind the source pointer matter. *)
Lemma write_bytes_take p n :
  n <= zlen p → write_bytes (Some p) n = write_bytes (Some (take (Z.to_nat n) p)) n.
Proof.
  intros Hn. unfold write_bytes. rewrite !bool_decide_eq_false_2, !andb_false_r by done.
  destruct (Z.ltb_spec 0 n); [|done]. cbn [from_option id].
  unfold memcpy_in. rewrite take_take, Nat.min_id, length_take.
  rewrite (proj2 (Z.leb_le n (zlen p))), (proj2 (Z.leb_le n _)) by lia. done.
Qed.

Lemma write_bytes_short p n out rest :
  zlen rest < n →
  write_bytes (Some p) n (writer_at out rest) =
    (Err (fail_result Errc.Truncated "ByteWriter overflow"), writer_at out rest).
Proof.
  intros Hlen. unfold write_bytes.
  rewrite bool_decide_eq_false_2, andb_false_r by done.
  apply bind_err. rewrite need_w_at. destruct (Z.leb_spec n (zlen rest)); [lia|done].
Qed.

(** ** Specifications of the reader primitives *)

Lemma need_r_at n pre rest :
  need_r n (reader_at pre rest) =
    if n <=? zlen rest then (Done tt, reader_at pre rest)
    else fail Errc.Truncated "ByteReader underrun" (reader_at pre rest).
Proof.
  unfold need_r. rewrite r_remaining_at. simpl.
  by rewrite andb_false_r.
Qed.

Lemma load_byte_at i b pre rest :
  0 <= i → rest !! Z.to_nat i = Some b →
  load_byte i (reader_at pre rest) = (Done b, reader_at pre rest).
Proof.
  intros Hi Hb. unfold load_byte, reader_at. simpl.
  destruct (Z.leb_spec 0 (zlen pre + i)); [|lia].
  rewrite lookup_app_r by lia.
  replace (Z.to_nat (zlen pre + i) - length pre)%nat with (Z.to_nat i) by lia.
  by rewrite Hb.
Qed.

Lemma advance_at n pre rest :
  (n <= length rest)%nat →
  advance (Z.of_nat n) (reader_at pre rest) =
    (Done tt, reader_at (pre ++ take n rest) (drop n rest)).
Proof.
  intros Hlen. unfold advance, reader_at. simpl.
  rewrite <- app_assoc, take_drop. do 2 f_equal. rewrite length_app, length_take. lia.
Qed.

Lemma load_be_at k i v pre bs1 bs2 rest :
  length bs1 = Z.to_nat i → 0 <= i → length bs2 = k → bytes_ok bs2 →
  0 <= v → v * 256 ^ Z.of_nat k + 256 ^ Z.of_nat k <= 256 ^ 8 →
  load_be k i v (reader_at pre (bs1 ++ bs2 ++ rest)) =
    (Done (foldl (λ acc b, acc * 256 + b) v bs2), reader_at pre (bs1 ++ bs2 ++ rest)).
Proof.
  revert i v bs1 bs2. induction k as [|k IH]; intros i v bs1 bs2 Hi1 Hi Hk Hok Hv Hb.
  { by destruct bs2; [|simpl in *; lia]. }
  destruct bs2 as [|b bs2]; [simpl in *; lia|].
  inversion Hok as [|? ? Hb0 Hok']; subst. unfold is_u8 in Hb0.
  cbn [load_be]. rewrite Nat2Z.inj_succ, Z.pow_succ_r in Hb by lia.
  assert (0 < 256 ^ Z.of_nat k) by (apply Z.pow_pos_nonneg; lia).
  assert (v * 256 + 256 <= 256 ^ 8) by nia.
  erewrite bind_done.
  2:{ apply load_byte_at; [lia|]. rewrite lookup_app_r by lia.
      rewrite Hi1, Nat.sub_diag. done. }
  rewrite w64_id by (unfold is_u64; rewrite Z.shiftl_mul_pow2 by lia; simpl in *; lia).
  rewrite lor_shiftl_add by lia. change (2 ^ 8) with 256.
  specialize (IH (i + 1) (v * 256 + b) (bs1 ++ [b]) bs2).
  rewrite <- !app_assoc in IH. simpl in IH. simpl.
  apply IH; [rewrite length_app; simpl; lia|lia|simpl in *; lia|done|lia|nia].
Qed.

(** Every integer reader yields the value of the bytes it consumes. *)
Definition reads_int (n : nat) (m : io ByteReader Z) : Prop :=
  ∀ pre bs rest, length bs = n → bytes_ok bs →
    m (reader_at pre (bs ++ rest)) = (Done (be_value bs), reader_at (pre ++ bs) rest).

Lemma need_r_ok n pre rest :
  n <= zlen rest → need_r n (reader_at pre rest) = (Done tt, reader_at pre rest).
Proof. intros. rewrite need_r_at. by rewrite (proj2 (Z.leb_le _ _)). Qed.

Lemma need_r_short n pre rest :
  zlen rest < n →
  need_r n (reader_at pre rest) =
    (Err (fail_result Errc.Truncated "ByteReader underrun"), reader_at pre rest).
Proof. intros. rewrite need_r_at. by rewrite (proj2 (Z.leb_gt _ _)). Qed.

Lemma advance_app pre bs rest n :
  n = zlen bs → advance n (reader_at pre (bs ++ rest)) = (Done tt, reader_at (pre ++ bs) rest).
Proof.
  intros ->. rewrite advance_at by (rewrite length_app; lia).
  by rewrite take_app_length, drop_app_length.
Qed.

(** Run the next step of a reader on [reader_at] by its specification. *)
Ltac rstep lem := erewrite bind_done; [|apply lem; simpl; try done; rewrite ?length_app; try lia].

Lemma read_u64_reads : reads_int 8 read_u64.
Proof.
  intros pre bs rest Hlen Hok. unfold read_u64.
  rstep need_r_ok.
  rstep (load_be_at 8 0 0 pre [] bs rest).
  simpl. rstep advance_app. done.
Qed.

Lemma read_u8_reads : reads_int 1 read_u8.
Proof.
  intros pre bs rest Hlen Hok. unfold read_u8.
  destruct bs as [|b [|? ?]]; simplify_eq/=.
  rstep need_r_ok. rstep load_byte_at.
  rstep (advance_app pre [b] rest). unfold be_value. simpl. done.
Qed.

Lemma read_u16_reads : reads_int 2 read_u16.
Proof.
  intros pre bs rest Hlen Hok. unfold read_u16.
  destruct bs as [|b0 [|b1 [|? ?]]]; simplify_eq/=.
  inversion Hok as [|? ? H0 Hok']; subst. inversion Hok' as [|? ? H1 _]; subst.
  rstep need_r_ok. rstep load_byte_at. rstep load_byte_at.
  rstep (advance_app pre [b0; b1] rest). unfold be_value. simpl.
  unfold is_u8 in *. rewrite lor_shiftl_add by lia.
  unfold mret, io_ret. do 2 f_equal. apply w16_id. unfold is_u16. lia.
Qed.

Lemma read_u32_reads : reads_int 4 read_u32.
Proof.
  intros pre bs rest Hlen Hok. unfold read_u32.
  destruct bs as [|b0 [|b1 [|b2 [|b3 [|? ?]]]]]; simplify_eq/=.
  unfold bytes_ok in Hok. rewrite !Forall_cons in Hok.
  destruct Hok as (H0 & H1 & H2 & H3 & _). unfold is_u8 in *.
  rstep need_r_ok. do 4 rstep load_byte_at.
  rstep (advance_app pre [b0; b1; b2; b3] rest). unfold be_value. simpl.
  unfold mret, io_ret. do 2 f_equal.
  rewrite !w32_id by (unfold is_u32; rewrite Z.shiftl_mul_pow2 by lia; lia).
  rewrite <- !Z.lor_assoc.
  rewrite (lor_shiftl_add b2 b3), (Z.shiftl_mul_pow2 b1), <- Z.shiftl_mul_pow2 by lia.
  rewrite (lor_shiftl_add b1) by lia. rewrite lor_shiftl_add by lia. lia.
Qed.

Lemma memcpy_out_app bs pre rest n :
  n = zlen bs → memcpy_out n (reader_at pre (bs ++ rest)) = (Done bs, reader_at pre (bs ++ rest)).
Proof.
  intros ->. unfold memcpy_out, reader_at. simpl. rewrite !length_app.
  rewrite (proj2 (Z.leb_le 0 _)), (proj2 (Z.leb_le _ _)) by lia. simpl.
  by rewrite !Nat2Z.id, drop_app_length, take_app_length.
Qed.

Lemma read_bytes_app bs pre rest n :
  n = zlen bs →
  read_bytes n (reader_at pre (bs ++ rest)) = (Done bs, reader_at (pre ++ bs) rest).
Proof.
  intros Hn. unfold read_bytes, read_bytes_to. rewrite andb_false_r.
  rstep need_r_ok.
  destruct (Z.ltb_spec 0 n).
  - rstep memcpy_out_app. rstep advance_app. done.
  - destruct bs; [|simpl in *; lia]. simpl. by rewrite app_nil_r.
Qed.

Lemma read_bytes_short pre rest n :
  zlen rest < n →
  read_bytes n (reader_at pre rest) =
    (Err (fail_result Errc.Truncated "ByteReader underrun"), reader_at pre rest).
Proof.
  intros. unfold read_bytes, read_bytes_to. rewrite andb_false_r.
  by apply bind_err, need_r_short.
Qed.

Lemma peek_ptr_app bs pre rest n :
  n = zlen bs → peek_ptr n (reader_at pre (bs ++ rest)) = Some bs.
Proof.
  intros ->. unfold peek_ptr. rewrite r_remaining_at, length_app.
  rewrite (proj2 (Z.ltb_ge _ _)) by lia. simpl. rewrite andb_false_r. simpl.
  by rewrite !Nat2Z.id, drop_app_length, take_app_length.
Qed.

Lemma skip_r_app bs pre rest n :
  n = zlen bs → skip_r n (reader_at pre (bs ++ rest)) = (Done tt, reader_at (pre ++ bs) rest).
Proof.
  intros Hn. unfold skip_r. rstep need_r_ok. by apply advance_app.
Qed.

(** ** Memory safety of readers and writers

    [ReaderSafe m]: on a cursor over a real buffer, [m] never performs an
    out-of-bounds access and leaves such a cursor.  The instances follow the
    shape of the code, so a composite parser is safe by resolution. *)

Class ReaderSafe {A} (m : io ByteReader A) : Prop :=
  reader_safe r : reader_wf r → (m r).1 ≠ UB ∧ reader_wf (m r).2.

Class WriterSafe {A} (m : io ByteWriter A) : Prop :=
  writer_safe w : writer_wf w → (m w).1 ≠ UB ∧ writer_wf (m w).2.

#[global] Hint Mode ReaderSafe ! ! : typeclass_instances.
#[global] Hint Mode WriterSafe ! ! : typeclass_instances.

Section safe_monad.
Context {A B : Type}.

#[global] Instance reader_safe_ret (a : A) : ReaderSafe (mret a).
Proof. by intros r Hr. Qed.
#[global] Instance writer_safe_ret (a : A) : WriterSafe (mret a).
Proof. by intros r Hr. Qed.
#[global] Instance reader_safe_fail c m : ReaderSafe (A:=A) (fail c m).
Proof. by intros r Hr. Qed.
#[global] Instance writer_safe_fail c m : WriterSafe (A:=A) (fail c m).
Proof. by intros r Hr. Qed.
#[global] Instance reader_safe_bind (m : io ByteReader A) (f : A → io ByteReader B) :
  ReaderSafe m → (∀ a, ReaderSafe (f a)) → ReaderSafe (m ≫= f).
Proof.
  intros Hm Hf r Hr. destruct (Hm r Hr) as [H1 H2]. unfold mbind, io_bind.
  destruct (m r) as [[a|rc|] r']; [by apply Hf|done..].
Qed.
Lemma reader_safe_bind_val (m : io ByteReader A) (f : A → io ByteReader B) r :
  ReaderSafe m → reader_wf r →
  (∀ a r', m r = (Done a, r') → reader_wf r' → (f a r').1 ≠ UB ∧ reader_wf (f a r').2) →
  ((m ≫= f) r).1 ≠ UB ∧ reader_wf ((m ≫= f) r).2.
Proof.
  intros Hm Hr Hf. destruct (Hm r Hr) as [H1 H2]. unfold mbind, io_bind.
  destruct (m r) as [[a|rc|] r']; [by apply Hf|done..].
Qed.
#[global] Instance writer_safe_bind (m : io ByteWriter A) (f : A → io ByteWriter B) :
  WriterSafe m → (∀ a, WriterSafe (f a)) → WriterSafe (m ≫= f).
Proof.
  intros Hm Hf r Hr. destruct (Hm r Hr) as [H1 H2]. unfold mbind, io_bind.
  destruct (m r) as [[a|rc|] r']; [by apply Hf|done..].
Qed.
#[global] Instance reader_safe_if (b : bool) (m1 m2 : io ByteReader A) :
  ReaderSafe m1 → ReaderSafe m2 → ReaderSafe (if b then m1 else m2).
Proof. by destruct b. Qed.
#[global] Instance writer_safe_if (b : bool) (m1 m2 : io ByteWriter A) :
  WriterSafe m1 → WriterSafe m2 → WriterSafe (if b then m1 else m2).
Proof. by destruct b. Qed.
#[global] Instance reader_safe_get (f : ByteReader → io ByteReader B) :
  (∀ r, ReaderSafe (f r)) → ReaderSafe (get ≫= f).
Proof. intros Hf r Hr. by apply Hf. Qed.
End safe_monad.

(** A read that starts with [need_r n] and then only touches the next [n]
    bytes: it suffices to check it on [reader_at]. *)
Lemma reader_safe_need {A} n (k : io ByteReader A) :
  0 < n →
  (∀ pre rest, n <= zlen rest →
     (k (reader_at pre rest)).1 ≠ UB ∧ reader_wf (k (reader_at pre rest)).2) →
  ReaderSafe (need_r n;; k).
Proof.
  intros Hn Hk r Hr. destruct (src r) as [s|] eqn:Hs.
  - rewrite (reader_wf_inv _ _ Hr Hs).
    destruct (Z.leb_spec n (zlen (drop (Z.to_nat (r_off r)) s))).
    + erewrite bind_done by (by apply need_r_ok). by apply Hk.
    + erewrite bind_err by (by apply need_r_short). split; [done|apply reader_wf_at].
  - erewrite bind_err; [by split|]. unfold need_r.
    by rewrite (proj2 (Z.ltb_lt _ _)), bool_decide_eq_true_2.
Qed.

Lemma load_byte_wf i pre rest :
  0 <= i < zlen rest →
  ∃ b, load_byte i (reader_at pre rest) = (Done b, reader_at pre rest).
Proof.
  intros Hi. destruct (lookup_lt_is_Some_2 rest (Z.to_nat i)) as [b Hb]; [lia|].
  exists b. apply load_byte_at; [lia|done].
Qed.

Lemma advance_wf n pre rest :
  0 <= n <= zlen rest → reader_wf (advance n (reader_at pre rest)).2.
Proof.
  intros Hn. unfold advance, reader_at, reader_wf. simpl. rewrite length_app. lia.
Qed.

Ltac load_step :=
  match goal with
  | |- context [(load_byte ?i ≫= _) (reader_at ?pre ?rest)] =>
      let b := fresh "b" in let H := fresh "Hb" in
      destruct (load_byte_wf i pre rest ltac:(lia)) as [b H];
      erewrite bind_done by exact H; clear H
  end.

#[global] Instance read_u8_safe : ReaderSafe read_u8.
Proof.
  apply reader_safe_need; [lia|]. intros pre rest Hn. load_step.
  split; [done|]. apply advance_wf. lia.
Qed.
#[global] Instance read_u16_safe : ReaderSafe read_u16.
Proof.
  apply reader_safe_need; [lia|]. intros pre rest Hn. do 2 load_step.
  split; [done|]. apply advance_wf. lia.
Qed.
#[global] Instance read_u32_safe : ReaderSafe read_u32.
Proof.
  apply reader_safe_need; [lia|]. intros pre rest Hn. do 4 load_step.
  split; [done|]. apply advance_wf. lia.
Qed.

Lemma load_be_wf k i v pre rest :
  0 <= i → i + Z.of_nat k <= zlen rest →
  ∃ v', load_be k i v (reader_at pre rest) = (Done v', reader_at pre rest).
Proof.
  revert i v. induction k as [|k IH]; intros i v Hi Hk; [by exists v|].
  cbn [load_be]. load_step. apply IH; lia.
Qed.

#[global] Instance read_u64_safe : ReaderSafe read_u64.
Proof.
  apply reader_safe_need; [lia|]. intros pre rest Hn.
  destruct (load_be_wf 8 0 0 pre rest) as [v Hv]; [lia..|].
  erewrite bind_done by exact Hv. split; [done|]. apply advance_wf. lia.
Qed.

Lemma read_u16_range r v r' : read_u16 r = (Done v, r') → is_u16 v.
Proof.
  unfold read_u16. intros H. do 4 inv_done H.
  unfold mret, io_ret in H. simplify_eq. apply w16_range.
Qed.

#[global] Instance read_bytes_safe n : ReaderSafe (read_bytes n).
Proof.
  unfold read_bytes, read_bytes_to. rewrite andb_false_r.
  destruct (Z.ltb_spec 0 n).
  - apply reader_safe_need; [lia|]. intros pre rest Hn.
    rewrite <- (take_drop (Z.to_nat n) rest).
    erewrite bind_done by (apply memcpy_out_app; rewrite length_take; lia).
    split; [done|]. apply advance_wf. rewrite length_app, length_take, length_drop. lia.
  - intros r Hr. unfold mbind, io_bind, need_r.
    destruct (n <=? r_remaining r); rewrite (proj2 (Z.ltb_ge _ _)) by lia; by simpl.
Qed.

#[global] Instance skip_r_safe n : 0 <= n → ReaderSafe (skip_r n).
Proof.
  intros Hn. destruct (Z.ltb_spec 0 n).
  - apply reader_safe_need; [lia|]. intros pre rest Hr. split; [done|]. apply advance_wf. lia.
  - replace n with 0 by lia. intros r Hr. unfold skip_r, mbind, io_bind, need_r.
    simpl. destruct (0 <=? r_remaining r); simpl; [|done].
    split; [done|]. destruct Hr as [? Hs]. split; [simpl; lia|exact Hs].
Qed.

Lemma writer_safe_need {A} n (k : io ByteWriter A) :
  0 < n →
  (∀ out rest, n <= zlen rest →
     (k (writer_at out rest)).1 ≠ UB ∧ writer_wf (k (writer_at out rest)).2) →
  WriterSafe (need_w n;; k).
Proof.
  intros Hn Hk w Hw. destruct (dst w) as [d|] eqn:Hd.
  - rewrite (writer_wf_inv _ _ Hw Hd).
    destruct (Z.leb_spec n (zlen (drop (Z.to_nat (w_off w)) d))) as [Hle|Hgt].
    + erewrite bind_done; [by apply Hk|]. rewrite need_w_at.
      by rewrite (proj2 (Z.leb_le _ _) Hle).
    + erewrite bind_err; [split; [done|apply writer_wf_at]|]. rewrite need_w_at.
      by rewrite (proj2 (Z.leb_gt _ _) Hgt).
  - erewrite bind_err; [by split|]. unfold need_w.
    by rewrite (proj2 (Z.ltb_lt _ _)), bool_decide_eq_true_2.
Qed.

Lemma store_octets_safe n v : (0 < n)%nat → WriterSafe (need_w (Z.of_nat n);; store_octets n v).
Proof.
  intros Hn. apply writer_safe_need; [lia|]. intros out rest Hr.
  rewrite store_octets_at by lia. split; [done|apply writer_wf_at].
Qed.

#[global] Instance write_u8_safe v : WriterSafe (write_u8 v).
Proof.
  apply writer_safe_need; [lia|]. intros out [|b rest] Hr; [simpl in Hr; lia|].
  rewrite store_byte_at. split; [done|apply writer_wf_at].
Qed.
#[global] Instance write_u16_safe v : WriterSafe (write_u16 v).
Proof. intros w Hw. rewrite write_u16_loop. exact (store_octets_safe 2 v ltac:(lia) w Hw). Qed.
#[global] Instance write_u32_safe v : WriterSafe (write_u32 v).
Proof. intros w Hw. rewrite write_u32_loop. exact (store_octets_safe 4 v ltac:(lia) w Hw). Qed.
#[global] Instance write_u64_safe v : WriterSafe (write_u64 v).
Proof. exact (store_octets_safe 8 v ltac:(lia)). Qed.

(** [write_bytes p n] is safe when [p] points to at least [n] bytes, or is null. *)
Lemma write_bytes_safe p n :
  match p with Some bs => n <= zlen bs | None => True end → WriterSafe (write_bytes p n).
Proof.
  intros Hp. unfold write_bytes. destruct p as [bs|].
  - rewrite bool_decide_eq_false_2, andb_false_r by done.
    destruct (Z.ltb_spec 0 n).
    + apply writer_safe_need; [lia|]. intros out rest Hr. simpl.
      unfold memcpy_in, writer_at. simpl. rewrite !length_app.
      rewrite (proj2 (Z.leb_le n _)), (proj2 (Z.leb_le 0 _)), (proj2 (Z.leb_le _ _)) by lia.
      simpl. split; [done|]. unfold writer_wf. simpl.
      rewrite !length_app, !length_take, !length_drop, !length_app. lia.
    + intros w Hw. unfold mbind, io_bind, need_w.
      rewrite (proj2 (Z.ltb_ge 0 n)) by lia. simpl. by destruct (n <=? w_remaining w).
  - destruct (Z.ltb_spec 0 n); simpl; [by intros w Hw|].
    intros w Hw. unfold mbind, io_bind, need_w.
    rewrite (proj2 (Z.ltb_ge 0 n)) by lia. simpl. by destruct (n <=? w_remaining w).
Qed.

(** ** Inverse encoders and decoders

    What a wire type promises to the formats built from it: the writer appends
    the encoding, the reader consumes exactly an encoding, and a successful
    read only ever consumes an encoding of the value it returns. *)

Class Wire {A} (wr : A → io ByteWriter unit) (rd : io ByteReader A)
    (enc : A → list U8) (valid : A → Prop) : Prop := {
  wire_put a out rest :
    valid a → (length (enc a) <= length rest)%nat →
    wr a (writer_at out rest) =
      (Done tt, writer_at (out ++ enc a) (drop (length (enc a)) rest));
  wire_get a pre rest :
    valid a → rd (reader_at pre (enc a ++ rest)) = (Done a, reader_at (pre ++ enc a) rest);
  wire_canon a pre rest r' :
    bytes_ok rest → rd (reader_at pre rest) = (Done a, r') →
    valid a ∧ ∃ rest', rest = enc a ++ rest' ∧ r' = reader_at (pre ++ enc a) rest';
  wire_ok a : valid a → bytes_ok (enc a);
}.
#[global] Hint Mode Wire - ! - - - : typeclass_instances.
#[global] Hint Mode Wire - - ! - - : typeclass_instances.

Section wire_int.
Context (n : nat) (wr : Z → io ByteWriter unit) (rd : io ByteReader Z) (valid : Z → Prop).
Hypothesis Hpos : (0 < n)%nat.
Hypothesis Hvalid : ∀ v, valid v ↔ 0 <= v < 256 ^ Z.of_nat n.
Hypothesis Hwr : ∀ v w, valid v → wr v w = (need_w (Z.of_nat n);; store_octets n v) w.
Hypothesis Hrd : reads_int n rd.
Hypothesis Hshort : ∀ pre rest a r',
  (length rest < n)%nat → rd (reader_at pre rest) ≠ (Done a, r').

Lemma wire_int : Wire wr rd (be n) valid.
Proof.
  split.
  - intros v out rest Hv. rewrite length_be. intros Hlen.
    rewrite Hwr by done. by apply write_loop_at.
  - intros v pre rest Hv. rewrite Hrd by (apply length_be || apply be_ok).
    rewrite be_value_be by (by apply Hvalid). done.
  - intros v pre rest r' Hok Hread.
    destruct (decide (length rest < n)%nat) as [Hs|Hs]; [by eapply Hshort in Hs|].
    rewrite <- (take_drop n rest) in Hok, Hread |- *.
    apply Forall_app in Hok as [Hok1 Hok2].
    assert (length (take n rest) = n) as Hlen by (rewrite length_take; lia).
    rewrite Hrd in Hread by done. simplify_eq.
    pose proof (be_value_bound _ Hok1) as Hb. rewrite Hlen in Hb.
    split; [by apply Hvalid|]. exists (drop n rest).
    by rewrite (be_be_value _ n) by done.
  - intros v _. apply be_ok.
Qed.
End wire_int.

Lemma need_short_not_done {A} n (k : io ByteReader A) pre rest a r' :
  zlen rest < n → (need_r n;; k) (reader_at pre rest) ≠ (Done a, r').
Proof. intros Hs. by erewrite bind_err by (by apply need_r_short). Qed.

#[global] Instance wire_u8 : Wire write_u8 read_u8 (be 1) is_u8.
Proof.
  apply (wire_int 1); [lia|done|intros; by apply write_u8_loop|apply read_u8_reads|].
  intros. apply need_short_not_done. lia.
Qed.
#[global] Instance wire_u16 : Wire write_u16 read_u16 (be 2) is_u16.
Proof.
  apply (wire_int 2); [lia|done|intros; by apply write_u16_loop|apply read_u16_reads|].
  intros. apply need_short_not_done. lia.
Qed.
#[global] Instance wire_u32 : Wire write_u32 read_u32 (be 4) is_u32.
Proof.
  apply (wire_int 4); [lia|done|intros; by apply write_u32_loop|apply read_u32_reads|].
  intros. apply need_short_not_done. lia.
Qed.
#[global] Instance wire_u64 : Wire write_u64 read_u64 (be 8) is_u64.
Proof.
  apply (wire_int 8); [lia|done|done|apply read_u64_reads|].
  intros. apply need_short_not_done. lia.
Qed.

(** [std::array<U8, n>] fields: [write_bytes(a.data(), a.size())] and
    [read_bytes(a.data(), a.size())]. *)
Definition write_array (n : nat) (a : list U8) : io ByteWriter unit :=
  write_bytes (Some a) (Z.of_nat n).
Definition read_array (n : nat) : io ByteReader (list U8) := read_bytes (Z.of_nat n).
Definition is_array (n : nat) (a : list U8) : Prop := length a = n ∧ bytes_ok a.

Definition enc_array (a : list U8) : list U8 := a.
#[global] Arguments enc_array : simpl never.

#[global] Instance is_array_dec n a : Decision (is_array n a).
Proof. unfold is_array. apply _. Defined.

Lemma enc_array_ok n a : is_array n a → bytes_ok (enc_array a).
Proof. by intros [_ ?]. Qed.
Lemma length_enc_array n a : is_array n a → length (enc_array a) = n.
Proof. by intros [? _]. Qed.
#[export] Hint Resolve enc_array_ok : scn.

#[global] Instance read_array_safe n : ReaderSafe (read_array n).
Proof. apply _. Qed.

#[global] Instance wire_array n : Wire (write_array n) (read_array n) enc_array (is_array n).
Proof.
  unfold write_array, read_array, is_array, enc_array. split; simpl.
  - intros a out rest [<- Hok] Hlen. apply write_bytes_at; lia.
  - intros a pre rest [<- Hok]. by apply read_bytes_app.
  - intros a pre rest r' Hok Hread.
    destruct (decide (length rest < n)%nat) as [Hs|Hs].
    { by rewrite read_bytes_short in Hread by lia. }
    rewrite <- (take_drop n rest) in Hok, Hread |- *.
    apply Forall_app in Hok as [Hok1 Hok2].
    rewrite read_bytes_app in Hread by (rewrite length_take; lia). simplify_eq.
    split; [split; [rewrite length_take; lia|done]|by eexists].
  - by intros a [_ Hok].
Qed.

(** ** Fixed-size readers

    [ReadsFixed m n]: [m] succeeds on any [n] bytes, consuming exactly those,
    and answers [Truncated] when fewer are left. *)

Class ReadsFixed {A} (m : io ByteReader A) (n : nat) : Prop := {
  reads_fixed pre bs rest :
    length bs = n → bytes_ok bs →
    ∃ a, m (reader_at pre (bs ++ rest)) = (Done a, reader_at (pre ++ bs) rest);
  reads_truncated pre rest :
    (length rest < n)%nat → bytes_ok rest →
    ∃ rc r', m (reader_at pre rest) = (Err rc, r') ∧ code rc = Errc.Truncated;
}.
#[global] Hint Mode ReadsFixed ! ! - : typeclass_instances.

Section reads_fixed.
Context {A B : Type}.

#[global] Instance reads_fixed_ret (a : A) : ReadsFixed (mret a) 0.
Proof.
  split; [|simpl; lia]. intros pre bs rest Hlen _. exists a.
  destruct bs; [|simpl in *; lia]. simpl. by rewrite app_nil_r.
Qed.

Lemma reads_fixed_eq (m : io ByteReader A) n n' : ReadsFixed m n → n = n' → ReadsFixed m n'.
Proof. by intros ? <-. Qed.

#[global] Instance reads_fixed_bind (m : io ByteReader A) (f : A → io ByteReader B) n k :
  ReadsFixed m n → (∀ a, ReadsFixed (f a) k) → ReadsFixed (m ≫= f) (n + k).
Proof.
  intros Hm Hf. split.
  - intros pre bs rest Hlen Hok. rewrite <- (take_drop n bs), <- app_assoc.
    rewrite <- (take_drop n bs) in Hok. apply Forall_app in Hok as [H1 H2].
    destruct (reads_fixed (m:=m) pre (take n bs) (drop n bs ++ rest)) as [a Ha];
      [rewrite length_take; lia|done|].
    destruct (Hf a) as [Hf1 _].
    destruct (Hf1 (pre ++ take n bs) (drop n bs) rest) as [b Hb];
      [rewrite length_drop; lia|done|].
    exists b. erewrite bind_done by exact Ha. by rewrite Hb, <- app_assoc.
  - intros pre rest Hlen Hok. destruct (decide (length rest < n)%nat) as [Hs|Hs].
    + destruct (reads_truncated (m:=m) pre rest Hs Hok) as (rc & r' & Hr & Hc).
      exists rc, r'. split; [by apply bind_err|done].
    + rewrite <- (take_drop n rest) in Hok |- *. apply Forall_app in Hok as [H1 H2].
      destruct (reads_fixed (m:=m) pre (take n rest) (drop n rest)) as [a Ha];
        [rewrite length_take; lia|done|].
      erewrite bind_done by exact Ha. destruct (Hf a) as [_ Hf2].
      apply Hf2; [rewrite length_drop; lia|done].
Qed.
End reads_fixed.

Lemma reads_fixed_int n (m : io ByteReader Z) :
  reads_int n m →
  (∀ pre rest, (length rest < n)%nat →
     m (reader_at pre rest) =
       (Err (fail_result Errc.Truncated "ByteReader underrun"), reader_at pre rest)) →
  ReadsFixed m n.
Proof.
  intros Hm Hs. split.
  - intros pre bs rest Hlen Hok. eexists. by apply Hm.
  - intros pre rest Hlen Hok. do 2 eexists. split; [by apply Hs|done].
Qed.

#[global] Instance read_u8_fixed : ReadsFixed read_u8 1.
Proof. apply reads_fixed_int; [apply read_u8_reads|]. intros. apply bind_err, need_r_short. lia. Qed.
#[global] Instance read_u16_fixed : ReadsFixed read_u16 2.
Proof. apply reads_fixed_int; [apply read_u16_reads|]. intros. apply bind_err, need_r_short. lia. Qed.
#[global] Instance read_u32_fixed : ReadsFixed read_u32 4.
Proof. apply reads_fixed_int; [apply read_u32_reads|]. intros. apply bind_err, need_r_short. lia. Qed.
#[global] Instance read_u64_fixed : ReadsFixed read_u64 8.
Proof. apply reads_fixed_int; [apply read_u64_reads|]. intros. apply bind_err, need_r_short. lia. Qed.
#[global] Instance read_array_fixed n : ReadsFixed (read_array n) n.
Proof.
  split.
  - intros pre bs rest Hlen _. exists bs. apply read_bytes_app. lia.
  - intros pre rest Hlen _. do 2 eexists. split; [apply read_bytes_short; lia|done].
Qed.

(** Two derived facts that every format inherits. *)
Section wire_facts.
Context {A : Type} {wr : A → io ByteWriter unit} {rd : io ByteReader A}
  {enc : A → list U8} {valid : A → Prop} `{!Wire wr rd enc valid}.

Lemma wire_enc_inj a b : valid a → valid b → enc a = enc b → a = b.
Proof.
  intros Ha Hb Heq.
  pose proof (wire_get (rd:=rd) a [] [] Ha) as H1. rewrite Heq in H1.
  rewrite (wire_get (rd:=rd) b [] [] Hb) in H1. congruence.
Qed.
End wire_facts.

(** A format that must fill its buffer: the reader checks that nothing follows. *)
Class WireFrame {A} (wr : A → io ByteWriter unit) (rd : io ByteReader A)
    (enc : A → list U8) (valid : A → Prop) : Prop := {
  frame_put a out rest :
    valid a → (length (enc a) <= length rest)%nat →
    wr a (writer_at out rest) =
      (Done tt, writer_at (out ++ enc a) (drop (length (enc a)) rest));
  frame_get a pre : valid a → rd (reader_at pre (enc a)) = (Done a, reader_at (pre ++ enc a) []);
  frame_canon a pre rest r' :
    bytes_ok rest → rd (reader_at pre rest) = (Done a, r') → valid a ∧ rest = enc a;
}.
#[global] Hint Mode WireFrame - ! - - - : typeclass_instances.
#[global] Hint Mode WireFrame - - ! - - : typeclass_instances.

Section frame_facts.
Context {A : Type} {wr : A → io ByteWriter unit} {rd : io ByteReader A}
  {enc : A → list U8} {valid : A → Prop} `{!WireFrame wr rd enc valid}.

(** Write then read. *)
Lemma frame_roundtrip a room :
  valid a → (length (enc a) <= length room)%nat →
  ∃ w, wr a (writer_at [] room) = (Done tt, w) ∧
    (rd (reader_at [] (written w))).1 = Done a.
Proof.
  intros Ha Hroom. eexists. split; [by apply frame_put|].
  rewrite written_at, app_nil_l. by rewrite (frame_get (rd:=rd)).
Qed.

(** Read then write: the accepted input is rebuilt. *)
Lemma frame_rebuild a bs :
  bytes_ok bs → (rd (reader_at [] bs)).1 = Done a →
  ∃ w, wr a (writer_at [] bs) = (Done tt, w) ∧ written w = bs.
Proof.
  intros Hok H. destruct (rd (reader_at [] bs)) as [o r'] eqn:Hr. simpl in H. subst o.
  apply (frame_canon (rd:=rd)) in Hr as [Ha ->]; [|done].
  eexists. split; [apply frame_put; [done|lia]|]. by rewrite written_at.
Qed.
End frame_facts.

(** [if (r.remaining() != 0) return fail(...)] *)
Definition expect_end (m : string) : io ByteReader unit :=
  r ← get;
  if negb (r_remaining r =? 0) then fail Errc.BadPacket m else mret tt.

#[global] Instance expect_end_safe m : ReaderSafe (expect_end m).
Proof. unfold expect_end. apply _. Qed.

Lemma expect_end_at m pre : expect_end m (reader_at pre []) = (Done tt, reader_at pre []).
Proof. unfold expect_end. erewrite bind_done by reflexivity. by rewrite r_remaining_at. Qed.

Lemma expect_end_inv m pre rest a r' :
  expect_end m (reader_at pre rest) = (Done a, r') → rest = [] ∧ r' = reader_at pre rest.
Proof.
  unfold expect_end. erewrite bind_done by reflexivity. rewrite r_remaining_at.
  destruct (Z.eqb_spec (zlen rest) 0) as [H|]; intros Heq; [|done].
  split; [by destruct rest|]. unfold mret, io_ret in Heq. simpl in Heq. congruence.
Qed.

(** Tactics for composite formats: run the next field of an encoder or decoder
    by its [Wire] law. *)
Ltac wire_side := rewrite ?length_drop, ?length_app, ?length_be in *; simpl in *; try done; try lia.
Ltac wput := erewrite bind_done; [|apply wire_put; [try done|wire_side]].
Ltac wcanon H Hok :=
  inv_done H;
  match goal with
  | Hm : _ (reader_at _ ?rest) = (Done _, _) |- _ =>
      apply wire_canon in Hm as (? & ? & -> & ->); [|exact Hok];
      apply Forall_app in Hok as [_ Hok]
  end.
Ltac wget := rewrite <- ?app_assoc; erewrite bind_done; [|apply wire_get; try done].
