(* ===== verification/Config.v ===== *)
(** * Configuration

    [src/securecnet/include/securecnet/config.hpp]: the protocol constants of
    [NetConfig], the tunable configurations with their defaults and presets,
    and the validators that [Client::connect] and [Server::listen] run first. *)
From S2P Require Import Prelude Result.
#[local] Open Scope Z_scope.

Module SendPriority.
Inductive SendPriority : Set := Low | Normal | High.
End SendPriority.
Abbreviation SendPriority := SendPriority.SendPriority.

#[global] Instance SendPriority_eq_dec : EqDecision SendPriority.
Proof. solve_decision. Defined.

(** [static_cast<U8>(priority)] *)
Definition priority_value (p : SendPriority) : U8 :=
  match p with SendPriority.Low => 0 | SendPriority.Normal => 1 | SendPriority.High => 2 end.

(** ** [struct NetConfig] *)
Module NetConfig.
Definition MaxPacketBytes : ST := 1300.
Definition PacketHeaderBytes : ST := 28.
Definition MaxPayloadBytes : ST := MaxPacketBytes - PacketHeaderBytes.
Definition AeadKeyBytes : ST := 32.
Definition AeadNonceBytes : ST := 24.
Definition AeadTagBytes : ST := 16.
Definition KeyExchangePublicKeyBytes : nat := 32.
Definition KeyExchangeSecretKeyBytes : nat := 32.
Definition SessionKeyBytes : nat := 32.
Definition ClientNonceBytes : nat := 16.
Definition ServerNonceBytes : nat := 16.
Definition RetryTokenMacBytes : nat := 16.
Definition ResumptionTokenMacBytes : nat := 16.
Definition CookieSecretBytes : nat := 32.
Definition TranscriptMacBytes : nat := 16.
Definition MessageHeaderBytes : ST := 4.
Definition MaxEncryptedPlaintextBytes : ST := MaxPayloadBytes - AeadTagBytes.
Definition MaxMessageBytes : ST := MaxEncryptedPlaintextBytes - MessageHeaderBytes.
Definition ReliableEnvelopeBytes : ST := 8.
Definition OrderedEnvelopeBytes : ST := 8.
Definition SequencedEnvelopeBytes : ST := 8.
Definition MaxReliableMessageBytes : ST := MaxMessageBytes - ReliableEnvelopeBytes.
Definition MaxOrderedMessageBytes : ST := MaxReliableMessageBytes - OrderedEnvelopeBytes.
Definition MaxSequencedMessageBytes : ST := MaxMessageBytes - SequencedEnvelopeBytes.
Definition FragmentHeaderBytes : ST := 24.
Definition MaxFragmentDataBytes : ST := MaxOrderedMessageBytes - FragmentHeaderBytes.
Definition MaxPendingPackets : ST := 256.
Definition MaxPendingReliableMessages : ST := 256.
Definition HandshakeTimeoutMs : U64 := 5000.
Definition IdleTimeoutMs : U64 := 15000.
Definition KeepaliveIntervalMs : U64 := 5000.
Definition RetryTokenLifetimeMs : U64 := 1500.
Definition ResumptionTokenLifetimeMs : U64 := 60000.
Definition CloseDrainMs : U64 := 250.
Definition MaxPeerSessions : ST := 1024.
Definition ProtocolVersion : U16 := 3.
Definition Magic : U32 := 1396919859.   (* 0x53434E33, "SCN3" *)
End NetConfig.

(** ** Configuration records, with the field initialisers as defaults *)

Record ReliabilityConfig := mkReliabilityConfig {
  initial_rto_ms : U64;
  min_rto_ms : U64;
  max_rto_ms : U64;
  max_pending_messages : U32;
  max_pending_bytes : U32;
  max_inflight_messages : U32;
  ordered_receive_window : U32;
}.

Definition default_reliability : ReliabilityConfig :=
  mkReliabilityConfig 120 40 2000 NetConfig.MaxPendingReliableMessages (64 * 1024) 32 64.

Record FragmentationConfig := mkFragmentationConfig {
  frag_enabled : bool;
  max_fragments_per_message : U16;
  max_reassembled_message_bytes : U32;
  max_concurrent_reassemblies_per_peer : U32;
  max_total_reassembly_memory_per_peer : U64;
  reassembly_timeout_ms : U64;
}.

Definition default_fragmentation : FragmentationConfig :=
  mkFragmentationConfig true 64 (16 * 1024) 32 (128 * 1024) 1500.

Record CongestionControlConfig := mkCongestionControlConfig {
  cong_enabled : bool;
  min_rate_bytes_per_second : U32;
  initial_rate_bytes_per_second : U32;
  max_rate_bytes_per_second : U32;
  additive_increase_bytes_per_ack : U32;
  multiplicative_decrease_per_mille : U32;
  backpressure_decrease_per_mille : U32;
  min_window_bytes : U32;
  max_window_bytes : U32;
  loss_cooldown_ms : U64;
  backpressure_cooldown_ms : U64;
}.

Definition default_congestion : CongestionControlConfig :=
  mkCongestionControlConfig false (32 * 1024) 0 0 NetConfig.MaxPacketBytes 700 850
    (NetConfig.MaxPacketBytes * 4) 0 100 250.

(** [cfg.congestion.enabled = true; cfg.congestion.min_rate_bytes_per_second = r;] *)
Definition congestion_with_min_rate (r : U32) : CongestionControlConfig :=
  mkCongestionControlConfig true r 0 0 NetConfig.MaxPacketBytes 700 850
    (NetConfig.MaxPacketBytes * 4) 0 100 250.

Record AbuseConfig := mkAbuseConfig {
  per_ip_handshake_rate_limit_per_second : U32;
  invalid_packet_ban_threshold : U32;
  invalid_packet_ban_ms : U64;
  max_sessions_per_ip : U32;
  anti_amplification_factor : U32;
  anti_amplification_slack_bytes : U32;
  max_queued_reliable_bytes_per_peer : U32;
  max_total_reassembly_memory_server : U64;
}.

Definition default_abuse : AbuseConfig :=
  mkAbuseConfig 64 16 5000 64 3 256 (64 * 1024) (4 * 1024 * 1024).

Record ClientConfig := mkClientConfig {
  client_reliability : ReliabilityConfig;
  client_fragmentation : FragmentationConfig;
  client_congestion : CongestionControlConfig;
  client_handshake_timeout_ms : U64;
  client_idle_timeout_ms : U64;
  client_keepalive_interval_ms : U64;
  client_close_drain_ms : U64;
  client_max_pending_packets : U32;
  client_send_budget_bytes_per_second : U32;
  client_enable_session_resumption : bool;
  client_enable_packet_debug_dumps : bool;
}.

Definition default_client : ClientConfig :=
  mkClientConfig default_reliability default_fragmentation default_congestion
    NetConfig.HandshakeTimeoutMs NetConfig.IdleTimeoutMs NetConfig.KeepaliveIntervalMs
    NetConfig.CloseDrainMs NetConfig.MaxPendingPackets (128 * 1024) true false.

Record ServerConfig := mkServerConfig {
  server_reliability : ReliabilityConfig;
  server_fragmentation : FragmentationConfig;
  server_congestion : CongestionControlConfig;
  server_abuse : AbuseConfig;
  server_handshake_timeout_ms : U64;
  server_idle_timeout_ms : U64;
  server_keepalive_interval_ms : U64;
  server_close_drain_ms : U64;
  server_max_pending_packets : U32;
  server_send_budget_bytes_per_second : U32;
  server_max_peer_sessions : ST;
  server_enable_session_resumption : bool;
  server_enable_packet_debug_dumps : bool;
}.

Definition default_server : ServerConfig :=
  mkServerConfig default_reliability default_fragmentation default_congestion default_abuse
    NetConfig.HandshakeTimeoutMs NetConfig.IdleTimeoutMs NetConfig.KeepaliveIntervalMs
    NetConfig.CloseDrainMs NetConfig.MaxPendingPackets (256 * 1024)
    NetConfig.MaxPeerSessions true false.

(** ** Presets *)

(** A default client whose reliability, fragmentation, congestion and send
    budget fields are then assigned. *)
Definition client_preset (rel : ReliabilityConfig) (frag : FragmentationConfig)
    (cong : CongestionControlConfig) (budget : U32) : ClientConfig :=
  mkClientConfig rel frag cong
    NetConfig.HandshakeTimeoutMs NetConfig.IdleTimeoutMs NetConfig.KeepaliveIntervalMs
    NetConfig.CloseDrainMs NetConfig.MaxPendingPackets budget true false.

Definition client_low_latency : ClientConfig :=
  client_preset
    (mkReliabilityConfig 80 25 750 256 (64 * 1024) 16 64)
    (mkFragmentationConfig true 64 (8 * 1024) 32 (128 * 1024) 1500)
    (congestion_with_min_rate (48 * 1024)) (192 * 1024).

Definition client_reliable_gameplay : ClientConfig :=
  client_preset
    (mkReliabilityConfig 120 40 2000 512 (128 * 1024) 48 128)
    default_fragmentation
    (congestion_with_min_rate (64 * 1024)) (256 * 1024).

Definition bulk_reliability : ReliabilityConfig :=
  mkReliabilityConfig 180 40 2000 1024 (512 * 1024) 96 64.
Definition bulk_fragmentation : FragmentationConfig :=
  mkFragmentationConfig true 64 (60 * 1024) 32 (512 * 1024) 1500.

Definition client_bulk_transfer : ClientConfig :=
  client_preset bulk_reliability bulk_fragmentation
    (congestion_with_min_rate (128 * 1024)) (1024 * 1024).

Definition server_preset (rel : ReliabilityConfig) (frag : FragmentationConfig)
    (cong : CongestionControlConfig) (abuse : AbuseConfig) (budget : U32) (peers : ST)
    : ServerConfig :=
  mkServerConfig rel frag cong abuse
    NetConfig.HandshakeTimeoutMs NetConfig.IdleTimeoutMs NetConfig.KeepaliveIntervalMs
    NetConfig.CloseDrainMs NetConfig.MaxPendingPackets budget peers true false.

Definition server_public_internet : ServerConfig :=
  server_preset default_reliability default_fragmentation
    (congestion_with_min_rate (64 * 1024))
    (mkAbuseConfig 48 12 10000 32 3 256 (64 * 1024) (4 * 1024 * 1024))
    (256 * 1024) NetConfig.MaxPeerSessions.

Definition server_lan_only : ServerConfig :=
  server_preset default_reliability default_fragmentation
    (congestion_with_min_rate (128 * 1024))
    (mkAbuseConfig 256 64 5000 256 3 2048 (64 * 1024) (4 * 1024 * 1024))
    (1024 * 1024) 4096.

Definition server_bulk_transfer : ServerConfig :=
  server_preset bulk_reliability bulk_fragmentation
    (congestion_with_min_rate (256 * 1024))
    (mkAbuseConfig 64 16 5000 64 3 256 (512 * 1024) (32 * 1024 * 1024))
    (2 * 1024 * 1024) NetConfig.MaxPeerSessions.

(** ** Validators *)

(** [auto rc = v; if (!rc.ok()) return rc; k] *)
Definition check_then (rc k : Result) : Result := if ok rc then k else rc.

Definition validate_reliability_config (cfg : ReliabilityConfig) : Result :=
  if (initial_rto_ms cfg =? 0) || (min_rto_ms cfg =? 0) || (max_rto_ms cfg =? 0)
  then fail_result Errc.InvalidArg "reliability timeout values must be non-zero"
  else if (initial_rto_ms cfg <? min_rto_ms cfg) || (max_rto_ms cfg <? initial_rto_ms cfg)
  then fail_result Errc.InvalidArg "reliability timeout values are inconsistent"
  else if (max_pending_messages cfg =? 0) || (max_inflight_messages cfg =? 0)
  then fail_result Errc.InvalidArg "reliability queue limits must be non-zero"
  else if max_pending_bytes cfg <? NetConfig.MaxReliableMessageBytes
  then fail_result Errc.InvalidArg "reliability byte budget is too small"
  else if ordered_receive_window cfg =? 0
  then fail_result Errc.InvalidArg "ordered receive window must be non-zero"
  else success.

Definition validate_fragmentation_config (cfg : FragmentationConfig) : Result :=
  if negb (frag_enabled cfg) then success
  else if max_fragments_per_message cfg =? 0
  then fail_result Errc.InvalidArg "fragment count limit must be non-zero"
  else if (max_reassembled_message_bytes cfg =? 0)
          || (U16_MAX <? max_reassembled_message_bytes cfg)
  then fail_result Errc.InvalidArg "reassembled message size must fit in wire format"
  else
    let required_fragments :=
      w32 (w64 (max_reassembled_message_bytes cfg + NetConfig.MaxFragmentDataBytes - 1)
           / NetConfig.MaxFragmentDataBytes) in
    if max_fragments_per_message cfg <? required_fragments
    then fail_result Errc.InvalidArg "fragment count limit is too small for max_reassembled_message_bytes"
    else if max_concurrent_reassemblies_per_peer cfg =? 0
    then fail_result Errc.InvalidArg "concurrent reassembly limit must be non-zero"
    else if max_total_reassembly_memory_per_peer cfg <? max_reassembled_message_bytes cfg
    then fail_result Errc.InvalidArg "reassembly memory budget must hold at least one message"
    else if reassembly_timeout_ms cfg =? 0
    then fail_result Errc.InvalidArg "reassembly timeout must be non-zero"
    else success.

Definition validate_congestion_control_config (cfg : CongestionControlConfig)
    (send_budget_bytes_per_second : U32) : Result :=
  if negb (cong_enabled cfg) then success
  else if send_budget_bytes_per_second =? 0
  then fail_result Errc.InvalidArg "send budget must be non-zero for congestion control"
  else
    let max_rate := if max_rate_bytes_per_second cfg =? 0
                    then send_budget_bytes_per_second
                    else max_rate_bytes_per_second cfg in
    if (min_rate_bytes_per_second cfg =? 0) || (max_rate =? 0)
       || (max_rate <? min_rate_bytes_per_second cfg)
    then fail_result Errc.InvalidArg "congestion rate bounds are invalid"
    else if negb (initial_rate_bytes_per_second cfg =? 0) &&
            ((initial_rate_bytes_per_second cfg <? min_rate_bytes_per_second cfg)
             || (max_rate <? initial_rate_bytes_per_second cfg))
    then fail_result Errc.InvalidArg "initial congestion rate is outside configured bounds"
    else if (additive_increase_bytes_per_ack cfg =? 0)
            || (multiplicative_decrease_per_mille cfg =? 0)
            || (1000 <? multiplicative_decrease_per_mille cfg)
            || (backpressure_decrease_per_mille cfg =? 0)
            || (1000 <? backpressure_decrease_per_mille cfg)
    then fail_result Errc.InvalidArg "congestion control gain values are invalid"
    else if min_window_bytes cfg <? NetConfig.MaxPacketBytes
    then fail_result Errc.InvalidArg "congestion window must hold at least one packet"
    else if negb (max_window_bytes cfg =? 0) && (max_window_bytes cfg <? min_window_bytes cfg)
    then fail_result Errc.InvalidArg "congestion window bounds are invalid"
    else if (loss_cooldown_ms cfg =? 0) || (backpressure_cooldown_ms cfg =? 0)
    then fail_result Errc.InvalidArg "congestion cooldowns must be non-zero"
    else success.

Definition validate_client_config (cfg : ClientConfig) : Result :=
  check_then (validate_reliability_config (client_reliability cfg))
  (check_then (validate_fragmentation_config (client_fragmentation cfg))
  (check_then (validate_congestion_control_config (client_congestion cfg)
                 (client_send_budget_bytes_per_second cfg))
  (if (client_handshake_timeout_ms cfg =? 0) || (client_idle_timeout_ms cfg =? 0)
      || (client_close_drain_ms cfg =? 0)
   then fail_result Errc.InvalidArg "client timeout values must be non-zero"
   else if (client_keepalive_interval_ms cfg =? 0)
           || (client_idle_timeout_ms cfg <=? client_keepalive_interval_ms cfg)
   then fail_result Errc.InvalidArg "client keepalive must be non-zero and less than idle timeout"
   else if client_max_pending_packets cfg =? 0
   then fail_result Errc.InvalidArg "client pending packet limit must be non-zero"
   else if client_send_budget_bytes_per_second cfg =? 0
   then fail_result Errc.InvalidArg "client send budget must be non-zero"
   else success))).

Definition validate_server_config (cfg : ServerConfig) : Result :=
  check_then (validate_reliability_config (server_reliability cfg))
  (check_then (validate_fragmentation_config (server_fragmentation cfg))
  (check_then (validate_congestion_control_config (server_congestion cfg)
                 (server_send_budget_bytes_per_second cfg))
  (if (server_handshake_timeout_ms cfg =? 0) || (server_idle_timeout_ms cfg =? 0)
      || (server_close_drain_ms cfg =? 0)
   then fail_result Errc.InvalidArg "server timeout values must be non-zero"
   else if (server_keepalive_interval_ms cfg =? 0)
           || (server_idle_timeout_ms cfg <=? server_keepalive_interval_ms cfg)
   then fail_result Errc.InvalidArg "server keepalive must be non-zero and less than idle timeout"
   else if (server_max_pending_packets cfg =? 0) || (server_max_peer_sessions cfg =? 0)
   then fail_result Errc.InvalidArg "server queue/session limits must be non-zero"
   else if server_send_budget_bytes_per_second cfg =? 0
   then fail_result Errc.InvalidArg "server send budget must be non-zero"
   else
     let abuse := server_abuse cfg in
     if (per_ip_handshake_rate_limit_per_second abuse =? 0)
        || (max_sessions_per_ip abuse =? 0)
        || (anti_amplification_factor abuse =? 0)
        || (max_queued_reliable_bytes_per_peer abuse =? 0)
        || (max_total_reassembly_memory_server abuse =? 0)
     then fail_result Errc.InvalidArg "server abuse limits must be non-zero"
     else if max_queued_reliable_bytes_per_peer abuse <? max_pending_bytes (server_reliability cfg)
     then fail_result Errc.InvalidArg "server reliable byte quota must cover reliability.max_pending_bytes"
     else if max_total_reassembly_memory_server abuse
             <? max_total_reassembly_memory_per_peer (server_fragmentation cfg)
     then fail_result Errc.InvalidArg "server reassembly memory budget must cover one peer budget"
     else success))).

(** ** What a validated configuration guarantees

    The facts the other components assume of their configuration. *)

Record reliability_valid (cfg : ReliabilityConfig) : Prop := {
  rv_min : 0 < min_rto_ms cfg;
  rv_order : min_rto_ms cfg <= initial_rto_ms cfg <= max_rto_ms cfg;
  rv_pending : 0 < max_pending_messages cfg;
  rv_inflight : 0 < max_inflight_messages cfg;
  rv_bytes : NetConfig.MaxReliableMessageBytes <= max_pending_bytes cfg;
  rv_window : 0 < ordered_receive_window cfg;
}.

Record fragmentation_valid (cfg : FragmentationConfig) : Prop := {
  fv_frags : 0 < max_fragments_per_message cfg;
  fv_bytes : 0 < max_reassembled_message_bytes cfg <= 65535;
  fv_required : max_reassembled_message_bytes cfg
                <= max_fragments_per_message cfg * NetConfig.MaxFragmentDataBytes;
  fv_concurrent : 0 < max_concurrent_reassemblies_per_peer cfg;
  fv_memory : max_reassembled_message_bytes cfg <= max_total_reassembly_memory_per_peer cfg;
  fv_timeout : 0 < reassembly_timeout_ms cfg;
}.

(** The ceiling [CongestionController::configured_max_rate] uses. *)
Definition effective_max_rate (cfg : CongestionControlConfig) (budget : U32) : U32 :=
  if max_rate_bytes_per_second cfg =? 0 then budget else max_rate_bytes_per_second cfg.

Record congestion_valid (cfg : CongestionControlConfig) (budget : U32) : Prop := {
  cv_rates : 0 < min_rate_bytes_per_second cfg <= effective_max_rate cfg budget;
  cv_initial : initial_rate_bytes_per_second cfg = 0 ∨
               min_rate_bytes_per_second cfg <= initial_rate_bytes_per_second cfg
               <= effective_max_rate cfg budget;
  cv_increase : 0 < additive_increase_bytes_per_ack cfg;
  cv_decrease : 0 < multiplicative_decrease_per_mille cfg <= 1000;
  cv_backpressure : 0 < backpressure_decrease_per_mille cfg <= 1000;
  cv_window : NetConfig.MaxPacketBytes <= min_window_bytes cfg;
  cv_window_order : max_window_bytes cfg = 0 ∨ min_window_bytes cfg <= max_window_bytes cfg;
}.

(** Widths of the fields: every field is a value of its C++ type. *)
Definition reliability_typed (cfg : ReliabilityConfig) : Prop :=
  is_u64 (initial_rto_ms cfg) ∧ is_u64 (min_rto_ms cfg) ∧ is_u64 (max_rto_ms cfg) ∧
  is_u32 (max_pending_messages cfg) ∧ is_u32 (max_pending_bytes cfg) ∧
  is_u32 (max_inflight_messages cfg) ∧ is_u32 (ordered_receive_window cfg).

Definition fragmentation_typed (cfg : FragmentationConfig) : Prop :=
  is_u16 (max_fragments_per_message cfg) ∧ is_u32 (max_reassembled_message_bytes cfg) ∧
  is_u32 (max_concurrent_reassemblies_per_peer cfg) ∧
  is_u64 (max_total_reassembly_memory_per_peer cfg) ∧ is_u64 (reassembly_timeout_ms cfg).

Definition congestion_typed (cfg : CongestionControlConfig) : Prop :=
  is_u32 (min_rate_bytes_per_second cfg) ∧ is_u32 (initial_rate_bytes_per_second cfg) ∧
  is_u32 (max_rate_bytes_per_second cfg) ∧ is_u32 (additive_increase_bytes_per_ack cfg) ∧
  is_u32 (multiplicative_decrease_per_mille cfg) ∧ is_u32 (backpressure_decrease_per_mille cfg) ∧
  is_u32 (min_window_bytes cfg) ∧ is_u32 (max_window_bytes cfg) ∧
  is_u64 (loss_cooldown_ms cfg) ∧ is_u64 (backpressure_cooldown_ms cfg).

(** Peel the guards of a validator that returned [success]. *)
Ltac peel_guards H :=
  repeat match type of H with
  | (if ?b then fail_result _ _ else _) = success =>
      let E := fresh "Hg" in destruct b eqn:E; [discriminate H|]
  end;
  repeat match goal with
  | E : (_ || _) = false |- _ => apply orb_false_iff in E as [? ?]
  end.

Lemma check_then_success rc k : check_then rc k = success → ok rc = true ∧ k = success.
Proof. unfold check_then. destruct (ok rc) eqn:E; [done|]. by intros ->. Qed.

Lemma validate_reliability_sound cfg :
  reliability_typed cfg → validate_reliability_config cfg = success → reliability_valid cfg.
Proof.
  unfold reliability_typed, validate_reliability_config. widths. intros Ht H.
  peel_guards H. split; lia.
Qed.

Lemma validate_fragmentation_sound cfg :
  fragmentation_typed cfg → frag_enabled cfg = true →
  validate_fragmentation_config cfg = success → fragmentation_valid cfg.
Proof.
  unfold fragmentation_typed, validate_fragmentation_config. intros Ht -> H.
  change NetConfig.MaxFragmentDataBytes with 1212 in *. cbn zeta in H. simpl in H.
  peel_guards H. widths. zcases; try discriminate.
  assert (max_reassembled_message_bytes cfg <= max_fragments_per_message cfg * 1212).
  { rewrite (Z.mod_small (_ - 1)) in * by lia.
    rewrite (Z.mod_small (_ / 1212)) in * by (split; [apply Z.div_pos; lia|apply Z.div_lt_upper_bound; lia]).
    pose proof (Z.div_mod (max_reassembled_message_bytes cfg + 1212 - 1) 1212 ltac:(lia)).
    pose proof (Z.mod_pos_bound (max_reassembled_message_bytes cfg + 1212 - 1) 1212 ltac:(lia)).
    lia. }
  split; try lia; by change NetConfig.MaxFragmentDataBytes with 1212.
Qed.

Lemma validate_congestion_sound cfg budget :
  congestion_typed cfg → is_u32 budget → cong_enabled cfg = true →
  validate_congestion_control_config cfg budget = success → congestion_valid cfg budget.
Proof.
  unfold congestion_typed, validate_congestion_control_config. intros Ht Hb -> H.
  cbn zeta in H. fold (effective_max_rate cfg budget) in H. simpl in H.
  peel_guards H. widths.
  assert (NetConfig.MaxPacketBytes = 1300) as Hmp by done.
  split; lia.
Qed.

(** A validator that does not fail returns [success] itself. *)
Ltac guards_ok := intros H; repeat (case_match; try done).

Lemma validate_reliability_ok cfg :
  ok (validate_reliability_config cfg) = true → validate_reliability_config cfg = success.
Proof. unfold validate_reliability_config. guards_ok. Qed.

Lemma validate_fragmentation_ok cfg :
  ok (validate_fragmentation_config cfg) = true → validate_fragmentation_config cfg = success.
Proof. unfold validate_fragmentation_config. guards_ok. Qed.

Lemma validate_congestion_ok cfg b :
  ok (validate_congestion_control_config cfg b) = true →
  validate_congestion_control_config cfg b = success.
Proof. unfold validate_congestion_control_config. guards_ok. Qed.

Definition client_typed (cfg : ClientConfig) : Prop :=
  reliability_typed (client_reliability cfg) ∧
  fragmentation_typed (client_fragmentation cfg) ∧
  congestion_typed (client_congestion cfg) ∧
  is_u64 (client_handshake_timeout_ms cfg) ∧ is_u64 (client_idle_timeout_ms cfg) ∧
  is_u64 (client_keepalive_interval_ms cfg) ∧ is_u64 (client_close_drain_ms cfg) ∧
  is_u32 (client_max_pending_packets cfg) ∧ is_u32 (client_send_budget_bytes_per_second cfg).

#[global] Instance reliability_typed_dec cfg : Decision (reliability_typed cfg).
Proof. unfold reliability_typed. apply _. Defined.
#[global] Instance fragmentation_typed_dec cfg : Decision (fragmentation_typed cfg).
Proof. unfold fragmentation_typed. apply _. Defined.
#[global] Instance congestion_typed_dec cfg : Decision (congestion_typed cfg).
Proof. unfold congestion_typed. apply _. Defined.
#[global] Instance client_typed_dec cfg : Decision (client_typed cfg).
Proof. unfold client_typed. apply _. Defined.

Ltac peel_checks H :=
  repeat match type of H with
  | check_then _ _ = success =>
      let E := fresh "Hc" in apply check_then_success in H as [E H]
  end.

(** What [Client::connect] has established once [validate_client_config] passes. *)
Record client_valid (cfg : ClientConfig) : Prop := {
  clv_reliability : reliability_valid (client_reliability cfg);
  clv_fragmentation : frag_enabled (client_fragmentation cfg) = true →
                      fragmentation_valid (client_fragmentation cfg);
  clv_congestion : cong_enabled (client_congestion cfg) = true →
                   congestion_valid (client_congestion cfg) (client_send_budget_bytes_per_second cfg);
  clv_keepalive : 0 < client_keepalive_interval_ms cfg < client_idle_timeout_ms cfg;
  clv_timeouts : 0 < client_handshake_timeout_ms cfg ∧ 0 < client_close_drain_ms cfg;
  clv_queue : 0 < client_max_pending_packets cfg;
  clv_budget : 0 < client_send_budget_bytes_per_second cfg;
}.

(** [validate_client_config] accepts only configurations under which the
    timers, queues, window and rate bounds are ordered and non-zero: these are
    the facts the reliability, reassembly and congestion components rely on. *)
Theorem validate_client_config_sound cfg :
  client_typed cfg → validate_client_config cfg = success → client_valid cfg.
Proof.
  unfold client_typed, validate_client_config.
  intros (Hr & Hf & Hc & Ht1 & Ht2 & Ht3 & Ht4 & Ht5 & Ht6) H. peel_checks H.
  peel_guards H. widths.
  split; try lia.
  - by apply validate_reliability_sound, validate_reliability_ok.
  - intros. by apply validate_fragmentation_sound; [..|apply validate_fragmentation_ok].
  - intros. by apply validate_congestion_sound; [..|apply validate_congestion_ok].
Qed.

Lemma validate_client_config_sound_witness :
  client_valid client_low_latency ∧ client_valid client_reliable_gameplay ∧
  client_valid client_bulk_transfer ∧ client_valid default_client.
Proof.
  repeat split_and; apply validate_client_config_sound;
    first [reflexivity | apply (bool_decide_unpack _); vm_compute; exact I].
Defined.

(** ** The server *)

Definition abuse_typed (cfg : AbuseConfig) : Prop :=
  is_u32 (per_ip_handshake_rate_limit_per_second cfg) ∧ is_u32 (invalid_packet_ban_threshold cfg) ∧
  is_u64 (invalid_packet_ban_ms cfg) ∧ is_u32 (max_sessions_per_ip cfg) ∧
  is_u32 (anti_amplification_factor cfg) ∧ is_u32 (anti_amplification_slack_bytes cfg) ∧
  is_u32 (max_queued_reliable_bytes_per_peer cfg) ∧ is_u64 (max_total_reassembly_memory_server cfg).

Definition server_typed (cfg : ServerConfig) : Prop :=
  reliability_typed (server_reliability cfg) ∧
  fragmentation_typed (server_fragmentation cfg) ∧
  congestion_typed (server_congestion cfg) ∧
  abuse_typed (server_abuse cfg) ∧
  is_u64 (server_handshake_timeout_ms cfg) ∧ is_u64 (server_idle_timeout_ms cfg) ∧
  is_u64 (server_keepalive_interval_ms cfg) ∧ is_u64 (server_close_drain_ms cfg) ∧
  is_u32 (server_max_pending_packets cfg) ∧ is_u32 (server_send_budget_bytes_per_second cfg) ∧
  is_u64 (server_max_peer_sessions cfg).

#[global] Instance abuse_typed_dec cfg : Decision (abuse_typed cfg).
Proof. unfold abuse_typed. apply _. Defined.
#[global] Instance server_typed_dec cfg : Decision (server_typed cfg).
Proof. unfold server_typed. apply _. Defined.

(** What [Server::listen] has established once [validate_server_config] passes. *)
Record server_valid (cfg : ServerConfig) : Prop := {
  sv_reliability : reliability_valid (server_reliability cfg);
  sv_fragmentation : frag_enabled (server_fragmentation cfg) = true →
                     fragmentation_valid (server_fragmentation cfg);
  sv_congestion : ok (validate_congestion_control_config (server_congestion cfg)
                        (server_send_budget_bytes_per_second cfg)) = true;
  sv_queue : 0 < server_max_pending_packets cfg;
  sv_sessions : 0 < server_max_peer_sessions cfg;
  sv_budget : 0 < server_send_budget_bytes_per_second cfg;
  sv_per_host : 0 < max_sessions_per_ip (server_abuse cfg);
  sv_reliable_bytes : max_pending_bytes (server_reliability cfg)
                      <= max_queued_reliable_bytes_per_peer (server_abuse cfg);
  sv_memory : max_total_reassembly_memory_per_peer (server_fragmentation cfg)
              <= max_total_reassembly_memory_server (server_abuse cfg);
}.

Lemma validate_server_config_sound cfg :
  server_typed cfg → validate_server_config cfg = success → server_valid cfg.
Proof.
  unfold server_typed, abuse_typed, validate_server_config. intros Ht H. peel_checks H.
  cbv zeta in H. peel_guards H. destruct Ht as (Hr & Hf & Hcc & Ht). widths. split; try lia.
  - by apply validate_reliability_sound, validate_reliability_ok.
  - intros. by apply validate_fragmentation_sound; [..|apply validate_fragmentation_ok].
  - done.
Qed.

(** Every shipped preset, client and server, and both defaults pass their
    validator, so none of them makes [connect] or [listen] fail. *)
Theorem presets_validate :
  Forall (λ c, validate_client_config c = success)
    [default_client; client_low_latency; client_reliable_gameplay; client_bulk_transfer] ∧
  Forall (λ c, validate_server_config c = success)
    [default_server; server_public_internet; server_lan_only; server_bulk_transfer].
Proof. split; repeat constructor. Qed.
