(* ===== verification/Message.v ===== *)
(** * Message frames

    [src/securecnet/include/securecnet/message.hpp]: channels, per-channel
    inline budgets and the [ch][type][len][bytes] frame that travels inside a
    (decrypted) [Message] packet. *)
From S2P Require Import Prelude Result ByteBuf Config.
#[local] Open Scope Z_scope.

Module Channel.
Inductive Channel : Set :=
  | Unreliable
  | Reliable
  | ReliableOrdered
  | SequencedUnreliable
  | Control.
End Channel.
Abbreviation Channel := Channel.Channel.

#[global] Instance Channel_eq_dec : EqDecision Channel.
Proof. solve_decision. Defined.

(** [static_cast<U8>(channel)] and [static_cast<Channel>(raw)]; the latter is
    only reached with [raw <= 4]. *)
Definition channel_value (c : Channel) : U8 :=
  match c with
  | Channel.Unreliable => 0
  | Channel.Reliable => 1
  | Channel.ReliableOrdered => 2
  | Channel.SequencedUnreliable => 3
  | Channel.Control => 4
  end.

Definition channel_of (raw : U8) : Channel :=
  if raw =? 0 then Channel.Unreliable
  else if raw =? 1 then Channel.Reliable
  else if raw =? 2 then Channel.ReliableOrdered
  else if raw =? 3 then Channel.SequencedUnreliable
  else Channel.Control.

Definition channel_is_reliable (c : Channel) : bool :=
  bool_decide (c = Channel.Reliable) || bool_decide (c = Channel.ReliableOrdered).

Definition channel_valid (c : Channel) : bool :=
  bool_decide (c = Channel.Unreliable) || bool_decide (c = Channel.Reliable)
  || bool_decide (c = Channel.ReliableOrdered)
  || bool_decide (c = Channel.SequencedUnreliable) || bool_decide (c = Channel.Control).

Definition channel_is_application (c : Channel) : bool :=
  channel_valid c && negb (bool_decide (c = Channel.Control)).

Definition max_inline_payload_size (c : Channel) : ST :=
  match c with
  | Channel.Reliable => NetConfig.MaxReliableMessageBytes
  | Channel.ReliableOrdered => NetConfig.MaxOrderedMessageBytes
  | Channel.SequencedUnreliable => NetConfig.MaxSequencedMessageBytes
  | Channel.Unreliable | Channel.Control => NetConfig.MaxMessageBytes
  end.

Definition max_inline_payload_for_channel (c : Channel) : U16 :=
  w16 (max_inline_payload_size c).

Record SendOptions := mkSendOptions {
  so_channel : Channel;
  so_priority : SendPriority;
  so_lifetime_ms : U64;
}.

Record MsgView := mkMsgView {
  m_channel : Channel;
  m_type : U8;
  m_data : ptr;
  m_len : U16;
}.

(** [MsgView::bytes]: the empty span when the pointer is null or [len] is 0. *)
Definition msg_bytes (m : MsgView) : list U8 :=
  match m_data m with
  | None => []
  | Some bs => if m_len m =? 0 then [] else take (Z.to_nat (m_len m)) bs
  end.

(** [MsgView::as<T>] for a type of [size] bytes; the value is its object
    representation. *)
Definition msg_as (size : ST) (m : MsgView) : outcome (list U8) :=
  if negb (m_len m =? size)
  then Err (fail_result Errc.BadPacket "binary message size mismatch")
  else match m_data m with
       | None => if 0 <? m_len m
                 then Err (fail_result Errc.BadPacket "binary message data is null")
                 else Done []
       | Some bs => Done (take (Z.to_nat size) bs)
       end.

Definition write_message (ch : Channel) (type : U8) (data : ptr) (len : U16)
    : io ByteWriter unit :=
  if negb (channel_valid ch)
  then fail Errc.InvalidArg "invalid message channel"
  else if w16 NetConfig.MaxMessageBytes <? len
  then fail Errc.InvalidArg "message payload too large"
  else if (0 <? len) && bool_decide (data = None)
  then fail Errc.InvalidArg "message data is null"
  else
    write_u8 (channel_value ch);;
    write_u8 type;;
    write_u16 len;;
    (if 0 <? len then write_bytes data len else mret tt).

Definition read_message : io ByteReader MsgView :=
  r ← get;
  if r_remaining r =? 0
  then fail Errc.EndOfStream "no more messages"
  else if r_remaining r <? NetConfig.MessageHeaderBytes
  then fail Errc.BadPacket "truncated message header"
  else
    ch ← read_u8;
    type ← read_u8;
    len ← read_u16;
    if channel_value Channel.Control <? ch
    then fail Errc.BadPacket "invalid message channel"
    else
      r ← get;
      if r_remaining r <? len
      then fail Errc.BadPacket "message len exceeds payload"
      else
        let view := mkMsgView (channel_of ch) type
                      (if len =? 0 then None else peek_ptr len r) len in
        skip_r len;;
        mret view.

(** ** Specification *)

(** A nullable pointer to exactly [n] bytes, null only when [n] is 0: what
    [peek_ptr] yields and what every view carries. *)
Definition data_of (bs : list U8) : ptr := if decide (bs = []) then None else Some bs.

Definition msg_view (ch : Channel) (type : U8) (bs : list U8) : MsgView :=
  mkMsgView ch type (data_of bs) (zlen bs).

Definition enc_message (ch : Channel) (type : U8) (bs : list U8) : list U8 :=
  be 1 (channel_value ch) ++ be 1 type ++ be 2 (zlen bs) ++ bs.

Lemma channel_of_value c : channel_of (channel_value c) = c.
Proof. by destruct c. Qed.

Lemma channel_value_of raw : 0 <= raw <= 4 → channel_value (channel_of raw) = raw.
Proof.
  intros H. unfold channel_of.
  repeat (case_match; simpl; [lia|]). simpl. lia.
Qed.

Lemma channel_value_u8 c : is_u8 (channel_value c).
Proof. destruct c; unfold is_u8; simpl; lia. Qed.
#[export] Hint Resolve channel_value_u8 : scn.

Lemma data_of_bytes ch t bs : msg_bytes (msg_view ch t bs) = bs.
Proof.
  unfold msg_bytes, msg_view, data_of. simpl. case_decide; [by subst|].
  destruct (Z.eqb_spec (zlen bs) 0); [by destruct bs|]. rewrite take_ge; [done|lia].
Qed.

Lemma length_enc_message ch t bs : length (enc_message ch t bs) = (4 + length bs)%nat.
Proof. unfold enc_message. rewrite !length_app, !length_be. lia. Qed.

(** The view a reader builds over the next [n] bytes. *)
Lemma peek_data_of bs pre rest n :
  n = zlen bs →
  (if n =? 0 then None else peek_ptr n (reader_at pre (bs ++ rest))) = data_of bs.
Proof.
  intros ->. unfold data_of. case_decide as Hd; subst; simpl; [done|].
  destruct (Z.eqb_spec (zlen bs) 0); [by destruct bs|]. by apply peek_ptr_app.
Qed.

Lemma write_data_at bs out rest n :
  n = zlen bs → n <= zlen rest →
  (if 0 <? n then write_bytes (data_of bs) n else mret tt) (writer_at out rest) =
    (Done tt, writer_at (out ++ bs) (drop (length bs) rest)).
Proof.
  intros -> Hlen. unfold data_of. destruct (Z.ltb_spec 0 (zlen bs)).
  - rewrite decide_False by (by intros ->). by apply write_bytes_at.
  - destruct bs; [|simpl in *; lia]. simpl. by rewrite app_nil_r.
Qed.

Lemma write_message_at ch t bs out rest :
  is_u8 t → zlen bs <= NetConfig.MaxMessageBytes →
  (4 + length bs <= length rest)%nat →
  write_message ch t (data_of bs) (zlen bs) (writer_at out rest) =
    (Done tt, writer_at (out ++ enc_message ch t bs) (drop (4 + length bs) rest)).
Proof.
  intros Ht Hmax Hlen. unfold write_message.
  assert (channel_valid ch = true) as -> by (by destruct ch).
  assert (NetConfig.MaxMessageBytes = 1252) as Hm by done.
  change (w16 NetConfig.MaxMessageBytes) with 1252.
  rewrite (proj2 (Z.ltb_ge 1252 _)) by lia.
  assert ((0 <? zlen bs) && bool_decide (data_of bs = None) = false) as ->.
  { unfold data_of. case_decide; subst; [done|]. rewrite bool_decide_eq_false_2 by done.
    by rewrite andb_false_r. }
  branch. wput; [|auto with scn]. wput. wput; [|unfold is_u16; lia].
  rewrite write_data_at; [|done|wire_side].
  unfold enc_message. rewrite <- !app_assoc, !drop_drop, !length_be. done.
Qed.

Lemma read_message_app ch t bs pre rest :
  is_u8 t → zlen bs <= U16_MAX →
  read_message (reader_at pre (enc_message ch t bs ++ rest)) =
    (Done (msg_view ch t bs), reader_at (pre ++ enc_message ch t bs) rest).
Proof.
  intros Ht Hmax. unfold read_message. unfold U16_MAX in Hmax.
  erewrite bind_done by reflexivity. rewrite r_remaining_at, length_app, length_enc_message.
  rewrite (proj2 (Z.eqb_neq _ _)), (proj2 (Z.ltb_ge _ _)) by (unfold NetConfig.MessageHeaderBytes; lia).
  branch. unfold enc_message. wget; [|auto with scn]. wget. wget; [|unfold is_u16; lia].
  rewrite (proj2 (Z.ltb_ge _ _)) by (pose proof (channel_value_u8 ch); destruct ch; simpl; lia).
  branch.   erewrite bind_done by reflexivity. rewrite r_remaining_at, length_app.
  rewrite (proj2 (Z.ltb_ge _ _)) by lia. branch.
  erewrite bind_done by (by apply skip_r_app).
  rewrite peek_data_of, channel_of_value by done.
  by rewrite <- !app_assoc.
Qed.

#[global] Instance read_message_safe : ReaderSafe read_message.
Proof.
  intros r Hr. unfold read_message.
  erewrite bind_done by reflexivity.
  destruct (r_remaining r =? 0); [by split|].
  destruct (r_remaining r <? NetConfig.MessageHeaderBytes); [by split|].
  revert r Hr. apply reader_safe_bind; [apply _|]. intros ch.
  apply reader_safe_bind; [apply _|]. intros t.
  intros r Hr. apply reader_safe_bind_val; [apply _|done|].
  intros len r1 Hlen%read_u16_range Hwf.
  destruct (channel_value Channel.Control <? ch); [by split|].
  erewrite bind_done by reflexivity.
  destruct (Z.ltb_spec (r_remaining r1) len) as [|Hle]; [by split|].
  apply reader_safe_bind; [apply skip_r_safe, Hlen|apply _|done].
Qed.

(** A successful [read_message] consumed exactly one frame of the input. *)
Lemma read_message_inv pre rest m r' :
  bytes_ok rest → read_message (reader_at pre rest) = (Done m, r') →
  ∃ bs rest', m = msg_view (m_channel m) (m_type m) bs ∧
    is_u8 (m_type m) ∧ zlen bs <= U16_MAX ∧ bytes_ok bs ∧
    rest = enc_message (m_channel m) (m_type m) bs ++ rest' ∧
    r' = reader_at (pre ++ enc_message (m_channel m) (m_type m) bs) rest'.
Proof.
  intros Hok H. unfold read_message in H.
  erewrite bind_done in H by reflexivity. rewrite r_remaining_at in H.
  destruct (zlen rest =? 0); [by apply fail_not_done in H|].
  destruct (zlen rest <? NetConfig.MessageHeaderBytes); [by apply fail_not_done in H|].
  inv_done H. apply wire_canon in Hm as (Hch & rest1 & -> & ->); [|done].
  apply Forall_app in Hok as [_ Hok].
  inv_done H. apply wire_canon in Hm as (Ht & rest2 & -> & ->); [|done].
  apply Forall_app in Hok as [_ Hok].
  inv_done H. apply wire_canon in Hm as (Hlen & rest3 & -> & ->); [|done].
  apply Forall_app in Hok as [_ Hok].
  destruct (Z.ltb_spec (channel_value Channel.Control) a) as [|Ha]; [by apply fail_not_done in H|].
  erewrite bind_done in H by reflexivity. rewrite r_remaining_at in H.
  destruct (Z.ltb_spec (zlen rest3) a1) as [|Hle]; [by apply fail_not_done in H|].
  cbv zeta in H. set (bs := take (Z.to_nat a1) rest3).
  set (rest' := drop (Z.to_nat a1) rest3).
  assert (zlen bs = a1) as Hbs by (unfold bs; rewrite length_take; unfold is_u16 in Hlen; lia).
  rewrite <- (take_drop (Z.to_nat a1) rest3) in H. fold bs rest' in H.
  erewrite bind_done in H by (by apply skip_r_app).
  rewrite peek_data_of in H by done.
  unfold mret, io_ret in H. simplify_eq H. intros <- <-. simpl.
  exists bs, rest'. unfold is_u8, is_u16, U16_MAX in *. simpl in Ha.
  unfold msg_view, enc_message. rewrite Hbs, channel_value_of by lia.
  rewrite <- (take_drop (Z.to_nat a1) rest3) in Hok. apply Forall_app in Hok as [Hok _].
  split_and!; try done; try lia.
  - rewrite <- ?app_assoc. unfold bs, rest'. by rewrite take_drop.
  - by rewrite <- ?app_assoc.
Qed.

(** A frame written by [write_message] is read back by [read_message] as
    the same channel, type and bytes, and the cursor stops exactly at the end of
    the frame, so that frames can be concatenated in one packet. *)
Theorem message_roundtrip ch t bs room more :
  is_u8 t → zlen bs <= NetConfig.MaxMessageBytes → (4 + length bs <= length room)%nat →
  ∃ w, write_message ch t (data_of bs) (zlen bs) (writer_at [] room) = (Done tt, w) ∧
    read_message (reader_at [] (written w ++ more)) =
      (Done (msg_view ch t bs), reader_at (written w) more).
Proof.
  intros Ht Hmax Hroom. eexists. split; [by apply write_message_at|].
  rewrite written_at. apply read_message_app; [done|].
  change NetConfig.MaxMessageBytes with 1252 in Hmax. unfold U16_MAX. lia.
Qed.

Lemma message_roundtrip_witness :
  ∃ w, write_message Channel.Reliable 7 (data_of [1; 2; 3]) 3 (writer_at [] (replicate 8 0))
         = (Done tt, w) ∧
    read_message (reader_at [] (written w ++ [9])) =
      (Done (msg_view Channel.Reliable 7 [1; 2; 3]), reader_at (written w) [9]).
Proof.
  apply (message_roundtrip Channel.Reliable 7 [1; 2; 3] (replicate 8 0) [9]);
    [split; lia|vm_compute; discriminate|simpl; lia].
Defined.
