(* ===== verification/Packet.v ===== *)
(** * Packets

    [src/securecnet/lib/packet.cpp] and [include/securecnet/packet.hpp]: the
    28-byte header and the functions every datagram goes through. *)
From S2P Require Import Prelude Result ByteBuf Config Message.
#[local] Open Scope Z_scope.

Module PacketKind.
Inductive PacketKind : Set := Raw | Handshake | Message | Keepalive | Close.
End PacketKind.
Abbreviation PacketKind := PacketKind.PacketKind.

#[global] Instance PacketKind_eq_dec : EqDecision PacketKind.
Proof. solve_decision. Defined.

Definition kind_value (k : PacketKind) : U8 :=
  match k with
  | PacketKind.Raw => 0
  | PacketKind.Handshake => 1
  | PacketKind.Message => 2
  | PacketKind.Keepalive => 3
  | PacketKind.Close => 4
  end.

Definition PacketFlagEncrypted : U8 := 1.
Definition PacketKnownFlags : U8 := PacketFlagEncrypted.

Record PacketHeader := mkPacketHeader {
  magic : U32;
  version : U16;
  kind : U8;
  flags : U8;
  conn_id : U64;
  seq : U64;
  payload_len : U32;
}.

#[global] Instance PacketHeader_eq_dec : EqDecision PacketHeader.
Proof. solve_decision. Defined.

(** [PacketHeader header{};] *)
Definition default_header : PacketHeader :=
  mkPacketHeader NetConfig.Magic NetConfig.ProtocolVersion (kind_value PacketKind.Raw) 0 0 0 0.

Record PacketView := mkPacketView { pv_h : PacketHeader; pv_payload : ptr }.

Definition packet_kind_valid (k : U8) : bool := k <=? kind_value PacketKind.Close.

Definition packet_header_encrypted (h : PacketHeader) : bool :=
  negb (Z.land (flags h) PacketFlagEncrypted =? 0).

Definition max_payload_bytes : ST :=
  if NetConfig.PacketHeaderBytes <? NetConfig.MaxPacketBytes
  then NetConfig.MaxPacketBytes - NetConfig.PacketHeaderBytes else 0.

Definition validate_packet_header (h : PacketHeader) : Result :=
  if negb (magic h =? NetConfig.Magic)
  then fail_result Errc.BadPacket "bad magic"
  else if negb (version h =? NetConfig.ProtocolVersion)
  then fail_result Errc.UnsupportedVersion "unsupported version"
  else if negb (packet_kind_valid (kind h))
  then fail_result Errc.BadPacket "invalid packet kind"
  else if negb (Z.land (flags h) (Z.lnot PacketKnownFlags) =? 0)
  then fail_result Errc.BadPacket "invalid packet flags"
  else if max_payload_bytes <? payload_len h
  then fail_result Errc.BadPacket "payload_len exceeds max"
  else success.

Definition write_packet_header (h : PacketHeader) : io ByteWriter unit :=
  write_u32 (magic h);;
  write_u16 (version h);;
  write_u8 (kind h);;
  write_u8 (flags h);;
  write_u64 (conn_id h);;
  write_u64 (seq h);;
  write_u32 (payload_len h).

Definition read_packet_header : io ByteReader PacketHeader :=
  magic ← read_u32;
  version ← read_u16;
  kind ← read_u8;
  flags ← read_u8;
  conn_id ← read_u64;
  seq ← read_u64;
  payload_len ← read_u32;
  mret (mkPacketHeader magic version kind flags conn_id seq payload_len).

(** [out] is the caller's buffer before the call; the result is the outcome with
    [out_len], and the buffer afterwards. *)
Definition pack_packet (h : PacketHeader) (payload : ptr) (plen : ST) (out : ptr) (out_cap : ST)
    : outcome ST * ptr :=
  if bool_decide (out = None)
  then (Err (fail_result Errc.InvalidArg "out is null"), out)
  else if (0 <? plen) && bool_decide (payload = None)
  then (Err (fail_result Errc.InvalidArg "payload is null"), out)
  else if max_payload_bytes <? plen
  then (Err (fail_result Errc.InvalidArg "payload too large"), out)
  else if negb (payload_len h =? w32 plen)
  then (Err (fail_result Errc.InvalidArg "header payload_len mismatch"), out)
  else
    let rc := validate_packet_header h in
    if negb (ok rc) && negb (bool_decide (code rc = Errc.UnsupportedVersion))
    then (Err rc, out)
    else if out_cap <? NetConfig.PacketHeaderBytes + plen
    then (Err (fail_result Errc.Truncated "out buffer too small"), out)
    else
      let run : io ByteWriter unit :=
        write_packet_header h;;
        (if 0 <? plen then write_bytes payload plen else mret tt) in
      match run (mkWriter out out_cap 0) with
      | (Done _, w) => (Done (w_off w), dst w)
      | (Err rc, w) => (Err rc, dst w)
      | (UB, w) => (UB, dst w)
      end.

Definition parse_packet (input : ptr) (in_len : ST) : outcome PacketView :=
  match input with
  | None => Err (fail_result Errc.InvalidArg "in is null")
  | Some bytes =>
    if in_len <? NetConfig.PacketHeaderBytes
    then Err (fail_result Errc.Truncated "packet header truncated")
    else
      match read_packet_header (mkReader input in_len 0) with
      | (Err rc, _) => Err rc
      | (UB, _) => UB
      | (Done h, r) =>
        let rc := validate_packet_header h in
        if negb (ok rc) then Err rc
        else if r_remaining r <? payload_len h
        then Err (fail_result Errc.Truncated "payload truncated")
        else if negb (r_remaining r =? payload_len h)
        then Err (fail_result Errc.BadPacket "extra bytes after payload")
        else Done (mkPacketView h
               (if payload_len h =? 0 then None
                else Some (take (Z.to_nat (payload_len h)) (drop (Z.to_nat (r_off r)) bytes))))
      end
  end.

(** ** Specification *)

Definition enc_header (h : PacketHeader) : list U8 :=
  be 4 (magic h) ++ be 2 (version h) ++ be 1 (kind h) ++ be 1 (flags h)
  ++ be 8 (conn_id h) ++ be 8 (seq h) ++ be 4 (payload_len h).

Definition header_typed (h : PacketHeader) : Prop :=
  is_u32 (magic h) ∧ is_u16 (version h) ∧ is_u8 (kind h) ∧ is_u8 (flags h) ∧
  is_u64 (conn_id h) ∧ is_u64 (seq h) ∧ is_u32 (payload_len h).

#[global] Instance header_typed_dec h : Decision (header_typed h).
Proof. unfold header_typed. apply _. Defined.

Lemma length_enc_header h : length (enc_header h) = 28%nat.
Proof. unfold enc_header. by rewrite !length_app, !length_be. Qed.
#[export] Hint Rewrite length_enc_header : wire.
#[global] Arguments enc_header : simpl never.

#[global] Instance wire_header :
  Wire write_packet_header read_packet_header enc_header header_typed.
Proof.
  split.
  - intros h out rest (H1 & H2 & H3 & H4 & H5 & H6 & H7) Hlen.
    rewrite length_enc_header in *. unfold write_packet_header, enc_header.
    do 6 wput. rewrite wire_put; [|done|wire_side].
    by rewrite <- !app_assoc, !drop_drop, !length_be.
  - intros h pre rest (H1 & H2 & H3 & H4 & H5 & H6 & H7).
    unfold read_packet_header, enc_header. do 7 wget.
    unfold mret, io_ret. rewrite <- !app_assoc. by destruct h.
  - intros h pre rest r' Hok H. unfold read_packet_header in H.
    do 7 (inv_done H; apply wire_canon in Hm as (? & ? & -> & ->); [|done];
          apply Forall_app in Hok as [_ Hok]).
    unfold mret, io_ret in H. simplify_eq H. intros <- <-.
    split; [done|]. eexists. unfold enc_header. simpl. by rewrite <- !app_assoc.
  - intros h _. unfold enc_header. auto 15 with scn.
Qed.

#[global] Instance read_packet_header_safe : ReaderSafe read_packet_header.
Proof. unfold read_packet_header. apply _. Qed.

#[global] Instance read_packet_header_fixed : ReadsFixed read_packet_header 28.
Proof.
  unfold read_packet_header. eapply reads_fixed_eq; [apply _|reflexivity].
Qed.

Lemma max_payload_bytes_val : max_payload_bytes = 1272.
Proof. done. Qed.

(** [pack_packet] writes the header and the payload, whatever the buffer held. *)
Lemma pack_packet_spec h p out :
  header_typed h → validate_packet_header h = success → payload_len h = zlen p →
  (28 + length p <= length out)%nat →
  pack_packet h (data_of p) (zlen p) (Some out) (zlen out) =
    (Done (28 + zlen p), Some (enc_header h ++ p ++ drop (28 + length p) out)).
Proof.
  intros Ht Hv Hlen Hroom.
  assert (payload_len h <= 1272) as Hmax.
  { unfold validate_packet_header in Hv. change max_payload_bytes with 1272 in Hv.
    repeat case_match; try discriminate. lia. }
  unfold pack_packet. rewrite Hv, max_payload_bytes_val. cbv zeta.
  rewrite (bool_decide_eq_false_2 (Some out = None)) by done.
  assert ((0 <? zlen p) && bool_decide (data_of p = None) = false) as ->.
  { unfold data_of. case_decide; subst; [done|].
    rewrite bool_decide_eq_false_2 by done. apply andb_false_r. }
  rewrite (proj2 (Z.ltb_ge 1272 _)), Hlen, w32_id, Z.eqb_refl by (unfold is_u32; lia).
  change (ok success) with true. branch. change NetConfig.PacketHeaderBytes with 28.
  rewrite (proj2 (Z.ltb_ge _ _)) by lia.
  change (mkWriter (Some out) (zlen out) 0) with (writer_at [] out).
  erewrite bind_done; [|apply wire_put; [done|rewrite length_enc_header; lia]].
  rewrite length_enc_header, write_data_at by (rewrite ?length_drop; lia).
  rewrite drop_drop, app_nil_l. unfold writer_at. cbn [dst w_off].
  rewrite <- app_assoc. do 2 f_equal. rewrite length_app, length_enc_header. lia.
Qed.

Lemma parse_packet_spec h p :
  header_typed h → validate_packet_header h = success → payload_len h = zlen p →
  parse_packet (Some (enc_header h ++ p)) (zlen (enc_header h ++ p)) =
    Done (mkPacketView h (data_of p)).
Proof.
  intros Ht Hv Hlen. unfold parse_packet. change NetConfig.PacketHeaderBytes with 28.
  rewrite (proj2 (Z.ltb_ge _ _)) by (rewrite length_app, length_enc_header; lia).
  change (mkReader (Some (enc_header h ++ p)) (zlen (enc_header h ++ p)) 0)
    with (reader_at [] (enc_header h ++ p)).
  rewrite wire_get by done. rewrite Hv, r_remaining_at, Hlen, Z.eqb_refl, Z.ltb_irrefl.
  change (ok success) with true. branch. unfold reader_at. cbn [r_off].
  rewrite app_nil_l, !Nat2Z.id, drop_app_length, take_ge by lia. unfold data_of.
  case_decide; [by subst|]. destruct (Z.eqb_spec (zlen p) 0); [by destruct p|done].
Qed.

Lemma parse_packet_inv bs v :
  bytes_ok bs → parse_packet (Some bs) (zlen bs) = Done v →
  ∃ p, v = mkPacketView (pv_h v) (data_of p) ∧ bs = enc_header (pv_h v) ++ p ∧
    header_typed (pv_h v) ∧ validate_packet_header (pv_h v) = success ∧
    payload_len (pv_h v) = zlen p ∧ bytes_ok p.
Proof.
  intros Hok H. unfold parse_packet in H.
  destruct (zlen bs <? NetConfig.PacketHeaderBytes); [discriminate|].
  change (mkReader (Some bs) (zlen bs) 0) with (reader_at [] bs) in H.
  destruct (read_packet_header (reader_at [] bs)) as [[h|rc|] r] eqn:Hr; [|discriminate..].
  apply wire_canon in Hr as (Ht & p & -> & ->); [|done].
  apply Forall_app in Hok as [_ Hok].
  destruct (ok (validate_packet_header h)) eqn:Hv; [|discriminate].
  rewrite r_remaining_at in H. cbv zeta in H. simpl negb in H.
  destruct (Z.ltb_spec (zlen p) (payload_len h)); [discriminate|].
  destruct (Z.eqb_spec (zlen p) (payload_len h)) as [Hlen|]; [|discriminate].
  branch. cbn [negb] in H. unfold reader_at in H. cbn [r_off] in H.
  rewrite <- Hlen, app_nil_l, !Nat2Z.id, drop_app_length, take_ge in H by lia.
  simplify_eq H. intros <-. exists p. simpl. split_and!; try done.
  - f_equal. unfold data_of. case_decide; [by subst|].
    destruct (Z.eqb_spec (zlen p) 0); [by destruct p|done].
  - unfold validate_packet_header in *. repeat case_match; done.
Qed.

Lemma parse_packet_safe bs : parse_packet (Some bs) (zlen bs) ≠ UB.
Proof.
  unfold parse_packet. destruct (_ <? _); [done|].
  change (mkReader (Some bs) (zlen bs) 0) with (reader_at [] bs).
  pose proof (reader_safe (m:=read_packet_header) _ (reader_wf_at [] bs)) as [Hu _].
  destruct (read_packet_header _) as [[h|rc|] r]; [|done|by destruct Hu].
  cbv zeta. destruct (negb _); [done|]. destruct (_ <? _); [done|]. by destruct (negb _).
Qed.

(** A packet built by [pack_packet] parses back, with [parse_packet], to
    the same header and the same payload bytes. *)
Theorem packet_roundtrip h p out :
  header_typed h → validate_packet_header h = success → payload_len h = zlen p →
  (28 + length p <= length out)%nat →
  ∃ n buf, pack_packet h (data_of p) (zlen p) (Some out) (zlen out) = (Done n, Some buf) ∧
    length buf = length out ∧
    parse_packet (Some (take (Z.to_nat n) buf)) n = Done (mkPacketView h (data_of p)).
Proof.
  intros Ht Hv Hlen Hroom. do 2 eexists. split; [by apply pack_packet_spec|]. split.
  - rewrite !length_app, length_drop, length_enc_header. lia.
  - rewrite app_assoc, take_app_le, take_ge by (rewrite length_app, length_enc_header; lia).
    replace (28 + zlen p) with (zlen (enc_header h ++ p))
      by (rewrite length_app, length_enc_header; lia).
    by apply parse_packet_spec.
Qed.

Definition sample_header : PacketHeader :=
  mkPacketHeader NetConfig.Magic NetConfig.ProtocolVersion 2 1 77 5 3.

Lemma packet_roundtrip_witness :
  ∃ n buf, pack_packet sample_header (data_of [1; 2; 3]) 3 (Some (replicate 40 0)) 40
             = (Done n, Some buf) ∧
    length buf = length (replicate 40 0) ∧
    parse_packet (Some (take (Z.to_nat n) buf)) n =
      Done (mkPacketView sample_header (data_of [1; 2; 3])).
Proof.
  apply (packet_roundtrip sample_header [1; 2; 3] (replicate 40 0));
    [apply (bool_decide_unpack _); vm_compute; exact I|reflexivity|reflexivity|simpl; lia].
Defined.

(** [parse_packet] is canonical: the only datagram that parses to a view
    is the one [pack_packet] builds from it, so no two datagrams are confused and
    no byte of a datagram is ignored. *)
Theorem parse_packet_canonical bs v :
  bytes_ok bs → parse_packet (Some bs) (zlen bs) = Done v →
  pack_packet (pv_h v) (pv_payload v) (payload_len (pv_h v)) (Some bs) (zlen bs) =
    (Done (zlen bs), Some bs).
Proof.
  intros Hok Hp. destruct (parse_packet_inv bs v Hok Hp) as (p & -> & Hbs & Ht & Hv & Hlen & _).
  cbn [pv_h pv_payload] in *.
  assert (length bs = 28 + length p)%nat as Hbl by (by rewrite Hbs, length_app, length_enc_header).
  rewrite Hlen, pack_packet_spec by (done || lia).
  rewrite drop_ge, app_nil_r, <- Hbs by lia. do 2 f_equal. lia.
Qed.

Lemma parse_packet_canonical_witness :
  pack_packet sample_header (Some [1; 2; 3]) 3
    (Some (enc_header sample_header ++ [1; 2; 3])) 31 =
  (Done 31, Some (enc_header sample_header ++ [1; 2; 3])).
Proof.
  exact (parse_packet_canonical (enc_header sample_header ++ [1; 2; 3])
    (mkPacketView sample_header (Some [1; 2; 3]))
    ltac:(apply (bool_decide_unpack _); vm_compute; exact I) ltac:(reflexivity)).
Defined.

(** On any datagram whatsoever [parse_packet] performs no out-of-bounds
    access, and it can only answer with a view or with one of the codes
    [Truncated], [BadPacket] and [UnsupportedVersion]. *)
Theorem parse_packet_total bs :
  bytes_ok bs →
  match parse_packet (Some bs) (zlen bs) with
  | Done v => validate_packet_header (pv_h v) = success
  | Err rc => code rc = Errc.Truncated ∨ code rc = Errc.BadPacket
              ∨ code rc = Errc.UnsupportedVersion
  | UB => False
  end.
Proof.
  intros Hok. destruct (parse_packet (Some bs) (zlen bs)) as [v|rc|] eqn:Hp.
  - by destruct (parse_packet_inv bs v Hok Hp) as (p & _ & _ & _ & Hv & _).
  - unfold parse_packet in Hp.
    destruct (Z.ltb_spec (zlen bs) NetConfig.PacketHeaderBytes) as [|Hlen];
      [simplify_eq Hp; intros <-; auto|].
    change (mkReader (Some bs) (zlen bs) 0) with (reader_at [] bs) in Hp.
    assert (28 <= zlen bs) by done.
    rewrite <- (take_drop 28 bs) in Hok, Hp. apply Forall_app in Hok as [Hok _].
    destruct (reads_fixed (m:=read_packet_header) [] (take 28 bs) (drop 28 bs)) as [h Hh];
      [rewrite length_take; lia|done|]. rewrite Hh in Hp.
    unfold validate_packet_header in Hp. repeat case_match; simplify_eq/=; auto.
  - unfold parse_packet in Hp.
    destruct (zlen bs <? NetConfig.PacketHeaderBytes); [discriminate|].
    change (mkReader (Some bs) (zlen bs) 0) with (reader_at [] bs) in Hp.
    destruct (reader_safe (m:=read_packet_header) (reader_at [] bs)) as [Hub _];
      [apply reader_wf_at|].
    destruct (read_packet_header (reader_at [] bs)) as [[h|rc|] r]; simpl in *; [|done..].
    repeat case_match; done.
Qed.

Lemma parse_packet_total_witness :
  match parse_packet (Some [1; 2; 3]) 3 with
  | Done v => validate_packet_header (pv_h v) = success
  | Err rc => code rc = Errc.Truncated ∨ code rc = Errc.BadPacket
              ∨ code rc = Errc.UnsupportedVersion
  | UB => False
  end.
Proof.
  exact (parse_packet_total [1; 2; 3] ltac:(apply (bool_decide_unpack _); vm_compute; exact I)).
Defined.
