(* ===== verification/Protocol.v ===== *)
(** * Handshake and close formats

    [src/securecnet/include/securecnet/protocol.hpp]: connection states, close
    reasons, the retry and resumption tokens and the handshake messages. *)
From S2P Require Import Prelude Result ByteBuf Config.
#[local] Open Scope Z_scope.

Module ConnectionState.
Inductive ConnectionState : Set := Idle | Handshaking | Established | Closing | Closed.
End ConnectionState.
Abbreviation ConnectionState := ConnectionState.ConnectionState.

#[global] Instance ConnectionState_eq_dec : EqDecision ConnectionState.
Proof. solve_decision. Defined.

Module HandshakeType.
Definition ClientHello : U8 := 1.
Definition Retry : U8 := 2.
Definition ServerHello : U8 := 3.
End HandshakeType.

Module CloseReason.
Inductive CloseReason : Set :=
  | Normal
  | IdleTimeout
  | EstablishTimeout
  | UnsupportedVersion
  | AuthenticationFailed
  | ReplayDetected
  | ProtocolError
  | InvalidPacket
  | UnknownConnection
  | CookieExpired
  | StateViolation
  | InternalError
  | RateLimited
  | Backpressure.
End CloseReason.
Abbreviation CloseReason := CloseReason.CloseReason.

#[global] Instance CloseReason_eq_dec : EqDecision CloseReason.
Proof. solve_decision. Defined.

Definition close_reason_value (r : CloseReason) : U16 :=
  match r with
  | CloseReason.Normal => 0
  | CloseReason.IdleTimeout => 1
  | CloseReason.EstablishTimeout => 2
  | CloseReason.UnsupportedVersion => 3
  | CloseReason.AuthenticationFailed => 4
  | CloseReason.ReplayDetected => 5
  | CloseReason.ProtocolError => 6
  | CloseReason.InvalidPacket => 7
  | CloseReason.UnknownConnection => 8
  | CloseReason.CookieExpired => 9
  | CloseReason.StateViolation => 10
  | CloseReason.InternalError => 11
  | CloseReason.RateLimited => 12
  | CloseReason.Backpressure => 13
  end.

Definition all_close_reasons : list CloseReason :=
  [CloseReason.Normal; CloseReason.IdleTimeout; CloseReason.EstablishTimeout;
   CloseReason.UnsupportedVersion; CloseReason.AuthenticationFailed;
   CloseReason.ReplayDetected; CloseReason.ProtocolError; CloseReason.InvalidPacket;
   CloseReason.UnknownConnection; CloseReason.CookieExpired; CloseReason.StateViolation;
   CloseReason.InternalError; CloseReason.RateLimited; CloseReason.Backpressure].

(** The [switch] of [close_reason_valid]. *)
Definition close_reason_valid (r : CloseReason) : bool := bool_decide (r ∈ all_close_reasons).

(** [static_cast<CloseReason>(raw)] followed by [close_reason_valid]: the
    enumerator with value [raw], if the [switch] knows one. *)
Definition close_reason_of (raw : U16) : option CloseReason :=
  find (λ r, close_reason_value r =? raw) all_close_reasons.

(** ** Tokens *)

Record RetryToken := mkRetryToken { rt_issued_at_ms : U64; rt_mac : list U8 }.

Record ResumptionToken := mkResumptionToken {
  res_issued_at_ms : U64;
  res_expires_at_ms : U64;
  res_ticket_id : U64;
  res_mac : list U8;
}.

Definition default_retry_token : RetryToken :=
  mkRetryToken 0 (replicate NetConfig.RetryTokenMacBytes 0).
Definition default_resumption_token : ResumptionToken :=
  mkResumptionToken 0 0 0 (replicate NetConfig.ResumptionTokenMacBytes 0).

Definition write_retry_token (t : RetryToken) : io ByteWriter unit :=
  write_u64 (rt_issued_at_ms t);;
  write_array NetConfig.RetryTokenMacBytes (rt_mac t).

Definition read_retry_token : io ByteReader RetryToken :=
  issued ← read_u64;
  mac ← read_array NetConfig.RetryTokenMacBytes;
  mret (mkRetryToken issued mac).

Definition write_resumption_token (t : ResumptionToken) : io ByteWriter unit :=
  write_u64 (res_issued_at_ms t);;
  write_u64 (res_expires_at_ms t);;
  write_u64 (res_ticket_id t);;
  write_array NetConfig.ResumptionTokenMacBytes (res_mac t).

Definition read_resumption_token : io ByteReader ResumptionToken :=
  issued ← read_u64;
  expires ← read_u64;
  ticket ← read_u64;
  mac ← read_array NetConfig.ResumptionTokenMacBytes;
  if (ticket =? 0) || (expires <=? issued)
  then fail Errc.BadPacket "invalid resumption token"
  else mret (mkResumptionToken issued expires ticket mac).

(** ** Handshake messages *)

Record ClientHello := mkClientHello {
  client_public_key : list U8;
  client_nonce : list U8;
  ch_has_retry_token : bool;
  ch_retry_token : RetryToken;
  ch_has_resumption_token : bool;
  ch_resumption_token : ResumptionToken;
}.

Record ServerHello := mkServerHello {
  server_conn_id : U64;
  server_public_key : list U8;
  server_nonce : list U8;
  transcript_mac : list U8;
  sh_has_resumption_token : bool;
  sh_resumption_token : ResumptionToken;
}.

(** [w.write_u8(flag ? 1 : 0)] followed by the token when the flag is set. *)
Definition write_optional {A} (wr : A → io ByteWriter unit) (has : bool) (a : A)
    : io ByteWriter unit :=
  write_u8 (if has then 1 else 0);;
  (if has then wr a else mret tt).

Definition write_client_hello (h : ClientHello) : io ByteWriter unit :=
  write_u8 HandshakeType.ClientHello;;
  write_array NetConfig.KeyExchangePublicKeyBytes (client_public_key h);;
  write_array NetConfig.ClientNonceBytes (client_nonce h);;
  write_optional write_retry_token (ch_has_retry_token h) (ch_retry_token h);;
  write_optional write_resumption_token (ch_has_resumption_token h) (ch_resumption_token h).

(** [read_u8(flag); if (flag > 1) fail; if (flag) read the token] *)
Definition read_optional {A} (rd : io ByteReader A) (dflt : A) (m : string)
    : io ByteReader (bool * A) :=
  flag ← read_u8;
  if 1 <? flag then fail Errc.BadPacket m
  else if negb (flag =? 0) then a ← rd; mret (true, a)
  else mret (false, dflt).

Definition read_client_hello : io ByteReader ClientHello :=
  type ← read_u8;
  if negb (type =? HandshakeType.ClientHello)
  then fail Errc.BadPacket "expected client hello"
  else
    pk ← read_array NetConfig.KeyExchangePublicKeyBytes;
    nonce ← read_array NetConfig.ClientNonceBytes;
    retry ← read_optional read_retry_token default_retry_token "invalid retry token flag";
    res ← read_optional read_resumption_token default_resumption_token
            "invalid resumption token flag";
    expect_end "extra bytes in client hello";;
    mret (mkClientHello pk nonce retry.1 retry.2 res.1 res.2).

Definition write_retry (t : RetryToken) : io ByteWriter unit :=
  write_u8 HandshakeType.Retry;; write_retry_token t.

Definition read_retry : io ByteReader RetryToken :=
  type ← read_u8;
  if negb (type =? HandshakeType.Retry)
  then fail Errc.BadPacket "expected retry"
  else
    token ← read_retry_token;
    expect_end "extra bytes in retry";;
    mret token.

Definition write_server_hello (h : ServerHello) : io ByteWriter unit :=
  write_u8 HandshakeType.ServerHello;;
  write_u64 (server_conn_id h);;
  write_array NetConfig.KeyExchangePublicKeyBytes (server_public_key h);;
  write_array NetConfig.ServerNonceBytes (server_nonce h);;
  write_array NetConfig.TranscriptMacBytes (transcript_mac h);;
  write_optional write_resumption_token (sh_has_resumption_token h) (sh_resumption_token h).

Definition read_server_hello : io ByteReader ServerHello :=
  type ← read_u8;
  if negb (type =? HandshakeType.ServerHello)
  then fail Errc.BadPacket "expected server hello"
  else
    cid ← read_u64;
    pk ← read_array NetConfig.KeyExchangePublicKeyBytes;
    nonce ← read_array NetConfig.ServerNonceBytes;
    mac ← read_array NetConfig.TranscriptMacBytes;
    res ← read_optional read_resumption_token default_resumption_token
            "invalid server hello resumption flag";
    if cid =? 0 then fail Errc.BadPacket "server hello missing conn id"
    else
      expect_end "extra bytes in server hello";;
      mret (mkServerHello cid pk nonce mac res.1 res.2).

(** ** Close frame *)

Definition write_close_frame (reason : CloseReason) : io ByteWriter unit :=
  if negb (close_reason_valid reason)
  then fail Errc.InvalidArg "invalid close reason"
  else write_u16 (close_reason_value reason).

Definition read_close_frame : io ByteReader CloseReason :=
  raw ← read_u16;
  expect_end "extra bytes in close frame";;
  match close_reason_of raw with
  | None => fail Errc.BadPacket "invalid close reason"
  | Some reason => mret reason
  end.

(** ** Specification *)

Definition enc_retry_token (t : RetryToken) : list U8 := be 8 (rt_issued_at_ms t) ++ enc_array (rt_mac t).
Definition retry_token_valid (t : RetryToken) : Prop :=
  is_u64 (rt_issued_at_ms t) ∧ is_array NetConfig.RetryTokenMacBytes (rt_mac t).

Definition enc_resumption_token (t : ResumptionToken) : list U8 :=
  be 8 (res_issued_at_ms t) ++ be 8 (res_expires_at_ms t) ++ be 8 (res_ticket_id t) ++
  enc_array (res_mac t).
Definition resumption_token_valid (t : ResumptionToken) : Prop :=
  is_u64 (res_issued_at_ms t) ∧ is_u64 (res_expires_at_ms t) ∧ is_u64 (res_ticket_id t) ∧
  is_array NetConfig.ResumptionTokenMacBytes (res_mac t) ∧
  res_ticket_id t ≠ 0 ∧ res_issued_at_ms t < res_expires_at_ms t.

(** What the last field of a composite reader leaves behind. *)
Ltac wput_last := rewrite wire_put; [|done|wire_side].

#[global] Instance wire_retry_token :
  Wire write_retry_token read_retry_token enc_retry_token retry_token_valid.
Proof.
  split.
  - intros t out rest [H1 H2] Hlen. unfold write_retry_token, enc_retry_token in *.
    rewrite length_app, length_be in *. wput. wput_last.
    by rewrite <- !app_assoc, !drop_drop, !length_be.
  - intros t pre rest [H1 H2]. unfold read_retry_token, enc_retry_token. do 2 wget.
    unfold mret, io_ret. rewrite <- !app_assoc. by destruct t.
  - intros t pre rest r' Hok H. unfold read_retry_token in H. do 2 wcanon H Hok.
    unfold mret, io_ret in H. simplify_eq H. intros <- <-.
    split; [done|]. eexists. unfold enc_retry_token. simpl. by rewrite <- !app_assoc.
  - intros t [H1 H2]. unfold enc_retry_token. eauto with scn.
Qed.

#[global] Instance wire_resumption_token :
  Wire write_resumption_token read_resumption_token enc_resumption_token resumption_token_valid.
Proof.
  split.
  - intros t out rest (H1 & H2 & H3 & H4 & _) Hlen.
    unfold write_resumption_token, enc_resumption_token in *.
    rewrite !length_app, !length_be in *. do 3 wput. wput_last.
    by rewrite <- !app_assoc, !drop_drop, !length_be.
  - intros t pre rest (H1 & H2 & H3 & H4 & H5 & H6).
    unfold read_resumption_token, enc_resumption_token. do 4 wget.
    rewrite (proj2 (Z.eqb_neq _ _) H5), (proj2 (Z.leb_gt _ _) H6). branch.
    unfold mret, io_ret. rewrite <- !app_assoc. by destruct t.
  - intros t pre rest r' Hok H. unfold read_resumption_token in H. do 4 wcanon H Hok.
    destruct (Z.eqb_spec a1 0); [done|]. destruct (Z.leb_spec a0 a); [done|].
    unfold mret, io_ret in H. simplify_eq H. intros <- <-.
    split; [by split_and!|]. eexists. unfold enc_resumption_token. simpl.
    by rewrite <- !app_assoc.
  - intros t (_ & _ & _ & ? & _). unfold enc_resumption_token. eauto 10 with scn.
Qed.

#[global] Instance read_retry_token_safe : ReaderSafe read_retry_token.
Proof. unfold read_retry_token. apply _. Qed.
#[global] Instance read_resumption_token_safe : ReaderSafe read_resumption_token.
Proof. unfold read_resumption_token. apply _. Qed.

(** The flag-and-token pair. *)
Section optional.
Context {A : Type} (wr : A → io ByteWriter unit) (rd : io ByteReader A)
  (enc : A → list U8) (valid : A → Prop) (dflt : A) (m : string) `{!Wire wr rd enc valid}.

Definition enc_optional (o : bool * A) : list U8 :=
  be 1 (if o.1 then 1 else 0) ++ (if o.1 then enc o.2 else []).
Definition optional_valid (o : bool * A) : Prop := if o.1 then valid o.2 else o.2 = dflt.

#[global] Instance wire_optional :
  Wire (λ o, write_optional wr o.1 o.2) (read_optional rd dflt m) enc_optional optional_valid.
Proof using Type*.
  split.
  - intros [[|] a] out rest Hv Hlen; unfold write_optional, enc_optional in *; cbn [fst snd] in *;
      rewrite ?length_app, ?length_be in *.
    + wput. rewrite wire_put; [|done|wire_side].
      by rewrite <- !app_assoc, !drop_drop, !length_be.
    + wput. unfold mret, io_ret. by rewrite app_nil_r, length_be.
  - intros [[|] a] pre rest Hv; unfold read_optional, enc_optional, optional_valid in *;
      cbn [fst snd] in *.
    + wget. change (1 <? 1) with false. change (1 =? 0) with false. branch.
      wget. unfold mret, io_ret. by rewrite <- app_assoc.
    + wget. change (1 <? 0) with false. change (0 =? 0) with true. branch.
      unfold mret, io_ret. by rewrite (app_nil_r (be 1 0)), Hv.
  - intros [b a] pre rest r' Hok H. unfold read_optional in H. wcanon H Hok.
    destruct (Z.ltb_spec 1 a0); [done|]. unfold is_u8 in *.
    destruct (Z.eqb_spec a0 0) as [->|]; simpl in H.
    + unfold mret, io_ret in H. simplify_eq H. intros <- <- <-.
      split; [done|]. eexists. unfold enc_optional. cbn [fst snd].
      rewrite (app_nil_r (be 1 0)). split; reflexivity.
    + assert (a0 = 1) as -> by lia. wcanon H Hok.
      unfold mret, io_ret in H. simplify_eq H. intros <- <- <-.
      split; [done|]. eexists. unfold enc_optional. cbn [fst snd].
      rewrite <- !app_assoc. split; reflexivity.
  - intros [[|] a] Hv; unfold enc_optional, optional_valid in *; cbn [fst snd] in *.
    + apply bytes_ok_app; [auto with scn|by apply (wire_ok (rd:=rd))].
    + rewrite app_nil_r. auto with scn.
Qed.

#[global] Instance read_optional_safe : ReaderSafe rd → ReaderSafe (read_optional rd dflt m).
Proof. intros. unfold read_optional. apply _. Qed.
End optional.
#[global] Arguments enc_optional {A} enc o.
#[global] Arguments optional_valid {A} valid dflt o.

Lemma write_optional_at {A} (wr : A → io ByteWriter unit) (rd : io ByteReader A) enc valid dflt
    `{!Wire wr rd enc valid} (has : bool) (a : A) (out rest : list U8) :
  optional_valid valid dflt (has, a) →
  (length (enc_optional enc (has, a)) <= length rest)%nat →
  write_optional wr has a (writer_at out rest) =
    (Done tt, writer_at (out ++ enc_optional enc (has, a))
                (drop (length (enc_optional enc (has, a))) rest)).
Proof. exact (wire_put (Wire:=wire_optional wr rd enc valid dflt EmptyString) (has, a) out rest). Qed.

(** ** Handshake frames *)

Definition enc_client_hello (h : ClientHello) : list U8 :=
  be 1 HandshakeType.ClientHello ++ enc_array (client_public_key h) ++
  enc_array (client_nonce h) ++
  enc_optional enc_retry_token (ch_has_retry_token h, ch_retry_token h) ++
  enc_optional enc_resumption_token (ch_has_resumption_token h, ch_resumption_token h).

(** An absent token carries the default value the reader leaves in the struct. *)
Definition client_hello_valid (h : ClientHello) : Prop :=
  is_array NetConfig.KeyExchangePublicKeyBytes (client_public_key h) ∧
  is_array NetConfig.ClientNonceBytes (client_nonce h) ∧
  optional_valid retry_token_valid default_retry_token
    (ch_has_retry_token h, ch_retry_token h) ∧
  optional_valid resumption_token_valid default_resumption_token
    (ch_has_resumption_token h, ch_resumption_token h).

Definition enc_server_hello (h : ServerHello) : list U8 :=
  be 1 HandshakeType.ServerHello ++ be 8 (server_conn_id h) ++
  enc_array (server_public_key h) ++ enc_array (server_nonce h) ++
  enc_array (transcript_mac h) ++
  enc_optional enc_resumption_token (sh_has_resumption_token h, sh_resumption_token h).

Definition server_hello_valid (h : ServerHello) : Prop :=
  is_u64 (server_conn_id h) ∧ server_conn_id h ≠ 0 ∧
  is_array NetConfig.KeyExchangePublicKeyBytes (server_public_key h) ∧
  is_array NetConfig.ServerNonceBytes (server_nonce h) ∧
  is_array NetConfig.TranscriptMacBytes (transcript_mac h) ∧
  optional_valid resumption_token_valid default_resumption_token
    (sh_has_resumption_token h, sh_resumption_token h).

Definition enc_retry (t : RetryToken) : list U8 := be 1 HandshakeType.Retry ++ enc_retry_token t.

Definition enc_close_frame (reason : CloseReason) : list U8 := be 2 (close_reason_value reason).

Lemma close_reason_of_value reason : close_reason_of (close_reason_value reason) = Some reason.
Proof. by destruct reason. Qed.

Lemma close_reason_of_inv raw reason :
  close_reason_of raw = Some reason → close_reason_value reason = raw.
Proof. unfold close_reason_of. intros [_ H]%find_some. lia. Qed.

Lemma close_reason_range reason : is_u16 (close_reason_value reason).
Proof. by destruct reason. Qed.

Lemma close_reason_valid_true reason : close_reason_valid reason = true.
Proof. unfold close_reason_valid. apply bool_decide_eq_true_2. by destruct reason; set_solver. Qed.

#[global] Instance frame_retry :
  WireFrame write_retry read_retry enc_retry retry_token_valid.
Proof.
  split.
  - intros t out rest Hv Hlen. unfold write_retry, enc_retry in *.
    rewrite length_app, length_be in *.
    wput. rewrite (wire_put (rd:=read_retry_token)); [|done|rewrite length_drop, ?length_be; lia].
    by rewrite drop_drop, length_be, <- app_assoc.
  - intros t pre Hv. unfold read_retry, enc_retry. wget.
    rewrite Z.eqb_refl. branch. rewrite <- (app_nil_r (enc_retry_token t)). wget.
    erewrite bind_done by apply expect_end_at. by rewrite <- app_assoc, app_nil_r.
  - intros t pre rest r' Hok H. unfold read_retry in H. wcanon H Hok.
    destruct (Z.eqb_spec a HandshakeType.Retry) as [->|]; [cbn [negb] in H|done].
    wcanon H Hok. inv_done H. apply expect_end_inv in Hm as [-> ->].
    unfold mret, io_ret in H. simplify_eq H. intros <- <-. split; [done|].
    by rewrite app_nil_r.
Qed.

#[global] Instance frame_client_hello :
  WireFrame write_client_hello read_client_hello enc_client_hello client_hello_valid.
Proof.
  split.
  - intros h out rest (H1 & H2 & H3 & H4) Hlen. unfold write_client_hello, enc_client_hello in *.
    rewrite !length_app, length_be in *. do 3 wput.
    erewrite bind_done by (eapply write_optional_at; [apply wire_retry_token|done|wire_side]).
    erewrite write_optional_at; [|apply wire_resumption_token|done|wire_side].
    by rewrite <- !app_assoc, !drop_drop, !length_be.
  - intros h pre (H1 & H2 & H3 & H4). unfold read_client_hello, enc_client_hello. wget.
    rewrite Z.eqb_refl. branch. do 3 wget.
    rewrite <- (app_nil_r (enc_optional enc_resumption_token _)). wget.
    erewrite bind_done by apply expect_end_at. cbn [fst snd].
    rewrite <- !app_assoc, !app_nil_r. by destruct h.
  - intros h pre rest r' Hok H. unfold read_client_hello in H. wcanon H Hok.
    destruct (Z.eqb_spec a HandshakeType.ClientHello) as [->|]; [cbn [negb] in H|done].
    do 4 wcanon H Hok. inv_done H. apply expect_end_inv in Hm as [-> ->].
    unfold mret, io_ret in H. simplify_eq H. intros <- <-.
    destruct a1 as [b1 t1], a2 as [b2 t2]. split; [by split_and!|].
    unfold enc_client_hello. cbn -[be]. by rewrite app_nil_r.
Qed.

#[global] Instance frame_server_hello :
  WireFrame write_server_hello read_server_hello enc_server_hello server_hello_valid.
Proof.
  split.
  - intros h out rest (H1 & _ & H2 & H3 & H4 & H5) Hlen.
    unfold write_server_hello, enc_server_hello in *. rewrite !length_app, !length_be in *.
    do 5 wput. erewrite write_optional_at; [|apply wire_resumption_token|done|wire_side].
    by rewrite <- !app_assoc, !drop_drop, !length_be.
  - intros h pre (H1 & H0 & H2 & H3 & H4 & H5). unfold read_server_hello, enc_server_hello. wget.
    rewrite Z.eqb_refl. branch. do 4 wget.
    rewrite <- (app_nil_r (enc_optional enc_resumption_token _)). wget.
    rewrite (proj2 (Z.eqb_neq _ _) H0). erewrite bind_done by apply expect_end_at. cbn [fst snd].
    rewrite <- !app_assoc, !app_nil_r. by destruct h.
  - intros h pre rest r' Hok H. unfold read_server_hello in H. wcanon H Hok.
    destruct (Z.eqb_spec a HandshakeType.ServerHello) as [->|]; [cbn [negb] in H|done].
    do 5 wcanon H Hok. destruct (Z.eqb_spec a 0); [done|].
    inv_done H. apply expect_end_inv in Hm as [-> ->].
    unfold mret, io_ret in H. simplify_eq H. intros <- <-.
    destruct a3 as [b1 t1]. split; [by split_and!|].
    unfold enc_server_hello. cbn -[be]. by rewrite app_nil_r.
Qed.

#[global] Instance frame_close :
  WireFrame write_close_frame read_close_frame enc_close_frame (λ _, True).
Proof.
  split.
  - intros reason out rest _ Hlen. unfold write_close_frame.
    rewrite close_reason_valid_true. cbn [negb].
    exact (wire_put (wr:=write_u16) _ out rest (close_reason_range reason) Hlen).
  - intros reason pre _. unfold read_close_frame, enc_close_frame.
    rewrite <- (app_nil_r (be 2 _)). wget; [|apply close_reason_range].
    erewrite bind_done by apply expect_end_at.
    by rewrite close_reason_of_value, app_nil_r.
  - intros reason pre rest r' Hok H. unfold read_close_frame in H. wcanon H Hok.
    inv_done H. apply expect_end_inv in Hm as [-> ->].
    destruct (close_reason_of a) as [x0|] eqn:Hx; [|done].
    unfold mret, io_ret in H. simplify_eq H. intros <- <-. split; [done|].
    apply close_reason_of_inv in Hx as <-. by rewrite app_nil_r.
Qed.

(** Every handshake frame fits in one packet. *)
Ltac array_sizes :=
  unfold NetConfig.KeyExchangePublicKeyBytes, NetConfig.ClientNonceBytes,
    NetConfig.ServerNonceBytes, NetConfig.TranscriptMacBytes, NetConfig.RetryTokenMacBytes,
    NetConfig.ResumptionTokenMacBytes.

Lemma optional_retry_length (o : bool * RetryToken) :
  optional_valid retry_token_valid default_retry_token o →
  (length (enc_optional enc_retry_token o) <= 25)%nat.
Proof.
  destruct o as [[|] t]; unfold optional_valid, enc_optional, enc_retry_token; cbn [fst snd];
    rewrite ?length_app, ?length_be; [intros [_ H]; rewrite (length_enc_array _ _ H)|intros _];
    cbn; array_sizes; lia.
Qed.

Lemma optional_resumption_length (o : bool * ResumptionToken) :
  optional_valid resumption_token_valid default_resumption_token o →
  (length (enc_optional enc_resumption_token o) <= 41)%nat.
Proof.
  destruct o as [[|] t]; unfold optional_valid, enc_optional, enc_resumption_token; cbn [fst snd];
    rewrite ?length_app, ?length_be;
    [intros (_ & _ & _ & H & _); rewrite (length_enc_array _ _ H)|intros _]; cbn; array_sizes; lia.
Qed.

Lemma client_hello_length h : client_hello_valid h → (length (enc_client_hello h) <= 115)%nat.
Proof.
  intros (H1 & H2 & H3%optional_retry_length & H4%optional_resumption_length).
  unfold enc_client_hello.
  rewrite !length_app, length_be, (length_enc_array _ _ H1), (length_enc_array _ _ H2).
  array_sizes. lia.
Qed.

Lemma server_hello_length h : server_hello_valid h → (length (enc_server_hello h) <= 114)%nat.
Proof.
  intros (_ & _ & H1 & H2 & H3 & H4%optional_resumption_length). unfold enc_server_hello.
  rewrite !length_app, !length_be, (length_enc_array _ _ H1), (length_enc_array _ _ H2),
    (length_enc_array _ _ H3).
  array_sizes. lia.
Qed.

Lemma retry_length t : retry_token_valid t → (length (enc_retry t) <= 25)%nat.
Proof.
  intros [_ H]. unfold enc_retry, enc_retry_token.
  rewrite !length_app, !length_be, (length_enc_array _ _ H). array_sizes. lia.
Qed.

#[global] Instance read_client_hello_safe : ReaderSafe read_client_hello.
Proof. unfold read_client_hello. apply _. Qed.
#[global] Instance read_server_hello_safe : ReaderSafe read_server_hello.
Proof. unfold read_server_hello. apply _. Qed.
#[global] Instance read_retry_safe : ReaderSafe read_retry.
Proof. unfold read_retry. apply _. Qed.
#[global] Instance read_close_frame_safe : ReaderSafe read_close_frame.
Proof.
  unfold read_close_frame. apply reader_safe_bind; [apply _|]. intros a.
  apply reader_safe_bind; [apply _|]. intros _. destruct (close_reason_of a); apply _.
Qed.

(** C39: every handshake message and close frame survives the wire: written
    to a packet-sized buffer, it is read back as the struct the writer was
    given. *)
Theorem handshake_roundtrip ch sh rt reason room :
  client_hello_valid ch → server_hello_valid sh → retry_token_valid rt →
  NetConfig.MaxPayloadBytes <= zlen room →
  (∃ w, write_client_hello ch (writer_at [] room) = (Done tt, w) ∧
        (read_client_hello (reader_at [] (written w))).1 = Done ch) ∧
  (∃ w, write_server_hello sh (writer_at [] room) = (Done tt, w) ∧
        (read_server_hello (reader_at [] (written w))).1 = Done sh) ∧
  (∃ w, write_retry rt (writer_at [] room) = (Done tt, w) ∧
        (read_retry (reader_at [] (written w))).1 = Done rt) ∧
  (∃ w, write_close_frame reason (writer_at [] room) = (Done tt, w) ∧
        (read_close_frame (reader_at [] (written w))).1 = Done reason).
Proof.
  intros Hch Hsh Hrt Hroom.
  pose proof (client_hello_length ch Hch). pose proof (server_hello_length sh Hsh).
  pose proof (retry_length rt Hrt). assert (1272 <= zlen room) by exact Hroom.
  split_and!; apply (frame_roundtrip (valid:=_)); try done; try lia.
  unfold enc_close_frame. rewrite length_be. lia.
Qed.

Definition sample_resumption : ResumptionToken :=
  mkResumptionToken 100 200 7 (replicate 16 9).
Definition sample_client_hello : ClientHello :=
  mkClientHello (replicate 32 1) (replicate 16 2) true (mkRetryToken 55 (replicate 16 3))
    true sample_resumption.
Definition sample_server_hello : ServerHello :=
  mkServerHello 99 (replicate 32 4) (replicate 16 5) (replicate 16 6) true sample_resumption.

Lemma handshake_roundtrip_witness :
  (∃ w, write_client_hello sample_client_hello (writer_at [] (replicate 1272 0)) = (Done tt, w) ∧
        (read_client_hello (reader_at [] (written w))).1 = Done sample_client_hello) ∧
  (∃ w, write_server_hello sample_server_hello (writer_at [] (replicate 1272 0)) = (Done tt, w) ∧
        (read_server_hello (reader_at [] (written w))).1 = Done sample_server_hello) ∧
  (∃ w, write_retry (mkRetryToken 55 (replicate 16 3)) (writer_at [] (replicate 1272 0))
          = (Done tt, w) ∧
        (read_retry (reader_at [] (written w))).1 = Done (mkRetryToken 55 (replicate 16 3))) ∧
  (∃ w, write_close_frame CloseReason.IdleTimeout (writer_at [] (replicate 1272 0))
          = (Done tt, w) ∧
        (read_close_frame (reader_at [] (written w))).1 = Done CloseReason.IdleTimeout).
Proof.
  apply handshake_roundtrip.
  - split_and!; apply (bool_decide_unpack _); vm_compute; exact I.
  - split_and!; apply (bool_decide_unpack _); vm_compute; exact I.
  - split_and!; apply (bool_decide_unpack _); vm_compute; exact I.
  - by vm_compute.
Defined.

(** Handshake parsing is canonical and memory safe: on any byte string the
    four readers perform no out-of-bounds access, and whatever they accept is,
    byte for byte, what the writer produces for the parsed struct (so a
    transcript computed over the parsed message is one over the received
    bytes). *)
Theorem handshake_canonical bs :
  bytes_ok bs →
  (∀ h, (read_client_hello (reader_at [] bs)).1 = Done h →
     ∃ w, write_client_hello h (writer_at [] bs) = (Done tt, w) ∧ written w = bs) ∧
  (∀ h, (read_server_hello (reader_at [] bs)).1 = Done h →
     ∃ w, write_server_hello h (writer_at [] bs) = (Done tt, w) ∧ written w = bs) ∧
  (∀ t, (read_retry (reader_at [] bs)).1 = Done t →
     ∃ w, write_retry t (writer_at [] bs) = (Done tt, w) ∧ written w = bs) ∧
  (∀ r, (read_close_frame (reader_at [] bs)).1 = Done r →
     ∃ w, write_close_frame r (writer_at [] bs) = (Done tt, w) ∧ written w = bs) ∧
  (read_client_hello (reader_at [] bs)).1 ≠ UB ∧ (read_server_hello (reader_at [] bs)).1 ≠ UB ∧
  (read_retry (reader_at [] bs)).1 ≠ UB ∧ (read_close_frame (reader_at [] bs)).1 ≠ UB.
Proof.
  intros Hok. split_and!; try (intros; by eapply frame_rebuild); apply reader_safe, reader_wf_at.
Qed.

Lemma handshake_canonical_witness :
  ∃ w, write_close_frame CloseReason.ProtocolError (writer_at [] [0; 6]) = (Done tt, w) ∧
       written w = [0; 6].
Proof.
  exact (proj1 (proj2 (proj2 (proj2 (handshake_canonical [0; 6]
    ltac:(apply (bool_decide_unpack _); vm_compute; exact I))))) CloseReason.ProtocolError
    ltac:(reflexivity)).
Defined.
