(* ===== verification/Windows.v ===== *)
(** * Receive windows

    The duplicate filters of the receive path: [ReplayWindow]
    ([include/securecnet/protocol.hpp]), which protects a session against
    replayed packets, and [ReliableReceiveWindow] and [SequencedReceiveWindow]
    ([include/securecnet/reliability.hpp]), which de-duplicate reliable
    messages and drop outdated sequenced ones.  The first two are 64-bit
    bitmaps; they are related here to the set of numbers accepted so far. *)
From stdpp Require Import sorting.
From S2P Require Import Prelude.
#[local] Open Scope Z_scope.

(** ** The bitmap windows *)

(** The private fields of [ReplayWindow] and of [ReliableReceiveWindow]. *)
Record Window := mkWindow {
  win_initialized : bool;
  win_latest : U64;
  win_seen : U64;
}.

#[global] Instance Window_eq_dec : EqDecision Window.
Proof. solve_decision. Defined.

Definition fresh_window : Window := mkWindow false 0 0.

Module ReplayWindow.
Definition accept (sequence : U64) (w : Window) : bool * Window :=
  if negb (win_initialized w) then (true, mkWindow true sequence 1)
  else if win_latest w <? sequence then
    let delta := sequence - win_latest w in
    let seen := if 64 <=? delta then 0 else w64 (Z.shiftl (win_seen w) delta) in
    (true, mkWindow true sequence (Z.lor seen 1))
  else
    let delta := win_latest w - sequence in
    if 64 <=? delta then (false, w)
    else
      let mask := w64 (Z.shiftl 1 delta) in
      let duplicate := negb (Z.land (win_seen w) mask =? 0) in
      (negb duplicate,
       mkWindow (win_initialized w) (win_latest w) (Z.lor (win_seen w) mask)).

Definition reset (w : Window) : Window := mkWindow false 0 0.
End ReplayWindow.

Module ReliableReceiveWindow.
Definition accept (message_id : U64) (w : Window) : bool * Window :=
  if message_id =? 0 then (false, w)
  else if negb (win_initialized w) then (true, mkWindow true message_id 1)
  else if win_latest w <? message_id then
    let delta := message_id - win_latest w in
    let seen := if 64 <=? delta then 0 else w64 (Z.shiftl (win_seen w) delta) in
    (true, mkWindow true message_id (Z.lor seen 1))
  else
    let delta := win_latest w - message_id in
    if 64 <=? delta then (false, w)
    else
      let mask := w64 (Z.shiftl 1 delta) in
      let duplicate := negb (Z.land (win_seen w) mask =? 0) in
      (negb duplicate,
       mkWindow (win_initialized w) (win_latest w) (Z.lor (win_seen w) mask)).

Definition seen (message_id : U64) (w : Window) : bool :=
  if message_id =? 0 then false
  else if negb (win_initialized w) || (win_latest w <? message_id) then false
  else
    let delta := win_latest w - message_id in
    if 64 <=? delta then false
    else
      let mask := w64 (Z.shiftl 1 delta) in
      negb (Z.land (win_seen w) mask =? 0).

Definition reset (w : Window) : Window := mkWindow false 0 0.
End ReliableReceiveWindow.

(** ** The sequenced window *)

Record SequencedReceiveWindow := mkSequencedWindow {
  sw_initialized : bool;
  sw_latest : U64;
}.

Definition fresh_sequenced : SequencedReceiveWindow := mkSequencedWindow false 0.

Module Sequenced.
Definition accept (delivery_sequence : U64) (w : SequencedReceiveWindow)
    : bool * SequencedReceiveWindow :=
  if delivery_sequence =? 0 then (false, w)
  else if negb (sw_initialized w) then (true, mkSequencedWindow true delivery_sequence)
  else if delivery_sequence <=? sw_latest w then (false, w)
  else (true, mkSequencedWindow (sw_initialized w) delivery_sequence).

Definition clear (w : SequencedReceiveWindow) : SequencedReceiveWindow :=
  mkSequencedWindow false 0.
End Sequenced.

(** ** Runs

    A filter applied to the numbers in their order of arrival; the result is
    the sub-sequence it accepted. *)
Section run.
Context {W : Type} (acc : U64 → W → bool * W).

Fixpoint accepted (w : W) (arrivals : list U64) : list U64 :=
  match arrivals with
  | [] => []
  | s :: rest =>
      let '(b, w') := acc s w in
      if b then s :: accepted w' rest else accepted w' rest
  end.

Fixpoint after (w : W) (arrivals : list U64) : W :=
  match arrivals with
  | [] => w
  | s :: rest => after (acc s w).2 rest
  end.
End run.

(** ** Abstract specification

    The state is the history of accepted numbers: a number is accepted when
    it is new and less than 64 behind the greatest one. *)

Definition greatest (h : list U64) : U64 := foldr Z.max 0 h.

Definition spec_accept (s : U64) (h : list U64) : bool * list U64 :=
  if bool_decide (h = []) || ((greatest h <? s + 64) && bool_decide (s ∉ h))
  then (true, s :: h) else (false, h).

Definition spec_reliable_accept (s : U64) (h : list U64) : bool * list U64 :=
  if s =? 0 then (false, h) else spec_accept s h.

Lemma greatest_ge h x : x ∈ h → x <= greatest h.
Proof. induction 1; simpl; lia. Qed.

Lemma greatest_in h : h ≠ [] → Forall is_u64 h → greatest h ∈ h.
Proof.
  induction h as [|x h IH]; [done|]. intros _ [Hx Hh]%Forall_cons.
  destruct h as [|y h]; [simpl; rewrite Z.max_l by ulia; set_solver|].
  specialize (IH ltac:(done) Hh). change (greatest (x :: y :: h)) with
    (Z.max x (greatest (y :: h))).
  destruct (Z.max_spec x (greatest (y :: h))) as [[_ ->]|[_ ->]]; set_solver.
Qed.

Lemma greatest_nonneg h : 0 <= greatest h.
Proof. induction h; simpl; lia. Qed.

Lemma greatest_cons s h : greatest (s :: h) = Z.max s (greatest h).
Proof. done. Qed.

(** The bitmap is the history seen through a 64-wide window. *)
Record window_rel (w : Window) (h : list U64) : Prop := {
  wr_init : win_initialized w = bool_decide (h ≠ []);
  wr_hist : Forall is_u64 h;
  wr_latest : h ≠ [] → win_latest w = greatest h;
  wr_seen : is_u64 (win_seen w);
  wr_bits : h ≠ [] → ∀ i, 0 <= i < 64 →
    Z.testbit (win_seen w) i = bool_decide (greatest h - i ∈ h);
}.

Lemma window_rel_fresh : window_rel fresh_window [].
Proof. by split. Qed.

Lemma mask_testbit d i : 0 <= d < 64 → 0 <= i → Z.testbit (w64 (Z.shiftl 1 d)) i = (d =? i).
Proof.
  intros Hd Hi. rewrite w64_testbit, Z.shiftl_1_l, Z.pow2_bits_eqb by lia. lia.
Qed.

Lemma land_mask_zero x d :
  0 <= d < 64 → (Z.land x (w64 (Z.shiftl 1 d)) =? 0) = negb (Z.testbit x d).
Proof.
  intros Hd. destruct (Z.testbit x d) eqn:Hb; simpl.
  - apply Z.eqb_neq. intros Hz. apply (f_equal (λ z, Z.testbit z d)) in Hz.
    rewrite Z.land_spec, mask_testbit, Hb, Z.eqb_refl, Z.bits_0 in Hz by lia. done.
  - apply Z.eqb_eq, Z.bits_inj'. intros i Hi.
    rewrite Z.land_spec, mask_testbit, Z.bits_0 by lia.
    destruct (Z.eqb_spec d i) as [<-|]; [by rewrite Hb|apply andb_false_r].
Qed.

Lemma is_u64_lor a b : is_u64 a → is_u64 b → is_u64 (Z.lor a b).
Proof.
  intros Ha Hb. assert (Z.lor a b = w64 (Z.lor a b)) as ->; [|apply w64_range].
  apply Z.bits_inj'. intros i Hi. rewrite w64_testbit, Z.lor_spec by lia.
  destruct (Z.ltb_spec i 64); [done|]. by rewrite !u64_testbit_high by lia || done.
Qed.

(** Moving to a newer number. *)
Lemma window_rel_advance w h s :
  window_rel w h → h ≠ [] → is_u64 s → greatest h < s →
  window_rel (mkWindow true s
    (Z.lor (if 64 <=? s - greatest h then 0
            else w64 (Z.shiftl (win_seen w) (s - greatest h))) 1)) (s :: h).
Proof.
  intros [Hi Hh Hl Hs Hb] Hne Hu Hlt. split; cbn [win_initialized win_latest win_seen].
  - done.
  - by constructor.
  - intros _. rewrite greatest_cons. lia.
  - apply is_u64_lor; [|ulia]. case_match; [ulia|apply w64_range].
  - intros _ i Hi64. rewrite greatest_cons, Z.max_l, Z.lor_spec by lia.
    assert (Z.testbit 1 i = (0 =? i)) as -> by (apply (Z.pow2_bits_eqb 0); lia).
    set (d := s - greatest h).
    assert (Z.testbit (if 64 <=? d then 0 else w64 (Z.shiftl (win_seen w) d)) i =
            (d <=? i) && bool_decide (s - i ∈ h)) as ->.
    { destruct (Z.leb_spec 64 d).
      - rewrite Z.bits_0. by replace (d <=? i) with false by lia.
      - rewrite w64_testbit, Z.shiftl_spec by lia. replace (i <? 64) with true by lia.
        destruct (Z.leb_spec d i); simpl.
        + rewrite Hb by (done || lia). by replace (greatest h - (i - d)) with (s - i) by lia.
        + by apply Z.testbit_neg_r; lia. }
    destruct (Z.eqb_spec 0 i) as [<-|].
    + rewrite orb_true_r, Z.sub_0_r. symmetry. apply bool_decide_eq_true_2. set_solver.
    + rewrite orb_false_r. destruct (Z.leb_spec d i); simpl.
      * apply bool_decide_ext. rewrite elem_of_cons. split; [auto|intros [|]; [lia|done]].
      * symmetry. apply bool_decide_eq_false_2. rewrite elem_of_cons.
        intros [|Hin%greatest_ge]; lia.
Qed.

(** Marking an older number. *)
Lemma window_rel_mark w h s (h' : list U64) :
  window_rel w h → h ≠ [] → is_u64 s → s <= greatest h → greatest h - s < 64 →
  h' = (if bool_decide (s ∈ h) then h else s :: h) →
  window_rel (mkWindow (win_initialized w) (win_latest w)
    (Z.lor (win_seen w) (w64 (Z.shiftl 1 (greatest h - s))))) h'.
Proof.
  intros [Hi Hh Hl Hs Hb] Hne Hu Hle Hd ->.
  set (h' := if bool_decide (s ∈ h) then h else s :: h).
  assert (∀ x, x ∈ h' ↔ x = s ∨ x ∈ h) as Hin.
  { intros x. unfold h'. destruct (bool_decide_reflect (s ∈ h)); rewrite ?elem_of_cons; naive_solver. }
  assert (h' ≠ []) as Hne' by (subst h'; by destruct (bool_decide_reflect (s ∈ h))).
  assert (greatest h' = greatest h) as Hg.
  { subst h'. destruct (bool_decide_reflect (s ∈ h)); [done|]. rewrite greatest_cons. lia. }
  split; cbn [win_initialized win_latest win_seen].
  - rewrite Hi. by rewrite !bool_decide_eq_true_2.
  - apply Forall_forall. rewrite Forall_forall in Hh. intros x [->|]%Hin; auto.
  - intros _. rewrite Hg. auto.
  - apply is_u64_lor; [done|apply w64_range].
  - intros _ i Hi64. rewrite Z.lor_spec, mask_testbit, Hb, Hg by (done || lia).
    rewrite (bool_decide_ext (greatest h - i ∈ h') _ (Hin _)), bool_decide_or, orb_comm.
    f_equal. symmetry. destruct (Z.eqb_spec (greatest h - s) i).
    + apply bool_decide_eq_true_2. lia.
    + apply bool_decide_eq_false_2. lia.
Qed.

(** One step of the bitmap is one step of the specification. *)
Lemma replay_accept_refines w h s :
  window_rel w h → is_u64 s →
  (ReplayWindow.accept s w).1 = (spec_accept s h).1 ∧
  window_rel (ReplayWindow.accept s w).2 (spec_accept s h).2.
Proof.
  intros HR Hu. pose proof HR as [Hi Hh Hl Hs Hb].
  unfold ReplayWindow.accept, spec_accept. rewrite Hi.
  destruct (decide (h = [])) as [->|Hne].
  { change (bool_decide (@nil U64 ≠ [])) with false.
    change (bool_decide (@nil U64 = [])) with true. simpl.
    split; [done|]. split; simpl; [done|by apply Forall_singleton|ulia|ulia|].
    intros _ i Hi'. replace (s `max` 0) with s by ulia.
    change 1 with (2 ^ 0). rewrite (Z.pow2_bits_eqb 0 i) by lia.
    destruct (Z.eqb_spec 0 i); symmetry;
      [apply bool_decide_eq_true_2|apply bool_decide_eq_false_2];
      rewrite list_elem_of_singleton; lia. }
  rewrite (bool_decide_eq_true_2 (h ≠ [])), (bool_decide_eq_false_2 (h = [])) by done.
  cbn [negb orb andb]. specialize (Hl Hne). rewrite Hl.
  destruct (Z.ltb_spec (greatest h) s).
  - assert (s ∉ h) by (intros ?%greatest_ge; lia).
    rewrite (proj2 (Z.ltb_lt (greatest h) (s + 64))), bool_decide_eq_true_2 by (done || lia).
    split; [done|]. by apply window_rel_advance.
  - destruct (Z.leb_spec 64 (greatest h - s)).
    { by replace (greatest h <? s + 64) with false by lia. }
    replace (greatest h <? s + 64) with true by lia. cbv zeta.
    rewrite land_mask_zero, negb_involutive, Hb by (done || lia).
    replace (greatest h - (greatest h - s)) with s by lia. rewrite <- Hl.
    assert (window_rel (mkWindow (win_initialized w) (win_latest w)
      (Z.lor (win_seen w) (w64 (Z.shiftl 1 (greatest h - s)))))
      (if bool_decide (s ∈ h) then h else s :: h)) as HR'
      by (apply (window_rel_mark w h s); done || lia).
    rewrite bool_decide_not. rewrite Hi, bool_decide_eq_true_2 in HR' by done.
    rewrite Hl at 2. destruct (bool_decide (s ∈ h)); simpl; by rewrite Hl in *.
Qed.

(** The reliable filter is the replay filter behind a guard on the id 0. *)
Lemma reliable_accept_replay s w :
  ReliableReceiveWindow.accept s w =
    if s =? 0 then (false, w) else ReplayWindow.accept s w.
Proof. done. Qed.

Lemma reliable_accept_refines w h s :
  window_rel w h → is_u64 s →
  (ReliableReceiveWindow.accept s w).1 = (spec_reliable_accept s h).1 ∧
  window_rel (ReliableReceiveWindow.accept s w).2 (spec_reliable_accept s h).2.
Proof.
  intros HR Hu. rewrite reliable_accept_replay. unfold spec_reliable_accept.
  destruct (s =? 0); [done|]. by apply replay_accept_refines.
Qed.

(** Lifting a step simulation to runs. *)
Lemma accepted_refines {W V} (f : U64 → W → bool * W) (g : U64 → V → bool * V)
    (R : W → V → Prop) arrivals w v :
  (∀ s w v, is_u64 s → R w v → (f s w).1 = (g s v).1 ∧ R (f s w).2 (g s v).2) →
  Forall is_u64 arrivals → R w v →
  accepted f w arrivals = accepted g v arrivals ∧ R (after f w arrivals) (after g v arrivals).
Proof.
  intros Hstep Hok. revert w v. induction Hok as [|s rest Hs _ IH]; intros w v HR; [done|].
  simpl. destruct (Hstep s w v Hs HR) as [Heq HR'].
  destruct (f s w) as [b w'], (g s v) as [b' v']. simpl in *. subst b'.
  destruct (IH w' v' HR') as [-> ?]. by destruct b.
Qed.

(** ** Consequences for a whole session *)

Lemma spec_accept_cases s h :
  (spec_accept s h = (true, s :: h) ∧ (s ∉ h) ∧ (h = [] ∨ greatest h < s + 64)) ∨
  (spec_accept s h = (false, h) ∧ h ≠ [] ∧ (s ∈ h ∨ s + 64 <= greatest h)).
Proof.
  unfold spec_accept. destruct (bool_decide_reflect (h = [])) as [->|Hne]; simpl.
  { left. split_and!; [done|set_solver|auto]. }
  destruct (bool_decide_reflect (s ∉ h)) as [Hs|Hs%dec_stable],
    (Z.ltb_spec (greatest h) (s + 64)); simpl; auto 10.
Qed.

Lemma spec_accepted_fresh h arrivals :
  NoDup (accepted spec_accept h arrivals) ∧
  ∀ x, x ∈ accepted spec_accept h arrivals → x ∉ h.
Proof.
  revert h. induction arrivals as [|s rest IH]; intros h; simpl.
  { split; [constructor|set_solver]. }
  destruct (spec_accept_cases s h) as [(-> & Hs & _)|(-> & _)]; [|apply IH].
  destruct (IH (s :: h)) as [Hnd Hdis]. split.
  - constructor; [|done]. intros Hin. apply Hdis in Hin. set_solver.
  - intros x [->|Hx]%elem_of_cons; [done|]. apply Hdis in Hx. set_solver.
Qed.

(** No number arrives after one that is 64 or more greater. *)
Fixpoint reordered_within (prior : list U64) (arrivals : list U64) : bool :=
  match arrivals with
  | [] => true
  | s :: rest =>
      forallb (λ x, x <? s + 64) prior && reordered_within (s :: prior) rest
  end.

Lemma greatest_lt h b : 0 < b → (∀ x, x ∈ h → x < b) → greatest h < b.
Proof.
  intros Hb. induction h as [|y h IH]; intros Hx; simpl; [lia|].
  pose proof (Hx y ltac:(set_solver)). pose proof (IH ltac:(set_solver)). lia.
Qed.

Lemma spec_accepts_all prior h arrivals :
  (∀ x, x ∈ h ↔ x ∈ prior) → Forall is_u64 arrivals → reordered_within prior arrivals = true →
  ∀ x, x ∈ arrivals → x ∈ h ∨ x ∈ accepted spec_accept h arrivals.
Proof.
  intros Heq Hok. revert prior h Heq.
  induction Hok as [|s rest Hs _ IH]; intros prior h Heq Hr x Hx; simpl in *; [set_solver|].
  apply andb_true_iff in Hr as [Hp Hr]. rewrite forallb_forall in Hp.
  assert (greatest h < s + 64) as Hg.
  { apply greatest_lt; [ulia|]. intros y Hy%Heq%list_elem_of_In%Hp. lia. }
  destruct (spec_accept_cases s h) as [(-> & Hn & _)|(-> & _ & [Hin|])]; [| |lia].
  - apply elem_of_cons in Hx as [->|Hx]; [set_solver|].
    destruct (IH (s :: prior) (s :: h)) with (x := x); set_solver.
  - apply elem_of_cons in Hx as [->|Hx]; [auto|].
    apply (IH (s :: prior) h); [set_solver|done..].
Qed.

Lemma accepted_sublist {W} (acc : U64 → W → bool * W) w l : accepted acc w l `sublist_of` l.
Proof.
  revert w. induction l as [|s l IH]; intros w; simpl; [done|].
  destruct (acc s w) as [[|] w']; constructor; apply IH.
Qed.

Lemma spec_reliable_accepted h arrivals :
  accepted spec_reliable_accept h arrivals =
    accepted spec_accept h (filter (λ s, s ≠ 0) arrivals).
Proof.
  revert h. induction arrivals as [|s rest IH]; intros h; [done|]. cbn [accepted].
  unfold spec_reliable_accept at 1. destruct (Z.eqb_spec s 0) as [->|Hs].
  - rewrite filter_cons_False by auto. apply IH.
  - rewrite filter_cons_True by done. cbn [accepted].
    destruct (spec_accept s h) as [[|] h']; by rewrite IH.
Qed.

Lemma spec_reliable_after h arrivals :
  after spec_reliable_accept h arrivals =
    reverse (accepted spec_reliable_accept h arrivals) ++ h.
Proof.
  revert h. induction arrivals as [|s rest IH]; intros h; [done|]. simpl.
  unfold spec_reliable_accept at 2 3. destruct (Z.eqb_spec s 0); [apply IH|].
  destruct (spec_accept_cases s h) as [(-> & _)|(-> & _)]; simpl; [|apply IH].
  by rewrite IH, reverse_cons, <- app_assoc.
Qed.

#[global] Instance greatest_proper : Proper ((≡ₚ) ==> eq) greatest.
Proof. intros l k H. induction H; simpl; lia. Qed.

(** C28: the packet replay filter is the set specification.  For every
    sequence of arrivals, [ReplayWindow::accept] lets through exactly the
    packets that are new and less than 64 behind the greatest sequence number
    accepted so far. *)
Theorem replay_window_refines arrivals :
  Forall is_u64 arrivals →
  accepted ReplayWindow.accept fresh_window arrivals = accepted spec_accept [] arrivals.
Proof.
  intros Hok. apply (accepted_refines _ _ window_rel); [|done|apply window_rel_fresh].
  intros. by apply replay_accept_refines.
Qed.

Definition sample_arrivals : list U64 := [10; 9; 10; 80; 12; 79; 17; 16; 79].

Lemma replay_window_refines_witness :
  accepted ReplayWindow.accept fresh_window sample_arrivals = [10; 9; 80; 79; 17] ∧
  accepted ReplayWindow.accept fresh_window sample_arrivals =
    accepted spec_accept [] sample_arrivals.
Proof.
  split; [reflexivity|]. apply replay_window_refines.
  apply (bool_decide_unpack _). vm_compute. exact I.
Defined.

(** No replayed packet is ever accepted, and no packet is lost to the
    filter while the network reorders by less than 64: each sequence number
    that arrives is then accepted exactly once. *)
Theorem replay_window_exactly_once arrivals :
  Forall is_u64 arrivals →
  NoDup (accepted ReplayWindow.accept fresh_window arrivals) ∧
  (reordered_within [] arrivals = true →
   ∀ x, x ∈ arrivals → x ∈ accepted ReplayWindow.accept fresh_window arrivals).
Proof.
  intros Hok.
  destruct (accepted_refines _ _ window_rel arrivals fresh_window []
    (λ s w v Hs HR, replay_accept_refines w v s HR Hs) Hok window_rel_fresh) as [-> _].
  split; [apply spec_accepted_fresh|]. intros Hr x Hx.
  destruct (spec_accepts_all [] [] arrivals) with (x := x) as [?|?]; set_solver.
Qed.

Lemma replay_window_exactly_once_witness :
  NoDup (accepted ReplayWindow.accept fresh_window [3; 1; 2; 1; 60]) ∧
  1 ∈ accepted ReplayWindow.accept fresh_window [3; 1; 2; 1; 60].
Proof.
  destruct (replay_window_exactly_once [3; 1; 2; 1; 60]
    ltac:(apply (bool_decide_unpack _); vm_compute; exact I)) as [H1 H2].
  split; [exact H1|]. apply H2; [reflexivity|]. apply (bool_decide_unpack _). vm_compute. exact I.
Defined.

(** What [seen] reports is the history, as far as the window reaches. *)
Lemma seen_spec w h x :
  window_rel w h → is_u64 x →
  ReliableReceiveWindow.seen x w =
    negb (x =? 0) && bool_decide (x ∈ h) && (greatest h <? x + 64).
Proof.
  intros [Hi Hh Hl Hs Hb] Hx. unfold ReliableReceiveWindow.seen. rewrite Hi.
  destruct (x =? 0); [done|]. cbn [negb andb].
  destruct (decide (h = [])) as [->|Hne]; [done|].
  rewrite (bool_decide_eq_true_2 (h ≠ [])), (Hl Hne) by done. cbn [negb orb].
  destruct (Z.ltb_spec (greatest h) x).
  { rewrite bool_decide_eq_false_2; [done|]. intros ?%greatest_ge; lia. }
  destruct (Z.leb_spec 64 (greatest h - x)).
  { replace (greatest h <? x + 64) with false by lia. by rewrite andb_false_r. }
  cbv zeta. rewrite land_mask_zero, negb_involutive, Hb by (done || lia).
  replace (greatest h <? x + 64) with true by lia. rewrite andb_true_r.
  by replace (greatest h - (greatest h - x)) with x by lia.
Qed.

Lemma spec_reliable_nonzero h arrivals : 0 ∉ accepted spec_reliable_accept h arrivals.
Proof.
  rewrite spec_reliable_accepted. intros Hin.
  eapply elem_of_submseteq in Hin; [|apply sublist_submseteq, accepted_sublist].
  by apply list_elem_of_filter in Hin as [? _].
Qed.

(** The reliable-message filter delivers each message id at most once and
    never the id 0; what it lets through is what the set specification lets
    through; and [seen] answers, for any id, whether it was accepted and is
    still less than 64 behind the newest one. *)
Theorem reliable_window_refines arrivals x :
  Forall is_u64 arrivals → is_u64 x →
  let acc := accepted ReliableReceiveWindow.accept fresh_window arrivals in
  acc = accepted spec_reliable_accept [] arrivals ∧
  NoDup acc ∧ (0 ∉ acc) ∧
  ReliableReceiveWindow.seen x (after ReliableReceiveWindow.accept fresh_window arrivals) =
    bool_decide (x ∈ acc) && (greatest acc <? x + 64).
Proof.
  intros Hok Hx acc.
  destruct (accepted_refines _ _ window_rel arrivals fresh_window []
    (λ s w v Hs HR, reliable_accept_refines w v s HR Hs) Hok window_rel_fresh) as [Heq HR].
  subst acc. rewrite Heq. split_and!; [done| | |].
  - rewrite spec_reliable_accepted. apply spec_accepted_fresh.
  - apply spec_reliable_nonzero.
  - rewrite (seen_spec _ _ _ HR Hx), spec_reliable_after, app_nil_r.
    rewrite (bool_decide_ext _ _ (elem_of_reverse _ _)).
    rewrite (greatest_proper _ _ (reverse_Permutation _)).
    destruct (Z.eqb_spec x 0) as [->|]; [|done].
    by rewrite (bool_decide_eq_false_2 _ (spec_reliable_nonzero _ _)).
Qed.

Lemma reliable_window_refines_witness :
  let acc := accepted ReliableReceiveWindow.accept fresh_window sample_arrivals in
  acc = accepted spec_reliable_accept [] sample_arrivals ∧
  NoDup acc ∧ (0 ∉ acc) ∧
  ReliableReceiveWindow.seen 17
    (after ReliableReceiveWindow.accept fresh_window sample_arrivals) =
    bool_decide (17 ∈ acc) && (greatest acc <? 17 + 64).
Proof.
  apply (reliable_window_refines sample_arrivals 17);
    apply (bool_decide_unpack _); vm_compute; exact I.
Defined.

(** The width of the reliable window is a limit on delivery.  After the
    65 messages [2..66] have been accepted, message 1 arriving for the first
    time is refused although it was never seen, so a sender with 66 or more
    messages in flight can have one acknowledged and dropped. *)
Theorem reliable_window_drops_unseen :
  let w := after ReliableReceiveWindow.accept fresh_window (Z.of_nat <$> seq 2 65) in
  accepted ReliableReceiveWindow.accept fresh_window (Z.of_nat <$> seq 2 65)
    = (Z.of_nat <$> seq 2 65) ∧
  ReliableReceiveWindow.seen 1 w = false ∧ ReliableReceiveWindow.accept 1 w = (false, w).
Proof. by vm_compute. Qed.

(** ** The sequenced window *)

(** The specification keeps the greatest number so far. *)
Definition spec_sequenced (s : U64) (m : U64) : bool * U64 :=
  if m <? s then (true, s) else (false, m).

Definition sequenced_rel (w : SequencedReceiveWindow) (m : U64) : Prop :=
  sw_initialized w = (0 <? m) ∧ sw_latest w = m ∧ 0 <= m.

Lemma sequenced_accept_refines s w m :
  is_u64 s → sequenced_rel w m →
  (Sequenced.accept s w).1 = (spec_sequenced s m).1 ∧
  sequenced_rel (Sequenced.accept s w).2 (spec_sequenced s m).2.
Proof.
  intros Hs (Hi & <- & Hm). unfold Sequenced.accept, spec_sequenced, sequenced_rel in *.
  rewrite Hi. widths.
  destruct (Z.eqb_spec s 0), (Z.ltb_spec 0 (sw_latest w)), (Z.leb_spec s (sw_latest w)),
    (Z.ltb_spec (sw_latest w) s); simpl; try lia; rewrite ?Hi; split_and!; try done; lia.
Qed.

Lemma spec_sequenced_sorted m arrivals :
  StronglySorted Z.lt (accepted spec_sequenced m arrivals) ∧
  Forall (λ s, m < s) (accepted spec_sequenced m arrivals) ∧
  Z.max m (greatest (accepted spec_sequenced m arrivals)) = Z.max m (greatest arrivals).
Proof.
  revert m. induction arrivals as [|s rest IH]; intros m; simpl.
  { split_and!; [constructor|constructor|done]. }
  assert (spec_sequenced s m = if m <? s then (true, s) else (false, m)) as -> by done.
  destruct (Z.ltb_spec m s); simpl.
  - destruct (IH s) as (H1 & H2 & H3). split_and!.
    + by constructor.
    + constructor; [done|]. eapply Forall_impl; [exact H2|]. simpl. lia.
    + lia.
  - destruct (IH m) as (H1 & H2 & H3). split_and!; [done..|]. lia.
Qed.

(** The sequenced channel never goes back and never misses the newest
    message: the delivered sequence numbers are positive and strictly
    increasing, the greatest one that arrived is among them, and a number is
    delivered exactly when it exceeds every number delivered before it. *)
Theorem sequenced_window_monotone arrivals :
  Forall is_u64 arrivals →
  let acc := accepted Sequenced.accept fresh_sequenced arrivals in
  StronglySorted Z.lt acc ∧ Forall (λ s, 0 < s) acc ∧ greatest acc = greatest arrivals ∧
  acc = accepted spec_sequenced 0 arrivals.
Proof.
  intros Hok acc.
  assert (acc = accepted spec_sequenced 0 arrivals) as Heq.
  { apply (accepted_refines _ _ sequenced_rel); [apply sequenced_accept_refines|done|done]. }
  rewrite Heq. destruct (spec_sequenced_sorted 0 arrivals) as (H1 & H2 & H3).
  split_and!; try done. rewrite !Z.max_r in H3; [done|..]; apply greatest_nonneg.
Qed.

Lemma sequenced_window_monotone_witness :
  let acc := accepted Sequenced.accept fresh_sequenced sample_arrivals in
  StronglySorted Z.lt acc ∧ Forall (λ s, 0 < s) acc ∧ greatest acc = greatest sample_arrivals ∧
  acc = accepted spec_sequenced 0 sample_arrivals.
Proof.
  apply (sequenced_window_monotone sample_arrivals).
  apply (bool_decide_unpack _); vm_compute; exact I.
Defined.
