(* ===== verification/Payloads.v ===== *)
(** * Delivery envelopes and acknowledgements

    The first half of [src/securecnet/include/securecnet/reliability.hpp]: the
    8-byte identifier in front of reliable, ordered and sequenced payloads and
    the acknowledgement control message. *)
From S2P Require Import Prelude Result ByteBuf Config Message.
#[local] Open Scope Z_scope.

Module ControlType.
Definition ReliableAck : U8 := 1.
Definition Fragment : U8 := 2.
End ControlType.

(** [ReliablePayloadView], [OrderedPayloadView], [SequencedPayloadView]: the
    identifier is [message_id] in the first and [delivery_sequence] in the
    others. *)
Record PayloadView := mkPayloadView {
  pl_id : U64;
  pl_data : ptr;
  pl_len : U16;
}.

(** [ReliablePayloadView::bytes]. *)
Definition payload_bytes (v : PayloadView) : list U8 :=
  match pl_data v with
  | None => []
  | Some bs => if pl_len v =? 0 then [] else take (Z.to_nat (pl_len v)) bs
  end.

(** The body the three writers share; they differ in the limit and in the
    text of the errors. *)
Definition write_envelope (max : ST) (zero_msg large_msg null_msg : string)
    (id : U64) (data : ptr) (len : U16) : io ByteWriter unit :=
  if id =? 0 then fail Errc.InvalidArg zero_msg
  else if w16 max <? len then fail Errc.InvalidArg large_msg
  else if (0 <? len) && bool_decide (data = None) then fail Errc.InvalidArg null_msg
  else
    write_u64 id;;
    (if 0 <? len then write_bytes data len else mret tt).

Definition read_envelope (short_msg zero_msg large_msg : string) : io ByteReader PayloadView :=
  r ← get;
  if r_remaining r <? 8 then fail Errc.BadPacket short_msg
  else
    id ← read_u64;
    if id =? 0 then fail Errc.BadPacket zero_msg
    else
      r ← get;
      let remaining := r_remaining r in
      if U16_MAX <? remaining then fail Errc.BadPacket large_msg
      else
        let view := mkPayloadView id (if remaining =? 0 then None else peek_ptr remaining r)
                      (w16 remaining) in
        skip_r remaining;;
        mret view.

Definition write_reliable_payload : U64 → ptr → U16 → io ByteWriter unit :=
  write_envelope NetConfig.MaxReliableMessageBytes "reliable message id must be non-zero"
    "reliable message too large" "reliable data is null".
Definition read_reliable_payload : io ByteReader PayloadView :=
  read_envelope "reliable payload truncated" "reliable message id is invalid"
    "reliable payload too large".

Definition write_ordered_payload : U64 → ptr → U16 → io ByteWriter unit :=
  write_envelope NetConfig.MaxOrderedMessageBytes "ordered sequence must be non-zero"
    "ordered message too large" "ordered data is null".
Definition read_ordered_payload : io ByteReader PayloadView :=
  read_envelope "ordered payload truncated" "ordered payload has invalid sequence"
    "ordered payload too large".

Definition write_sequenced_payload : U64 → ptr → U16 → io ByteWriter unit :=
  write_envelope NetConfig.MaxSequencedMessageBytes
    "sequenced delivery sequence must be non-zero"
    "sequenced message too large" "sequenced data is null".
Definition read_sequenced_payload : io ByteReader PayloadView :=
  read_envelope "sequenced payload truncated" "sequenced payload has invalid sequence"
    "sequenced payload too large".

(** ** Acknowledgements *)

Definition write_reliable_ack (channel : Channel) (message_id : U64) : io ByteWriter unit :=
  if negb (channel_is_reliable channel)
  then fail Errc.InvalidArg "ack channel must be reliable"
  else if message_id =? 0
  then fail Errc.InvalidArg "ack message id must be non-zero"
  else
    write_u8 (channel_value channel);;
    write_u64 message_id.

Definition read_reliable_ack : io ByteReader (Channel * U64) :=
  raw ← read_u8;
  if negb (raw =? channel_value Channel.Reliable) &&
     negb (raw =? channel_value Channel.ReliableOrdered)
  then fail Errc.BadPacket "ack channel is invalid"
  else
    id ← read_u64;
    if id =? 0 then fail Errc.BadPacket "ack message id is invalid"
    else
      expect_end "extra bytes in reliable ack";;
      mret (channel_of raw, id).

(** The overloads without a channel. *)
Definition write_legacy_ack (message_id : U64) : io ByteWriter unit :=
  write_reliable_ack Channel.Reliable message_id.

Definition read_legacy_ack : io ByteReader U64 :=
  ack ← read_reliable_ack;
  if negb (bool_decide (ack.1 = Channel.Reliable))
  then fail Errc.BadPacket "legacy ack reader expected reliable channel"
  else mret ack.2.

(** ** Specification *)

Definition payload_view (id : U64) (bs : list U8) : PayloadView :=
  mkPayloadView id (data_of bs) (zlen bs).

Definition enc_payload (id : U64) (bs : list U8) : list U8 := be 8 id ++ bs.

Lemma payload_view_bytes id bs : payload_bytes (payload_view id bs) = bs.
Proof. exact (data_of_bytes Channel.Unreliable 0 bs). Qed.

Lemma data_of_null_guard bs : (0 <? zlen bs) && bool_decide (data_of bs = None) = false.
Proof.
  unfold data_of. case_decide; subst; [done|]. rewrite bool_decide_eq_false_2 by done.
  apply andb_false_r.
Qed.

(** Viewing and skipping everything that is left. *)
Lemma peek_data_all bs pre :
  (if zlen bs =? 0 then None else peek_ptr (zlen bs) (reader_at pre bs)) = data_of bs.
Proof.
  pose proof (peek_data_of bs pre [] (zlen bs) eq_refl) as H. by rewrite app_nil_r in H.
Qed.

Lemma skip_all bs pre :
  skip_r (zlen bs) (reader_at pre bs) = (Done tt, reader_at (pre ++ bs) []).
Proof.
  pose proof (skip_r_app bs pre [] (zlen bs) eq_refl) as H. by rewrite app_nil_r in H.
Qed.

Lemma r_remaining_nonneg r : reader_wf r → 0 <= r_remaining r.
Proof. intros [? _]. unfold r_remaining. case_match; lia. Qed.

Section envelope.
Context (max : ST) (m1 m2 m3 : string).

Lemma write_envelope_at id bs out rest :
  is_u64 id → id ≠ 0 → zlen bs <= w16 max → (8 + length bs <= length rest)%nat →
  write_envelope max m1 m2 m3 id (data_of bs) (zlen bs) (writer_at out rest) =
    (Done tt, writer_at (out ++ enc_payload id bs) (drop (8 + length bs) rest)).
Proof.
  intros Hid H0 Hmax Hlen. unfold write_envelope.
  rewrite (proj2 (Z.eqb_neq _ _) H0), (proj2 (Z.ltb_ge _ _) Hmax), data_of_null_guard.
  wput. rewrite write_data_at; [|done|wire_side].
  unfold enc_payload. by rewrite <- app_assoc, drop_drop, length_be.
Qed.

Lemma write_envelope_large id data len w :
  id ≠ 0 → w16 max < len →
  write_envelope max m1 m2 m3 id data len w = fail Errc.InvalidArg m2 w.
Proof.
  intros H0 Hlen. unfold write_envelope.
  by rewrite (proj2 (Z.eqb_neq _ _) H0), (proj2 (Z.ltb_lt _ _) Hlen).
Qed.

Lemma read_envelope_all id bs pre :
  is_u64 id → id ≠ 0 → zlen bs <= U16_MAX →
  read_envelope m1 m2 m3 (reader_at pre (enc_payload id bs)) =
    (Done (payload_view id bs), reader_at (pre ++ enc_payload id bs) []).
Proof.
  intros Hid H0 Hlen. unfold read_envelope, enc_payload.
  erewrite bind_done by reflexivity. rewrite r_remaining_at, length_app, length_be.
  rewrite (proj2 (Z.ltb_ge _ _)) by lia. branch. wget.
  rewrite (proj2 (Z.eqb_neq _ _) H0). erewrite bind_done by reflexivity.
  rewrite r_remaining_at, (proj2 (Z.ltb_ge _ _) Hlen). cbv zeta.
  rewrite peek_data_all. erewrite bind_done by apply skip_all.
  unfold payload_view. rewrite w16_id by ulia. by rewrite <- app_assoc.
Qed.

Lemma read_envelope_inv pre rest v r' :
  bytes_ok rest → read_envelope m1 m2 m3 (reader_at pre rest) = (Done v, r') →
  ∃ bs, v = payload_view (pl_id v) bs ∧ is_u64 (pl_id v) ∧ pl_id v ≠ 0 ∧
    zlen bs <= U16_MAX ∧ bytes_ok bs ∧ rest = enc_payload (pl_id v) bs.
Proof.
  intros Hok H. unfold read_envelope in H. erewrite bind_done in H by reflexivity.
  case_match; [done|]. wcanon H Hok. destruct (Z.eqb_spec a 0); [done|].
  erewrite bind_done in H by reflexivity. rewrite r_remaining_at in H. cbv zeta in H.
  destruct (Z.ltb_spec U16_MAX (zlen x)); [done|].
  rewrite peek_data_all in H. erewrite bind_done in H by apply skip_all.
  unfold mret, io_ret in H. simplify_eq H. intros <- <-.
  exists x. unfold payload_view. simpl. rewrite w16_id by ulia. by split_and!.
Qed.

#[global] Instance read_envelope_safe : ReaderSafe (read_envelope m1 m2 m3).
Proof.
  unfold read_envelope. apply reader_safe_get. intros r0. apply reader_safe_if; [apply _|].
  apply reader_safe_bind; [apply _|]. intros id. apply reader_safe_if; [apply _|].
  intros r Hr. erewrite bind_done by reflexivity. cbv zeta. case_match; [by split|].
  pose proof (skip_r_safe _ (r_remaining_nonneg r Hr)).
  by apply (reader_safe_bind (skip_r (r_remaining r))); [|apply _|].
Qed.
End envelope.

Definition enc_ack (ack : Channel * U64) : list U8 := be 1 (channel_value ack.1) ++ be 8 ack.2.
Definition ack_valid (ack : Channel * U64) : Prop :=
  channel_is_reliable ack.1 = true ∧ is_u64 ack.2 ∧ ack.2 ≠ 0.

#[global] Instance frame_ack :
  WireFrame (λ ack, write_reliable_ack ack.1 ack.2) read_reliable_ack enc_ack ack_valid.
Proof.
  split.
  - intros [ch id] out rest (Hch & Hid & H0) Hlen. unfold write_reliable_ack, enc_ack in *.
    cbn [fst snd] in *. rewrite length_app, !length_be in *. rewrite Hch. cbn [negb].
    rewrite (proj2 (Z.eqb_neq _ _) H0). wput; [|auto with scn].
    rewrite (wire_put (wr:=write_u64)); [|done|wire_side].
    by rewrite <- app_assoc, drop_drop, !length_be.
  - intros [ch id] pre (Hch & Hid & H0). unfold read_reliable_ack, enc_ack. cbn [fst snd] in *.
    wget; [|auto with scn].
    assert (negb (channel_value ch =? channel_value Channel.Reliable) &&
            negb (channel_value ch =? channel_value Channel.ReliableOrdered) = false) as ->
      by (by destruct ch).
    rewrite <- (app_nil_r (be 8 id)). wget. rewrite (proj2 (Z.eqb_neq _ _) H0).
    erewrite bind_done by apply expect_end_at.
    by rewrite channel_of_value, <- app_assoc, app_nil_r.
  - intros [ch id] pre rest r' Hok H. unfold read_reliable_ack in H. wcanon H Hok.
    destruct (negb (a =? channel_value Channel.Reliable) &&
              negb (a =? channel_value Channel.ReliableOrdered)) eqn:Hc; [done|].
    wcanon H Hok. destruct (Z.eqb_spec a0 0); [done|].
    inv_done H. apply expect_end_inv in Hm as [-> ->].
    unfold mret, io_ret in H. simplify_eq H. intros <- <- <-.
    assert (a = channel_value Channel.Reliable ∨ a = channel_value Channel.ReliableOrdered)
      as Ha by lia.
    unfold enc_ack, ack_valid. cbn [fst snd]. rewrite app_nil_r.
    destruct Ha as [-> | ->]; by rewrite channel_of_value.
Qed.

#[global] Instance read_reliable_ack_safe : ReaderSafe read_reliable_ack.
Proof. unfold read_reliable_ack. apply _. Qed.

(** The three delivery envelopes survive the wire: a payload written with
    its identifier is read back, from exactly those bytes, as the same
    identifier and the same payload. *)
Theorem payload_roundtrip id bs room :
  is_u64 id → id ≠ 0 → (8 + length bs <= length room)%nat →
  (zlen bs <= NetConfig.MaxReliableMessageBytes →
   ∃ w r, write_reliable_payload id (data_of bs) (zlen bs) (writer_at [] room) = (Done tt, w) ∧
     read_reliable_payload (reader_at [] (written w)) = (Done (payload_view id bs), r)) ∧
  (zlen bs <= NetConfig.MaxOrderedMessageBytes →
   ∃ w r, write_ordered_payload id (data_of bs) (zlen bs) (writer_at [] room) = (Done tt, w) ∧
     read_ordered_payload (reader_at [] (written w)) = (Done (payload_view id bs), r)) ∧
  (zlen bs <= NetConfig.MaxSequencedMessageBytes →
   ∃ w r, write_sequenced_payload id (data_of bs) (zlen bs) (writer_at [] room) = (Done tt, w) ∧
     read_sequenced_payload (reader_at [] (written w)) = (Done (payload_view id bs), r)) ∧
  payload_bytes (payload_view id bs) = bs.
Proof.
  intros Hid H0 Hroom.
  split_and!; [..|apply payload_view_bytes]; intros Hlen;
    (do 2 eexists; split;
      [by apply write_envelope_at|rewrite written_at; apply read_envelope_all; try done];
      assert (zlen bs <= 1244) by (etrans; [exact Hlen|by vm_compute]); ulia).
Qed.

Lemma payload_roundtrip_witness :
  ∃ w r, write_ordered_payload 5 (data_of [1; 2; 3]) 3 (writer_at [] (replicate 20 0))
           = (Done tt, w) ∧
     read_ordered_payload (reader_at [] (written w)) = (Done (payload_view 5 [1; 2; 3]), r).
Proof.
  apply (payload_roundtrip 5 [1; 2; 3] (replicate 20 0));
    [split; lia|lia|simpl; lia|vm_compute; discriminate].
Defined.

(** An acknowledgement survives the wire, names a reliable channel and a
    non-zero id whenever it is accepted, is accepted from one byte string only,
    and reading one never leaves its buffer. *)
Theorem ack_roundtrip ack room bs :
  ack_valid ack → (9 <= length room)%nat → bytes_ok bs →
  (∃ w, write_reliable_ack ack.1 ack.2 (writer_at [] room) = (Done tt, w) ∧
     (read_reliable_ack (reader_at [] (written w))).1 = Done ack) ∧
  (∀ ack', (read_reliable_ack (reader_at [] bs)).1 = Done ack' →
     ack_valid ack' ∧ bs = enc_ack ack') ∧
  (read_reliable_ack (reader_at [] bs)).1 ≠ UB.
Proof.
  intros Hv Hroom Hok. split_and!.
  - apply (frame_roundtrip (wr:=λ ack, write_reliable_ack ack.1 ack.2)); [done|].
    unfold enc_ack. by rewrite length_app, !length_be.
  - intros ack' H. destruct (read_reliable_ack (reader_at [] bs)) as [o r'] eqn:Hr.
    simpl in H. subst o. by eapply (frame_canon (rd:=read_reliable_ack)).
  - apply reader_safe, reader_wf_at.
Qed.

Lemma ack_roundtrip_witness :
  ∃ w, write_reliable_ack Channel.ReliableOrdered 77 (writer_at [] (replicate 9 0))
         = (Done tt, w) ∧
     (read_reliable_ack (reader_at [] (written w))).1 = Done (Channel.ReliableOrdered, 77).
Proof.
  apply (ack_roundtrip (Channel.ReliableOrdered, 77) (replicate 9 0) []).
  - split_and!; [reflexivity|split; simpl; lia|simpl; lia].
  - simpl; lia.
  - constructor.
Defined.
