(* ===== verification/Reliability.v ===== *)
(** * Reliable sending

    [class ReliableSession] of [src/securecnet/include/securecnet/reliability.hpp]:
    the queue of unacknowledged messages, the in-flight limit, the round-trip
    estimator and the retransmission timer. *)
From stdpp Require Import sorting.
From S2P Require Import Prelude Result ByteBuf Config Message Payloads Windows.
#[local] Open Scope Z_scope.

Record PendingReliableMessage := mkPending {
  p_message_id : U64;
  p_user_type : U8;
  p_encoded_payload : list U8;
  p_priority : SendPriority;
  p_lifetime_ms : U64;
  p_enqueued_ms : U64;
  p_first_send_ms : U64;
  p_last_send_ms : U64;
  p_rto_ms : U64;
  p_send_count : U32;
  p_inflight : bool;
}.

#[global] Instance PendingReliableMessage_eq_dec : EqDecision PendingReliableMessage.
Proof. solve_decision. Defined.

Record ReliableAckEvent := mkAckEvent {
  ev_removed : bool;
  ev_rtt_sample_valid : bool;
  ev_rtt_sample_ms : U64;
  ev_retransmitted : bool;
}.

Definition no_ack_event : ReliableAckEvent := mkAckEvent false false 0 false.

(** The fields of the round-trip estimator and of the loss estimator. *)
Record RttState := mkRtt {
  have_rtt : bool;
  latest_rtt_ms : U64;
  srtt_ms : U64;
  rttvar_ms : U64;
  rto_ms : U64;
}.

Record LossState := mkLoss {
  loss_events : U64;
  retransmit_events : U64;
  loss_per_mille : U64;
}.

Record ReliableSession := mkReliable {
  rs_cfg : ReliabilityConfig;
  rs_next_message_id : U64;
  rs_pending : list PendingReliableMessage;
  rs_pending_bytes : U32;
  rs_inflight_count : U32;
  rs_received : Window;
  rs_rtt : RttState;
  rs_loss : LossState;
}.

Definition new_reliable_session : ReliableSession :=
  mkReliable default_reliability 1 [] 0 0 fresh_window (mkRtt false 0 0 0 120) (mkLoss 0 0 0).

(** ** The estimators *)

Definition reset_rtt (cfg : ReliabilityConfig) : RttState :=
  mkRtt false 0 0 0 (initial_rto_ms cfg).

Definition update_rtt (cfg : ReliabilityConfig) (sample_ms : U64) (t : RttState)
    : outcome RttState :=
  let '(srtt, rttvar) :=
    if negb (have_rtt t) then (sample_ms, Z.max 1 (sample_ms / 2))
    else
      let abs_delta := if sample_ms <? srtt_ms t then srtt_ms t - sample_ms
                       else sample_ms - srtt_ms t in
      (w64 (w64 (srtt_ms t * 7) + sample_ms) / 8,
       w64 (w64 (rttvar_ms t * 3) + abs_delta) / 4) in
  let penalty := Z.max 1 (w64 (rttvar * 4)) in
  match std_clamp (w64 (srtt + penalty)) (min_rto_ms cfg) (max_rto_ms cfg) with
  | Done rto => Done (mkRtt true sample_ms srtt rttvar rto)
  | Err rc => Err rc
  | UB => UB
  end.

Definition update_loss_estimate (next_message_id : U64) (l : LossState) : LossState :=
  let denom := Z.max 1 (w64 (loss_events l + w64 (next_message_id - 1))) in
  mkLoss (loss_events l) (retransmit_events l)
    (Z.min 1000 (w64 (loss_events l * 1000) / denom)).

(** ** Operations *)

Definition configure (cfg : ReliabilityConfig) (s : ReliableSession) : ReliableSession :=
  mkReliable cfg (rs_next_message_id s) (rs_pending s) (rs_pending_bytes s)
    (rs_inflight_count s) (rs_received s) (reset_rtt cfg) (rs_loss s).

(** Insert before the first entry of a lower priority. *)
Fixpoint insert_by_priority (m : PendingReliableMessage) (q : list PendingReliableMessage)
    : list PendingReliableMessage :=
  match q with
  | [] => [m]
  | it :: rest =>
      if priority_value (p_priority it) <? priority_value (p_priority m)
      then m :: it :: rest
      else it :: insert_by_priority m rest
  end.

Definition enqueue (user_type : U8) (data : ptr) (len : U16) (priority : SendPriority)
    (lifetime now : U64) : io ReliableSession PendingReliableMessage := λ s,
  if max_pending_messages (rs_cfg s) <=? zlen (rs_pending s)
  then fail Errc.QueueFull "reliable queue full" s
  else
    let new_bytes := w32 (8 + len) in
    if max_pending_bytes (rs_cfg s) <? w32 (rs_pending_bytes s + new_bytes)
    then fail Errc.QueueFull "reliable byte budget exhausted" s
    else
      let id := rs_next_message_id s in
      (* out.message_id = _next_message_id++ *)
      let s1 := mkReliable (rs_cfg s) (w64 (id + 1)) (rs_pending s) (rs_pending_bytes s)
                  (rs_inflight_count s) (rs_received s) (rs_rtt s) (rs_loss s) in
      let writer := mkWriter (Some (replicate (Z.to_nat (8 + len)) 0)) (8 + len) 0 in
      match write_reliable_payload id data len writer with
      | (Done tt, w) =>
          let out := mkPending id user_type (default [] (dst w)) priority lifetime now
                       0 0 (rto_ms (rs_rtt s)) 0 false in
          (Done out,
           mkReliable (rs_cfg s1) (rs_next_message_id s1)
             (insert_by_priority out (rs_pending s1))
             (w32 (rs_pending_bytes s1 + new_bytes))
             (rs_inflight_count s1) (rs_received s1) (rs_rtt s1) (rs_loss s1))
      | (Err rc, _) => (Err rc, s1)
      | (UB, _) => (UB, s1)
      end.

(** The element that [acknowledge] finds and the queue without it. *)
Fixpoint extract (id : U64) (q : list PendingReliableMessage)
    : option (PendingReliableMessage * list PendingReliableMessage) :=
  match q with
  | [] => None
  | it :: rest =>
      if p_message_id it =? id then Some (it, rest)
      else match extract id rest with
           | Some (m, rest') => Some (m, it :: rest')
           | None => None
           end
  end.

(** [if (it->inflight && _inflight_count > 0) --_inflight_count] *)
Definition release_inflight (m : PendingReliableMessage) (n : U32) : U32 :=
  if p_inflight m && (0 <? n) then n - 1 else n.

Definition acknowledge (message_id now : U64) : io ReliableSession ReliableAckEvent := λ s,
  match extract message_id (rs_pending s) with
  | None => (Done no_ack_event, s)
  | Some (it, rest) =>
      let inflight := release_inflight it (rs_inflight_count s) in
      let sampled := (p_send_count it =? 1) && negb (p_first_send_ms it =? 0)
                     && (p_first_send_ms it <=? now) in
      let sample := if sampled then now - p_first_send_ms it else 0 in
      let event := mkAckEvent true sampled sample (1 <? p_send_count it) in
      let finish rtt :=
        mkReliable (rs_cfg s) (rs_next_message_id s) rest
          (w32 (rs_pending_bytes s - w32 (zlen (p_encoded_payload it))))
          inflight (rs_received s) rtt (rs_loss s) in
      if sampled then
        match update_rtt (rs_cfg s) sample (rs_rtt s) with
        | Done rtt => (Done event, finish rtt)
        | Err rc => (Err rc, s)
        | UB => (UB, s)
        end
      else (Done event, finish (rs_rtt s))
  end.

(** [pending.lifetime_ms > 0 && now_ms >= pending.enqueued_ms + pending.lifetime_ms] *)
Definition expired (now : U64) (m : PendingReliableMessage) : bool :=
  (0 <? p_lifetime_ms m) && (w64 (p_enqueued_ms m + p_lifetime_ms m) <=? now).

(** The entry after [fn] accepted it for sending. *)
Definition mark_sent (now : U64) (m : PendingReliableMessage) (inflight : bool)
    : PendingReliableMessage :=
  mkPending (p_message_id m) (p_user_type m) (p_encoded_payload m) (p_priority m)
    (p_lifetime_ms m) (p_enqueued_ms m)
    (if p_first_send_ms m =? 0 then now else p_first_send_ms m)
    now (p_rto_ms m) (w32 (p_send_count m + 1)) inflight.

(** The entry whose timer fired: out of flight, with its timer backed off. *)
Definition time_out (cfg : ReliabilityConfig) (m : PendingReliableMessage)
    : PendingReliableMessage :=
  mkPending (p_message_id m) (p_user_type m) (p_encoded_payload m) (p_priority m)
    (p_lifetime_ms m) (p_enqueued_ms m) (p_first_send_ms m) (p_last_send_ms m)
    (Z.min (max_rto_ms cfg) (Z.max (min_rto_ms cfg) (w64 (p_rto_ms m * 2))))
    (p_send_count m) false.

Definition count_loss (l : LossState) : LossState :=
  mkLoss (w64 (loss_events l + 1)) (w64 (retransmit_events l + 1)) (loss_per_mille l).

(** The loop of [resend_due].  [fn] is the caller's send callback over the
    caller's state [X]; the result is the new queue, the counters, the callback
    state, and the failing code if [fn] failed. *)
Section resend.
Context {X : Type} (cfg : ReliabilityConfig) (now : U64)
  (fn : PendingReliableMessage → X → Result * X).

Fixpoint resend_loop (q : list PendingReliableMessage) (inflight : U32) (l : LossState) (x : X)
    : list PendingReliableMessage * U32 * LossState * X * Result :=
  match q with
  | [] => ([], inflight, l, x, success)
  | m :: rest =>
      let continue m inflight l x :=
        let '(rest', inflight', l', x', rc) := resend_loop rest inflight l x in
        (m :: rest', inflight', l', x', rc) in
      if expired now m then continue m inflight l x
      else if p_inflight m &&
              ((p_last_send_ms m =? 0) || (w64 (now - p_last_send_ms m) <? p_rto_ms m))
      then continue m inflight l x
      else
        let '(m1, inflight1, l1) :=
          if p_inflight m
          then (time_out cfg m, (if 0 <? inflight then inflight - 1 else inflight), count_loss l)
          else (m, inflight, l) in
        if max_inflight_messages cfg <=? inflight1
        then (m1 :: rest, inflight1, l1, x, success)
        else
          let '(rc, x1) := fn m1 x in
          if negb (ok rc) then (m1 :: rest, inflight1, l1, x1, rc)
          else
            let inflight2 := if p_inflight m1 then inflight1 else w32 (inflight1 + 1) in
            continue (mark_sent now m1 true) inflight2 l1 x1
  end.
End resend.

Definition resend_due {X} (now : U64) (fn : PendingReliableMessage → X → Result * X)
    (s : ReliableSession) (x : X) : Result * ReliableSession * X :=
  let '(q, inflight, l, x', rc) :=
    resend_loop (rs_cfg s) now fn (rs_pending s) (rs_inflight_count s) (rs_loss s) x in
  let l' := if ok rc then update_loss_estimate (rs_next_message_id s) l else l in
  (rc,
   mkReliable (rs_cfg s) (rs_next_message_id s) q (rs_pending_bytes s) inflight
     (rs_received s) (rs_rtt s) l',
   x').

(** The overload with a fixed delay. *)
Fixpoint legacy_loop {X} (now delay : U64) (fn : PendingReliableMessage → X → Result * X)
    (q : list PendingReliableMessage) (x : X) : list PendingReliableMessage * X * Result :=
  match q with
  | [] => ([], x, success)
  | m :: rest =>
      let continue m x :=
        let '(rest', x', rc) := legacy_loop now delay fn rest x in (m :: rest', x', rc) in
      if expired now m then continue m x
      else if negb (p_last_send_ms m =? 0) && (w64 (now - p_last_send_ms m) <? delay)
      then continue m x
      else
        let '(rc, x1) := fn m x in
        if negb (ok rc) then (m :: rest, x1, rc)
        else continue (mark_sent now m (p_inflight m)) x1
  end.

Definition resend_due_legacy {X} (now delay : U64)
    (fn : PendingReliableMessage → X → Result * X)
    (s : ReliableSession) (x : X) : Result * ReliableSession * X :=
  let '(q, x', rc) := legacy_loop now delay fn (rs_pending s) x in
  (rc,
   mkReliable (rs_cfg s) (rs_next_message_id s) q (rs_pending_bytes s) (rs_inflight_count s)
     (rs_received s) (rs_rtt s) (rs_loss s),
   x').

Fixpoint expire_loop (now : U64) (q : list PendingReliableMessage) (bytes inflight removed : U32)
    : list PendingReliableMessage * U32 * U32 * U32 :=
  match q with
  | [] => ([], bytes, inflight, removed)
  | m :: rest =>
      if (p_lifetime_ms m =? 0) || (now <? w64 (p_enqueued_ms m + p_lifetime_ms m)) then
        let '(rest', bytes', inflight', removed') := expire_loop now rest bytes inflight removed in
        (m :: rest', bytes', inflight', removed')
      else
        expire_loop now rest (w32 (bytes - w32 (zlen (p_encoded_payload m))))
          (release_inflight m inflight) (w32 (removed + 1))
  end.

Definition expire_old (now : U64) (s : ReliableSession) : U32 * ReliableSession :=
  let '(q, bytes, inflight, removed) :=
    expire_loop now (rs_pending s) (rs_pending_bytes s) (rs_inflight_count s) 0 in
  (removed,
   mkReliable (rs_cfg s) (rs_next_message_id s) q bytes inflight (rs_received s)
     (rs_rtt s) (rs_loss s)).

Fixpoint note_loop (cfg : ReliabilityConfig) (id now : U64) (q : list PendingReliableMessage)
    (inflight : U32) : bool * list PendingReliableMessage * U32 :=
  match q with
  | [] => (false, [], inflight)
  | m :: rest =>
      if negb (p_message_id m =? id) then
        let '(b, rest', inflight') := note_loop cfg id now rest inflight in
        (b, m :: rest', inflight')
      else if negb (p_inflight m) && (max_inflight_messages cfg <=? inflight)
      then (false, m :: rest, inflight)
      else (true, mark_sent now m true :: rest,
            if p_inflight m then inflight else w32 (inflight + 1))
  end.

Definition note_sent (id now : U64) (s : ReliableSession) : bool * ReliableSession :=
  let '(b, q, inflight) := note_loop (rs_cfg s) id now (rs_pending s) (rs_inflight_count s) in
  (b, mkReliable (rs_cfg s) (rs_next_message_id s) q (rs_pending_bytes s) inflight
        (rs_received s) (rs_rtt s) (rs_loss s)).

Definition clear (s : ReliableSession) : ReliableSession :=
  mkReliable (rs_cfg s) 1 [] 0 0 (ReliableReceiveWindow.reset (rs_received s))
    (reset_rtt (rs_cfg s)) (mkLoss 0 0 0).

Definition accept_incoming (id : U64) (s : ReliableSession) : bool * ReliableSession :=
  let '(b, w) := ReliableReceiveWindow.accept id (rs_received s) in
  (b, mkReliable (rs_cfg s) (rs_next_message_id s) (rs_pending s) (rs_pending_bytes s)
        (rs_inflight_count s) w (rs_rtt s) (rs_loss s)).

Definition seen_incoming (id : U64) (s : ReliableSession) : bool :=
  ReliableReceiveWindow.seen id (rs_received s).

(** ** Invariant *)

Definition queue_bytes (q : list PendingReliableMessage) : Z :=
  foldr (λ m n, zlen (p_encoded_payload m) + n) 0 q.

Definition count_inflight (q : list PendingReliableMessage) : Z :=
  foldr (λ m n, (if p_inflight m then 1 else 0) + n) 0 q.

(** Transmission order: higher priority first, then first in, first out. *)
Definition before (a b : PendingReliableMessage) : Prop :=
  priority_value (p_priority b) < priority_value (p_priority a) ∨
  (p_priority a = p_priority b ∧ p_message_id a < p_message_id b).

(** A queued payload is the envelope of the message with its own id. *)
Definition payload_ok (m : PendingReliableMessage) : Prop :=
  ∃ bs, p_encoded_payload m = enc_payload (p_message_id m) bs ∧
        zlen bs <= NetConfig.MaxReliableMessageBytes.

(** What does not change while a message waits. *)
Record queue_shape (next : U64) (q : list PendingReliableMessage) : Prop := {
  qs_ids : Forall (λ m, 1 <= p_message_id m < next) q;
  qs_nodup : NoDup (p_message_id <$> q);
  qs_payload : Forall payload_ok q;
  qs_sorted : StronglySorted before q;
  qs_lifetime : Forall (λ m, is_u64 (p_lifetime_ms m)) q;
}.

Definition rto_ok (cfg : ReliabilityConfig) (t : U64) : Prop :=
  min_rto_ms cfg <= t <= max_rto_ms cfg.

(** A byte budget so far below [U32_MAX] that the 32-bit sum of [enqueue], a
    counter within the budget plus at most [8 + 65535] bytes, cannot wrap.  The
    validator does not ask for it: see [byte_budget_wraps] below. *)
Definition bytes_fit (cfg : ReliabilityConfig) : Prop :=
  max_pending_bytes cfg <= U32_MAX - 65543.

(** The byte counter is always exact modulo [2 ^ 32]; that the queue keeps the
    byte budget, and with it that the counter is exact, needs [bytes_fit]. *)
Record rs_inv (s : ReliableSession) : Prop := {
  ri_typed : reliability_typed (rs_cfg s);
  ri_cfg : reliability_valid (rs_cfg s);
  ri_next : 1 <= rs_next_message_id s <= U64_MAX;
  ri_shape : queue_shape (rs_next_message_id s) (rs_pending s);
  ri_bytes : rs_pending_bytes s = w32 (queue_bytes (rs_pending s));
  ri_byte_limit : bytes_fit (rs_cfg s) →
    queue_bytes (rs_pending s) <= max_pending_bytes (rs_cfg s);
  ri_length : zlen (rs_pending s) <= max_pending_messages (rs_cfg s);
  ri_inflight : rs_inflight_count s = count_inflight (rs_pending s);
  ri_inflight_limit : rs_inflight_count s <= max_inflight_messages (rs_cfg s);
  ri_rtos : Forall (λ m, rto_ok (rs_cfg s) (p_rto_ms m)) (rs_pending s);
  ri_rto : rto_ok (rs_cfg s) (rto_ms (rs_rtt s));
  ri_window : ∃ h, window_rel (rs_received s) h;
}.

(** *** Queue lemmas *)

Lemma queue_bytes_nonneg q : 0 <= queue_bytes q.
Proof. induction q; simpl; lia. Qed.
Lemma ri_bytes_exact s :
  rs_inv s → bytes_fit (rs_cfg s) → rs_pending_bytes s = queue_bytes (rs_pending s).
Proof.
  intros [] Hfit. pose proof (ri_byte_limit0 Hfit). pose proof (queue_bytes_nonneg (rs_pending s)).
  unfold bytes_fit in Hfit. rewrite ri_bytes0. apply w32_id. ulia.
Qed.
Lemma w32_add_l a b : w32 (w32 a + b) = w32 (a + b).
Proof. unfold w32. by rewrite Zplus_mod_idemp_l. Qed.
Lemma w32_le a : 0 <= a → w32 a <= a.
Proof. intros H. by apply Z.mod_le. Qed.
Lemma w32_sub_lr a b : w32 (w32 a - w32 b) = w32 (a - b).
Proof. unfold w32. by rewrite <- Zminus_mod. Qed.
Lemma count_inflight_nonneg q : 0 <= count_inflight q.
Proof. induction q as [|m q IH]; simpl; [lia|]. destruct (p_inflight m); lia. Qed.
Lemma count_inflight_le q : count_inflight q <= zlen q.
Proof. induction q as [|m q IH]; simpl; [lia|]. destruct (p_inflight m); lia. Qed.

Lemma insert_perm m q : insert_by_priority m q ≡ₚ m :: q.
Proof.
  induction q as [|it q IH]; simpl; [done|]. case_match; [done|].
  rewrite IH. apply Permutation_swap.
Qed.

#[global] Instance queue_bytes_perm : Proper ((≡ₚ) ==> eq) queue_bytes.
Proof. intros q1 q2 H. induction H; simpl; lia. Qed.
#[global] Instance count_inflight_perm : Proper ((≡ₚ) ==> eq) count_inflight.
Proof. intros q1 q2 H. induction H; simpl; lia. Qed.

Lemma before_trans a b c : before a b → before b c → before a c.
Proof.
  unfold before. intros [H1|[H1 H1']] [H2|[H2 H2']]; rewrite ?H1, <- ?H2; auto with lia.
Qed.

Lemma priority_value_inj a b : priority_value a = priority_value b → a = b.
Proof. by destruct a, b. Qed.

(** A message newer than all others is inserted after those of its own or a
    higher priority. *)
Lemma insert_sorted m q :
  StronglySorted before q → Forall (λ x, p_message_id x < p_message_id m) q →
  StronglySorted before (insert_by_priority m q).
Proof.
  induction 1 as [|it q Hs IH Hall]; intros Hids; simpl; [repeat constructor|].
  apply Forall_cons in Hids as [Hit Hids]. case_match eqn:Hc.
  - apply Z.ltb_lt in Hc. assert (before m it) as Hb by (left; done).
    constructor; [by constructor|]. constructor; [done|].
    eapply Forall_impl; [exact Hall|]. intros x Hx. by eapply before_trans.
  - apply Z.ltb_ge in Hc. constructor; [auto|].
    apply Forall_forall. intros x Hx. rewrite insert_perm in Hx.
    apply elem_of_cons in Hx as [->|Hx]; [|by eapply Forall_forall in Hall].
    destruct (Z.eq_dec (priority_value (p_priority m)) (priority_value (p_priority it))) as [He|].
    + right. apply priority_value_inj in He. done.
    + left. lia.
Qed.

Lemma queue_shape_insert next m q :
  queue_shape next q → p_message_id m = next → 1 <= next → payload_ok m →
  is_u64 (p_lifetime_ms m) → queue_shape (next + 1) (insert_by_priority m q).
Proof.
  intros [Hids Hnd Hp Hs Hl] Hm Hn Hpm Hlm. split.
  - rewrite insert_perm. constructor; [lia|]. eapply Forall_impl; [exact Hids|]. simpl. lia.
  - rewrite insert_perm. simpl. constructor; [|done]. rewrite list_elem_of_fmap.
    intros (x & Hx & Hin). eapply Forall_forall in Hids; [|exact Hin]. simpl in Hids. lia.
  - rewrite insert_perm. by constructor.
  - apply insert_sorted; [done|]. eapply Forall_impl; [exact Hids|]. simpl. lia.
  - rewrite insert_perm. by constructor.
Qed.

Lemma queue_shape_weaken next next' q : queue_shape next q → next <= next' → queue_shape next' q.
Proof.
  intros [Hids Hnd Hp Hs Hl] Hle. split; try done.
  eapply Forall_impl; [exact Hids|]. simpl. lia.
Qed.

Lemma StronglySorted_sublist {A} (R : A → A → Prop) l k :
  sublist l k → StronglySorted R k → StronglySorted R l.
Proof.
  induction 1 as [|x l k Hs IH|x l k Hs IH]; intros H; [done| |].
  - apply StronglySorted_inv in H as [H1 H2]. constructor; [auto|].
    apply Forall_forall. intros y Hy. eapply Forall_forall in H2; [done|].
    by eapply elem_of_sublist.
  - apply StronglySorted_inv in H as [H1 H2]. auto.
Qed.

Lemma queue_shape_sublist next q q' : sublist q' q → queue_shape next q → queue_shape next q'.
Proof.
  intros Hsub [Hids Hnd Hp Hs Hl].
  assert (∀ P, Forall P q → Forall P q') as HF.
  { intros P. rewrite !Forall_forall. intros HP x Hx. by eapply HP, elem_of_sublist. }
  split; [auto..|by eapply StronglySorted_sublist|auto].
  eapply sublist_NoDup; [exact Hnd|]. by apply fmap_sublist.
Qed.

(** Operations that only touch the timers of a message keep its identity. *)
Definition same_message (a b : PendingReliableMessage) : Prop :=
  p_message_id a = p_message_id b ∧ p_user_type a = p_user_type b ∧
  p_encoded_payload a = p_encoded_payload b ∧ p_priority a = p_priority b ∧
  p_lifetime_ms a = p_lifetime_ms b ∧ p_enqueued_ms a = p_enqueued_ms b.

#[global] Instance same_message_refl : Reflexive same_message.
Proof. intros m. by repeat split. Qed.

Lemma same_messages_refl q : Forall2 same_message q q.
Proof. by apply Forall_Forall2_diag, Forall_true. Qed.
#[export] Hint Resolve same_messages_refl : scn.

Lemma same_queue_bytes q q' : Forall2 same_message q q' → queue_bytes q' = queue_bytes q.
Proof. induction 1 as [|a b q q' (_ & _ & Hab & _) _ IH]; simpl; [done|]. by rewrite IH, Hab. Qed.

Lemma before_same a a' b b' :
  same_message a a' → same_message b b' → before a b → before a' b'.
Proof.
  intros (Ha1 & _ & _ & Ha2 & _) (Hb1 & _ & _ & Hb2 & _). unfold before.
  by rewrite Ha1, Ha2, Hb1, Hb2.
Qed.

Lemma queue_shape_same next q q' :
  Forall2 same_message q q' → queue_shape next q → queue_shape next q'.
Proof.
  intros Hq [Hids Hnd Hp Hs Hl].
  assert (p_message_id <$> q' = p_message_id <$> q) as Heq.
  { clear -Hq. induction Hq as [|a b q q' (Hab & _) _ IH]; csimpl; congruence. }
  assert (∀ P : PendingReliableMessage → Prop,
    (∀ a b, same_message a b → P a → P b) → Forall P q → Forall P q') as HF.
  { intros P HP. clear -Hq HP. induction Hq; intros HPq; [done|].
    apply Forall_cons in HPq as [? ?]. constructor; eauto. }
  split.
  - eapply HF; [|exact Hids]. by intros a b (<- & _).
  - by rewrite Heq.
  - eapply HF; [|exact Hp]. intros a b (H1 & _ & H2 & _) (bs & ? & ?).
    exists bs. by rewrite <- H1, <- H2.
  - clear -Hq Hs. induction Hq as [|a b q q' Hab Hq IH]; [constructor|].
    apply StronglySorted_inv in Hs as [Hs Ha]. constructor; [auto|].
    clear -Hq Hab Ha. induction Hq as [|c d q q' Hcd _ IH]; [done|].
    apply Forall_cons in Ha as [? ?]. constructor; [by eapply before_same|auto].
  - eapply HF; [|exact Hl]. by intros a b (_ & _ & _ & _ & <- & _).
Qed.

(** *** What each loop does to the queue *)

Lemma extract_perm id q m rest :
  extract id q = Some (m, rest) → q ≡ₚ m :: rest ∧ sublist rest q ∧ p_message_id m = id.
Proof.
  revert rest. induction q as [|it q IH]; intros rest; simpl; [done|].
  destruct (Z.eqb_spec (p_message_id it) id) as [Hid|].
  - intros [= -> ->]. split_and!; [done|by constructor|done].
  - destruct (extract id q) as [[m' rest']|]; [|done]. intros [= -> <-].
    destruct (IH rest' eq_refl) as (H1 & H2 & H3). split_and!; [|by constructor|done].
    rewrite H1. apply Permutation_swap.
Qed.

Lemma extract_none id q : extract id q = None ↔ id ∉ p_message_id <$> q.
Proof.
  induction q as [|it q IH]; csimpl; [set_solver|].
  destruct (Z.eqb_spec (p_message_id it) id); [set_solver|].
  destruct (extract id q) as [[m rest]|]; set_solver.
Qed.

Lemma filter_other_ids id (q : list PendingReliableMessage) :
  id ∉ p_message_id <$> q → filter (λ m, p_message_id m ≠ id) q = q.
Proof.
  induction q as [|m q IH]; csimpl; [done|]. intros H.
  rewrite filter_cons_True by set_solver. f_equal. apply IH. set_solver.
Qed.

Lemma extract_filter id (q : list PendingReliableMessage) m rest :
  NoDup (p_message_id <$> q) → extract id q = Some (m, rest) →
  rest = filter (λ m, p_message_id m ≠ id) q.
Proof.
  revert rest. induction q as [|it q IH]; csimpl; intros rest Hnd; [done|].
  apply NoDup_cons in Hnd as [Hit Hnd].
  destruct (Z.eqb_spec (p_message_id it) id) as [Hid|Hid].
  - intros [= -> ->]. rewrite filter_cons_False by auto. symmetry. apply filter_other_ids. congruence.
  - destruct (extract id q) as [[m' rest']|]; [|done]. intros [= -> <-].
    rewrite filter_cons_True by done. f_equal. by apply IH.
Qed.

Lemma time_out_rto cfg m :
  min_rto_ms cfg <= max_rto_ms cfg → rto_ok cfg (p_rto_ms (time_out cfg m)).
Proof. unfold rto_ok. simpl. lia. Qed.

Section resend_facts.
Context {X : Type} (cfg : ReliabilityConfig) (now : U64)
  (fn : PendingReliableMessage → X → Result * X).

(** One unfolding of the loop, by what happens to its first message. *)
Lemma resend_loop_same q n l x :
  Forall2 same_message q (resend_loop cfg now fn q n l x).1.1.1.1.
Proof.
  revert n l x. induction q as [|m q IH]; intros n l x; cbn [resend_loop]; [constructor|].
  assert (∀ m' n l x, same_message m m' →
    Forall2 same_message (m :: q)
      (let '(rest', inflight', l', x', rc) := resend_loop cfg now fn q n l x in
       (m' :: rest', inflight', l', x', rc)).1.1.1.1) as Hc.
  { intros m' n' l' x' Hm. specialize (IH n' l' x').
    destruct (resend_loop cfg now fn q n' l' x') as [[[[? ?] ?] ?] ?]. by constructor. }
  destruct (expired now m); [by apply Hc|].
  destruct (p_inflight m) eqn:Hf; cbn [andb].
  - case_match; [by apply Hc|]. case_match; [constructor; [done|auto with scn]|].
    destruct (fn _ x) as [rc x1].
    destruct (negb (ok rc)); [constructor; [done|auto with scn]|]. by apply Hc.
  - case_match; [constructor; [done|auto with scn]|].
    destruct (fn _ x) as [rc x1].
    destruct (negb (ok rc)); [constructor; [done|auto with scn]|]. by apply Hc.
Qed.

(** What holds of the callback's state and is kept by sending any message of the
    queue holds after the loop. *)
Lemma resend_loop_state (P : X → Prop) q n l x :
  (∀ m m' x, m ∈ q → same_message m m' → P x → P (fn m' x).2) → P x →
  P (resend_loop cfg now fn q n l x).1.2.
Proof.
  revert n l x. induction q as [|m q IH]; intros n l x Hfn Hx; cbn [resend_loop]; [done|].
  assert (∀ m' n l x, P x → P (let '(rest', inflight', l', x', rc) := resend_loop cfg now fn q n l x in
    (m' :: rest', inflight', l', x', rc)).1.2) as Hc.
  { intros m' n' l' x' Hx'. specialize (IH n' l' x').
    destruct (resend_loop cfg now fn q n' l' x') as [[[[? ?] ?] ?] ?]. apply IH; [|done].
    intros. eapply Hfn; [by right|done..]. }
  assert (∀ m' n l, same_message m m' →
    P (if max_inflight_messages cfg <=? n then (m' :: q, n, l, x, success)
       else let '(rc, x1) := fn m' x in
         if negb (ok rc) then (m' :: q, n, l, x1, rc)
         else let '(rest', inflight', l', x', rc) :=
                resend_loop cfg now fn q (if p_inflight m' then n else w32 (n + 1)) l x1 in
              (mark_sent now m' true :: rest', inflight', l', x', rc)).1.2) as Hs.
  { intros m' n' l' Hm. case_match; [done|]. pose proof (Hfn m m' x ltac:(left) Hm Hx) as Hx1.
    destruct (fn m' x) as [rc x1]. case_match; [done|by apply Hc]. }
  case_match; [by apply Hc|]. case_match; [by apply Hc|]. destruct (p_inflight m); by apply Hs.
Qed.

Lemma resend_loop_flight q n l x k :
  is_u32 (max_inflight_messages cfg) → min_rto_ms cfg <= max_rto_ms cfg →
  0 <= k → n = k + count_inflight q → n <= max_inflight_messages cfg →
  Forall (λ m, rto_ok cfg (p_rto_ms m)) q →
  let '(q', n', _, _, _) := resend_loop cfg now fn q n l x in
  n' = k + count_inflight q' ∧ n' <= max_inflight_messages cfg ∧
  Forall (λ m, rto_ok cfg (p_rto_ms m)) q'.
Proof.
  intros Hmax Hrto. revert n l x k.
  induction q as [|m q IH]; intros n l x k Hk Hn Hlim Hq; cbn [resend_loop]; [done|].
  apply Forall_cons in Hq as [Hm Hq]. simpl in Hn.
  pose proof (count_inflight_nonneg q) as Hpos.
  assert (∀ m' n' l x, rto_ok cfg (p_rto_ms m') → n' <= max_inflight_messages cfg →
    n' = k + (if p_inflight m' then 1 else 0) + count_inflight q →
    let '(q', n', _, _, _) :=
      (let '(rest', inflight', l', x', rc) := resend_loop cfg now fn q n' l x in
       (m' :: rest', inflight', l', x', rc)) in
    n' = k + count_inflight q' ∧ n' <= max_inflight_messages cfg ∧
    Forall (λ m, rto_ok cfg (p_rto_ms m)) q') as Hc.
  { intros m' n' l' x' Hr Hn1 Hn2.
    specialize (IH n' l' x' (k + (if p_inflight m' then 1 else 0))).
    destruct (resend_loop cfg now fn q n' l' x') as [[[[q' n''] ?] ?] ?].
    destruct IH as (? & ? & ?); [destruct (p_inflight m'); lia|done..|].
    simpl. split_and!; [lia|done|by constructor]. }
  destruct (expired now m); [apply Hc; [done|done|lia]|].
  destruct (p_inflight m) eqn:Hf; cbn [andb].
  - destruct (_ || _); [apply Hc; [done|done|rewrite Hf; lia]|].
    replace (0 <? n) with true by lia. pose proof (time_out_rto cfg m Hrto).
    destruct (Z.leb_spec (max_inflight_messages cfg) (n - 1)) as [|Hlt]; [lia|].
    destruct (fn (time_out cfg m) x) as [rc x1]. destruct (ok rc); cbn [negb].
    + apply Hc; [done|simpl; rewrite w32_id by ulia; lia|simpl; rewrite w32_id by ulia; lia].
    + simpl. split_and!; [lia|lia|by constructor].
  - destruct (Z.leb_spec (max_inflight_messages cfg) n) as [|Hlt].
    { simpl. rewrite Hf. split_and!; [lia|done|by constructor]. }
    destruct (fn m x) as [rc x1]. destruct (ok rc); cbn [negb]; rewrite ?Hf.
    + apply Hc; [done|rewrite w32_id by ulia; lia|simpl; rewrite w32_id by ulia; lia].
    + simpl. rewrite Hf. split_and!; [lia|done|by constructor].
Qed.
End resend_facts.

Lemma legacy_loop_facts {X} now delay (fn : PendingReliableMessage → X → Result * X) q x :
  let '(q', _, _) := legacy_loop now delay fn q x in
  Forall2 same_message q q' ∧ count_inflight q' = count_inflight q ∧
  (p_rto_ms <$> q') = (p_rto_ms <$> q).
Proof.
  revert x. induction q as [|m q IH]; intros x; cbn [legacy_loop]; [by repeat constructor|].
  assert (∀ m' x, same_message m m' → p_inflight m' = p_inflight m → p_rto_ms m' = p_rto_ms m →
    let '(q', _, _) := (let '(rest', x', rc) := legacy_loop now delay fn q x in
                        (m' :: rest', x', rc)) in
    Forall2 same_message (m :: q) q' ∧ count_inflight q' = count_inflight (m :: q) ∧
    (p_rto_ms <$> q') = (p_rto_ms <$> m :: q)) as Hc.
  { intros m' x' Hm Hf Hr. specialize (IH x').
    destruct (legacy_loop now delay fn q x') as [[q' ?] ?]. destruct IH as (? & ? & ?).
    csimpl. rewrite Hf, Hr. split_and!; [by constructor|congruence..]. }
  destruct (expired now m); [by apply Hc|].
  destruct (_ && _); [by apply Hc|].
  destruct (fn m x) as [rc x1]. destruct (ok rc); cbn [negb]; [by apply Hc|].
  split_and!; [auto with scn|done..].
Qed.

(** [expire_old] keeps exactly the messages that are not expired. *)
Lemma expire_guard now m :
  is_u64 (p_lifetime_ms m) →
  (p_lifetime_ms m =? 0) || (now <? w64 (p_enqueued_ms m + p_lifetime_ms m)) =
    negb (expired now m).
Proof. intros H. unfold expired. widths. lia. Qed.

Lemma expire_loop_facts now q bytes n r kb kn :
  Forall (λ m, is_u64 (p_lifetime_ms m)) q →
  0 <= kn → bytes = w32 (kb + queue_bytes q) → n = kn + count_inflight q →
  let '(q', bytes', n', r') := expire_loop now q bytes n r in
  q' = filter (λ m, expired now m = false) q ∧
  bytes' = w32 (kb + queue_bytes q') ∧ n' = kn + count_inflight q' ∧
  (is_u32 r → r' = w32 (r + (zlen q - zlen q'))).
Proof.
  revert bytes n r kb kn.
  induction q as [|m q IH]; intros bytes n r kb kn Hl Hkn Hb Hn; cbn [expire_loop].
  { split_and!; try done. intros Hr. simpl. by rewrite Z.add_0_r, w32_id. }
  apply Forall_cons in Hl as [Hm Hl]. rewrite expire_guard by done.
  pose proof (count_inflight_nonneg q). simpl in Hb, Hn.
  rewrite filter_cons. destruct (expired now m); cbn [negb].
  - rewrite decide_False by done.
    assert (w32 (bytes - w32 (zlen (p_encoded_payload m))) = w32 (kb + queue_bytes q)) as ->
      by (rewrite Hb, w32_sub_lr; f_equal; lia).
    assert (release_inflight m n = kn + count_inflight q) as ->.
    { unfold release_inflight. destruct (p_inflight m); cbn [andb]; [|lia].
      replace (0 <? n) with true by lia. lia. }
    specialize (IH (w32 (kb + queue_bytes q)) (kn + count_inflight q) (w32 (r + 1)) kb kn).
    destruct (expire_loop now q _ _ _) as [[[q' b'] n'] r'].
    destruct IH as (-> & -> & -> & Hr'); try done. split_and!; try done.
    intros Hr. rewrite Hr' by apply w32_range. simpl. unfold w32.
    rewrite Zplus_mod_idemp_l. f_equal. lia.
  - rewrite decide_True by done.
    specialize (IH bytes n r (kb + zlen (p_encoded_payload m))
                  (kn + if p_inflight m then 1 else 0)).
    destruct (expire_loop now q _ _ _) as [[[q' b'] n'] r'].
    destruct IH as (-> & -> & -> & Hr'); [done|destruct (p_inflight m); lia|rewrite Hb; f_equal; lia|lia|].
    simpl. split_and!; [done|f_equal; lia|lia|]. intros Hr. rewrite Hr' by done. f_equal. lia.
Qed.

Lemma note_loop_facts cfg id now q n k :
  is_u32 (max_inflight_messages cfg) → 0 <= k → n = k + count_inflight q →
  n <= max_inflight_messages cfg →
  let '(b, q', n') := note_loop cfg id now q n in
  Forall2 same_message q q' ∧ n' = k + count_inflight q' ∧ n' <= max_inflight_messages cfg ∧
  (p_rto_ms <$> q') = (p_rto_ms <$> q) ∧ (b = true → id ∈ p_message_id <$> q).
Proof.
  intros Hmax. revert n k. induction q as [|m q IH]; intros n k Hk Hn Hlim; cbn [note_loop].
  { split_and!; [constructor|done..]. }
  simpl in Hn. pose proof (count_inflight_nonneg q).
  destruct (Z.eqb_spec (p_message_id m) id) as [Hid|Hid]; cbn [negb].
  - destruct (p_inflight m) eqn:Hf; cbn [negb andb].
    + simpl. split_and!; [constructor; [done|auto with scn]|lia|lia|done|set_solver].
    + destruct (Z.leb_spec (max_inflight_messages cfg) n).
      * simpl. rewrite Hf. split_and!; [auto with scn|lia|lia|done|done].
      * simpl. rewrite w32_id by ulia.
        split_and!; [constructor; [done|auto with scn]|lia|lia|done|set_solver].
  - specialize (IH n (k + if p_inflight m then 1 else 0)).
    destruct (note_loop cfg id now q n) as [[b q'] n'].
    destruct IH as (? & ? & ? & Hr & ?); [destruct (p_inflight m); lia|lia|done|].
    csimpl. split_and!; [by constructor|lia|done|by rewrite Hr|set_solver].
Qed.

(** *** Preservation *)

Lemma update_rtt_ok cfg sample t :
  reliability_valid cfg →
  ∃ t', update_rtt cfg sample t = Done t' ∧ rto_ok cfg (rto_ms t') ∧
        latest_rtt_ms t' = sample ∧ have_rtt t' = true.
Proof.
  intros [_ Hord _ _ _ _]. unfold update_rtt.
  destruct (if negb (have_rtt t) then _ else _) as [srtt var].
  destruct (std_clamp_ok (w64 (srtt + Z.max 1 (w64 (var * 4)))) (min_rto_ms cfg) (max_rto_ms cfg))
    as (r & -> & Hr); [lia|].
  eexists. split; [done|]. done.
Qed.

(** The session after an operation that replaced the queue, the byte count
    and the in-flight count. *)
Lemma rs_inv_queue s q bytes n rtt l :
  rs_inv s → queue_shape (rs_next_message_id s) q →
  bytes = w32 (queue_bytes q) → queue_bytes q <= queue_bytes (rs_pending s) →
  zlen q <= max_pending_messages (rs_cfg s) →
  n = count_inflight q → n <= max_inflight_messages (rs_cfg s) →
  Forall (λ m, rto_ok (rs_cfg s) (p_rto_ms m)) q → rto_ok (rs_cfg s) (rto_ms rtt) →
  rs_inv (mkReliable (rs_cfg s) (rs_next_message_id s) q bytes n (rs_received s) rtt l).
Proof. intros [] **. split; try done. simpl. intros Hfit. by etrans; [|apply ri_byte_limit0]. Qed.

Lemma rs_inv_same s q n l :
  rs_inv s → Forall2 same_message (rs_pending s) q →
  n = count_inflight q → n <= max_inflight_messages (rs_cfg s) →
  Forall (λ m, rto_ok (rs_cfg s) (p_rto_ms m)) q →
  rs_inv (mkReliable (rs_cfg s) (rs_next_message_id s) q (rs_pending_bytes s) n
            (rs_received s) (rs_rtt s) l).
Proof.
  intros Hinv Hq Hn Hlim Hrto. pose proof Hinv as [].
  apply rs_inv_queue; try done.
  - by eapply queue_shape_same.
  - by rewrite (same_queue_bytes _ _ Hq).
  - by rewrite (same_queue_bytes _ _ Hq).
  - by rewrite <- (Forall2_length _ _ _ Hq).
Qed.

Lemma Forall_rto_same cfg q q' :
  (p_rto_ms <$> q') = (p_rto_ms <$> q) →
  Forall (λ m, rto_ok cfg (p_rto_ms m)) q → Forall (λ m, rto_ok cfg (p_rto_ms m)) q'.
Proof.
  intros Heq H. apply (Forall_fmap p_rto_ms (rto_ok cfg) q'). rewrite Heq.
  by apply Forall_fmap.
Qed.

(** The four ways [enqueue] ends, with its 32-bit sum. *)
Inductive enqueue_case (t : U8) (bs : list U8) (prio : SendPriority) (life now : U64)
    (s : ReliableSession) : outcome PendingReliableMessage * ReliableSession → Prop :=
  | EnqueueFull m :
      max_pending_messages (rs_cfg s) <= zlen (rs_pending s) ∨
      max_pending_bytes (rs_cfg s) < w32 (rs_pending_bytes s + 8 + zlen bs) →
      enqueue_case t bs prio life now s (Err (fail_result Errc.QueueFull m), s)
  | EnqueueLarge :
      NetConfig.MaxReliableMessageBytes < zlen bs →
      enqueue_case t bs prio life now s
        (Err (fail_result Errc.InvalidArg "reliable message too large"),
         mkReliable (rs_cfg s) (rs_next_message_id s + 1) (rs_pending s) (rs_pending_bytes s)
           (rs_inflight_count s) (rs_received s) (rs_rtt s) (rs_loss s))
  | EnqueueDone m :
      m = mkPending (rs_next_message_id s) t (enc_payload (rs_next_message_id s) bs) prio
            life now 0 0 (rto_ms (rs_rtt s)) 0 false →
      zlen bs <= NetConfig.MaxReliableMessageBytes →
      zlen (rs_pending s) < max_pending_messages (rs_cfg s) →
      w32 (rs_pending_bytes s + 8 + zlen bs) <= max_pending_bytes (rs_cfg s) →
      enqueue_case t bs prio life now s
        (Done m,
         mkReliable (rs_cfg s) (rs_next_message_id s + 1) (insert_by_priority m (rs_pending s))
           (w32 (rs_pending_bytes s + 8 + zlen bs)) (rs_inflight_count s) (rs_received s)
           (rs_rtt s) (rs_loss s)).

Lemma enqueue_cases t bs prio life now s :
  rs_inv s → is_u16 (zlen bs) → rs_next_message_id s < U64_MAX →
  enqueue_case t bs prio life now s (enqueue t (data_of bs) (zlen bs) prio life now s).
Proof.
  intros Hinv Hlen Hnext. pose proof Hinv as []. unfold enqueue.
  destruct (Z.leb_spec (max_pending_messages (rs_cfg s)) (zlen (rs_pending s))).
  { constructor. auto. }
  cbv zeta. rewrite (w32_id (8 + zlen bs)), Z.add_assoc by ulia.
  destruct (Z.ltb_spec (max_pending_bytes (rs_cfg s)) (w32 (rs_pending_bytes s + 8 + zlen bs))).
  { constructor. by right. }
  rewrite (w64_id (_ + 1)) by ulia.
  destruct (Z.ltb_spec NetConfig.MaxReliableMessageBytes (zlen bs)) as [Hbig|Hfit].
  - unfold write_reliable_payload.
    rewrite write_envelope_large by (lia || exact Hbig). by constructor.
  - assert (mkWriter (Some (replicate (Z.to_nat (8 + zlen bs)) 0)) (8 + zlen bs) 0 =
            writer_at [] (replicate (Z.to_nat (8 + zlen bs)) 0)) as ->.
    { unfold writer_at. simpl. f_equal. rewrite length_replicate. lia. }
    unfold write_reliable_payload.
    rewrite write_envelope_at; [|ulia|lia|exact Hfit|rewrite length_replicate; lia].
    rewrite drop_ge by (rewrite length_replicate; lia).
    cbn [writer_at dst default rs_cfg rs_next_message_id rs_pending rs_pending_bytes
      rs_inflight_count rs_received rs_rtt rs_loss].
    rewrite app_nil_l, app_nil_r, Z.add_assoc. unfold id. by constructor.
Qed.

Lemma enc_payload_length id bs : zlen (enc_payload id bs) = 8 + zlen bs.
Proof. unfold enc_payload. rewrite length_app, length_be. lia. Qed.

Lemma enqueue_inv t bs prio life now s :
  rs_inv s → is_u16 (zlen bs) → is_u64 life → rs_next_message_id s < U64_MAX →
  rs_inv (enqueue t (data_of bs) (zlen bs) prio life now s).2.
Proof.
  intros Hinv Hlen Hlife Hnext.
  destruct (enqueue_cases t bs prio life now s Hinv Hlen Hnext) as [m|Hbig|m Hm Hfit Hcnt Hby];
    simpl; [done| |]; pose proof Hinv as [].
  - split; simpl; try done; [lia|]. eapply queue_shape_weaken; [by apply ri_shape|lia].
  - split; simpl; try done.
    + lia.
    + apply queue_shape_insert; subst m; simpl; [done|done|lia| |done]. by exists bs.
    + rewrite insert_perm, ri_bytes0, <- Z.add_assoc, w32_add_l. subst m. simpl. f_equal. lia.
    + intros Hf. pose proof (ri_byte_limit0 Hf). pose proof (queue_bytes_nonneg (rs_pending s)).
      rewrite insert_perm. subst m. simpl. unfold bytes_fit in Hf.
      rewrite (ri_bytes_exact s Hinv Hf), w32_id in Hby by ulia. lia.
    + rewrite insert_perm. simpl. lia.
    + rewrite insert_perm. by subst m.
    + rewrite insert_perm. constructor; [by subst m|done].
Qed.

Lemma acknowledge_inv id now s :
  rs_inv s → (acknowledge id now s).1 ≠ UB ∧ rs_inv (acknowledge id now s).2.
Proof.
  intros Hinv. pose proof Hinv as []. unfold acknowledge.
  destruct (extract id (rs_pending s)) as [[it rest]|] eqn:He; [|done].
  apply extract_perm in He as (Hp & Hsub & Hid).
  assert (∀ rtt, rto_ok (rs_cfg s) (rto_ms rtt) →
    rs_inv (mkReliable (rs_cfg s) (rs_next_message_id s) rest
      (w32 (rs_pending_bytes s - w32 (zlen (p_encoded_payload it))))
      (release_inflight it (rs_inflight_count s)) (rs_received s) rtt (rs_loss s))) as Hfin.
  { intros rtt Hrtt. pose proof (queue_bytes_nonneg rest). pose proof (count_inflight_nonneg rest).
    assert (queue_bytes (rs_pending s) = zlen (p_encoded_payload it) + queue_bytes rest)
      as Hb by (by rewrite Hp).
    assert (count_inflight (rs_pending s) =
      (if p_inflight it then 1 else 0) + count_inflight rest) as Hc by (by rewrite Hp).
    assert (zlen (rs_pending s) = 1 + zlen rest) by (rewrite Hp; simpl; lia).
    assert (w32 (rs_pending_bytes s - w32 (zlen (p_encoded_payload it))) = w32 (queue_bytes rest))
      as -> by (rewrite ri_bytes0, w32_sub_lr; f_equal; lia).
    assert (release_inflight it (rs_inflight_count s) = count_inflight rest) as ->.
    { unfold release_inflight. destruct (p_inflight it); cbn [andb]; [|lia].
      replace (0 <? _) with true by lia. lia. }
    apply rs_inv_queue; try done; try lia.
    - by eapply queue_shape_sublist.
    - destruct (p_inflight it); lia.
    - rewrite Hp in ri_rtos0. by apply Forall_cons in ri_rtos0 as [_ ?]. }
  cbv zeta. destruct (_ && _) eqn:Hs; [|by split; [|apply Hfin]].
  destruct (update_rtt_ok (rs_cfg s) (now - p_first_send_ms it) (rs_rtt s)) as (t' & -> & Ht & _);
    [done|]. by split; [|apply Hfin].
Qed.

Lemma resend_due_inv {X} now (fn : PendingReliableMessage → X → Result * X) s x :
  rs_inv s → rs_inv (resend_due now fn s x).1.2.
Proof.
  intros Hinv. pose proof Hinv as []. unfold resend_due.
  pose proof (resend_loop_same (rs_cfg s) now fn (rs_pending s) (rs_inflight_count s)
    (rs_loss s) x) as Hsame.
  pose proof (resend_loop_flight (rs_cfg s) now fn (rs_pending s) (rs_inflight_count s)
    (rs_loss s) x 0) as Hfl.
  destruct (resend_loop _ _ _ _ _ _ _) as [[[[q n] l] x'] rc]. simpl in *.
  destruct Hfl as (? & ? & ?); try done.
  - apply ri_typed0.
  - destruct ri_cfg0. lia.
  - by apply rs_inv_same.
Qed.

Lemma resend_due_legacy_inv {X} now delay (fn : PendingReliableMessage → X → Result * X) s x :
  rs_inv s → rs_inv (resend_due_legacy now delay fn s x).1.2.
Proof.
  intros Hinv. pose proof Hinv as []. unfold resend_due_legacy.
  pose proof (legacy_loop_facts now delay fn (rs_pending s) x) as Hl.
  destruct (legacy_loop _ _ _ _ _) as [[q x'] rc]. destruct Hl as (Hq & Hc & Hr). simpl.
  apply rs_inv_same; [done|done|congruence|done|]. by eapply Forall_rto_same.
Qed.

Lemma queue_bytes_sublist q' q : sublist q' q → queue_bytes q' <= queue_bytes q.
Proof. induction 1; simpl; lia. Qed.
Lemma count_inflight_sublist q' q : sublist q' q → count_inflight q' <= count_inflight q.
Proof. induction 1 as [|x|x]; simpl; [lia|lia|]. destruct (p_inflight x); lia. Qed.

Lemma expire_old_spec now s :
  rs_inv s →
  let '(removed, s') := expire_old now s in
  rs_pending s' = filter (λ m, expired now m = false) (rs_pending s) ∧
  removed = w32 (zlen (rs_pending s) - zlen (rs_pending s')) ∧ rs_inv s'.
Proof.
  intros Hinv. pose proof Hinv as []. unfold expire_old.
  pose proof (expire_loop_facts now (rs_pending s) (rs_pending_bytes s) (rs_inflight_count s)
    0 0 0) as He.
  destruct (expire_loop _ _ _ _ _) as [[[q b] n] r].
  destruct He as (Hq & -> & -> & Hr); try done; [by apply ri_shape0|]. simpl.
  assert (sublist q (rs_pending s)) as Hsub by (rewrite Hq; apply sublist_filter).
  split_and!; [done|by apply Hr|].
  pose proof (queue_bytes_sublist _ _ Hsub). pose proof (count_inflight_sublist _ _ Hsub).
  pose proof (sublist_length _ _ Hsub).
  apply rs_inv_queue; try done; try lia; [by eapply queue_shape_sublist|].
  rewrite Forall_forall in *. intros m Hm. by eapply ri_rtos0, elem_of_sublist.
Qed.

Lemma note_sent_inv id now s : rs_inv s → rs_inv (note_sent id now s).2.
Proof.
  intros Hinv. pose proof Hinv as []. unfold note_sent.
  pose proof (note_loop_facts (rs_cfg s) id now (rs_pending s) (rs_inflight_count s) 0) as Hn.
  destruct (note_loop _ _ _ _ _) as [[b q] n].
  destruct Hn as (Hq & ? & ? & Hr & _); try done; [apply ri_typed0|]. simpl.
  apply rs_inv_same; try done. by eapply Forall_rto_same.
Qed.

Lemma rs_inv_empty cfg next w l :
  reliability_typed cfg → reliability_valid cfg →
  1 <= next <= U64_MAX → (∃ h, window_rel w h) →
  rs_inv (mkReliable cfg next [] 0 0 w (reset_rtt cfg) l).
Proof.
  intros Ht Hv Hn Hw. pose proof Hv as [].
  assert (1244 <= max_pending_bytes cfg) by exact rv_bytes.
  split; simpl; try done; try lia. repeat constructor.
Qed.

Lemma clear_inv s : rs_inv s → rs_inv (clear s).
Proof.
  intros []. apply rs_inv_empty; try done. exists []. apply window_rel_fresh.
Qed.

Lemma accept_incoming_inv id s : is_u64 id → rs_inv s → rs_inv (accept_incoming id s).2.
Proof.
  intros Hid []. destruct ri_window0 as [h Hh].
  destruct (reliable_accept_refines _ _ _ Hh Hid) as [_ Hw]. unfold accept_incoming.
  destruct (ReliableReceiveWindow.accept id (rs_received s)) as [b w]. simpl in *.
  split; simpl; try done. by eexists.
Qed.

(** ** Reachable sessions *)

(** A configuration that [configure] is given after validation. *)
Definition usable_config (cfg : ReliabilityConfig) : Prop :=
  reliability_typed cfg ∧ validate_reliability_config cfg = success.

(** A session is configured once, before use, and then evolves by its own
    operations, with any send callback. *)
Inductive rs_step : ReliableSession → ReliableSession → Prop :=
  | StepEnqueue s t bs prio life now :
      is_u16 (zlen bs) → is_u64 life → rs_next_message_id s < U64_MAX →
      rs_step s (enqueue t (data_of bs) (zlen bs) prio life now s).2
  | StepAck s id now : rs_step s (acknowledge id now s).2
  | StepResend s X now (fn : PendingReliableMessage → X → Result * X) x :
      rs_step s (resend_due now fn s x).1.2
  | StepResendLegacy s X now delay (fn : PendingReliableMessage → X → Result * X) x :
      rs_step s (resend_due_legacy now delay fn s x).1.2
  | StepExpire s now : rs_step s (expire_old now s).2
  | StepNote s id now : rs_step s (note_sent id now s).2
  | StepAccept s id : is_u64 id → rs_step s (accept_incoming id s).2
  | StepClear s : rs_step s (clear s).

Inductive rs_reachable (cfg : ReliabilityConfig) : ReliableSession → Prop :=
  | ReachInit : rs_reachable cfg (configure cfg new_reliable_session)
  | ReachStep s s' : rs_reachable cfg s → rs_step s s' → rs_reachable cfg s'.

Lemma rs_step_inv s s' : rs_inv s → rs_step s s' → rs_inv s'.
Proof.
  intros Hinv Hstep. destruct Hstep.
  - by apply enqueue_inv.
  - by apply acknowledge_inv.
  - by apply resend_due_inv.
  - by apply resend_due_legacy_inv.
  - pose proof (expire_old_spec now s Hinv) as He.
    destruct (expire_old now s) as [r s']. by destruct He as (_ & _ & ?).
  - by apply note_sent_inv.
  - by apply accept_incoming_inv.
  - by apply clear_inv.
Qed.

Lemma rs_reachable_inv cfg s : usable_config cfg → rs_reachable cfg s → rs_inv s.
Proof.
  intros (Ht & Hv) H. induction H; [|by eapply rs_step_inv].
  apply rs_inv_empty; try done; [by apply validate_reliability_sound|].
  exists []. apply window_rel_fresh.
Qed.

(** ** Retransmission *)

(** In flight with its timer still running. *)
Definition waiting (now : U64) (m : PendingReliableMessage) : bool :=
  p_inflight m && ((p_last_send_ms m =? 0) || (w64 (now - p_last_send_ms m) <? p_rto_ms m)).

Definition due (now : U64) (m : PendingReliableMessage) : bool :=
  negb (expired now m) && negb (waiting now m).

(** What a transmission at [now] makes of a due message: its timer is backed
    off when this is a retransmission. *)
Definition resent (cfg : ReliabilityConfig) (now : U64) (m : PendingReliableMessage)
    : PendingReliableMessage :=
  if due now m then mark_sent now (if p_inflight m then time_out cfg m else m) true else m.

(** A callback that accepts every message and records it. *)
Definition log_send (m : PendingReliableMessage) (log : list U64) : Result * list U64 :=
  (success, log ++ [p_message_id m]).

(** The same for what any function of a message records. *)
Definition record_send {Y} (f : PendingReliableMessage → Y) (m : PendingReliableMessage) (log : list Y)
    : Result * list Y := (success, log ++ [f m]).

Lemma resend_loop_log {Y} (f : PendingReliableMessage → Y) cfg now q n l log k :
  (∀ m, f (time_out cfg m) = f m) →
  is_u32 (max_inflight_messages cfg) → 0 <= k → n = k + count_inflight q →
  k + zlen q <= max_inflight_messages cfg →
  ∃ l', resend_loop cfg now (record_send f) q n l log =
    (resent cfg now <$> q, k + count_inflight (resent cfg now <$> q), l',
     log ++ (f <$> filter (λ m, due now m = true) q), success).
Proof.
  intros Hstable Hmax. revert n l log k.
  induction q as [|m q IH]; intros n l log k Hk Hn Hroom; cbn [resend_loop].
  { exists l. csimpl. by rewrite app_nil_r, Hn. }
  simpl in Hn, Hroom. pose proof (count_inflight_nonneg q). pose proof (count_inflight_le q).
  rewrite filter_cons, fmap_cons. cbn [count_inflight foldr]. fold (waiting now m).
  fold (count_inflight (resent cfg now <$> q)).
  destruct (due now m) eqn:Hd.
  - rewrite decide_True by done. rewrite fmap_cons.
    assert (expired now m = false ∧ waiting now m = false) as [-> ->]
      by (unfold due in Hd; by destruct (expired now m), (waiting now m)).
    assert (resent cfg now m =
            mark_sent now (if p_inflight m then time_out cfg m else m) true) as ->
      by (unfold resent; by rewrite Hd).
    assert (∀ n l, n = k + 1 + count_inflight q → ∃ l',
      resend_loop cfg now (record_send f) q n l (log ++ [f m]) =
      (resent cfg now <$> q, k + 1 + count_inflight (resent cfg now <$> q), l',
       log ++ f m :: (f <$> filter (λ m, due now m = true) q), success))
      as Hc.
    { intros n' l1 Hn'. destruct (IH n' l1 (log ++ [f m]) (k + 1)) as [l' ->];
        [lia|lia|lia|]. exists l'. by rewrite <- app_assoc. }
    unfold record_send at 1. change (ok success) with true. cbn [negb].
    destruct (p_inflight m) eqn:Hf; cbn [p_inflight time_out mark_sent];
      rewrite ?Hstable.
    + replace (0 <? n) with true by lia. rewrite (proj2 (Z.leb_gt _ _)) by lia.
      rewrite w32_id by ulia.
      destruct (Hc (n - 1 + 1) (count_loss l)) as [l' ->]; [lia|]. exists l'. by rewrite Z.add_assoc.
    + rewrite (proj2 (Z.leb_gt _ _)) by lia. rewrite Hf, w32_id by ulia.
      destruct (Hc (n + 1) l) as [l' ->]; [lia|]. exists l'. by rewrite Z.add_assoc.
  - rewrite decide_False by done.
    assert (resent cfg now m = m) as -> by (unfold resent; by rewrite Hd).
    destruct (IH n l log (k + if p_inflight m then 1 else 0)) as [l' Hl'];
      [destruct (p_inflight m); lia|lia|destruct (p_inflight m); lia|].
    exists l'. rewrite Hl'.
    unfold due in Hd. destruct (expired now m), (waiting now m); try done;
      by rewrite Z.add_assoc.
Qed.

(** ** Properties *)

(** C24: in every session reachable from a configuration the validator admits,
    by any interleaving of enqueues, acknowledgements, resends with any callback,
    expiries and clears: the in-flight counter is exact and within its limit, the
    queue holds at most [max_pending_messages], ids are unique and below the next
    one, every queued payload is the envelope of its own id, the queue is in
    transmission order (priority, then age), and every timer is between
    [min_rto_ms] and [max_rto_ms].  The byte counter is the number of queued bytes
    modulo [2 ^ 32]; it is that number itself, and within [max_pending_bytes],
    when the budget is at most [U32_MAX - 65543] ([bytes_fit]), which the validator
    does not check. *)
Theorem reliable_session_invariant cfg s :
  usable_config cfg → rs_reachable cfg s →
  rs_inv s ∧
  (bytes_fit (rs_cfg s) →
   rs_pending_bytes s = queue_bytes (rs_pending s) ∧
   queue_bytes (rs_pending s) <= max_pending_bytes (rs_cfg s)).
Proof.
  intros Hc Hr. pose proof (rs_reachable_inv _ _ Hc Hr) as Hinv. split; [done|].
  intros Hfit. split; [by apply ri_bytes_exact|by apply ri_byte_limit].
Qed.

Definition sample_session : ReliableSession :=
  (note_sent 2 40 (enqueue 8 (data_of [9]) 1 SendPriority.High 0 20
    (enqueue 7 (data_of [1; 2]) 2 SendPriority.Normal 500 10
      (configure default_reliability new_reliable_session)).2).2).2.

Lemma default_usable : usable_config default_reliability.
Proof.
  split; [apply (bool_decide_unpack _); vm_compute; exact I|reflexivity].
Defined.

Lemma sample_session_reachable : rs_reachable default_reliability sample_session.
Proof.
  unfold sample_session. eapply ReachStep; [|apply StepNote].
  eapply ReachStep.
  - eapply ReachStep; [apply ReachInit|].
    apply (StepEnqueue _ 7 [1; 2] SendPriority.Normal 500 10);
      [apply (bool_decide_unpack _); vm_compute; exact I..|vm_compute; reflexivity].
  - apply (StepEnqueue _ 8 [9] SendPriority.High 0 20);
      [apply (bool_decide_unpack _); vm_compute; exact I..|vm_compute; reflexivity].
Defined.

Lemma reliable_session_invariant_witness :
  (p_message_id <$> rs_pending sample_session) = [2; 1] ∧ rs_inv sample_session ∧
  rs_pending_bytes sample_session = queue_bytes (rs_pending sample_session) ∧
  queue_bytes (rs_pending sample_session) <= max_pending_bytes default_reliability.
Proof.
  destruct (reliable_session_invariant default_reliability sample_session
    default_usable sample_session_reachable) as [Hinv Hbytes].
  split; [reflexivity|]. split; [exact Hinv|]. apply Hbytes. vm_compute. discriminate.
Defined.

(** [enqueue] has exactly three outcomes: [QueueFull] with nothing changed
    when the message limit is reached or the 32-bit sum exceeds the byte limit; [InvalidArg] for an
    oversized message (its id is consumed); otherwise the message is inserted in
    transmission order under the next id, and its encoded payload reads back as
    that id and those bytes. *)
Theorem enqueue_outcome cfg s t bs prio life now :
  usable_config cfg → rs_reachable cfg s →
  is_u16 (zlen bs) → rs_next_message_id s < U64_MAX →
  enqueue_case t bs prio life now s (enqueue t (data_of bs) (zlen bs) prio life now s) ∧
  ∀ m, (enqueue t (data_of bs) (zlen bs) prio life now s).1 = Done m →
    (read_reliable_payload (reader_at [] (p_encoded_payload m))).1 =
      Done (payload_view (rs_next_message_id s) bs).
Proof.
  intros Hc Hr Hlen Hnext. pose proof (rs_reachable_inv _ _ Hc Hr) as Hinv.
  pose proof (enqueue_cases t bs prio life now s Hinv Hlen Hnext) as Hcase. split; [done|].
  intros m Hm. destruct Hcase as [m'|Hbig|m' Hm' Hfit _ _]; simpl in Hm; simplify_eq.
  simpl. unfold read_reliable_payload. destruct Hinv. by rewrite read_envelope_all by ulia.
Qed.

Lemma enqueue_outcome_witness :
  let s := configure default_reliability new_reliable_session in
  enqueue_case 7 [1; 2] SendPriority.High 0 5 s
    (enqueue 7 (data_of [1; 2]) 2 SendPriority.High 0 5 s).
Proof.
  apply (enqueue_outcome default_reliability (configure default_reliability new_reliable_session)
    7 [1; 2] SendPriority.High 0 5).
  - exact default_usable.
  - apply ReachInit.
  - apply (bool_decide_unpack _); vm_compute; exact I.
  - vm_compute. reflexivity.
Defined.

(** An acknowledgement removes exactly the message it names, frees its
    bytes and its in-flight slot, takes a round-trip sample only from a message
    sent once (so never from a retransmission), and is a no-op for an id that is
    not pending; it never reaches the undefined case of [std::clamp]. *)
Theorem acknowledge_removes cfg s id now :
  usable_config cfg → rs_reachable cfg s →
  match acknowledge id now s with
  | (Done ev, s') =>
      (ev_removed ev = true ↔ id ∈ p_message_id <$> rs_pending s) ∧
      rs_pending s' = filter (λ m, p_message_id m ≠ id) (rs_pending s) ∧
      rs_pending_bytes s' = w32 (queue_bytes (rs_pending s')) ∧
      rs_inflight_count s' = count_inflight (rs_pending s') ∧
      (ev_rtt_sample_valid ev = true →
       ∃ m, m ∈ rs_pending s ∧ p_message_id m = id ∧ p_send_count m = 1 ∧
            ev_rtt_sample_ms ev = now - p_first_send_ms m ∧
            latest_rtt_ms (rs_rtt s') = ev_rtt_sample_ms ev) ∧
      (ev_removed ev = false → s' = s)
  | _ => False
  end.
Proof.
  intros Hc Hr. pose proof (rs_reachable_inv _ _ Hc Hr) as Hinv.
  destruct (acknowledge_inv id now s Hinv) as [Hub Hinv'].
  pose proof (qs_nodup _ _ (ri_shape _ Hinv)) as Hnd.
  assert (∀ s', rs_inv s' → rs_pending_bytes s' = w32 (queue_bytes (rs_pending s')) ∧
                 rs_inflight_count s' = count_inflight (rs_pending s')) as Hcnt
    by (by intros s' []).
  unfold acknowledge in *. destruct (extract id (rs_pending s)) as [[it rest]|] eqn:He.
  - pose proof (extract_filter _ _ _ _ Hnd He) as Hrest.
    apply extract_perm in He as (Hp & _ & Hid).
    assert (it ∈ rs_pending s) as Hin by (rewrite Hp; set_solver).
    cbv zeta in *. destruct (_ && _) eqn:Hs.
    + destruct (update_rtt_ok (rs_cfg s) (now - p_first_send_ms it) (rs_rtt s))
        as (t' & Ht' & _ & Hlat & _); [by apply ri_cfg|]. rewrite Ht' in *.
      apply Hcnt in Hinv' as [Hb Hn]. cbn [snd] in *.
      split_and!; [|exact Hrest|exact Hb|exact Hn| |done].
      * split; [|done]. intros _. apply list_elem_of_fmap. by exists it.
      * intros _. exists it. simpl. split_and!; try done. lia.
    + apply Hcnt in Hinv' as [Hb Hn]. cbn [snd] in *.
      split_and!; [|exact Hrest|exact Hb|exact Hn|done|done].
      split; [|done]. intros _. apply list_elem_of_fmap. by exists it.
  - apply extract_none in He. apply Hcnt in Hinv' as [Hb Hn].
    split_and!; [done|by rewrite filter_other_ids|done|done|done|done].
Qed.

Lemma acknowledge_removes_witness :
  (acknowledge 2 100 sample_session).1 = Done (mkAckEvent true true 60 false) ∧
  match acknowledge 2 100 sample_session with
  | (Done ev, s') =>
      (ev_removed ev = true ↔ 2 ∈ p_message_id <$> rs_pending sample_session) ∧
      rs_pending s' = filter (λ m, p_message_id m ≠ 2) (rs_pending sample_session) ∧
      rs_pending_bytes s' = w32 (queue_bytes (rs_pending s')) ∧
      rs_inflight_count s' = count_inflight (rs_pending s') ∧
      (ev_rtt_sample_valid ev = true →
       ∃ m, m ∈ rs_pending sample_session ∧ p_message_id m = 2 ∧ p_send_count m = 1 ∧
            ev_rtt_sample_ms ev = 100 - p_first_send_ms m ∧
            latest_rtt_ms (rs_rtt s') = ev_rtt_sample_ms ev) ∧
      (ev_removed ev = false → s' = sample_session)
  | _ => False
  end.
Proof.
  split; [vm_compute; reflexivity|].
  exact (acknowledge_removes default_reliability sample_session 2 100
    default_usable sample_session_reachable).
Defined.

(** While the in-flight limit leaves room for the whole queue,
    [resend_due] transmits exactly the due messages (not expired, and not in
    flight with a running timer), in transmission order, once each; each is
    stamped with the current time, counted and put in flight, a retransmission
    doubles its timer within the bounds, and all other messages are untouched. *)
Theorem resend_due_sends_due cfg s now :
  usable_config cfg → rs_reachable cfg s →
  zlen (rs_pending s) <= max_inflight_messages (rs_cfg s) →
  let '(rc, s', log) := resend_due now log_send s [] in
  rc = success ∧
  log = (p_message_id <$> filter (λ m, due now m = true) (rs_pending s)) ∧
  rs_pending s' = (resent (rs_cfg s) now <$> rs_pending s) ∧
  ∀ m, m ∈ rs_pending s → due now m = true → p_inflight m = true →
    p_rto_ms (resent (rs_cfg s) now m) =
      Z.min (max_rto_ms (rs_cfg s)) (Z.max (min_rto_ms (rs_cfg s)) (w64 (p_rto_ms m * 2))).
Proof.
  intros Hc Hr Hroom. pose proof (rs_reachable_inv _ _ Hc Hr) as []. unfold resend_due.
  destruct (resend_loop_log p_message_id (rs_cfg s) now (rs_pending s) (rs_inflight_count s) (rs_loss s) [] 0)
    as [l' Hl']; [done|apply ri_typed0|lia|lia|lia|]. change log_send with (record_send p_message_id).
  rewrite Hl'. split_and!; [done..|]. intros m _ Hd Hf. unfold resent. by rewrite Hd, Hf.
Qed.

Lemma resend_due_sends_due_witness :
  (resend_due 50 log_send sample_session []).2 = [1] ∧
  let '(rc, s', log) := resend_due 50 log_send sample_session [] in
  rc = success ∧
  log = (p_message_id <$> filter (λ m, due 50 m = true) (rs_pending sample_session)) ∧
  rs_pending s' = (resent default_reliability 50 <$> rs_pending sample_session) ∧
  ∀ m, m ∈ rs_pending sample_session → due 50 m = true → p_inflight m = true →
    p_rto_ms (resent default_reliability 50 m) =
      Z.min 2000 (Z.max 40 (w64 (p_rto_ms m * 2))).
Proof.
  split; [vm_compute; reflexivity|].
  apply (resend_due_sends_due default_reliability sample_session 50).
  - exact default_usable.
  - exact sample_session_reachable.
  - vm_compute. discriminate.
Defined.

(** [expire_old] drops exactly the messages whose lifetime has passed,
    keeps the others in order and unchanged, reports how many it dropped, and
    leaves the counters exact. *)
Theorem expire_old_drops_expired cfg s now :
  usable_config cfg → rs_reachable cfg s →
  let '(removed, s') := expire_old now s in
  rs_pending s' = filter (λ m, expired now m = false) (rs_pending s) ∧
  removed = w32 (zlen (rs_pending s) - zlen (rs_pending s')) ∧
  rs_pending_bytes s' = w32 (queue_bytes (rs_pending s')) ∧
  rs_inflight_count s' = count_inflight (rs_pending s').
Proof.
  intros Hc Hr. pose proof (rs_reachable_inv _ _ Hc Hr) as Hinv.
  pose proof (expire_old_spec now s Hinv) as He.
  destruct (expire_old now s) as [removed s']. by destruct He as (? & ? & []).
Qed.

Lemma expire_old_drops_expired_witness :
  (expire_old 510 sample_session).1 = 1 ∧
  let '(removed, s') := expire_old 510 sample_session in
  rs_pending s' = filter (λ m, expired 510 m = false) (rs_pending sample_session) ∧
  removed = w32 (zlen (rs_pending sample_session) - zlen (rs_pending s')) ∧
  rs_pending_bytes s' = w32 (queue_bytes (rs_pending s')) ∧
  rs_inflight_count s' = count_inflight (rs_pending s').
Proof.
  split; [vm_compute; reflexivity|].
  exact (expire_old_drops_expired default_reliability sample_session 510
    default_usable sample_session_reachable).
Defined.

(** The smoothed round-trip time stays between the previous estimate and
    the new sample, and the timer within the configured bounds. *)
Theorem update_rtt_smooths cfg sample t t' :
  reliability_valid cfg → have_rtt t = true →
  0 <= sample < 2 ^ 60 → 0 <= srtt_ms t < 2 ^ 60 →
  update_rtt cfg sample t = Done t' →
  Z.min sample (srtt_ms t) <= srtt_ms t' <= Z.max sample (srtt_ms t) ∧
  min_rto_ms cfg <= rto_ms t' <= max_rto_ms cfg.
Proof.
  intros Hv Hh Hs Ht H. destruct (update_rtt_ok cfg sample t Hv) as (t1 & Ht1 & Hrto & _).
  rewrite H in Ht1. simplify_eq. split; [|exact Hrto].
  unfold update_rtt in H. rewrite Hh in H. cbn [negb] in H.
  destruct (std_clamp _ _ _) as [r| |]; try done. simplify_eq. cbn [srtt_ms].
  rewrite (w64_id (_ * 7)), w64_id by ulia. split.
  - apply Z.div_le_lower_bound; lia.
  - assert ((srtt_ms t * 7 + sample) / 8 <= (Z.max sample (srtt_ms t) * 8) / 8)
      by (apply Z.div_le_mono; lia). rewrite Z.div_mul in * by lia. lia.
Qed.

Lemma update_rtt_smooths_witness :
  Z.min 100 60 <= 65 <= Z.max 100 60 ∧ 40 <= 133 <= 2000.
Proof.
  pose proof (update_rtt_smooths default_reliability 100 (mkRtt true 60 60 10 100)
    (mkRtt true 100 65 17 133)) as H. change (40 <= 133 <= 2000) with
    (min_rto_ms default_reliability <= 133 <= max_rto_ms default_reliability).
  assert (reliability_valid default_reliability) as Hv.
  { apply validate_reliability_sound; [apply (bool_decide_unpack _); vm_compute; exact I
      |reflexivity]. }
  apply H; [exact Hv|reflexivity|simpl; lia|simpl; lia|reflexivity].
Defined.

(** The validator admits a byte budget of [MaxReliableMessageBytes], but a
    message of that size needs eight more bytes: such a session, though empty,
    refuses the largest legal message for ever. *)
Theorem minimal_byte_budget_gap :
  let cfg := mkReliabilityConfig 120 40 2000 256 NetConfig.MaxReliableMessageBytes 32 64 in
  let s := configure cfg new_reliable_session in
  validate_reliability_config cfg = success ∧
  ∀ t bs prio life now, zlen bs = NetConfig.MaxReliableMessageBytes →
    enqueue t (data_of bs) (zlen bs) prio life now s =
      (Err (fail_result Errc.QueueFull "reliable byte budget exhausted"), s).
Proof. split; [reflexivity|]. intros t bs prio life now ->. reflexivity. Qed.

(** The validator admits a byte budget so large that the 32-bit sum of [enqueue]
    wraps: a session whose counter stands at its limit takes another message, and
    its counter starts again near zero. *)
Theorem byte_budget_wraps :
  let cfg := mkReliabilityConfig 120 40 2000 U32_MAX (U32_MAX - 100) 32 64 in
  validate_reliability_config cfg = success ∧
  ∀ s t bs prio life now,
    rs_inv s → rs_cfg s = cfg → rs_pending_bytes s = max_pending_bytes cfg →
    zlen (rs_pending s) < U32_MAX → rs_next_message_id s < U64_MAX → zlen bs = 1000 →
    ∃ m s', enqueue t (data_of bs) (zlen bs) prio life now s = (Done m, s') ∧
      rs_pending_bytes s' = 907 ∧ zlen (rs_pending s') = zlen (rs_pending s) + 1.
Proof.
  intros cfg. split; [reflexivity|]. intros s t bs prio life now Hinv Hcfg Hb Hn Hid Hlen.
  assert (w32 (rs_pending_bytes s + 8 + zlen bs) = 907) as Hw by (rewrite Hb, Hlen; reflexivity).
  destruct (enqueue_cases t bs prio life now s Hinv ltac:(ulia) Hid) as [m [H|H]|Hbig|m Hm Hfit Hc Hby].
  - rewrite Hcfg in H. simpl in H. lia.
  - rewrite Hw, Hcfg in H. by vm_compute in H.
  - by rewrite Hlen in Hbig.
  - do 2 eexists. split; [done|]. simpl. rewrite insert_perm. simpl. split; [exact Hw|lia].
Qed.

(** ** A full window behind a waiting message

    [resend_due] stops at the first message that finds the in-flight limit
    reached.  With a limit of one, a message in flight and a message of higher
    priority whose first packet was lost, nothing is ever sent again: the message
    at the head waits for room, and the one in flight behind it is not looked at,
    whatever time passes. *)
Definition one_in_flight : ReliabilityConfig :=
  mkReliabilityConfig 120 40 2000 1024 65536 1 64.
Definition stuck_session : ReliableSession :=
  (note_sent 2 40 (enqueue 8 (data_of [9]) 1 SendPriority.High 0 40
    (note_sent 1 10 (enqueue 7 (data_of [1; 2]) 2 SendPriority.Normal 0 10
      (configure one_in_flight new_reliable_session)).2).2).2).2.

Theorem resend_stuck now :
  (p_message_id <$> rs_pending stuck_session) = [2; 1] ∧
  let '(rc, s', log) := resend_due now log_send stuck_session [] in
  rc = success ∧ log = [] ∧ rs_pending s' = rs_pending stuck_session.
Proof. split; [reflexivity|]. vm_compute. done. Qed.
