(* ===== verification/Ordered.v ===== *)
(** * Ordered delivery

    [class OrderedReceiveWindow] of
    [src/securecnet/include/securecnet/reliability.hpp]: messages of the
    reliable-ordered channel are handed to the callback in the order of their
    delivery sequence; those that arrive early wait in a bounded buffer. *)
From S2P Require Import Prelude Result ByteBuf Config Message.
#[local] Open Scope Z_scope.

(** [OrderedReceiveWindow::BufferedMessage]. *)
Record BufferedMessage := mkBuffered { bm_type : U8; bm_payload : list U8 }.

Record OrderedReceiveWindow := mkOrdered {
  ow_next_expected : U64;
  ow_max_buffered : U32;
  ow_buffer : gmap U64 BufferedMessage;
}.

Definition new_ordered (max_buffered : U32) : OrderedReceiveWindow :=
  mkOrdered 1 max_buffered ∅.

Definition set_max_buffered (n : U32) (w : OrderedReceiveWindow) : OrderedReceiveWindow :=
  mkOrdered (ow_next_expected w) n (ow_buffer w).

Definition clear_ordered (w : OrderedReceiveWindow) : OrderedReceiveWindow :=
  mkOrdered 1 (ow_max_buffered w) ∅.

(** The result of [accept]: the code, the [buffered] and [stale] flags, the
    window and the state of the callback. *)
Record Accepted (X : Type) := mkAccepted {
  oa_rc : Result;
  oa_buffered : bool;
  oa_stale : bool;
  oa_window : OrderedReceiveWindow;
  oa_state : X;
}.
Arguments mkAccepted {X}.
Arguments oa_rc {X}.
Arguments oa_buffered {X}.
Arguments oa_stale {X}.
Arguments oa_window {X}.
Arguments oa_state {X}.

Section accept.
Context {X : Type} (deliver : U8 → ptr → U16 → X → Result * X).

(** The [for (;;)] loop: release buffered successors.  Every iteration erases
    an entry, so [fuel] greater than the size of the buffer is enough. *)
Fixpoint release (fuel : nat) (w : OrderedReceiveWindow) (x : X)
    : Result * OrderedReceiveWindow * X :=
  match fuel with
  | O => (success, w, x)
  | S fuel' =>
      match ow_buffer w !! ow_next_expected w with
      | None => (success, w, x)
      | Some m =>
          let '(rc, x') := deliver (bm_type m) (data_of (bm_payload m))
                             (w16 (zlen (bm_payload m))) x in
          if negb (ok rc) then (rc, w, x')
          else release fuel'
                 (mkOrdered (w64 (ow_next_expected w + 1)) (ow_max_buffered w)
                    (delete (ow_next_expected w) (ow_buffer w))) x'
      end
  end.

Definition accept_ordered (delivery_sequence : U64) (type : U8) (data : ptr) (len : U16)
    (w0 : OrderedReceiveWindow) (x : X) : Accepted X :=
  if delivery_sequence =? 0
  then mkAccepted (fail_result Errc.BadPacket "ordered sequence must be non-zero")
         false false w0 x
  else
    let w := mkOrdered (if ow_next_expected w0 =? 0 then 1 else ow_next_expected w0)
               (ow_max_buffered w0) (ow_buffer w0) in
    if delivery_sequence <? ow_next_expected w then mkAccepted success false true w x
    else if delivery_sequence =? ow_next_expected w then
      let '(rc, x1) := deliver type data len x in
      if negb (ok rc) then mkAccepted rc false false w x1
      else
        let '(rc, w', x') :=
          release (S (size (ow_buffer w)))
            (mkOrdered (w64 (ow_next_expected w + 1)) (ow_max_buffered w) (ow_buffer w)) x1 in
        mkAccepted rc false false w' x'
    else if bool_decide (is_Some (ow_buffer w !! delivery_sequence))
    then mkAccepted success false true w x
    else if ow_max_buffered w <=? Z.of_nat (size (ow_buffer w))
    then mkAccepted (fail_result Errc.QueueFull "ordered receive buffer is full")
           false false w x
    else
      let entry := mkBuffered type (if 0 <? len then take (Z.to_nat len) (default [] data)
                                    else []) in
      mkAccepted success true false
        (mkOrdered (ow_next_expected w) (ow_max_buffered w)
           (<[delivery_sequence := entry]> (ow_buffer w))) x.
End accept.

(** ** Specification

    The sender numbered its messages [1, 2, ...]; [sent k] is the [k]-th.  A
    packet carrying number [k] carries [sent k]. *)
Section spec.
Context (sent : U64 → U8 * list U8).
Hypothesis Hsent : ∀ k, zlen (sent k).2 <= U16_MAX.

(** The first [n] messages, in order. *)
Definition first_messages (n : nat) : list (U8 * list U8) :=
  (λ k, sent (Z.of_nat k)) <$> seq 1 n.

(** A callback [d] over any state, instrumented with the list of messages it
    took without error. *)
Section logged.
Context {X : Type} (d : U8 → ptr → U16 → X → Result * X).

Definition logged (t : U8) (data : ptr) (len : U16) (s : X * list (U8 * list U8))
    : Result * (X * list (U8 * list U8)) :=
  let '(rc, x') := d t data len s.1 in
  (rc, (x', if ok rc then s.2 ++ [(t, take (Z.to_nat len) (default [] data))] else s.2)).

(** Arrivals, in any order and any number of times. *)
Definition arrive (k : U64) (a : OrderedReceiveWindow * (X * list (U8 * list U8))) :=
  let r := accept_ordered logged k (sent k).1 (data_of (sent k).2) (zlen (sent k).2) a.1 a.2 in
  (oa_window r, oa_state r).

Fixpoint arrive_all (ks : list U64) (a : OrderedReceiveWindow * (X * list (U8 * list U8))) :=
  match ks with
  | [] => a
  | k :: ks => arrive_all ks (arrive k a)
  end.

(** Everything delivered so far is an initial segment of what was sent, and
    the buffer holds only genuine messages, within its limit. *)
Record ordered_inv (a : OrderedReceiveWindow * (X * list (U8 * list U8))) : Prop := {
  oi_next : 1 <= ow_next_expected a.1 <= U64_MAX;
  oi_log : a.2.2 = first_messages (Z.to_nat (ow_next_expected a.1 - 1));
  oi_buffer : ∀ k m, ow_buffer a.1 !! k = Some m → 0 < k < U64_MAX ∧
                (bm_type m, bm_payload m) = sent k;
  oi_limit : Z.of_nat (size (ow_buffer a.1)) <= ow_max_buffered a.1;
}.

Lemma first_messages_S n :
  first_messages (S n) = first_messages n ++ [sent (Z.of_nat n + 1)].
Proof.
  unfold first_messages. rewrite seq_S, fmap_app. cbn [fmap list_fmap].
  by replace (Z.of_nat (1 + n)) with (Z.of_nat n + 1) by lia.
Qed.

Lemma data_of_content bs :
  zlen bs <= U16_MAX → take (Z.to_nat (w16 (zlen bs))) (default [] (data_of bs)) = bs.
Proof.
  intros H. rewrite w16_id by ulia. unfold data_of. case_decide; subst; [done|].
  simpl. by rewrite take_ge by lia.
Qed.

Lemma release_inv fuel w s :
  ordered_inv (w, s) →
  ordered_inv ((release logged fuel w s).1.2, (release logged fuel w s).2).
Proof.
  revert w s. induction fuel as [|fuel IH]; intros w s Hinv; cbn [release]; [done|].
  destruct (ow_buffer w !! ow_next_expected w) as [m|] eqn:Hm; [|done].
  destruct Hinv as [Hn Hl Hb Hlim]. cbn [fst snd] in *.
  destruct (Hb _ _ Hm) as [Hk Hs]. unfold logged at 1 3.
  destruct (d _ _ _ s.1) as [rc x'] eqn:Hd. destruct (ok rc) eqn:Hok; cbn [negb].
  - rewrite w64_id by ulia. apply IH. split; cbn [fst snd ow_next_expected ow_buffer ow_max_buffered].
    + ulia.
    + rewrite Hl. replace (Z.to_nat (ow_next_expected w + 1 - 1))
        with (S (Z.to_nat (ow_next_expected w - 1))) by lia.
      rewrite first_messages_S. do 2 f_equal.
      replace (Z.of_nat (Z.to_nat (ow_next_expected w - 1)) + 1) with (ow_next_expected w) by lia.
      rewrite <- Hs. f_equal. apply data_of_content.
      replace (bm_payload m) with (sent (ow_next_expected w)).2 by (by rewrite <- Hs). apply Hsent.
    + intros k m' [_ H]%lookup_delete_Some. by apply Hb.
    + rewrite map_size_delete_Some by (by eexists). lia.
  - by split.
Qed.

Lemma arrive_inv k a :
  0 < k < U64_MAX → ordered_inv a → ordered_inv (arrive k a).
Proof.
  destruct a as [w s]. intros Hk Hinv. unfold arrive, accept_ordered. cbn [fst snd].
  pose proof Hinv as [Hn Hl Hb Hlim]. cbn [fst snd] in *.
  rewrite (proj2 (Z.eqb_neq k 0)), (proj2 (Z.eqb_neq (ow_next_expected w) 0)) by lia.
  assert (mkOrdered (ow_next_expected w) (ow_max_buffered w) (ow_buffer w) = w) as ->
    by (by destruct w).
  destruct (Z.ltb_spec k (ow_next_expected w)); [done|].
  destruct (Z.eqb_spec k (ow_next_expected w)) as [->|].
  - unfold logged at 1 3. destruct (d _ _ _ s.1) as [rc x'] eqn:Hd.
    destruct (ok rc); cbn [negb]; [|by split].
    rewrite w64_id by ulia.
    pose proof (release_inv (S (size (ow_buffer w)))
      (mkOrdered (ow_next_expected w + 1) (ow_max_buffered w) (ow_buffer w))
      (x', s.2 ++ [((sent (ow_next_expected w)).1,
        take (Z.to_nat (zlen (sent (ow_next_expected w)).2))
          (default [] (data_of (sent (ow_next_expected w)).2)))])) as Hrel.
    destruct (release logged _ _ _) as [[rc' w'] s']. cbn [fst snd oa_window oa_state] in *.
    apply Hrel. split; cbn [fst snd ow_next_expected ow_buffer ow_max_buffered]; [ulia| |done|done].
    rewrite Hl. replace (Z.to_nat (ow_next_expected w + 1 - 1))
      with (S (Z.to_nat (ow_next_expected w - 1))) by lia.
    rewrite first_messages_S.
    replace (Z.of_nat (Z.to_nat (ow_next_expected w - 1)) + 1) with (ow_next_expected w) by lia.
    pose proof (data_of_content (sent (ow_next_expected w)).2 (Hsent _)) as Hc.
    pose proof (Hsent (ow_next_expected w)).
    rewrite w16_id in Hc by ulia. rewrite Hc. by destruct (sent (ow_next_expected w)).
  - case_bool_decide; [done|]. destruct (Z.leb_spec (ow_max_buffered w)
      (Z.of_nat (size (ow_buffer w)))); [done|].
    split; cbn [fst snd oa_window oa_state ow_next_expected ow_buffer ow_max_buffered]; [done|done| |].
    + intros k' m [[<- <-]|[_ Hm]]%lookup_insert_Some; [|by apply Hb]. split; [done|]. cbn.
      pose proof (data_of_content (sent k).2 (Hsent _)) as Hc. pose proof (Hsent k).
      rewrite w16_id in Hc by ulia.
      destruct (Z.ltb_spec 0 (zlen (sent k).2)); [rewrite Hc; by destruct (sent k)|].
      destruct (sent k) as [t [|? ?]]; simpl in *; [done|lia].
    + rewrite map_size_insert_None by (by apply eq_None_not_Some). lia.
Qed.

Lemma arrive_all_inv ks a :
  Forall (λ k, 0 < k < U64_MAX) ks → ordered_inv a → ordered_inv (arrive_all ks a).
Proof.
  intros Hks. revert a. induction Hks as [|k ks Hk _ IH]; intros a Ha; [done|].
  by apply IH, arrive_inv.
Qed.

(** *** Progress, when the callback takes every message *)

Hypothesis Hd : ∀ t data len x, ok (d t data len x).1 = true.

(** Of the numbers [known] up to [n], each is delivered or waits in the buffer,
    and nothing in the buffer could be delivered now. *)
Record progress (n : Z) (known : list U64) (w : OrderedReceiveWindow) : Prop := {
  pr_next : 1 <= ow_next_expected w <= n + 1;
  pr_keys : ∀ k, is_Some (ow_buffer w !! k) → ow_next_expected w < k <= n;
  pr_known : ∀ k, k ∈ known → k < ow_next_expected w ∨ is_Some (ow_buffer w !! k);
}.

Lemma release_progress n known fuel w s :
  n < U64_MAX → (size (ow_buffer w) < fuel)%nat → 1 <= ow_next_expected w <= n + 1 →
  (∀ k, is_Some (ow_buffer w !! k) → ow_next_expected w <= k <= n) →
  (∀ k, k ∈ known → k < ow_next_expected w ∨ is_Some (ow_buffer w !! k)) →
  let '(rc, w', _) := release logged fuel w s in
  rc = success ∧ progress n known w' ∧ ow_max_buffered w' = ow_max_buffered w.
Proof.
  intros Hn. revert w s. induction fuel as [|fuel IH]; intros w s Hfuel Hnext Hkeys Hknown; [lia|].
  cbn [release]. destruct (ow_buffer w !! ow_next_expected w) as [m|] eqn:Hm.
  - unfold logged at 1. specialize (Hd (bm_type m) (data_of (bm_payload m))
      (w16 (zlen (bm_payload m))) s.1). destruct (d _ _ _ s.1) as [rc x']. simpl in Hd.
    rewrite Hd. cbn [negb]. pose proof (Hkeys (ow_next_expected w) (mk_is_Some _ _ Hm)).
    rewrite w64_id by ulia. pose proof (map_size_ne_0_lookup_2 (ow_buffer w) (ow_next_expected w)
      (mk_is_Some _ _ Hm)).
    specialize (IH (mkOrdered (ow_next_expected w + 1) (ow_max_buffered w)
      (delete (ow_next_expected w) (ow_buffer w)))).
    cbn [ow_next_expected ow_buffer ow_max_buffered] in IH. apply IH.
    + rewrite map_size_delete_Some by (by eexists). lia.
    + lia.
    + intros k [x [Hne Hx]%lookup_delete_Some]. pose proof (Hkeys k (mk_is_Some _ _ Hx)). lia.
    + intros k Hk. destruct (decide (k = ow_next_expected w)) as [->|]; [lia|].
      rewrite lookup_delete_ne by done. destruct (Hknown k Hk); [left; lia|auto].
  - split_and!; [done| |done]. split; [done| |done].
    intros k Hk. pose proof (Hkeys k Hk). destruct (decide (k = ow_next_expected w)) as [->|];
      [|lia]. rewrite Hm in Hk. by destruct Hk.
Qed.

Lemma progress_size n known w :
  progress n known w → Z.of_nat (size (ow_buffer w)) <= Z.max 0 (n - ow_next_expected w).
Proof.
  intros [Hn Hk _].
  assert (dom (ow_buffer w) ⊆ (list_to_set (seqZ (ow_next_expected w + 1) (n - ow_next_expected w))
    : gset Z)) as Hsub.
  { intros k [x Hx]%elem_of_dom. apply elem_of_list_to_set, elem_of_seqZ.
    pose proof (Hk k (mk_is_Some _ _ Hx)). lia. }
  apply subseteq_size in Hsub. rewrite size_dom in Hsub.
  rewrite size_list_to_set, length_seqZ in Hsub by apply NoDup_seqZ. lia.
Qed.

(** An arrival is taken, unless the buffer is full. *)
Lemma arrive_step n known k a :
  n < U64_MAX → 1 <= k <= n → progress n known a.1 →
  ow_max_buffered (arrive k a).1 = ow_max_buffered a.1 ∧
  ((progress n (k :: known) (arrive k a).1 ∧
    oa_rc (accept_ordered logged k (sent k).1 (data_of (sent k).2) (zlen (sent k).2) a.1 a.2)
      = success) ∨
   (progress n known (arrive k a).1 ∧ ow_next_expected a.1 < k ∧
    ow_max_buffered a.1 <= Z.of_nat (size (ow_buffer a.1)))).
Proof.
  destruct a as [w s]. cbn [fst snd]. intros Hn Hk Hp. pose proof Hp as [Hnext Hkeys Hknown].
  unfold arrive, accept_ordered. cbn [fst snd].
  rewrite (proj2 (Z.eqb_neq k 0)), (proj2 (Z.eqb_neq (ow_next_expected w) 0)) by lia.
  assert (mkOrdered (ow_next_expected w) (ow_max_buffered w) (ow_buffer w) = w) as ->
    by (by destruct w).
  destruct (Z.ltb_spec k (ow_next_expected w)).
  { split; [done|]. left. split; [|done]. split; [done|done|]. intros k' [->|]%elem_of_cons; auto. }
  destruct (Z.eqb_spec k (ow_next_expected w)) as [->|].
  - unfold logged at 1 3 5. pose proof (Hd (sent (ow_next_expected w)).1
      (data_of (sent (ow_next_expected w)).2) (zlen (sent (ow_next_expected w)).2) s.1) as Hok.
    destruct (d _ _ _ s.1) as [rc x']. simpl in Hok. rewrite Hok. cbn [negb].
    rewrite w64_id by ulia.
    epose proof (release_progress n (ow_next_expected w :: known) (S (size (ow_buffer w)))
      (mkOrdered (ow_next_expected w + 1) (ow_max_buffered w) (ow_buffer w))) as Hrel.
    cbn [ow_next_expected ow_buffer ow_max_buffered] in Hrel.
    specialize (Hrel (x', s.2 ++ [((sent (ow_next_expected w)).1,
        take (Z.to_nat (zlen (sent (ow_next_expected w)).2))
          (default [] (data_of (sent (ow_next_expected w)).2)))])).
    destruct (release logged _ _ _) as [[rc' w'] s']. cbn [fst snd oa_window oa_state oa_rc] in *.
    destruct Hrel as (-> & ? & ?); [lia|lia|lia| | |by auto].
    + intros k' Hk'. pose proof (Hkeys k' Hk'). lia.
    + intros k' [->|Hk']%elem_of_cons; [lia|]. destruct (Hknown k' Hk'); [left; lia|auto].
  - case_bool_decide as Hin.
    { split; [done|]. left. split; [|done]. split; [done|done|]. intros k' [->|]%elem_of_cons; auto. }
    destruct (Z.leb_spec (ow_max_buffered w) (Z.of_nat (size (ow_buffer w)))).
    { split; [done|]. right. split_and!; [done|lia|done]. }
    split; [done|]. left. split; [|done].
    split; cbn [fst oa_window ow_next_expected ow_buffer]; [done| |].
    + intros k' [x [[<- _]|[_ Hx]]%lookup_insert_Some]; [lia|]. apply Hkeys. by eexists.
    + intros k' [->|Hk']%elem_of_cons; [right; rewrite lookup_insert_eq; by eexists|].
      destruct (Hknown k' Hk') as [|Hs]; [auto|]. right. by apply lookup_insert_is_Some'; right.
Qed.

Lemma arrive_progress n known k a :
  n < U64_MAX → n <= ow_max_buffered a.1 → 1 <= k <= n → progress n known a.1 →
  progress n (k :: known) (arrive k a).1 ∧ ow_max_buffered (arrive k a).1 = ow_max_buffered a.1 ∧
  oa_rc (accept_ordered logged k (sent k).1 (data_of (sent k).2) (zlen (sent k).2) a.1 a.2)
    = success.
Proof.
  intros Hn Hmax Hk Hp. pose proof (progress_size _ _ _ Hp). pose proof (pr_next _ _ _ Hp).
  destruct (arrive_step n known k a Hn Hk Hp) as (Hm & [[? ?]|(_ & ? & ?)]); [done|lia].
Qed.

Lemma arrive_all_progress n known ks a :
  n < U64_MAX → n <= ow_max_buffered a.1 → Forall (λ k, 1 <= k <= n) ks →
  progress n known a.1 → progress n (reverse ks ++ known) (arrive_all ks a).1.
Proof.
  intros Hn Hmax Hks. revert known a Hmax. induction Hks as [|k ks Hk _ IH];
    intros known a Hmax Ha; [done|].
  destruct (arrive_progress n known k a Hn Hmax Hk Ha) as (Hp & Hm & _).
  rewrite reverse_cons, <- app_assoc. cbn [arrive_all]. apply IH; [by rewrite Hm|done].
Qed.
End logged.
End spec.

Arguments arrive_all sent {X} d ks a.
Arguments logged {X} d t data len s.

(** C23: ordered, exactly-once delivery.  Whatever the order and the number of
    times packets arrive, and even if the callback sometimes fails, the messages
    the callback took are exactly the first [next_expected - 1] messages that
    were sent, in order, each once; and the buffer stays within its limit. *)
Theorem ordered_delivery_prefix sent {X} (d : U8 → ptr → U16 → X → Result * X)
    (x : X) max ks :
  (∀ k, zlen (sent k).2 <= U16_MAX) → 0 <= max → Forall (λ k, 0 < k < U64_MAX) ks →
  let '(w, (_, log)) := arrive_all sent d ks (new_ordered max, (x, [])) in
  log = first_messages sent (Z.to_nat (ow_next_expected w - 1)) ∧
  1 <= ow_next_expected w ∧ Z.of_nat (size (ow_buffer w)) <= ow_max_buffered w.
Proof.
  intros Hs Hmax Hks.
  pose proof (arrive_all_inv sent Hs d ks (new_ordered max, (x, [])) Hks) as H.
  destruct (arrive_all sent d ks _) as [w [x' log]].
  destruct H as [Hn Hl Hb Hlim]; [|split_and!; [exact Hl|apply Hn|exact Hlim]].
  split; cbn; [ulia|done|by intros k m; rewrite lookup_empty|done].
Qed.

Definition sample_sent (k : U64) : U8 * list U8 := (7, [w8 k; 1]).

(** A callback that refuses every third call. *)
Definition flaky (t : U8) (data : ptr) (len : U16) (n : Z) : Result * Z :=
  (if n mod 3 =? 2 then fail_result Errc.Backpressure "busy" else success, n + 1).

Lemma ordered_delivery_prefix_witness :
  (arrive_all sample_sent flaky [2; 3; 1; 1; 2; 3; 3; 4] (new_ordered 4, (0, []))).2.2 =
    [(7, [1; 1]); (7, [2; 1]); (7, [3; 1]); (7, [4; 1])] ∧
  let '(w, (_, log)) := arrive_all sample_sent flaky [2; 3; 1; 1; 2; 3; 3; 4]
                          (new_ordered 4, (0, [])) in
  log = first_messages sample_sent (Z.to_nat (ow_next_expected w - 1)) ∧
  1 <= ow_next_expected w ∧ Z.of_nat (size (ow_buffer w)) <= ow_max_buffered w.
Proof.
  split; [vm_compute; reflexivity|].
  apply (ordered_delivery_prefix sample_sent flaky 0 4 [2; 3; 1; 1; 2; 3; 3; 4]).
  - intros k. vm_compute. discriminate.
  - lia.
  - apply (bool_decide_unpack _). vm_compute. exact I.
Defined.

(** Ordered delivery is complete: if the first [n] messages all arrive,
    in any order and with any duplicates, [n] is within the receive window and
    the callback takes every message, then all [n] have been delivered, in
    order, and nothing is left in the buffer. *)
Theorem ordered_delivery_complete sent {X} (d : U8 → ptr → U16 → X → Result * X)
    (x : X) max n ks :
  (∀ k, zlen (sent k).2 <= U16_MAX) → (∀ t data len x, ok (d t data len x).1 = true) →
  0 <= n <= max → n < U64_MAX → Forall (λ k, 1 <= k <= n) ks →
  (∀ k, 1 <= k <= n → k ∈ ks) →
  let '(w, (_, log)) := arrive_all sent d ks (new_ordered max, (x, [])) in
  log = first_messages sent (Z.to_nat n) ∧ ow_next_expected w = n + 1 ∧ ow_buffer w = ∅.
Proof.
  intros Hs Hd Hn Hmax Hks Hall.
  pose proof (arrive_all_inv sent Hs d ks (new_ordered max, (x, []))) as H.
  pose proof (arrive_all_progress sent d Hd n [] ks (new_ordered max, (x, []))) as Hp.
  destruct (arrive_all sent d ks _) as [w [x' log]]. cbn [fst snd] in *.
  destruct H as [_ Hl _ _].
  { eapply Forall_impl; [exact Hks|]. simpl. lia. }
  { split; cbn; [ulia|done|by intros k m; rewrite lookup_empty|]. rewrite map_size_empty. lia. }
  destruct Hp as [Hnext Hkeys Hknown]; [done|cbn; lia|done| |].
  { split; cbn; [lia|intros k; rewrite lookup_empty; by intros []|set_solver]. }
  rewrite app_nil_r in Hknown. cbn [fst snd] in *.
  assert (ow_next_expected w = n + 1) as Heq.
  { destruct (decide (ow_next_expected w <= n)); [|lia]. exfalso.
    destruct (Hknown (ow_next_expected w)) as [|Hin%Hkeys]; [|lia|lia].
    apply elem_of_reverse, Hall. lia. }
  split_and!; [|done|].
  - rewrite Hl, Heq. f_equal. lia.
  - apply map_empty. intros k. apply eq_None_not_Some. intros Hk%Hkeys. lia.
Qed.

Definition accept_any (t : U8) (data : ptr) (len : U16) (u : unit) : Result * unit := (success, u).

Lemma ordered_delivery_complete_witness :
  let '(w, (_, log)) := arrive_all sample_sent accept_any [3; 2; 3; 1; 4] (new_ordered 4, (tt, [])) in
  log = first_messages sample_sent 4 ∧ ow_next_expected w = 5 ∧ ow_buffer w = ∅.
Proof.
  apply (ordered_delivery_complete sample_sent accept_any tt 4 4 [3; 2; 3; 1; 4]).
  - intros k. vm_compute. discriminate.
  - reflexivity.
  - lia.
  - reflexivity.
  - apply (bool_decide_unpack _). vm_compute. exact I.
  - intros k Hk. assert (k = 1 ∨ k = 2 ∨ k = 3 ∨ k = 4) as Hc by lia.
    destruct Hc as [->|[->|[->| ->]]]; apply (bool_decide_unpack _); vm_compute; exact I.
Defined.

(** A full receive buffer loses a message for good.  With room for one
    early message, message 3 is refused with [QueueFull]; when nothing sends it
    again, the window stays at 3 although 4 and everything after it arrive. *)
Theorem ordered_overflow_stalls :
  let r3 := accept_ordered (logged accept_any) 3 7 (data_of [3; 1]) 2
              (arrive_all sample_sent accept_any [2] (new_ordered 1, (tt, []))).1 (tt, []) in
  oa_rc r3 = fail_result Errc.QueueFull "ordered receive buffer is full" ∧
  let '(w, (_, log)) := arrive_all sample_sent accept_any [2; 3; 1; 4; 5; 6]
                          (new_ordered 1, (tt, [])) in
  log = first_messages sample_sent 2 ∧ ow_next_expected w = 3.
Proof. vm_compute. done. Qed.
