(* ===== verification/Fragmentation.v ===== *)
(** * Fragmentation and reassembly

    [src/securecnet/include/securecnet/fragmentation.hpp]: how a message that
    does not fit one packet is cut, the fragment format, and the receiver's
    [FragmentReassembler] with its quotas. *)
From S2P Require Import Prelude Result ByteBuf Config Message Payloads.
#[local] Open Scope Z_scope.

Record FragmentView := mkFragment {
  fr_message_id : U64;
  fr_delivery_sequence : U64;
  fr_channel : Channel;
  fr_type : U8;
  fr_index : U16;
  fr_count : U16;
  fr_original_length : U16;
  fr_data : ptr;
  fr_len : U16;
}.

Record FragmentedMessage := mkFragmented {
  fm_message_id : U64;
  fm_delivery_sequence : U64;
  fm_channel : Channel;
  fm_type : U8;
  fm_payload : list U8;
}.

Definition fragment_count_for_length (original_length : U16) : U16 :=
  if original_length =? 0 then 0
  else w16 ((original_length + NetConfig.MaxFragmentDataBytes - 1)
            / NetConfig.MaxFragmentDataBytes).

Definition fragment_size_for_index (original_length fragment_index : U16) : U16 :=
  let count := fragment_count_for_length original_length in
  if (count =? 0) || (count <=? fragment_index) then 0
  else
    let offset := w16 (fragment_index * NetConfig.MaxFragmentDataBytes) in
    let remaining := w16 (original_length - offset) in
    w16 (Z.min remaining (w16 NetConfig.MaxFragmentDataBytes)).

Definition write_fragment_payload (message_id delivery_sequence : U64) (channel : Channel)
    (type : U8) (index count original_length : U16) (data : ptr) (len : U16)
    : io ByteWriter unit :=
  if message_id =? 0
  then fail Errc.InvalidArg "fragment message_id must be non-zero"
  else if negb (channel_is_application channel)
  then fail Errc.InvalidArg "fragment channel must be an application channel"
  else if original_length =? 0
  then fail Errc.InvalidArg "fragment original length is invalid"
  else
    let expected_count := fragment_count_for_length original_length in
    if (count =? 0) || negb (count =? expected_count)
    then fail Errc.InvalidArg "fragment count does not match original length"
    else if count <=? index
    then fail Errc.InvalidArg "fragment index out of range"
    else
      let expected_len := fragment_size_for_index original_length index in
      if negb (len =? expected_len)
      then fail Errc.InvalidArg "fragment length does not match index/original length"
      else if (0 <? len) && bool_decide (data = None)
      then fail Errc.InvalidArg "fragment data is null"
      else
        write_u64 message_id;;
        write_u64 delivery_sequence;;
        write_u8 (channel_value channel);;
        write_u8 type;;
        write_u16 index;;
        write_u16 count;;
        write_u16 original_length;;
        (if 0 <? len then write_bytes data len else mret tt).

Definition read_fragment_payload : io ByteReader FragmentView :=
  r ← get;
  if r_remaining r <? NetConfig.FragmentHeaderBytes
  then fail Errc.BadPacket "fragment payload truncated"
  else
    message_id ← read_u64;
    delivery_sequence ← read_u64;
    raw_channel ← read_u8;
    type ← read_u8;
    index ← read_u16;
    count ← read_u16;
    original_length ← read_u16;
    if (message_id =? 0) || (channel_value Channel.SequencedUnreliable <? raw_channel)
    then fail Errc.BadPacket "fragment metadata is invalid"
    else if (count =? 0) || (count <=? index) || (original_length =? 0)
    then fail Errc.BadPacket "fragment fields are inconsistent"
    else
      let expected_count := fragment_count_for_length original_length in
      if (expected_count =? 0) || negb (count =? expected_count)
      then fail Errc.BadPacket "fragment count does not match original length"
      else
        let expected_len := fragment_size_for_index original_length index in
        if expected_len =? 0
        then fail Errc.BadPacket "fragment index is impossible"
        else
          r ← get;
          if negb (r_remaining r =? expected_len)
          then fail Errc.BadPacket "fragment payload length is invalid"
          else
            let len := w16 (r_remaining r) in
            let view := mkFragment message_id delivery_sequence (channel_of raw_channel) type
                          index count original_length
                          (if len =? 0 then None else peek_ptr len r) len in
            skip_r len;;
            mret view.

(** ** The reassembler *)

Record Entry := mkEntry {
  en_message_id : U64;
  en_delivery_sequence : U64;
  en_channel : Channel;
  en_type : U8;
  en_fragment_count : U16;
  en_original_length : U16;
  en_received_count : U16;
  en_created_ms : U64;
  en_last_update_ms : U64;
  en_payload : list U8;
  en_received : list bool;
}.

Record FragmentReassembler := mkReassembler {
  ra_cfg : FragmentationConfig;
  ra_entries : gmap U64 Entry;
  ra_memory_bytes : U64;
}.

Definition new_reassembler : FragmentReassembler := mkReassembler default_fragmentation ∅ 0.

Definition clear_reassembler (s : FragmentReassembler) : FragmentReassembler :=
  mkReassembler (ra_cfg s) ∅ 0.

Definition configure_reassembler (cfg : FragmentationConfig) (s : FragmentReassembler)
    : FragmentReassembler :=
  clear_reassembler (mkReassembler cfg (ra_entries s) (ra_memory_bytes s)).

Definition contains (id : U64) (s : FragmentReassembler) : bool :=
  bool_decide (is_Some (ra_entries s !! id)).

(** The outcome of [accept] with its [duplicate] and [completed] flags. *)
Record Reassembly (X : Type) := mkReassembly {
  re_rc : outcome unit;
  re_duplicate : bool;
  re_completed : bool;
  re_state : FragmentReassembler;
  re_x : X;
}.
Arguments mkReassembly {X}.
Arguments re_rc {X}.
Arguments re_duplicate {X}.
Arguments re_completed {X}.
Arguments re_state {X}.
Arguments re_x {X}.

(** The entry created for a message's first fragment. *)
Definition new_entry (now : U64) (f : FragmentView) : Entry :=
  mkEntry (fr_message_id f) (fr_delivery_sequence f) (fr_channel f) (fr_type f)
    (fr_count f) (fr_original_length f) 0 now now
    (replicate (Z.to_nat (fr_original_length f)) 0)
    (replicate (Z.to_nat (fr_count f)) false).

Definition metadata_matches (e : Entry) (f : FragmentView) : bool :=
  (en_delivery_sequence e =? fr_delivery_sequence f) &&
  bool_decide (en_channel e = fr_channel f) && (en_type e =? fr_type f) &&
  (en_fragment_count e =? fr_count f) && (en_original_length e =? fr_original_length f).

Definition touch (now : U64) (e : Entry) : Entry :=
  mkEntry (en_message_id e) (en_delivery_sequence e) (en_channel e) (en_type e)
    (en_fragment_count e) (en_original_length e) (en_received_count e) (en_created_ms e)
    now (en_payload e) (en_received e).

(** The [memcpy] into the buffer and the bookkeeping after it. *)
Definition store_fragment (now : U64) (f : FragmentView) (offset : ST) (e : Entry) : Entry :=
  mkEntry (en_message_id e) (en_delivery_sequence e) (en_channel e) (en_type e)
    (en_fragment_count e) (en_original_length e) (w16 (en_received_count e + 1))
    (en_created_ms e) now
    (if 0 <? fr_len f
     then take (Z.to_nat offset) (en_payload e)
          ++ take (Z.to_nat (fr_len f)) (default [] (fr_data f))
          ++ drop (Z.to_nat (offset + fr_len f)) (en_payload e)
     else en_payload e)
    (<[Z.to_nat (fr_index f) := true]> (en_received e)).

Definition message_of (e : Entry) : FragmentedMessage :=
  mkFragmented (en_message_id e) (en_delivery_sequence e) (en_channel e) (en_type e)
    (en_payload e).

Section accept.
Context {X : Type} (on_complete : FragmentedMessage → X → Result * X).

(** The part of [accept] after the entry was found or created. *)
Definition accept_into (now : U64) (f : FragmentView) (e : Entry) (s : FragmentReassembler) (x : X)
    : Reassembly X :=
  let error rc s := mkReassembly (Err rc) false false s x in
  if negb (metadata_matches e f)
  then error (fail_result Errc.BadPacket "fragment set metadata mismatch") s
  else match en_received e !! Z.to_nat (fr_index f) with
  | None => mkReassembly UB false false s x
  | Some true =>
      mkReassembly (Done tt) true false
        (mkReassembler (ra_cfg s) (<[fr_message_id f := touch now e]> (ra_entries s))
           (ra_memory_bytes s)) x
  | Some false =>
      let offset := fr_index f * NetConfig.MaxFragmentDataBytes in
      if zlen (en_payload e) <? offset + fr_len f
      then error (fail_result Errc.BadPacket "fragment exceeds reassembly buffer") s
      else
        let e' := store_fragment now f offset e in
        let s' := mkReassembler (ra_cfg s) (<[fr_message_id f := e']> (ra_entries s))
                    (ra_memory_bytes s) in
        if en_received_count e' =? en_fragment_count e' then
          let '(rc, x') := on_complete (message_of e') x in
          if negb (ok rc) then mkReassembly (Err rc) false false s' x'
          else mkReassembly (Done tt) false true
                 (mkReassembler (ra_cfg s) (delete (fr_message_id f) (ra_entries s'))
                    (w64 (ra_memory_bytes s - en_original_length e'))) x'
        else mkReassembly (Done tt) false false s' x
  end.

Definition accept_fragment (now : U64) (f : FragmentView) (s : FragmentReassembler) (x : X)
    : Reassembly X :=
  let error c m := mkReassembly (Err (fail_result c m)) false false s x in
  if negb (frag_enabled (ra_cfg s))
  then error Errc.StateError "fragmentation disabled"
  else if (max_fragments_per_message (ra_cfg s) <? fr_count f)
          || (max_reassembled_message_bytes (ra_cfg s) <? fr_original_length f)
  then error Errc.TooLarge "fragment exceeds policy"
  else if (fr_count f =? 0) || (fr_count f <=? fr_index f)
  then error Errc.BadPacket "fragment index/count is invalid"
  else if negb (fr_len f =? fragment_size_for_index (fr_original_length f) (fr_index f))
  then error Errc.BadPacket "fragment length is invalid"
  else if (0 <? fr_len f) && bool_decide (fr_data f = None)
  then error Errc.BadPacket "fragment data is null"
  else if negb (channel_is_application (fr_channel f))
  then error Errc.BadPacket "fragment channel is invalid"
  else match ra_entries s !! fr_message_id f with
  | Some e => accept_into now f e s x
  | None =>
      if max_concurrent_reassemblies_per_peer (ra_cfg s) <=? Z.of_nat (size (ra_entries s))
      then error Errc.QueueFull "too many concurrent reassemblies"
      else if max_total_reassembly_memory_per_peer (ra_cfg s)
              <? w64 (ra_memory_bytes s + fr_original_length f)
      then error Errc.QueueFull "reassembly memory quota exceeded"
      else
        let e := new_entry now f in
        accept_into now f e
          (mkReassembler (ra_cfg s) (<[fr_message_id f := e]> (ra_entries s))
             (w64 (ra_memory_bytes s + fr_original_length f))) x
  end.
End accept.

(** [now_ms >= it->second.last_update_ms + _cfg.reassembly_timeout_ms] *)
Definition stale_entry (cfg : FragmentationConfig) (now : U64) (e : Entry) : bool :=
  w64 (en_last_update_ms e + reassembly_timeout_ms cfg) <=? now.

(** [expire_old]: [order] is the order in which the hash map is traversed. *)
Fixpoint expire_entries {X} (now : U64) (on_expire : U64 → X → X) (order : list U64)
    (s : FragmentReassembler) (x : X) : FragmentReassembler * X :=
  match order with
  | [] => (s, x)
  | id :: rest =>
      match ra_entries s !! id with
      | Some e =>
          if stale_entry (ra_cfg s) now e
          then expire_entries now on_expire rest
                 (mkReassembler (ra_cfg s) (delete id (ra_entries s))
                    (w64 (ra_memory_bytes s - en_original_length e))) (on_expire id x)
          else expire_entries now on_expire rest s x
      | None => expire_entries now on_expire rest s x
      end
  end.

(** ** Cutting a message (the loop of [send_fragmented]) *)

(** The bytes [payload.data() + offset] of length [fragment_len]. *)
Definition fragment_slice (payload : list U8) (index : U16) : list U8 :=
  take (Z.to_nat (fragment_size_for_index (zlen payload) index))
    (drop (Z.to_nat (index * NetConfig.MaxFragmentDataBytes)) payload).

Definition fragment_of (id seq : U64) (ch : Channel) (type : U8) (payload : list U8)
    (index : U16) : FragmentView :=
  mkFragment id seq ch type index (fragment_count_for_length (zlen payload)) (zlen payload)
    (data_of (fragment_slice payload index)) (zlen (fragment_slice payload index)).

(** ** Arithmetic of fragment sizes *)

Lemma max_fragment_data : NetConfig.MaxFragmentDataBytes = 1212.
Proof. reflexivity. Qed.

Lemma fragment_count_spec n :
  0 < n <= U16_MAX →
  let c := fragment_count_for_length n in
  0 < c <= 55 ∧ (c - 1) * 1212 < n <= c * 1212.
Proof.
  intros Hn. unfold fragment_count_for_length. rewrite max_fragment_data.
  rewrite (proj2 (Z.eqb_neq n 0)) by lia.
  pose proof (Z.div_mod (n + 1212 - 1) 1212 ltac:(lia)).
  pose proof (Z.mod_pos_bound (n + 1212 - 1) 1212 ltac:(lia)).
  unfold U16_MAX in Hn. rewrite w16_id by (unfold is_u16; lia). cbv zeta. lia.
Qed.

Lemma fragment_size_spec n i :
  0 < n <= U16_MAX → 0 <= i < fragment_count_for_length n →
  fragment_size_for_index n i = Z.min 1212 (n - i * 1212) ∧ 0 < n - i * 1212.
Proof.
  intros Hn Hi. pose proof (fragment_count_spec n Hn) as [Hc1 Hc2].
  unfold fragment_size_for_index. rewrite max_fragment_data. cbv zeta.
  rewrite (proj2 (Z.eqb_neq _ _)), (proj2 (Z.leb_gt _ _)) by lia. cbn [orb].
  assert (0 <= i * 1212 < n) by nia. unfold U16_MAX in Hn. change (w16 1212) with 1212.
  rewrite (w16_id (i * 1212)) by ulia. rewrite (w16_id (n - i * 1212)) by ulia.
  rewrite w16_id by ulia. lia.
Qed.

(** ** Blocks

    A buffer as a sequence of blocks, all of size [B] but possibly the last. *)
Section blocks.
Context {A : Type} (B : nat).

Definition full_blocks (bl : list (list A)) : Prop :=
  ∀ i b, bl !! i = Some b → (S i < length bl)%nat → length b = B.

Lemma full_blocks_cons b bl : full_blocks (b :: bl) → full_blocks bl.
Proof. intros H i b' Hb Hi. apply (H (S i) b' Hb). simpl. lia. Qed.

Lemma mjoin_split bl i b :
  full_blocks bl → bl !! i = Some b →
  take (i * B) (mjoin bl) = mjoin (take i bl) ∧
  drop (i * B) (mjoin bl) = b ++ mjoin (drop (S i) bl).
Proof.
  revert i. induction bl as [|b0 bl IH]; intros i Hf Hb; [done|].
  destruct i as [|i]; simpl in *.
  { simplify_eq. by rewrite drop_0. }
  assert (length b0 = B) as Hl.
  { apply (Hf 0%nat b0); [done|]. simpl. apply lookup_lt_Some in Hb. lia. }
  destruct (IH i (full_blocks_cons _ _ Hf) Hb) as [H1 H2].
  rewrite <- Hl at 1 3. rewrite take_app_add, drop_app_add, H1, H2. done.
Qed.

Lemma mjoin_store bl i b new :
  full_blocks bl → bl !! i = Some b → length new = length b →
  take (i * B) (mjoin bl) ++ new ++ drop (i * B + length new) (mjoin bl) =
    mjoin (<[i := new]> bl).
Proof.
  intros Hf Hb Hlen. destruct (mjoin_split bl i b Hf Hb) as [H1 H2].
  rewrite H1, <- drop_drop, H2, Hlen, drop_app_length.
  rewrite insert_take_drop by (by eapply lookup_lt_Some).
  by rewrite join_app.
Qed.

(** Cutting a list into blocks and joining them gives the list back. *)
Lemma mjoin_cut (l : list A) c :
  (length l <= c * B)%nat → mjoin ((λ i, take B (drop (i * B) l)) <$> seq 0 c) = l.
Proof.
  intros Hl. assert (∀ k, (k <= c)%nat →
    mjoin ((λ i, take B (drop (i * B) l)) <$> seq (c - k) k) = drop ((c - k) * B) l) as H.
  { induction k as [|k IH]; intros Hk; csimpl.
    - rewrite Nat.sub_0_r, drop_ge by lia. done.
    - rewrite <- (take_drop B (drop ((c - S k) * B) l)) at 2. f_equal.
      replace (S (c - S k)) with (c - k)%nat by lia. rewrite IH, drop_drop by lia.
      f_equal. replace (c - k)%nat with (S (c - S k)) by lia. simpl. lia. }
  specialize (H c ltac:(lia)). by rewrite Nat.sub_diag in H.
Qed.
End blocks.

(** ** Entries as partial messages *)

(** What the sender cut: the metadata and the payload of one message. *)
Record Original := mkOriginal {
  or_seq : U64;
  or_channel : Channel;
  or_type : U8;
  or_payload : list U8;
}.

Definition original_ok (o : Original) : Prop :=
  0 < zlen (or_payload o) <= U16_MAX ∧ channel_is_application (or_channel o) = true.

Definition fragment_from (id : U64) (o : Original) (i : nat) : FragmentView :=
  fragment_of id (or_seq o) (or_channel o) (or_type o) (or_payload o) (Z.of_nat i).

Definition fragments (o : Original) : nat :=
  Z.to_nat (fragment_count_for_length (zlen (or_payload o))).

Definition message_from (id : U64) (o : Original) : FragmentedMessage :=
  mkFragmented id (or_seq o) (or_channel o) (or_type o) (or_payload o).

(** The buffer once the fragments flagged in [R] are stored. *)
Definition buffer_blocks (P : list U8) (R : list bool) : list (list U8) :=
  imap (λ i (b : bool), if b then fragment_slice P (Z.of_nat i)
          else replicate (Z.to_nat (fragment_size_for_index (zlen P) (Z.of_nat i))) 0) R.

Definition count_true (R : list bool) : nat := length (filter (λ b, b = true) R).

Section partial.
Context (P : list U8).
Hypothesis HP : 0 < zlen P <= U16_MAX.
#[local] Abbreviation c := (Z.to_nat (fragment_count_for_length (zlen P))).

Lemma slice_length i :
  (i < c)%nat →
  length (fragment_slice P (Z.of_nat i)) =
    Z.to_nat (fragment_size_for_index (zlen P) (Z.of_nat i)).
Proof using HP.
  intros Hi.  unfold fragment_slice. rewrite length_take, length_drop, max_fragment_data.
  pose proof (fragment_size_spec (zlen P) (Z.of_nat i) HP) as [-> ?]; lia.
Qed.

Lemma slice_eq i :
  (i < c)%nat → fragment_slice P (Z.of_nat i) = take 1212 (drop (i * 1212) P).
Proof using HP.
  intros Hi.  unfold fragment_slice. rewrite max_fragment_data.
  pose proof (fragment_size_spec (zlen P) (Z.of_nat i) HP) as [-> ?]; [lia|].
  replace (Z.to_nat (Z.of_nat i * 1212)) with (i * 1212)%nat by lia.
  destruct (Z.min_spec 1212 (zlen P - Z.of_nat i * 1212)) as [[? ->]|[? ->]]; [done|].
  rewrite !take_ge; [done|rewrite length_drop; lia..].
Qed.

Lemma blocks_lookup R i b :
  buffer_blocks P R !! i = Some b → length R = c →
  ∃ f, R !! i = Some f ∧ (i < c)%nat ∧
       length b = Z.to_nat (fragment_size_for_index (zlen P) (Z.of_nat i)).
Proof using HP.
  unfold buffer_blocks. rewrite list_lookup_imap. intros Hb Hlen.
  destruct (R !! i) as [f|] eqn:Hf; simplify_eq/=. exists f.
  apply lookup_lt_Some in Hf as Hlt. split_and!; [done|lia|].
  destruct f; [apply slice_length; lia|apply length_replicate].
Qed.

Lemma blocks_full R : length R = c → full_blocks 1212 (buffer_blocks P R).
Proof using HP.
  intros Hlen i b Hb Hi. destruct (blocks_lookup R i b Hb Hlen) as (f & _ & Hic & ->).
  unfold buffer_blocks in Hi. rewrite length_imap in Hi. 
  pose proof (fragment_count_spec (zlen P) HP) as [? ?].
  pose proof (fragment_size_spec (zlen P) (Z.of_nat i) HP) as [-> ?]; lia.
Qed.

Lemma blocks_store R i :
  length R = c → (i < c)%nat →
  <[i := fragment_slice P (Z.of_nat i)]> (buffer_blocks P R) =
    buffer_blocks P (<[i := true]> R).
Proof.
  intros Hlen Hi. apply list_eq. intros j. unfold buffer_blocks.
  destruct (decide (i = j)) as [<-|Hne].
  - rewrite list_lookup_insert_eq by (rewrite length_imap; lia).
    rewrite list_lookup_imap, list_lookup_insert_eq by lia. done.
  - rewrite list_lookup_insert_ne by done.
    rewrite !list_lookup_imap, list_lookup_insert_ne by done. done.
Qed.

Lemma blocks_complete R :
  length R = c → Forall (λ b, b = true) R → mjoin (buffer_blocks P R) = P.
Proof using HP.
  intros Hlen Hall.
  assert (buffer_blocks P R = (λ i, take 1212 (drop (i * 1212) P)) <$> seq 0 c) as ->.
  { apply list_eq. intros j. unfold buffer_blocks. rewrite list_lookup_imap, list_lookup_fmap.
    destruct (R !! j) as [b|] eqn:Hb.
    - apply lookup_lt_Some in Hb as Hlt. rewrite lookup_seq_lt by lia. simpl.
      eapply Forall_lookup in Hall; [|exact Hb]. simpl in Hall. subst b.
      by rewrite slice_eq by lia.
    - apply lookup_ge_None in Hb. rewrite lookup_seq_ge by lia. done. }
  apply mjoin_cut.  pose proof (fragment_count_spec (zlen P) HP) as [? ?]. lia.
Qed.

Lemma blocks_empty n : mjoin (buffer_blocks P (replicate n false)) =
  replicate (length (mjoin (buffer_blocks P (replicate n false)))) 0.
Proof.
  assert (Forall (λ x, x = 0) (mjoin (buffer_blocks P (replicate n false)))) as H.
  { apply Forall_join, Forall_lookup. intros i b. unfold buffer_blocks.
    rewrite list_lookup_imap. destruct (replicate n false !! i) as [f|] eqn:Hf; [|done].
    apply lookup_replicate in Hf as [-> _]. intros [= <-]. by apply Forall_replicate. }
  symmetry. apply replicate_as_Forall_2; [done|]. eapply Forall_impl; [exact H|]. done.
Qed.

Lemma blocks_length R : length R = c → length (mjoin (buffer_blocks P R)) = length P.
Proof using HP.
  intros Hlen. rewrite <- (blocks_complete (replicate c true)) at 2;
    [|apply length_replicate|by apply Forall_replicate].
  rewrite !length_join. f_equal. apply list_eq. intros j. rewrite !list_lookup_fmap.
  unfold buffer_blocks. rewrite !list_lookup_imap.
  destruct (R !! j) as [b|] eqn:Hb.
  - apply lookup_lt_Some in Hb as Hlt. rewrite lookup_replicate_2 by lia. simpl.
    destruct b; [done|]. by rewrite slice_length, length_replicate by lia.
  - apply lookup_ge_None in Hb. rewrite (lookup_ge_None_2 (replicate _ true)); [done|].
    rewrite length_replicate. lia.
Qed.
End partial.

Lemma count_true_cons b R : count_true (b :: R) = ((if b then 1 else 0) + count_true R)%nat.
Proof. unfold count_true. by destruct b. Qed.

Lemma count_true_insert R i :
  R !! i = Some false → count_true (<[i := true]> R) = S (count_true R).
Proof.
  revert i. induction R as [|b R IH]; intros i Hi; [done|]. destruct i as [|i]; simpl in *.
  - simplify_eq. by rewrite !count_true_cons.
  - rewrite !count_true_cons, IH by done. lia.
Qed.

Lemma count_true_none n : count_true (replicate n false) = 0%nat.
Proof. induction n as [|n IH]; [done|]. simpl. by rewrite count_true_cons, IH. Qed.

Lemma count_true_le R : (count_true R <= length R)%nat.
Proof. unfold count_true. apply length_filter. Qed.

Lemma count_true_full R : count_true R = length R ↔ Forall (λ b, b = true) R.
Proof.
  induction R as [|b R IH]; [done|]. rewrite count_true_cons, Forall_cons, <- IH. simpl.
  pose proof (count_true_le R). destruct b; split; [intros; split; [done|lia]|lia|lia|].
  by intros [? _].
Qed.

(** An entry holds part of the message [o] that was cut under [id]. *)
Record entry_ok (id : U64) (o : Original) (e : Entry) : Prop := {
  eo_id : en_message_id e = id;
  eo_seq : en_delivery_sequence e = or_seq o;
  eo_channel : en_channel e = or_channel o;
  eo_type : en_type e = or_type o;
  eo_count : en_fragment_count e = Z.of_nat (fragments o);
  eo_length : en_original_length e = zlen (or_payload o);
  eo_flags : length (en_received e) = fragments o;
  eo_received : en_received_count e = Z.of_nat (count_true (en_received e));
  eo_payload : en_payload e = mjoin (buffer_blocks (or_payload o) (en_received e));
}.

Lemma fragments_bound o :
  original_ok o →
  fragment_count_for_length (zlen (or_payload o)) = Z.of_nat (fragments o) ∧
  (0 < fragments o <= 55)%nat.
Proof.
  intros [Hlen _]. pose proof (fragment_count_spec _ Hlen) as [? _]. unfold fragments. lia.
Qed.

Lemma new_entry_ok id o i now :
  original_ok o → (i < fragments o)%nat → entry_ok id o (new_entry now (fragment_from id o i)).
Proof.
  intros Ho Hi. pose proof (fragments_bound o Ho) as [Hc _]. destruct Ho as [Hlen _].
  split; try done; simpl.
  - by rewrite length_replicate.
  - by rewrite count_true_none.
  - rewrite Nat2Z.id, blocks_empty. f_equal.
    rewrite blocks_length by (done || by rewrite length_replicate). done.
Qed.

Lemma metadata_ok id o e i :
  original_ok o → entry_ok id o e → metadata_matches e (fragment_from id o i) = true.
Proof.
  intros Ho []. pose proof (fragments_bound o Ho) as [Hc _]. unfold metadata_matches. simpl.
  rewrite eo_seq0, eo_channel0, eo_type0, eo_count0, eo_length0, Hc, !Z.eqb_refl.
  by rewrite bool_decide_eq_true_2.
Qed.

Lemma fragment_from_len id o i :
  original_ok o → (i < fragments o)%nat →
  fr_len (fragment_from id o i) = fragment_size_for_index (zlen (or_payload o)) (Z.of_nat i) ∧
  0 < fr_len (fragment_from id o i) <= 1212 ∧
  Z.of_nat i * 1212 + fr_len (fragment_from id o i) <= zlen (or_payload o).
Proof.
  intros [Hlen _] Hi. simpl. rewrite slice_length by done. unfold fragments in Hi.
  pose proof (fragment_size_spec (zlen (or_payload o)) (Z.of_nat i) Hlen ltac:(lia)) as [-> ?].
  lia.
Qed.

(** Storing a missing fragment. *)
Lemma store_fragment_ok id o e i now :
  original_ok o → entry_ok id o e → (i < fragments o)%nat → en_received e !! i = Some false →
  entry_ok id o (store_fragment now (fragment_from id o i)
    (Z.of_nat i * NetConfig.MaxFragmentDataBytes) e).
Proof.
  intros Ho He Hi Hr. pose proof He as []. pose proof (fragments_bound o Ho) as [_ Hc].
  destruct (fragment_from_len id o i Ho Hi) as (_ & Hlen & _). destruct Ho as [HP _].
  unfold store_fragment. replace (0 <? fr_len (fragment_from id o i)) with true by lia.
  rewrite max_fragment_data. split; simpl; try done.
  - by rewrite length_insert.
  - rewrite Nat2Z.id, count_true_insert, eo_received0 by done.
    pose proof (count_true_le (en_received e)). rewrite w16_id by ulia. lia.
  - rewrite !Nat2Z.id.
    assert (take (length (fragment_slice (or_payload o) (Z.of_nat i)))
      (default [] (data_of (fragment_slice (or_payload o) (Z.of_nat i)))) =
      fragment_slice (or_payload o) (Z.of_nat i)) as ->.
    { unfold data_of. case_decide as Hd; [by rewrite Hd|]. by apply take_ge. }
    destruct (lookup_lt_is_Some_2 (buffer_blocks (or_payload o) (en_received e)) i) as [b Hb].
    { unfold buffer_blocks. rewrite length_imap. lia. }
    destruct (blocks_lookup (or_payload o) HP _ _ _ Hb eo_flags0) as (_ & _ & _ & Hbl).
    rewrite <- blocks_store by done.
    rewrite <- (mjoin_store 1212 _ _ b); [|by apply blocks_full|done|by rewrite slice_length].
    rewrite eo_payload0. repeat f_equal; lia.
Qed.

(** ** The three ways a genuine fragment is taken *)

Definition stored (now : U64) (id : U64) (o : Original) (i : nat) (e : Entry) : Entry :=
  store_fragment now (fragment_from id o i) (Z.of_nat i * NetConfig.MaxFragmentDataBytes) e.

Definition with_entry (s : FragmentReassembler) (id : U64) (e : Entry) : FragmentReassembler :=
  mkReassembler (ra_cfg s) (<[id := e]> (ra_entries s)) (ra_memory_bytes s).

Definition without_entry (s : FragmentReassembler) (id : U64) (len : U16) : FragmentReassembler :=
  mkReassembler (ra_cfg s) (delete id (ra_entries s)) (w64 (ra_memory_bytes s - len)).

Section into.
Context {X : Type} (on_complete : FragmentedMessage → X → Result * X).
Context (id : U64) (o : Original) (i : nat) (e : Entry) (now : U64).
Hypothesis Ho : original_ok o.
Hypothesis He : entry_ok id o e.
Hypothesis Hi : (i < fragments o)%nat.

Lemma accept_into_dup s x :
  en_received e !! i = Some true →
  accept_into on_complete now (fragment_from id o i) e s x =
    mkReassembly (Done tt) true false (with_entry s id (touch now e)) x.
Proof using Ho He.
  intros Hr. unfold accept_into. rewrite (metadata_ok id o e i Ho He). cbn [negb].
  cbn [fr_index fragment_from fragment_of]. by rewrite Nat2Z.id, Hr.
Qed.

Lemma accept_into_new s x :
  en_received e !! i = Some false →
  accept_into on_complete now (fragment_from id o i) e s x =
    if decide (S (count_true (en_received e)) = fragments o) then
      let '(rc, x') := on_complete (message_from id o) x in
      if ok rc then mkReassembly (Done tt) false true
                      (without_entry (with_entry s id (stored now id o i e)) id
                         (zlen (or_payload o))) x'
      else mkReassembly (Err rc) false false (with_entry s id (stored now id o i e)) x'
    else mkReassembly (Done tt) false false (with_entry s id (stored now id o i e)) x.
Proof using Ho He Hi.
  intros Hr. unfold accept_into. rewrite (metadata_ok id o e i Ho He). cbn [negb].
  pose proof (fragment_from_len id o i Ho Hi) as (_ & _ & Hend).
  pose proof (store_fragment_ok id o e i now Ho He Hi Hr) as Hs.
  change (fr_index (fragment_from id o i)) with (Z.of_nat i). rewrite Nat2Z.id, Hr. cbv zeta.
  assert (zlen (en_payload e) = zlen (or_payload o)) as ->.
  { destruct He. rewrite eo_payload0, blocks_length by (done || apply Ho). done. }
  rewrite max_fragment_data in *. rewrite (proj2 (Z.ltb_ge _ _)) by lia.
  change (fr_message_id (fragment_from id o i)) with id.
  fold (stored now id o i e). unfold stored. rewrite max_fragment_data.
  pose proof Hs as []. set (e' := store_fragment _ _ _ e) in *.
  assert (count_true (en_received e') = S (count_true (en_received e))) as Hct.
  { subst e'. cbn [en_received store_fragment]. change (fr_index (fragment_from id o i))
      with (Z.of_nat i). rewrite Nat2Z.id. by apply count_true_insert. }
  rewrite eo_received0, eo_count0, Hct.
  destruct (decide (S (count_true (en_received e)) = fragments o)) as [Hfull|Hpart].
  - rewrite Hfull, Z.eqb_refl.
    assert (message_of e' = message_from id o) as ->.
    { unfold message_of, message_from.
      rewrite eo_id0, eo_seq0, eo_channel0, eo_type0, eo_payload0.
      f_equal. apply blocks_complete; [apply Ho|done|].
      apply count_true_full. by rewrite Hct, Hfull. }
    destruct (on_complete (message_from id o) x) as [rc x']. rewrite eo_length0.
    by destruct (ok rc).
  - rewrite (proj2 (Z.eqb_neq _ _)) by lia. done.
Qed.
End into.

(** ** Quotas *)

Definition entries_bytes (m : gmap U64 Entry) : Z :=
  map_fold (λ _ e n, en_original_length e + n) 0 m.

Lemma entries_bytes_insert m id e :
  m !! id = None → entries_bytes (<[id := e]> m) = en_original_length e + entries_bytes m.
Proof.
  intros H. unfold entries_bytes. rewrite map_fold_insert_L; [done| |done]. intros. lia.
Qed.

Lemma entries_bytes_delete m id e :
  m !! id = Some e → entries_bytes m = en_original_length e + entries_bytes (delete id m).
Proof.
  intros H. rewrite <- (insert_delete_id m id e H) at 1.
  apply entries_bytes_insert. apply lookup_delete_eq.
Qed.

Lemma entries_bytes_update m id e e' :
  m !! id = Some e → en_original_length e' = en_original_length e →
  entries_bytes (<[id := e']> m) = entries_bytes m.
Proof.
  intros H Heq. rewrite (entries_bytes_delete m id e H), <- insert_delete_eq.
  rewrite entries_bytes_insert, Heq by apply lookup_delete_eq. done.
Qed.

Lemma entries_bytes_nonneg m :
  (∀ id e, m !! id = Some e → 0 <= en_original_length e) → 0 <= entries_bytes m.
Proof.
  induction m as [|id e m Hm IH] using map_ind; intros H; [done|].
  rewrite entries_bytes_insert by done.
  pose proof (H id e (lookup_insert_eq _ _ _)).
  assert (0 <= entries_bytes m); [|lia]. apply IH. intros id' e' H'.
  apply (H id'). rewrite lookup_insert_ne; [done|]. intros <-. congruence.
Qed.

(** The reassembler of a peer whose messages are [sent]. *)
Record ra_inv (sent : U64 → Original) (s : FragmentReassembler) : Prop := {
  rv_entries : ∀ id e, ra_entries s !! id = Some e → entry_ok id (sent id) e;
  rv_memory : ra_memory_bytes s = entries_bytes (ra_entries s);
  rv_quota : ra_memory_bytes s <= max_total_reassembly_memory_per_peer (ra_cfg s);
  rv_slots : Z.of_nat (size (ra_entries s)) <= max_concurrent_reassemblies_per_peer (ra_cfg s);
}.

Section inv.
Context (sent : U64 → Original).
Hypothesis Hsent : ∀ id, original_ok (sent id).

Lemma ra_inv_nonneg s : ra_inv sent s → 0 <= ra_memory_bytes s.
Proof.
  intros []. rewrite rv_memory0. apply entries_bytes_nonneg. intros id e He.
  destruct (rv_entries0 id e He). lia.
Qed.

Lemma ra_inv_update s id e e' :
  ra_inv sent s → ra_entries s !! id = Some e → entry_ok id (sent id) e' →
  ra_inv sent (with_entry s id e').
Proof.
  intros [Hen Hmem Hq Hsl] He He'. split; simpl; try done.
  - intros id' e'' [[<- <-]|[_ H]]%lookup_insert_Some; auto.
  - rewrite (entries_bytes_update _ _ e); [done|done|].
    destruct (Hen id e He), He'. congruence.
  - by rewrite map_size_insert_Some by (by eexists).
Qed.

Lemma ra_inv_remove s id e :
  ra_inv sent s → is_u64 (max_total_reassembly_memory_per_peer (ra_cfg s)) →
  ra_entries s !! id = Some e → ra_inv sent (without_entry s id (en_original_length e)).
Proof using Type.
  intros Hinv Hu He. pose proof (ra_inv_nonneg s Hinv). destruct Hinv as [Hen Hmem Hq Hsl].
  pose proof (entries_bytes_delete _ _ _ He) as Hd.
  assert (0 <= entries_bytes (delete id (ra_entries s))).
  { apply entries_bytes_nonneg. intros id' e' [_ H']%lookup_delete_Some.
    destruct (Hen id' e' H'). lia. }
  assert (0 <= en_original_length e) by (destruct (Hen id e He); lia).
  split; simpl.
  - intros id' e' [_ H']%lookup_delete_Some. auto.
  - rewrite w64_id by ulia. lia.
  - rewrite w64_id by ulia. lia.
  - rewrite map_size_delete_Some by (by eexists). lia.
Qed.

(** ** Arrivals of genuine fragments *)

Section arrivals.
Context {X : Type} (d : FragmentedMessage → X → Result * X).

(** The callback, instrumented with the messages it took without error. *)
Definition logged_complete (m : FragmentedMessage) (a : X * list FragmentedMessage)
    : Result * (X * list FragmentedMessage) :=
  let '(rc, x') := d m a.1 in (rc, (x', if ok rc then a.2 ++ [m] else a.2)).

(** What one arrival may do: it completes the message [id], or it does not. *)
Definition arrival_effect (id : U64) (s : FragmentReassembler) (a : X * list FragmentedMessage)
    (r : Reassembly (X * list FragmentedMessage)) : Prop :=
  re_rc r ≠ UB ∧ ra_inv sent (re_state r) ∧ ra_cfg (re_state r) = ra_cfg s ∧
  (if re_completed r then (re_x r).2 = a.2 ++ [message_from id (sent id)]
   else (re_x r).2 = a.2).

Lemma accept_into_effect now id i e s a :
  ra_inv sent s → is_u64 (max_total_reassembly_memory_per_peer (ra_cfg s)) →
  ra_entries s !! id = Some e → (i < fragments (sent id))%nat →
  arrival_effect id s a
    (accept_into logged_complete now (fragment_from id (sent id) i) e s a).
Proof using Hsent.
  intros Hinv Hu He Hi. pose proof (rv_entries _ _ Hinv id e He) as Hok.
  destruct (en_received e !! i) as [[|]|] eqn:Hr.
  - rewrite accept_into_dup by done. split_and!; try done. simpl.
    eapply ra_inv_update; [done|done|]. by destruct Hok.
  - rewrite accept_into_new by done.
    assert (entry_ok id (sent id) (stored now id (sent id) i e)) as Hst
      by (by apply store_fragment_ok).
    pose proof (ra_inv_update s id e _ Hinv He Hst) as Hinv'.
    destruct (decide _); [|by split_and!].
    unfold logged_complete. destruct (d _ a.1) as [rc x']. destruct (ok rc) eqn:Hrc.
    + split_and!; try done. simpl. rewrite <- (eo_length _ _ _ Hst).
      apply ra_inv_remove; [done|done|]. apply lookup_insert_eq.
    + split_and!; done.
  - apply lookup_ge_None in Hr. destruct Hok. lia.
Qed.

Lemma ra_inv_fresh s now id i :
  ra_inv sent s → is_u64 (max_total_reassembly_memory_per_peer (ra_cfg s)) →
  ra_entries s !! id = None → (i < fragments (sent id))%nat →
  Z.of_nat (size (ra_entries s)) < max_concurrent_reassemblies_per_peer (ra_cfg s) →
  w64 (ra_memory_bytes s + zlen (or_payload (sent id)))
    <= max_total_reassembly_memory_per_peer (ra_cfg s) →
  ra_memory_bytes s + zlen (or_payload (sent id)) <= U64_MAX →
  ra_inv sent (mkReassembler (ra_cfg s)
    (<[id := new_entry now (fragment_from id (sent id) i)]> (ra_entries s))
    (w64 (ra_memory_bytes s + zlen (or_payload (sent id))))).
Proof using Hsent.
  intros Hinv Hu Hn Hi Hsl Hq Hmax. pose proof (ra_inv_nonneg s Hinv).
  destruct Hinv as [Hen Hmem _ _]. split; simpl; try done.
  - intros id' e' [[<- <-]|[_ H']]%lookup_insert_Some; [by apply new_entry_ok|auto].
  - rewrite entries_bytes_insert, w64_id by (done || ulia). simpl. lia.
  - rewrite map_size_insert_None by done. lia.
Qed.

Lemma accept_fragment_effect now id i s a :
  ra_inv sent s →
  max_total_reassembly_memory_per_peer (ra_cfg s) <= U64_MAX - U16_MAX →
  (i < fragments (sent id))%nat →
  arrival_effect id s a
    (accept_fragment logged_complete now (fragment_from id (sent id) i) s a).
Proof using Hsent.
  intros Hinv Hu Hi. unfold accept_fragment.
  pose proof (ra_inv_nonneg s Hinv) as Hnn. pose proof (rv_quota _ _ Hinv) as Hq.
  assert (is_u64 (max_total_reassembly_memory_per_peer (ra_cfg s))) as Hu' by ulia.
  assert (∀ c m, arrival_effect id s a
    (mkReassembly (Err (fail_result c m)) false false s a)) as Herr by done.
  repeat match goal with
  | |- arrival_effect _ _ _ (if ?b then mkReassembly (Err _) _ _ _ _ else _) =>
      destruct b; [apply Herr|]
  end.
  change (fr_message_id (fragment_from id (sent id) i)) with id.
  change (fr_original_length (fragment_from id (sent id) i)) with (zlen (or_payload (sent id))).
  destruct (ra_entries s !! id) as [e|] eqn:He; [by apply accept_into_effect|].
  destruct (Z.leb_spec (max_concurrent_reassemblies_per_peer (ra_cfg s))
    (Z.of_nat (size (ra_entries s)))); [apply Herr|].
  destruct (Z.ltb_spec (max_total_reassembly_memory_per_peer (ra_cfg s))
    (w64 (ra_memory_bytes s + zlen (or_payload (sent id))))); [apply Herr|].
  destruct (Hsent id) as [Hlen _].
  cbv zeta. eapply (accept_into_effect _ _ _ _ (mkReassembler _ _ _)).
  - apply ra_inv_fresh; [exact Hinv|exact Hu'|exact He|exact Hi|assumption|assumption|ulia].
  - exact Hu'.
  - apply lookup_insert_eq.
  - exact Hi.
Qed.

Definition arrive_fragment (f : U64 * U64 * nat)
    (a : FragmentReassembler * (X * list FragmentedMessage)) :=
  let '(now, id, i) := f in
  let r := accept_fragment logged_complete now (fragment_from id (sent id) i) a.1 a.2 in
  (re_state r, re_x r).

Definition arrive_fragments (fs : list (U64 * U64 * nat))
    (a : FragmentReassembler * (X * list FragmentedMessage)) := foldl (flip arrive_fragment) a fs.

Definition genuine (f : U64 * U64 * nat) : Prop := (f.2 < fragments (sent f.1.2))%nat.

Lemma arrive_fragments_inv fs s a :
  ra_inv sent s → max_total_reassembly_memory_per_peer (ra_cfg s) <= U64_MAX - U16_MAX →
  Forall genuine fs →
  Forall (λ m, ∃ id, m = message_from id (sent id)) a.2 →
  let '(s', a') := arrive_fragments fs (s, a) in
  ra_inv sent s' ∧ ra_cfg s' = ra_cfg s ∧
  Forall (λ m, ∃ id, m = message_from id (sent id)) a'.2.
Proof using Hsent.
  intros Hinv Hu Hfs Hlog. revert s a Hinv Hu Hlog.
  induction Hfs as [|[[now id] i] fs Hf _ IH]; intros s a Hinv Hu Hlog; [done|].
  destruct (accept_fragment_effect now id i s a Hinv Hu Hf) as (_ & Hinv' & Hcfg & Hl).
  unfold arrive_fragments. cbn [foldl flip arrive_fragment fst snd].
  set (r := accept_fragment _ _ _ s a) in *.
  specialize (IH (re_state r) (re_x r) Hinv'). unfold arrive_fragments in IH.
  rewrite Hcfg in IH. change (let r := r in (re_state r, re_x r)) with (re_state r, re_x r).
  apply IH; [done|]. destruct (re_completed r); rewrite Hl; [|done].
  apply Forall_app. split; [done|]. apply Forall_singleton. by eexists.
Qed.
End arrivals.
End inv.

(** ** Completion of one message *)

(** The receiver's policy admits the message and has room for it. *)
Record admits (s : FragmentReassembler) (o : Original) : Prop := {
  ad_enabled : frag_enabled (ra_cfg s) = true;
  ad_fragments : Z.of_nat (fragments o) <= max_fragments_per_message (ra_cfg s);
  ad_length : zlen (or_payload o) <= max_reassembled_message_bytes (ra_cfg s);
  ad_slots : Z.of_nat (size (ra_entries s)) < max_concurrent_reassemblies_per_peer (ra_cfg s);
  ad_memory : 0 <= ra_memory_bytes s;
  ad_quota : ra_memory_bytes s + zlen (or_payload o)
             <= max_total_reassembly_memory_per_peer (ra_cfg s) <= U64_MAX;
}.

Section completion.
Context {X : Type} (d : FragmentedMessage → X → Result * X).
Context (id : U64) (o : Original) (s0 : FragmentReassembler).
Hypothesis Hd : ∀ x, ok (d (message_from id o) x).1 = true.
Hypothesis Ho : original_ok o.
Hypothesis Hadm : admits s0 o.
Hypothesis Hnew : ra_entries s0 !! id = None.

(** The guards at the top of [accept] let a genuine fragment through. *)
Lemma accept_fragment_guards now i s x :
  ra_cfg s = ra_cfg s0 → (i < fragments o)%nat →
  accept_fragment (logged_complete d) now (fragment_from id o i) s x =
  match ra_entries s !! id with
  | Some e => accept_into (logged_complete d) now (fragment_from id o i) e s x
  | None =>
      if max_concurrent_reassemblies_per_peer (ra_cfg s) <=? Z.of_nat (size (ra_entries s))
      then mkReassembly (Err (fail_result Errc.QueueFull "too many concurrent reassemblies"))
             false false s x
      else if max_total_reassembly_memory_per_peer (ra_cfg s)
              <? w64 (ra_memory_bytes s + zlen (or_payload o))
      then mkReassembly (Err (fail_result Errc.QueueFull "reassembly memory quota exceeded"))
             false false s x
      else
        accept_into (logged_complete d) now (fragment_from id o i)
          (new_entry now (fragment_from id o i))
          (mkReassembler (ra_cfg s) (<[id := new_entry now (fragment_from id o i)]> (ra_entries s))
             (w64 (ra_memory_bytes s + zlen (or_payload o)))) x
  end.
Proof using Ho Hadm.
  intros Hcfg Hi. unfold accept_fragment. destruct Hadm.
  destruct (fragment_from_len id o i Ho Hi) as (Hl & Hp & _).
  pose proof (fragments_bound o Ho) as [Hc Hb]. rewrite Hcfg, ad_enabled0. cbn [negb].
  change (fr_count (fragment_from id o i)) with (fragment_count_for_length (zlen (or_payload o))).
  change (fr_original_length (fragment_from id o i)) with (zlen (or_payload o)).
  change (fr_index (fragment_from id o i)) with (Z.of_nat i). rewrite Hc.
  rewrite (proj2 (Z.ltb_ge _ _) ad_fragments0), (proj2 (Z.ltb_ge _ _) ad_length0). cbn [orb].
  rewrite (proj2 (Z.eqb_neq (Z.of_nat (fragments o)) 0)), (proj2 (Z.leb_gt _ _)) by lia. cbn [orb].
  rewrite Hl at 1. rewrite Z.eqb_refl. cbn [negb].
  change (fr_data (fragment_from id o i)) with (data_of (fragment_slice (or_payload o) (Z.of_nat i))).
  change (fr_len (fragment_from id o i)) with (zlen (fragment_slice (or_payload o) (Z.of_nat i))).
  rewrite data_of_null_guard. change (fr_channel (fragment_from id o i)) with (or_channel o).
  rewrite (proj2 Ho). done.
Qed.

(** The reassembler once the fragments [got] (and no others) have arrived. *)
Definition partial_state (got : list nat) (s : FragmentReassembler) : Prop :=
  if decide (got = []) then s = s0
  else ∃ e, s = mkReassembler (ra_cfg s0) (<[id := e]> (ra_entries s0))
                  (ra_memory_bytes s0 + zlen (or_payload o)) ∧
       entry_ok id o e ∧
       ∀ i, (i < fragments o)%nat → en_received e !! i = Some (bool_decide (i ∈ got)).

Definition all_arrived (got : list nat) : Prop := ∀ i, (i < fragments o)%nat → i ∈ got.

Lemma all_arrived_count got i e :
  entry_ok id o e → (i < fragments o)%nat → i ∉ got →
  (∀ j, (j < fragments o)%nat → en_received e !! j = Some (bool_decide (j ∈ got))) →
  S (count_true (en_received e)) = fragments o ↔ all_arrived (i :: got).
Proof.
  intros [] Hi Hni Hr.
  assert (en_received e !! i = Some false) as Hf by (by rewrite Hr, bool_decide_eq_false_2).
  rewrite <- (count_true_insert _ i Hf), <- eo_flags0.
  rewrite <- (length_insert (en_received e) i true), count_true_full, Forall_lookup.
  unfold all_arrived. split.
  - intros H j Hj. destruct (decide (i = j)) as [->|Hne]; [set_solver|].
    specialize (H j (bool_decide (j ∈ got))). rewrite list_lookup_insert_ne, Hr in H by done.
    specialize (H eq_refl). apply bool_decide_eq_true in H. set_solver.
  - intros H j b. destruct (decide (i = j)) as [->|Hne].
    + rewrite list_lookup_insert_eq by lia. by intros [= <-].
    + rewrite list_lookup_insert_ne by done. intros Hb. pose proof (lookup_lt_Some _ _ _ Hb).
      rewrite Hr in Hb by lia. simplify_eq. apply bool_decide_eq_true_2.
      assert (j ∈ i :: got) by (apply H; lia). set_solver.
Qed.

(** Taking fragment [i] into an entry that holds [got]. *)
Lemma accept_into_partial now i got e s x :
  s = mkReassembler (ra_cfg s0) (<[id := e]> (ra_entries s0))
        (ra_memory_bytes s0 + zlen (or_payload o)) →
  entry_ok id o e → (i < fragments o)%nat →
  (∀ j, (j < fragments o)%nat → en_received e !! j = Some (bool_decide (j ∈ got))) →
  ¬ all_arrived got →
  let r := accept_into (logged_complete d) now (fragment_from id o i) e s x in
  re_rc r = Done tt ∧
  (¬ all_arrived (i :: got) →
     partial_state (i :: got) (re_state r) ∧ (re_x r).2 = x.2 ∧ re_completed r = false) ∧
  (all_arrived (i :: got) →
     re_state r = s0 ∧ (re_x r).2 = x.2 ++ [message_from id o] ∧ re_completed r = true).
Proof using Hd Ho Hadm Hnew.
  intros -> He Hi Hr Hnot. destruct (decide (i ∈ got)) as [Hin|Hnin].
  - rewrite accept_into_dup by (done || by rewrite Hr, bool_decide_eq_true_2). simpl. split_and!; [done| |].
    + intros _. split_and!; [|done|done]. unfold partial_state. rewrite decide_False by done.
      exists (touch now e). split_and!; [unfold with_entry; simpl; by rewrite insert_insert_eq
        |by destruct He|]. intros j Hj. simpl. rewrite Hr by done.
      f_equal. apply bool_decide_ext. set_solver.
    + intros Hall. destruct Hnot. intros j Hj. specialize (Hall j Hj). set_solver.
  - assert (en_received e !! i = Some false) as Hf by (by rewrite Hr, bool_decide_eq_false_2).
    rewrite accept_into_new by done.
    pose proof (all_arrived_count got i e He Hi Hnin Hr) as Hiff.
    pose proof (store_fragment_ok id o e i now Ho He Hi Hf) as Hst.
    destruct (decide _) as [Hfull|Hpart].
    + unfold logged_complete. specialize (Hd x.1).
      destruct (d _ x.1) as [rc x']. simpl in Hd. rewrite Hd. simpl. split_and!; [done| |].
      * intros Hn. by destruct Hn; apply Hiff.
      * intros _. split_and!; [|done|done]. unfold without_entry, with_entry. simpl.
        rewrite insert_insert_eq, delete_insert_id by done.
        destruct Hadm. replace (_ + _ - _) with (ra_memory_bytes s0) by lia.
        rewrite w64_id by ulia. by destruct s0.
    + simpl. split_and!; [done| |].
      * intros _. split_and!; [|done|done]. unfold partial_state. rewrite decide_False by done.
        exists (stored now id o i e).
        split_and!; [unfold with_entry; simpl; by rewrite insert_insert_eq|exact Hst|].
        intros j Hj. cbn [stored store_fragment en_received].
        change (fr_index (fragment_from id o i)) with (Z.of_nat i). rewrite Nat2Z.id.
        destruct He. destruct (decide (i = j)) as [<-|Hne].
        -- rewrite list_lookup_insert_eq by lia. f_equal. symmetry.
           apply bool_decide_eq_true_2. set_solver.
        -- rewrite list_lookup_insert_ne, Hr by done. f_equal. apply bool_decide_ext. set_solver.
      * intros Hall. by apply Hiff in Hall.
Qed.

Lemma accept_fragment_partial now i got s x :
  partial_state got s → (i < fragments o)%nat → ¬ all_arrived got →
  let r := accept_fragment (logged_complete d) now (fragment_from id o i) s x in
  re_rc r = Done tt ∧
  (¬ all_arrived (i :: got) →
     partial_state (i :: got) (re_state r) ∧ (re_x r).2 = x.2 ∧ re_completed r = false) ∧
  (all_arrived (i :: got) →
     re_state r = s0 ∧ (re_x r).2 = x.2 ++ [message_from id o] ∧ re_completed r = true).
Proof using Hd Ho Hadm Hnew.
  intros Hs Hi Hnot. unfold partial_state in Hs. case_decide as Hg.
  - subst got s. rewrite accept_fragment_guards, Hnew by done. pose proof Hadm as [].
    destruct Ho as [Hlen _].
    rewrite w64_id, (proj2 (Z.leb_gt _ _)), (proj2 (Z.ltb_ge _ _)) by ulia.
    pose proof (new_entry_ok id o i now Ho Hi) as He.
    apply accept_into_partial; try done. intros j Hj. pose proof (fragments_bound o Ho) as [Hc _].
    cbn [new_entry en_received]. change (fr_count (fragment_from id o i))
      with (fragment_count_for_length (zlen (or_payload o))). rewrite Hc, Nat2Z.id.
    by rewrite lookup_replicate_2.
  - destruct Hs as (e & Hs & He & Hr). rewrite accept_fragment_guards by (done || by subst s).
    assert (ra_entries s !! id = Some e) as -> by (subst s; apply lookup_insert_eq).
    by apply accept_into_partial.
Qed.

(** The instrumentation does not change what [accept] does. *)
Lemma accept_into_logged now f e s x log :
  let r := accept_into d now f e s x in
  let r' := accept_into (logged_complete d) now f e s (x, log) in
  re_rc r' = re_rc r ∧ re_state r' = re_state r ∧ re_completed r' = re_completed r ∧
  (re_completed r = false → re_rc r = Done tt → re_x r = x) ∧
  (re_completed r = true → ∃ m, (re_x r').2 = log ++ [m] ∧ re_x r = (d m x).2).
Proof.
  unfold accept_into, logged_complete. cbv zeta. destruct (negb (metadata_matches e f)); [done|].
  destruct (en_received e !! _) as [[]|]; [done| |done]. destruct (_ <? _); [done|].
  destruct (_ =? _); [|done]. cbn [fst]. destruct (d _ x) as [rc x'] eqn:Hdx.
  destruct (ok rc) eqn:Hok; cbn [negb]; [|done]. split_and!; [done..|]. intros _. eexists.
  split; [reflexivity|]. by rewrite Hdx.
Qed.
Lemma accept_fragment_logged now f s x log :
  let r := accept_fragment d now f s x in
  let r' := accept_fragment (logged_complete d) now f s (x, log) in
  re_rc r' = re_rc r ∧ re_state r' = re_state r ∧ re_completed r' = re_completed r ∧
  (re_completed r = false → re_rc r = Done tt → re_x r = x) ∧
  (re_completed r = true → ∃ m, (re_x r').2 = log ++ [m] ∧ re_x r = (d m x).2).
Proof.
  unfold accept_fragment. cbv zeta. do 6 (case_match; [done|]).
  case_match; [apply accept_into_logged|]. do 2 (case_match; [done|]). apply accept_into_logged.
Qed.

(** One genuine fragment, on the state of the caller. *)
Lemma accept_fragment_run now i got s x :
  partial_state got s → (i < fragments o)%nat → ¬ all_arrived got →
  let r := accept_fragment d now (fragment_from id o i) s x in
  re_rc r = Done tt ∧
  (¬ all_arrived (i :: got) → partial_state (i :: got) (re_state r) ∧ re_x r = x) ∧
  (all_arrived (i :: got) → re_state r = s0 ∧ re_x r = (d (message_from id o) x).2).
Proof using Hd Ho Hadm Hnew.
  intros Hs Hi Hnot r. destruct (accept_fragment_partial now i got s (x, []) Hs Hi Hnot) as (Hrc & Hpart & Hall).
  destruct (accept_fragment_logged now (fragment_from id o i) s x []) as (E1 & E2 & E3 & E4 & E5).
  rewrite E1 in Hrc. rewrite E2, E3 in Hpart, Hall. split; [exact Hrc|]. split.
  - intros Hn. destruct (Hpart Hn) as (H1 & _ & H3). split; [exact H1|by apply E4].
  - intros Ha. destruct (Hall Ha) as (H1 & H2 & H3). split; [exact H1|].
    destruct (E5 H3) as (m & Hm & Hx). rewrite H2 in Hm. cbn [snd app] in Hm. injection Hm as <-. exact Hx.
Qed.

(** All fragments but one, in any order and with repetitions, then the last. *)
Lemma arrive_partial (pre : list (U64 * nat)) got s x :
  partial_state got s → Forall (λ f, (f.2 < fragments o)%nat) pre →
  ¬ all_arrived (reverse (pre.*2) ++ got) →
  let '(s', x') := arrive_fragments (λ _, o) d ((λ f, (f.1, id, f.2)) <$> pre) (s, x) in
  partial_state (reverse (pre.*2) ++ got) s' ∧ x'.2 = x.2.
Proof using Hd Ho Hadm Hnew.
  intros Hs Hpre. revert got s x Hs.
  induction Hpre as [|[t i] pre Hi _ IH]; intros got s x Hs Hnot; [done|].
  csimpl in *. rewrite reverse_cons, <- app_assoc in Hnot |- *. simpl in Hnot, Hi.
  assert (¬ all_arrived (i :: got) ∧ ¬ all_arrived got) as [Hn1 Hn2].
  { split; intros Ha; apply Hnot; intros j Hj; specialize (Ha j Hj); set_solver. }
  destruct (accept_fragment_partial t i got s x Hs Hi Hn2) as (_ & Hp & _).
  destruct (Hp Hn1) as (Hs' & Hx & _).
  unfold arrive_fragments. cbn [foldl flip arrive_fragment fst snd].
  specialize (IH (i :: got) _ (re_x (accept_fragment (logged_complete d) t
    (fragment_from id o i) s x)) Hs' Hnot).
  unfold arrive_fragments in IH. cbv zeta.
  destruct (foldl _ _ _) as [s'' x'']. destruct IH as [? ->]. done.
Qed.
End completion.

(** ** Wire format *)

Definition enc_fragment (f : FragmentView) (bs : list U8) : list U8 :=
  be 8 (fr_message_id f) ++ be 8 (fr_delivery_sequence f) ++ be 1 (channel_value (fr_channel f)) ++
  be 1 (fr_type f) ++ be 2 (fr_index f) ++ be 2 (fr_count f) ++ be 2 (fr_original_length f) ++ bs.

Definition original_typed (o : Original) : Prop := is_u64 (or_seq o) ∧ is_u8 (or_type o).

Lemma write_fragment_at id o i out rest :
  is_u64 id → id ≠ 0 → original_ok o → original_typed o → (i < fragments o)%nat →
  let f := fragment_from id o i in
  let bs := fragment_slice (or_payload o) (Z.of_nat i) in
  (24 + length bs <= length rest)%nat →
  write_fragment_payload id (fr_delivery_sequence f) (fr_channel f) (fr_type f) (fr_index f)
    (fr_count f) (fr_original_length f) (fr_data f) (fr_len f) (writer_at out rest) =
    (Done tt, writer_at (out ++ enc_fragment f bs) (drop (24 + length bs) rest)).
Proof.
  intros Hid H0 Ho [Ht1 Ht2] Hi f bs Hroom.
  destruct (fragment_from_len id o i Ho Hi) as (Hl & Hp & _).
  pose proof (fragments_bound o Ho) as [Hc Hb]. destruct Ho as [Hlen Hch].
  unfold write_fragment_payload. subst f bs.
  change (fr_channel (fragment_from id o i)) with (or_channel o).
  change (fr_delivery_sequence (fragment_from id o i)) with (or_seq o).
  change (fr_type (fragment_from id o i)) with (or_type o).
  change (fr_index (fragment_from id o i)) with (Z.of_nat i).
  change (fr_count (fragment_from id o i)) with (fragment_count_for_length (zlen (or_payload o))).
  change (fr_original_length (fragment_from id o i)) with (zlen (or_payload o)).
  change (fr_data (fragment_from id o i)) with (data_of (fragment_slice (or_payload o) (Z.of_nat i))).
  change (fr_len (fragment_from id o i)) with (zlen (fragment_slice (or_payload o) (Z.of_nat i))) in *.
  rewrite Hch, (proj2 (Z.eqb_neq id 0) H0), (proj2 (Z.eqb_neq (zlen (or_payload o)) 0)) by lia.
  cbn [negb]. cbv zeta. rewrite Z.eqb_refl, (proj2 (Z.eqb_neq _ 0)), (proj2 (Z.leb_gt _ _)) by lia.
  cbn [negb orb]. rewrite <- Hl, Z.eqb_refl, data_of_null_guard. cbn [negb].
  unfold U16_MAX in Hlen.
  wput. wput. wput; [|auto with scn]. wput. wput; [|unfold is_u16; lia].
  wput; [|unfold is_u16; lia]. wput; [|unfold is_u16; lia].
  rewrite write_data_at; [|done|wire_side].
  unfold enc_fragment. rewrite <- !app_assoc, !drop_drop, !length_be. done.
Qed.

Lemma channel_application_le ch :
  channel_is_application ch = true →
  (channel_value Channel.SequencedUnreliable <? channel_value ch) = false.
Proof. by destruct ch. Qed.

Lemma read_fragment_all id o i pre :
  is_u64 id → id ≠ 0 → original_ok o → original_typed o → (i < fragments o)%nat →
  let f := fragment_from id o i in
  let bs := fragment_slice (or_payload o) (Z.of_nat i) in
  read_fragment_payload (reader_at pre (enc_fragment f bs)) =
    (Done f, reader_at (pre ++ enc_fragment f bs) []).
Proof.
  intros Hid H0 Ho [Ht1 Ht2] Hi f bs.
  destruct (fragment_from_len id o i Ho Hi) as (Hl & Hp & _).
  pose proof (fragments_bound o Ho) as [Hc Hb]. destruct Ho as [Hlen Hch].
  unfold read_fragment_payload. erewrite bind_done by reflexivity. rewrite r_remaining_at.
  unfold enc_fragment. rewrite !length_app, !length_be, (proj2 (Z.ltb_ge _ _))
    by (change NetConfig.FragmentHeaderBytes with 24; lia).
  subst f bs. cbn [fr_message_id fr_delivery_sequence fr_channel fr_type fr_index fr_count
    fr_original_length fragment_from fragment_of].
  change (fr_len (fragment_from id o i)) with (zlen (fragment_slice (or_payload o) (Z.of_nat i))) in *.
  unfold U16_MAX in Hlen. wget. wget. wget; [|auto with scn]. wget.
  wget; [|unfold is_u16; lia]. wget; [|unfold is_u16; lia]. wget; [|unfold is_u16; lia].
  rewrite (proj2 (Z.eqb_neq id 0) H0), channel_application_le by done. cbn [orb].
  rewrite (proj2 (Z.eqb_neq _ 0)), (proj2 (Z.leb_gt _ _)),
    (proj2 (Z.eqb_neq (zlen (or_payload o)) 0)) by lia.
  cbn [orb]. cbv zeta. rewrite Z.eqb_refl. cbn [negb].
  rewrite <- Hl, (proj2 (Z.eqb_neq (zlen (fragment_slice _ _)) 0)) by lia.
  erewrite bind_done by reflexivity. rewrite r_remaining_at, Z.eqb_refl. cbn [negb].
  rewrite w16_id by ulia. rewrite peek_data_all. erewrite bind_done by apply skip_all.
  rewrite channel_of_value, <- !app_assoc. done.
Qed.

#[global] Instance read_fragment_safe : ReaderSafe read_fragment_payload.
Proof.
  unfold read_fragment_payload. apply reader_safe_get. intros r0.
  apply reader_safe_if; [apply _|]. do 7 (apply reader_safe_bind; [apply _|]; intros ?).
  cbv zeta. do 4 (apply reader_safe_if; [apply _|]).
  apply reader_safe_get. intros r. apply reader_safe_if; [apply _|].
  apply reader_safe_bind; [|apply _]. apply skip_r_safe, w16_range.
Qed.

(** ** Properties *)

(** Every fragment of every legal message survives the wire: what
    [send_fragmented] writes is read back by [read_fragment_payload] as the same
    metadata and the same slice; and reading any bytes stays in bounds. *)
Theorem fragment_roundtrip id o i room bs' :
  is_u64 id → id ≠ 0 → original_ok o → original_typed o → (i < fragments o)%nat →
  NetConfig.MaxMessageBytes <= zlen room →
  let f := fragment_from id o i in
  (∃ w, write_fragment_payload id (fr_delivery_sequence f) (fr_channel f) (fr_type f)
          (fr_index f) (fr_count f) (fr_original_length f) (fr_data f) (fr_len f)
          (writer_at [] room) = (Done tt, w) ∧
        (read_fragment_payload (reader_at [] (written w))).1 = Done f) ∧
  (read_fragment_payload (reader_at [] bs')).1 ≠ UB.
Proof.
  intros Hid H0 Ho Ht Hi Hroom f. split; [|apply reader_safe, reader_wf_at].
  destruct (fragment_from_len id o i Ho Hi) as (_ & Hp & _).
  change NetConfig.MaxMessageBytes with 1252 in Hroom.
  change (fr_len (fragment_from id o i)) with
    (zlen (fragment_slice (or_payload o) (Z.of_nat i))) in Hp.
  eexists. split; [apply write_fragment_at; try done; lia|].
  rewrite written_at. by rewrite (read_fragment_all id o i).
Qed.

Definition sample_original : Original :=
  mkOriginal 4 Channel.ReliableOrdered 9 ((Z.of_nat <$> seq 0 100) ++ replicate 1300 7).

Lemma sample_original_ok : original_ok sample_original ∧ original_typed sample_original.
Proof.
  split; split; try (vm_compute; reflexivity); split; vm_compute; congruence.
Defined.

Lemma fragment_roundtrip_witness :
  fragments sample_original = 2%nat ∧
  (read_fragment_payload (reader_at [] [1; 2; 3])).1 ≠ UB.
Proof.
  split; [vm_compute; reflexivity|].
  destruct sample_original_ok as [H1 H2].
  apply (fragment_roundtrip 77 sample_original 1 (replicate 1252 0) [1; 2; 3]);
    [split; lia|lia|exact H1|exact H2|vm_compute; lia|vm_compute; discriminate].
Defined.

(** C27: reassembly delivers only what was sent, within its quotas.  For any
    interleaving, order and repetition of genuine fragments of any number of
    messages, and any callback: every message handed over is exactly one that
    was sent, the memory counter is the sum over the open entries and stays
    within the byte quota, and the number of open entries within its limit. *)
Theorem reassembly_genuine sent {X} (d : FragmentedMessage → X → Result * X) cfg fs (x : X) :
  (∀ id, original_ok (sent id)) → fragmentation_typed cfg →
  max_total_reassembly_memory_per_peer cfg <= U64_MAX - U16_MAX →
  Forall (genuine sent) fs →
  let '(s, (_, log)) :=
    arrive_fragments sent d fs (configure_reassembler cfg new_reassembler, (x, [])) in
  Forall (λ m, ∃ id, m = message_from id (sent id)) log ∧
  ra_memory_bytes s = entries_bytes (ra_entries s) ∧
  ra_memory_bytes s <= max_total_reassembly_memory_per_peer cfg ∧
  Z.of_nat (size (ra_entries s)) <= max_concurrent_reassemblies_per_peer cfg.
Proof.
  intros Hs Ht Hu Hfs.
  pose proof (arrive_fragments_inv sent Hs d fs
    (configure_reassembler cfg new_reassembler) (x, [])) as H.
  destruct (arrive_fragments _ _ _ _) as [s [x' log]]. destruct H as (Hinv & Hcfg & Hlog); try done.
  - destruct Ht as (_ & _ & Hc & Hm & _). split; cbn; [by intros id e; rewrite lookup_empty|done
      |ulia|]. rewrite map_size_empty. ulia.
  - cbn in Hcfg. destruct Hinv. rewrite Hcfg in *. done.
Qed.

Definition take_any (m : FragmentedMessage) (u : unit) : Result * unit := (success, u).

Lemma reassembly_genuine_witness :
  let '(s, (_, log)) :=
    arrive_fragments (λ _, sample_original) take_any
      [(1, 5, 1%nat); (2, 6, 0%nat); (3, 5, 1%nat); (4, 5, 0%nat)]
      (configure_reassembler default_fragmentation new_reassembler, (tt, [])) in
  Forall (λ m, ∃ id, m = message_from id sample_original) log ∧
  ra_memory_bytes s = entries_bytes (ra_entries s) ∧
  ra_memory_bytes s <= max_total_reassembly_memory_per_peer default_fragmentation ∧
  Z.of_nat (size (ra_entries s)) <= max_concurrent_reassemblies_per_peer default_fragmentation.
Proof.
  apply (reassembly_genuine (λ _, sample_original) take_any default_fragmentation
    [(1, 5, 1%nat); (2, 6, 0%nat); (3, 5, 1%nat); (4, 5, 0%nat)] tt).
  - intros _. exact (proj1 sample_original_ok).
  - apply (bool_decide_unpack _). vm_compute. exact I.
  - vm_compute. discriminate.
  - repeat constructor; vm_compute; lia.
Defined.

(** C26: reassembly is complete and order-independent.  If the policy admits
    the message, then whatever the order of its fragments and however often they
    repeat before the last missing one, the arrival of the last one hands over
    the original message, byte for byte, exactly once, and leaves the
    reassembler as it was before the message. *)
Theorem reassembly_complete {X} (d : FragmentedMessage → X → Result * X) id o s0
    (pre : list (U64 * nat)) t i (x : X) log :
  (∀ m x, ok (d m x).1 = true) → original_ok o → admits s0 o → ra_entries s0 !! id = None →
  Forall (λ f, (f.2 < fragments o)%nat) (pre ++ [(t, i)]) →
  (∀ j, (j < fragments o)%nat → j ∈ (pre ++ [(t, i)]).*2) → i ∉ pre.*2 →
  let '(s', (_, log')) :=
    arrive_fragments (λ _, o) d ((λ f, (f.1, id, f.2)) <$> pre ++ [(t, i)]) (s0, (x, log)) in
  log' = log ++ [message_from id o] ∧ s' = s0.
Proof.
  intros Hd Ho Hadm Hnew Hall Hcov Hi. apply Forall_app in Hall as [Hpre Hlast].
  rewrite Forall_singleton in Hlast. simpl in Hlast.
  assert (¬ all_arrived o (reverse (pre.*2))) as Hnot.
  { intros Ha. apply Hi, elem_of_reverse, Ha. done. }
  pose proof (arrive_partial d id o s0 (Hd _) Ho Hadm Hnew pre [] s0 (x, log)) as Hp.
  rewrite !app_nil_r in Hp. unfold arrive_fragments in *. rewrite fmap_app, foldl_app.
  destruct (foldl _ (s0, (x, log)) _) as [s1 x1]. destruct Hp as [Hs1 Hx1]; [done..|].
  cbn [fmap list_fmap foldl flip arrive_fragment fst snd].
  destruct (accept_fragment_partial d id o s0 (Hd _) Ho Hadm Hnew t i _ s1 x1 Hs1 Hlast Hnot)
    as (_ & _ & Hdone).
  destruct Hdone as (Hs & Hl & _).
  { intros j Hj. specialize (Hcov j Hj). rewrite fmap_app in Hcov. simpl in Hcov.
    rewrite elem_of_cons, elem_of_reverse. set_solver. }
  cbv zeta. destruct (re_x _) as [x' log'] eqn:Hx. cbn [fst snd] in Hl. rewrite Hl, Hx1. done.
Qed.

Lemma reassembly_complete_witness :
  let s0 := configure_reassembler default_fragmentation new_reassembler in
  let '(s', (_, log')) :=
    arrive_fragments (λ _, sample_original) take_any
      ((λ f, (f.1, 5, f.2)) <$> [(1, 1%nat); (2, 1%nat)] ++ [(3, 0%nat)]) (s0, (tt, [])) in
  log' = [] ++ [message_from 5 sample_original] ∧ s' = s0.
Proof.
  apply (reassembly_complete take_any 5 sample_original
    (configure_reassembler default_fragmentation new_reassembler) [(1, 1%nat); (2, 1%nat)] 3 0 tt []).
  - reflexivity.
  - exact (proj1 sample_original_ok).
  - split; vm_compute; try reflexivity; try discriminate. split; discriminate.
  - apply lookup_empty.
  - repeat constructor; vm_compute; lia.
  - intros j Hj. assert (fragments sample_original = 2%nat) as Hf by (vm_compute; reflexivity).
    rewrite Hf in Hj. assert (j = 0%nat ∨ j = 1%nat) as Hc by lia.
    destruct Hc as [->| ->]; apply (bool_decide_unpack _); vm_compute; exact I.
  - apply (bool_decide_unpack _). vm_compute. exact I.
Defined.

Lemma expire_entries_spec {X} sent now (on_expire : U64 → X → X) order s x :
  ra_inv sent s → is_u64 (max_total_reassembly_memory_per_peer (ra_cfg s)) →
  let '(s', _) := expire_entries now on_expire order s x in
  ra_inv sent s' ∧ ra_cfg s' = ra_cfg s ∧
  ra_entries s' = filter (λ '(id, e), ¬ (id ∈ order ∧ stale_entry (ra_cfg s) now e = true))
                    (ra_entries s).
Proof.
  revert s x. induction order as [|id order IH]; intros s x Hinv Hu; cbn [expire_entries].
  { split_and!; [done|done|]. symmetry. apply map_filter_id. set_solver. }
  assert (∀ s1, ra_cfg s1 = ra_cfg s →
    (∀ id' e, ra_entries s1 !! id' = Some e ↔
       ra_entries s !! id' = Some e ∧ ¬ (id' = id ∧ stale_entry (ra_cfg s) now e = true)) →
    filter (λ '(id, e), ¬ (id ∈ order ∧ stale_entry (ra_cfg s) now e = true)) (ra_entries s1) =
    filter (λ '(id0, e), ¬ (id0 ∈ id :: order ∧ stale_entry (ra_cfg s) now e = true))
      (ra_entries s)) as Heq.
  { intros s1 _ H1. apply map_eq. intros id'. apply option_eq. intros e.
    rewrite !map_lookup_filter_Some, H1, elem_of_cons. tauto. }
  destruct (ra_entries s !! id) as [e|] eqn:He.
  - destruct (stale_entry (ra_cfg s) now e) eqn:Hst.
    + specialize (IH (without_entry s id (en_original_length e)) (on_expire id x)
        (ra_inv_remove sent s id e Hinv Hu He) Hu).
      unfold without_entry in IH. destruct (expire_entries _ _ _ _ _) as [s' x'].
      destruct IH as (? & ? & ->). split_and!; [done|done|]. apply Heq; [done|].
      intros id' e'. cbn. rewrite lookup_delete_Some. split; [naive_solver|].
      intros [H1 H2]. split; [|done]. intros <-. apply H2. by simplify_eq.
    + specialize (IH s x Hinv Hu). destruct (expire_entries _ _ _ _ _) as [s' x'].
      destruct IH as (? & ? & ->). split_and!; [done|done|]. apply Heq; [done|].
      intros id' e'. split; [|naive_solver]. intros Hid'. split; [done|]. intros [-> ?]. congruence.
  - specialize (IH s x Hinv Hu). destruct (expire_entries _ _ _ _ _) as [s' x'].
    destruct IH as (? & ? & ->). split_and!; [done|done|]. apply Heq; [done|].
    intros id' e'. split; [|naive_solver]. intros Hid'. split; [done|]. intros [-> ?]. congruence.
Qed.

(** [expire_old] frees exactly the reassemblies that timed out, in
    whatever order the hash map is traversed, and the memory counter follows. *)
Theorem reassembly_expire {X} sent now (on_expire : U64 → X → X) order s x :
  ra_inv sent s → is_u64 (max_total_reassembly_memory_per_peer (ra_cfg s)) →
  (∀ id, is_Some (ra_entries s !! id) → id ∈ order) →
  let '(s', _) := expire_entries now on_expire order s x in
  ra_entries s' = filter (λ '(_, e), stale_entry (ra_cfg s) now e = false) (ra_entries s) ∧
  ra_memory_bytes s' = entries_bytes (ra_entries s').
Proof.
  intros Hinv Hu Hord. pose proof (expire_entries_spec sent now on_expire order s x Hinv Hu) as H.
  destruct (expire_entries _ _ _ _ _) as [s' x']. destruct H as ([] & _ & He).
  split; [|done]. rewrite He. apply map_eq. intros id. apply option_eq. intros e.
  rewrite !map_lookup_filter_Some. split.
  - intros [H1 H2]. split; [done|]. apply not_true_is_false. intros Hst. apply H2.
    split; [|done]. apply Hord. by eexists.
  - intros [H1 H2]. split; [done|]. intros [_ Hst]. congruence.
Qed.

(** A reassembler that holds a fragment of message 5, started at time 1, and
    one of message 6, started at time 9000. *)
Definition half_done : FragmentReassembler :=
  (arrive_fragments (λ _, sample_original) take_any [(1, 5, 1%nat); (9000, 6, 0%nat)]
     (configure_reassembler default_fragmentation new_reassembler, (tt, []))).1.

Lemma half_done_inv : ra_inv (λ _, sample_original) half_done.
Proof.
  pose proof (arrive_fragments_inv (λ _, sample_original) (λ _, proj1 sample_original_ok) take_any
    [(1, 5, 1%nat); (9000, 6, 0%nat)] (configure_reassembler default_fragmentation new_reassembler)
    (tt, [])) as H.
  unfold half_done. destruct (arrive_fragments _ _ _ _) as [s' a']. apply H.
  - split; cbn; [by intros id e; rewrite lookup_empty|done|lia|rewrite map_size_empty; lia].
  - vm_compute. discriminate.
  - repeat constructor; vm_compute; lia.
  - constructor.
Qed.

Lemma reassembly_expire_witness :
  let '(s', _) := expire_entries 9500 (λ _ n, n + 1) [6; 5] half_done 0 in
  ra_entries s' = filter (λ '(_, e), stale_entry (ra_cfg half_done) 9500 e = false) (ra_entries half_done) ∧
  ra_memory_bytes s' = entries_bytes (ra_entries s').
Proof.
  apply (reassembly_expire (λ _, sample_original) 9500 (λ _ n, n + 1) [6; 5] half_done 0).
  - apply half_done_inv.
  - vm_compute. split; congruence.
  - assert (Forall (λ p, p.1 ∈ [6; 5]) (map_to_list (ra_entries half_done))) as Hall
      by (apply (bool_decide_unpack _); vm_compute; exact I).
    intros id [e He]. rewrite Forall_forall in Hall. by apply (Hall (id, e)), elem_of_map_to_list.
Defined.

(** The stale one is dropped, the other kept. *)
Example half_done_expires :
  let '(s', n) := expire_entries 9500 (λ _ n, n + 1) [6; 5] half_done 0 in
  n = 1 ∧ contains 5 s' = false ∧ contains 6 s' = true.
Proof. vm_compute. done. Qed.

(** A callback that fails on its first call only. *)
Definition fail_once (m : FragmentedMessage) (n : Z) : Result * Z :=
  (if n =? 0 then fail_result Errc.Backpressure "busy" else success, n + 1).

(** A callback error wedges the message.  When the callback refuses the
    completed message, its entry stays, complete; any later copy of a fragment
    is only reported as a duplicate, so the message is never handed over. *)
Theorem reassembly_wedged_by_error :
  let o := mkOriginal 0 Channel.Reliable 9 (replicate 100 7) in
  let s0 := configure_reassembler default_fragmentation new_reassembler in
  let r1 := accept_fragment fail_once 1 (fragment_from 5 o 0) s0 0 in
  let r2 := accept_fragment fail_once 2 (fragment_from 5 o 0) (re_state r1) (re_x r1) in
  re_rc r1 = Err (fail_result Errc.Backpressure "busy") ∧
  re_rc r2 = Done tt ∧ re_duplicate r2 = true ∧ re_completed r2 = false ∧
  contains 5 (re_state r2) = true.
Proof. vm_compute. done. Qed.

(** A validated configuration lets every message through that it allows:
    the fragment count of any message up to [max_reassembled_message_bytes] is
    within [max_fragments_per_message], so the sender's and the receiver's
    fragment-count checks never refuse it. *)
Theorem validated_fragment_count cfg len :
  fragmentation_typed cfg → frag_enabled cfg = true →
  validate_fragmentation_config cfg = success →
  0 < len <= max_reassembled_message_bytes cfg →
  0 < fragment_count_for_length len <= max_fragments_per_message cfg ∧
  (∀ i, 0 <= i < fragment_count_for_length len →
     0 < fragment_size_for_index len i <= NetConfig.MaxFragmentDataBytes).
Proof.
  intros Ht He Hv Hlen. destruct (validate_fragmentation_sound cfg Ht He Hv).
  assert (0 < len <= U16_MAX) as Hu by (unfold U16_MAX; lia).
  pose proof (fragment_count_spec len Hu) as [H1 H2]. rewrite max_fragment_data in *.
  split; [nia|]. intros i Hi. destruct (fragment_size_spec len i Hu Hi) as [-> ?]. lia.
Qed.

Lemma validated_fragment_count_witness :
  0 < fragment_count_for_length 16384 <= max_fragments_per_message default_fragmentation.
Proof.
  apply (validated_fragment_count default_fragmentation 16384);
    [apply (bool_decide_unpack _); vm_compute; exact I|reflexivity|reflexivity
    |split; vm_compute; congruence].
Defined.
