(* ===== verification/Congestion.v ===== *)
(** * Congestion control

    [src/securecnet/include/securecnet/congestion_control.hpp]: the
    additive-increase, multiplicative-decrease rate controller and its window. *)
From S2P Require Import Prelude Result Config.
#[local] Open Scope Z_scope.

Record CongestionController := mkCongestion {
  cc_cfg : CongestionControlConfig;
  cc_configured_send_rate : U64;
  cc_current_rate : U64;
  cc_current_window : U64;
  cc_latest_rtt_ms : U64;
  cc_smoothed_rtt_ms : U64;
  cc_last_loss_ms : U64;
  cc_last_backpressure_ms : U64;
  cc_ack_events : U64;
  cc_loss_events : U64;
  cc_backpressure_events : U64;
}.

Definition new_congestion : CongestionController :=
  mkCongestion default_congestion 1 1 (NetConfig.MaxPacketBytes * 4) 0 100 0 0 0 0 0.

Definition configured_max_rate (c : CongestionController) : U64 :=
  if negb (cong_enabled (cc_cfg c)) then cc_configured_send_rate c
  else if max_rate_bytes_per_second (cc_cfg c) =? 0 then cc_configured_send_rate c
  else max_rate_bytes_per_second (cc_cfg c).

Definition configured_min_rate (c : CongestionController) (max_rate : U64) : U64 :=
  if negb (cong_enabled (cc_cfg c)) then cc_configured_send_rate c
  else Z.min (Z.max 1 (min_rate_bytes_per_second (cc_cfg c))) max_rate.

Definition configured_max_window (c : CongestionController) (max_rate : U64) : U64 :=
  if negb (max_window_bytes (cc_cfg c) =? 0) then max_window_bytes (cc_cfg c)
  else Z.max (min_window_bytes (cc_cfg c)) (w64 (max_rate * 2)).

Definition rate_bytes_per_second (c : CongestionController) : U64 :=
  if cong_enabled (cc_cfg c) then cc_current_rate c else cc_configured_send_rate c.

Definition bucket_cap_bytes (c : CongestionController) : U64 :=
  let two_seconds := w64 (rate_bytes_per_second c * 2) in
  Z.max NetConfig.MaxPacketBytes two_seconds.

Definition window_bytes (c : CongestionController) : U64 :=
  if cong_enabled (cc_cfg c) then cc_current_window c else bucket_cap_bytes c.

(** [_current_rate = r], [_current_window = w]. *)
Definition set_rate (r : U64) (c : CongestionController) : CongestionController :=
  mkCongestion (cc_cfg c) (cc_configured_send_rate c) r (cc_current_window c)
    (cc_latest_rtt_ms c) (cc_smoothed_rtt_ms c) (cc_last_loss_ms c) (cc_last_backpressure_ms c)
    (cc_ack_events c) (cc_loss_events c) (cc_backpressure_events c).
Definition set_window (w : U64) (c : CongestionController) : CongestionController :=
  mkCongestion (cc_cfg c) (cc_configured_send_rate c) (cc_current_rate c) w
    (cc_latest_rtt_ms c) (cc_smoothed_rtt_ms c) (cc_last_loss_ms c) (cc_last_backpressure_ms c)
    (cc_ack_events c) (cc_loss_events c) (cc_backpressure_events c).

Definition update_window (c : CongestionController) : outcome CongestionController :=
  if negb (cong_enabled (cc_cfg c)) then Done (set_window (bucket_cap_bytes c) c)
  else
    let max_rate := configured_max_rate c in
    let rtt_ms := Z.max 25 (if cc_smoothed_rtt_ms c =? 0 then 100 else cc_smoothed_rtt_ms c) in
    let bandwidth_delay_product :=
      Z.max NetConfig.MaxPacketBytes (w64 (cc_current_rate c * rtt_ms) / 1000) in
    let max_window := configured_max_window c max_rate in
    match std_clamp bandwidth_delay_product (min_window_bytes (cc_cfg c)) max_window with
    | Done w => Done (set_window w c)
    | Err rc => Err rc
    | UB => UB
    end.

Definition reset_runtime (c : CongestionController) : outcome CongestionController :=
  let max_rate := configured_max_rate c in
  let min_rate := configured_min_rate c max_rate in
  let initial_rate := if negb (initial_rate_bytes_per_second (cc_cfg c) =? 0)
                      then initial_rate_bytes_per_second (cc_cfg c)
                      else Z.max min_rate (max_rate / 2) in
  let rate := if cong_enabled (cc_cfg c) then std_clamp initial_rate min_rate max_rate
              else Done (cc_configured_send_rate c) in
  match rate with
  | Done r => update_window (mkCongestion (cc_cfg c) (cc_configured_send_rate c) r
                (cc_current_window c) 0 100 0 0 0 0 0)
  | Err rc => Err rc
  | UB => UB
  end.

Definition configure_congestion (cfg : CongestionControlConfig) (configured_send_rate : U32)
    (c : CongestionController) : outcome CongestionController :=
  reset_runtime (mkCongestion cfg (Z.max 1 configured_send_rate) (cc_current_rate c)
    (cc_current_window c) (cc_latest_rtt_ms c) (cc_smoothed_rtt_ms c) (cc_last_loss_ms c)
    (cc_last_backpressure_ms c) (cc_ack_events c) (cc_loss_events c)
    (cc_backpressure_events c)).

Definition on_ack (rtt_sample_valid : bool) (rtt_sample_ms : U64) (retransmitted : bool)
    (c : CongestionController) : outcome CongestionController :=
  if negb (cong_enabled (cc_cfg c)) then Done c
  else
    let sampled := rtt_sample_valid && (0 <? rtt_sample_ms) in
    let latest := if sampled then rtt_sample_ms else cc_latest_rtt_ms c in
    let smoothed :=
      if sampled then
        if cc_smoothed_rtt_ms c =? 0 then rtt_sample_ms
        else w64 (w64 (cc_smoothed_rtt_ms c * 7) + rtt_sample_ms) / 8
      else cc_smoothed_rtt_ms c in
    let c1 := mkCongestion (cc_cfg c) (cc_configured_send_rate c) (cc_current_rate c)
                (cc_current_window c) latest smoothed (cc_last_loss_ms c)
                (cc_last_backpressure_ms c) (w64 (cc_ack_events c + 1)) (cc_loss_events c)
                (cc_backpressure_events c) in
    if negb retransmitted then
      let max_rate := configured_max_rate c1 in
      let increase := Z.max 1 (additive_increase_bytes_per_ack (cc_cfg c1)) in
      update_window (set_rate (Z.min max_rate (w64 (cc_current_rate c1 + increase))) c1)
    else Done c1.

Definition apply_decrease (decrease_per_mille : U32) (c : CongestionController)
    : outcome CongestionController :=
  let max_rate := configured_max_rate c in
  let min_rate := configured_min_rate c max_rate in
  let decreased := w64 (cc_current_rate c * decrease_per_mille) / 1000 in
  match std_clamp (Z.max 1 decreased) min_rate max_rate with
  | Done r => update_window (set_rate r c)
  | Err rc => Err rc
  | UB => UB
  end.

(** [last != 0 && now >= last && (now - last) < cooldown] *)
Definition cooling (last now cooldown : U64) : bool :=
  negb (last =? 0) && (last <=? now) && (now - last <? cooldown).

Definition on_loss (now count : U64) (c : CongestionController) : outcome CongestionController :=
  if negb (cong_enabled (cc_cfg c)) || (count =? 0) then Done c
  else
    let events := w64 (cc_loss_events c + count) in
    let c1 last :=
      mkCongestion (cc_cfg c) (cc_configured_send_rate c) (cc_current_rate c)
        (cc_current_window c) (cc_latest_rtt_ms c) (cc_smoothed_rtt_ms c) last
        (cc_last_backpressure_ms c) (cc_ack_events c) events (cc_backpressure_events c) in
    if cooling (cc_last_loss_ms c) now (loss_cooldown_ms (cc_cfg c))
    then Done (c1 (cc_last_loss_ms c))
    else apply_decrease (multiplicative_decrease_per_mille (cc_cfg c)) (c1 now).

Definition on_backpressure (now : U64) (c : CongestionController)
    : outcome CongestionController :=
  if negb (cong_enabled (cc_cfg c)) then Done c
  else
    let events := w64 (cc_backpressure_events c + 1) in
    let c1 last :=
      mkCongestion (cc_cfg c) (cc_configured_send_rate c) (cc_current_rate c)
        (cc_current_window c) (cc_latest_rtt_ms c) (cc_smoothed_rtt_ms c) (cc_last_loss_ms c)
        last (cc_ack_events c) (cc_loss_events c) events in
    if cooling (cc_last_backpressure_ms c) now (backpressure_cooldown_ms (cc_cfg c))
    then Done (c1 (cc_last_backpressure_ms c))
    else apply_decrease (backpressure_decrease_per_mille (cc_cfg c)) (c1 now).

Record CongestionControlSnapshot := mkSnapshot {
  sn_enabled : bool;
  sn_rate : U64;
  sn_window : U64;
  sn_ack_events : U64;
  sn_loss_events : U64;
  sn_backpressure_events : U64;
}.

Definition snapshot (c : CongestionController) : CongestionControlSnapshot :=
  mkSnapshot (cong_enabled (cc_cfg c)) (rate_bytes_per_second c) (window_bytes c)
    (cc_ack_events c) (cc_loss_events c) (cc_backpressure_events c).

(** ** Invariant *)

(** The configured bounds, as the rest of the session sees them. *)
Definition rate_floor (c : CongestionController) : U64 :=
  configured_min_rate c (configured_max_rate c).
Definition rate_ceiling (c : CongestionController) : U64 := configured_max_rate c.
Definition window_ceiling (c : CongestionController) : U64 :=
  configured_max_window c (configured_max_rate c).

(** The facts about the configuration that no event changes. *)
Record cc_configured (cfg : CongestionControlConfig) (budget : U32) (c : CongestionController)
    : Prop := {
  cg_cfg : cc_cfg c = cfg;
  cg_rate : cc_configured_send_rate c = Z.max 1 budget;
}.

Definition congestion_usable (cfg : CongestionControlConfig) (budget : U32) : Prop :=
  congestion_typed cfg ∧ is_u32 budget ∧ validate_congestion_control_config cfg budget = success.

Record cc_inv (cfg : CongestionControlConfig) (budget : U32) (c : CongestionController) : Prop := {
  ci_configured : cc_configured cfg budget c;
  ci_rate : rate_floor c <= cc_current_rate c <= rate_ceiling c;
  ci_window : cong_enabled cfg = true →
              min_window_bytes cfg <= cc_current_window c <= window_ceiling c;
}.

Lemma rate_bounds cfg budget c :
  congestion_usable cfg budget → cc_configured cfg budget c →
  1 <= rate_floor c <= rate_ceiling c ∧ rate_ceiling c <= U32_MAX ∧
  (cong_enabled cfg = true → min_window_bytes cfg <= window_ceiling c).
Proof.
  intros (Ht & Hb & Hv) [Hc Hr].
  unfold rate_floor, rate_ceiling, window_ceiling, configured_min_rate, configured_max_rate,
    configured_max_window. rewrite Hc, Hr.
  destruct (cong_enabled cfg) eqn:He; cbn [negb].
  - destruct (validate_congestion_sound cfg budget Ht Hb He Hv).
    unfold effective_max_rate, congestion_typed in *. widths.
    zcases; cbn [negb]; (split_and!; [lia|lia|lia|intros _; lia]).
  - widths. split_and!; [lia..|done].
Qed.

(** [update_window] succeeds and keeps everything but the window. *)
Lemma update_window_inv cfg budget c :
  congestion_usable cfg budget → cc_configured cfg budget c →
  rate_floor c <= cc_current_rate c <= rate_ceiling c →
  ∃ c', update_window c = Done c' ∧ cc_inv cfg budget c' ∧ cc_current_rate c' = cc_current_rate c.
Proof.
  intros Hu Hc Hr. destruct (rate_bounds cfg budget c Hu Hc) as (_ & _ & Hw).
  pose proof Hc as [Hcfg Hrate]. unfold update_window. rewrite Hcfg.
  destruct (cong_enabled cfg) eqn:He; cbn [negb]; cbv zeta.
  - match goal with |- context [std_clamp ?v ?lo ?hi] =>
      destruct (std_clamp_ok v lo hi (Hw eq_refl)) as (w & -> & Hwb) end.
    eexists. split; [done|]. split; [|done]. by split.
  - eexists. split; [done|]. split; [|done]. split; [done|done|]. congruence.
Qed.

Lemma apply_decrease_inv cfg budget c m :
  congestion_usable cfg budget → cc_inv cfg budget c → 0 <= m <= 1000 →
  ∃ c', apply_decrease m c = Done c' ∧ cc_inv cfg budget c' ∧
    cc_current_rate c' = Z.max (rate_floor c) (cc_current_rate c * m / 1000) ∧
    cc_current_rate c' <= cc_current_rate c.
Proof.
  intros Hu [Hc Hr _] Hm. destruct (rate_bounds cfg budget c Hu Hc) as (Hb1 & Hb2 & _).
  unfold apply_decrease. cbv zeta. fold (rate_floor c). fold (rate_ceiling c).
  assert (0 <= cc_current_rate c * m) by (apply Z.mul_nonneg_nonneg; lia).
  assert (0 <= cc_current_rate c * (1000 - m)) by (apply Z.mul_nonneg_nonneg; lia).
  rewrite w64_id by (widths; lia).
  assert (0 <= cc_current_rate c * m / 1000 <= cc_current_rate c).
  { split; [by apply Z.div_pos|]. apply Z.div_le_upper_bound; lia. }
  unfold std_clamp. rewrite (proj2 (Z.ltb_ge _ _)) by lia.
  set (r := if _ <? _ then _ else _).
  assert (r = Z.max (rate_floor c) (cc_current_rate c * m / 1000)) as Hreq
    by (subst r; zcases; lia).
  destruct (update_window_inv cfg budget (set_rate r c)) as (c' & -> & Hinv & Heq);
    [done|by destruct Hc|change (rate_floor c <= r <= rate_ceiling c); lia|].
  exists c'. split_and!; [done|done|by rewrite Heq|rewrite Heq; cbn; lia].
Qed.

(** ** Events *)

Inductive cc_event : Type :=
  | EvAck (valid : bool) (rtt : U64) (retransmitted : bool)
  | EvLoss (now count : U64)
  | EvBackpressure (now : U64)
  | EvReset.

Definition cc_step (ev : cc_event) (c : CongestionController) : outcome CongestionController :=
  match ev with
  | EvAck v rtt re => on_ack v rtt re c
  | EvLoss now count => on_loss now count c
  | EvBackpressure now => on_backpressure now c
  | EvReset => reset_runtime c
  end.

Fixpoint cc_run (evs : list cc_event) (c : CongestionController) : outcome CongestionController :=
  match evs with
  | [] => Done c
  | ev :: evs => match cc_step ev c with Done c' => cc_run evs c' | o => o end
  end.

Lemma reset_runtime_inv cfg budget c :
  congestion_usable cfg budget → cc_configured cfg budget c →
  ∃ c', reset_runtime c = Done c' ∧ cc_inv cfg budget c'.
Proof.
  intros Hu Hc. destruct (rate_bounds cfg budget c Hu Hc) as (Hb & _ & _).
  pose proof Hc as [Hcfg Hrate]. unfold reset_runtime. cbv zeta.
  assert (∃ r, (if cong_enabled (cc_cfg c)
     then std_clamp
            (if negb (initial_rate_bytes_per_second (cc_cfg c) =? 0)
             then initial_rate_bytes_per_second (cc_cfg c)
             else Z.max (rate_floor c) (rate_ceiling c / 2)) (rate_floor c) (rate_ceiling c)
     else Done (cc_configured_send_rate c)) = Done r ∧ rate_floor c <= r <= rate_ceiling c)
    as (r & Hr & Hrb).
  { destruct (cong_enabled (cc_cfg c)) eqn:He; [apply std_clamp_ok; lia|].
    eexists. split; [done|]. unfold rate_floor, rate_ceiling, configured_min_rate,
      configured_max_rate. rewrite He. simpl. lia. }
  unfold rate_floor, rate_ceiling in Hr.
  rewrite Hr.
  destruct (update_window_inv cfg budget (mkCongestion (cc_cfg c) (cc_configured_send_rate c) r
    (cc_current_window c) 0 100 0 0 0 0 0)) as (c' & -> & Hinv & _); [done|by split|done|].
  by exists c'.
Qed.

Lemma cc_step_inv cfg budget ev c :
  congestion_usable cfg budget → cc_inv cfg budget c →
  ∃ c', cc_step ev c = Done c' ∧ cc_inv cfg budget c'.
Proof.
  intros Hu Hinv. pose proof Hinv as [Hc Hr Hw]. pose proof Hc as [Hcfg Hrate].
  destruct (rate_bounds cfg budget c Hu Hc) as (Hb1 & Hb2 & _).
  destruct ev as [v rtt re|now count|now|]; cbn [cc_step].
  - unfold on_ack. destruct (cong_enabled (cc_cfg c)) eqn:He; cbn [negb]; [|by exists c].
    cbv zeta. destruct re; cbn [negb]; [eexists; split; [done|by split]|].
    match goal with |- context [update_window ?c1] =>
      destruct (update_window_inv cfg budget c1) as (c' & -> & Hinv' & _); [done|by split| |] end;
      [|by exists c'].
    cbn [set_rate cc_current_rate cc_cfg].
    change (configured_max_rate _) with (rate_ceiling c).
    assert (0 <= additive_increase_bytes_per_ack (cc_cfg c) <= U32_MAX).
    { destruct Hu as (Ht & _). unfold congestion_typed in Ht. rewrite Hcfg. widths. lia. }
    rewrite w64_id by ulia.
    change (rate_floor c <= Z.min (rate_ceiling c) (cc_current_rate c +
      Z.max 1 (additive_increase_bytes_per_ack (cc_cfg c))) <= rate_ceiling c). lia.
  - unfold on_loss. destruct (cong_enabled (cc_cfg c)) eqn:He; cbn [negb orb]; [|by exists c].
    destruct (count =? 0); [by exists c|]. cbv zeta.
    destruct (cooling _ _ _); [eexists; split; [done|by split]|].
    match goal with |- context [apply_decrease ?m ?c1] =>
      destruct (apply_decrease_inv cfg budget c1 m) as (c' & -> & Hinv' & _); [done|by split| |]
    end; [|by exists c'].
    rewrite Hcfg in *. destruct Hu as (Ht & Hb & Hv).
    destruct (validate_congestion_sound cfg budget Ht Hb He Hv). lia.
  - unfold on_backpressure. destruct (cong_enabled (cc_cfg c)) eqn:He; cbn [negb]; [|by exists c].
    cbv zeta. destruct (cooling _ _ _); [eexists; split; [done|by split]|].
    match goal with |- context [apply_decrease ?m ?c1] =>
      destruct (apply_decrease_inv cfg budget c1 m) as (c' & -> & Hinv' & _); [done|by split| |]
    end; [|by exists c'].
    rewrite Hcfg in *. destruct Hu as (Ht & Hb & Hv).
    destruct (validate_congestion_sound cfg budget Ht Hb He Hv). lia.
  - by apply reset_runtime_inv.
Qed.

Lemma cc_run_inv cfg budget evs c :
  congestion_usable cfg budget → cc_inv cfg budget c →
  ∃ c', cc_run evs c = Done c' ∧ cc_inv cfg budget c'.
Proof.
  intros Hu. revert c. induction evs as [|ev evs IH]; intros c Hc; cbn [cc_run]; [by exists c|].
  destruct (cc_step_inv cfg budget ev c Hu Hc) as (c1 & -> & Hc1). by apply IH.
Qed.

(** C40: under a validated configuration the controller never runs into the
    undefined case of [std::clamp], and after any sequence of acknowledgements,
    losses, backpressure reports and resets the rate is between the configured
    minimum and maximum and the window between its bounds; with congestion
    control off the rate is the configured send rate. *)
Theorem congestion_bounds cfg budget evs :
  congestion_usable cfg budget →
  ∃ c0 c, configure_congestion cfg budget new_congestion = Done c0 ∧ cc_run evs c0 = Done c ∧
    1 <= rate_floor c <= rate_bytes_per_second c ∧
    rate_bytes_per_second c <= rate_ceiling c ∧
    (cong_enabled cfg = true →
       NetConfig.MaxPacketBytes <= window_bytes c ∧
       min_window_bytes cfg <= window_bytes c <= window_ceiling c) ∧
    (cong_enabled cfg = false → rate_bytes_per_second c = Z.max 1 budget).
Proof.
  intros Hu. unfold configure_congestion.
  match goal with |- context [reset_runtime ?c] =>
    destruct (reset_runtime_inv cfg budget c Hu) as (c0 & Hr & Hc0); [done|] end.
  destruct (cc_run_inv cfg budget evs c0 Hu Hc0) as (c & Hrun & [Hc Hrate Hwin]).
  exists c0, c. split; [exact Hr|]. split; [exact Hrun|].
  destruct (rate_bounds cfg budget c Hu Hc) as (Hb & _ & _). destruct Hc as [Hcfg Hsr].
  unfold rate_bytes_per_second, window_bytes. rewrite Hcfg.
  destruct (cong_enabled cfg) eqn:He.
  - split_and!; [lia|lia|lia| |done]. intros _. destruct Hu as (Ht & Hbu & Hv).
    destruct (validate_congestion_sound cfg budget Ht Hbu He Hv). specialize (Hwin eq_refl). lia.
  - unfold rate_floor, rate_ceiling, configured_min_rate, configured_max_rate in *.
    rewrite Hcfg, He in *. cbn [negb] in *. split_and!; [lia|lia|lia|done|done].
Qed.

Lemma congestion_bounds_witness :
  ∃ c0 c, configure_congestion (congestion_with_min_rate 49152) 196608 new_congestion = Done c0 ∧
    cc_run [EvLoss 10 1; EvAck true 30 false; EvLoss 50 2; EvBackpressure 60] c0 = Done c ∧
    1 <= rate_floor c <= rate_bytes_per_second c.
Proof.
  destruct (congestion_bounds (congestion_with_min_rate 49152) 196608
    [EvLoss 10 1; EvAck true 30 false; EvLoss 50 2; EvBackpressure 60]) as (c0 & c & H1 & H2 & H3 & _).
  - split_and!; [apply (bool_decide_unpack _); vm_compute; exact I
      |apply (bool_decide_unpack _); vm_compute; exact I|reflexivity].
  - exists c0, c. split_and!; [exact H1|exact H2|apply H3|apply H3].
Defined.

(** How the controller reacts.  A first transmission's acknowledgement
    raises the rate by the configured step up to the maximum; a loss outside the
    cooldown multiplies it by the configured factor down to the minimum and
    starts a cooldown, during which further losses leave the rate alone. *)
Theorem congestion_reacts cfg budget c now count :
  congestion_usable cfg budget → cc_inv cfg budget c → cong_enabled cfg = true → count ≠ 0 →
  (∀ v rtt, ∃ c', on_ack v rtt false c = Done c' ∧
     cc_current_rate c' =
       Z.min (rate_ceiling c) (cc_current_rate c + additive_increase_bytes_per_ack cfg)) ∧
  (cooling (cc_last_loss_ms c) now (loss_cooldown_ms cfg) = false →
   ∃ c', on_loss now count c = Done c' ∧
     cc_current_rate c' =
       Z.max (rate_floor c)
         (cc_current_rate c * multiplicative_decrease_per_mille cfg / 1000) ∧
     cc_current_rate c' <= cc_current_rate c ∧ cc_last_loss_ms c' = now) ∧
  (cooling (cc_last_loss_ms c) now (loss_cooldown_ms cfg) = true →
   ∃ c', on_loss now count c = Done c' ∧ cc_current_rate c' = cc_current_rate c ∧
     cc_last_loss_ms c' = cc_last_loss_ms c).
Proof.
  intros Hu Hinv He Hcount. pose proof Hinv as [Hc Hr _]. pose proof Hc as [Hcfg Hsr]. subst cfg.
  destruct (rate_bounds _ budget c Hu Hc) as (Hb1 & Hb2 & _).
  pose proof Hu as (Ht & Hbu & Hv).
  pose proof (validate_congestion_sound _ budget Ht Hbu He Hv) as [].
  split_and!.
  - intros v rtt. unfold on_ack. rewrite He. cbn [negb]. cbv zeta.
    cbn [cc_cfg cc_current_rate].
    assert (additive_increase_bytes_per_ack (cc_cfg c) <= U32_MAX)
      by (unfold congestion_typed in Ht; widths; lia).
    rewrite (w64_id (cc_current_rate c + _)), (Z.max_r 1) by ulia.
    match goal with |- context [update_window ?c1] =>
      destruct (update_window_inv (cc_cfg c) budget c1) as (c' & -> & _ & Heq);
        [done|by split| |] end; [|exists c'; by rewrite Heq].
    change (rate_floor c <= Z.min (rate_ceiling c) (cc_current_rate c +
      additive_increase_bytes_per_ack (cc_cfg c)) <= rate_ceiling c). lia.
  - intros Hcool. unfold on_loss. rewrite He, (proj2 (Z.eqb_neq _ _) Hcount), Hcool.
    cbn [negb orb]. cbv zeta.
    match goal with |- context [apply_decrease ?m ?c1] =>
      destruct (apply_decrease_inv (cc_cfg c) budget c1 m) as (c' & Hd & Hinv' & Heq & Hle);
        [done|by destruct Hinv; split|lia|] end.
    exists c'. rewrite Hd. split_and!; [done|exact Heq|exact Hle|].
    unfold apply_decrease in Hd. cbv zeta in Hd.
    destruct (std_clamp _ _ _); [|done..]. unfold update_window in Hd.
    cbn [set_rate cc_cfg] in Hd. rewrite He in Hd. cbn [negb] in Hd. cbv zeta in Hd.
    destruct (std_clamp _ _ _); [|done..]. by simplify_eq Hd; intros <-.
  - intros Hcool. unfold on_loss. rewrite He, (proj2 (Z.eqb_neq _ _) Hcount), Hcool.
    cbn [negb orb]. eexists. split; [done|]. done.
Qed.

Lemma congestion_reacts_witness :
  let cfg := congestion_with_min_rate 49152 in
  ∃ c, configure_congestion cfg 196608 new_congestion = Done c ∧
    ∀ v rtt, ∃ c', on_ack v rtt false c = Done c' ∧
      cc_current_rate c' =
        Z.min (rate_ceiling c) (cc_current_rate c + additive_increase_bytes_per_ack cfg).
Proof.
  assert (congestion_usable (congestion_with_min_rate 49152) 196608) as Hu.
  { split_and!; [apply (bool_decide_unpack _); vm_compute; exact I
      |apply (bool_decide_unpack _); vm_compute; exact I|reflexivity]. }
  destruct (reset_runtime_inv (congestion_with_min_rate 49152) 196608
    (mkCongestion (congestion_with_min_rate 49152) 196608 1 5200 0 100 0 0 0 0 0) Hu)
    as (c & Hc & Hinv); [split; reflexivity|].
  exists c. split; [exact Hc|].
  apply (congestion_reacts (congestion_with_min_rate 49152) 196608 c 5 1 Hu Hinv);
    [reflexivity|discriminate].
Defined.
