(* ===== verification/Stream.v ===== *)
(** * Streams over the ordered channel

    [src/securecnet/include/securecnet/stream.hpp]: the stream frame, the
    routine that cuts a byte sequence into frames, and the receive buffer. *)
From S2P Require Import Prelude Result ByteBuf Config Message Payloads.
#[local] Open Scope Z_scope.

Definition StreamFlagFin : U8 := 1.

Record StreamFrameView := mkStreamFrame {
  sf_stream_id : U16;
  sf_flags : U8;
  sf_data : ptr;
  sf_len : U16;
}.

Definition stream_frame_header_bytes : U16 := 5.
Definition max_stream_frame_payload : U16 :=
  w16 (NetConfig.MaxOrderedMessageBytes - stream_frame_header_bytes).

Definition write_stream_frame (stream_id : U16) (flags : U8) (data : ptr) (len : U16)
    : io ByteWriter unit :=
  if stream_id =? 0 then fail Errc.InvalidArg "stream_id must be non-zero"
  else if (0 <? len) && bool_decide (data = None)
  then fail Errc.InvalidArg "stream frame data is null"
  else if max_stream_frame_payload <? len
  then fail Errc.TooLarge "stream frame payload exceeds ordered channel budget"
  else
    write_u16 stream_id;;
    write_u8 flags;;
    write_u16 len;;
    (if 0 <? len then write_bytes data len else mret tt).

Definition read_stream_frame : io ByteReader StreamFrameView :=
  stream_id ← read_u16;
  flags ← read_u8;
  len ← read_u16;
  if stream_id =? 0 then fail Errc.BadPacket "stream_id must be non-zero"
  else if max_stream_frame_payload <? len
  then fail Errc.BadPacket "stream frame payload exceeds ordered channel budget"
  else
    r ← get;
    if r_remaining r <? len
    then fail Errc.Truncated "truncated stream frame payload"
    else
      let view := mkStreamFrame stream_id flags
                    (if 0 <? len then peek_ptr len r else None) len in
      skip_r len;;
      expect_end "extra bytes in stream frame";;
      mret view.

(** ** Sending *)

Section chunk.
Context {X : Type} (emit : list U8 → bool → X → Result * X).

(** The body of one frame: encode it in a buffer of [cap] bytes and emit it. *)
Definition emit_frame (cap : ST) (stream_id : U16) (flags : U8) (data : ptr) (len : U16)
    (is_last : bool) (x : X) : outcome unit * X :=
  let writer := mkWriter (Some (replicate (Z.to_nat cap) 0)) cap 0 in
  match write_stream_frame stream_id flags data len writer with
  | (Done tt, w) =>
      let '(rc, x') := emit (written w) is_last x in
      (if ok rc then Done tt else Err rc, x')
  | (Err rc, _) => (Err rc, x)
  | (UB, _) => (UB, x)
  end.

(** The [while] loop from [offset]; each iteration advances by at least one
    byte, so [fuel] at least [length bytes] is enough. *)
Fixpoint chunk_loop (fuel : nat) (stream_id : U16) (bytes : list U8) (final_flags : U8)
    (offset : ST) (x : X) : outcome unit * X :=
  match fuel with
  | O => (Done tt, x)
  | S fuel' =>
      if offset <? zlen bytes then
        let remaining := zlen bytes - offset in
        let chunk_len := w16 (if max_stream_frame_payload <? remaining
                              then max_stream_frame_payload else remaining) in
        let is_last := offset + chunk_len =? zlen bytes in
        match emit_frame NetConfig.MaxOrderedMessageBytes stream_id
                (if is_last then final_flags else 0)
                (Some (drop (Z.to_nat offset) bytes)) chunk_len is_last x with
        | (Done _, x') => chunk_loop fuel' stream_id bytes final_flags (offset + chunk_len) x'
        | r => r
        end
      else (Done tt, x)
  end.

Definition chunk_stream_bytes (stream_id : U16) (bytes : list U8) (final_flags : U8) (x : X)
    : outcome unit * X :=
  if stream_id =? 0
  then (Err (fail_result Errc.InvalidArg "stream_id must be non-zero"), x)
  else
    match chunk_loop (length bytes) stream_id bytes final_flags 0 x with
    | (Done _, x') =>
        if bool_decide (bytes = [])
        then emit_frame stream_frame_header_bytes stream_id final_flags None 0 true x'
        else (Done tt, x')
    | r => r
    end.
End chunk.

(** ** Receiving *)

Record StreamReceiveBuffer := mkStreamBuffer {
  sb_stream_id : U16;
  sb_finished : bool;
  sb_bytes : list U8;
}.

Definition new_stream_buffer : StreamReceiveBuffer := mkStreamBuffer 0 false [].

Definition append (frame : StreamFrameView) (b : StreamReceiveBuffer)
    : Result * StreamReceiveBuffer :=
  if negb (sb_stream_id b =? 0) && negb (sb_stream_id b =? sf_stream_id frame)
  then (fail_result Errc.BadPacket "mixed stream ids in receive buffer", b)
  else
    let id := if sb_stream_id b =? 0 then sf_stream_id frame else sb_stream_id b in
    let b1 := mkStreamBuffer id (sb_finished b) (sb_bytes b) in
    if sb_finished b then (fail_result Errc.StateError "stream already finished", b1)
    else if U32_MAX <? zlen (sb_bytes b) + sf_len frame
    then (fail_result Errc.TooLarge "stream receive buffer exceeded maximum size", b1)
    else
      let bytes :=
        match sf_data frame with
        | Some d => if 0 <? sf_len frame then sb_bytes b ++ take (Z.to_nat (sf_len frame)) d
                    else sb_bytes b
        | None => sb_bytes b
        end in
      (success,
       mkStreamBuffer id (negb (Z.land (sf_flags frame) StreamFlagFin =? 0)) bytes).

Definition clear_stream (b : StreamReceiveBuffer) : StreamReceiveBuffer := new_stream_buffer.

(** ** Specification *)

Definition enc_stream_frame (id : U16) (flags : U8) (bs : list U8) : list U8 :=
  be 2 id ++ be 1 flags ++ be 2 (zlen bs) ++ bs.

Definition stream_view (id : U16) (flags : U8) (bs : list U8) : StreamFrameView :=
  mkStreamFrame id flags (data_of bs) (zlen bs).

Lemma max_stream_payload_val : max_stream_frame_payload = 1231.
Proof. reflexivity. Qed.

(** The source pointer may reach beyond the [len] bytes that are copied. *)
Lemma write_stream_frame_at id flags data len bs out rest :
  is_u16 id → id ≠ 0 → is_u8 flags → len = zlen bs → len <= 1231 →
  (0 < len → ∃ d, data = Some d ∧ take (Z.to_nat len) d = bs) →
  (5 + length bs <= length rest)%nat →
  write_stream_frame id flags data len (writer_at out rest) =
    (Done tt, writer_at (out ++ enc_stream_frame id flags bs) (drop (5 + length bs) rest)).
Proof.
  intros Hid H0 Hf -> Hlen Hd Hroom. unfold write_stream_frame.
  rewrite (proj2 (Z.eqb_neq _ _) H0).
  assert ((0 <? zlen bs) && bool_decide (data = None) = false) as ->.
  { destruct (Z.ltb_spec 0 (zlen bs)) as [Hp|]; [|done].
    destruct (Hd Hp) as (d & -> & _). done. }
  rewrite max_stream_payload_val, (proj2 (Z.ltb_ge _ _) Hlen).
  wput. wput. wput; [|unfold is_u16; lia].
  assert (∀ w, (if 0 <? zlen bs then write_bytes data (zlen bs) else mret tt) w =
               (if 0 <? zlen bs then write_bytes (data_of bs) (zlen bs) else mret tt) w) as ->.
  { intros w. destruct (Z.ltb_spec 0 (zlen bs)) as [Hp|]; [|done].
    destruct (Hd Hp) as (d & -> & Ht). unfold data_of.
    rewrite decide_False by (intros ->; simpl in Hp; lia). rewrite <- Ht at 2.
    rewrite <- write_bytes_take; [done|]. rewrite <- Ht, length_take. lia. }
  rewrite write_data_at; [|done|wire_side].
  unfold enc_stream_frame. by rewrite <- !app_assoc, !drop_drop, !length_be.
Qed.

Lemma read_stream_frame_all id flags bs pre :
  is_u16 id → id ≠ 0 → is_u8 flags → zlen bs <= 1231 →
  read_stream_frame (reader_at pre (enc_stream_frame id flags bs)) =
    (Done (stream_view id flags bs), reader_at (pre ++ enc_stream_frame id flags bs) []).
Proof.
  intros Hid H0 Hf Hlen. unfold read_stream_frame, enc_stream_frame.
  wget. wget. wget; [|unfold is_u16; lia].
  rewrite (proj2 (Z.eqb_neq _ _) H0), max_stream_payload_val, (proj2 (Z.ltb_ge _ _) Hlen).
  erewrite bind_done by reflexivity. rewrite r_remaining_at, Z.ltb_irrefl. cbv zeta.
  erewrite bind_done by apply skip_all. erewrite bind_done by apply expect_end_at.
  unfold mret, io_ret, stream_view. rewrite <- !app_assoc. do 3 f_equal.
  rewrite <- (peek_data_all bs (((pre ++ be 2 id) ++ be 1 flags) ++ be 2 (zlen bs))).
  rewrite <- !app_assoc. destruct (Z.ltb_spec 0 (zlen bs)), (Z.eqb_spec (zlen bs) 0);
    lia || done.
Qed.

#[global] Instance read_stream_frame_safe : ReaderSafe read_stream_frame.
Proof.
  unfold read_stream_frame. apply reader_safe_bind; [apply _|]. intros id.
  apply reader_safe_bind; [apply _|]. intros flags.
  intros r Hr. apply reader_safe_bind_val; [apply _|done|].
  intros len r1 Hlen%read_u16_range Hwf. do 2 (case_match; [by split|]).
  erewrite bind_done by reflexivity. case_match; [by split|]. cbv zeta.
  apply reader_safe_bind; [apply skip_r_safe, Hlen|apply _|done].
Qed.

(** The receiving side as a callback: parse the frame and append it. *)
Definition feed (frame : list U8) (is_last : bool) (b : StreamReceiveBuffer)
    : Result * StreamReceiveBuffer :=
  match (read_stream_frame (reader_at [] frame)).1 with
  | Done v => append v b
  | Err rc => (rc, b)
  | UB => (fail_result Errc.Internal "undefined", b)
  end.

Lemma append_view id flags bs b :
  sb_stream_id b = 0 ∨ sb_stream_id b = id → sb_finished b = false →
  zlen (sb_bytes b) + zlen bs <= U32_MAX →
  append (stream_view id flags bs) b =
    (success, mkStreamBuffer (if sb_stream_id b =? 0 then id else sb_stream_id b)
                (negb (Z.land flags StreamFlagFin =? 0)) (sb_bytes b ++ bs)).
Proof.
  intros Hid Hfin Hlen. unfold append.
  assert (negb (sb_stream_id b =? 0) && negb (sb_stream_id b =? id) = false) as Hg by lia.
  cbn [sf_stream_id stream_view sf_len sf_data sf_flags]. rewrite Hg, Hfin.
  rewrite (proj2 (Z.ltb_ge _ _) Hlen). cbv zeta. do 2 f_equal.
  unfold data_of. case_decide as Hd; [by rewrite Hd, app_nil_r|].
  destruct (Z.ltb_spec 0 (zlen bs)); [by rewrite take_ge by lia|]. destruct bs; simpl in *; [done|lia].
Qed.

Lemma emit_frame_feed cap id flags data len bs last b :
  is_u16 id → id ≠ 0 → is_u8 flags → len = zlen bs → len <= 1231 → 5 + zlen bs <= cap →
  (0 < len → ∃ d, data = Some d ∧ take (Z.to_nat len) d = bs) →
  sb_stream_id b = 0 ∨ sb_stream_id b = id → sb_finished b = false →
  zlen (sb_bytes b) + zlen bs <= U32_MAX →
  emit_frame feed cap id flags data len last b =
    (Done tt, mkStreamBuffer id (negb (Z.land flags StreamFlagFin =? 0)) (sb_bytes b ++ bs)).
Proof.
  intros Hid H0 Hf Hlen Hmax Hcap Hd Hb Hfin Hsz. unfold emit_frame.
  assert (mkWriter (Some (replicate (Z.to_nat cap) 0)) cap 0 =
          writer_at [] (replicate (Z.to_nat cap) 0)) as ->.
  { unfold writer_at. simpl. f_equal. rewrite length_replicate. lia. }
  rewrite (write_stream_frame_at id flags data len bs) by (done || rewrite length_replicate; lia).
  rewrite written_at, app_nil_l. unfold feed.
  rewrite read_stream_frame_all by (done || lia). cbn [fst].
  rewrite append_view by done. change (ok success) with true. do 2 f_equal.
  destruct Hb as [-> | ->]; [done|]. by rewrite (proj2 (Z.eqb_neq _ _) H0).
Qed.

Lemma chunk_loop_feed fuel id bytes offset b :
  is_u16 id → id ≠ 0 → zlen bytes <= U32_MAX → 0 <= offset < zlen bytes →
  zlen bytes - offset <= Z.of_nat fuel →
  sb_stream_id b = 0 ∨ sb_stream_id b = id → sb_finished b = false →
  sb_bytes b = take (Z.to_nat offset) bytes →
  chunk_loop feed fuel id bytes StreamFlagFin offset b = (Done tt, mkStreamBuffer id true bytes).
Proof.
  intros Hid H0 Hsz. revert offset b.
  induction fuel as [|fuel IH]; intros offset b Ho Hfuel Hb Hfin Hbs; [lia|].
  cbn [chunk_loop]. rewrite (proj2 (Z.ltb_lt _ _)) by lia. rewrite max_stream_payload_val.
  set (n := if 1231 <? zlen bytes - offset then 1231 else zlen bytes - offset).
  assert (0 < n <= 1231 ∧ n <= zlen bytes - offset) as Hn by (subst n; case_match; lia).
  rewrite (w16_id n) by ulia. cbv zeta.
  set (bs := take (Z.to_nat n) (drop (Z.to_nat offset) bytes)).
  assert (zlen bs = n) as Hbl by (subst bs; rewrite length_take, length_drop; lia).
  rewrite (emit_frame_feed _ _ _ _ _ bs).
  - cbn [sb_bytes]. assert (sb_bytes b ++ bs = take (Z.to_nat (offset + n)) bytes) as ->.
    { rewrite Hbs. subst bs. replace (Z.to_nat (offset + n)) with (Z.to_nat offset + Z.to_nat n)%nat
        by lia. by rewrite take_take_drop. }
    destruct (Z.eqb_spec (offset + n) (zlen bytes)) as [He|Hne].
    + rewrite He, take_ge by lia. destruct fuel; cbn [chunk_loop]; [done|].
      by rewrite Z.ltb_irrefl.
    + apply IH; try done; [lia|lia|by right].
  - done.
  - done.
  - by case_match.
  - done.
  - lia.
  - change NetConfig.MaxOrderedMessageBytes with 1236. lia.
  - intros _. by eexists.
  - done.
  - done.
  - rewrite Hbs, length_take. lia.
Qed.

(** A stream survives the trip.  Cutting any byte sequence into frames,
    parsing each frame and appending it to a fresh receive buffer gives back
    exactly the bytes, marked finished; in particular the cutting loop
    terminates, emits no frame above the ordered-channel budget, and the empty
    sequence is still announced. *)
Theorem stream_roundtrip id bytes :
  is_u16 id → id ≠ 0 → zlen bytes <= U32_MAX →
  chunk_stream_bytes feed id bytes StreamFlagFin new_stream_buffer =
    (Done tt, mkStreamBuffer id true bytes).
Proof.
  intros Hid H0 Hsz. unfold chunk_stream_bytes. rewrite (proj2 (Z.eqb_neq _ _) H0).
  destruct (decide (bytes = [])) as [->|Hne].
  - cbn [length chunk_loop]. rewrite bool_decide_eq_true_2 by done.
    rewrite (emit_frame_feed _ _ _ _ _ []); try done. by left.
  - rewrite chunk_loop_feed; try done; [by rewrite bool_decide_eq_false_2| |lia|by left].
    destruct bytes; [done|]. simpl. lia.
Qed.

Lemma stream_roundtrip_witness :
  chunk_stream_bytes feed 3 (replicate 3000 5) StreamFlagFin new_stream_buffer =
    (Done tt, mkStreamBuffer 3 true (replicate 3000 5)).
Proof.
  apply (stream_roundtrip 3 (replicate 3000 5)); [split; lia|lia|vm_compute; discriminate].
Defined.
