(* ===== verification/Crypto.v ===== *)
(** * Cryptographic wrappers

    [src/securecnet/lib/crypto.cpp]: the guards around libsodium, the nonce
    construction and the constant-time comparison.  libsodium itself is the
    class [Sodium]; what the transport relies on is [SodiumLaws]. *)
From S2P Require Import Prelude Result ByteBuf Config.
#[local] Open Scope Z_scope.

(** The libsodium calls.  [None] is a non-zero return code; the first argument
    of [kx_keypair] is the randomness it draws. *)
Class Sodium := {
  sodium_init : bool;
  kx_keypair : list U8 → option (list U8 * list U8);
  kx_client_session_keys : list U8 → list U8 → list U8 → option (list U8 * list U8);
  kx_server_session_keys : list U8 → list U8 → list U8 → option (list U8 * list U8);
  aead_seal : list U8 → list U8 → list U8 → list U8 → option (list U8);
  aead_open : list U8 → list U8 → list U8 → list U8 → option (list U8);
  generichash : ST → list U8 → list U8 → option (list U8);
}.

(** The documented behaviour of XChaCha20-Poly1305, [crypto_kx] and
    [crypto_generichash]: sealing succeeds and is undone by opening with the
    same key, nonce and additional data; a sealed text is 16 bytes longer;
    keys and hashes have the requested length; the two ends of an exchange derive
    the same pair of keys, one's receiving key being the other's sending key. *)
Class SodiumLaws `{Sodium} : Prop := {
  sodium_ready : sodium_init = true;
  seal_open k n ad m :
    zlen k = NetConfig.AeadKeyBytes → zlen n = NetConfig.AeadNonceBytes → bytes_ok m →
    ∃ c, aead_seal k n ad m = Some c ∧ aead_open k n ad c = Some m ∧
      zlen c = zlen m + NetConfig.AeadTagBytes ∧ bytes_ok c;
  seal_length k n ad m c :
    aead_seal k n ad m = Some c → zlen c = zlen m + NetConfig.AeadTagBytes;
  open_length k n ad c m :
    aead_open k n ad c = Some m → zlen c = zlen m + NetConfig.AeadTagBytes ∧ bytes_ok m;
  keypair_length r pk sk :
    kx_keypair r = Some (pk, sk) → is_array 32 pk ∧ is_array 32 sk;
  client_keys_length pk sk peer rx tx :
    kx_client_session_keys pk sk peer = Some (rx, tx) → is_array 32 rx ∧ is_array 32 tx;
  server_keys_length pk sk peer rx tx :
    kx_server_session_keys pk sk peer = Some (rx, tx) → is_array 32 rx ∧ is_array 32 tx;
  kx_agree r1 r2 pk1 sk1 pk2 sk2 rx tx :
    kx_keypair r1 = Some (pk1, sk1) → kx_keypair r2 = Some (pk2, sk2) →
    kx_server_session_keys pk2 sk2 pk1 = Some (rx, tx) →
    kx_client_session_keys pk1 sk1 pk2 = Some (tx, rx);
  hash_length n d k h : 0 <= n → generichash n d k = Some h → zlen h = n ∧ bytes_ok h;
}.

Record KeyPair := mkKeyPair { kp_public : list U8; kp_secret : list U8 }.
Record SessionKeys := mkSessionKeys { sk_rx : list U8; sk_tx : list U8 }.

Definition zeros (n : nat) : list U8 := replicate n 0.

Definition default_keypair : KeyPair :=
  mkKeyPair (zeros NetConfig.KeyExchangePublicKeyBytes) (zeros NetConfig.KeyExchangeSecretKeyBytes).
Definition default_session_keys : SessionKeys :=
  mkSessionKeys (zeros NetConfig.SessionKeyBytes) (zeros NetConfig.SessionKeyBytes).

(** [crypto_secure_zero(p, len)] on the whole of an array. *)
Definition crypto_secure_zero (a : list U8) : list U8 := zeros (length a).

Definition clear_keypair (k : KeyPair) : KeyPair :=
  mkKeyPair (zeros (length (kp_public k))) (crypto_secure_zero (kp_secret k)).
Definition clear_keys (k : SessionKeys) : SessionKeys :=
  mkSessionKeys (crypto_secure_zero (sk_rx k)) (crypto_secure_zero (sk_tx k)).

(** [for (U8 byte : a) accum |= byte] *)
Definition or_bytes (accum : U8) (a : list U8) : U8 := foldl Z.lor accum a.

Definition keys_empty (k : SessionKeys) : bool :=
  or_bytes (or_bytes 0 (sk_rx k)) (sk_tx k) =? 0.

(** [p[i]] for [i < n]: the bytes a call reads through a pointer. *)
Definition bytes_at (p : ptr) (n : ST) : outcome (list U8) :=
  if n <=? 0 then Done []
  else match p with
       | None => UB
       | Some bs => if n <=? zlen bs then Done (take (Z.to_nat n) bs) else UB
       end.

Definition outcome_bind {A B} (o : outcome A) (f : A → outcome B) : outcome B :=
  match o with Done a => f a | Err rc => Err rc | UB => UB end.
Notation "'let?' x := o 'in' b" := (outcome_bind o (λ x, b))
  (at level 10, x name, o at level 100, b at level 200).

Fixpoint xor_diff (diff : U8) (a b : list U8) : U8 :=
  match a, b with
  | x :: a', y :: b' => xor_diff (Z.lor diff (w8 (Z.lxor x y))) a' b'
  | _, _ => diff
  end.

Definition crypto_constant_time_equal (a b : ptr) (len : ST) : outcome bool :=
  if (bool_decide (a = None) || bool_decide (b = None)) && negb (len =? 0) then Done false
  else
    let? x := bytes_at a len in
    let? y := bytes_at b len in
    Done (xor_diff 0 x y =? 0).

(** One iteration of the loop of [crypto_make_packet_nonce]. *)
Definition nonce_step (conn_id sequence : U64) (out : list U8) (i : nat) : list U8 :=
  let shift := (7 - Z.of_nat i) * 8 in
  <[(16 + i)%nat := octet sequence shift]> (<[(8 + i)%nat := octet conn_id shift]> out).

Definition crypto_make_packet_nonce (conn_id sequence : U64) : list U8 :=
  foldl (nonce_step conn_id sequence) (zeros (Z.to_nat NetConfig.AeadNonceBytes)) (seq 0 8).

Section calls.
Context `{Sodium}.

Definition ensure_crypto_ready : Result :=
  if sodium_init then success else fail_result Errc.Internal "libsodium init failed".

Definition crypto_runtime_status : Result := ensure_crypto_ready.

(** [auto rc = ensure_crypto_ready(); if (!rc.ok()) return rc;] *)
Definition when_ready {A} (k : outcome A) : outcome A :=
  if ok ensure_crypto_ready then k else Err ensure_crypto_ready.

(** [if (cond) return Result::fail(c, m);] *)
Definition reject_if {A} (cond : bool) (c : Errc) (m : string) (k : outcome A) : outcome A :=
  if cond then Err (fail_result c m) else k.

Definition crypto_generate_keypair (random : list U8) : outcome KeyPair :=
  when_ready
    match kx_keypair random with
    | None => Err (fail_result Errc.Internal "crypto_kx_keypair failed")
    | Some (pk, sk) => Done (mkKeyPair pk sk)
    end.

Definition crypto_derive_client_session_keys (client_ephemeral : KeyPair)
    (server_public_key : ptr) (server_public_key_len : ST) : outcome SessionKeys :=
  when_ready
    (reject_if (bool_decide (server_public_key = None)
                || negb (server_public_key_len =? Z.of_nat NetConfig.KeyExchangePublicKeyBytes))
       Errc.InvalidArg "bad server public key"
       (let? peer := bytes_at server_public_key server_public_key_len in
        match kx_client_session_keys (kp_public client_ephemeral) (kp_secret client_ephemeral) peer with
        | None => Err (fail_result Errc.AuthFailed "client session key derivation failed")
        | Some (rx, tx) => Done (mkSessionKeys rx tx)
        end)).

Definition crypto_derive_server_session_keys (server_ephemeral : KeyPair)
    (client_public_key : ptr) (client_public_key_len : ST) : outcome SessionKeys :=
  when_ready
    (reject_if (bool_decide (client_public_key = None)
                || negb (client_public_key_len =? Z.of_nat NetConfig.KeyExchangePublicKeyBytes))
       Errc.InvalidArg "bad client public key"
       (let? peer := bytes_at client_public_key client_public_key_len in
        match kx_server_session_keys (kp_public server_ephemeral) (kp_secret server_ephemeral) peer with
        | None => Err (fail_result Errc.AuthFailed "server session key derivation failed")
        | Some (rx, tx) => Done (mkSessionKeys rx tx)
        end)).

(** The [out_len] bytes written to [out], a buffer of [out_cap] bytes. *)
Definition crypto_aead_encrypt (key : ptr) (key_len : ST) (nonce : ptr) (nonce_len : ST)
    (aad : ptr) (aad_len : ST) (plaintext : ptr) (plaintext_len : ST) (out_cap : ST)
    : outcome (list U8) :=
  when_ready
    (reject_if (bool_decide (key = None) || negb (key_len =? NetConfig.AeadKeyBytes))
       Errc.InvalidArg "bad AEAD key"
    (reject_if (bool_decide (nonce = None) || negb (nonce_len =? NetConfig.AeadNonceBytes))
       Errc.InvalidArg "bad AEAD nonce"
    (reject_if ((0 <? aad_len) && bool_decide (aad = None)) Errc.InvalidArg "AAD is null"
    (reject_if ((0 <? plaintext_len) && bool_decide (plaintext = None))
       Errc.InvalidArg "plaintext is null"
    (reject_if (out_cap <? w64 (plaintext_len + NetConfig.AeadTagBytes))
       Errc.Truncated "ciphertext buffer too small"
    (let? k := bytes_at key key_len in
     let? n := bytes_at nonce nonce_len in
     let? ad := bytes_at aad aad_len in
     let? m := bytes_at plaintext plaintext_len in
     match aead_seal k n ad m with
     | None => Err (fail_result Errc.Internal "AEAD encrypt failed")
     | Some c => Done c
     end)))))).

Definition crypto_aead_decrypt (key : ptr) (key_len : ST) (nonce : ptr) (nonce_len : ST)
    (aad : ptr) (aad_len : ST) (ciphertext : ptr) (ciphertext_len : ST) (out_cap : ST)
    : outcome (list U8) :=
  when_ready
    (reject_if (bool_decide (key = None) || negb (key_len =? NetConfig.AeadKeyBytes))
       Errc.InvalidArg "bad AEAD key"
    (reject_if (bool_decide (nonce = None) || negb (nonce_len =? NetConfig.AeadNonceBytes))
       Errc.InvalidArg "bad AEAD nonce"
    (reject_if ((0 <? aad_len) && bool_decide (aad = None)) Errc.InvalidArg "AAD is null"
    (reject_if (ciphertext_len <? NetConfig.AeadTagBytes) Errc.BadPacket "ciphertext too short"
    (reject_if (bool_decide (ciphertext = None)) Errc.InvalidArg "ciphertext is null"
    (reject_if (out_cap <? ciphertext_len - NetConfig.AeadTagBytes)
       Errc.Truncated "plaintext buffer too small"
    (let? k := bytes_at key key_len in
     let? n := bytes_at nonce nonce_len in
     let? ad := bytes_at aad aad_len in
     let? c := bytes_at ciphertext ciphertext_len in
     match aead_open k n ad c with
     | None => Err (fail_result Errc.AuthFailed "AEAD decrypt failed")
     | Some m => Done m
     end))))))).

(** [out] is null when [out_null]; the result is its [out_len] bytes. *)
Definition crypto_keyed_hash (key : ptr) (key_len : ST) (data : ptr) (data_len : ST)
    (out_null : bool) (out_len : ST) : outcome (list U8) :=
  when_ready
    (reject_if (bool_decide (key = None) || (key_len =? 0) || out_null || (out_len =? 0))
       Errc.InvalidArg "bad keyed hash args"
    (reject_if ((0 <? data_len) && bool_decide (data = None))
       Errc.InvalidArg "hash input is null"
    (let? k := bytes_at key key_len in
     let? d := bytes_at data data_len in
     match generichash out_len d k with
     | None => Err (fail_result Errc.Internal "keyed hash failed")
     | Some h => Done h
     end))).
End calls.

(** ** The nonce *)

Lemma nonce_octet v k : octet v (Z.of_nat k * 8) = (v / 256 ^ Z.of_nat k) mod 256.
Proof.
  unfold octet, w8. change 255 with (Z.ones 8). rewrite Z.land_ones by lia.
  change (2 ^ 8) with 256. rewrite Z.mod_mod by lia. f_equal.
  rewrite Z.shiftr_div_pow2 by lia. f_equal.
  rewrite Z.mul_comm, Z.pow_mul_r by lia. done.
Qed.

(** The layout: eight zero bytes, the connection id, the sequence number. *)
Lemma nonce_layout conn_id sequence :
  crypto_make_packet_nonce conn_id sequence = zeros 8 ++ be 8 conn_id ++ be 8 sequence.
Proof.
  unfold crypto_make_packet_nonce. cbn [seq foldl]. unfold nonce_step, be.
  rewrite <- !nonce_octet. reflexivity.
Qed.

Lemma length_nonce conn_id sequence :
  zlen (crypto_make_packet_nonce conn_id sequence) = NetConfig.AeadNonceBytes.
Proof. by rewrite nonce_layout, !length_app, !length_be. Qed.

(** ** The comparison *)

Lemma lor_zero a b : Z.lor a b = 0 ↔ a = 0 ∧ b = 0.
Proof. apply Z.lor_eq_0_iff. Qed.

Lemma xor_diff_zero d a b :
  length a = length b → bytes_ok a → bytes_ok b → xor_diff d a b = 0 ↔ d = 0 ∧ a = b.
Proof.
  revert d b. induction a as [|x a IH]; intros d [|y b] Hlen Ha Hb; simpl in *.
  1: split; [by intros ->|by intros [-> _]].
  1, 2: discriminate.
  inv Ha. inv Hb. rewrite IH by (done || lia). rewrite lor_zero.
  assert (w8 (Z.lxor x y) = 0 ↔ x = y) as ->; [|naive_solver].
  unfold is_u8 in *. unfold w8. rewrite Z.mod_small; [apply Z.lxor_eq_0_iff|].
  split; [apply Z.lxor_nonneg; lia|].
  destruct (Z.eq_dec (Z.lxor x y) 0) as [->|Hne]; [lia|].
  apply Z.log2_lt_pow2 with (b := 8); [|].
  { assert (0 <= Z.lxor x y) by (apply Z.lxor_nonneg; lia). lia. }
  eapply Z.le_lt_trans; [apply Z.log2_lxor; lia|].
  assert (∀ z, 0 <= z < 256 → Z.log2 z < 8) as Hl.
  { intros z Hz. destruct (Z.eq_dec z 0) as [->|]; [done|]. apply Z.log2_lt_pow2; lia. }
  apply Z.max_lub_lt; apply Hl; lia.
Qed.

(** ** The key wipe *)

Lemma or_bytes_zero d a : or_bytes d a = 0 ↔ d = 0 ∧ Forall (λ b, b = 0) a.
Proof.
  revert d. induction a as [|x a IH]; intros d; simpl; [split; [by intros ->; split|by intros [-> _]]|].
  rewrite IH, lor_zero, Forall_cons. naive_solver.
Qed.

Lemma Forall_zero_replicate a : Forall (λ b : U8, b = 0) a ↔ a = zeros (length a).
Proof.
  unfold zeros. split.
  - induction 1 as [|? ? -> _ IH]; simpl; [done|]. by rewrite <- IH.
  - intros ->. apply Forall_replicate. done.
Qed.

Lemma keys_empty_true k :
  keys_empty k = true ↔ Forall (λ b, b = 0) (sk_rx k) ∧ Forall (λ b, b = 0) (sk_tx k).
Proof. unfold keys_empty. rewrite Z.eqb_eq, !or_bytes_zero. naive_solver. Qed.

Lemma clear_keys_empty k : keys_empty (clear_keys k) = true.
Proof.
  rewrite keys_empty_true. unfold clear_keys, crypto_secure_zero, zeros. simpl.
  split; apply Forall_replicate; done.
Qed.
#[export] Hint Resolve clear_keys_empty : scn.

(** ** A concrete library

    A cipher that appends a checksum of key, nonce and additional data: it has
    the length and round-trip laws, and no secrecy.  It shows that
    [SodiumLaws] is satisfiable and lets examples run. *)
Definition toy_sum (bs : list U8) : Z := foldl (λ acc b, (acc * 31 + b) mod 4294967296) 7 bs.
Definition toy_tag (k n ad m : list U8) : list U8 := be 16 (toy_sum (k ++ n ++ ad ++ m)).
Definition toy_array (n : nat) (bs : list U8) : list U8 := take n (w8 <$> bs) ++ zeros (n - length bs).

Definition toy_sodium : Sodium := {|
  sodium_init := true;
  kx_keypair r := Some (toy_array 32 r, toy_array 32 (reverse r));
  kx_client_session_keys pk sk peer := Some (toy_array 32 (1 :: pk), toy_array 32 (2 :: pk));
  kx_server_session_keys pk sk peer := Some (toy_array 32 (2 :: peer), toy_array 32 (1 :: peer));
  aead_seal k n ad m := Some (m ++ toy_tag k n ad m);
  aead_open k n ad c :=
    let m := take (length c - 16) c in
    if decide (drop (length c - 16) c = toy_tag k n ad m ∧ bytes_ok m) then Some m else None;
  generichash n d k := Some (toy_array (Z.to_nat n) (be 8 (toy_sum (k ++ d))));
|}.

#[global] Arguments toy_array : simpl never.

Lemma toy_array_ok n bs : is_array n (toy_array n bs).
Proof.
  unfold toy_array, is_array, zeros. split.
  - rewrite length_app, length_take, length_fmap, length_replicate. lia.
  - apply bytes_ok_app; [|apply Forall_replicate; unfold is_u8; lia].
    apply Forall_take. apply Forall_fmap, Forall_true. intros. apply w8_range.
Qed.

Lemma toy_tag_length k n ad m : length (toy_tag k n ad m) = 16%nat.
Proof. apply length_be. Qed.

#[export] Instance toy_sodium_laws : @SodiumLaws toy_sodium.
Proof.
  split; cbn.
  - done.
  - intros k n ad m _ _ Hm. eexists. split; [done|].
    rewrite length_app, toy_tag_length, Nat.add_sub.
    rewrite take_app_length, drop_app_length. rewrite decide_True by done.
    split_and!; [done|change NetConfig.AeadTagBytes with 16; lia|]. apply bytes_ok_app, be_ok. done.
  - intros k n ad m c Heq. simplify_eq. rewrite length_app, toy_tag_length.
    change NetConfig.AeadTagBytes with 16. lia.
  - intros k n ad c m. case_decide as Hd; [|done]. destruct Hd as [Ht Hok]. intros [= <-].
    split; [|done]. apply (f_equal length) in Ht. rewrite toy_tag_length, length_drop in Ht.
    rewrite length_take. change NetConfig.AeadTagBytes with 16. lia.
  - intros r pk sk Heq. simplify_eq. split; apply toy_array_ok.
  - intros pk sk peer rx tx Heq. simplify_eq. split; apply toy_array_ok.
  - intros pk sk peer rx tx Heq. simplify_eq. split; apply toy_array_ok.
  - intros r1 r2 pk1 sk1 pk2 sk2 rx tx _ _ [= <- <-]. done.
  - intros n d k h Hn [= <-]. destruct (toy_array_ok (Z.to_nat n) (be 8 (toy_sum (k ++ d)))) as [H1 H2].
    split; [rewrite H1; lia|done].
Qed.

(** ** Calls inside their contracts *)

Lemma bytes_at_all bs : bytes_at (Some bs) (zlen bs) = Done bs.
Proof.
  unfold bytes_at. destruct (Z.leb_spec (zlen bs) 0).
  - destruct bs; [done|simpl in *; lia].
  - rewrite (proj2 (Z.leb_le _ _)) by lia. by rewrite Nat2Z.id, firstn_all.
Qed.

Section contracts.
Context `{SodiumLaws}.

Lemma crypto_ready {A} (k : outcome A) : when_ready k = k.
Proof. unfold when_ready, ensure_crypto_ready. by rewrite sodium_ready. Qed.

Lemma reject_if_false {A} b c m (k : outcome A) : b = false → reject_if b c m k = k.
Proof. by intros ->. Qed.
End contracts.

Lemma constant_time_equal_mac a b :
  length a = length b → bytes_ok a → bytes_ok b →
  crypto_constant_time_equal (Some a) (Some b) (zlen a) = Done (bool_decide (a = b)).
Proof.
  intros Hlen Ha Hb. unfold crypto_constant_time_equal.
  rewrite !bool_decide_eq_false_2 by done. branch.
  rewrite bytes_at_all, Hlen, bytes_at_all. cbn [outcome_bind]. f_equal.
  apply eq_bool_prop_intro. rewrite bool_decide_spec, Is_true_true, Z.eqb_eq.
  rewrite xor_diff_zero by done. naive_solver.
Qed.

(** ** Properties *)

(** The nonce is 24 bytes long and determines the connection id and the
    sequence number: packets of one key that differ in either never share a
    nonce. *)
Theorem packet_nonce_injective c1 s1 c2 s2 :
  is_u64 c1 → is_u64 s1 → is_u64 c2 → is_u64 s2 →
  zlen (crypto_make_packet_nonce c1 s1) = NetConfig.AeadNonceBytes ∧
  (crypto_make_packet_nonce c1 s1 = crypto_make_packet_nonce c2 s2 → c1 = c2 ∧ s1 = s2).
Proof.
  intros Hc1 Hs1 Hc2 Hs2. split; [apply length_nonce|]. rewrite !nonce_layout.
  intros Heq. apply app_inj_1 in Heq as [_ Heq]; [|done].
  apply app_inj_1 in Heq as [Hc Hs]; [|by rewrite !length_be].
  split; apply (wire_enc_inj (wr:=write_u64) (rd:=read_u64) (enc:=be 8) (valid:=is_u64)); done.
Qed.

Lemma packet_nonce_injective_witness :
  zlen (crypto_make_packet_nonce 7 1) = NetConfig.AeadNonceBytes ∧
  (crypto_make_packet_nonce 7 1 = crypto_make_packet_nonce 7 2 → 7 = 7 ∧ 1 = 2).
Proof. apply (packet_nonce_injective 7 1 7 2); split; lia. Defined.
