(* ===== verification/Stats.v ===== *)
(** * Transport statistics

    [src/securecnet/include/securecnet/transport_stats.hpp]: the counters and
    gauges every endpoint keeps.  [TransportStats] maps each field to its
    value. *)
From S2P Require Import Prelude.
#[local] Open Scope Z_scope.

Module Stat.
Inductive Stat : Set :=
  | packets_sent
  | packets_received
  | message_frames_sent
  | message_frames_received
  | bytes_sent
  | bytes_received
  | reliable_message_enqueued
  | reliable_messages_delivered
  | reliable_messages_dropped
  | reliable_acks_sent
  | reliable_acks_received
  | reliable_retransmits
  | reliable_expired
  | reliable_loss_events
  | ordered_messages_received
  | ordered_messages_released
  | ordered_messages_buffered
  | ordered_messages_dropped
  | sequenced_messages_received
  | sequenced_messages_dropped
  | fragmented_messages_sent
  | fragmented_messages_received
  | fragments_sent
  | fragments_received
  | fragment_duplicates
  | fragment_invalid_sets
  | reassemblies_completed
  | reassemblies_expired
  | reassembly_drops
  | reassembly_memory_rejections
  | handshake_attempts
  | handshake_successes
  | handshake_failures
  | handshake_retries_sent
  | handshake_retries_received
  | sessions_established
  | session_resumptions_attempted
  | session_resumptions_accepted
  | session_resumptions_rejected
  | keepalives_sent
  | keepalives_received
  | closes_sent
  | closes_received
  | idle_timeouts
  | establish_timeouts
  | peers_evicted
  | state_transitions
  | auth_failures
  | decrypt_failures
  | replays_dropped
  | unsupported_version_packets
  | bad_packets
  | protocol_errors
  | truncated_datagrams
  | socket_errors
  | queue_full_events
  | would_block_events
  | dropped_packets
  | rate_limited_packets
  | invalid_packet_penalties
  | amplification_drops
  | backpressure_events
  | send_budget_refills
  | send_budget_throttles
  | rtt_latest_ms
  | rtt_smoothed_ms
  | rtt_variance_ms
  | current_retransmit_timeout_ms
  | current_peer_count
  | current_pending_packets
  | current_reliable_pending
  | current_reliable_inflight
  | current_reassembly_count
  | current_reassembly_memory_bytes
  | current_send_budget_bytes
  | estimated_loss_per_mille
  | congestion_current_rate_bytes_per_second
  | congestion_current_window_bytes
  | congestion_ack_events
  | congestion_loss_events
  | congestion_backpressure_events.

(** The position of a field in the struct, and the fields by position. *)
Definition index (f : Stat) : nat :=
  match f with
  | packets_sent => 0
  | packets_received => 1
  | message_frames_sent => 2
  | message_frames_received => 3
  | bytes_sent => 4
  | bytes_received => 5
  | reliable_message_enqueued => 6
  | reliable_messages_delivered => 7
  | reliable_messages_dropped => 8
  | reliable_acks_sent => 9
  | reliable_acks_received => 10
  | reliable_retransmits => 11
  | reliable_expired => 12
  | reliable_loss_events => 13
  | ordered_messages_received => 14
  | ordered_messages_released => 15
  | ordered_messages_buffered => 16
  | ordered_messages_dropped => 17
  | sequenced_messages_received => 18
  | sequenced_messages_dropped => 19
  | fragmented_messages_sent => 20
  | fragmented_messages_received => 21
  | fragments_sent => 22
  | fragments_received => 23
  | fragment_duplicates => 24
  | fragment_invalid_sets => 25
  | reassemblies_completed => 26
  | reassemblies_expired => 27
  | reassembly_drops => 28
  | reassembly_memory_rejections => 29
  | handshake_attempts => 30
  | handshake_successes => 31
  | handshake_failures => 32
  | handshake_retries_sent => 33
  | handshake_retries_received => 34
  | sessions_established => 35
  | session_resumptions_attempted => 36
  | session_resumptions_accepted => 37
  | session_resumptions_rejected => 38
  | keepalives_sent => 39
  | keepalives_received => 40
  | closes_sent => 41
  | closes_received => 42
  | idle_timeouts => 43
  | establish_timeouts => 44
  | peers_evicted => 45
  | state_transitions => 46
  | auth_failures => 47
  | decrypt_failures => 48
  | replays_dropped => 49
  | unsupported_version_packets => 50
  | bad_packets => 51
  | protocol_errors => 52
  | truncated_datagrams => 53
  | socket_errors => 54
  | queue_full_events => 55
  | would_block_events => 56
  | dropped_packets => 57
  | rate_limited_packets => 58
  | invalid_packet_penalties => 59
  | amplification_drops => 60
  | backpressure_events => 61
  | send_budget_refills => 62
  | send_budget_throttles => 63
  | rtt_latest_ms => 64
  | rtt_smoothed_ms => 65
  | rtt_variance_ms => 66
  | current_retransmit_timeout_ms => 67
  | current_peer_count => 68
  | current_pending_packets => 69
  | current_reliable_pending => 70
  | current_reliable_inflight => 71
  | current_reassembly_count => 72
  | current_reassembly_memory_bytes => 73
  | current_send_budget_bytes => 74
  | estimated_loss_per_mille => 75
  | congestion_current_rate_bytes_per_second => 76
  | congestion_current_window_bytes => 77
  | congestion_ack_events => 78
  | congestion_loss_events => 79
  | congestion_backpressure_events => 80
  end.

Definition all : list Stat :=
  [packets_sent; packets_received; message_frames_sent; message_frames_received; bytes_sent;
   bytes_received; reliable_message_enqueued; reliable_messages_delivered;
   reliable_messages_dropped; reliable_acks_sent; reliable_acks_received;
   reliable_retransmits; reliable_expired; reliable_loss_events; ordered_messages_received;
   ordered_messages_released; ordered_messages_buffered; ordered_messages_dropped;
   sequenced_messages_received; sequenced_messages_dropped; fragmented_messages_sent;
   fragmented_messages_received; fragments_sent; fragments_received; fragment_duplicates;
   fragment_invalid_sets; reassemblies_completed; reassemblies_expired; reassembly_drops;
   reassembly_memory_rejections; handshake_attempts; handshake_successes; handshake_failures;
   handshake_retries_sent; handshake_retries_received; sessions_established;
   session_resumptions_attempted; session_resumptions_accepted; session_resumptions_rejected;
   keepalives_sent; keepalives_received; closes_sent; closes_received; idle_timeouts;
   establish_timeouts; peers_evicted; state_transitions; auth_failures; decrypt_failures;
   replays_dropped; unsupported_version_packets; bad_packets; protocol_errors;
   truncated_datagrams; socket_errors; queue_full_events; would_block_events;
   dropped_packets; rate_limited_packets; invalid_packet_penalties; amplification_drops;
   backpressure_events; send_budget_refills; send_budget_throttles; rtt_latest_ms;
   rtt_smoothed_ms; rtt_variance_ms; current_retransmit_timeout_ms; current_peer_count;
   current_pending_packets; current_reliable_pending; current_reliable_inflight;
   current_reassembly_count; current_reassembly_memory_bytes; current_send_budget_bytes;
   estimated_loss_per_mille; congestion_current_rate_bytes_per_second;
   congestion_current_window_bytes; congestion_ack_events; congestion_loss_events;
   congestion_backpressure_events].

Lemma all_index f : all !! index f = Some f.
Proof. by destruct f. Qed.

#[global] Instance Stat_eq_dec : EqDecision Stat.
Proof.
  refine (λ f g, cast_if (decide (index f = index g))).
  - pose proof (all_index f). pose proof (all_index g). congruence.
  - congruence.
Defined.
End Stat.
Abbreviation Stat := Stat.Stat.

Definition TransportStats : Type := Stat → U64.

(** [TransportStats::reset]: every field 0. *)
Definition reset_stats : TransportStats := λ _, 0.

Definition stat_set (f : Stat) (v : U64) (s : TransportStats) : TransportStats :=
  λ g, if decide (f = g) then v else s g.

(** [_stats.f += n] *)
Definition stat_add (f : Stat) (n : U64) (s : TransportStats) : TransportStats :=
  stat_set f (w64 (s f + n)) s.

Lemma stat_add_eq f n s : stat_add f n s f = w64 (s f + n).
Proof. unfold stat_add, stat_set. by rewrite decide_True. Qed.
Lemma stat_add_ne f g n s : f ≠ g → stat_add f n s g = s g.
Proof. intros. unfold stat_add, stat_set. by rewrite decide_False. Qed.
