(* ===== verification/Endpoint.v ===== *)
(** * Endpoints

    [src/securecnet/lib/endpoint.cpp] and the endpoint helpers of
    [lib/client.cpp] and [lib/udp_socket.cpp]: socket addresses, their equality
    and hash, and the replacement of unspecified addresses by loopback. *)
From stdpp Require Import pretty.
From Stdlib Require Import Ascii.
From S2P Require Import Prelude.
#[local] Open Scope Z_scope.

(** [struct Endpoint]: a [sockaddr_storage] by family.  Ports and IPv4 addresses
    are in host order; [EpNone] has [len == 0]. *)
Inductive Endpoint : Type :=
  | EpNone
  | EpV4 (port : U16) (addr : U32)
  | EpV6 (port : U16) (scope_id flowinfo : U32) (addr : list U8)
  | EpOther (family : Z) (raw : list U8).

#[global] Instance Endpoint_eq_dec : EqDecision Endpoint.
Proof. solve_decision. Defined.

Definition AF_INET : Z := 2.
Definition AF_INET6 : Z := 10.

Definition sa_family (e : Endpoint) : Z :=
  match e with
  | EpNone => 0
  | EpV4 _ _ => AF_INET
  | EpV6 _ _ _ _ => AF_INET6
  | EpOther f _ => f
  end.

(** [Endpoint::port] *)
Definition ep_port (e : Endpoint) : U16 :=
  match e with
  | EpV4 p _ => p
  | EpV6 p _ _ _ => p
  | EpNone | EpOther _ _ => 0
  end.

(** [operator==] *)
Definition ep_eqb (l r : Endpoint) : bool :=
  match l, r with
  | EpNone, EpNone => true
  | EpV4 p a, EpV4 p' a' => (p =? p') && (a =? a')
  | EpV6 p s _ a, EpV6 p' s' _ a' => (p =? p') && (s =? s') && bool_decide (a = a')
  | EpOther f raw, EpOther f' raw' => (f =? f') && bool_decide (raw = raw')
  | _, _ => false
  end.

(** [inet_ntop] of the operating system: the text of an address. *)
Class Ntop := inet_ntop : Endpoint → option (list U8).

Definition text (s : string) : list U8 := (λ a, Z.of_nat (nat_of_ascii a)) <$> String.list_ascii_of_string s.

(** [std::to_string] of a port *)
Definition decimal (p : U16) : list U8 := text (pretty p).

(** [Endpoint::to_string] *)
Definition ep_to_string `{Ntop} (e : Endpoint) : list U8 :=
  match e with
  | EpNone | EpOther _ _ => text "<uninitialized>:0"
  | EpV4 port _ | EpV6 port _ _ _ =>
      match inet_ntop e with
      | None => text "<invalid>:" ++ decimal port
      | Some ip =>
          if sa_family e =? AF_INET6
          then text "[" ++ ip ++ text "]:" ++ decimal port
          else ip ++ text ":" ++ decimal port
      end
  end.

Definition INADDR_ANY : U32 := 0.
Definition INADDR_LOOPBACK : U32 := 2130706433.   (* 127.0.0.1 *)
Definition in6addr_any : list U8 := replicate 16 0.
Definition in6addr_loopback : list U8 := replicate 15 0 ++ [1].

Definition endpoint_is_unspecified (e : Endpoint) : bool :=
  match e with
  | EpV4 _ a => a =? INADDR_ANY
  | EpV6 _ _ _ a => bool_decide (a = in6addr_any)
  | EpNone | EpOther _ _ => false
  end.

Definition normalize_connect_endpoint (e : Endpoint) : Endpoint :=
  if negb (endpoint_is_unspecified e) then e
  else match e with
       | EpV4 p _ => EpV4 p INADDR_LOOPBACK
       | EpV6 p s fl _ => EpV6 p s fl in6addr_loopback
       | EpNone | EpOther _ _ => e
       end.

(** [normalize_send_endpoint] of [udp_socket.cpp]. *)
Definition normalize_send_endpoint (e : Endpoint) : Endpoint :=
  match e with
  | EpNone => e
  | EpV4 p a => EpV4 p (if a =? INADDR_ANY then INADDR_LOOPBACK else a)
  | EpV6 p s fl a => EpV6 p s fl (if bool_decide (a = in6addr_any) then in6addr_loopback else a)
  | EpOther _ _ => e
  end.

(** The first IPv4 endpoint, or else the first one. *)
Fixpoint first_ipv4 (eps : list Endpoint) : option Endpoint :=
  match eps with
  | [] => None
  | ep :: rest => if sa_family ep =? AF_INET then Some ep else first_ipv4 rest
  end.
Definition prefer_ipv4 (eps : list Endpoint) : option Endpoint :=
  match first_ipv4 eps with
  | Some ep => Some ep
  | None => head eps
  end.

(** [EndpointHash]; [std::hash] is implementation-defined. *)
Section hash.
Context (hash_int hash_u16 hash_u32 hash_u8 : Z → ST).

Definition hash_combine (seed value : ST) : ST :=
  Z.lxor seed
    (w64 (value + 11400714819323198485 + w64 (Z.shiftl seed 6) + Z.shiftr seed 2)).

Definition hash_bytes (seed : ST) (bs : list U8) : ST :=
  foldl (λ s b, hash_combine s (hash_u8 b)) seed bs.

Definition endpoint_hash (e : Endpoint) : ST :=
  match e with
  | EpNone => 0
  | EpV4 p a =>
      hash_combine (hash_combine (hash_int AF_INET) (hash_u16 p)) (hash_u32 a)
  | EpV6 p s _ a =>
      hash_bytes (hash_combine (hash_combine (hash_int AF_INET6) (hash_u16 p)) (hash_u32 s)) a
  | EpOther f raw => hash_bytes (hash_int f) raw
  end.
End hash.

(** The two normalisations agree, and are idempotent. *)
Lemma normalize_agree e : normalize_send_endpoint e = normalize_connect_endpoint e.
Proof.
  destruct e as [|p a|p s fl a|f raw]; unfold normalize_connect_endpoint; simpl; [done| | |done].
  - by destruct (a =? INADDR_ANY).
  - by case_bool_decide.
Qed.

Lemma normalize_specified e : endpoint_is_unspecified (normalize_connect_endpoint e) = false.
Proof.
  unfold normalize_connect_endpoint. destruct (endpoint_is_unspecified e) eqn:H; simpl; [|done].
  by destruct e.
Qed.

Lemma ep_eqb_refl e : ep_eqb e e = true.
Proof. destruct e; simpl; rewrite ?Z.eqb_refl, ?bool_decide_eq_true_2; done. Qed.
Lemma ep_eqb_sym a b : ep_eqb a b = ep_eqb b a.
Proof.
  destruct a, b; simpl; try done; rewrite ?(Z.eqb_sym port), ?(Z.eqb_sym addr),
    ?(Z.eqb_sym scope_id), ?(Z.eqb_sym family); try done; f_equal; apply bool_decide_ext; naive_solver.
Qed.
Lemma ep_eqb_trans a b c : ep_eqb a b = true → ep_eqb b c = true → ep_eqb a c = true.
Proof.
  destruct a, b, c; simpl; try done; rewrite ?andb_true_iff, ?bool_decide_eq_true, ?Z.eqb_eq;
    naive_solver.
Qed.

(** ** Properties *)

(** [operator==] is an equivalence and [EndpointHash] respects it, which is
    what an [unordered_map] keyed by endpoints requires. *)
Theorem endpoint_equality hi h16 h32 h8 a b c :
  ep_eqb a a = true ∧
  ep_eqb a b = ep_eqb b a ∧
  (ep_eqb a b = true → ep_eqb b c = true → ep_eqb a c = true) ∧
  (ep_eqb a b = true → endpoint_hash hi h16 h32 h8 a = endpoint_hash hi h16 h32 h8 b).
Proof.
  split_and!; [apply ep_eqb_refl|apply ep_eqb_sym|apply ep_eqb_trans|].
  destruct a, b; simpl; try done; rewrite ?andb_true_iff, ?bool_decide_eq_true, ?Z.eqb_eq;
    naive_solver.
Qed.

Lemma endpoint_equality_witness :
  ep_eqb (EpV6 80 1 5 in6addr_loopback) (EpV6 80 1 9 in6addr_loopback) = true ∧
  endpoint_hash id id id id (EpV6 80 1 5 in6addr_loopback) =
    endpoint_hash id id id id (EpV6 80 1 9 in6addr_loopback).
Proof.
  split; [reflexivity|].
  apply (endpoint_equality id id id id (EpV6 80 1 5 in6addr_loopback)
    (EpV6 80 1 9 in6addr_loopback) EpNone). reflexivity.
Defined.
