(* ===== verification/Socket.v ===== *)
(** * The network and the UDP socket

    The operating system is a script of answers: clock readings, the results of
    [send], the datagrams waiting to be received, random bytes.  On it,
    [src/securecnet/lib/udp_socket.cpp] (its Linux build) is modelled call by
    call. *)
From S2P Require Import Prelude Result ByteBuf Endpoint.
#[local] Open Scope Z_scope.

(** What [::send] and [::recv] answer. *)
Inductive os_send : Type :=
  | OsSent (n : ST)
  | OsSendError (would_block : bool).
Inductive os_recv : Type :=
  | OsDatagram (from : Endpoint) (bytes : list U8)
  | OsRecvError (would_block : bool).

(** The part of the world outside the process.  [n_clock] are the readings of
    the steady clock to come (the last one repeats), [n_calls] the answers of
    [socket], [connect] and [fcntl] ([true] when exhausted), [n_sends] those of
    [send] (the whole datagram is sent when exhausted), [n_inbox] what [recv]
    finds (nothing when exhausted), [n_random] the random byte strings drawn.
    [n_sent] logs the datagrams handed to the network, newest first, with
    their destination on an unconnected socket. *)
Record Net := mkNet {
  n_now : U64;
  n_clock : list U64;
  n_open : bool;
  n_calls : list bool;
  n_sends : list os_send;
  n_inbox : list os_recv;
  n_random : list (list U8);
  n_sent : list (option Endpoint * list U8);
}.

(** [Client::now_ms], [Server::now_ms] *)
Definition now_ms : io Net U64 := λ n,
  match n_clock n with
  | [] => (Done (w64 (n_now n)), n)
  | t :: rest =>
      (Done (w64 t), mkNet t rest (n_open n) (n_calls n) (n_sends n) (n_inbox n) (n_random n) (n_sent n))
  end.

(** [randombytes_buf] of [len] bytes. *)
Definition random_bytes (len : nat) : io Net (list U8) := λ n,
  match n_random n with
  | [] => (Done (replicate len 0), n)
  | bs :: rest =>
      (Done (resize len 0 (w8 <$> bs)),
       mkNet (n_now n) (n_clock n) (n_open n) (n_calls n) (n_sends n) (n_inbox n) rest (n_sent n))
  end.

(** The answer of a system call that succeeds or fails. *)
Definition os_call : io Net bool := λ n,
  match n_calls n with
  | [] => (Done true, n)
  | b :: rest =>
      (Done b, mkNet (n_now n) (n_clock n) (n_open n) rest (n_sends n) (n_inbox n) (n_random n) (n_sent n))
  end.

Module UdpSocket.

Definition INT_MAX : ST := 2147483647.

Definition check_socket_len (len : ST) : io Net unit :=
  if INT_MAX <? len then fail Errc.InvalidArg "buffer too large for socket call" else mret tt.

Definition set_open (b : bool) : io Net unit := λ n,
  (Done tt, mkNet (n_now n) (n_clock n) b (n_calls n) (n_sends n) (n_inbox n) (n_random n) (n_sent n)).

Definition is_open : io Net bool := λ n, (Done (n_open n), n).

(** On Linux [ensure_socket_runtime], which [open] calls first, always succeeds. *)
Definition open (family : Z) : io Net unit :=
  already ← is_open;
  if (already : bool) then mret tt
  else
    created ← os_call;
    if (created : bool) then set_open true else fail Errc.SocketError "socket() failed".

Definition close : io Net unit :=
  opened ← is_open;
  if (opened : bool) then set_open false else mret tt.

Definition bind_to (local : Endpoint) : io Net unit :=
  opened ← is_open;
  (if (opened : bool) then mret tt else open (sa_family local));;
  done ← os_call;
  if (done : bool) then mret tt else fail Errc.SocketError "bind() failed".

Definition connect (remote : Endpoint) : io Net unit :=
  opened ← is_open;
  (if (opened : bool) then mret tt else open (sa_family remote));;
  done ← os_call;
  if (done : bool) then mret tt else fail Errc.SocketError "connect() failed".

Definition set_nonblocking (on : bool) : io Net unit :=
  opened ← is_open;
  if negb opened then fail Errc.InvalidArg "socket not open"
  else
    flags ← os_call;
    if negb flags then fail Errc.SocketError "fcntl(F_GETFL) failed"
    else
      done ← os_call;
      if (done : bool) then mret tt else fail Errc.SocketError "fcntl(F_SETFL) failed".

(** [::send(s, data, len, 0)], or [::sendto] with a target. *)
Definition os_send_call (target : option Endpoint) (data : list U8) : io Net os_send := λ n,
  let '(answer, rest) :=
    match n_sends n with [] => (OsSent (zlen data), []) | a :: rest => (a, rest) end in
  (Done answer,
   mkNet (n_now n) (n_clock n) (n_open n) (n_calls n) rest (n_inbox n) (n_random n)
     (match answer with OsSent _ => (target, data) :: n_sent n | OsSendError _ => n_sent n end)).

(** [connected] when there is no target. *)
Definition send_datagram_common (target : option Endpoint) (data : ptr) (len : ST) : io Net unit :=
  let connected := bool_decide (target = None) in
  opened ← is_open;
  if negb opened then fail Errc.InvalidArg "socket not open"
  else if bool_decide (data = None) && (0 <? len) then fail Errc.InvalidArg "data is null"
  else
    check_socket_len len;;
    answer ← os_send_call target (take (Z.to_nat len) (default [] data));
    match answer with
    | OsSendError true =>
        fail Errc.WouldBlock (if connected then "send would block" else "sendto would block")
    | OsSendError false =>
        fail Errc.SocketError (if connected then "send() failed" else "sendto() failed")
    | OsSent sent =>
        if negb (sent =? len) then fail Errc.SocketError "partial UDP send (unexpected)"
        else mret tt
    end.

Definition send (data : ptr) (len : ST) : io Net unit := send_datagram_common None data len.
Definition send_to (to : Endpoint) (data : ptr) (len : ST) : io Net unit :=
  send_datagram_common (Some (normalize_send_endpoint to)) data len.

(** [::recv(s, out, out_cap, MSG_TRUNC)] *)
Definition os_recv_call : io Net os_recv := λ n,
  match n_inbox n with
  | [] => (Done (OsRecvError true), n)
  | a :: rest =>
      (Done a, mkNet (n_now n) (n_clock n) (n_open n) (n_calls n) (n_sends n) rest (n_random n) (n_sent n))
  end.

(** [recv_datagram_common] with a non-null buffer of [out_cap] bytes: the bytes
    received and their source, which [named] asks for. *)
Definition recv_datagram_common (named : bool) (out_cap : ST) : io Net (Endpoint * list U8) :=
  opened ← is_open;
  if negb opened then fail Errc.InvalidArg "socket not open"
  else
    check_socket_len out_cap;;
    answer ← os_recv_call;
    match answer with
    | OsRecvError true =>
        fail Errc.WouldBlock (if named then "recvfrom would block" else "recv would block")
    | OsRecvError false =>
        fail Errc.SocketError (if named then "recvfrom() failed" else "recv() failed")
    | OsDatagram from bytes =>
        if out_cap <? zlen bytes then fail Errc.Truncated "udp datagram truncated"
        else mret (from, w8 <$> bytes)
    end.

Definition recv_from (out_cap : ST) : io Net (Endpoint * list U8) := recv_datagram_common true out_cap.
Definition recv (out_cap : ST) : io Net (list U8) :=
  '(_, bytes) ← recv_datagram_common false out_cap; mret bytes.

End UdpSocket.
