(* ===== verification/Client.v ===== *)
(** * The client: state and sending

    [src/securecnet/include/securecnet/client.hpp] and the first half of
    [lib/client.cpp]: the state of [class Client], queueing and sealing of
    packets, the send budget and [flush_pending]. *)
From S2P Require Import Prelude Result ByteBuf Config Message Packet Protocol Windows Payloads.
From S2P Require Import Reliability Ordered Fragmentation Congestion Crypto Stats Endpoint.
From S2P Require Import Socket.
#[local] Open Scope Z_scope.

(** [Client::PendingPacket]: [pp_bytes] is the whole array. *)
Record PendingPacket := mkPendingPacket {
  pp_bytes : list U8;
  pp_len : ST;
  pp_priority : SendPriority;
}.

(** Which of the user's callbacks are installed. *)
Record Callbacks := mkCallbacks {
  cb_on_packet : bool;
  cb_on_message : bool;
  cb_text : gset U8;
  cb_binary : gset U8;
  cb_on_state_change : bool;
  cb_on_connected : bool;
  cb_on_disconnected : bool;
  cb_on_error : bool;
  cb_on_backpressure : bool;
  cb_logger : bool;
  cb_packet_debug : bool;
}.

Definition no_callbacks : Callbacks :=
  mkCallbacks false false ∅ ∅ false false false false false false false.

(** [class Client], without the socket and the context pointer: the fields in
    the order of their declaration, prefixed [c_]. *)
Record Client := mkClient {
  c_config : ClientConfig;
  c_server : Endpoint;
  c_state : ConnectionState;
  c_close_reason : CloseReason;
  c_conn_id : U64;
  c_seq : U64;
  c_handshake_started_ms : U64;
  c_last_recv_ms : U64;
  c_last_send_ms : U64;
  c_send_budget_bytes : U64;
  c_last_budget_refill_ms : U64;
  c_congestion : CongestionController;
  c_pending_bytes : ST;
  c_next_fragment_message_id : U64;
  c_next_ordered_sequence : U64;
  c_next_sequenced_sequence : U64;
  c_ephemeral : KeyPair;
  c_session_keys : SessionKeys;
  c_client_nonce : list U8;
  c_server_nonce : list U8;
  c_retry_token : RetryToken;
  c_have_retry_token : bool;
  c_resumption_token : ResumptionToken;
  c_have_resumption_token : bool;
  c_attempted_resumption : bool;
  c_packet_window : Window;
  c_callbacks : Callbacks;
  c_pending : list PendingPacket;
  c_reliable : ReliableSession;
  c_ordered_reliable : ReliableSession;
  c_ordered : OrderedReceiveWindow;
  c_sequenced : SequencedReceiveWindow;
  c_reassembler : FragmentReassembler;
  c_stats : TransportStats;
}.

Definition client_eta (x : Client) : Client :=
  mkClient (c_config x) (c_server x) (c_state x) (c_close_reason x) (c_conn_id x) (c_seq x)
    (c_handshake_started_ms x) (c_last_recv_ms x) (c_last_send_ms x) (c_send_budget_bytes x)
    (c_last_budget_refill_ms x) (c_congestion x) (c_pending_bytes x)
    (c_next_fragment_message_id x) (c_next_ordered_sequence x) (c_next_sequenced_sequence x)
    (c_ephemeral x) (c_session_keys x) (c_client_nonce x) (c_server_nonce x) (c_retry_token x)
    (c_have_retry_token x) (c_resumption_token x) (c_have_resumption_token x)
    (c_attempted_resumption x) (c_packet_window x) (c_callbacks x) (c_pending x) (c_reliable
    x) (c_ordered_reliable x) (c_ordered x) (c_sequenced x) (c_reassembler x) (c_stats x).

#[global] Instance assign_config : Assign c_config := ltac:(derive_assign client_eta).
#[global] Instance assign_server : Assign c_server := ltac:(derive_assign client_eta).
#[global] Instance assign_state : Assign c_state := ltac:(derive_assign client_eta).
#[global] Instance assign_close_reason : Assign c_close_reason := ltac:(derive_assign client_eta).
#[global] Instance assign_conn_id : Assign c_conn_id := ltac:(derive_assign client_eta).
#[global] Instance assign_seq : Assign c_seq := ltac:(derive_assign client_eta).
#[global] Instance assign_handshake_started_ms : Assign c_handshake_started_ms := ltac:(derive_assign client_eta).
#[global] Instance assign_last_recv_ms : Assign c_last_recv_ms := ltac:(derive_assign client_eta).
#[global] Instance assign_last_send_ms : Assign c_last_send_ms := ltac:(derive_assign client_eta).
#[global] Instance assign_send_budget_bytes : Assign c_send_budget_bytes := ltac:(derive_assign client_eta).
#[global] Instance assign_last_budget_refill_ms : Assign c_last_budget_refill_ms := ltac:(derive_assign client_eta).
#[global] Instance assign_congestion : Assign c_congestion := ltac:(derive_assign client_eta).
#[global] Instance assign_pending_bytes : Assign c_pending_bytes := ltac:(derive_assign client_eta).
#[global] Instance assign_next_fragment_message_id : Assign c_next_fragment_message_id := ltac:(derive_assign client_eta).
#[global] Instance assign_next_ordered_sequence : Assign c_next_ordered_sequence := ltac:(derive_assign client_eta).
#[global] Instance assign_next_sequenced_sequence : Assign c_next_sequenced_sequence := ltac:(derive_assign client_eta).
#[global] Instance assign_ephemeral : Assign c_ephemeral := ltac:(derive_assign client_eta).
#[global] Instance assign_session_keys : Assign c_session_keys := ltac:(derive_assign client_eta).
#[global] Instance assign_client_nonce : Assign c_client_nonce := ltac:(derive_assign client_eta).
#[global] Instance assign_server_nonce : Assign c_server_nonce := ltac:(derive_assign client_eta).
#[global] Instance assign_retry_token : Assign c_retry_token := ltac:(derive_assign client_eta).
#[global] Instance assign_have_retry_token : Assign c_have_retry_token := ltac:(derive_assign client_eta).
#[global] Instance assign_resumption_token : Assign c_resumption_token := ltac:(derive_assign client_eta).
#[global] Instance assign_have_resumption_token : Assign c_have_resumption_token := ltac:(derive_assign client_eta).
#[global] Instance assign_attempted_resumption : Assign c_attempted_resumption := ltac:(derive_assign client_eta).
#[global] Instance assign_packet_window : Assign c_packet_window := ltac:(derive_assign client_eta).
#[global] Instance assign_callbacks : Assign c_callbacks := ltac:(derive_assign client_eta).
#[global] Instance assign_pending : Assign c_pending := ltac:(derive_assign client_eta).
#[global] Instance assign_reliable : Assign c_reliable := ltac:(derive_assign client_eta).
#[global] Instance assign_ordered_reliable : Assign c_ordered_reliable := ltac:(derive_assign client_eta).
#[global] Instance assign_ordered : Assign c_ordered := ltac:(derive_assign client_eta).
#[global] Instance assign_sequenced : Assign c_sequenced := ltac:(derive_assign client_eta).
#[global] Instance assign_reassembler : Assign c_reassembler := ltac:(derive_assign client_eta).
#[global] Instance assign_stats : Assign c_stats := ltac:(derive_assign client_eta).

(** ** The world the client runs in

    The user's callbacks return nothing and are assumed not to call back into
    the client; a call is an [Event] in a log, newest first.  Three further
    events are instrumentation: [SessionReset] when [_seq] restarts,
    [SeqAllocated] when a sequence number is taken and [Sealed] when a payload
    is encrypted. *)
Module LogLevel.
Inductive LogLevel : Set := Error | Warning | Info | Trace | Debug.
End LogLevel.
Abbreviation LogLevel := LogLevel.LogLevel.

(** [BackpressureInfo] of [message.hpp]. *)
Record BackpressureInfo := mkBackpressureInfo {
  bp_code : Errc;
  bp_channel : Channel;
  bp_type : U8;
  bp_queued_packets : ST;
  bp_queued_bytes : ST;
  bp_send_budget_bytes : U64;
}.

Inductive Event : Type :=
  | OnPacket (v : PacketView)
  | OnMessage (m : MsgView)
  | OnText (type : U8) (text : list U8)
  | OnBinary (m : MsgView)
  | OnStateChange (previous next : ConnectionState)
  | OnConnected
  | OnDisconnected (reason : CloseReason)
  | OnError (rc : Result)
  | OnBackpressure (info : BackpressureInfo)
  | OnLog (level : LogLevel) (text : string)
  | OnPacketDebug (direction : string) (v : PacketView)
  | SessionReset
  | SeqAllocated
  | Sealed (key nonce : list U8).

Record World := mkWorld {
  w_client : Client;
  w_net : Net;
  w_events : list Event;
}.

(** Read the client, assign to it, log an event, call the operating system. *)
Definition this : io World Client := λ w, (Done (w_client w), w).
Definition update (f : Client → Client) : io World unit := λ w,
  (Done tt, mkWorld (f (w_client w)) (w_net w) (w_events w)).
Definition emit (e : Event) : io World unit := λ w,
  (Done tt, mkWorld (w_client w) (w_net w) (e :: w_events w)).
Definition sys {A} (m : io Net A) : io World A := λ w,
  let '(o, n) := m (w_net w) in (o, mkWorld (w_client w) n (w_events w)).

(** [++_stats.f], [_stats.f += n] *)
Definition count_n (f : Stat) (n : U64) : io World unit :=
  update (λ c, c <| c_stats := stat_add f n (c_stats c) |>).
Definition count (f : Stat) : io World unit := count_n f 1.

(** A buffer of [size] bytes written by [m]: its first [writer.off] bytes. *)
Definition write_to (size : ST) (m : io ByteWriter unit) : outcome (list U8) :=
  match m (mkWriter (Some (zeros (Z.to_nat size))) size 0) with
  | (Done _, w) => Done (written w)
  | (Err rc, _) => Err rc
  | (UB, _) => UB
  end.

(** [ByteReader reader{ p, len }; rc = m(reader, out);] *)
Definition read_from {A} (p : ptr) (len : ST) (m : io ByteReader A) : outcome A :=
  (m (mkReader p len 0)).1.

Definition emit_log (level : LogLevel) (text : string) : io World unit :=
  c ← this; when (cb_logger (c_callbacks c)) (emit (OnLog level text)).

Definition emit_packet_debug (direction : string) (v : PacketView) : io World unit :=
  c ← this;
  when (client_enable_packet_debug_dumps (c_config c) && cb_packet_debug (c_callbacks c))
    (emit (OnPacketDebug direction v)).

Definition emit_backpressure (channel : Channel) (type : U8) (rc : Result) : io World unit :=
  c ← this;
  when (cb_on_backpressure (c_callbacks c))
    (emit (OnBackpressure (mkBackpressureInfo (code rc) channel type (zlen (c_pending c))
       (c_pending_bytes c) (c_send_budget_bytes c)))).

Definition emit_on_packet (v : PacketView) : io World unit :=
  c ← this; when (cb_on_packet (c_callbacks c)) (emit (OnPacket v)).

(** ** Gauges and the connection state *)

Definition session_gauges (c : Client) : list (Stat * U64) :=
  let r := c_reliable c in let o := c_ordered_reliable c in
  [(Stat.current_peer_count,
      if bool_decide (c_state c = ConnectionState.Idle)
         || bool_decide (c_state c = ConnectionState.Closed) then 0 else 1);
   (Stat.current_pending_packets, zlen (c_pending c));
   (Stat.current_reliable_pending, w64 (zlen (rs_pending r) + zlen (rs_pending o)));
   (Stat.current_reliable_inflight, w64 (rs_inflight_count r + rs_inflight_count o));
   (Stat.current_reassembly_count, Z.of_nat (size (ra_entries (c_reassembler c))));
   (Stat.current_reassembly_memory_bytes, ra_memory_bytes (c_reassembler c));
   (Stat.current_send_budget_bytes, c_send_budget_bytes c);
   (Stat.rtt_latest_ms, Z.max (latest_rtt_ms (rs_rtt r)) (latest_rtt_ms (rs_rtt o)));
   (Stat.rtt_smoothed_ms, Z.max (srtt_ms (rs_rtt r)) (srtt_ms (rs_rtt o)));
   (Stat.rtt_variance_ms, Z.max (rttvar_ms (rs_rtt r)) (rttvar_ms (rs_rtt o)));
   (Stat.current_retransmit_timeout_ms, Z.max (rto_ms (rs_rtt r)) (rto_ms (rs_rtt o)));
   (Stat.estimated_loss_per_mille,
      Z.max (loss_per_mille (rs_loss r)) (loss_per_mille (rs_loss o)))].

Definition congestion_gauges (c : Client) : list (Stat * U64) :=
  let s := snapshot (c_congestion c) in
  [(Stat.congestion_current_rate_bytes_per_second, sn_rate s);
   (Stat.congestion_current_window_bytes, sn_window s);
   (Stat.congestion_ack_events, sn_ack_events s);
   (Stat.congestion_loss_events, sn_loss_events s);
   (Stat.congestion_backpressure_events, sn_backpressure_events s)].

Definition refreshed_stats (c : Client) : TransportStats :=
  foldl (λ s '(f, v), stat_set f v s) (c_stats c) (session_gauges c ++ congestion_gauges c).

Definition refresh_runtime_stats : io World unit :=
  update (λ c, c <| c_stats := refreshed_stats c |>).

Definition transition_state (next : ConnectionState) : io World unit :=
  c ← this;
  if decide (c_state c = next) then mret tt
  else
    let previous := c_state c in
    update (λ c, c <| c_state := next |>);;
    count Stat.state_transitions;;
    refresh_runtime_stats;;
    emit_log LogLevel.Trace "client state transition";;
    when (cb_on_state_change (c_callbacks c)) (emit (OnStateChange previous next));;
    when (negb (bool_decide (previous = ConnectionState.Established))
          && bool_decide (next = ConnectionState.Established)
          && cb_on_connected (c_callbacks c)) (emit OnConnected);;
    when (negb (bool_decide (previous = ConnectionState.Closed))
          && bool_decide (next = ConnectionState.Closed)
          && cb_on_disconnected (c_callbacks c))
      (c ← this; emit (OnDisconnected (c_close_reason c))).

(** ** Resetting *)

(** The assignments of [reset_session] around the clock reading. *)
Definition clear_session (now : U64) (c : Client) : Client :=
  let rel := client_reliability (c_config c) in
  c <| c_send_budget_bytes := rate_bytes_per_second (c_congestion c) |>
    <| c_last_budget_refill_ms := now |>
    <| c_next_fragment_message_id := 1 |>
    <| c_next_ordered_sequence := 1 |>
    <| c_next_sequenced_sequence := 1 |>
    <| c_attempted_resumption := false |>
    <| c_have_retry_token := false |>
    <| c_retry_token := default_retry_token |>
    <| c_client_nonce := zeros NetConfig.ClientNonceBytes |>
    <| c_server_nonce := zeros NetConfig.ServerNonceBytes |>
    <| c_packet_window := ReplayWindow.reset (c_packet_window c) |>
    <| c_pending := [] |>
    <| c_reliable := clear (configure rel (c_reliable c)) |>
    <| c_ordered_reliable := clear (configure rel (c_ordered_reliable c)) |>
    <| c_ordered := clear_ordered (set_max_buffered (ordered_receive_window rel) (c_ordered c)) |>
    <| c_sequenced := Sequenced.clear (c_sequenced c) |>
    <| c_reassembler := clear_reassembler
         (configure_reassembler (client_fragmentation (c_config c)) (c_reassembler c)) |>
    <| c_session_keys := clear_keys (c_session_keys c) |>
    <| c_ephemeral := clear_keypair (c_ephemeral c) |>.

Definition restart_counters (c : Client) : Client :=
  c <| c_conn_id := 0 |>
    <| c_seq := 1 |>
    <| c_handshake_started_ms := 0 |>
    <| c_last_recv_ms := 0 |>
    <| c_last_send_ms := 0 |>
    <| c_pending_bytes := 0 |>.

(** [_congestion.f(...)], which [std::clamp] can make undefined. *)
Definition on_congestion (f : CongestionController → outcome CongestionController)
    : io World unit :=
  c ← this;
  cc ← lift (f (c_congestion c));
  update (λ c, c <| c_congestion := cc |>).

Definition reset_session : io World unit :=
  update restart_counters;;
  emit SessionReset;;
  on_congestion reset_runtime;;
  now ← sys now_ms;
  update (clear_session now);;
  refresh_runtime_stats.

(** What [fail_connection] discards. *)
Definition drop_connection (reason : CloseReason) (c : Client) : Client :=
  c <| c_close_reason := reason |>
    <| c_pending := [] |>
    <| c_pending_bytes := 0 |>
    <| c_reliable := clear (c_reliable c) |>
    <| c_ordered_reliable := clear (c_ordered_reliable c) |>
    <| c_ordered := clear_ordered (c_ordered c) |>
    <| c_sequenced := Sequenced.clear (c_sequenced c) |>
    <| c_reassembler := clear_reassembler (c_reassembler c) |>
    <| c_session_keys := clear_keys (c_session_keys c) |>
    <| c_ephemeral := clear_keypair (c_ephemeral c) |>
    <| c_packet_window := ReplayWindow.reset (c_packet_window c) |>.

Definition fail_connection (reason : CloseReason) (text : string) : io World unit :=
  c ← this;
  when (bool_decide (c_state c = ConnectionState.Handshaking)) (count Stat.handshake_failures);;
  emit_log LogLevel.Error text;;
  when (cb_on_error (c_callbacks c)) (emit (OnError (fail_result Errc.Closed text)));;
  update (drop_connection reason);;
  sys UdpSocket.close;;
  transition_state ConnectionState.Closed;;
  refresh_runtime_stats.

Definition stop : io World unit :=
  sys UdpSocket.close;;
  reset_session;;
  transition_state ConnectionState.Idle;;
  update (λ c, c <| c_close_reason := CloseReason.Normal |>);;
  refresh_runtime_stats.

Definition reset_for_connect : io World unit :=
  c ← this;
  let rc := validate_client_config (c_config c) in
  if negb (ok rc) then lift (Err rc)
  else
    stop;;
    reset_session;;
    update (λ c, c <| c_close_reason := CloseReason.Normal |>);;
    transition_state ConnectionState.Idle.

(** ** Queueing packets *)

(** [_pending.insert] before the first packet of a lower priority. *)
Fixpoint insert_pending (p : PendingPacket) (q : list PendingPacket) : list PendingPacket :=
  match q with
  | [] => [p]
  | it :: rest =>
      if priority_value (pp_priority it) <? priority_value (pp_priority p)
      then p :: it :: rest
      else it :: insert_pending p rest
  end.

Definition enqueue_pending_packet (pending : PendingPacket) : io World unit :=
  c ← this;
  if client_max_pending_packets (c_config c) <=? zlen (c_pending c)
  then
    count Stat.queue_full_events;;
    fail Errc.QueueFull "pending packet queue full"
  else
    update (λ c, c <| c_pending_bytes := w64 (c_pending_bytes c + pp_len pending) |>
                   <| c_pending := insert_pending pending (c_pending c) |>);;
    refresh_runtime_stats.

Section crypto.
Context `{Sodium}.

(** The encryption step of [queue_packet]: additional data, nonce and
    ciphertext of a packet whose header is [header]. *)
Definition seal_payload (keys : SessionKeys) (header : PacketHeader) (payload : ptr)
    (payload_len : ST) : outcome (list U8) :=
  let? aad := write_to NetConfig.PacketHeaderBytes (write_packet_header header) in
  let nonce := crypto_make_packet_nonce (conn_id header) (seq header) in
  crypto_aead_encrypt (Some (sk_tx keys)) (Z.of_nat NetConfig.SessionKeyBytes)
    (Some nonce) NetConfig.AeadNonceBytes (Some aad) (zlen aad)
    payload payload_len NetConfig.MaxPayloadBytes.

(** The datagram built from a header and the bytes of its payload. *)
Definition pack_pending (header : PacketHeader) (payload : list U8) (priority : SendPriority)
    : outcome PendingPacket :=
  match pack_packet header (if zlen payload =? 0 then None else Some payload) (zlen payload)
          (Some (zeros (Z.to_nat NetConfig.MaxPacketBytes))) NetConfig.MaxPacketBytes with
  | (Done len, out) => Done (mkPendingPacket (default [] out) len priority)
  | (Err rc, _) => Err rc
  | (UB, _) => UB
  end.

Definition queue_packet (kind : PacketKind) (encrypted : bool) (payload : ptr) (payload_len : ST)
    (priority : SendPriority) (conn_id_override : U64) : io World unit :=
  if (0 <? payload_len) && bool_decide (payload = None)
  then fail Errc.InvalidArg "payload is null"
  else if encrypted && (NetConfig.MaxEncryptedPlaintextBytes <? payload_len)
  then fail Errc.InvalidArg "encrypted payload too large"
  else if negb encrypted && (NetConfig.MaxPayloadBytes <? payload_len)
  then fail Errc.InvalidArg "payload too large"
  else
    c ← this;
    let id := if negb (conn_id_override =? 0) then conn_id_override else c_conn_id c in
    let header len :=
      mkPacketHeader NetConfig.Magic NetConfig.ProtocolVersion (kind_value kind)
        (if encrypted then PacketFlagEncrypted else 0) id (c_seq c) len in
    update (λ c, c <| c_seq := w64 (c_seq c + 1) |>);;
    emit SeqAllocated;;
    if encrypted then
      if keys_empty (c_session_keys c) || (id =? 0)
      then fail Errc.StateError "session keys not ready"
      else
        let h := header (w32 (payload_len + NetConfig.AeadTagBytes)) in
        body ← lift (seal_payload (c_session_keys c) h payload payload_len);
        emit (Sealed (sk_tx (c_session_keys c)) (crypto_make_packet_nonce id (c_seq c)));;
        pending ← lift (pack_pending h body priority);
        enqueue_pending_packet pending
    else
      let h := header (w32 payload_len) in
      body ← lift (bytes_at payload payload_len);
      pending ← lift (pack_pending h body priority);
      enqueue_pending_packet pending.

Definition queue_raw_payload (data : ptr) (len : ST) (priority : SendPriority) : io World unit :=
  queue_packet PacketKind.Raw true data len priority 0.

Definition queue_internal_message (channel : Channel) (type : U8) (data : ptr) (len : U16)
    (priority : SendPriority) : io World unit :=
  payload ← lift (write_to NetConfig.MaxEncryptedPlaintextBytes (write_message channel type data len));
  queue_packet PacketKind.Message true (Some payload) (zlen payload) priority 0;;
  count Stat.message_frames_sent.

Definition queue_message_packet (channel : Channel) (type : U8) (data : ptr) (len : U16)
    (priority : SendPriority) : io World unit :=
  if decide (channel = Channel.Control)
  then fail Errc.StateError "control channel is reserved"
  else queue_internal_message channel type data len priority.

Definition queue_control_ack (channel : Channel) (message_id : U64) : io World unit :=
  ack ← lift (write_to 16 (write_reliable_ack channel message_id));
  queue_internal_message Channel.Control ControlType.ReliableAck (Some ack) (w16 (zlen ack))
    SendPriority.High;;
  count Stat.reliable_acks_sent.

Definition queue_keepalive : io World unit :=
  queue_packet PacketKind.Keepalive true None 0 SendPriority.High 0;;
  count Stat.keepalives_sent.

Definition queue_close_packet (reason : CloseReason) (encrypted : bool) : io World unit :=
  frame ← lift (write_to 8 (write_close_frame reason));
  queue_packet PacketKind.Close encrypted (Some frame) (zlen frame) SendPriority.High 0;;
  count Stat.closes_sent.

(** ** The send budget *)

Definition refill_send_budget (now : U64) : io World unit :=
  c ← this;
  if c_last_budget_refill_ms c =? 0 then
    update (λ c, c <| c_last_budget_refill_ms := now |>
                   <| c_send_budget_bytes :=
                        (if c_send_budget_bytes c =? 0
                         then rate_bytes_per_second (c_congestion c)
                         else c_send_budget_bytes c) |>)
  else if now <=? c_last_budget_refill_ms c then mret tt
  else
    let elapsed_ms := now - c_last_budget_refill_ms c in
    let refill := w64 (rate_bytes_per_second (c_congestion c) * elapsed_ms) / 1000 in
    if 0 <? refill then
      update (λ c, c <| c_send_budget_bytes :=
                          Z.min (bucket_cap_bytes (c_congestion c))
                            (w64 (c_send_budget_bytes c + refill)) |>
                     <| c_last_budget_refill_ms := now |>);;
      count Stat.send_budget_refills;;
      refresh_runtime_stats
    else mret tt.

(** [_send_budget_bytes = min(_send_budget_bytes, _congestion.bucket_cap_bytes())] *)
Definition cap_send_budget : io World unit :=
  update (λ c, c <| c_send_budget_bytes :=
                      Z.min (c_send_budget_bytes c) (bucket_cap_bytes (c_congestion c)) |>).

(** A congestion signal, after which the budget is capped again. *)
Definition adapt_congestion (f : CongestionController → outcome CongestionController)
    : io World unit :=
  on_congestion f;; cap_send_budget.

(** ** Flushing the queue *)

(** The common reaction to an exhausted budget and to a full socket buffer. *)
Definition react_to_backpressure (f : Stat) (now : U64) : io World unit :=
  count f;;
  count Stat.backpressure_events;;
  adapt_congestion (on_backpressure now);;
  refresh_runtime_stats.

(** The [while] loop of [flush_pending].  Every iteration that does not return
    removes the front packet; running out of [fuel] is [UB], and the safety
    theorem rules it out for [fuel = length _pending]. *)
Fixpoint flush_loop (fuel : nat) : io World unit :=
  c ← this;
  match c_pending c with
  | [] => mret tt
  | pending :: rest =>
      match fuel with
      | O => undefined
      | S fuel' =>
          now ← sys now_ms;
          refill_send_budget now;;
          c ← this;
          if c_send_budget_bytes c <? pp_len pending then
            react_to_backpressure Stat.send_budget_throttles now
          else
            (if client_enable_packet_debug_dumps (c_config c)
             then match parse_packet (Some (take (Z.to_nat (pp_len pending)) (pp_bytes pending)))
                          (pp_len pending) with
                  | Done packet => emit_packet_debug "send" packet
                  | Err _ => mret tt
                  | UB => undefined
                  end
             else mret tt);;
            rc ← attempt (sys (UdpSocket.send (Some (pp_bytes pending)) (pp_len pending)));
            if negb (ok rc) then
              if decide (code rc = Errc.WouldBlock)
              then react_to_backpressure Stat.would_block_events now
              else count Stat.socket_errors;; lift (Err rc)
            else
              update (λ c, c <| c_send_budget_bytes := w64 (c_send_budget_bytes c - pp_len pending) |>);;
              count Stat.packets_sent;;
              count_n Stat.bytes_sent (pp_len pending);;
              update (λ c, c <| c_last_send_ms := now |>
                             <| c_pending_bytes := w64 (c_pending_bytes c - pp_len pending) |>
                             <| c_pending := rest |>);;
              refresh_runtime_stats;;
              flush_loop fuel'
      end
  end.

Definition flush_pending : io World unit :=
  c ← this; flush_loop (length (c_pending c)).

(** ** Sending messages *)

(** [ReliableSession& session = (channel == ReliableOrdered) ? _ordered_reliable : _reliable] *)
Definition on_session {A} (channel : Channel) (m : io ReliableSession A) : io World A := λ w,
  let c := w_client w in
  if decide (channel = Channel.ReliableOrdered) then
    let '(o, s) := m (c_ordered_reliable c) in
    (o, mkWorld (c <| c_ordered_reliable := s |>) (w_net w) (w_events w))
  else
    let '(o, s) := m (c_reliable c) in
    (o, mkWorld (c <| c_reliable := s |>) (w_net w) (w_events w)).

Definition send_reliable_message (channel : Channel) (type : U8) (data : ptr) (len : U16)
    (priority : SendPriority) (lifetime_ms : U64) : io World unit :=
  if w16 NetConfig.MaxReliableMessageBytes <? len
  then fail Errc.TooLarge "reliable payload exceeds inline channel budget"
  else
    now ← sys now_ms;
    queued ← (λ w, match on_session channel (enqueue type data len priority lifetime_ms now) w with
                   | (Done p, w') => (Done (inr p), w')
                   | (Err rc, w') => (Done (inl rc), w')
                   | (UB, w') => (UB, w')
                   end);
    match queued with
    | inl rc =>
        when (bool_decide (code rc = Errc.QueueFull)) (count Stat.queue_full_events);;
        lift (Err rc)
    | inr pending =>
        count Stat.reliable_message_enqueued;;
        rc ← attempt (queue_message_packet channel type (Some (p_encoded_payload pending))
                        (w16 (zlen (p_encoded_payload pending))) priority);
        if negb (ok rc) then
          now ← sys now_ms;
          on_session channel (acknowledge (p_message_id pending) now);;
          when (bool_decide (code rc = Errc.QueueFull)) (count Stat.backpressure_events);;
          lift (Err rc)
        else
          now ← sys now_ms;
          on_session channel (λ s, let '(b, s') := note_sent (p_message_id pending) now s in (Done b, s'));;
          refresh_runtime_stats
    end.

(** The loop of [send_fragmented] from [index]; [left] iterations remain. *)
Fixpoint send_fragments (left : nat) (options : SendOptions) (id sequence : U64) (type : U8)
    (payload : list U8) (index : U16) : io World unit :=
  match left with
  | O => mret tt
  | S left' =>
      let len := fragment_size_for_index (w16 (zlen payload)) index in
      let data := drop (Z.to_nat (index * NetConfig.MaxFragmentDataBytes)) payload in
      encoded ← lift (write_to NetConfig.MaxMessageBytes
        (write_fragment_payload id sequence (so_channel options) type index
           (fragment_count_for_length (w16 (zlen payload))) (w16 (zlen payload)) (Some data) len));
      (if channel_is_reliable (so_channel options)
       then send_reliable_message (so_channel options) ControlType.Fragment (Some encoded)
              (w16 (zlen encoded)) (so_priority options) (so_lifetime_ms options)
       else queue_internal_message Channel.Control ControlType.Fragment (Some encoded)
              (w16 (zlen encoded)) (so_priority options));;
      count Stat.fragments_sent;;
      send_fragments left' options id sequence type payload (w16 (index + 1))
  end.

Definition send_fragmented (options : SendOptions) (type : U8) (payload : list U8) : io World unit :=
  c ← this;
  let cfg := client_fragmentation (c_config c) in
  let original_length := w16 (zlen payload) in
  let fragment_count := fragment_count_for_length original_length in
  if negb (frag_enabled cfg) then fail Errc.TooLarge "fragmentation disabled"
  else if negb (channel_is_application (so_channel options))
  then fail Errc.InvalidArg "fragment channel must be an application channel"
  else if max_reassembled_message_bytes cfg <? zlen payload
  then fail Errc.TooLarge "payload exceeds reassembly policy"
  else if (fragment_count =? 0) || (max_fragments_per_message cfg <? fragment_count)
  then fail Errc.TooLarge "fragment count exceeds policy"
  else
    let id := c_next_fragment_message_id c in
    update (λ c, c <| c_next_fragment_message_id := w64 (id + 1) |>);;
    sequence ←
      (if decide (so_channel options = Channel.ReliableOrdered) then
         update (λ c, c <| c_next_ordered_sequence := w64 (c_next_ordered_sequence c + 1) |>);;
         mret (c_next_ordered_sequence c)
       else if decide (so_channel options = Channel.SequencedUnreliable) then
         update (λ c, c <| c_next_sequenced_sequence := w64 (c_next_sequenced_sequence c + 1) |>);;
         mret (c_next_sequenced_sequence c)
       else mret 0);
    send_fragments (Z.to_nat fragment_count) options id sequence type payload 0;;
    count Stat.fragmented_messages_sent;;
    refresh_runtime_stats.

Definition send_payload (data : ptr) (len : ST) : io World unit :=
  c ← this;
  if negb (bool_decide (c_state c = ConnectionState.Established))
  then fail Errc.StateError "connection not established"
  else if NetConfig.MaxEncryptedPlaintextBytes <? len
  then fail Errc.TooLarge "raw payload too large"
  else queue_raw_payload data len SendPriority.Normal.

(** [finish(rc)]: report queue pressure to the user. *)
Definition finish (options : SendOptions) (type : U8) (m : io World unit) : io World unit :=
  rc ← attempt m;
  when (negb (ok rc) && (bool_decide (code rc = Errc.QueueFull)
                         || bool_decide (code rc = Errc.Backpressure)))
    (emit_backpressure (so_channel options) type rc);;
  if ok rc then mret tt else lift (Err rc).

Definition send (options : SendOptions) (type : U8) (payload : list U8) : io World unit :=
  c ← this;
  if negb (bool_decide (c_state c = ConnectionState.Established))
  then fail Errc.StateError "connection not established"
  else if negb (channel_is_application (so_channel options))
  then fail Errc.InvalidArg "send channel must be an application channel"
  else if U16_MAX <? zlen payload then fail Errc.TooLarge "message payload too large"
  else
    let len := w16 (zlen payload) in
    if max_inline_payload_for_channel (so_channel options) <? len
    then finish options type (send_fragmented options type payload)
    else match so_channel options with
    | Channel.Reliable =>
        finish options type
          (send_reliable_message Channel.Reliable type (data_of payload) len
             (so_priority options) (so_lifetime_ms options))
    | Channel.ReliableOrdered =>
        update (λ c, c <| c_next_ordered_sequence := w64 (c_next_ordered_sequence c + 1) |>);;
        encoded ← lift (write_to NetConfig.MaxReliableMessageBytes
                          (write_ordered_payload (c_next_ordered_sequence c) (data_of payload) len));
        finish options type
          (send_reliable_message Channel.ReliableOrdered type (Some encoded) (w16 (zlen encoded))
             (so_priority options) (so_lifetime_ms options))
    | Channel.SequencedUnreliable =>
        update (λ c, c <| c_next_sequenced_sequence := w64 (c_next_sequenced_sequence c + 1) |>);;
        encoded ← lift (write_to NetConfig.MaxMessageBytes
                          (write_sequenced_payload (c_next_sequenced_sequence c) (data_of payload) len));
        finish options type
          (queue_message_packet Channel.SequencedUnreliable type (Some encoded)
             (w16 (zlen encoded)) (so_priority options))
    | _ =>
        finish options type
          (queue_message_packet Channel.Unreliable type (data_of payload) len (so_priority options))
    end.

(** [send_message(channel, type, data, len)] *)
Definition send_message (channel : Channel) (type : U8) (data : ptr) (len : U16) : io World unit :=
  if (0 <? len) && bool_decide (data = None)
  then fail Errc.InvalidArg "message data is null"
  else
    payload ← lift (bytes_at data len);
    send (mkSendOptions channel SendPriority.Normal 0) type payload.

Definition send_text (type : U8) (text : list U8) (options : SendOptions) : io World unit :=
  if U16_MAX <? zlen text then fail Errc.TooLarge "text payload too large"
  else send options type text.

(** ** The client hello *)

(** The hello that [send_client_hello] sends and [handle_server_hello_packet]
    rebuilds. *)
Definition current_hello (c : Client) : ClientHello :=
  let resume := client_enable_session_resumption (c_config c) && c_have_resumption_token c
                && negb (c_have_retry_token c) && c_attempted_resumption c in
  mkClientHello (kp_public (c_ephemeral c)) (c_client_nonce c)
    (c_have_retry_token c)
    (if c_have_retry_token c then c_retry_token c else default_retry_token)
    resume
    (if resume then c_resumption_token c else default_resumption_token).

Definition send_client_hello : io World unit :=
  c ← this;
  payload ← lift (write_to 128 (write_client_hello (current_hello c)));
  queue_packet PacketKind.Handshake false (Some payload) (zlen payload) SendPriority.High 0;;
  flush_pending.
End crypto.
