(* ===== verification/ClientRecv.v ===== *)
(** * The client: receiving and the tick

    The second half of [src/securecnet/lib/client.cpp]: retransmission,
    delivery of application messages, the handshake, opening of sealed packets,
    the receive loop, housekeeping, [connect], [close] and [tick]. *)
From S2P Require Import Prelude Result ByteBuf Config Message Packet Protocol Windows Payloads.
From S2P Require Import Reliability Ordered Fragmentation Congestion Crypto Stats Endpoint.
From S2P Require Import Socket Client.
#[local] Open Scope Z_scope.

(** ** Delivery to the application *)

(** The callbacks [emit_message] makes for [m], newest first. *)
Definition message_events (cb : Callbacks) (m : MsgView) : list Event :=
  (if cb_on_message cb then [OnMessage m] else [])
  ++ (if bool_decide (m_type m ∈ cb_binary cb) then [OnBinary m] else [])
  ++ (if bool_decide (m_type m ∈ cb_text cb) then [OnText (m_type m) (msg_bytes m)] else []).

(** [emit_message] on the log of events. *)
Definition emit_message (cb : Callbacks) (m : MsgView) (log : list Event) : list Event :=
  message_events cb m ++ log.

(** The callback passed to [_ordered.accept]; its state is the log and
    [delivered_count]. *)
Definition deliver_ordered (cb : Callbacks) (type : U8) (data : ptr) (len : U16)
    (x : list Event * U64) : Result * (list Event * U64) :=
  (success, (emit_message cb (mkMsgView Channel.ReliableOrdered type data len) x.1, w64 (x.2 + 1))).

(** [_stats.f += n] on a client. *)
Definition counted (f : Stat) (n : U64) (c : Client) : Client :=
  c <| c_stats := stat_add f n (c_stats c) |>.

(** Delivery cannot leave its buffers, so it is a function on the world. *)
Definition deliver_application_message (channel : Channel) (type : U8) (data : ptr) (len : U16)
    (delivery_sequence : U64) (w : World) : Result * World :=
  let c := w_client w in
  if decide (channel = Channel.ReliableOrdered) then
    let c1 := counted Stat.ordered_messages_received 1 c in
    let a := accept_ordered (deliver_ordered (c_callbacks c)) delivery_sequence type data len
               (c_ordered c) (w_events w, 0) in
    let c2 := c1 <| c_ordered := oa_window a |> in
    let '(events, delivered_count) := oa_state a in
    if negb (ok (oa_rc a)) then
      let c3 := counted Stat.ordered_messages_dropped 1 c2 in
      if decide (code (oa_rc a) = Errc.QueueFull)
      then (success, mkWorld (counted Stat.backpressure_events 1 c3) (w_net w) events)
      else (oa_rc a, mkWorld c3 (w_net w) events)
    else
      let c3 := if oa_buffered a then counted Stat.ordered_messages_buffered 1 c2 else c2 in
      let c4 := if oa_stale a then counted Stat.ordered_messages_dropped 1 c3 else c3 in
      (success, mkWorld (counted Stat.ordered_messages_released delivered_count c4) (w_net w) events)
  else if decide (channel = Channel.SequencedUnreliable) then
    let c1 := counted Stat.sequenced_messages_received 1 c in
    let '(fresh, s) := Sequenced.accept delivery_sequence (c_sequenced c) in
    let c2 := c1 <| c_sequenced := s |> in
    if negb fresh
    then (success, mkWorld (counted Stat.sequenced_messages_dropped 1 c2) (w_net w) (w_events w))
    else (success, mkWorld c2 (w_net w)
           (emit_message (c_callbacks c) (mkMsgView Channel.SequencedUnreliable type data len)
              (w_events w)))
  else
    (success, mkWorld c (w_net w)
       (emit_message (c_callbacks c) (mkMsgView channel type data len) (w_events w))).

Definition deliver_reassembled_message (message : FragmentedMessage) (w : World) : Result * World :=
  deliver_application_message (fm_channel message) (fm_type message)
    (data_of (fm_payload message)) (w16 (zlen (fm_payload message)))
    (fm_delivery_sequence message)
    (mkWorld (counted Stat.fragmented_messages_received 1 (w_client w)) (w_net w) (w_events w)).

(** A call that yields a [Result] and is not undefined. *)
Definition call (f : World → Result * World) : io World Result := λ w,
  let '(rc, w') := f w in (Done rc, w').

(** [_reassembler.accept(...)]: the callback does not touch the reassembler. *)
Definition reassemble (now : U64) (fragment : FragmentView) : io World (outcome unit * bool * bool) :=
  λ w,
  let r := accept_fragment deliver_reassembled_message now fragment
             (c_reassembler (w_client w)) w in
  let w' := mkWorld (w_client (re_x r) <| c_reassembler := re_state r |>) (w_net (re_x r))
              (w_events (re_x r)) in
  match re_rc r with
  | UB => (UB, w')
  | rc => (Done (rc, re_duplicate r, re_completed r), w')
  end.

Definition handle_fragment_payload (fragment : FragmentView) : io World unit :=
  now ← sys now_ms;
  '(rc, duplicate, completed) ← reassemble now fragment;
  match rc with
  | Err rc =>
      if decide (code rc = Errc.QueueFull) then
        count Stat.reassembly_memory_rejections;;
        count Stat.reassembly_drops
      else if decide (code rc = Errc.TooLarge) then
        count Stat.fragment_invalid_sets;;
        count Stat.reassembly_drops
      else
        count Stat.fragment_invalid_sets;;
        lift (Err rc)
  | _ =>
      when duplicate (count Stat.fragment_duplicates);;
      when completed (count Stat.reassemblies_completed)
  end.

(** [++_stats.f; fail_connection(reason, ..., text);] *)
Definition count_and_fail (f : Stat) (reason : CloseReason) (text : string) : io World unit :=
  count f;; fail_connection reason text.

(** [rc = deliver...; if (!rc.ok()) { ++_stats.protocol_errors; fail_connection(...); }] *)
Definition deliver_or_fail (channel : Channel) (type : U8) (data : ptr) (len : U16)
    (delivery_sequence : U64) (text : string) : io World unit :=
  rc ← call (deliver_application_message channel type data len delivery_sequence);
  when (negb (ok rc)) (count_and_fail Stat.protocol_errors CloseReason.ProtocolError text).

(** [++_stats.fragments_received; rc = handle_fragment_payload(fragment); ...] *)
Definition fragment_or_fail (fragment : FragmentView) : io World unit :=
  count Stat.fragments_received;;
  rc ← attempt (handle_fragment_payload fragment);
  when (negb (ok rc))
    (count_and_fail Stat.bad_packets CloseReason.InvalidPacket "fragment handling failed").

Section crypto.
Context `{Sodium}.

(** ** Dispatching message frames *)

Definition dispatch_control (msg : MsgView) : io World unit :=
  if m_type msg =? ControlType.ReliableAck then
    match read_from (m_data msg) (m_len msg) read_reliable_ack with
    | UB => undefined
    | Err _ => count_and_fail Stat.bad_packets CloseReason.InvalidPacket "malformed reliable ack"
    | Done (ack_channel, acked_message_id) =>
        ack_now ← sys now_ms;
        ack ← on_session ack_channel (acknowledge acked_message_id ack_now);
        (if ev_removed ack then
           count Stat.reliable_acks_received;;
           on_congestion (on_ack (ev_rtt_sample_valid ack) (ev_rtt_sample_ms ack)
                            (ev_retransmitted ack))
         else mret tt);;
        refresh_runtime_stats
    end
  else if m_type msg =? ControlType.Fragment then
    match read_from (m_data msg) (m_len msg) read_fragment_payload with
    | UB => undefined
    | Err _ => count_and_fail Stat.bad_packets CloseReason.InvalidPacket "malformed fragment payload"
    | Done fragment => fragment_or_fail fragment
    end
  else count_and_fail Stat.protocol_errors CloseReason.ProtocolError "unknown control message".

(** The delivery of a reliable payload that was not seen before. *)
Definition deliver_reliable (msg : MsgView) (reliable : PayloadView) : io World unit :=
  match (if m_type msg =? ControlType.Fragment
         then read_from (pl_data reliable) (pl_len reliable) read_fragment_payload
         else Err success) with
  | UB => undefined
  | Done fragment => fragment_or_fail fragment
  | Err _ =>
      if decide (m_channel msg = Channel.ReliableOrdered) then
        match read_from (pl_data reliable) (pl_len reliable) read_ordered_payload with
        | UB => undefined
        | Err _ => count_and_fail Stat.bad_packets CloseReason.InvalidPacket "malformed ordered payload"
        | Done ordered =>
            deliver_or_fail Channel.ReliableOrdered (m_type msg) (pl_data ordered) (pl_len ordered)
              (pl_id ordered) "ordered delivery failed"
        end
      else
        deliver_or_fail Channel.Reliable (m_type msg) (pl_data reliable) (pl_len reliable) 0
          "reliable delivery failed"
  end.

Definition dispatch_message_frame (msg : MsgView) : io World unit :=
  match m_channel msg with
  | Channel.Control => dispatch_control msg
  | Channel.Reliable | Channel.ReliableOrdered =>
      match read_from (m_data msg) (m_len msg) read_reliable_payload with
      | UB => undefined
      | Err _ => count_and_fail Stat.bad_packets CloseReason.InvalidPacket "malformed reliable payload"
      | Done reliable =>
          attempt (queue_control_ack (m_channel msg) (pl_id reliable));;
          fresh ← on_session (m_channel msg)
                    (λ s, let '(b, s') := accept_incoming (pl_id reliable) s in (Done b, s'));
          if negb fresh then mret tt
          else
            count Stat.reliable_messages_delivered;;
            deliver_reliable msg reliable
      end
  | Channel.SequencedUnreliable =>
      match read_from (m_data msg) (m_len msg) read_sequenced_payload with
      | UB => undefined
      | Err _ => count_and_fail Stat.bad_packets CloseReason.InvalidPacket "malformed sequenced payload"
      | Done sequenced =>
          deliver_or_fail Channel.SequencedUnreliable (m_type msg) (pl_data sequenced)
            (pl_len sequenced) (pl_id sequenced) "sequenced delivery failed"
      end
  | Channel.Unreliable =>
      deliver_or_fail (m_channel msg) (m_type msg) (m_data msg) (m_len msg) 0
        "application delivery failed"
  end.

(** The [for (;;)] loop of [dispatch_message_payload].  Every frame consumes at
    least its header; running out of [fuel] is [UB], and the safety theorem
    rules it out for [fuel] greater than the payload length. *)
Fixpoint dispatch_loop (fuel : nat) (reader : ByteReader) : io World unit :=
  match fuel with
  | O => undefined
  | S fuel' =>
      match read_message reader with
      | (UB, _) => undefined
      | (Err rc, _) =>
          if decide (code rc = Errc.EndOfStream) then mret tt
          else count_and_fail Stat.bad_packets CloseReason.InvalidPacket "malformed message frame"
      | (Done msg, reader') =>
          count Stat.message_frames_received;;
          dispatch_message_frame msg;;
          c ← this;
          if decide (c_state c = ConnectionState.Closed) then mret tt
          else dispatch_loop fuel' reader'
      end
  end.

Definition dispatch_message_payload (payload : ptr) (payload_len : ST) : io World unit :=
  dispatch_loop (S (Z.to_nat payload_len)) (mkReader payload payload_len 0).

(** ** Retransmission *)

(** The callback passed to [resend_due].  Its state pairs the world with a flag
    that records undefined behaviour, since [resend_due] expects a [Result]. *)
Definition resend_packet (channel : Channel) (pending : PendingReliableMessage) (x : bool * World)
    : Result * (bool * World) :=
  match queue_message_packet channel (p_user_type pending) (Some (p_encoded_payload pending))
          (w16 (zlen (p_encoded_payload pending))) (p_priority pending) x.2 with
  | (Done _, w) => (success, (x.1, w))
  | (Err rc, w) =>
      (if decide (code rc = Errc.QueueFull)
       then fail_result Errc.Backpressure "reliable send backpressure" else rc, (x.1, w))
  | (UB, w) => (fail_result Errc.Internal "undefined", (true, w))
  end.

(** [send_pending(session, channel)] *)
Definition send_pending (channel : Channel) (now : U64) : io World Result := λ w,
  let c := w_client w in
  let session := if decide (channel = Channel.ReliableOrdered) then c_ordered_reliable c
                 else c_reliable c in
  let '(rc, session', (ub, w1)) := resend_due now (resend_packet channel) session (false, w) in
  let c1 := w_client w1 in
  let c2 := if decide (channel = Channel.ReliableOrdered)
            then c1 <| c_ordered_reliable := session' |> else c1 <| c_reliable := session' |> in
  (if ub : bool then UB else Done rc, mkWorld c2 (w_net w1) (w_events w1)).

Definition total_retransmits (c : Client) : U64 :=
  w64 (retransmit_events (rs_loss (c_reliable c)) + retransmit_events (rs_loss (c_ordered_reliable c))).
Definition total_losses (c : Client) : U64 :=
  w64 (loss_events (rs_loss (c_reliable c)) + loss_events (rs_loss (c_ordered_reliable c))).

(** [if (!rc.ok() && rc.code != Backpressure) return rc; if (!rc.ok()) ++backpressure_events;] *)
Definition tolerate_backpressure (rc : Result) : io World unit :=
  if ok rc then mret tt
  else if decide (code rc = Errc.Backpressure) then count Stat.backpressure_events
  else lift (Err rc).

Definition pump_reliable : io World unit :=
  c ← this;
  if negb (bool_decide (c_state c = ConnectionState.Established)) then mret tt
  else
    now ← sys now_ms;
    let before_retransmits := total_retransmits c in
    let before_losses := total_losses c in
    expired_unordered ← on_session Channel.Reliable
      (λ s, let '(n, s') := expire_old now s in (Done n, s'));
    expired_ordered ← on_session Channel.ReliableOrdered
      (λ s, let '(n, s') := expire_old now s in (Done n, s'));
    (if (0 <? expired_unordered) || (0 <? expired_ordered) then
       count_n Stat.reliable_expired (w32 (expired_unordered + expired_ordered));;
       count_n Stat.reliable_messages_dropped (w32 (expired_unordered + expired_ordered));;
       count_n Stat.ordered_messages_dropped expired_ordered
     else mret tt);;
    rc ← send_pending Channel.Reliable now;
    tolerate_backpressure rc;;
    rc ← send_pending Channel.ReliableOrdered now;
    tolerate_backpressure rc;;
    c ← this;
    when (before_retransmits <? total_retransmits c)
      (count_n Stat.reliable_retransmits (total_retransmits c - before_retransmits));;
    (if before_losses <? total_losses c then
       let losses := total_losses c - before_losses in
       count_n Stat.reliable_loss_events losses;;
       adapt_congestion (on_loss now losses)
     else mret tt);;
    refresh_runtime_stats.

(** ** The handshake *)

Definition write_transcript (hello : ClientHello) (sh : ServerHello) : io ByteWriter unit :=
  write_u16 NetConfig.ProtocolVersion;;
  write_array NetConfig.KeyExchangePublicKeyBytes (client_public_key hello);;
  write_array NetConfig.ClientNonceBytes (client_nonce hello);;
  write_optional write_retry_token (ch_has_retry_token hello) (ch_retry_token hello);;
  write_optional write_resumption_token (ch_has_resumption_token hello) (ch_resumption_token hello);;
  write_u64 (server_conn_id sh);;
  write_array NetConfig.KeyExchangePublicKeyBytes (server_public_key sh);;
  write_array NetConfig.ServerNonceBytes (server_nonce sh);;
  write_optional write_resumption_token (sh_has_resumption_token sh) (sh_resumption_token sh).

Definition build_transcript_mac_input (hello : ClientHello) (sh : ServerHello) (out_cap : ST)
    : outcome (list U8) :=
  write_to out_cap (write_transcript hello sh).

Definition handle_retry_packet (packet : PacketView) : io World unit :=
  token ← lift (read_from (pv_payload packet) (payload_len (pv_h packet)) read_retry);
  c ← this;
  when (c_attempted_resumption c && negb (c_have_retry_token c))
    (count Stat.session_resumptions_rejected);;
  update (λ c, c <| c_retry_token := token |> <| c_have_retry_token := true |>);;
  count Stat.handshake_retries_received;;
  emit_log LogLevel.Trace "client received retry token";;
  send_client_hello.

(** The keys that a server hello authenticates: derived, and checked against
    its transcript MAC. *)
Definition authenticate_hello (c : Client) (hello : ServerHello) : outcome SessionKeys :=
  let? keys := crypto_derive_client_session_keys (c_ephemeral c) (Some (server_public_key hello))
                 (Z.of_nat NetConfig.KeyExchangePublicKeyBytes) in
  let? transcript := build_transcript_mac_input (current_hello c) hello 320 in
  let? mac := crypto_keyed_hash (Some (sk_rx keys)) (Z.of_nat NetConfig.SessionKeyBytes)
                (Some transcript) (zlen transcript) false (Z.of_nat NetConfig.TranscriptMacBytes) in
  let? same := crypto_constant_time_equal (Some mac) (Some (transcript_mac hello))
                 (Z.of_nat NetConfig.TranscriptMacBytes) in
  if negb same then Err (fail_result Errc.AuthFailed "server hello MAC mismatch") else Done keys.

(** The assignments once the hello is authenticated. *)
Definition install_session (keys : SessionKeys) (hello : ServerHello) (now : U64) (c : Client)
    : Client :=
  c <| c_session_keys := keys |>
    <| c_ephemeral := mkKeyPair (kp_public (c_ephemeral c))
                        (crypto_secure_zero (kp_secret (c_ephemeral c))) |>
    <| c_conn_id := server_conn_id hello |>
    <| c_server_nonce := server_nonce hello |>
    <| c_packet_window := ReplayWindow.reset (c_packet_window c) |>
    <| c_last_recv_ms := now |>
    <| c_resumption_token := (if sh_has_resumption_token hello then sh_resumption_token hello
                              else default_resumption_token) |>
    <| c_have_resumption_token := sh_has_resumption_token hello |>.

Definition handle_server_hello_packet (packet : PacketView) : io World unit :=
  hello ← lift (read_from (pv_payload packet) (payload_len (pv_h packet)) read_server_hello);
  c ← this;
  keys ← lift (authenticate_hello c hello);
  now ← sys now_ms;
  update (install_session keys hello now);;
  when (c_attempted_resumption c && negb (c_have_retry_token c))
    (count Stat.session_resumptions_accepted);;
  rc ← attempt queue_keepalive;
  if negb (ok rc) then
    fail_connection CloseReason.InternalError "failed to send client finish";;
    lift (Err rc)
  else
    transition_state ConnectionState.Established;;
    count Stat.sessions_established;;
    count Stat.handshake_successes;;
    refresh_runtime_stats;;
    emit_log LogLevel.Info "client handshake established".

Definition handle_handshake_packet (packet : PacketView) : io World unit :=
  if packet_header_encrypted (pv_h packet)
  then fail Errc.ProtocolError "encrypted handshake packet is illegal"
  else
    c ← this;
    if negb (bool_decide (c_state c = ConnectionState.Handshaking))
    then fail Errc.StateError "handshake packet received in wrong state"
    else if bool_decide (pv_payload packet = None) || (payload_len (pv_h packet) =? 0)
    then fail Errc.BadPacket "empty handshake packet"
    else
      match default [] (pv_payload packet) !! 0%nat with
      | None => undefined
      | Some type =>
          if type =? HandshakeType.Retry then handle_retry_packet packet
          else if type =? HandshakeType.ServerHello then handle_server_hello_packet packet
          else fail Errc.ProtocolError "unexpected handshake packet type"
      end.

(** ** Established traffic *)

(** The decryption step of [handle_established_packet]. *)
Definition open_payload (keys : SessionKeys) (packet : PacketView) : outcome (list U8) :=
  let h := pv_h packet in
  let? aad := write_to NetConfig.PacketHeaderBytes (write_packet_header h) in
  let nonce := crypto_make_packet_nonce (conn_id h) (seq h) in
  crypto_aead_decrypt (Some (sk_rx keys)) (Z.of_nat NetConfig.SessionKeyBytes)
    (Some nonce) NetConfig.AeadNonceBytes (Some aad) (zlen aad)
    (pv_payload packet) (payload_len h) NetConfig.MaxEncryptedPlaintextBytes.

(** What the three orderly ends of a connection discard. *)
Definition discard_session (c : Client) : Client :=
  c <| c_session_keys := clear_keys (c_session_keys c) |>
    <| c_reliable := clear (c_reliable c) |>
    <| c_ordered_reliable := clear (c_ordered_reliable c) |>
    <| c_pending := [] |>
    <| c_pending_bytes := 0 |>.

(** A valid close frame from the peer. *)
Definition close_from_peer (reason : CloseReason) : io World unit :=
  count Stat.closes_received;;
  update (λ c, c <| c_close_reason := reason |>);;
  sys UdpSocket.close;;
  update discard_session;;
  transition_state ConnectionState.Closed.

(** The [switch] on the packet kind. *)
Definition dispatch_kind (k : U8) (logical : PacketView) : io World unit :=
  let len := payload_len (pv_h logical) in
  if k =? kind_value PacketKind.Raw then mret tt
  else if k =? kind_value PacketKind.Message then
    dispatch_message_payload (pv_payload logical) len;;
    c ← this;
    if decide (c_state c = ConnectionState.Closed)
    then fail Errc.Closed "connection closed" else mret tt
  else if k =? kind_value PacketKind.Keepalive then count Stat.keepalives_received
  else if k =? kind_value PacketKind.Close then
    match read_from (pv_payload logical) len read_close_frame with
    | UB => undefined
    | Err rc => count Stat.bad_packets;; lift (Err rc)
    | Done reason => close_from_peer reason;; fail Errc.Closed "remote closed connection"
    end
  else if k =? kind_value PacketKind.Handshake
  then fail Errc.ProtocolError "handshake packet in secure path"
  else fail Errc.ProtocolError "unknown packet kind".

Definition handle_established_packet (packet : PacketView) : io World unit :=
  let h := pv_h packet in
  if negb (packet_header_encrypted h)
  then fail Errc.ProtocolError "unencrypted secure packet"
  else
    c ← this;
    if keys_empty (c_session_keys c) then fail Errc.StateError "session keys missing"
    else if negb (conn_id h =? c_conn_id c)
    then fail Errc.ProtocolError "unexpected connection id"
    else
      match open_payload (c_session_keys c) packet with
      | UB => undefined
      | Err rc =>
          count Stat.auth_failures;;
          count Stat.decrypt_failures;;
          lift (Err rc)
      | Done plaintext =>
          if seq h =? 0 then fail Errc.ProtocolError "encrypted packet sequence is invalid"
          else
            let '(fresh, window) := ReplayWindow.accept (seq h) (c_packet_window c) in
            update (λ c, c <| c_packet_window := window |>);;
            if negb fresh then
              count Stat.replays_dropped;;
              fail Errc.Replay "replayed packet"
            else
              now ← sys now_ms;
              update (λ c, c <| c_last_recv_ms := now |>);;
              let logical :=
                mkPacketView
                  (mkPacketHeader (magic h) (version h) (kind h) (flags h) (conn_id h) (seq h)
                     (w32 (zlen plaintext)))
                  (data_of plaintext) in
              emit_on_packet logical;;
              emit_packet_debug "recv" logical;;
              dispatch_kind (kind h) logical
      end.

(** The reaction to a failed handler. *)
Definition handle_error (rc : Result) : io World unit :=
  match code rc with
  | Errc.UnsupportedVersion =>
      count Stat.unsupported_version_packets;;
      fail_connection CloseReason.UnsupportedVersion "unsupported version"
  | Errc.AuthFailed => fail_connection CloseReason.AuthenticationFailed "authentication failed"
  | Errc.ProtocolError | Errc.StateError =>
      count_and_fail Stat.protocol_errors CloseReason.ProtocolError "protocol error"
  | Errc.BadPacket | Errc.Truncated =>
      count_and_fail Stat.bad_packets CloseReason.InvalidPacket "invalid packet"
  | _ => mret tt
  end.

Definition handle_packet (packet : PacketView) : io World unit :=
  let h := pv_h packet in
  c ← this;
  if kind h =? kind_value PacketKind.Handshake then
    emit_on_packet packet;;
    emit_packet_debug "recv" packet;;
    rc ← attempt (handle_handshake_packet packet);
    handle_error rc
  else if (kind h =? kind_value PacketKind.Close)
          && bool_decide (c_state c = ConnectionState.Handshaking)
          && negb (packet_header_encrypted h) then
    emit_on_packet packet;;
    emit_packet_debug "recv" packet;;
    match read_from (pv_payload packet) (payload_len h) read_close_frame with
    | UB => undefined
    | Done reason => close_from_peer reason
    | Err rc => handle_error rc
    end
  else
    rc ← attempt (handle_established_packet packet);
    if decide (code rc = Errc.Replay) then mret tt else handle_error rc.

(** The [for (;;)] loop of [pump_receive].  Every iteration takes a datagram
    from the socket; running out of [fuel] is [UB], and the safety theorem
    rules it out for [fuel] greater than the number of waiting datagrams. *)
Fixpoint receive_loop (fuel : nat) : io World unit :=
  match fuel with
  | O => undefined
  | S fuel' => λ w,
      match sys (UdpSocket.recv NetConfig.MaxPacketBytes) w with
      | (UB, w1) => (UB, w1)
      | (Err rc, w1) =>
          (if decide (code rc = Errc.WouldBlock) then count Stat.would_block_events
           else if decide (code rc = Errc.Truncated) then
             count Stat.truncated_datagrams;; receive_loop fuel'
           else count Stat.socket_errors;; lift (Err rc)) w1
      | (Done bytes, w1) =>
          (count Stat.packets_received;;
           count_n Stat.bytes_received (zlen bytes);;
           match parse_packet (Some bytes) (zlen bytes) with
           | UB => undefined
           | Err rc =>
               if decide (code rc = Errc.UnsupportedVersion) then
                 count_and_fail Stat.unsupported_version_packets CloseReason.UnsupportedVersion
                   "unsupported version"
               else count_and_fail Stat.bad_packets CloseReason.InvalidPacket "parse failed"
           | Done packet =>
               handle_packet packet;;
               c ← this;
               if decide (c_state c = ConnectionState.Closed) then mret tt
               else receive_loop fuel'
           end) w1
      end
  end.

Definition pump_receive : io World unit := λ w,
  receive_loop (S (length (n_inbox (w_net w)))) w.

(** ** Housekeeping *)

(** [_reassembler.expire_old(now, ...)], in the order the map is traversed. *)
Definition expire_reassemblies (now : U64) : io World unit := λ w,
  let c := w_client w in
  let on_expire (_ : U64) (s : TransportStats) :=
    stat_add Stat.reassembly_drops 1 (stat_add Stat.reassemblies_expired 1 s) in
  let '(r, s) := expire_entries now on_expire (map_to_list (ra_entries (c_reassembler c))).*1
                   (c_reassembler c) (c_stats c) in
  (Done tt, mkWorld (c <| c_reassembler := r |> <| c_stats := s |>) (w_net w) (w_events w)).

Definition run_housekeeping : io World unit :=
  now ← sys now_ms;
  expire_reassemblies now;;
  c ← this;
  let cfg := c_config c in
  match c_state c with
  | ConnectionState.Handshaking =>
      (if negb (c_handshake_started_ms c =? 0)
          && (client_handshake_timeout_ms cfg <? w64 (now - c_handshake_started_ms c))
       then count_and_fail Stat.establish_timeouts CloseReason.EstablishTimeout "handshake timeout"
       else mret tt);;
      refresh_runtime_stats
  | ConnectionState.Established =>
      if negb (c_last_recv_ms c =? 0)
         && (client_idle_timeout_ms cfg <? w64 (now - c_last_recv_ms c)) then
        count Stat.idle_timeouts;;
        attempt (queue_close_packet CloseReason.IdleTimeout true);;
        update (λ c, c <| c_close_reason := CloseReason.IdleTimeout |>);;
        transition_state ConnectionState.Closing;;
        refresh_runtime_stats
      else if (c_last_send_ms c =? 0)
              || (client_keepalive_interval_ms cfg <=? w64 (now - c_last_send_ms c)) then
        rc ← attempt queue_keepalive;
        refresh_runtime_stats;;
        if ok rc then mret tt else lift (Err rc)
      else refresh_runtime_stats
  | ConnectionState.Closing =>
      (if negb (c_last_send_ms c =? 0)
          && (client_close_drain_ms cfg <=? w64 (now - c_last_send_ms c)) then
         sys UdpSocket.close;;
         update discard_session;;
         transition_state ConnectionState.Closed
       else mret tt);;
      refresh_runtime_stats
  | ConnectionState.Idle | ConnectionState.Closed => refresh_runtime_stats
  end.

Definition tick : io World unit :=
  flush_pending;;
  pump_reliable;;
  pump_receive;;
  run_housekeeping.

(** ** Opening and closing a connection *)

Definition close (reason : CloseReason) : io World unit :=
  c ← this;
  match c_state c with
  | ConnectionState.Closed | ConnectionState.Idle => mret tt
  | state =>
      let encrypted := bool_decide (state = ConnectionState.Established)
                       || bool_decide (state = ConnectionState.Closing) in
      rc ← attempt (queue_close_packet reason encrypted);
      if negb (ok rc) then
        fail_connection reason "failed to queue close packet";;
        lift (Err rc)
      else
        update (λ c, c <| c_close_reason := reason |>);;
        transition_state ConnectionState.Closing;;
        refresh_runtime_stats
  end.

(** [runtime] is the status of the socket runtime. *)
Definition runtime_status (runtime : Result) : Result :=
  if ok runtime then crypto_runtime_status else runtime.

Definition connect (runtime : Result) (server : Endpoint) : io World unit :=
  if negb (ok (runtime_status runtime)) then lift (Err (runtime_status runtime))
  else
    reset_for_connect;;
    update (λ c, c <| c_server := normalize_connect_endpoint server |>);;
    c ← this;
    sys (UdpSocket.open (sa_family (c_server c)));;
    sys (UdpSocket.connect (c_server c));;
    sys (UdpSocket.set_nonblocking true);;
    random ← sys (random_bytes 32);
    match crypto_generate_keypair random with
    | UB => undefined
    | Err rc => sys UdpSocket.close;; lift (Err rc)
    | Done keys =>
        nonce ← sys (random_bytes NetConfig.ClientNonceBytes);
        update (λ c, c <| c_ephemeral := keys |>
                       <| c_client_nonce := nonce |>
                       <| c_stats := stat_set Stat.handshake_attempts 1 reset_stats |>
                       <| c_attempted_resumption :=
                            client_enable_session_resumption (c_config c)
                            && c_have_resumption_token c |>);;
        c ← this;
        when (c_attempted_resumption c) (count Stat.session_resumptions_attempted);;
        now ← sys now_ms;
        update (λ c, c <| c_handshake_started_ms := now |>);;
        transition_state ConnectionState.Handshaking;;
        refresh_runtime_stats;;
        emit_log LogLevel.Info "client starting handshake";;
        send_client_hello
    end.

(** [Client(config)] at time [now]. *)
Definition new_client (config : ClientConfig) (now : U64) : outcome Client :=
  let rel := client_reliability config in
  let? cc := configure_congestion (client_congestion config)
               (client_send_budget_bytes_per_second config) new_congestion in
  let c :=
    mkClient config EpNone ConnectionState.Idle CloseReason.Normal 0 1 0 0 0
      (rate_bytes_per_second cc) now cc 0 1 1 1
      default_keypair default_session_keys
      (zeros NetConfig.ClientNonceBytes) (zeros NetConfig.ServerNonceBytes)
      default_retry_token false default_resumption_token false false
      fresh_window no_callbacks []
      (configure rel new_reliable_session) (configure rel new_reliable_session)
      (set_max_buffered (ordered_receive_window rel) (new_ordered 64))
      fresh_sequenced
      (configure_reassembler (client_fragmentation config) new_reassembler)
      reset_stats in
  Done (c <| c_stats := refreshed_stats c |>).
End crypto.
