(* ===== verification/ClientInv.v ===== *)
(** * The client: invariant and safety

    An invariant of the client and of the log of its calls, a Hoare-style
    [Safe] judgement, and the proof that every operation of the client is safe:
    no undefined behaviour, every loop terminates, the invariant holds after. *)
From stdpp Require Import sorting.
From S2P Require Import Prelude Result Hoare ByteBuf Config Message Packet Protocol Windows Payloads.
From S2P Require Import Reliability Ordered Fragmentation Congestion Crypto Stats Endpoint.
From S2P Require Import Socket Client ClientRecv.
#[local] Open Scope Z_scope.

(** Read fields of updated clients. *)
Ltac fields :=
  cbn [assign assign_config assign_server assign_state assign_close_reason assign_conn_id
    assign_seq assign_handshake_started_ms assign_last_recv_ms assign_last_send_ms
    assign_send_budget_bytes assign_last_budget_refill_ms assign_congestion
    assign_pending_bytes assign_next_fragment_message_id assign_next_ordered_sequence
    assign_next_sequenced_sequence assign_ephemeral assign_session_keys assign_client_nonce
    assign_server_nonce assign_retry_token assign_have_retry_token assign_resumption_token
    assign_have_resumption_token assign_attempted_resumption assign_packet_window
    assign_callbacks assign_pending assign_reliable assign_ordered_reliable assign_ordered
    assign_sequenced assign_reassembler assign_stats c_config c_server c_state
    c_close_reason c_conn_id c_seq c_handshake_started_ms c_last_recv_ms c_last_send_ms
    c_send_budget_bytes c_last_budget_refill_ms c_congestion c_pending_bytes
    c_next_fragment_message_id c_next_ordered_sequence c_next_sequenced_sequence c_ephemeral
    c_session_keys c_client_nonce c_server_nonce c_retry_token c_have_retry_token
    c_resumption_token c_have_resumption_token c_attempted_resumption c_packet_window
    c_callbacks c_pending c_reliable c_ordered_reliable c_ordered c_sequenced c_reassembler
    c_stats].
Ltac fields_in H :=
  cbn [assign assign_config assign_server assign_state assign_close_reason assign_conn_id
    assign_seq assign_handshake_started_ms assign_last_recv_ms assign_last_send_ms
    assign_send_budget_bytes assign_last_budget_refill_ms assign_congestion
    assign_pending_bytes assign_next_fragment_message_id assign_next_ordered_sequence
    assign_next_sequenced_sequence assign_ephemeral assign_session_keys assign_client_nonce
    assign_server_nonce assign_retry_token assign_have_retry_token assign_resumption_token
    assign_have_resumption_token assign_attempted_resumption assign_packet_window
    assign_callbacks assign_pending assign_reliable assign_ordered_reliable assign_ordered
    assign_sequenced assign_reassembler assign_stats c_config c_server c_state
    c_close_reason c_conn_id c_seq c_handshake_started_ms c_last_recv_ms c_last_send_ms
    c_send_budget_bytes c_last_budget_refill_ms c_congestion c_pending_bytes
    c_next_fragment_message_id c_next_ordered_sequence c_next_sequenced_sequence c_ephemeral
    c_session_keys c_client_nonce c_server_nonce c_retry_token c_have_retry_token
    c_resumption_token c_have_resumption_token c_attempted_resumption c_packet_window
    c_callbacks c_pending c_reliable c_ordered_reliable c_ordered c_sequenced c_reassembler
    c_stats] in H.

(** ** The invariant *)

(** The transitions of the connection state machine. *)
Definition legal_transition (a b : ConnectionState) : bool :=
  match a, b with
  | _, ConnectionState.Idle => true
  | ConnectionState.Idle, ConnectionState.Handshaking => true
  | ConnectionState.Handshaking, ConnectionState.Established => true
  | (ConnectionState.Handshaking | ConnectionState.Established), ConnectionState.Closing => true
  | _, ConnectionState.Closed => true
  | _, _ => false
  end.

Definition legal_event (e : Event) : bool :=
  match e with OnStateChange a b => legal_transition a b | _ => true end.

(** The events since [_seq] was last reset, and how many numbers were taken. *)
Fixpoint epoch (log : list Event) : list Event :=
  match log with
  | [] => []
  | SessionReset :: _ => []
  | e :: log' => e :: epoch log'
  end.
Fixpoint allocations (log : list Event) : Z :=
  match log with
  | [] => 0
  | SeqAllocated :: log' => 1 + allocations log'
  | _ :: log' => allocations log'
  end.

(** Every sealing directly follows the allocation of the number in its nonce. *)
Fixpoint sealed_ok (log : list Event) : Prop :=
  match log with
  | [] => True
  | Sealed _ nonce :: log' =>
      (∃ id log'', log' = SeqAllocated :: log'' ∧
         nonce = crypto_make_packet_nonce id (w64 (allocations (epoch log')))) ∧
      sealed_ok log'
  | _ :: log' => sealed_ok log'
  end.

(** Events that none of the above constrains. *)
Definition quiet (e : Event) : bool :=
  match e with
  | OnStateChange _ _ | SessionReset | SeqAllocated | Sealed _ _ => false
  | _ => true
  end.

Record log_ok (c : Client) (log : list Event) : Prop := {
  lo_seq : c_seq c = w64 (1 + allocations (epoch log));
  lo_sealed : sealed_ok log;
  lo_legal : Forall (λ e, legal_event e = true) log;
}.

(** Configurations that [connect] accepts. *)
Definition client_usable (cfg : ClientConfig) : Prop :=
  client_typed cfg ∧ validate_client_config cfg = success.

(** A queued datagram is a well-formed packet. *)
Record pending_ok (p : PendingPacket) : Prop := {
  po_len : NetConfig.PacketHeaderBytes <= pp_len p <= NetConfig.MaxPacketBytes;
  po_bytes : zlen (pp_bytes p) = NetConfig.MaxPacketBytes;
  po_parses : ∃ v, parse_packet (Some (take (Z.to_nat (pp_len p)) (pp_bytes p))) (pp_len p) = Done v;
}.

Definition queue_len (q : list PendingPacket) : Z := foldr (λ p n, pp_len p + n) 0 q.

Definition by_priority (a b : PendingPacket) : Prop :=
  priority_value (pp_priority b) <= priority_value (pp_priority a).

Record queue_ok (cfg : ClientConfig) (q : list PendingPacket) : Prop := {
  qo_each : Forall pending_ok q;
  qo_count : zlen q <= client_max_pending_packets cfg;
  qo_sorted : StronglySorted by_priority q;
}.

(** Every reassembly buffer has a slot per fragment. *)
Definition entries_ok (m : gmap U64 Entry) : Prop :=
  map_Forall (λ _ e, zlen (en_received e) = en_fragment_count e) m.

Definition token_ok (t : ResumptionToken) : Prop :=
  is_array NetConfig.ResumptionTokenMacBytes (res_mac t).

Record client_ok (c : Client) : Prop := {
  co_usable : client_usable (c_config c);
  co_reliable : rs_cfg (c_reliable c) = client_reliability (c_config c);
  co_ordered_reliable : rs_cfg (c_ordered_reliable c) = client_reliability (c_config c);
  co_congestion : cc_inv (client_congestion (c_config c))
                    (client_send_budget_bytes_per_second (c_config c)) (c_congestion c);
  co_budget : 0 <= c_send_budget_bytes c <= bucket_cap_bytes (c_congestion c);
  co_queue : queue_ok (c_config c) (c_pending c);
  co_bytes : c_pending_bytes c = queue_len (c_pending c);
  co_conn_id : is_u64 (c_conn_id c);
  co_rx : is_array 32 (sk_rx (c_session_keys c));
  co_tx : is_array 32 (sk_tx (c_session_keys c));
  co_wiped : c_state c = ConnectionState.Idle ∨ c_state c = ConnectionState.Closed →
             keys_empty (c_session_keys c) = true;
  co_public : is_array 32 (kp_public (c_ephemeral c));
  co_secret : is_array 32 (kp_secret (c_ephemeral c));
  co_nonce : is_array 16 (c_client_nonce c);
  co_retry : is_array 16 (rt_mac (c_retry_token c));
  co_resumption : token_ok (c_resumption_token c);
  co_entries : entries_ok (ra_entries (c_reassembler c));
}.

(** The invariant of a world whose socket holds at most [k] datagrams, and the
    same in connection state [σ]. *)
Record Inv (k : nat) (w : World) : Prop := {
  iv_client : client_ok (w_client w);
  iv_log : log_ok (w_client w) (w_events w);
  iv_inbox : (length (n_inbox (w_net w)) <= k)%nat;
}.
Definition At (σ : ConnectionState) (k : nat) (w : World) : Prop :=
  Inv k w ∧ c_state (w_client w) = σ.

(** ** Steps of the client *)

Lemma wp_this E w (Q : Client → World → Prop) : Q (w_client w) w → wp E this w Q.
Proof. done. Qed.
Lemma wp_update E f w (Q : unit → World → Prop) :
  Q tt (mkWorld (f (w_client w)) (w_net w) (w_events w)) → wp E (update f) w Q.
Proof. done. Qed.
Lemma wp_emit E e w (Q : unit → World → Prop) :
  Q tt (mkWorld (w_client w) (w_net w) (e :: w_events w)) → wp E (emit e) w Q.
Proof. done. Qed.
Lemma safe_this {B} P (f : Client → io World B) :
  (∀ w, P w → wp P (f (w_client w)) w (λ _, P)) → Safe P (this ≫= f).
Proof. intros Hf w Hw. apply wp_bind, wp_this. by apply Hf. Qed.

(** An operation that is safe in every connection state is safe. *)
Lemma safe_at {A} k (m : io World A) : (∀ σ, Safe (At σ k) m) → Safe (Inv k) m.
Proof.
  intros Hm w Hw. eapply wp_safe; [apply (Hm (c_state (w_client w)))|by split|by intros ? [? _]|].
  by intros ? ? [? _].
Qed.

(** ** Bookkeeping preserves the invariant *)

(** A change of fields the invariant does not mention. *)
Ltac same_fields := intros []; split; fields; done.

Lemma client_ok_stats c s : client_ok c → client_ok (c <| c_stats := s |>).
Proof. same_fields. Qed.
Lemma log_ok_stats c s log : log_ok c log → log_ok (c <| c_stats := s |>) log.
Proof. same_fields. Qed.

Lemma quiet_allocations e log : quiet e = true → allocations (epoch (e :: log)) = allocations (epoch log).
Proof. by destruct e. Qed.
Lemma quiet_sealed e log : quiet e = true → sealed_ok log → sealed_ok (e :: log).
Proof. by destruct e. Qed.
Lemma quiet_legal e : quiet e = true → legal_event e = true.
Proof. by destruct e. Qed.

Lemma log_ok_quiet c e log : quiet e = true → log_ok c log → log_ok c (e :: log).
Proof.
  intros He []. split; [by rewrite quiet_allocations|by apply quiet_sealed|].
  constructor; [by apply quiet_legal|done].
Qed.

Lemma log_ok_seq c c' log : c_seq c' = c_seq c → log_ok c log → log_ok c' log.
Proof. intros Heq []. split; [congruence|done|done]. Qed.

(** An update that keeps the state and the sequence number. *)
Lemma At_update σ k w c' :
  (client_ok (w_client w) → client_ok c') →
  c_state c' = c_state (w_client w) → c_seq c' = c_seq (w_client w) →
  At σ k w → At σ k (mkWorld c' (w_net w) (w_events w)).
Proof.
  intros Hf Hst Hseq [[] <-]. split; [|done]. split; cbn [w_client w_net w_events]; [by apply Hf| |done].
  by eapply log_ok_seq.
Qed.

Lemma safe_update σ k f :
  (∀ c, client_ok c → c_state c = σ → client_ok (f c)) → (∀ c, c_state (f c) = c_state c) →
  (∀ c, c_seq (f c) = c_seq c) → Safe (At σ k) (update f).
Proof.
  intros Hf Hst Hseq w Hw. apply wp_update. apply At_update; [|done..|done].
  intros. apply Hf; [done|apply Hw].
Qed.

Lemma safe_emit σ k e : quiet e = true → Safe (At σ k) (emit e).
Proof.
  intros He w [[] Hs]. apply wp_emit. split; [|done]. split; cbn; [done| |done]. by apply log_ok_quiet.
Qed.

Lemma count_n_safe σ k f n : Safe (At σ k) (count_n f n).
Proof. apply safe_update; [|done..]. intros c Hc _. by apply client_ok_stats. Qed.
Lemma count_safe σ k f : Safe (At σ k) (count f).
Proof. apply count_n_safe. Qed.
Lemma refresh_safe σ k : Safe (At σ k) refresh_runtime_stats.
Proof. apply safe_update; [|done..]. intros c Hc _. by apply client_ok_stats. Qed.

(** System calls leave the client alone and do not add to the inbox. *)
Lemma sys_safe {A} σ k (m : io Net A) :
  (∀ n, (m n).1 ≠ UB ∧ (length (n_inbox (m n).2) <= length (n_inbox n))%nat) →
  Safe (At σ k) (sys m).
Proof.
  intros Hm w [[Hc Hl Hi] Hs]. unfold wp, sys. destruct (Hm (w_net w)) as [H1 H2].
  destruct (m (w_net w)) as [o n]. cbn in *.
  destruct o; [| |done]; (split; [|done]; split; cbn; [done..|lia]).
Qed.

Lemma now_ms_safe σ k : Safe (At σ k) (sys now_ms).
Proof. apply sys_safe. intros n. unfold now_ms. destruct (n_clock n); by split. Qed.
Lemma random_bytes_safe σ k len : Safe (At σ k) (sys (random_bytes len)).
Proof. apply sys_safe. intros n. unfold random_bytes. destruct (n_random n); by split. Qed.
Lemma close_safe σ k : Safe (At σ k) (sys UdpSocket.close).
Proof.
  apply sys_safe. intros n. unfold UdpSocket.close, UdpSocket.is_open, mbind, io_bind.
  by destruct (n_open n).
Qed.

Lemma emit_log_safe σ k l t : Safe (At σ k) (emit_log l t).
Proof. apply safe_this. intros w Hw. by apply safe_when; [apply safe_emit|]. Qed.
Lemma emit_packet_debug_safe σ k d v : Safe (At σ k) (emit_packet_debug d v).
Proof. apply safe_this. intros w Hw. by apply safe_when; [apply safe_emit|]. Qed.
Lemma emit_on_packet_safe σ k v : Safe (At σ k) (emit_on_packet v).
Proof. apply safe_this. intros w Hw. by apply safe_when; [apply safe_emit|]. Qed.
Lemma emit_backpressure_safe σ k ch t rc : Safe (At σ k) (emit_backpressure ch t rc).
Proof. apply safe_this. intros w Hw. by apply safe_when; [apply safe_emit|]. Qed.

#[export] Hint Resolve count_n_safe count_safe
  refresh_safe now_ms_safe random_bytes_safe close_safe emit_log_safe emit_packet_debug_safe
  emit_on_packet_safe emit_backpressure_safe : safe.

(** ** Queueing a packet *)

(** A pointer a call may read [n] bytes from; null is refused by the callee. *)
Definition readable (p : ptr) (n : ST) : Prop :=
  match p with Some bs => n <= zlen bs | None => True end.

Lemma bytes_at_readable p n :
  readable p n → (0 <? n) && bool_decide (p = None) = false →
  ∃ bs, bytes_at p n = Done bs ∧ zlen bs = Z.max 0 n.
Proof.
  intros Hr Hg. unfold bytes_at. destruct (Z.leb_spec n 0); [eexists; split; [done|simpl; lia]|].
  destruct p as [bs|]; [|rewrite (proj2 (Z.ltb_lt _ _)) in Hg by lia; done]. simpl in Hr.
  rewrite (proj2 (Z.leb_le _ _)) by lia. eexists. split; [done|]. rewrite length_take. lia.
Qed.

Lemma is_array_readable n a : is_array n a → bytes_at (Some a) (Z.of_nat n) = Done a.
Proof. intros [<- _]. apply bytes_at_all. Qed.

Lemma write_header_to h :
  header_typed h →
  write_to NetConfig.PacketHeaderBytes (write_packet_header h) = Done (enc_header h).
Proof.
  intros Hh. unfold write_to. change (Z.to_nat NetConfig.PacketHeaderBytes) with 28%nat.
  change (mkWriter (Some (zeros 28)) NetConfig.PacketHeaderBytes 0) with (writer_at [] (zeros 28)).
  rewrite wire_put by (done || (rewrite length_enc_header; simpl; lia)).
  by rewrite written_at.
Qed.

(** The header [queue_packet] builds. *)
Definition out_header (kind : PacketKind) (encrypted : bool) (id sequence : U64) (len : U32) :=
  mkPacketHeader NetConfig.Magic NetConfig.ProtocolVersion (kind_value kind)
    (if encrypted then PacketFlagEncrypted else 0) id sequence len.

Lemma out_header_typed k e id s len :
  is_u64 id → is_u64 s → is_u32 len → header_typed (out_header k e id s len).
Proof. intros. unfold out_header, header_typed. destruct k, e; cbn; split_and!; (done || ulia). Qed.

Lemma out_header_valid k e id s len :
  len <= NetConfig.MaxPayloadBytes → validate_packet_header (out_header k e id s len) = success.
Proof.
  intros Hl. unfold validate_packet_header. change max_payload_bytes with NetConfig.MaxPayloadBytes.
  cbn [payload_len out_header magic version kind flags]. rewrite (proj2 (Z.ltb_ge _ _)) by done.
  by destruct k, e.
Qed.

Lemma out_header_encrypted k e id s len : packet_header_encrypted (out_header k e id s len) = e.
Proof. by destruct e. Qed.

Lemma pack_pending_spec h body prio :
  header_typed h → validate_packet_header h = success → payload_len h = zlen body →
  zlen body <= NetConfig.MaxPayloadBytes →
  pack_pending h body prio =
    Done (mkPendingPacket (enc_header h ++ body ++ drop (28 + length body) (zeros 1300))
            (28 + zlen body) prio).
Proof.
  intros Ht Hv Hl Hm. change NetConfig.MaxPayloadBytes with 1272 in Hm. unfold pack_pending.
  assert ((if zlen body =? 0 then None else Some body) = data_of body) as ->.
  { unfold data_of. destruct body; done. }
  change (Z.to_nat NetConfig.MaxPacketBytes) with 1300%nat.
  change NetConfig.MaxPacketBytes with (zlen (zeros 1300)).
  rewrite pack_packet_spec; [done|done|done|done|]. unfold zeros. rewrite length_replicate. lia.
Qed.

Lemma pending_ok_packed h body prio :
  header_typed h → validate_packet_header h = success → payload_len h = zlen body →
  zlen body <= NetConfig.MaxPayloadBytes →
  pending_ok (mkPendingPacket (enc_header h ++ body ++ drop (28 + length body) (zeros 1300))
                (28 + zlen body) prio).
Proof.
  intros Ht Hv Hl Hm. change NetConfig.MaxPayloadBytes with 1272 in Hm. split; cbn [pp_len pp_bytes].
  - change NetConfig.PacketHeaderBytes with 28. change NetConfig.MaxPacketBytes with 1300. lia.
  - rewrite !length_app, length_drop, length_enc_header. unfold zeros. rewrite length_replicate.
    change NetConfig.MaxPacketBytes with 1300. lia.
  - assert (take (Z.to_nat (28 + zlen body)) (enc_header h ++ body ++ drop (28 + length body) (zeros 1300))
      = enc_header h ++ body) as ->.
    { rewrite app_assoc. apply take_app_length'. rewrite length_app, length_enc_header. lia. }
    eexists. replace (28 + zlen body) with (zlen (enc_header h ++ body))
      by (rewrite length_app, length_enc_header; lia).
    by apply parse_packet_spec.
Qed.

Lemma pack_pending_ok h body prio :
  header_typed h → validate_packet_header h = success → payload_len h = zlen body →
  zlen body <= NetConfig.MaxPayloadBytes →
  ∃ p, pack_pending h body prio = Done p ∧ pending_ok p.
Proof. intros. eexists. split; [by apply pack_pending_spec|by apply pending_ok_packed]. Qed.

Lemma queue_len_nonneg q : Forall pending_ok q → 0 <= queue_len q <= 1300 * zlen q.
Proof.
  induction 1 as [|p q [Hp _ _] _ IH]; simpl; [lia|].
  change NetConfig.PacketHeaderBytes with 28 in Hp. change NetConfig.MaxPacketBytes with 1300 in Hp. lia.
Qed.

Lemma insert_pending_perm p q : insert_pending p q ≡ₚ p :: q.
Proof.
  induction q as [|it q IH]; simpl; [done|]. case_match; [done|]. rewrite IH. apply Permutation_swap.
Qed.

Lemma queue_len_perm q q' : q ≡ₚ q' → queue_len q = queue_len q'.
Proof. induction 1; simpl; lia. Qed.

Lemma insert_pending_sorted p q :
  StronglySorted by_priority q → StronglySorted by_priority (insert_pending p q).
Proof.
  induction 1 as [|it q Hs IH Hall]; simpl; [repeat constructor|].
  destruct (Z.ltb_spec (priority_value (pp_priority it)) (priority_value (pp_priority p))) as [Hlt|Hge].
  - constructor; [by constructor|]. constructor; [unfold by_priority; lia|].
    eapply Forall_impl; [exact Hall|]. unfold by_priority. intros. lia.
  - constructor; [done|]. rewrite insert_pending_perm. constructor; [unfold by_priority; lia|done].
Qed.

(** What the reliable configuration of a usable client bounds. *)
Lemma client_usable_queue cfg : client_usable cfg → 0 < client_max_pending_packets cfg <= U32_MAX.
Proof.
  intros [Ht Hv]. destruct (validate_client_config_sound cfg Ht Hv).
  unfold client_typed in Ht. widths. lia.
Qed.

Lemma enqueue_pending_safe σ k p : pending_ok p → Safe (At σ k) (enqueue_pending_packet p).
Proof.
  intros Hp. apply safe_this. intros w Hw.
  destruct (Z.leb_spec (client_max_pending_packets (c_config (w_client w))) (zlen (c_pending (w_client w))))
    as [Hfull|Hroom]; [revert w Hw Hfull; intros w Hw _|].
  { revert w Hw. change (Safe (At σ k) (count Stat.queue_full_events;;
      fail (A:=unit) Errc.QueueFull "pending packet queue full")). safe_steps. }
  apply wp_bind, wp_update. apply refresh_safe. apply At_update; [|done..|done].
  intros []. destruct co_queue0 as [He Hc Hs]. pose proof (queue_len_nonneg _ He).
  pose proof (client_usable_queue _ co_usable0).
  pose proof (po_len _ Hp) as Hl. change NetConfig.PacketHeaderBytes with 28 in Hl.
  change NetConfig.MaxPacketBytes with 1300 in Hl.
  split; fields; try done.
  - split; [|rewrite insert_pending_perm; simpl; lia|by apply insert_pending_sorted].
    rewrite insert_pending_perm. by constructor.
  - rewrite (queue_len_perm _ _ (insert_pending_perm _ _)), co_bytes0. cbn [queue_len foldr].
    fold (queue_len (c_pending (w_client w))). unfold U32_MAX in *. rewrite w64_id; [lia|]. ulia.
Qed.

(** Taking a sequence number. *)
Lemma At_allocate σ k w :
  At σ k w →
  At σ k (mkWorld (w_client w <| c_seq := w64 (c_seq (w_client w) + 1) |>) (w_net w)
            (SeqAllocated :: w_events w)).
Proof.
  intros [[Hc [Hseq Hsealed Hlegal] Hi] Hs]. split; [|done]. split; cbn [w_client w_net w_events].
  - revert Hc. same_fields.
  - split; [|done|by constructor]. fields. cbn [epoch allocations]. rewrite Hseq. unfold w64.
    rewrite Zplus_mod_idemp_l. f_equal. lia.
  - done.
Qed.

(** Sealing with the number just taken. *)
Lemma At_seal σ k w key id s log :
  w_events w = SeqAllocated :: log → s = w64 (allocations (epoch (w_events w))) →
  At σ k w →
  At σ k (mkWorld (w_client w) (w_net w) (Sealed key (crypto_make_packet_nonce id s) :: w_events w)).
Proof.
  intros Hlog Hs0 [[Hc [Hseq Hsealed Hlegal] Hi] Hs]. split; [|done]. split; cbn [w_client w_net w_events].
  - done.
  - split; [done| |by constructor]. cbn [sealed_ok]. split; [|done]. exists id, log. by subst s.
  - done.
Qed.

Lemma At_u64_seq σ k w : At σ k w → is_u64 (c_seq (w_client w)).
Proof. intros [[_ [-> _ _] _] _]. apply w64_range. Qed.

Section crypto.
Context `{SodiumLaws}.

Lemma seal_payload_spec keys h p n :
  is_array 32 (sk_tx keys) → header_typed h → readable p n → 0 <= n <= NetConfig.MaxEncryptedPlaintextBytes →
  (0 <? n) && bool_decide (p = None) = false →
  match seal_payload keys h p n with
  | Done body => zlen body = n + NetConfig.AeadTagBytes
  | Err _ => True
  | UB => False
  end.
Proof.
  intros Hk Hh Hp Hn Hnull. change NetConfig.MaxEncryptedPlaintextBytes with 1256 in Hn.
  unfold seal_payload. rewrite write_header_to by done. cbn [outcome_bind].
  unfold crypto_aead_encrypt. rewrite crypto_ready.
  rewrite !reject_if_false; [|try done..].
  - change (Z.of_nat NetConfig.SessionKeyBytes) with (Z.of_nat 32).
    rewrite (is_array_readable _ _ Hk). cbn [outcome_bind].
    rewrite <- (length_nonce (conn_id h) (seq h)), bytes_at_all, bytes_at_all.
    destruct (bytes_at_readable _ _ Hp Hnull) as (m & -> & Hm). cbn [outcome_bind].
    destruct (aead_seal _ _ _ m) eqn:Hseal; [|done]. rewrite (seal_length _ _ _ _ _ Hseal). lia.
  - apply Z.ltb_ge. change NetConfig.AeadTagBytes with 16. change NetConfig.MaxPayloadBytes with 1272.
    rewrite w64_id by ulia. lia.
Qed.

Lemma queue_packet_safe σ k kind enc p n prio id :
  readable p n → 0 <= n → is_u64 id → Safe (At σ k) (queue_packet kind enc p n prio id).
Proof.
  intros Hp Hn Hid. unfold queue_packet.
  apply safe_if; intros Hnull; [apply safe_fail|]. apply safe_if; intros Henc; [apply safe_fail|].
  apply safe_if; intros Hplain; [apply safe_fail|]. apply safe_this. intros w Hw.
  pose proof (At_u64_seq _ _ _ Hw) as Hseq.
  set (cid := if negb (id =? 0) then id else c_conn_id (w_client w)).
  assert (is_u64 cid) as Hcid by (subst cid; destruct (id =? 0); [exact (co_conn_id _ (iv_client _ _ (proj1 Hw)))|done]).
  apply wp_bind, wp_update, wp_bind, wp_emit. pose proof (At_allocate _ _ _ Hw) as Hw1.
  cbn [w_client w_net w_events].
  set (w1 := mkWorld _ _ _) in *. destruct enc.
  - cbn [andb] in Henc. apply Z.ltb_ge in Henc.
    destruct (keys_empty _ || _); [by apply safe_fail|].
    change NetConfig.MaxEncryptedPlaintextBytes with 1256 in Henc.
    change NetConfig.AeadTagBytes with 16. rewrite w32_id by ulia.
    set (h := mkPacketHeader _ _ _ _ _ _ _).
    change h with (out_header kind true cid (c_seq (w_client w)) (n + 16)) in *. clear h.
    set (h := out_header _ _ _ _ _) in *.
    assert (header_typed h) as Hh by (apply out_header_typed; [done|done|ulia]).
    assert (validate_packet_header h = success) as Hv
      by (apply out_header_valid; change NetConfig.MaxPayloadBytes with 1272; lia).
    pose proof (seal_payload_spec (c_session_keys (w_client w)) h p n
      (co_tx _ (iv_client _ _ (proj1 Hw))) Hh Hp (conj Hn Henc) Hnull) as Hseal.
    apply wp_bind, wp_lift.
    + intros Hub. by rewrite Hub in Hseal.
    + intros body Hlen. rewrite Hlen in Hseal. rename Hseal into Hbody.
      change (zlen body = n + 16) in Hbody.
      assert (zlen body <= NetConfig.MaxPayloadBytes) by (change NetConfig.MaxPayloadBytes with 1272; lia).
      apply wp_bind, wp_emit.
      destruct (pack_pending_ok h body prio) as (pp & -> & Hpp); [done|done|cbn; lia|done|].
      apply wp_bind, wp_done, enqueue_pending_safe; [done|].
      eapply (At_seal σ k w1); [reflexivity| |done]. cbn [w1 w_events epoch allocations].
      destruct Hw as [[_ [-> _ _] _] _]. reflexivity.
    + intros rc _. exact Hw1.
  - cbn [andb negb] in Hplain. apply Z.ltb_ge in Hplain.
    change NetConfig.MaxPayloadBytes with 1272 in Hplain. rewrite w32_id by ulia.
    set (h := mkPacketHeader _ _ _ _ _ _ _).
    change h with (out_header kind false cid (c_seq (w_client w)) n) in *. clear h.
    set (h := out_header _ _ _ _ _) in *.
    assert (header_typed h) as Hh by (apply out_header_typed; [done|done|ulia]).
    assert (validate_packet_header h = success) as Hv by (apply out_header_valid; done).
    destruct (bytes_at_readable _ _ Hp Hnull) as (body & -> & Hlen).
    apply wp_bind, wp_done.
    assert (zlen body <= NetConfig.MaxPayloadBytes) by (change NetConfig.MaxPayloadBytes with 1272; lia).
    destruct (pack_pending_ok h body prio) as (pp & -> & Hpp); [done|done|cbn; lia|done|].
    by apply wp_bind, wp_done, enqueue_pending_safe.
Qed.
End crypto.

(** ** Encoders *)

Lemma write_to_safe size m : 0 <= size → WriterSafe m → write_to size m ≠ UB.
Proof.
  intros Hs Hm. unfold write_to. destruct (Hm (mkWriter (Some (zeros (Z.to_nat size))) size 0)) as [Hu _].
  { split; cbn; [lia|]. unfold zeros. rewrite length_replicate. lia. }
  destruct (m _) as [[]]; done.
Qed.

Lemma write_data_safe p n : readable p n → WriterSafe (if 0 <? n then write_bytes p n else mret tt).
Proof. intros Hp. apply writer_safe_if; [by apply write_bytes_safe|apply _]. Qed.
Lemma write_array_safe n a : is_array n a → WriterSafe (write_array n a).
Proof. intros [Hl _]. apply write_bytes_safe. lia. Qed.

Lemma write_message_safe ch t p n : readable p n → WriterSafe (write_message ch t p n).
Proof. intros Hp. unfold write_message. pose proof (write_data_safe _ _ Hp). apply _. Qed.
Lemma write_envelope_safe mx m1 m2 m3 id p n :
  readable p n → WriterSafe (write_envelope mx m1 m2 m3 id p n).
Proof. intros Hp. unfold write_envelope. pose proof (write_data_safe _ _ Hp). apply _. Qed.
Lemma write_fragment_safe id s ch t i c o p n :
  readable p n → WriterSafe (write_fragment_payload id s ch t i c o p n).
Proof. intros Hp. unfold write_fragment_payload. pose proof (write_data_safe _ _ Hp). apply _. Qed.
#[export] Instance write_ack_safe ch id : WriterSafe (write_reliable_ack ch id).
Proof. unfold write_reliable_ack. apply _. Qed.
#[export] Instance write_close_safe r : WriterSafe (write_close_frame r).
Proof. unfold write_close_frame. apply _. Qed.
Lemma write_optional_safe {A} (wr : A → io ByteWriter unit) b a :
  (b = true → WriterSafe (wr a)) → WriterSafe (write_optional wr b a).
Proof. intros Hw. unfold write_optional. destruct b; [specialize (Hw eq_refl)|]; apply _. Qed.
Lemma write_retry_token_safe t :
  is_array 16 (rt_mac t) → WriterSafe (write_retry_token t).
Proof. intros Ht. unfold write_retry_token. pose proof (write_array_safe _ _ Ht). apply _. Qed.
Lemma write_resumption_token_safe t : token_ok t → WriterSafe (write_resumption_token t).
Proof. intros Ht. unfold write_resumption_token. pose proof (write_array_safe _ _ Ht). apply _. Qed.

(** Hellos whose arrays have their declared lengths. *)
Record hello_ok (h : ClientHello) : Prop := {
  ho_public : is_array 32 (client_public_key h);
  ho_nonce : is_array 16 (client_nonce h);
  ho_retry : is_array 16 (rt_mac (ch_retry_token h));
  ho_resumption : token_ok (ch_resumption_token h);
}.
Record server_hello_ok (h : ServerHello) : Prop := {
  so_conn : is_u64 (server_conn_id h);
  so_public : is_array 32 (server_public_key h);
  so_nonce : is_array 16 (server_nonce h);
  so_mac : is_array 16 (transcript_mac h);
  so_resumption : token_ok (sh_resumption_token h);
}.

Lemma zeros_array n : is_array n (zeros n).
Proof.
  unfold zeros. split; [apply length_replicate|]. apply Forall_replicate. unfold is_u8. lia.
Qed.
#[local] Hint Resolve zeros_array : scn.

Lemma current_hello_ok c : client_ok c → hello_ok (current_hello c).
Proof.
  intros []. split; cbn; try done.
  - destruct (c_have_retry_token c); [done|apply (zeros_array 16)].
  - case_match; [done|apply (zeros_array 16)].
Qed.

Ltac writers :=
  repeat match goal with
  | H : is_array _ (client_public_key _) |- _ => apply (write_array_safe _ _) in H
  | H : is_array _ (client_nonce _) |- _ => apply (write_array_safe _ _) in H
  | H : is_array _ (server_public_key _) |- _ => apply (write_array_safe _ _) in H
  | H : is_array _ (server_nonce _) |- _ => apply (write_array_safe _ _) in H
  | H : is_array _ (rt_mac _) |- _ => apply write_retry_token_safe in H
  | H : token_ok _ |- _ => apply write_resumption_token_safe in H
  end.

Lemma write_client_hello_safe h : hello_ok h → WriterSafe (write_client_hello h).
Proof.
  intros []. writers. unfold write_client_hello.
  do 4 (apply writer_safe_bind; [first [done|apply _|by apply write_optional_safe]|intros _]).
  by apply write_optional_safe.
Qed.

Lemma write_transcript_safe h s : hello_ok h → server_hello_ok s → WriterSafe (write_transcript h s).
Proof.
  intros [] []. writers. unfold write_transcript.
  do 8 (apply writer_safe_bind; [first [done|apply _|by apply write_optional_safe]|intros _]).
  by apply write_optional_safe.
Qed.

(** ** Sessions *)

Lemma enqueue_cfg t p n prio life now s :
  readable p n → 0 <= n →
  (enqueue t p n prio life now s).1 ≠ UB ∧ rs_cfg (enqueue t p n prio life now s).2 = rs_cfg s.
Proof.
  intros Hp Hn. unfold enqueue. case_match; [done|]. cbv zeta. case_match; [done|].
  pose proof (write_envelope_safe NetConfig.MaxReliableMessageBytes
    "reliable message id must be non-zero" "reliable message too large" "reliable data is null"
    (rs_next_message_id s) p n Hp) as Hsafe.
  destruct (Hsafe (mkWriter (Some (replicate (Z.to_nat (8 + n)) 0)) (8 + n) 0)) as [Hu _].
  { split; cbn [w_off cap dst]; [lia|]. rewrite length_replicate. lia. }
  unfold write_reliable_payload. by destruct (write_envelope _ _ _ _ _ _ _ _) as [[[]|rc|] w'].
Qed.

Lemma acknowledge_cfg id now s :
  reliability_valid (rs_cfg s) →
  (acknowledge id now s).1 ≠ UB ∧ rs_cfg (acknowledge id now s).2 = rs_cfg s.
Proof.
  intros Hv. unfold acknowledge. destruct (extract _ _) as [[it rest]|]; [|done]. cbv zeta.
  destruct (_ && _ && _); [|done].
  match goal with |- context [update_rtt ?c ?s ?t] => destruct (update_rtt_ok c s t Hv) as (t' & -> & _) end.
  done.
Qed.

Lemma note_sent_cfg id now s : rs_cfg (note_sent id now s).2 = rs_cfg s.
Proof. unfold note_sent. by destruct (note_loop _ _ _ _ _) as [[]]. Qed.
Lemma expire_old_cfg now s : rs_cfg (expire_old now s).2 = rs_cfg s.
Proof. unfold expire_old. by destruct (expire_loop _ _ _ _ _) as [[[]]]. Qed.
Lemma accept_incoming_cfg id s : rs_cfg (accept_incoming id s).2 = rs_cfg s.
Proof. unfold accept_incoming. by destruct (ReliableReceiveWindow.accept _ _). Qed.
Lemma resend_due_cfg {X} now (fn : PendingReliableMessage → X → Result * X) s x :
  rs_cfg (resend_due now fn s x).1.2 = rs_cfg s.
Proof. unfold resend_due. by destruct (resend_loop _ _ _ _ _ _ _) as [[[[]]]]. Qed.

(** An operation on a session that keeps its configuration. *)
Definition session_safe {A} (m : io ReliableSession A) : Prop :=
  ∀ s, reliability_valid (rs_cfg s) → (m s).1 ≠ UB ∧ rs_cfg (m s).2 = rs_cfg s.

Lemma client_ok_reliability c : client_ok c → reliability_valid (client_reliability (c_config c)).
Proof. intros [[Ht Hv] _]. by destruct (validate_client_config_sound _ Ht Hv). Qed.

Lemma on_session_safe {A} σ k ch (m : io ReliableSession A) :
  session_safe m → Safe (At σ k) (on_session ch m).
Proof.
  intros Hm w Hw. pose proof (client_ok_reliability _ (iv_client _ _ (proj1 Hw))) as Hv.
  pose proof (iv_client _ _ (proj1 Hw)) as [Hu Hr Ho].
  unfold wp, on_session. case_decide.
  - destruct (Hm (c_ordered_reliable (w_client w))) as [H1 H2]; [congruence|].
    destruct (m _) as [o s]. cbn in H1, H2.
    assert (At σ k (mkWorld (w_client w <| c_ordered_reliable := s |>) (w_net w) (w_events w))).
    { apply At_update; [|done..]. intros []. split; fields; try done. congruence. }
    by destruct o.
  - destruct (Hm (c_reliable (w_client w))) as [H1 H2]; [congruence|].
    destruct (m _) as [o s]. cbn in H1, H2.
    assert (At σ k (mkWorld (w_client w <| c_reliable := s |>) (w_net w) (w_events w))).
    { apply At_update; [|done..]. intros []. split; fields; try done. congruence. }
    by destruct o.
Qed.

(** A total operation on a session. *)
Lemma session_safe_total {A} (f : ReliableSession → A * ReliableSession) :
  (∀ s, rs_cfg (f s).2 = rs_cfg s) →
  session_safe (λ s, let '(a, s') := f s in (Done a, s')).
Proof. intros Hf s _. specialize (Hf s). by destruct (f s). Qed.

Lemma acknowledge_safe σ k ch id now : Safe (At σ k) (on_session ch (acknowledge id now)).
Proof. apply on_session_safe. intros s. apply acknowledge_cfg. Qed.
Lemma note_safe σ k ch id now :
  Safe (At σ k) (on_session ch (λ s, let '(b, s') := note_sent id now s in (Done b, s'))).
Proof. apply on_session_safe, session_safe_total. intros. apply note_sent_cfg. Qed.
Lemma expire_safe σ k ch now :
  Safe (At σ k) (on_session ch (λ s, let '(n, s') := expire_old now s in (Done n, s'))).
Proof. apply on_session_safe, session_safe_total. intros. apply expire_old_cfg. Qed.
Lemma incoming_safe σ k ch id :
  Safe (At σ k) (on_session ch (λ s, let '(b, s') := accept_incoming id s in (Done b, s'))).
Proof. apply on_session_safe, session_safe_total. intros. apply accept_incoming_cfg. Qed.
#[export] Hint Resolve acknowledge_safe note_safe expire_safe incoming_safe : safe.

(** ** The send budget *)

Lemma client_usable_congestion cfg :
  client_usable cfg →
  congestion_usable (client_congestion cfg) (client_send_budget_bytes_per_second cfg).
Proof.
  intros [Ht Hv]. unfold client_typed, validate_client_config in *.
  destruct Ht as (_ & _ & ? & _ & _ & _ & _ & _ & ?). peel_checks Hv.
  split_and!; [done|done|]. by apply validate_congestion_ok.
Qed.

Lemma cc_rate cfg budget c :
  congestion_usable cfg budget → cc_inv cfg budget c →
  1 <= rate_bytes_per_second c <= U32_MAX ∧ bucket_cap_bytes c = Z.max 1300 (rate_bytes_per_second c * 2).
Proof.
  intros Hu [Hc Hr _]. destruct (rate_bounds _ _ _ Hu Hc) as (H1 & H2 & _).
  assert (1 <= rate_bytes_per_second c <= U32_MAX) as Hb.
  { unfold rate_bytes_per_second. destruct (cong_enabled (cc_cfg c)); [lia|].
    destruct Hu as (_ & Hb & _). destruct Hc as [_ ->]. ulia. }
  split; [done|]. unfold bucket_cap_bytes. rewrite w64_id by ulia. done.
Qed.

(** An acknowledgement never lowers the rate. *)
Lemma on_ack_rate cfg budget c v rtt re c' :
  congestion_usable cfg budget → cc_inv cfg budget c → on_ack v rtt re c = Done c' →
  rate_bytes_per_second c <= rate_bytes_per_second c'.
Proof.
  intros Hu Hinv. pose proof Hinv as [Hc Hr _]. pose proof Hc as [Hcfg _].
  destruct (rate_bounds _ _ _ Hu Hc) as (H1 & H2 & _).
  unfold on_ack. destruct (cong_enabled (cc_cfg c)) eqn:He; cbn [negb]; [|by intros [= <-]].
  cbv zeta. destruct re; cbn [negb].
  { intros [= <-]. unfold rate_bytes_per_second. cbn. by rewrite He. }
  assert (0 <= additive_increase_bytes_per_ack (cc_cfg c) <= U32_MAX).
  { destruct Hu as (Ht & _). unfold congestion_typed in Ht. rewrite Hcfg. widths. lia. }
  cbn [cc_current_rate cc_cfg]. change (configured_max_rate _) with (rate_ceiling c).
  rewrite (w64_id (cc_current_rate c + _)) by ulia.
  set (r := Z.min _ _). set (c1 := set_rate r _).
  destruct (update_window_inv cfg budget c1) as (c2 & -> & [Hc2 _ _] & Heq); [done|by destruct Hc| |].
  { change (rate_floor c <= r <= rate_ceiling c). lia. }
  intros [= <-]. unfold rate_bytes_per_second. destruct Hc2 as [-> _]. rewrite <- Hcfg, He, Heq.
  change (cc_current_rate c <= r). lia.
Qed.

Section congestion.
Context (σ : ConnectionState) (k : nat).

Lemma At_congestion w cc :
  (client_ok (w_client w) →
   cc_inv (client_congestion (c_config (w_client w)))
     (client_send_budget_bytes_per_second (c_config (w_client w))) cc ∧
   c_send_budget_bytes (w_client w) <= bucket_cap_bytes cc) →
  At σ k w → At σ k (mkWorld (w_client w <| c_congestion := cc |>) (w_net w) (w_events w)).
Proof.
  intros Hcc Hw. apply At_update; [|done..]. intros Hok. destruct (Hcc Hok) as [H1 H2].
  destruct Hok. split; fields; try done. lia.
Qed.

Lemma on_ack_safe v rtt re : Safe (At σ k) (on_congestion (on_ack v rtt re)).
Proof.
  apply safe_this. intros w Hw. pose proof (iv_client _ _ (proj1 Hw)) as Hok.
  pose proof (client_usable_congestion _ (co_usable _ Hok)) as Hu.
  destruct (cc_step_inv _ _ (EvAck v rtt re) _ Hu (co_congestion _ Hok)) as (c' & Hc' & Hinv).
  cbn [cc_step] in Hc'. rewrite Hc'. apply wp_bind, wp_done, wp_update.
  apply At_congestion; [|done]. intros _. split; [done|].
  pose proof (on_ack_rate _ _ _ _ _ _ _ Hu (co_congestion _ Hok) Hc').
  destruct (cc_rate _ _ _ Hu Hinv) as [_ ->].
  destruct (cc_rate _ _ _ Hu (co_congestion _ Hok)) as [_ Hcap].
  pose proof (co_budget _ Hok). lia.
Qed.

Lemma adapt_safe f ev :
  (∀ c, f c = cc_step ev c) → Safe (At σ k) (adapt_congestion f).
Proof.
  intros Hf w Hw. pose proof (iv_client _ _ (proj1 Hw)) as Hok.
  pose proof (client_usable_congestion _ (co_usable _ Hok)) as Hu.
  destruct (cc_step_inv _ _ ev _ Hu (co_congestion _ Hok)) as (c' & Hc' & Hinv).
  unfold adapt_congestion, on_congestion. apply wp_bind, wp_bind, wp_this.
  rewrite Hf, Hc'. apply wp_bind, wp_done, wp_update, wp_update. cbn [w_client w_net w_events].
  apply At_update; [|done..]. intros []. destruct (cc_rate _ _ _ Hu Hinv) as [Hr Hcap].
  split; fields; try done. rewrite Hcap. lia.
Qed.

Lemma on_backpressure_safe now : Safe (At σ k) (adapt_congestion (on_backpressure now)).
Proof. by apply (adapt_safe _ (EvBackpressure now)). Qed.
Lemma on_loss_safe now n : Safe (At σ k) (adapt_congestion (on_loss now n)).
Proof. by apply (adapt_safe _ (EvLoss now n)). Qed.

Lemma refill_safe now : Safe (At σ k) (refill_send_budget now).
Proof.
  apply safe_this. intros w Hw. pose proof (iv_client _ _ (proj1 Hw)) as Hok.
  pose proof (client_usable_congestion _ (co_usable _ Hok)) as Hu.
  destruct (cc_rate _ _ _ Hu (co_congestion _ Hok)) as [Hr Hcap].
  pose proof (co_budget _ Hok) as Hb.
  destruct (_ =? 0).
  { apply wp_update, At_update; [|done..]. intros []. split; fields; try done.
    case_match; lia. }
  destruct (_ <=? _); [done|]. cbv zeta. destruct (0 <? _); [|done].
  apply wp_bind, wp_update. apply safe_bind; [apply count_safe|intros _; apply refresh_safe|].
  apply At_update; [|done..]. intros []. split; fields; try done.
  pose proof (w64_range (c_send_budget_bytes (w_client w) +
    w64 (rate_bytes_per_second (c_congestion (w_client w)) *
         (now - c_last_budget_refill_ms (w_client w))) / 1000)) as Hw64. unfold is_u64 in Hw64. lia.
Qed.
End congestion.
#[export] Hint Resolve on_ack_safe on_backpressure_safe on_loss_safe refill_safe : safe.

(** ** Sending *)

Lemma readable_w16 bs : readable (Some bs) (w16 (zlen bs)).
Proof. unfold readable, w16. apply Z.mod_le; lia. Qed.
Lemma readable_all bs : readable (Some bs) (zlen bs).
Proof. unfold readable. lia. Qed.
Lemma w16_nonneg z : 0 <= w16 z.
Proof. pose proof (w16_range z). ulia. Qed.
#[local] Hint Resolve readable_w16 readable_all w16_nonneg : scn.

Section sending.
Context `{SodiumLaws} (σ : ConnectionState) (k : nat).

Lemma queue_raw_safe p n prio : readable p n → 0 <= n → Safe (At σ k) (queue_raw_payload p n prio).
Proof. intros. apply queue_packet_safe; [done|done|ulia]. Qed.

Lemma queue_internal_safe ch t p n prio :
  readable p n → Safe (At σ k) (queue_internal_message ch t p n prio).
Proof.
  intros Hp. unfold queue_internal_message. apply safe_bind_lift.
  { apply write_to_safe; [done|by apply write_message_safe]. }
  intros payload _. apply safe_bind; [|intros _; apply count_safe].
  apply queue_packet_safe; [apply readable_all|lia|ulia].
Qed.

Lemma queue_message_safe ch t p n prio :
  readable p n → Safe (At σ k) (queue_message_packet ch t p n prio).
Proof.
  intros Hp. unfold queue_message_packet. case_decide; [apply safe_fail|by apply queue_internal_safe].
Qed.

Lemma queue_control_ack_safe ch id : Safe (At σ k) (queue_control_ack ch id).
Proof.
  unfold queue_control_ack. apply safe_bind_lift; [apply write_to_safe; [done|apply _]|].
  intros ack _. apply safe_bind; [apply queue_internal_safe, readable_w16|intros _; apply count_safe].
Qed.

Lemma queue_keepalive_safe : Safe (At σ k) queue_keepalive.
Proof. apply safe_bind; [by apply queue_packet_safe; [..|ulia]|intros _; apply count_safe]. Qed.

Lemma queue_close_safe r e : Safe (At σ k) (queue_close_packet r e).
Proof.
  unfold queue_close_packet. apply safe_bind_lift; [apply write_to_safe; [done|apply _]|].
  intros frame _. apply safe_bind; [|intros _; apply count_safe].
  apply queue_packet_safe; [apply readable_all|lia|ulia].
Qed.

Lemma send_reliable_safe ch t p n prio life :
  readable p n → 0 <= n → Safe (At σ k) (send_reliable_message ch t p n prio life).
Proof.
  intros Hp Hn. unfold send_reliable_message. apply safe_if; intros _; [apply safe_fail|].
  apply safe_bind; [apply now_ms_safe|intros now]. apply safe_bind.
  { assert (Safe (At σ k) (on_session ch (enqueue t p n prio life now))) as Hs.
    { apply on_session_safe. intros s _. by apply enqueue_cfg. }
    intros w Hw. specialize (Hs w Hw). unfold wp in *.
    by destruct (on_session _ _ w) as [[|rc|] w']. }
  intros [rc|pending]; [safe_steps|].
  apply safe_bind; [apply count_safe|intros _].
  apply safe_bind; [by apply safe_attempt, queue_message_safe, readable_w16|intros rc].
  apply safe_if; intros _; safe_steps.
Qed.

Lemma send_fragments_safe left options id s t payload index :
  0 < zlen payload <= U16_MAX → 0 <= index →
  index + Z.of_nat left <= fragment_count_for_length (zlen payload) →
  Safe (At σ k) (send_fragments left options id s t payload index).
Proof.
  intros Hp. revert index. induction left as [|left IH]; intros index H1 H2; [apply safe_ret|].
  cbn [send_fragments]. cbv zeta. unfold U16_MAX in Hp. rewrite (w16_id (zlen payload)) by ulia.
  destruct (fragment_count_spec (zlen payload)) as [Hc _]; [unfold U16_MAX; lia|].
  destruct (fragment_size_spec (zlen payload) index) as [Hsz Hpos]; [unfold U16_MAX; lia|lia|].
  apply safe_bind_lift.
  { apply write_to_safe; [done|apply write_fragment_safe]. unfold readable.
    rewrite Hsz, length_drop, max_fragment_data. lia. }
  intros encoded _. apply safe_bind.
  { apply safe_if; intros _; [apply send_reliable_safe; auto with scn
                             |apply queue_internal_safe, readable_w16]. }
  intros _. apply safe_bind; [apply count_safe|intros _]. rewrite (w16_id (index + 1)) by ulia.
  apply IH; lia.
Qed.

(** Changes of the counters for fragment, ordered and sequenced numbers. *)
Lemma safe_numbers f :
  (∀ c, client_ok c → client_ok (f c)) → (∀ c, c_state (f c) = c_state c) →
  (∀ c, c_seq (f c) = c_seq c) → Safe (At σ k) (update f).
Proof. intros Hf ? ?. apply safe_update; auto. Qed.

Lemma send_fragmented_safe options t payload :
  zlen payload <= U16_MAX → Safe (At σ k) (send_fragmented options t payload).
Proof.
  intros Hp. apply safe_this. intros w Hw. cbv zeta. unfold U16_MAX in Hp.
  rewrite (w16_id (zlen payload)) by ulia.
  apply safe_if; [intros _; apply safe_fail|intros _|done].
  apply safe_if; intros _; [apply safe_fail|]. apply safe_if; intros _; [apply safe_fail|].
  apply safe_if; intros Hc; [apply safe_fail|]. apply orb_false_iff in Hc as [Hc _].
  assert (0 < zlen payload).
  { destruct payload; [done|]. simpl. lia. }
  destruct (fragment_count_spec (zlen payload)) as [Hcnt _]; [unfold U16_MAX; lia|].
  apply safe_bind; [by apply safe_numbers; [intros c; same_fields|..]|intros _].
  apply safe_bind.
  { do 2 (case_decide; [apply safe_bind; [by apply safe_numbers; [intros c; same_fields|..]
      |intros _; apply safe_ret]|]). apply safe_ret. }
  intros s. apply safe_bind; [apply send_fragments_safe; unfold U16_MAX; lia|intros _]. safe_steps.
Qed.

Lemma finish_safe options t m : Safe (At σ k) m → Safe (At σ k) (finish options t m).
Proof. intros Hm. unfold finish. safe_steps. Qed.

Lemma readable_data_of payload :
  zlen payload <= U16_MAX → readable (data_of payload) (w16 (zlen payload)).
Proof. intros Hp. unfold data_of. case_decide; [done|apply readable_w16]. Qed.

Lemma send_safe options t payload : Safe (At σ k) (send options t payload).
Proof.
  apply safe_this. intros w Hw. apply safe_if; [intros _; apply safe_fail|intros _|done].
  apply safe_if; intros _; [apply safe_fail|].
  apply safe_if; intros Hp; [apply safe_fail|]. apply Z.ltb_ge in Hp. cbv zeta.
  pose proof (readable_data_of payload Hp) as Hr.
  apply safe_if; intros _; [by apply finish_safe, send_fragmented_safe|].
  destruct (so_channel options).
  - by apply finish_safe, queue_message_safe.
  - apply finish_safe, send_reliable_safe; [done|apply w16_nonneg].
  - apply safe_bind; [by apply safe_numbers; [intros c; same_fields|..]|intros _].
    apply safe_bind_lift; [apply write_to_safe; [done|by apply write_envelope_safe]|].
    intros e _. apply finish_safe, send_reliable_safe; auto with scn.
  - apply safe_bind; [by apply safe_numbers; [intros c; same_fields|..]|intros _].
    apply safe_bind_lift; [apply write_to_safe; [done|by apply write_envelope_safe]|].
    intros e _. apply finish_safe, queue_message_safe; auto with scn.
  - by apply finish_safe, queue_message_safe.
Qed.

Lemma send_payload_safe p n : readable p n → 0 <= n → Safe (At σ k) (send_payload p n).
Proof.
  intros Hp Hn. apply safe_this. intros w Hw.
  apply safe_if; [intros _; apply safe_fail|intros _|done].
  apply safe_if; intros _; [apply safe_fail|by apply queue_raw_safe].
Qed.
End sending.

(** ** Changing the connection state *)

#[export] Hint Extern 5 (Safe (Inv _) _) => apply safe_at; intros ? : safe.

Lemma At_Inv σ k w : At σ k w → Inv k w.
Proof. by intros []. Qed.
#[export] Hint Resolve At_Inv : scn.

Lemma At_transition σ k w next :
  At σ k w →
  (next = ConnectionState.Idle ∨ next = ConnectionState.Closed →
   keys_empty (c_session_keys (w_client w)) = true) →
  At next k (mkWorld (w_client w <| c_state := next |>) (w_net w) (w_events w)).
Proof.
  intros [[Hc Hl Hi] Hs] Hk. split; [|done]. split; cbn [w_client w_net w_events]; [|revert Hl; same_fields|done].
  destruct Hc. split; fields; done.
Qed.

Lemma At_legal σ k w a b :
  legal_transition a b = true → At σ k w →
  At σ k (mkWorld (w_client w) (w_net w) (OnStateChange a b :: w_events w)).
Proof.
  intros Hab [[Hc [] Hi] Hs]. split; [|done]. split; cbn [w_client w_net w_events]; [done| |done].
  split; [done|done|by constructor].
Qed.

Lemma transition_wp σ k next w E Q :
  At σ k w → σ = next ∨ legal_transition σ next = true →
  (next = ConnectionState.Idle ∨ next = ConnectionState.Closed →
   keys_empty (c_session_keys (w_client w)) = true) →
  (∀ w', At next k w' → Q tt w') → (∀ w', At next k w' → E w') →
  wp E (transition_state next) w Q.
Proof.
  intros Hw Hleg Hk HQ HE. unfold transition_state. apply wp_bind, wp_this.
  pose proof (proj2 Hw) as Hs. case_decide as Heq; [apply wp_ret, HQ; congruence|].
  apply wp_bind, wp_update. pose proof (At_transition _ _ _ next Hw Hk) as Hw1.
  eapply wp_safe with (P := At next k); [|exact Hw1|done|by intros []].
  apply safe_bind; [apply count_safe|intros _]. apply safe_bind; [apply refresh_safe|intros _].
  apply safe_bind; [apply emit_log_safe|intros _]. apply safe_bind.
  { apply safe_when. intros w2 Hw2. apply wp_emit. apply At_legal; [|done].
    rewrite Hs. destruct Hleg; [congruence|done]. }
  intros _. apply safe_bind; [by apply safe_when, safe_emit|intros _].
  apply safe_when, safe_this. intros w2 Hw2. by apply safe_emit.
Qed.

(** [reset_session] keeps the connection state and wipes the keys. *)
Lemma clear_session_ok now cc c :
  client_ok c →
  cc_inv (client_congestion (c_config c)) (client_send_budget_bytes_per_second (c_config c)) cc →
  client_ok (clear_session now (restart_counters c <| c_congestion := cc |>)).
Proof.
  intros Hok Hcc. pose proof (client_usable_congestion _ (co_usable _ Hok)) as Hu.
  destruct (cc_rate _ _ _ Hu Hcc) as [Hr Hcap]. destruct Hok.
  unfold clear_session, restart_counters. split; fields; try done.
  - rewrite Hcap. lia.
  - split; [constructor| |constructor]. simpl. pose proof (client_usable_queue _ co_usable0). lia.
  - cbn. unfold crypto_secure_zero. destruct co_rx0 as [-> _]. apply zeros_array.
  - cbn. unfold crypto_secure_zero. destruct co_tx0 as [-> _]. apply zeros_array.
  - intros _. apply (clear_keys_empty (c_session_keys c)).
  - cbn. destruct co_public0 as [-> _]. apply zeros_array.
  - cbn. unfold crypto_secure_zero. destruct co_secret0 as [-> _]. apply zeros_array.
  - apply (zeros_array 16).
  - apply (zeros_array 16).
Qed.

Lemma reset_session_wp σ k w E Q :
  At σ k w →
  (∀ w', At σ k w' → keys_empty (c_session_keys (w_client w')) = true → Q tt w') →
  wp E reset_session w Q.
Proof.
  intros [[Hc Hl Hi] Hs] HQ. pose proof (client_usable_congestion _ (co_usable _ Hc)) as Hu.
  unfold reset_session, on_congestion.
  apply wp_bind, wp_update, wp_bind, wp_emit. apply wp_bind, wp_bind, wp_this.
  destruct (reset_runtime_inv _ _ (c_congestion (w_client w)) Hu
    (ci_configured _ _ _ (co_congestion _ Hc))) as (cc & Hcc & Hinv).
  cbn [w_client]. unfold restart_counters at 1. fields. rewrite Hcc.
  apply wp_bind, wp_done, wp_update. cbn [w_client w_net w_events]. apply wp_bind.
  unfold wp at 1, sys, now_ms. cbn [w_net w_client w_events].
  assert (∀ now n, length (n_inbox n) = length (n_inbox (w_net w)) →
    wp E (update (clear_session now);; refresh_runtime_stats)
      (mkWorld (restart_counters (w_client w) <| c_congestion := cc |>) n (SessionReset :: w_events w)) Q)
    as Hmain; [|destruct (n_clock (w_net w)); by apply Hmain].
  intros now n Hn. apply wp_bind, wp_update. unfold refresh_runtime_stats. apply wp_update.
  cbn [w_client w_net w_events]. apply HQ; [|apply clear_keys_empty].
  split; [|by cbn]. split; cbn [w_client w_net w_events].
  - apply client_ok_stats. by apply clear_session_ok.
  - destruct Hl. split; [done|done|by constructor].
  - lia.
Qed.

Lemma drop_connection_ok reason c :
  client_ok c → client_ok (drop_connection reason c).
Proof.
  intros Hok. destruct Hok. unfold drop_connection. split; fields; try done.
  - split; [constructor| |constructor]. simpl. pose proof (client_usable_queue _ co_usable0). lia.
  - cbn. unfold crypto_secure_zero. destruct co_rx0 as [-> _]. apply zeros_array.
  - cbn. unfold crypto_secure_zero. destruct co_tx0 as [-> _]. apply zeros_array.
  - intros _. apply clear_keys_empty.
  - cbn. destruct co_public0 as [-> _]. apply zeros_array.
  - cbn. unfold crypto_secure_zero. destruct co_secret0 as [-> _]. apply zeros_array.
Qed.

(** Prove the steps of a sequence one by one with the database. *)
Ltac step := eapply wp_seq; [solve [eauto with safe]|eassumption|auto with scn|intros ? ? ?].

(** Update a client whose keys are then known to be wiped. *)
Lemma At_wiped σ k w f :
  At σ k w → (∀ c, client_ok c → client_ok (f c)) → (∀ c, c_state (f c) = c_state c) →
  (∀ c, c_seq (f c) = c_seq c) → (∀ c, c_session_keys (f c) = clear_keys (c_session_keys c)) →
  At σ k (mkWorld (f (w_client w)) (w_net w) (w_events w)) ∧
  keys_empty (c_session_keys (f (w_client w))) = true.
Proof.
  intros Hw Hf Hst Hseq Hk. split; [by apply At_update; auto|]. rewrite Hk. apply clear_keys_empty.
Qed.

(** Closing the socket and entering [Closed] once the keys are wiped. *)
Lemma sys_keeps {A} (m : io Net A) w E (Q : A → World → Prop) :
  (∀ n, ∃ a n', m n = (Done a, n') ∧ n_inbox n' = n_inbox n) →
  (∀ a n', n_inbox n' = n_inbox (w_net w) → Q a (mkWorld (w_client w) n' (w_events w))) →
  wp E (sys m) w Q.
Proof.
  intros Hm HQ. unfold wp, sys. destruct (Hm (w_net w)) as (a & n' & -> & Hn). by apply HQ.
Qed.

Lemma close_keeps n : ∃ a n', UdpSocket.close n = (Done a, n') ∧ n_inbox n' = n_inbox n.
Proof.
  unfold UdpSocket.close, UdpSocket.is_open, mbind, io_bind.
  destruct (n_open n); cbn; by do 2 eexists.
Qed.

Lemma At_net σ k w n :
  n_inbox n = n_inbox (w_net w) → At σ k w → At σ k (mkWorld (w_client w) n (w_events w)).
Proof. intros Hn [[] ?]. split; [|done]. split; cbn; [done|done|congruence]. Qed.

Lemma fail_connection_wp k w reason text (E : World → Prop) Q :
  Inv k w → (∀ w', Inv k w' → E w') → (∀ w', At ConnectionState.Closed k w' → Q tt w') →
  wp E (fail_connection reason text) w Q.
Proof.
  intros Hw HE HQ. set (σ := c_state (w_client w)). assert (At σ k w) as Hσ by by split.
  assert (∀ w', At σ k w' → E w') as HEσ by (intros; eauto with scn).
  unfold fail_connection. apply wp_bind, wp_this.
  eapply wp_seq; [eauto with safe|exact Hσ|done|]. intros _ w1 H1.
  eapply wp_seq; [apply emit_log_safe|exact H1|done|]. intros _ w2 H2.
  eapply wp_seq; [by apply safe_when, safe_emit|exact H2|done|]. intros _ w3 H3.
  apply wp_bind, wp_update.
  destruct (At_wiped σ k w3 (drop_connection reason) H3) as [H4 Hk];
    [apply drop_connection_ok|done..|].
  apply wp_bind, sys_keeps; [apply close_keeps|]. intros _ n Hn.
  apply (At_net _ _ _ n Hn) in H4. cbn [w_client w_net w_events] in H4.
  apply wp_bind. eapply transition_wp; [exact H4|by destruct σ; auto|done| |].
  - intros w5 H5. eapply wp_safe; [apply refresh_safe|exact H5|eauto with scn|]. by intros [].
  - intros. eauto with scn.
Qed.

Lemma fail_connection_safe k reason text : Safe (Inv k) (fail_connection reason text).
Proof. intros w Hw. by eapply fail_connection_wp; [|done|intros ? []]. Qed.
Lemma count_and_fail_safe k f reason text : Safe (Inv k) (count_and_fail f reason text).
Proof. apply safe_bind; [eauto with safe|intros _; apply fail_connection_safe]. Qed.
#[export] Hint Resolve fail_connection_safe count_and_fail_safe : safe.

(** ** Operations that keep a part of the client *)

Definition Keeps {A X} (g : Client → X) (m : io World A) : Prop :=
  ∀ w, g (w_client (m w).2) = g (w_client w).

Section keeps.
Context {X : Type} (g : Client → X).

Lemma keeps_ret {A} (a : A) : Keeps g (mret a).
Proof. done. Qed.
Lemma keeps_bind {A B} (m : io World A) (f : A → io World B) :
  Keeps g m → (∀ a, Keeps g (f a)) → Keeps g (m ≫= f).
Proof.
  intros Hm Hf w. specialize (Hm w). unfold mbind, io_bind.
  destruct (m w) as [[a|rc|] w']; cbn in *; [|done..]. by rewrite Hf.
Qed.
Lemma keeps_this {B} (f : Client → io World B) : (∀ c, Keeps g (f c)) → Keeps g (this ≫= f).
Proof. intros Hf. by apply keeps_bind. Qed.
Lemma keeps_update f : (∀ c, g (f c) = g c) → Keeps g (update f).
Proof. intros Hf w. apply Hf. Qed.
Lemma keeps_emit e : Keeps g (emit e).
Proof. done. Qed.
Lemma keeps_when b m : Keeps g m → Keeps g (when b m).
Proof. by destruct b. Qed.
Lemma keeps_sys {A} (m : io Net A) : Keeps g (sys m).
Proof. intros w. unfold sys. by destruct (m (w_net w)). Qed.
Lemma keeps_attempt (m : io World unit) : Keeps g m → Keeps g (attempt m).
Proof. intros Hm w. specialize (Hm w). unfold attempt. destruct (m w) as [[a|rc|] w']; exact Hm. Qed.
Lemma keeps_lift {A} (o : outcome A) : Keeps g (lift o).
Proof. done. Qed.
Lemma keeps_count_n f n : (∀ c s, g (c <| c_stats := s |>) = g c) → Keeps g (count_n f n).
Proof. intros Hg. by apply keeps_update. Qed.
Lemma keeps_refresh : (∀ c s, g (c <| c_stats := s |>) = g c) → Keeps g refresh_runtime_stats.
Proof. intros Hg. by apply keeps_update. Qed.
End keeps.

Lemma wp_keeps {A X} (g : Client → X) (P E : World → Prop) (m : io World A) w (Q : A → World → Prop) :
  Safe P m → Keeps g m → P w → (∀ w', P w' → E w') →
  (∀ a w', P w' → g (w_client w') = g (w_client w) → Q a w') → wp E m w Q.
Proof.
  intros Hm Hk Hw HE HQ. specialize (Hm w Hw). specialize (Hk w). unfold wp in *.
  destruct (m w) as [[a|rc|] w']; cbn in *; auto.
Qed.

Lemma refill_keeps now : Keeps c_pending (refill_send_budget now).
Proof.
  apply keeps_this. intros c. destruct (_ =? 0); [by apply keeps_update|].
  destruct (_ <=? _); [done|]. cbv zeta. destruct (0 <? _); [|done].
  apply keeps_bind; [by apply keeps_update|intros _].
  apply keeps_bind; [by apply keeps_count_n|intros _; by apply keeps_refresh].
Qed.

Lemma emit_debug_keeps {X} (g : Client → X) d v : Keeps g (emit_packet_debug d v).
Proof. apply keeps_this. intros c. by apply keeps_when. Qed.

(** ** Flushing *)

Lemma send_datagram_inbox target data n m :
  (UdpSocket.send_datagram_common target data n m).1 ≠ UB ∧
  n_inbox (UdpSocket.send_datagram_common target data n m).2 = n_inbox m.
Proof.
  unfold UdpSocket.send_datagram_common, UdpSocket.is_open, UdpSocket.check_socket_len,
    UdpSocket.os_send_call, mbind, io_bind, mret, io_ret, fail.
  destruct (negb (n_open m)); [done|]. destruct (_ && _); [done|].
  destruct (UdpSocket.INT_MAX <? n); [done|].
  destruct (n_sends m) as [|[sent|[]] rest]; cbn; [|destruct (negb _)|..]; try done.
  by destruct (negb _).
Qed.
Lemma udp_send_inbox data n m :
  (UdpSocket.send data n m).1 ≠ UB ∧ n_inbox (UdpSocket.send data n m).2 = n_inbox m.
Proof. apply send_datagram_inbox. Qed.

Lemma udp_send_safe σ k data n : Safe (At σ k) (sys (UdpSocket.send data n)).
Proof. apply sys_safe. intros m. destruct (udp_send_inbox data n m) as [? ->]. split; [done|lia]. Qed.
#[export] Hint Resolve udp_send_safe : safe.

Lemma react_safe σ k f now : Safe (At σ k) (react_to_backpressure f now).
Proof. unfold react_to_backpressure. safe_steps. Qed.
#[export] Hint Resolve react_safe : safe.

Lemma parse_debug_safe σ k p :
  pending_ok p → ∀ b : bool,
  Safe (At σ k)
    (if b then match parse_packet (Some (take (Z.to_nat (pp_len p)) (pp_bytes p))) (pp_len p) with
               | Done packet => emit_packet_debug "send" packet
               | Err _ => mret tt
               | UB => undefined
               end else mret tt) ∧
  Keeps (λ c, c)
    (if b then match parse_packet (Some (take (Z.to_nat (pp_len p)) (pp_bytes p))) (pp_len p) with
               | Done packet => emit_packet_debug "send" packet
               | Err _ => mret tt
               | UB => undefined
               end else mret tt).
Proof.
  intros [_ _ [v ->]] []; [|split; [apply safe_ret|done]].
  split; [apply emit_packet_debug_safe|apply emit_debug_keeps].
Qed.

(** The front packet leaves the queue. *)
Lemma pop_front_ok c p rest now :
  client_ok c → c_pending c = p :: rest →
  client_ok (c <| c_last_send_ms := now |>
               <| c_pending_bytes := w64 (c_pending_bytes c - pp_len p) |>
               <| c_pending := rest |>).
Proof.
  intros [] Hq. rewrite Hq in *. destruct co_queue0 as [He Hc Hs]. inv He. inv Hs.
  pose proof (client_usable_queue _ co_usable0). cbn [length] in Hc.
  pose proof (queue_len_nonneg rest ltac:(done)). unfold U32_MAX in *.
  split; fields; try done.
  - split; [done|lia|done].
  - rewrite co_bytes0. cbn [queue_len foldr]. fold (queue_len rest).
    replace (pp_len p + queue_len rest - pp_len p) with (queue_len rest) by lia.
    apply w64_id. ulia.
Qed.

Lemma flush_loop_safe σ k fuel w :
  At σ k w → (length (c_pending (w_client w)) <= fuel)%nat →
  wp (At σ k) (flush_loop fuel) w (λ _, At σ k).
Proof.
  revert w. induction fuel as [|fuel IH]; intros w Hw Hlen; cbn [flush_loop]; apply wp_bind, wp_this;
    destruct (c_pending (w_client w)) as [|p rest] eqn:Hq; [done|simpl in Hlen; lia|done|].
  assert (pending_ok p) as Hp.
  { pose proof (qo_each _ _ (co_queue _ (iv_client _ _ (proj1 Hw)))) as He. rewrite Hq in He. by inv He. }
  apply wp_bind. eapply (wp_keeps c_pending); [apply now_ms_safe|apply keeps_sys|exact Hw|done|].
  intros now w1 H1 Hq1. apply wp_bind.
  eapply (wp_keeps c_pending); [apply refill_safe|apply refill_keeps|exact H1|done|].
  intros _ w2 H2 Hq2. apply wp_bind, wp_this. rewrite Hq1, Hq in Hq2.
  destruct (Z.ltb_spec (c_send_budget_bytes (w_client w2)) (pp_len p)) as [|Hbudget]; [by apply react_safe|].
  destruct (parse_debug_safe σ k p Hp (client_enable_packet_debug_dumps (c_config (w_client w2))))
    as [Hd1 Hd2].
  apply wp_bind. eapply (wp_keeps (λ c, c)); [exact Hd1|exact Hd2|exact H2|done|].
  intros _ w3 H3 Hc3. apply wp_bind.
  eapply (wp_keeps (λ c, c)); [apply safe_attempt, udp_send_safe|apply keeps_attempt, keeps_sys|exact H3|done|].
  intros rc w4 H4 Hc4. rewrite Hc3 in Hc4.
  destruct (ok rc); cbn [negb].
  2: { case_decide; [by apply react_safe|]. revert H4. clear. intros H4.
       by eapply wp_seq; [apply count_safe|exact H4|done|]. }
  apply wp_bind, wp_update. set (w5 := mkWorld _ _ _).
  assert (At σ k w5) as H5.
  { apply At_update; [|done..]. rewrite Hc4. intros []. split; fields; try done.
    pose proof (po_len _ Hp) as Hl. change NetConfig.PacketHeaderBytes with 28 in Hl.
    change NetConfig.MaxPacketBytes with 1300 in Hl.
    pose proof (cc_rate _ _ _ (client_usable_congestion _ co_usable0) co_congestion0) as [? Hcap].
    rewrite Hcap in *. unfold U32_MAX in *. rewrite w64_id by ulia. lia. }
  assert (c_pending (w_client w5) = p :: rest) as Hq5 by (cbn; rewrite Hc4; done).
  apply wp_bind. eapply (wp_keeps c_pending); [apply count_safe|by apply keeps_count_n|exact H5|done|].
  intros _ w6 H6 Hq6. apply wp_bind.
  eapply (wp_keeps c_pending); [apply count_n_safe|by apply keeps_count_n|exact H6|done|].
  intros _ w7 H7 Hq7. apply wp_bind, wp_update. set (w8 := mkWorld _ _ _).
  assert (At σ k w8) as H8.
  { apply At_update; [|done..]. intros Hok. apply pop_front_ok; [done|congruence]. }
  apply wp_bind. eapply (wp_keeps c_pending); [apply refresh_safe|by apply keeps_refresh|exact H8|done|].
  intros _ w9 H9 Hq9. apply IH; [done|]. rewrite Hq9. cbn. simpl in Hlen. lia.
Qed.

Lemma flush_safe σ k : Safe (At σ k) flush_pending.
Proof. apply safe_this. intros w Hw. by apply flush_loop_safe. Qed.
#[export] Hint Resolve flush_safe : safe.

(** ** Entering and leaving [Idle] *)

Lemma stop_wp k w (E : World → Prop) Q :
  Inv k w → (∀ w', Inv k w' → E w') →
  (∀ w', At ConnectionState.Idle k w' → Q tt w') → wp E stop w Q.
Proof.
  intros Hw HE HQ. assert (At (c_state (w_client w)) k w) as Hσ by by split. unfold stop.
  apply wp_bind, sys_keeps; [apply close_keeps|]. intros _ n Hn.
  apply (At_net _ _ _ n Hn) in Hσ. apply wp_bind. eapply reset_session_wp; [exact Hσ|].
  intros w1 H1 Hk. apply wp_bind. eapply transition_wp; [exact H1|right; by destruct (c_state _)|done| |].
  2: { intros. eauto with scn. }
  intros w2 H2. apply wp_bind, wp_update. eapply wp_safe; [apply refresh_safe| |eauto with scn|by intros []].
  apply At_update; [|done..]. same_fields.
Qed.

Lemma stop_safe k : Safe (Inv k) stop.
Proof. intros w Hw. by eapply stop_wp; [|done|intros ? []]. Qed.

Lemma reset_for_connect_wp k w (E : World → Prop) Q :
  Inv k w → (∀ w', Inv k w' → E w') →
  (∀ w', At ConnectionState.Idle k w' → Q tt w') → wp E reset_for_connect w Q.
Proof.
  intros Hw HE HQ. unfold reset_for_connect. apply wp_bind, wp_this. cbv zeta.
  destruct (ok _); cbn [negb]; [|by apply wp_err, HE]. apply wp_bind. eapply stop_wp; [done|done|].
  intros w1 H1. apply wp_bind. eapply reset_session_wp; [exact H1|]. intros w2 H2 Hk.
  apply wp_bind, wp_update. eapply transition_wp; [|by left| |done|eauto with scn].
  - apply At_update; [|done..]. same_fields.
  - intros _. done.
Qed.
