(* ===== verification/ClientSafe.v ===== *)
(** * The client: safety of the receiving half

    Every handler of received packets, the tick and the whole interface of the
    client are [Safe]; the headline theorems about the client follow. *)
From stdpp Require Import sorting.
From S2P Require Import Prelude Result Hoare ByteBuf Config Message Packet Protocol Windows Payloads.
From S2P Require Import Reliability Ordered Fragmentation Congestion Crypto Stats Endpoint.
From S2P Require Import Socket Client ClientRecv ClientInv.
#[local] Open Scope Z_scope.

(** ** Callbacks inside the windows *)

Section callbacks.
Context {X : Type} (P : X → Prop).

Lemma release_state (d : U8 → ptr → U16 → X → Result * X) fuel w x :
  (∀ t p n x, P x → P (d t p n x).2) → P x → P (release d fuel w x).2.
Proof.
  intros Hd. revert w x. induction fuel as [|fuel IH]; intros w x Hx; [done|]. cbn [release].
  destruct (_ !! _) as [m|]; [|done].
  pose proof (Hd (bm_type m) (data_of (bm_payload m)) (w16 (zlen (bm_payload m))) x Hx) as Hx1.
  destruct (d _ _ _ _) as [rc x1]. cbn in Hx1. destruct (negb (ok rc)); [done|]. by apply IH.
Qed.

Lemma accept_ordered_state (d : U8 → ptr → U16 → X → Result * X) s t p n w x :
  (∀ t p n x, P x → P (d t p n x).2) → P x → P (oa_state (accept_ordered d s t p n w x)).
Proof.
  intros Hd Hx. unfold accept_ordered. destruct (s =? 0); [done|]. cbv zeta.
  destruct (_ <? _); [done|]. destruct (_ =? _).
  - pose proof (Hd t p n x Hx) as Hx1. destruct (d t p n x) as [rc x1]. cbn in Hx1.
    destruct (negb (ok rc)); [done|].
    match goal with |- context [release d ?f ?w ?x] => pose proof (release_state d f w x Hd Hx1) as Hr;
      destruct (release d f w x) as [[rc' w'] x'] end. done.
  - case_bool_decide; [done|]. by destruct (_ <=? _).
Qed.

Lemma accept_into_state (d : FragmentedMessage → X → Result * X) now f e s x :
  (∀ m x, P x → P (d m x).2) → P x → P (re_x (accept_into d now f e s x)).
Proof.
  intros Hd Hx. unfold accept_into. destruct (negb _); [done|].
  destruct (_ !! _) as [[]|]; [done| |done]. cbv zeta. destruct (_ <? _); [done|].
  destruct (_ =? _); [|done]. pose proof (Hd (message_of (store_fragment now f
    (fr_index f * NetConfig.MaxFragmentDataBytes) e)) x Hx) as Hx1.
  destruct (d _ x) as [rc x1]. by destruct (negb (ok rc)).
Qed.

Lemma accept_fragment_state (d : FragmentedMessage → X → Result * X) now f s x :
  (∀ m x, P x → P (d m x).2) → P x → P (re_x (accept_fragment d now f s x)).
Proof.
  intros Hd Hx. unfold accept_fragment.
  repeat match goal with |- context [if ?b then _ else _] =>
    lazymatch b with
    | context [size] => fail
    | _ => destruct b; [done|]
    end end.
  destruct (_ !! _); [by apply accept_into_state|]. destruct (_ <=? _); [done|].
  destruct (_ <? _); [done|]. by apply accept_into_state.
Qed.

Lemma resend_due_state now (fn : PendingReliableMessage → X → Result * X) s x :
  (∀ m x, P x → P (fn m x).2) → P x → P (resend_due now fn s x).2.
Proof.
  intros Hfn Hx. unfold resend_due.
  pose proof (resend_loop_state (rs_cfg s) now fn P (rs_pending s) (rs_inflight_count s) (rs_loss s) x
    (λ _ m' y _ _, Hfn m' y) Hx).
  by destruct (resend_loop _ _ _ _ _ _ _) as [[[[]]]].
Qed.
End callbacks.

(** ** Reassembly buffers *)

Lemma accept_into_ok {X} (d : FragmentedMessage → X → Result * X) now f e s x :
  entries_ok (ra_entries s) → zlen (en_received e) = en_fragment_count e →
  0 <= fr_index f < fr_count f →
  re_rc (accept_into d now f e s x) ≠ UB ∧
  entries_ok (ra_entries (re_state (accept_into d now f e s x))).
Proof.
  intros Hs He Hi. unfold accept_into. destruct (metadata_matches e f) eqn:Hm; cbn [negb]; [|done].
  assert (en_fragment_count e = fr_count f) as Hcnt.
  { unfold metadata_matches in Hm. rewrite !andb_true_iff, !Z.eqb_eq in Hm. tauto. }
  destruct (lookup_lt_is_Some_2 (en_received e) (Z.to_nat (fr_index f))) as [b Hb]; [lia|].
  rewrite Hb. destruct b; [split; [done|by apply map_Forall_insert_2]|]. cbv zeta.
  destruct (_ <? _); [done|].
  set (e' := store_fragment now f (fr_index f * NetConfig.MaxFragmentDataBytes) e).
  assert (zlen (en_received e') = en_fragment_count e') as He'
    by (unfold e', store_fragment; cbn; by rewrite length_insert).
  assert (entries_ok (<[fr_message_id f := e']> (ra_entries s))) by by apply map_Forall_insert_2.
  destruct (_ =? _); [|done]. destruct (d _ x) as [rc x1]. destruct (negb (ok rc)); [done|].
  split; [done|]. cbn. by apply map_Forall_delete.
Qed.

Lemma accept_fragment_ok {X} (d : FragmentedMessage → X → Result * X) now f s x :
  entries_ok (ra_entries s) → 0 <= fr_index f →
  re_rc (accept_fragment d now f s x) ≠ UB ∧
  entries_ok (ra_entries (re_state (accept_fragment d now f s x))).
Proof.
  intros Hs Hi. unfold accept_fragment. destruct (negb _); [done|]. destruct (_ || _); [done|].
  destruct (_ || _) eqn:Hc; [done|]. apply orb_false_iff in Hc as [_ Hc%Z.leb_gt].
  destruct (negb _); [done|]. destruct (_ && _); [done|]. destruct (negb _); [done|].
  destruct (ra_entries s !! fr_message_id f) as [e|] eqn:He.
  - apply accept_into_ok; [done| |lia]. exact (Hs _ _ He).
  - destruct (_ <=? _); [done|]. destruct (_ <? _); [done|]. apply accept_into_ok.
    + apply map_Forall_insert_2; [|done]. cbn. rewrite length_replicate. lia.
    + cbn. rewrite length_replicate. lia.
    + lia.
Qed.

Lemma expire_entries_ok {X} now (g : U64 → X → X) order s x :
  entries_ok (ra_entries s) → entries_ok (ra_entries (expire_entries now g order s x).1).
Proof.
  revert s x. induction order as [|id order IH]; intros s x Hs; [done|]. cbn [expire_entries].
  destruct (_ !! _); [|by apply IH]. destruct (stale_entry _ _ _); [|by apply IH].
  apply IH. cbn. by apply map_Forall_delete.
Qed.

(** ** Delivery *)

Lemma message_events_quiet cb m : Forall (λ e, quiet e = true) (message_events cb m).
Proof.
  unfold message_events. apply Forall_app_2; [by case_match; repeat constructor|].
  apply Forall_app_2; case_match; by repeat constructor.
Qed.

Lemma log_ok_emit_message c cb m log : log_ok c log → log_ok c (emit_message cb m log).
Proof.
  intros Hl. unfold emit_message. induction (message_events_quiet cb m); [done|].
  by apply log_ok_quiet.
Qed.

(** A new log, and a client that differs in statistics and receive windows. *)
Lemma At_delivered σ k w c' log :
  At σ k w → (client_ok (w_client w) → client_ok c') → c_state c' = c_state (w_client w) →
  c_seq c' = c_seq (w_client w) → log_ok (w_client w) log →
  At σ k (mkWorld c' (w_net w) log).
Proof.
  intros [[] <-] Hc Hs Hq Hl. split; [|done]. split; cbn [w_client w_net w_events]; [by apply Hc| |done].
  by eapply log_ok_seq.
Qed.

Lemma deliver_ok σ k ch t p n s w :
  At σ k w → At σ k (deliver_application_message ch t p n s w).2.
Proof.
  intros Hw. pose proof (iv_log _ _ (proj1 Hw)) as Hl. unfold deliver_application_message. cbv zeta.
  case_decide.
  - match goal with |- context [accept_ordered ?d ?s ?t ?p ?n ?ow ?x] =>
      pose proof (accept_ordered_state (λ y : list Event * U64, log_ok (w_client w) y.1) d s t p n ow x)
        as Ha; set (a := accept_ordered d s t p n ow x) in * end.
    destruct (oa_state a) as [events cnt]. cbn in Ha.
    assert (log_ok (w_client w) events) as He.
    { apply Ha; [|done]. intros. by apply log_ok_emit_message. }
    destruct (negb _); [case_decide|destruct (oa_buffered a), (oa_stale a)]; cbn [snd];
      (apply At_delivered; [done| |done..|exact He]);
      intros Hok; unfold counted; repeat apply client_ok_stats; revert Hok; same_fields.
  - case_decide.
    + destruct (Sequenced.accept _ _) as [fresh sw]. destruct (negb fresh); cbn [snd];
        (apply At_delivered; [done| |done..|]); try (by apply log_ok_emit_message); try done;
        intros Hok; unfold counted; revert Hok; same_fields.
    + cbn [snd]. apply At_delivered; [done|done..|]. by apply log_ok_emit_message.
Qed.

Lemma deliver_reassembled_ok σ k m w : At σ k w → At σ k (deliver_reassembled_message m w).2.
Proof.
  intros Hw. unfold deliver_reassembled_message. apply deliver_ok.
  apply At_update; [|done..|done]. intros. by apply client_ok_stats.
Qed.

Lemma call_safe σ k f : (∀ w, At σ k w → At σ k (f w).2) → Safe (At σ k) (call f).
Proof. intros Hf w Hw. specialize (Hf w Hw). unfold wp, call. by destruct (f w). Qed.

Lemma reassemble_safe σ k now f : 0 <= fr_index f → Safe (At σ k) (reassemble now f).
Proof.
  intros Hi w Hw. unfold wp, reassemble.
  destruct (accept_fragment_ok deliver_reassembled_message now f (c_reassembler (w_client w)) w)
    as [Hu He]; [exact (co_entries _ (iv_client _ _ (proj1 Hw)))|done|].
  pose proof (accept_fragment_state (At σ k) deliver_reassembled_message now f
    (c_reassembler (w_client w)) w (deliver_reassembled_ok σ k) Hw) as Hx.
  set (r := accept_fragment _ _ _ _ _) in *.
  assert (At σ k (mkWorld (w_client (re_x r) <| c_reassembler := re_state r |>) (w_net (re_x r))
    (w_events (re_x r)))) as Hr.
  { apply At_update; [|done..|done]. intros []. split; fields; done. }
  by destruct (re_rc r).
Qed.

Lemma handle_fragment_safe σ k f : 0 <= fr_index f → Safe (At σ k) (handle_fragment_payload f).
Proof.
  intros Hi. unfold handle_fragment_payload. apply safe_bind; [apply now_ms_safe|intros now].
  apply safe_bind; [by apply reassemble_safe|intros [[rc dup] comp]].
  destruct rc as [[]|rc|]; [safe_steps| |safe_steps]. case_decide; [safe_steps|].
  case_decide; safe_steps.
Qed.

Lemma deliver_or_fail_safe k ch t p n s text : Safe (Inv k) (deliver_or_fail ch t p n s text).
Proof.
  unfold deliver_or_fail. apply safe_bind; [|intros rc; safe_steps].
  apply safe_at. intros σ. apply call_safe. intros. by apply deliver_ok.
Qed.

Lemma fragment_or_fail_safe k f : 0 <= fr_index f → Safe (Inv k) (fragment_or_fail f).
Proof.
  intros Hi. unfold fragment_or_fail. apply safe_bind; [safe_steps|intros _].
  apply safe_bind; [|intros rc; safe_steps].
  apply safe_attempt, safe_at. intros σ. by apply handle_fragment_safe.
Qed.

(** ** Decoding *)

Lemma read_from_safe {A} bs (m : io ByteReader A) :
  ReaderSafe m → read_from (data_of bs) (zlen bs) m ≠ UB.
Proof.
  intros Hm. unfold read_from. apply reader_safe. unfold data_of.
  case_decide; [subst; by split|]. split; cbn; lia.
Qed.

(** On a null pointer every reader that needs a byte answers with an error, so
    a value was read from the canonical cursor. *)
Lemma read_from_inv {A} bs (m : io ByteReader A) a :
  (∀ a r, m (mkReader None 0 0) ≠ (Done a, r)) →
  read_from (data_of bs) (zlen bs) m = Done a →
  ∃ r, m (reader_at [] bs) = (Done a, r).
Proof.
  intros Hnull. unfold read_from, data_of. case_decide; [subst|].
  - intros Hd. specialize (Hnull a (m (mkReader None 0 0)).2). cbn in Hd.
    by rewrite <- Hd, <- surjective_pairing in Hnull.
  - intros Hd. change (mkReader (Some bs) (zlen bs) 0) with (reader_at [] bs) in Hd.
    eexists. by rewrite <- Hd, <- surjective_pairing.
Qed.

Lemma read_fragment_index bs f :
  read_from (data_of bs) (zlen bs) read_fragment_payload = Done f → 0 <= fr_index f.
Proof.
  unfold read_from. destruct (read_fragment_payload _) as [o r] eqn:Hr. cbn. intros ->.
  unfold read_fragment_payload in Hr. inv_done Hr. case_match; [done|].
  do 7 inv_done Hr. repeat (case_match; [done|]). inv_done Hr. cbv zeta in Hr.
  repeat (case_match; [done|]). inv_done Hr. unfold mret, io_ret in Hr. simplify_eq Hr. intros <- _.
  cbn. match goal with H : read_u16 _ = (Done ?i, _) |- 0 <= ?i => apply read_u16_range in H; ulia end.
Qed.

Lemma read_envelope_view m1 m2 m3 bs v :
  bytes_ok bs → read_from (data_of bs) (zlen bs) (read_envelope m1 m2 m3) = Done v →
  ∃ data, pl_data v = data_of data ∧ pl_len v = zlen data ∧ bytes_ok data.
Proof.
  intros Hok Hv. apply read_from_inv in Hv as [r Hv]; [|done].
  apply read_envelope_inv in Hv as (data & -> & _ & _ & _ & Hd & _); [|done]. by exists data.
Qed.

(** ** Dispatching *)

Definition msg_ok (m : MsgView) : Prop :=
  ∃ bs, m_data m = data_of bs ∧ m_len m = zlen bs ∧ bytes_ok bs.

Section crypto.
Context `{SodiumLaws} (k : nat).

Lemma dispatch_control_safe m : msg_ok m → Safe (Inv k) (dispatch_control m).
Proof.
  intros (bs & Hd & Hl & Hok). unfold dispatch_control. rewrite Hd, Hl.
  destruct (_ =? _).
  - pose proof (read_from_safe bs read_reliable_ack ltac:(apply _)).
    destruct (read_from _ _ _) as [[ch id]|rc|]; [|safe_steps|done].
    apply safe_at. intros σ. apply safe_bind; [apply now_ms_safe|intros now].
    apply safe_bind; [apply acknowledge_safe|intros ack].
    apply safe_bind; [|intros _; apply refresh_safe]. destruct (ev_removed ack); safe_steps.
  - destruct (_ =? _); [|safe_steps].
    pose proof (read_from_safe bs read_fragment_payload ltac:(apply _)).
    destruct (read_from _ _ _) as [f|rc|] eqn:Hf; [|safe_steps|done].
    by apply fragment_or_fail_safe, (read_fragment_index bs).
Qed.

Lemma deliver_reliable_safe m v :
  (∃ bs, pl_data v = data_of bs ∧ pl_len v = zlen bs ∧ bytes_ok bs) →
  Safe (Inv k) (deliver_reliable m v).
Proof.
  intros (bs & Hd & Hl & Hok). unfold deliver_reliable. rewrite Hd, Hl.
  assert (Safe (Inv k)
    (if decide (m_channel m = Channel.ReliableOrdered) then
       match read_from (data_of bs) (zlen bs) read_ordered_payload with
       | UB => undefined
       | Err _ => count_and_fail Stat.bad_packets CloseReason.InvalidPacket "malformed ordered payload"
       | Done ordered => deliver_or_fail Channel.ReliableOrdered (m_type m) (pl_data ordered)
           (pl_len ordered) (pl_id ordered) "ordered delivery failed"
       end
     else deliver_or_fail Channel.Reliable (m_type m) (data_of bs) (zlen bs) 0
            "reliable delivery failed")) as Hplain.
  { case_decide; [|apply deliver_or_fail_safe].
    pose proof (read_from_safe bs read_ordered_payload ltac:(apply read_envelope_safe)).
    destruct (read_from _ _ _); [apply deliver_or_fail_safe|safe_steps|done]. }
  destruct (_ =? _); [|exact Hplain].
  pose proof (read_from_safe bs read_fragment_payload ltac:(apply _)).
  destruct (read_from (data_of bs) (zlen bs) read_fragment_payload) as [f|rc|] eqn:Hf; [|exact Hplain|done].
  by apply fragment_or_fail_safe, (read_fragment_index bs).
Qed.

Lemma dispatch_frame_safe m : msg_ok m → Safe (Inv k) (dispatch_message_frame m).
Proof.
  intros Hm. pose proof Hm as (bs & Hd & Hl & Hok). unfold dispatch_message_frame.
  assert (∀ ch, Safe (Inv k)
    match read_from (m_data m) (m_len m) read_reliable_payload with
    | UB => undefined
    | Err _ => count_and_fail Stat.bad_packets CloseReason.InvalidPacket "malformed reliable payload"
    | Done reliable =>
        attempt (queue_control_ack ch (pl_id reliable));;
        fresh ← on_session ch
                  (λ s, let '(b, s') := accept_incoming (pl_id reliable) s in (Done b, s'));
        if negb fresh then mret tt
        else count Stat.reliable_messages_delivered;; deliver_reliable m reliable
    end) as Hrel.
  { intros ch. rewrite Hd, Hl.
    pose proof (read_from_safe bs read_reliable_payload ltac:(apply read_envelope_safe)).
    destruct (read_from _ _ _) as [v|rc|] eqn:Hv; [|safe_steps|done].
    apply (read_envelope_view _ _ _ _ _ Hok) in Hv.
    apply safe_bind; [apply safe_attempt, safe_at; intros σ; apply queue_control_ack_safe|intros _].
    apply safe_bind; [safe_steps|intros fresh]. destruct (negb fresh); [apply safe_ret|].
    apply safe_bind; [safe_steps|intros _]. by apply deliver_reliable_safe. }
  destruct (m_channel m) eqn:Hch.
  - apply deliver_or_fail_safe.
  - apply Hrel.
  - apply Hrel.
  - clear Hrel. rewrite Hd, Hl.
    pose proof (read_from_safe bs read_sequenced_payload ltac:(apply read_envelope_safe)).
    destruct (read_from _ _ _); [apply deliver_or_fail_safe|safe_steps|done].
  - by apply dispatch_control_safe.
Qed.

Lemma dispatch_loop_safe fuel pre rest :
  bytes_ok rest → (length rest < fuel)%nat → Safe (Inv k) (dispatch_loop fuel (reader_at pre rest)).
Proof.
  revert pre rest. induction fuel as [|fuel IH]; intros pre rest Hok Hlen; [lia|]. cbn [dispatch_loop].
  pose proof (reader_safe (m:=read_message) _ (reader_wf_at pre rest)) as [Hu _].
  destruct (read_message (reader_at pre rest)) as [[m|rc|] r] eqn:Hm; [| |done].
  - apply read_message_inv in Hm as (bs & rest' & Hm & _ & _ & Hbs & -> & ->); [|done].
    apply Forall_app in Hok as [_ Hok]. rewrite length_app, length_enc_message in Hlen.
    apply safe_bind; [safe_steps|intros _]. apply safe_bind.
    { apply dispatch_frame_safe. exists bs. rewrite Hm. done. }
    intros _. apply safe_this. intros w Hw. case_decide; [done|]. apply IH; [done|lia|done].
  - case_decide; [apply safe_ret|safe_steps].
Qed.

Lemma dispatch_payload_safe bs :
  bytes_ok bs → Safe (Inv k) (dispatch_message_payload (data_of bs) (zlen bs)).
Proof.
  intros Hok. unfold dispatch_message_payload. unfold data_of. case_decide as Hd.
  - subst. apply safe_ret.
  - change (mkReader (Some bs) (zlen bs) 0) with (reader_at [] bs).
    apply dispatch_loop_safe; [done|lia].
Qed.

(** ** Retransmission *)

(** Queueing a packet changes the sequence number, the queue and statistics. *)
Lemma queue_packet_keeps {X} (g : Client → X) kind enc p n prio id :
  (∀ c s, g (c <| c_stats := s |>) = g c) → (∀ c s, g (c <| c_seq := s |>) = g c) →
  (∀ c b q, g (c <| c_pending_bytes := b |> <| c_pending := q |>) = g c) →
  Keeps g (queue_packet kind enc p n prio id).
Proof.
  intros Hstats Hseq Hq.
  unfold queue_packet. do 3 (case_match; [done|]). apply keeps_this. intros c.
  apply keeps_bind; [by apply keeps_update|intros _]. apply keeps_bind; [done|intros _].
  assert (∀ pp, Keeps g (enqueue_pending_packet pp)) as Henq.
  { intros pp. apply keeps_this. intros c'. case_match.
    - apply keeps_bind; [by apply keeps_count_n|done].
    - apply keeps_bind; [by apply keeps_update|intros _; by apply keeps_refresh]. }
  destruct enc; [case_match; [done|]|]; (apply keeps_bind; [done|intros body]);
    [apply keeps_bind; [done|intros _]|]; apply keeps_bind; done.
Qed.

Lemma queue_message_config ch t p n prio : Keeps c_config (queue_message_packet ch t p n prio).
Proof.
  unfold queue_message_packet, queue_internal_message. case_decide; [done|].
  apply keeps_bind; [done|intros payload].
  apply keeps_bind; [by apply queue_packet_keeps|intros _; by apply keeps_count_n].
Qed.

(** The state of the callback: still defined, and the same configuration. *)
Definition resend_ok (σ : ConnectionState) (cfg : ClientConfig) (x : bool * World) : Prop :=
  x.1 = false ∧ At σ k x.2 ∧ c_config (w_client x.2) = cfg.

Lemma resend_packet_ok σ cfg ch m x :
  resend_ok σ cfg x → resend_ok σ cfg (resend_packet ch m x).2.
Proof.
  intros (Hb & Hw & Hc). unfold resend_packet, resend_ok.
  pose proof (queue_message_safe σ k ch (p_user_type m) (Some (p_encoded_payload m))
    (w16 (zlen (p_encoded_payload m))) (p_priority m) (readable_w16 _) _ Hw) as Hq.
  pose proof (queue_message_config ch (p_user_type m) (Some (p_encoded_payload m))
    (w16 (zlen (p_encoded_payload m))) (p_priority m) x.2) as Hk.
  unfold wp in Hq. destruct (queue_message_packet _ _ _ _ _ _) as [[a|rc|] w']; cbn in *;
    [split_and!; [done|done|congruence]..|done].
Qed.

Lemma send_pending_safe σ ch now : Safe (At σ k) (send_pending ch now).
Proof.
  intros w Hw. unfold wp, send_pending. cbv zeta.
  set (s := if decide _ then _ else _).
  pose proof (resend_due_state (resend_ok σ (c_config (w_client w))) now (resend_packet ch) s (false, w)
    (resend_packet_ok σ _ ch) (conj eq_refl (conj Hw eq_refl))) as Hx.
  pose proof (resend_due_cfg now (resend_packet ch) s (false, w)) as Hcfg.
  destruct (resend_due _ _ _ _) as [[rc s'] [ub w1]]. destruct Hx as (Hub & H1 & Hc).
  cbn in Hub, H1, Hc, Hcfg. subst ub.
  pose proof (iv_client _ _ (proj1 Hw)) as [_ Hr Ho _ _ _ _ _ _ _ _ _ _ _ _ _ _].
  apply At_update; [|by case_decide..|done]. intros []. subst s.
  case_decide; split; fields; try done; congruence.
Qed.

Lemma tolerate_safe σ rc : Safe (At σ k) (tolerate_backpressure rc).
Proof.
  unfold tolerate_backpressure. apply safe_if; intros _; [safe_steps|]. case_decide; safe_steps.
Qed.

Lemma pump_reliable_safe σ : Safe (At σ k) pump_reliable.
Proof.
  apply safe_this. intros w0 Hw0. destruct (negb _); [done|].
  eapply wp_seq; [apply now_ms_safe|exact Hw0|done|]. intros now. cbv zeta.
  match goal with |- ∀ w, _ → wp _ ?m w _ => change (Safe (At σ k) m) end.
  apply safe_bind; [apply expire_safe|intros n1]. apply safe_bind; [apply expire_safe|intros n2].
  apply safe_bind; [case_match; safe_steps|intros _].
  apply safe_bind; [apply send_pending_safe|intros rc1]. apply safe_bind; [apply tolerate_safe|intros _].
  apply safe_bind; [apply send_pending_safe|intros rc2]. apply safe_bind; [apply tolerate_safe|intros _].
  apply safe_this. intros w Hw. eapply wp_seq; [eauto with safe|exact Hw|done|]. intros _ w1 H1.
  eapply wp_seq; [|exact H1|done|intros _ w2 H2; by apply refresh_safe].
  destruct (_ <? _); safe_steps.
Qed.
End crypto.

(** ** The handshake *)

(** What [parse_packet] guarantees of a received packet. *)
Record packet_ok (v : PacketView) (p : list U8) : Prop := {
  pk_payload : pv_payload v = data_of p;
  pk_len : payload_len (pv_h v) = zlen p;
  pk_bytes : bytes_ok p;
  pk_typed : header_typed (pv_h v);
}.

Lemma bytes_at_data bs : bytes_at (data_of bs) (zlen bs) = Done bs.
Proof. unfold data_of. case_decide; [by subst|apply bytes_at_all]. Qed.

Section handshake.
Context `{SodiumLaws} (k : nat).

Lemma read_server_hello_ok bs h :
  bytes_ok bs → read_from (data_of bs) (zlen bs) read_server_hello = Done h → server_hello_ok h.
Proof.
  intros Hok Hh. apply read_from_inv in Hh as [r Hh]; [|done].
  apply (frame_canon (rd:=read_server_hello)) in Hh as [(H1 & H2 & H3 & H4 & H5 & H6) _]; [|done].
  split; [done..|]. unfold optional_valid in H6. cbn in H6. unfold token_ok.
  destruct (sh_has_resumption_token h); [apply H6|]. rewrite H6. apply (zeros_array 16).
Qed.

Lemma read_retry_ok bs t :
  bytes_ok bs → read_from (data_of bs) (zlen bs) read_retry = Done t → is_array 16 (rt_mac t).
Proof.
  intros Hok Hh. apply read_from_inv in Hh as [r Hh]; [|done].
  apply (frame_canon (rd:=read_retry)) in Hh as [[_ Ht] _]; [exact Ht|done].
Qed.

Lemma send_client_hello_safe σ : Safe (At σ k) send_client_hello.
Proof.
  apply safe_this. intros w Hw. revert w Hw. intros w Hw.
  apply safe_bind_lift; [| |done].
  - apply write_to_safe; [done|]. apply write_client_hello_safe, current_hello_ok, Hw.
  - intros payload _. apply safe_bind; [|intros _; apply flush_safe].
    apply queue_packet_safe; [apply readable_all|lia|ulia].
Qed.

Lemma handle_retry_safe σ v p : packet_ok v p → Safe (At σ k) (handle_retry_packet v).
Proof.
  intros [Hp Hl Hok _]. unfold handle_retry_packet. rewrite Hp, Hl.
  apply safe_bind_lift; [apply read_from_safe; apply _|]. intros token Ht.
  apply read_retry_ok in Ht; [|done]. apply safe_this. intros w Hw.
  eapply wp_seq; [eauto with safe|exact Hw|done|]. clear w Hw. intros _ w Hw.
  apply wp_bind, wp_update.
  eapply wp_seq; [apply count_safe| |done|].
  { apply At_update; [|done..|exact Hw]. intros []. split; fields; done. }
  intros _ w1 H1. eapply wp_seq; [apply emit_log_safe|exact H1|done|].
  intros _ w2 H2. by apply send_client_hello_safe.
Qed.

Lemma derive_keys_ok kp pk :
  is_array 32 pk →
  match crypto_derive_client_session_keys kp (Some pk) (Z.of_nat NetConfig.KeyExchangePublicKeyBytes) with
  | Done keys => is_array 32 (sk_rx keys) ∧ is_array 32 (sk_tx keys)
  | Err _ => True
  | UB => False
  end.
Proof.
  intros Hpk. unfold crypto_derive_client_session_keys. rewrite crypto_ready.
  rewrite reject_if_false by (rewrite bool_decide_eq_false_2 by done; by rewrite Z.eqb_refl).
  change NetConfig.KeyExchangePublicKeyBytes with 32%nat.
  rewrite (is_array_readable _ _ Hpk). cbn [outcome_bind].
  destruct (kx_client_session_keys _ _ _) as [[rx tx]|] eqn:Hk; [|done].
  by apply client_keys_length in Hk.
Qed.

Lemma keyed_hash_ok key data n :
  is_array 32 key → 0 <= n →
  match crypto_keyed_hash (Some key) (Z.of_nat NetConfig.SessionKeyBytes) (Some data) (zlen data) false n with
  | Done mac => zlen mac = n ∧ bytes_ok mac
  | Err _ => True
  | UB => False
  end.
Proof.
  intros Hk Hn. unfold crypto_keyed_hash. rewrite crypto_ready. unfold reject_if.
  destruct (_ || _); [exact I|]. destruct (_ && _); [exact I|].
  change NetConfig.SessionKeyBytes with 32%nat.
  rewrite (is_array_readable _ _ Hk), bytes_at_all. cbn [outcome_bind].
  destruct (generichash _ _ _) as [h|] eqn:Hh; [|done].
  exact (hash_length _ _ _ _ Hn Hh).
Qed.

Lemma authenticate_hello_ok c hello :
  client_ok c → server_hello_ok hello →
  match authenticate_hello c hello with
  | Done keys => is_array 32 (sk_rx keys) ∧ is_array 32 (sk_tx keys)
  | Err _ => True
  | UB => False
  end.
Proof.
  intros Hc Hh. unfold authenticate_hello, build_transcript_mac_input.
  pose proof (derive_keys_ok (c_ephemeral c) _ (so_public _ Hh)) as Hkeys.
  destruct (crypto_derive_client_session_keys _ _ _) as [keys|rc|]; cbn [outcome_bind]; [|done..].
  pose proof (write_to_safe 320 (write_transcript (current_hello c) hello) ltac:(done)
    (write_transcript_safe _ _ (current_hello_ok _ Hc) Hh)) as Ht.
  destruct (write_to _ _) as [transcript|rc|]; cbn [outcome_bind]; [|done..].
  pose proof (keyed_hash_ok (sk_rx keys) transcript (Z.of_nat NetConfig.TranscriptMacBytes)
    (proj1 Hkeys) ltac:(lia)) as Hmac.
  destruct (crypto_keyed_hash _ _ _ _ _ _) as [mac|rc|]; cbn [outcome_bind]; [|done..].
  destruct Hmac as [Hml Hmok]. destruct (so_mac _ Hh) as [Hsl Hsok].
  rewrite <- Hml, constant_time_equal_mac; [|by change (zlen mac = 16) in Hml; lia|done|done].
  cbn [outcome_bind]. by destruct (negb _).
Qed.
End handshake.

(** ** Established traffic *)

Section traffic.
Context `{SodiumLaws} (k : nat).

Lemma install_session_ok keys hello now c :
  client_ok c → c_state c = ConnectionState.Handshaking → server_hello_ok hello →
  is_array 32 (sk_rx keys) → is_array 32 (sk_tx keys) →
  client_ok (install_session keys hello now c).
Proof.
  intros Hc Hs [] Hrx Htx. destruct (co_secret _ Hc) as [Hlen _]. destruct Hc.
  unfold install_session. split; fields; try done.
  - intros [?|?]; congruence.
  - cbn. unfold crypto_secure_zero. rewrite Hlen. apply zeros_array.
  - destruct (sh_has_resumption_token hello); [done|apply (zeros_array 16)].
Qed.

Lemma handle_server_hello_wp v p w :
  packet_ok v p → At ConnectionState.Handshaking k w →
  wp (Inv k) (handle_server_hello_packet v) w (λ _, Inv k).
Proof.
  intros [Hp Hl Hok _] Hw. unfold handle_server_hello_packet. rewrite Hp, Hl.
  apply wp_bind, wp_lift; [apply read_from_safe; apply _| |by intros; apply Hw].
  intros hello Hh%read_server_hello_ok; [|done]. apply wp_bind, wp_this.
  pose proof (authenticate_hello_ok (w_client w) hello (iv_client _ _ (proj1 Hw)) Hh) as Hauth.
  apply wp_bind, wp_lift; [intros Hu; by rewrite Hu in Hauth| |by intros; apply Hw].
  intros keys Hk. rewrite Hk in Hauth. destruct Hauth as [Hrx Htx].
  assert (∀ w', At ConnectionState.Handshaking k w' → Inv k w') as HE by by intros ? [].
  eapply wp_seq; [apply now_ms_safe|exact Hw|done|]. intros now w1 H1. apply wp_bind, wp_update.
  eapply wp_seq; [eauto with safe| |exact HE|].
  { apply At_update; [|done..|exact H1]. intros Hc.
    apply install_session_ok; [done|apply H1|done..]. }
  intros _ w2 H2. apply wp_bind. eapply wp_attempt; [apply queue_keepalive_safe|exact H2|].
  intros rc w3 H3. destruct (negb (ok rc)).
  - apply wp_bind. eapply fail_connection_wp; [by apply HE|done|]. intros w4 H4. apply wp_err, H4.
  - apply wp_bind. eapply transition_wp; [exact H3|by right|by intros [?|?]| |by intros ? []].
    intros w4 H4. eapply wp_safe with (P := At ConnectionState.Established k);
      [|exact H4|by intros ? []|by intros ? ? []]. safe_steps.
Qed.

Lemma handle_handshake_safe v p : packet_ok v p → Safe (Inv k) (handle_handshake_packet v).
Proof.
  intros Hv. unfold handle_handshake_packet. apply safe_if; intros _; [apply safe_fail|].
  apply safe_this. intros w Hw. case_bool_decide as Hs; cbn [negb]; [|done].
  assert (At ConnectionState.Handshaking k w) as Hσ by by split.
  destruct (_ || _) eqn:Hnull; [done|]. apply orb_false_iff in Hnull as [Hn1 Hn2].
  rewrite (pk_payload _ _ Hv) in *. rewrite (pk_len _ _ Hv) in Hn2. apply Z.eqb_neq in Hn2.
  destruct p as [|b p']; [done|]. change (default [] (data_of (b :: p')) !! 0%nat) with (Some b).
  cbv beta iota. destruct (_ =? _).
  { eapply wp_safe; [by eapply handle_retry_safe|exact Hσ|by intros ? []|by intros ? ? []]. }
  destruct (_ =? _); [|done]. by eapply handle_server_hello_wp.
Qed.

Lemma discard_session_ok c : client_ok c → client_ok (discard_session c).
Proof.
  intros Hc. destruct (co_rx _ Hc) as [Hrx _]. destruct (co_tx _ Hc) as [Htx _].
  pose proof (client_usable_queue _ (co_usable _ Hc)). destruct Hc.
  unfold discard_session. split; fields; try done.
  - split; [constructor| |constructor]. simpl. lia.
  - cbn. unfold crypto_secure_zero. rewrite Hrx. apply zeros_array.
  - cbn. unfold crypto_secure_zero. rewrite Htx. apply zeros_array.
  - intros _. apply clear_keys_empty.
Qed.

(** [_sock.close(); _session_keys.clear(); ...; transition_state(Closed)] *)
Lemma discard_wp σ w (E : World → Prop) Q :
  At σ k w → (∀ w', Inv k w' → E w') → (∀ w', At ConnectionState.Closed k w' → Q tt w') →
  wp E (sys UdpSocket.close;; update discard_session;; transition_state ConnectionState.Closed) w Q.
Proof.
  intros Hw HE HQ. apply wp_bind, sys_keeps; [apply close_keeps|]. intros _ n Hn.
  apply (At_net _ _ _ n Hn) in Hw. apply wp_bind, wp_update.
  destruct (At_wiped σ k _ discard_session Hw) as [H1 Hk]; [apply discard_session_ok|done..|].
  eapply transition_wp; [exact H1|right; by destruct σ|done|done|]. intros. eauto with scn.
Qed.

Lemma close_from_peer_safe reason : Safe (Inv k) (close_from_peer reason).
Proof.
  unfold close_from_peer. apply safe_bind; [safe_steps|intros _]. intros w Hw.
  apply wp_bind, wp_update. eapply (discard_wp (c_state (w_client w))); [|done|by intros ? []].
  apply At_update; [same_fields|done..|by split].
Qed.

Lemma open_payload_ok keys v p :
  is_array 32 (sk_rx keys) → packet_ok v p →
  match open_payload keys v with
  | Done m => bytes_ok m ∧ zlen m <= zlen p
  | Err _ => True
  | UB => False
  end.
Proof.
  intros Hk [Hp Hl Hok Ht]. unfold open_payload. rewrite Hp, Hl.
  rewrite write_header_to by done. cbn [outcome_bind].
  unfold crypto_aead_decrypt. rewrite crypto_ready. unfold reject_if.
  repeat match goal with |- context [if ?b then Err ?e else ?k] =>
    change (match (if b then Err e else k) with Done m => bytes_ok m ∧ zlen m <= zlen p
            | Err _ => True | UB => False end); destruct b; [exact I|] end.
  change NetConfig.SessionKeyBytes with 32%nat. rewrite (is_array_readable _ _ Hk).
  rewrite <- (length_nonce (conn_id (pv_h v)) (seq (pv_h v))).
  rewrite !bytes_at_all, bytes_at_data. cbn [outcome_bind].
  destruct (aead_open _ _ _ p) as [m|] eqn:Ho; [|exact I]. apply open_length in Ho as [Hlen Hm].
  split; [done|]. change NetConfig.AeadTagBytes with 16 in Hlen. lia.
Qed.

Lemma dispatch_kind_safe kd h plaintext :
  bytes_ok plaintext → payload_len h = zlen plaintext →
  Safe (Inv k) (dispatch_kind kd (mkPacketView h (data_of plaintext))).
Proof.
  intros Hok Hl. unfold dispatch_kind. cbn [pv_h pv_payload]. rewrite Hl. cbv zeta.
  apply safe_if; intros _; [apply safe_ret|]. apply safe_if; intros _.
  { apply safe_bind; [by apply dispatch_payload_safe|intros _]. apply safe_this. intros w Hw.
    by case_decide. }
  apply safe_if; intros _; [safe_steps|]. apply safe_if; intros _; [|safe_steps].
  pose proof (read_from_safe plaintext read_close_frame ltac:(apply _)).
  destruct (read_from _ _ _) as [reason|rc|]; [|safe_steps|done].
  apply safe_bind; [apply close_from_peer_safe|intros _; apply safe_fail].
Qed.

Lemma handle_established_safe v p : packet_ok v p → Safe (Inv k) (handle_established_packet v).
Proof.
  intros Hv. unfold handle_established_packet. cbv zeta. apply safe_if; intros _; [apply safe_fail|].
  apply safe_this. intros w Hw. destruct (keys_empty _); [done|]. destruct (negb _); [done|].
  pose proof (open_payload_ok (c_session_keys (w_client w)) v p (co_rx _ (iv_client _ _ Hw)) Hv) as Ho.
  destruct (open_payload _ _) as [m|rc|]; [|revert w Hw Ho; intros w Hw _|done].
  2: { eapply (wp_seq (Inv k)); [eauto with safe|exact Hw|done|]. intros _ w1 H1.
       eapply (wp_seq (Inv k)); [eauto with safe|exact H1|done|]. intros _ w2 H2. done. }
  destruct Ho as [Hok Hlen]. destruct (_ =? 0); [done|].
  destruct (ReplayWindow.accept _ _) as [fresh win]. apply wp_bind, wp_update.
  assert (Inv k (mkWorld (w_client w <| c_packet_window := win |>) (w_net w) (w_events w))) as H1.
  { apply (At_Inv (c_state (w_client w))), At_update; [same_fields|done..|by split]. }
  destruct (negb fresh).
  { eapply (wp_seq (Inv k)); [eauto with safe|exact H1|done|]. intros _ w2 H2. done. }
  eapply (wp_seq (Inv k)); [eauto with safe|exact H1|done|]. intros now w2 H2. apply wp_bind, wp_update.
  assert (Inv k (mkWorld (w_client w2 <| c_last_recv_ms := now |>) (w_net w2) (w_events w2))) as H3.
  { apply (At_Inv (c_state (w_client w2))), At_update; [same_fields|done..|by split]. }
  eapply (wp_seq (Inv k)); [eauto with safe|exact H3|done|]. intros _ w4 H4.
  eapply (wp_seq (Inv k)); [eauto with safe|exact H4|done|]. intros _ w5 H5.
  pose proof (pk_len _ _ Hv) as Hpl. destruct (pk_typed _ _ Hv) as (_ & _ & _ & _ & _ & _ & Ht).
  apply dispatch_kind_safe; [done| |done]. cbn [payload_len]. apply w32_id. ulia.
Qed.

Lemma handle_error_safe rc : Safe (Inv k) (handle_error rc).
Proof. unfold handle_error. destruct (code rc); safe_steps. Qed.

Lemma handle_packet_safe v p : packet_ok v p → Safe (Inv k) (handle_packet v).
Proof.
  intros Hv. apply safe_this. intros w Hw. cbv zeta. revert w Hw.
  assert (∀ rc, Safe (Inv k) (if decide (code rc = Errc.Replay) then mret tt else handle_error rc)) as Hreplay.
  { intros rc. case_decide; [apply safe_ret|apply handle_error_safe]. }
  intros w Hw. destruct (_ =? kind_value PacketKind.Handshake).
  { apply safe_bind with (w := w); [eauto with safe| |done]. intros _.
    apply safe_bind; [eauto with safe|intros _].
    apply safe_bind; [by eapply safe_attempt, handle_handshake_safe|apply handle_error_safe]. }
  destruct (_ && _ && _).
  - apply safe_bind with (w := w); [eauto with safe| |done]. intros _.
    apply safe_bind; [eauto with safe|intros _]. rewrite (pk_payload _ _ Hv), (pk_len _ _ Hv).
    pose proof (read_from_safe p read_close_frame ltac:(apply _)).
    destruct (read_from _ _ _); [apply close_from_peer_safe|apply handle_error_safe|done].
  - apply safe_bind with (w := w); [by eapply safe_attempt, handle_established_safe|apply Hreplay|done].
Qed.
End traffic.

(** ** The receive loop *)

Lemma udp_datagram_cases named cap n :
  match UdpSocket.recv_datagram_common named cap n with
  | (UB, _) => False
  | (Done (_, bytes), n') => bytes_ok bytes ∧ length (n_inbox n) = S (length (n_inbox n'))
  | (Err rc, n') =>
      (length (n_inbox n') <= length (n_inbox n))%nat ∧
      (code rc = Errc.Truncated → length (n_inbox n) = S (length (n_inbox n')))
  end.
Proof.
  unfold UdpSocket.recv_datagram_common, UdpSocket.is_open, UdpSocket.check_socket_len,
    UdpSocket.os_recv_call, mbind, io_bind, mret, io_ret, fail.
  destruct (negb (n_open n)); [by split|]. destruct (UdpSocket.INT_MAX <? cap); [by split|].
  destruct (n_inbox n) as [|[from bytes|[]] inbox] eqn:Hi; cbn [n_inbox length code fail_result];
    rewrite ?Hi; cbn [length]; [by split; [lia|]| |by split; [lia|]..].
  destruct (cap <? zlen bytes); cbn [n_inbox length code fail_result]; [by split; [lia|]|].
  split; [|done].
  apply Forall_fmap, Forall_true. intros. apply w8_range.
Qed.
Lemma udp_recv_cases cap n :
  match UdpSocket.recv cap n with
  | (UB, _) => False
  | (Done bytes, n') => bytes_ok bytes ∧ length (n_inbox n) = S (length (n_inbox n'))
  | (Err rc, n') =>
      (length (n_inbox n') <= length (n_inbox n))%nat ∧
      (code rc = Errc.Truncated → length (n_inbox n) = S (length (n_inbox n')))
  end.
Proof.
  pose proof (udp_datagram_cases false cap n) as Hr. unfold UdpSocket.recv, mbind, io_bind.
  by destruct (UdpSocket.recv_datagram_common false cap n) as [[[from bytes]|rc|] n'].
Qed.

Lemma Inv_weaken k k' w : (k <= k')%nat → Inv k w → Inv k' w.
Proof. intros ? []. split; [done|done|lia]. Qed.

Lemma parse_packet_ok bs v :
  bytes_ok bs → parse_packet (Some bs) (zlen bs) = Done v → ∃ p, packet_ok v p.
Proof.
  intros Hok Hv. destruct (parse_packet_inv bs v Hok Hv) as (p & -> & _ & Ht & _ & Hl & Hp).
  exists p. by split.
Qed.

Section loop.
Context `{SodiumLaws}.

Lemma receive_loop_wp fuel k w :
  Inv k w → (k < fuel)%nat → wp (Inv k) (receive_loop fuel) w (λ _, Inv k).
Proof.
  revert k w. induction fuel as [|fuel IH]; intros k w Hw Hk; [lia|].
  unfold wp. cbn [receive_loop]. unfold sys at 1.
  pose proof (udp_recv_cases NetConfig.MaxPacketBytes (w_net w)) as Hr.
  destruct (UdpSocket.recv _ _) as [[bytes|rc|] n]; [| |done].
  - destruct Hr as [Hok Hn]. set (w1 := mkWorld _ _ _).
    assert (Inv (k - 1) w1 ∧ (1 <= k)%nat) as [H1 Hpos].
    { destruct Hw as [Hc Hl Hi]. split; [split; cbn; [done|done|lia]|lia]. }
    match goal with |- match ?m w1 with _ => _ end => change (wp (Inv k) m w1 (λ _, Inv k)) end.
    eapply wp_weaken with (E := Inv (k - 1)) (Q := λ _, Inv (k - 1));
      [|by intros; eapply Inv_weaken; [|done]; lia|by intros; eapply Inv_weaken; [|done]; lia].
    eapply (wp_seq (Inv (k - 1))); [eauto with safe|exact H1|done|]. intros _ w2 H2.
    eapply (wp_seq (Inv (k - 1))); [eauto with safe|exact H2|done|]. intros _ w3 H3.
    pose proof (parse_packet_safe bytes) as Hp.
    destruct (parse_packet _ _) as [v|rc|] eqn:Hv; [| |done].
    + destruct (parse_packet_ok _ _ Hok Hv) as [p Hpk].
      eapply (wp_seq (Inv (k - 1))); [by eapply handle_packet_safe|exact H3|done|]. intros _ w4 H4.
      apply wp_bind, wp_this. case_decide; [done|]. apply IH; [done|lia].
    + case_decide; by apply count_and_fail_safe.
  - destruct Hr as [Hn Ht]. set (w1 := mkWorld _ _ _).
    assert (Inv k w1) as H1 by (destruct Hw as [Hc Hl Hi]; split; cbn; [done|done|lia]).
    match goal with |- match ?m w1 with _ => _ end => change (wp (Inv k) m w1 (λ _, Inv k)) end.
    case_decide; [by apply (safe_at k); [intros; apply count_safe|]|].
    case_decide as Htr.
    + specialize (Ht Htr).
      assert (Inv (k - 1) w1 ∧ (1 <= k)%nat) as [Hw2 Hpos].
      { destruct Hw as [Hc Hl Hi]. split; [split; cbn; [done|done|lia]|lia]. }
      eapply wp_weaken with (E := Inv (k - 1)) (Q := λ _, Inv (k - 1));
        [|by intros; eapply Inv_weaken; [|done]; lia|by intros; eapply Inv_weaken; [|done]; lia].
      eapply (wp_seq (Inv (k - 1))); [eauto with safe|exact Hw2|done|]. intros _ w3 Hw3.
      apply IH; [done|lia].
    + eapply (wp_seq (Inv k)); [eauto with safe|exact H1|done|]. by intros.
Qed.

Lemma pump_receive_safe k : Safe (Inv k) pump_receive.
Proof.
  intros w Hw. set (k' := length (n_inbox (w_net w))).
  assert (Inv k' w) as Hw' by (destruct Hw; split; done).
  pose proof (receive_loop_wp (S k') k' w Hw' ltac:(lia)) as Hr.
  change (wp (Inv k) (receive_loop (S k')) w (λ _, Inv k)).
  pose proof (iv_inbox _ _ Hw) as Hle. eapply wp_weaken; [exact Hr| |].
  - intros w' Hi. exact (Inv_weaken k' k w' Hle Hi).
  - intros a w' Hi. exact (Inv_weaken k' k w' Hle Hi).
Qed.
End loop.

(** ** Housekeeping, tick, close and connect *)

Lemma random_bytes_array len n :
  match random_bytes len n with
  | (Done bs, n') => is_array len bs ∧ n_inbox n' = n_inbox n
  | _ => False
  end.
Proof.
  unfold random_bytes. destruct (n_random n) as [|bs rest]; (split; [|done]).
  - apply (zeros_array len).
  - split; [apply length_resize|]. rewrite resize_spec.
    apply bytes_ok_app; [|apply Forall_replicate; unfold is_u8; lia].
    apply Forall_take, Forall_fmap, Forall_true. intros. apply w8_range.
Qed.

Section interface.
Context `{SodiumLaws} (k : nat).

Lemma expire_reassemblies_safe σ now : Safe (At σ k) (expire_reassemblies now).
Proof.
  intros w Hw. unfold wp, expire_reassemblies. cbv zeta.
  match goal with |- context [expire_entries ?n ?g ?o ?s ?x] =>
    pose proof (expire_entries_ok n g o s x (co_entries _ (iv_client _ _ (proj1 Hw)))) as He;
    destruct (expire_entries n g o s x) as [r st] end.
  apply At_update; [|done..|done]. intros []. split; fields; done.
Qed.

Lemma run_housekeeping_safe : Safe (Inv k) run_housekeeping.
Proof.
  unfold run_housekeeping. apply safe_bind; [eauto with safe|intros now].
  apply safe_bind; [apply safe_at; intros; apply expire_reassemblies_safe|intros _].
  apply safe_this. intros w Hw. cbv zeta. assert (At (c_state (w_client w)) k w) as Hσ by by split.
  destruct (c_state (w_client w)) eqn:Hs.
  - by apply (safe_at k); [intros; apply refresh_safe|].
  - eapply (wp_seq (Inv k)); [|exact Hw|done|intros _ w1 Hw1; by apply (safe_at k); [intros; apply refresh_safe|]].
    destruct (_ && _); [apply count_and_fail_safe|apply safe_ret].
  - destruct (_ && _).
    + eapply (wp_seq (At ConnectionState.Established k)); [apply count_safe|exact Hσ|by intros ? []|].
      intros _ w1 Hw1. apply wp_bind. eapply wp_attempt; [apply queue_close_safe|exact Hw1|].
      intros rc w2 Hw2. apply wp_bind, wp_update, wp_bind.
      eapply (transition_wp ConnectionState.Established);
        [|by right|by intros [?|?]| |by intros ? []].
      { apply At_update; [same_fields|done..|exact Hw2]. }
      intros w3 [Hw3 _]. by apply (safe_at k); [intros; apply refresh_safe|].
    + destruct (_ || _); [|by apply (safe_at k); [intros; apply refresh_safe|]].
      apply wp_bind. eapply (wp_attempt (Inv k)); [apply safe_at; intros; apply queue_keepalive_safe|done|].
      intros rc w1 Hw1. eapply (wp_seq (Inv k)); [eauto with safe|exact Hw1|done|].
      intros _ w2 Hw2. by destruct (ok rc).
  - apply wp_bind. destruct (_ && _).
    + eapply discard_wp; [exact Hσ|done|]. intros w1 [Hw1 _].
      by apply (safe_at k); [intros; apply refresh_safe|].
    + by apply (safe_at k); [intros; apply refresh_safe|].
  - by apply (safe_at k); [intros; apply refresh_safe|].
Qed.

Lemma tick_safe : Safe (Inv k) tick.
Proof.
  unfold tick. apply safe_bind; [eauto with safe|intros _].
  apply safe_bind; [apply safe_at; intros; apply pump_reliable_safe|intros _].
  apply safe_bind; [apply pump_receive_safe|intros _]. apply run_housekeeping_safe.
Qed.

Lemma close_connection_safe reason : Safe (Inv k) (close reason).
Proof.
  apply safe_this. intros w Hw. assert (At (c_state (w_client w)) k w) as Hσ by by split.
  assert (∀ σ e, At σ k w → legal_transition σ ConnectionState.Closing = true ∨ σ = ConnectionState.Closing →
    wp (Inv k)
      (rc ← attempt (queue_close_packet reason e);
       if negb (ok rc) then
         fail_connection reason "failed to queue close packet";; lift (Err rc)
       else
         update (λ c, c <| c_close_reason := reason |>);;
         transition_state ConnectionState.Closing;;
         refresh_runtime_stats) w (λ _, Inv k)) as Hmain.
  { intros σ e Hw' Hleg. apply wp_bind. eapply wp_attempt; [apply queue_close_safe|exact Hw'|].
    intros rc w1 Hw1. destruct (negb (ok rc)).
    - eapply (wp_seq (Inv k)); [apply fail_connection_safe|apply Hw1|done|]. by intros.
    - apply wp_bind, wp_update, wp_bind. eapply (transition_wp σ);
        [|by destruct Hleg; auto|by intros [?|?]| |by intros ? []].
      { apply At_update; [same_fields|done..|exact Hw1]. }
      intros w3 [Hw3 _]. by apply (safe_at k); [intros; apply refresh_safe|]. }
  destruct (c_state (w_client w)) eqn:Hs; [done| | | |done]; (eapply Hmain; [exact Hσ|auto]).
Qed.

Lemma udp_setup_inbox {A} (m : io Net A) :
  (∀ n, (m n).1 ≠ UB ∧ n_inbox (m n).2 = n_inbox n) → ∀ σ, Safe (At σ k) (sys m).
Proof. intros Hm σ. apply sys_safe. intros n. destruct (Hm n) as [? ->]. split; [done|lia]. Qed.

(** Calls that read the answers of the operating system only. *)
Definition quiet_call {A} (m : io Net A) : Prop :=
  ∀ n, (m n).1 ≠ UB ∧ n_inbox (m n).2 = n_inbox n.

Lemma quiet_bind {A B} (m : io Net A) (f : A → io Net B) :
  quiet_call m → (∀ a, quiet_call (f a)) → quiet_call (m ≫= f).
Proof.
  intros Hm Hf n. destruct (Hm n) as [H1 H2]. unfold mbind, io_bind.
  destruct (m n) as [[a|rc|] n']; cbn in *; [|done..]. destruct (Hf a n') as [H3 H4].
  split; [done|congruence].
Qed.
Lemma quiet_os_call : quiet_call os_call.
Proof. intros n. unfold os_call. by destruct (n_calls n). Qed.
Lemma quiet_open family : quiet_call (UdpSocket.open family).
Proof.
  unfold UdpSocket.open. apply quiet_bind; [done|intros []; [done|]].
  apply quiet_bind; [apply quiet_os_call|by intros []].
Qed.
Lemma quiet_connect remote : quiet_call (UdpSocket.connect remote).
Proof.
  unfold UdpSocket.connect. apply quiet_bind; [done|intros opened].
  apply quiet_bind; [destruct opened; [done|apply quiet_open]|intros _].
  apply quiet_bind; [apply quiet_os_call|by intros []].
Qed.
Lemma quiet_nonblocking on : quiet_call (UdpSocket.set_nonblocking on).
Proof.
  unfold UdpSocket.set_nonblocking. apply quiet_bind; [done|intros []; [|done]]. cbn [negb].
  apply quiet_bind; [apply quiet_os_call|intros []; [|done]]. cbn [negb].
  apply quiet_bind; [apply quiet_os_call|by intros []].
Qed.

Lemma connect_safe runtime server : Safe (Inv k) (connect runtime server).
Proof.
  unfold connect. apply safe_if; intros _; [apply safe_err|]. intros w Hw.
  apply wp_bind. eapply reset_for_connect_wp; [exact Hw|done|]. clear w Hw. intros w Hw.
  assert (∀ w', At ConnectionState.Idle k w' → Inv k w') as HE by by intros ? [].
  apply wp_bind, wp_update, wp_bind, wp_this. cbn [w_client].
  eapply (wp_seq (At ConnectionState.Idle k)); [apply udp_setup_inbox, quiet_open| |done|].
  { apply At_update; [same_fields|done..|exact Hw]. }
  intros _ w1 Hw1.
  eapply (wp_seq (At ConnectionState.Idle k)); [apply udp_setup_inbox, quiet_connect|exact Hw1|done|].
  clear w Hw w1 Hw1. intros _ w Hw.
  eapply (wp_seq (At ConnectionState.Idle k)); [apply udp_setup_inbox, quiet_nonblocking|exact Hw|done|].
  clear w Hw. intros _ w Hw.
  eapply (wp_seq (At ConnectionState.Idle k)); [apply random_bytes_safe|exact Hw|done|].
  clear w Hw. intros random w Hw. unfold crypto_generate_keypair. rewrite crypto_ready.
  destruct (kx_keypair random) as [[pk sk]|] eqn:Hkx.
  2: { eapply (wp_seq (At ConnectionState.Idle k)); [apply close_safe|exact Hw|done|].
       intros. by apply wp_err, HE. }
  apply keypair_length in Hkx as [Hpk Hsk]. apply wp_bind. unfold wp at 1, sys.
  pose proof (random_bytes_array NetConfig.ClientNonceBytes (w_net w)) as Hr.
  destruct (random_bytes NetConfig.ClientNonceBytes (w_net w)) as [[nonce|rc|] n]; [|done..].
  destruct Hr as [Hnonce Hn]. apply (At_net _ _ _ n Hn) in Hw. clear Hn.
  set (w1 := mkWorld _ _ _) in *. apply wp_bind, wp_update, wp_bind, wp_this. cbn [w_client].
  set (w2 := mkWorld _ _ _).
  assert (At ConnectionState.Idle k w2) as Hw2.
  { apply At_update; [|done..|exact Hw]. intros Hc. destruct Hc. split; fields; done. }
  eapply (wp_seq (At ConnectionState.Idle k)); [eauto with safe|exact Hw2|done|]. intros _ w3 Hw3.
  eapply (wp_seq (At ConnectionState.Idle k)); [apply now_ms_safe|exact Hw3|done|]. intros now w4 Hw4.
  apply wp_bind, wp_update, wp_bind. eapply (transition_wp ConnectionState.Idle);
    [|by right|by intros [?|?]| |by intros ? []].
  { apply At_update; [same_fields|done..|exact Hw4]. }
  intros w5 Hw5. eapply wp_safe with (P := At ConnectionState.Handshaking k);
    [|exact Hw5|by intros ? []|by intros ? ? []].
  apply safe_bind; [apply refresh_safe|intros _]. apply safe_bind; [apply emit_log_safe|intros _].
  apply send_client_hello_safe.
Qed.
End interface.
