(* ===== verification/ClientProps.v ===== *)
(** * The client: theorems

    What the client promises to its user over any sequence of calls and any
    behaviour of the network: no undefined behaviour, exact and bounded queues,
    legal state transitions, unique nonces, and delivery of authentic traffic
    only. *)
From stdpp Require Import sorting.
From S2P Require Import Prelude Result Hoare ByteBuf Config Message Packet Protocol Windows Payloads.
From S2P Require Import Reliability Ordered Fragmentation Congestion Crypto Stats Endpoint.
From S2P Require Import Socket Client ClientRecv ClientInv ClientSafe.
#[local] Open Scope Z_scope.

(** ** Runs *)

(** The public operations of [class Client]. *)
Inductive client_op : Type :=
  | OpConnect (runtime : Result) (server : Endpoint)
  | OpStop
  | OpTick
  | OpSend (options : SendOptions) (type : U8) (payload : list U8)
  | OpSendPayload (payload : list U8)
  | OpClose (reason : CloseReason)
  | OpResetStats
  | OpCallbacks (cb : Callbacks).

Section runs.
Context `{Sodium}.

Definition run_op (op : client_op) : io World unit :=
  match op with
  | OpConnect runtime server => connect runtime server
  | OpStop => stop
  | OpTick => tick
  | OpSend options type payload => send options type payload
  | OpSendPayload payload => send_payload (data_of payload) (zlen payload)
  | OpClose reason => close reason
  | OpResetStats => update (λ c, c <| c_stats := reset_stats |>);; refresh_runtime_stats
  | OpCallbacks cb => update (λ c, c <| c_callbacks := cb |>)
  end.

(** Worlds reached from [Client(cfg)] by calls, between which time passes and
    the network does anything. *)
Inductive reachable (cfg : ClientConfig) : World → Prop :=
  | ReachNew now c net : new_client cfg now = Done c → reachable cfg (mkWorld c net [])
  | ReachNet w net : reachable cfg w → reachable cfg (mkWorld (w_client w) net (w_events w))
  | ReachOp w op : reachable cfg w → reachable cfg (run_op op w).2.
End runs.

Section safety.
Context `{SodiumLaws}.

Lemma new_client_ok cfg now :
  client_usable cfg → ∃ c, new_client cfg now = Done c ∧ client_ok c ∧ log_ok c [].
Proof.
  intros Hu. pose proof (client_usable_congestion _ Hu) as Hcu. unfold new_client. cbv zeta.
  unfold configure_congestion.
  match goal with |- context [reset_runtime ?c] =>
    destruct (reset_runtime_inv _ _ c Hcu) as (cc & Hcc & Hinv); [done|] end.
  rewrite Hcc. cbn [outcome_bind]. eexists. split; [done|].
  destruct (cc_rate _ _ _ Hcu Hinv) as [Hr Hcap]. pose proof (client_usable_queue _ Hu).
  split; [|by split].
  split; fields; try done.
  - rewrite Hcap. lia.
  - split; [constructor|simpl; lia|constructor].
  - apply (zeros_array 32).
  - apply (zeros_array 32).
  - apply (zeros_array 32).
  - apply (zeros_array 32).
  - apply (zeros_array 16).
  - apply (zeros_array 16).
  - apply (zeros_array 16).
Qed.

Lemma run_op_safe k op : Safe (Inv k) (run_op op).
Proof.
  destruct op; cbn [run_op].
  - apply connect_safe.
  - apply stop_safe.
  - apply tick_safe.
  - apply safe_at. intros. apply send_safe.
  - apply safe_at. intros. apply send_payload_safe; [|lia].
    unfold data_of, readable. case_decide; [done|lia].
  - apply close_connection_safe.
  - apply safe_at. intros. apply safe_bind; [|intros _; apply refresh_safe].
    apply safe_update; [|done..]. intros c Hc _. by apply client_ok_stats.
  - apply safe_at. intros. apply safe_update; [|done..]. intros c Hc _. revert Hc. same_fields.
Qed.

Lemma Inv_net k w net :
  Inv k w → Inv (length (n_inbox net)) (mkWorld (w_client w) net (w_events w)).
Proof. intros []. by split. Qed.

Lemma reachable_inv cfg w : client_usable cfg → reachable cfg w → ∃ k, Inv k w.
Proof.
  intros Hu. induction 1 as [now c net Hc|w net _ [k Hw]|w op _ [k Hw]].
  - destruct (new_client_ok cfg now Hu) as (c' & Hc' & Hok & Hl).
    assert (c' = c) as -> by congruence.
    exists (length (n_inbox net)). by split; cbn [w_client w_net w_events].
  - eexists. by eapply Inv_net.
  - exists k. pose proof (run_op_safe k op w Hw) as Hr. unfold wp in Hr.
    by destruct (run_op op w) as [[a|rc|] w'].
Qed.
End safety.

(** ** Nonces *)

Definition nonces (log : list Event) : list (list U8) :=
  omap (λ e, match e with Sealed _ n => Some n | _ => None end) log.

Lemma allocations_nonneg log : 0 <= allocations log.
Proof. induction log as [|[]]; simpl; lia. Qed.

(** The nonces of an epoch carry sequence numbers of numbers taken so far. *)
Lemma nonces_bound log n :
  sealed_ok log → n ∈ nonces (epoch log) →
  ∃ id s, n = crypto_make_packet_nonce id (w64 s) ∧ 1 <= s <= allocations (epoch log).
Proof.
  induction log as [|e log IH]; cbn [sealed_ok epoch]; [by intros _ ?%elem_of_nil|].
  destruct e; try (by intros Hs Hn; apply IH); cbn [nonces omap]; fold (nonces (epoch log)).
  - by intros _ ?%elem_of_nil.
  - intros Hs Hn. destruct (IH Hs Hn) as (id & s & -> & Hb). exists id, s. split; [done|].
    cbn [allocations]. lia.
  - intros [(id & log' & Hlog & ->) Hs] [->|Hn]%elem_of_cons.
    + exists id, (allocations (epoch log)). split; [done|]. subst log. cbn [epoch allocations].
      pose proof (allocations_nonneg (epoch log')). lia.
    + destruct (IH Hs Hn) as (id' & s & -> & Hb). by exists id', s.
Qed.

Lemma nonces_nodup log :
  sealed_ok log → allocations (epoch log) <= U64_MAX → NoDup (nonces (epoch log)).
Proof.
  induction log as [|e log IH]; cbn [sealed_ok epoch]; [constructor|].
  destruct e; try (by intros Hs Hn; apply IH); cbn [nonces omap]; fold (nonces (epoch log)).
  - constructor.
  - intros Hs. cbn [allocations]. intros Ha. apply IH; [done|lia].
  - intros [(id & log' & -> & ->) Hs] Ha. apply NoDup_cons. split; [|by apply IH].
    cbn [allocations epoch] in Ha |- *. intros Hin. cbn [sealed_ok] in Hs.
    change (nonces (SeqAllocated :: epoch log')) with (nonces (epoch log')) in Hin.
    destruct (nonces_bound _ _ Hs Hin) as (id' & s & Heq & Hb).
    rewrite !nonce_layout in Heq. apply app_inj_1 in Heq as [_ Heq]; [|done].
    apply app_inj_1 in Heq as [_ Heq]; [|by rewrite !length_be].
    apply (wire_enc_inj (wr:=write_u64) (rd:=read_u64) (enc:=be 8) (valid:=is_u64)) in Heq;
      [|apply w64_range..]. unfold U64_MAX in Ha. rewrite !w64_id in Heq by ulia. lia.
Qed.

(** ** Opening what was sealed *)

Section roundtrip.
Context `{SodiumLaws}.

Lemma open_sealed keys peer h m ct :
  is_array 32 (sk_tx keys) → sk_rx peer = sk_tx keys → header_typed h → bytes_ok m →
  zlen m <= NetConfig.MaxEncryptedPlaintextBytes → payload_len h = zlen m + NetConfig.AeadTagBytes →
  seal_payload keys h (data_of m) (zlen m) = Done ct →
  open_payload peer (mkPacketView h (data_of ct)) = Done m ∧ zlen ct = zlen m + NetConfig.AeadTagBytes.
Proof.
  intros Hk Hpeer Hh Hm Hlen Hpl. unfold seal_payload, open_payload. cbn [pv_h pv_payload].
  rewrite write_header_to by done. cbn [outcome_bind].
  unfold crypto_aead_encrypt, crypto_aead_decrypt. rewrite !crypto_ready, Hpeer. unfold reject_if.
  repeat match goal with |- (if ?b then Err _ else _) = Done _ → _ => destruct b; [done|] end.
  change NetConfig.SessionKeyBytes with 32%nat. rewrite (is_array_readable _ _ Hk).
  set (nonce := crypto_make_packet_nonce _ _).
  assert (zlen nonce = NetConfig.AeadNonceBytes) as Hn by apply length_nonce.
  rewrite <- Hn, !bytes_at_all, bytes_at_data. cbn [outcome_bind].
  destruct (seal_open (sk_tx keys) nonce (enc_header h) m) as (c & Hs & Ho & Hc & Hcok);
    [by destruct Hk as [-> _]|done|done|]. rewrite Hs. intros [= <-].
  change NetConfig.AeadTagBytes with 16 in *. change NetConfig.MaxEncryptedPlaintextBytes with 1256 in *.
  assert (data_of c = Some c) as ->.
  { unfold data_of. rewrite decide_False; [done|]. intros ->. simpl in Hc. lia. }
  rewrite Hpl, <- Hc. split; [|done].
  rewrite (proj2 (Z.ltb_ge (zlen c) 16)), (proj2 (Z.ltb_ge 1256 (zlen c - 16))) by lia.
  rewrite bool_decide_eq_false_2, bytes_at_all by done. cbn [outcome_bind]. by rewrite Ho.
Qed.
End roundtrip.

(** ** Properties of every run *)

Section properties.
Context `{SodiumLaws}.
Context (cfg : ClientConfig).

(** C1: with a configuration that [connect] accepts, no public operation, in
    any state the client can reach and whatever the network sends, has undefined
    behaviour: no read or write out of bounds, no clamp on an empty range, and
    every loop ends. *)
Theorem client_never_undefined w op :
  client_usable cfg → reachable cfg w → (run_op op w).1 ≠ UB.
Proof.
  intros Hu [k Hw]%reachable_inv; [|done]. pose proof (run_op_safe k op w Hw) as Hr. unfold wp in Hr.
  by destruct (run_op op w) as [[a|rc|] w'].
Qed.

(** C19: in every reachable state the byte count of the send queue is exact, the
    queue is within its limit and ordered by priority, every queued datagram
    parses, the send budget is within the bucket, and the session keys are zero
    when the client is idle or closed. *)
Theorem client_invariant w :
  client_usable cfg → reachable cfg w →
  let c := w_client w in
  c_pending_bytes c = queue_len (c_pending c) ∧
  zlen (c_pending c) <= client_max_pending_packets (c_config c) ∧
  StronglySorted by_priority (c_pending c) ∧
  Forall (λ p, ∃ v, parse_packet (Some (take (Z.to_nat (pp_len p)) (pp_bytes p))) (pp_len p) = Done v)
    (c_pending c) ∧
  0 <= c_send_budget_bytes c <= bucket_cap_bytes (c_congestion c) ∧
  (c_state c = ConnectionState.Idle ∨ c_state c = ConnectionState.Closed →
   keys_empty (c_session_keys c) = true).
Proof.
  intros Hu [k [Hc _ _]]%reachable_inv c; [|done]. destruct (co_queue _ Hc) as [He Hn Hs].
  split_and!; [apply Hc|done|done| |apply Hc..]. eapply Forall_impl; [exact He|]. by intros ? [].
Qed.

(** C18: within a session no two packets are sealed with the same nonce, as long
    as fewer than 2^64 sequence numbers are taken. *)
Theorem client_nonces_unique w :
  client_usable cfg → reachable cfg w → allocations (epoch (w_events w)) <= U64_MAX →
  NoDup (nonces (epoch (w_events w))).
Proof. intros Hu [k [_ Hl _]]%reachable_inv Ha; [|done]. by apply nonces_nodup; [apply Hl|]. Qed.

(** Every state change reported to the user is a transition of the
    connection state machine. *)
Theorem client_transitions_legal w a b :
  client_usable cfg → reachable cfg w → OnStateChange a b ∈ w_events w →
  legal_transition a b = true.
Proof.
  intros Hu [k [_ [_ _ Hl] _]]%reachable_inv Hin; [|done].
  rewrite Forall_forall in Hl. exact (Hl _ Hin).
Qed.
End properties.

(** ** Sealed packets open at the peer *)

Section sealing.
Context `{SodiumLaws}.

Lemma seal_payload_done keys h m :
  is_array 32 (sk_tx keys) → header_typed h → bytes_ok m →
  zlen m <= NetConfig.MaxEncryptedPlaintextBytes →
  ∃ ct, seal_payload keys h (data_of m) (zlen m) = Done ct.
Proof.
  intros Hk Hh Hm Hlen. unfold seal_payload. rewrite write_header_to by done. cbn [outcome_bind].
  unfold crypto_aead_encrypt. rewrite crypto_ready.
  change NetConfig.MaxEncryptedPlaintextBytes with 1256 in Hlen.
  rewrite !reject_if_false; [|try done..].
  - change (Z.of_nat NetConfig.SessionKeyBytes) with (Z.of_nat 32).
    rewrite (is_array_readable _ _ Hk). cbn [outcome_bind].
    rewrite <- (length_nonce (conn_id h) (seq h)), !bytes_at_all, bytes_at_data. cbn [outcome_bind].
    destruct (seal_open (sk_tx keys) (crypto_make_packet_nonce (conn_id h) (seq h)) (enc_header h) m)
      as (c & -> & _); [by destruct Hk as [-> _]|apply length_nonce|done|]. by eexists.
  - apply Z.ltb_ge. change NetConfig.AeadTagBytes with 16. change NetConfig.MaxPayloadBytes with 1272.
    rewrite w64_id by ulia. lia.
  - unfold data_of. case_decide; [by subst|]. by rewrite andb_false_r.
Qed.

(** The datagram of a sealed payload, and what the peer reads in it. *)
Lemma pack_sealed keys peer h m ct prio :
  is_array 32 (sk_tx keys) → sk_rx peer = sk_tx keys → header_typed h → bytes_ok m →
  validate_packet_header h = success → payload_len h = zlen m + NetConfig.AeadTagBytes →
  zlen m <= NetConfig.MaxEncryptedPlaintextBytes →
  seal_payload keys h (data_of m) (zlen m) = Done ct →
  ∃ pp v, pack_pending h ct prio = Done pp ∧ pp_priority pp = prio ∧
    parse_packet (Some (take (Z.to_nat (pp_len pp)) (pp_bytes pp))) (pp_len pp) = Done v ∧
    pv_h v = h ∧ open_payload peer v = Done m.
Proof.
  intros Hk Hpeer Hh Hm Hv Hpl Hlen Hseal.
  destruct (open_sealed keys peer h m ct) as [Hopen Hct]; [done..|].
  change NetConfig.MaxEncryptedPlaintextBytes with 1256 in Hlen. change NetConfig.AeadTagBytes with 16 in *.
  do 2 eexists. split; [apply pack_pending_spec; [done|done|lia|]|].
  { change NetConfig.MaxPayloadBytes with 1272. lia. }
  cbn [pp_len pp_bytes pp_priority]. split; [done|].
  assert (∀ tl, take (Z.to_nat (28 + zlen ct)) (enc_header h ++ ct ++ tl) = enc_header h ++ ct) as ->.
  { intros tl. rewrite app_assoc. apply take_app_length'. rewrite length_app, length_enc_header. lia. }
  replace (28 + zlen ct) with (zlen (enc_header h ++ ct)) by (rewrite length_app, length_enc_header; lia).
  split; [apply parse_packet_spec; [done|done|lia]|]. split; [reflexivity|exact Hopen].
Qed.

Lemma enqueue_pending_done pp w :
  zlen (c_pending (w_client w)) < client_max_pending_packets (c_config (w_client w)) →
  ∃ w', enqueue_pending_packet pp w = (Done tt, w') ∧
    c_pending (w_client w') = insert_pending pp (c_pending (w_client w)).
Proof.
  intros Hroom. unfold enqueue_pending_packet, mbind, io_bind, this.
  rewrite (proj2 (Z.leb_gt _ _)) by exact Hroom. eexists. split; [reflexivity|]. by fields.
Qed.

(** The sealing branch of [queue_packet]. *)
Lemma queue_packet_sealed w kind m prio ct pp :
  bytes_ok m → zlen m <= NetConfig.MaxEncryptedPlaintextBytes →
  keys_empty (c_session_keys (w_client w)) = false → c_conn_id (w_client w) ≠ 0 →
  zlen (c_pending (w_client w)) < client_max_pending_packets (c_config (w_client w)) →
  let h := out_header kind true (c_conn_id (w_client w)) (c_seq (w_client w))
             (zlen m + NetConfig.AeadTagBytes) in
  seal_payload (c_session_keys (w_client w)) h (data_of m) (zlen m) = Done ct →
  pack_pending h ct prio = Done pp →
  ∃ w', queue_packet kind true (data_of m) (zlen m) prio 0 w = (Done tt, w') ∧
    c_pending (w_client w') = insert_pending pp (c_pending (w_client w)).
Proof.
  intros Hm Hlen Hkeys Hid Hroom h Hct Hpp. unfold queue_packet.
  assert ((0 <? zlen m) && bool_decide (data_of m = None) = false) as ->.
  { unfold data_of. case_decide; [by subst|]. by rewrite andb_false_r. }
  rewrite (proj2 (Z.ltb_ge _ _)) by exact Hlen. cbn [andb negb].
  change NetConfig.MaxEncryptedPlaintextBytes with 1256 in Hlen.
  unfold mbind at 1, io_bind at 1, this. cbn [negb Z.eqb]. cbv beta iota zeta.
  unfold mbind at 1, io_bind at 1, update. cbv beta iota.
  unfold mbind at 1, io_bind at 1, emit at 1. cbv beta iota.
  rewrite Hkeys, (proj2 (Z.eqb_neq _ _) Hid). cbn [orb].
  rewrite w32_id by (change NetConfig.AeadTagBytes with 16; ulia).
  unfold mbind at 1, io_bind at 1, lift at 1. change (mkPacketHeader _ _ _ _ _ _ _) with h.
  rewrite Hct. cbv beta iota. unfold mbind at 1, io_bind at 1, emit at 1. cbv beta iota.
  unfold mbind at 1, io_bind at 1, lift at 1. rewrite Hpp. cbv beta iota.
  cbn [w_client w_net w_events]. set (w1 := mkWorld _ _ _).
  destruct (enqueue_pending_done pp w1) as (w' & Hq & Hpend); [exact Hroom|].
  exists w'. split; [exact Hq|exact Hpend].
Qed.

(** An encrypted packet of a ready session is queued unless the queue is
    full, with the connection id and the next sequence number in its header, and
    a peer whose receive key is the client's send key parses it and recovers the
    payload. *)
Theorem sealed_packet_opens cfg w kind m prio peer :
  client_usable cfg → reachable cfg w → bytes_ok m →
  zlen m <= NetConfig.MaxEncryptedPlaintextBytes →
  keys_empty (c_session_keys (w_client w)) = false → c_conn_id (w_client w) ≠ 0 →
  zlen (c_pending (w_client w)) < client_max_pending_packets (c_config (w_client w)) →
  sk_rx peer = sk_tx (c_session_keys (w_client w)) →
  ∃ w' pp v,
    queue_packet kind true (data_of m) (zlen m) prio 0 w = (Done tt, w') ∧
    c_pending (w_client w') = insert_pending pp (c_pending (w_client w)) ∧ pp_priority pp = prio ∧
    parse_packet (Some (take (Z.to_nat (pp_len pp)) (pp_bytes pp))) (pp_len pp) = Done v ∧
    pv_h v = out_header kind true (c_conn_id (w_client w)) (c_seq (w_client w))
               (zlen m + NetConfig.AeadTagBytes) ∧
    open_payload peer v = Done m.
Proof.
  intros Hu [k Hw]%reachable_inv Hm Hlen Hkeys Hid Hroom Hpeer; [|done].
  pose proof (co_tx _ (iv_client _ _ Hw)) as Htx. pose proof (co_conn_id _ (iv_client _ _ Hw)) as Hcid.
  assert (is_u64 (c_seq (w_client w))) as Hseq by (rewrite (lo_seq _ _ (iv_log _ _ Hw)); apply w64_range).
  set (h := out_header kind true (c_conn_id (w_client w)) (c_seq (w_client w))
              (zlen m + NetConfig.AeadTagBytes)).
  change NetConfig.MaxEncryptedPlaintextBytes with 1256 in Hlen.
  assert (header_typed h) as Hh.
  { apply out_header_typed; [done|done|]. change NetConfig.AeadTagBytes with 16. ulia. }
  assert (validate_packet_header h = success) as Hv.
  { apply out_header_valid. change NetConfig.AeadTagBytes with 16. change NetConfig.MaxPayloadBytes with 1272. lia. }
  destruct (seal_payload_done (c_session_keys (w_client w)) h m) as [ct Hct]; [done..|].
  destruct (pack_sealed (c_session_keys (w_client w)) peer h m ct prio) as (pp & v & Hpack & Hprio & Hparse & Hhv & Hopen);
    [done..|].
  destruct (queue_packet_sealed w kind m prio ct pp) as (w' & Hq & Hpend); [done..|].
  exists w', pp, v. by split_and!.
Qed.
End sealing.

(** ** An example run

    A client that connects to a server and completes the handshake, on the
    concrete library [toy_sodium]. *)
Module Example.
#[local] Existing Instance toy_sodium.

Definition value {A} (o : outcome A) : match o return Type with Done _ => A | _ => unit end :=
  match o with Done a => a | _ => tt end.

Definition net (inbox : list os_recv) : Net :=
  mkNet 1000 [] false [] [] inbox [[3; 1; 4; 1; 5]; [9; 2; 6; 5]] [].

Definition every_callback : Callbacks :=
  mkCallbacks true true {[7]} {[8]} true true true true true true true.

Definition fresh : Client := value (new_client default_client 1000).
Definition idle : World := (run_op (OpCallbacks every_callback) (mkWorld fresh (net []) [])).2.
Definition connecting : World := (run_op (OpConnect success (EpV4 4000 2130706433)) idle).2.

(** The server's answer: keys from the toy library, the MAC of the transcript. *)
Definition server_key : list U8 := replicate 32 9.
Definition unsigned_hello : ServerHello :=
  mkServerHello 77 server_key (zeros 16) (zeros 16) false default_resumption_token.
Definition keys : SessionKeys :=
  value (crypto_derive_client_session_keys (c_ephemeral (w_client connecting)) (Some server_key) 32).
Definition transcript : list U8 :=
  value (build_transcript_mac_input (current_hello (w_client connecting)) unsigned_hello 320).
Definition hello : ServerHello :=
  mkServerHello 77 server_key (zeros 16)
    (value (crypto_keyed_hash (Some (sk_rx keys)) 32 (Some transcript) (zlen transcript) false 16))
    false default_resumption_token.
Definition answer : list U8 :=
  enc_header (out_header PacketKind.Handshake false 77 1 (zlen (enc_server_hello hello)))
    ++ enc_server_hello hello.

Definition deliver (bytes : list U8) (w : World) : World :=
  let n := w_net w in
  mkWorld (w_client w)
    (mkNet (n_now n) (n_clock n) (n_open n) (n_calls n) (n_sends n)
       [OsDatagram (EpV4 4000 2130706433) bytes] (n_random n) (n_sent n)) (w_events w).
Definition established : World := (run_op OpTick (deliver answer connecting)).2.

Lemma connecting_reachable : reachable default_client connecting.
Proof. do 2 apply ReachOp. apply (ReachNew _ 1000). vm_compute. reflexivity. Qed.
Lemma established_reachable : reachable default_client established.
Proof. apply ReachOp, ReachNet, connecting_reachable. Qed.
Lemma client_default_usable : client_usable default_client.
Proof. split; [by apply (bool_decide_unpack (client_typed default_client)); vm_compute|reflexivity]. Qed.
End Example.

(** ** Witnesses *)

#[local] Existing Instance toy_sodium.

Lemma client_never_undefined_witness :
  (run_op (OpSend (mkSendOptions Channel.Reliable SendPriority.Normal 0) 7 [1; 2; 3])
     Example.established).1 ≠ UB.
Proof.
  apply (client_never_undefined default_client);
    [apply Example.client_default_usable|apply Example.established_reachable].
Defined.

Lemma client_invariant_witness :
  c_pending_bytes (w_client Example.established) =
    queue_len (c_pending (w_client Example.established)).
Proof.
  apply (client_invariant default_client Example.established Example.client_default_usable
           Example.established_reachable).
Defined.

Lemma client_nonces_unique_witness : NoDup (nonces (epoch (w_events Example.established))).
Proof.
  apply (client_nonces_unique default_client);
    [apply Example.client_default_usable|apply Example.established_reachable|].
  vm_compute. discriminate.
Defined.

Lemma client_transitions_legal_witness :
  legal_transition ConnectionState.Handshaking ConnectionState.Established = true.
Proof.
  apply (client_transitions_legal default_client Example.established);
    [apply Example.client_default_usable|apply Example.established_reachable|]. vm_compute. repeat constructor.
Defined.

Lemma sealed_packet_opens_witness :
  ∃ w' pp v,
    queue_packet PacketKind.Message true (data_of [1; 2; 3]) (zlen [1; 2; 3]) SendPriority.High 0
      Example.established = (Done tt, w') ∧
    c_pending (w_client w') = insert_pending pp (c_pending (w_client Example.established)) ∧
    pp_priority pp = SendPriority.High ∧
    parse_packet (Some (take (Z.to_nat (pp_len pp)) (pp_bytes pp))) (pp_len pp) = Done v ∧
    pv_h v = out_header PacketKind.Message true (c_conn_id (w_client Example.established))
      (c_seq (w_client Example.established)) (zlen [1; 2; 3] + NetConfig.AeadTagBytes) ∧
    open_payload (mkSessionKeys (sk_tx Example.keys) (sk_rx Example.keys)) v = Done [1; 2; 3].
Proof.
  apply (sealed_packet_opens default_client);
    [apply Example.client_default_usable|apply Example.established_reachable| | | | | |].
  - repeat constructor; lia.
  - done.
  - vm_compute. reflexivity.
  - vm_compute. discriminate.
  - vm_compute. reflexivity.
  - vm_compute. reflexivity.
Defined.
