(* ===== verification/ClientAuth.v ===== *)
(** * The client: authentication

    What reaches the user and the session is authentic: a packet that does not
    authenticate has no effect but to end the connection, and a session is
    established only from a server hello whose MAC covers the transcript. *)
From S2P Require Import Prelude Result Hoare ByteBuf Config Message Packet Protocol Windows Payloads.
From S2P Require Import Reliability Ordered Fragmentation Congestion Crypto Stats Endpoint.
From S2P Require Import Socket Client ClientRecv ClientInv ClientSafe ClientProps.
#[local] Open Scope Z_scope.

(** ** Unauthenticated traffic *)

(** The events by which the client hands received data to the user. *)
Definition delivery (e : Event) : bool :=
  match e with OnPacket _ | OnMessage _ | OnText _ _ | OnBinary _ => true | _ => false end.
Definition deliveries (log : list Event) : list Event := filter (λ e, delivery e = true) log.

(** The packet is one that the peer sealed for this session: encrypted, for this
    connection, with a ciphertext that opens under the session's key and a
    sequence number. *)
Definition sealed_for `{Sodium} (c : Client) (v : PacketView) : bool :=
  let h := pv_h v in
  packet_header_encrypted h && negb (keys_empty (c_session_keys c)) && (conn_id h =? c_conn_id c)
  && (match open_payload (c_session_keys c) v with Done _ => true | _ => false end)
  && negb (seq h =? 0).
(** Its number was seen before, or is too old to tell. *)
Definition replayed (c : Client) (v : PacketView) : bool :=
  negb (ReplayWindow.accept (seq (pv_h v)) (c_packet_window c)).1.

Definition Delivers_nothing {A} (m : io World A) : Prop :=
  ∀ w, deliveries (w_events (m w).2) = deliveries (w_events w).

Section nothing.
Lemma nothing_bind {A B} (m : io World A) (f : A → io World B) :
  Delivers_nothing m → (∀ a, Delivers_nothing (f a)) → Delivers_nothing (m ≫= f).
Proof.
  intros Hm Hf w. specialize (Hm w). unfold mbind, io_bind.
  destruct (m w) as [[a|rc|] w']; cbn in *; [|done..]. by rewrite Hf.
Qed.
Lemma nothing_update f : Delivers_nothing (update f).
Proof. done. Qed.
Lemma nothing_emit e : delivery e = false → Delivers_nothing (emit e).
Proof.
  intros He w. unfold emit, deliveries. cbn [snd w_events]. by rewrite filter_cons_False; [|rewrite He].
Qed.
Lemma nothing_when b m : Delivers_nothing m → Delivers_nothing (when b m).
Proof. by destruct b. Qed.
Lemma nothing_sys {A} (m : io Net A) : Delivers_nothing (sys m).
Proof. intros w. unfold sys. by destruct (m (w_net w)). Qed.
End nothing.

Ltac nothing :=
  repeat first
    [ apply nothing_bind; [|intros ?] | apply nothing_when | by apply nothing_emit
    | apply nothing_sys | done | match goal with |- Delivers_nothing (if ?b then _ else _) => destruct b end ].

Lemma emit_log_nothing l t : Delivers_nothing (emit_log l t).
Proof. unfold emit_log. nothing. Qed.
Lemma transition_nothing next : Delivers_nothing (transition_state next).
Proof. unfold transition_state. nothing. Qed.
Lemma fail_connection_nothing reason text : Delivers_nothing (fail_connection reason text).
Proof. unfold fail_connection. nothing. Qed.

(** Operations that neither fail nor are undefined. *)
Definition Total {A} (m : io World A) : Prop := ∀ w, ∃ a w', m w = (Done a, w').

Lemma total_bind {A B} (m : io World A) (f : A → io World B) :
  Total m → (∀ a, Total (f a)) → Total (m ≫= f).
Proof.
  intros Hm Hf w. unfold mbind, io_bind. destruct (Hm w) as (a & w1 & ->). apply Hf.
Qed.
Lemma total_update f : Total (update f).
Proof. intros w. by do 2 eexists. Qed.
Lemma total_emit e : Total (emit e).
Proof. intros w. by do 2 eexists. Qed.
Lemma total_this : Total this.
Proof. intros w. by do 2 eexists. Qed.
Lemma total_ret {A} (a : A) : Total (mret a).
Proof. intros w. by do 2 eexists. Qed.
Lemma total_when b m : Total m → Total (when b m).
Proof. destruct b; [done|]. intros _. apply total_ret. Qed.
Lemma total_close : Total (sys UdpSocket.close).
Proof. intros w. unfold sys. destruct (close_keeps (w_net w)) as (a & n & -> & _). by do 2 eexists. Qed.

Ltac total :=
  repeat first
    [ apply total_bind; [|intros ?] | apply total_when | apply total_emit | apply total_update
    | apply total_this | apply total_ret | apply total_close
    | match goal with |- Total (if ?b then _ else _) => destruct b end ].

Lemma fail_connection_total reason text : Total (fail_connection reason text).
Proof. unfold fail_connection, emit_log, transition_state, refresh_runtime_stats, count, count_n. total. Qed.

(** A refused sequence number leaves the window as it was. *)
Lemma replay_refused s w :
  (ReplayWindow.accept s w).1 = false → (ReplayWindow.accept s w).2 = w.
Proof.
  unfold ReplayWindow.accept. destruct (win_initialized w) eqn:Hi; cbn [negb]; [|done].
  destruct (Z.ltb_spec (win_latest w) s) as [|Hs]; [done|].
  destruct (Z.leb_spec 64 (win_latest w - s)) as [|Hd]; [done|]. cbn [fst snd].
  rewrite land_mask_zero by lia. destruct w as [i l b]. cbn in *. rewrite !negb_involutive.
  intros Hbit%negb_false_iff. rewrite Hi. f_equal. apply Z.bits_inj'. intros n Hn.
  rewrite Z.lor_spec, mask_testbit by lia. destruct (Z.eqb_spec (l - s) n) as [<-|]; [by rewrite Hbit|].
  apply orb_false_r.
Qed.

Section unauthenticated.
Context `{SodiumLaws} (k : nat).

(** The codes on which [handle_packet] gives the connection up. *)
Definition fatal (c : Errc) : bool :=
  match c with
  | Errc.UnsupportedVersion | Errc.AuthFailed | Errc.ProtocolError | Errc.StateError
  | Errc.BadPacket | Errc.Truncated => true
  | _ => false
  end.

Lemma fail_connection_closes reason text w :
  Inv k w →
  ∃ w', fail_connection reason text w = (Done tt, w') ∧ At ConnectionState.Closed k w' ∧
    deliveries (w_events w') = deliveries (w_events w).
Proof.
  intros Hw. destruct (fail_connection_total reason text w) as ([] & w' & Heq).
  exists w'. pose proof (fail_connection_nothing reason text w) as Hd.
  pose proof (fail_connection_wp k w reason text (Inv k) (λ _, At ConnectionState.Closed k) Hw
    (λ _ h, h) (λ _ h, h)) as Hc. unfold wp in Hc. rewrite Heq in Hc, Hd. by split_and!.
Qed.

Lemma handle_error_fatal rc w :
  Inv k w → fatal (code rc) = true →
  ∃ w', handle_error rc w = (Done tt, w') ∧ At ConnectionState.Closed k w' ∧
    deliveries (w_events w') = deliveries (w_events w).
Proof.
  intros Hw Hf.
  assert (∀ f reason text, ∃ w', count_and_fail f reason text w = (Done tt, w') ∧
    At ConnectionState.Closed k w' ∧ deliveries (w_events w') = deliveries (w_events w)) as Hcount.
  { intros f reason text. apply (fail_connection_closes _ _ (mkWorld (w_client w <| c_stats := stat_add f 1 (c_stats (w_client w)) |>)
      (w_net w) (w_events w))). destruct Hw. split; [by apply client_ok_stats|by apply log_ok_stats|done]. }
  unfold handle_error. destruct (code rc); (discriminate || apply fail_connection_closes, Hw || apply Hcount).
Qed.

Lemma open_payload_fatal keys v p rc :
  is_array 32 (sk_rx keys) → packet_ok v p → open_payload keys v = Err rc → fatal (code rc) = true.
Proof.
  intros Hk [Hp Hl Hok Ht]. unfold open_payload. rewrite Hp, Hl.
  rewrite write_header_to by done. cbn [outcome_bind].
  unfold crypto_aead_decrypt. rewrite crypto_ready.
  do 3 (rewrite reject_if_false; [|reflexivity]). unfold reject_if.
  destruct (zlen p <? _) eqn:Hshort; [by intros Heq; inv Heq|].
  rewrite bool_decide_eq_false_2; [|unfold data_of; case_decide; [by subst|done]].
  clear Hshort. destruct (_ <? _); [by intros Heq; inv Heq|].
  change NetConfig.SessionKeyBytes with 32%nat. rewrite (is_array_readable _ _ Hk).
  rewrite <- (length_nonce (conn_id (pv_h v)) (seq (pv_h v))).
  rewrite !bytes_at_all, bytes_at_data. cbn [outcome_bind].
  destruct (aead_open _ _ _ p); [done|by intros Heq; inv Heq].
Qed.

Lemma Inv_stats w s :
  Inv k w → Inv k (mkWorld (w_client w <| c_stats := s |>) (w_net w) (w_events w)).
Proof. intros []. split; [by apply client_ok_stats|by apply log_ok_stats|done]. Qed.

(** A replay is refused after one statistic, and leaves the window as it was. *)
Lemma handle_established_replay v w :
  sealed_for (w_client w) v = true → replayed (w_client w) v = true →
  handle_established_packet v w =
    (Err (fail_result Errc.Replay "replayed packet"),
     mkWorld (w_client w <| c_stats := stat_add Stat.replays_dropped 1 (c_stats (w_client w)) |>) (w_net w) (w_events w)).
Proof.
  unfold sealed_for, replayed, handle_established_packet. cbv zeta.
  intros [[[[He Hk]%andb_true_iff Hc]%andb_true_iff Ho]%andb_true_iff Hs]%andb_true_iff Hrep%negb_true_iff.
  rewrite He. cbn [negb]. unfold mbind at 1, io_bind at 1, this. cbv beta iota.
  apply negb_true_iff in Hk. rewrite Hk, Hc. cbn [negb].
  destruct (open_payload _ _) as [m|rc|]; [|done..]. apply negb_true_iff in Hs. rewrite Hs.
  pose proof (replay_refused _ _ Hrep) as Hsame.
  destruct (ReplayWindow.accept _ _) as [fresh win]. cbn [fst snd] in *. subst fresh win. cbn [negb].
  clear. destruct w as [[] n e]. reflexivity.
Qed.

(** Any other packet that the peer did not seal for the session is refused with a
    fatal error before anything but a statistic changes. *)
Lemma handle_established_refuses v p w :
  Inv k w → packet_ok v p → sealed_for (w_client w) v = false →
  ∃ rc s, handle_established_packet v w =
      (Err rc, mkWorld (w_client w <| c_stats := s |>) (w_net w) (w_events w)) ∧ fatal (code rc) = true.
Proof.
  intros Hw Hv. unfold sealed_for, handle_established_packet. cbv zeta.
  assert (w = mkWorld (w_client w <| c_stats := c_stats (w_client w) |>) (w_net w) (w_events w)) as Heta
    by (destruct w as [[]]; reflexivity).
  assert (∀ c m, fatal c = true → ∃ rc s, fail c m w = (Err rc : outcome unit,
      mkWorld (w_client w <| c_stats := s |>) (w_net w) (w_events w)) ∧ fatal (code rc) = true) as Hfail.
  { intros c m Hc. exists (fail_result c m), (c_stats (w_client w)). split; [|done].
    unfold fail. by rewrite <- Heta. }
  destruct (packet_header_encrypted (pv_h v)); cbn [andb negb]; cbv iota; [|intros _; exact (Hfail Errc.ProtocolError _ eq_refl)].
  unfold mbind at 1, io_bind at 1, this. cbv beta iota.
  destruct (keys_empty _); cbn [andb negb]; cbv iota; [intros _; exact (Hfail Errc.StateError _ eq_refl)|].
  destruct (_ =? c_conn_id _); cbn [andb negb]; cbv iota; [|intros _; exact (Hfail Errc.ProtocolError _ eq_refl)].
  pose proof (open_payload_ok (c_session_keys (w_client w)) v p (co_rx _ (iv_client _ _ Hw)) Hv) as Hub.
  destruct (open_payload _ _) as [m|rc|] eqn:Ho; cbn [andb]; [|intros _|destruct Hub].
  2: { do 2 eexists. split; [reflexivity|]. by eapply open_payload_fatal; [apply (co_rx _ (iv_client _ _ Hw))|..]. }
  destruct (seq (pv_h v) =? 0); cbn [andb negb]; cbv iota; [intros _; exact (Hfail Errc.ProtocolError _ eq_refl)|done].
Qed.
End unauthenticated.

Section inert.
Context `{SodiumLaws}.

(** C17: a packet that is not authentic hands nothing to the user.  A replay, which
    opens under the session's key but whose number was seen before or is too old,
    changes exactly one statistic: the connection stays as it is.  A packet that
    the peer did not seal for this session (not encrypted, for another connection,
    altered, without a sequence number) ends the connection and wipes the session
    keys.  The two exceptions the code makes, which are excluded here, are
    handshake packets and a plaintext close during the handshake. *)
Theorem unauthenticated_packet_inert cfg w v p :
  client_usable cfg → reachable cfg w → packet_ok v p →
  kind (pv_h v) ≠ kind_value PacketKind.Handshake →
  (kind (pv_h v) =? kind_value PacketKind.Close)
    && bool_decide (c_state (w_client w) = ConnectionState.Handshaking)
    && negb (packet_header_encrypted (pv_h v)) = false →
  (sealed_for (w_client w) v = true → replayed (w_client w) v = true →
   handle_packet v w =
     (Done tt, mkWorld (w_client w <| c_stats := stat_add Stat.replays_dropped 1 (c_stats (w_client w)) |>)
                 (w_net w) (w_events w))) ∧
  (sealed_for (w_client w) v = false →
   ∃ w', handle_packet v w = (Done tt, w') ∧ deliveries (w_events w') = deliveries (w_events w) ∧
     c_state (w_client w') = ConnectionState.Closed ∧ keys_empty (c_session_keys (w_client w')) = true).
Proof.
  intros Hu [k Hw]%reachable_inv Hv Hkind Hclose; [|done].
  assert (handle_packet v w = (rc ← attempt (handle_established_packet v);
    if decide (code rc = Errc.Replay) then mret tt else handle_error rc) w) as ->.
  { unfold handle_packet. cbv zeta. unfold mbind at 1, io_bind at 1, this. cbv beta iota.
    by rewrite (proj2 (Z.eqb_neq _ _) Hkind), Hclose. }
  split.
  - intros Hs Hr. unfold mbind, io_bind, attempt. by rewrite (handle_established_replay v w Hs Hr).
  - intros Hs. destruct (handle_established_refuses k v p w Hw Hv Hs) as (rc & s & Heq & Hf).
    unfold mbind at 1, io_bind at 1, attempt. rewrite Heq. cbv beta iota.
    rewrite decide_False by (intros Hr; by rewrite Hr in Hf).
    destruct (handle_error_fatal k rc _ (Inv_stats k w s Hw) Hf) as (w' & Hh & [[Hc _ _] Hst] & Hd).
    exists w'. split; [done|]. split; [done|]. split; [done|]. apply (co_wiped _ Hc). by right.
Qed.
End inert.

(** ** The handshake authenticates the server *)

Section handshake.
Context `{SodiumLaws} (k : nat).

(** [c'] is the session that the server hello in [v] establishes from [c]: its
    keys come from the exchange and its MAC is the keyed hash of the transcript. *)
Record authenticated (c c' : Client) (v : PacketView) : Prop := {
  au_session : ∃ hello keys transcript mac,
    read_from (pv_payload v) (payload_len (pv_h v)) read_server_hello = Done hello ∧
    crypto_derive_client_session_keys (c_ephemeral c) (Some (server_public_key hello))
      (Z.of_nat NetConfig.KeyExchangePublicKeyBytes) = Done keys ∧
    build_transcript_mac_input (current_hello c) hello 320 = Done transcript ∧
    crypto_keyed_hash (Some (sk_rx keys)) (Z.of_nat NetConfig.SessionKeyBytes) (Some transcript)
      (zlen transcript) false (Z.of_nat NetConfig.TranscriptMacBytes) = Done mac ∧
    transcript_mac hello = mac ∧
    c_session_keys c' = keys ∧ c_conn_id c' = server_conn_id hello;
}.

(** [authenticate_hello] accepts only the right MAC. *)
Lemma authenticate_hello_inv c hello keys :
  client_ok c → server_hello_ok hello → authenticate_hello c hello = Done keys →
  ∃ transcript mac,
    crypto_derive_client_session_keys (c_ephemeral c) (Some (server_public_key hello))
      (Z.of_nat NetConfig.KeyExchangePublicKeyBytes) = Done keys ∧
    build_transcript_mac_input (current_hello c) hello 320 = Done transcript ∧
    crypto_keyed_hash (Some (sk_rx keys)) (Z.of_nat NetConfig.SessionKeyBytes) (Some transcript)
      (zlen transcript) false (Z.of_nat NetConfig.TranscriptMacBytes) = Done mac ∧
    transcript_mac hello = mac.
Proof.
  intros Hc Hh. unfold authenticate_hello.
  pose proof (derive_keys_ok (c_ephemeral c) _ (so_public _ Hh)) as Hkeys.
  destruct (crypto_derive_client_session_keys _ _ _) as [ks|rc|]; cbn [outcome_bind]; [|done..].
  destruct (build_transcript_mac_input _ _ _) as [transcript|rc|]; cbn [outcome_bind]; [|done..].
  pose proof (keyed_hash_ok (sk_rx ks) transcript (Z.of_nat NetConfig.TranscriptMacBytes)
    (proj1 Hkeys) ltac:(lia)) as Hmac.
  destruct (crypto_keyed_hash _ _ _ _ _ _) as [mac|rc|] eqn:Hhash; cbn [outcome_bind]; [|done..].
  destruct Hmac as [Hml Hmok]. destruct (so_mac _ Hh) as [Hsl Hsok].
  rewrite <- Hml, constant_time_equal_mac; [|by change (zlen mac = 16) in Hml; lia|done|done].
  cbn [outcome_bind]. destruct (bool_decide_reflect (mac = transcript_mac hello)) as [Heq|]; [|done].
  cbn [negb]. intros Heq'. inv Heq'. exists transcript, (transcript_mac hello). by rewrite Hml.
Qed.

Definition session (c : Client) : SessionKeys * U64 := (c_session_keys c, c_conn_id c).

Lemma queue_keepalive_session : Keeps session queue_keepalive.
Proof. apply keeps_bind; [by apply queue_packet_keeps|intros _; by apply keeps_count_n]. Qed.

Lemma transition_keeps_session next : Keeps session (transition_state next).
Proof.
  apply keeps_this. intros c. case_decide; [done|]. cbv zeta.
  do 2 (apply keeps_bind; [by apply keeps_update|intros _]).
  apply keeps_bind; [by apply keeps_refresh|intros _].
  apply keeps_bind; [apply keeps_this; intros c1; by apply keeps_when|intros _].
  do 2 (apply keeps_bind; [by apply keeps_when|intros _]).
  apply keeps_when, keeps_this. intros c1. apply keeps_emit.
Qed.

(** The state after a hello: established and authenticated, or failed. *)
Definition not_established (w : World) : Prop :=
  Inv k w ∧ c_state (w_client w) ≠ ConnectionState.Established.

Lemma At_not_established σ w : σ ≠ ConnectionState.Established → At σ k w → not_established w.
Proof. intros Hs [Hi Hst]. split; [done|by rewrite Hst]. Qed.

Lemma server_hello_authenticates v p w :
  packet_ok v p → At ConnectionState.Handshaking k w →
  wp not_established (handle_server_hello_packet v) w
    (λ _ w', authenticated (w_client w) (w_client w') v).
Proof.
  intros [Hp Hl Hok _] Hw. unfold handle_server_hello_packet.
  assert (∀ w', At ConnectionState.Handshaking k w' → not_established w') as HE
    by (intros; by eapply At_not_established; [|done]).
  apply wp_bind, wp_lift; [rewrite Hp, Hl; apply read_from_safe; apply _| |by intros; apply HE].
  intros hello Hread. pose proof Hread as Hh. rewrite Hp, Hl in Hh. apply read_server_hello_ok in Hh; [|done].
  apply wp_bind, wp_this. pose proof (iv_client _ _ (proj1 Hw)) as Hc.
  pose proof (authenticate_hello_ok (w_client w) hello Hc Hh) as Hauth.
  apply wp_bind, wp_lift; [intros Hu; by rewrite Hu in Hauth| |by intros; apply HE].
  intros keys Hk. rewrite Hk in Hauth. destruct Hauth as [Hrx Htx].
  destruct (authenticate_hello_inv _ _ _ Hc Hh Hk) as (transcript & mac & H1 & H2 & H3 & H4).
  assert (∀ c', session c' = (keys, server_conn_id hello) → authenticated (w_client w) c' v) as Hdone.
  { intros c' [= Hsk Hid]. split. by exists hello, keys, transcript, mac. }
  eapply wp_seq; [apply now_ms_safe|exact Hw|exact HE|]. intros now w1 Hw1. apply wp_bind, wp_update.
  assert (At ConnectionState.Handshaking k
    (mkWorld (install_session keys hello now (w_client w1)) (w_net w1) (w_events w1))) as Hw2.
  { apply At_update; [|done..|exact Hw1]. intros Hc1. apply install_session_ok; [done|apply Hw1|done..]. }
  apply wp_bind. eapply (wp_keeps session); [| |exact Hw2|exact HE|].
  { apply safe_when, count_safe. }
  { by apply keeps_when, keeps_count_n. }
  intros _ w3 Hw3 Hs3. apply wp_bind.
  eapply (wp_keeps session); [apply safe_attempt, queue_keepalive_safe
    |apply keeps_attempt, queue_keepalive_session|exact Hw3|exact HE|].
  intros rc w4 Hw4 Hs4. destruct (negb (ok rc)).
  - apply wp_bind. unfold wp at 1.
    destruct (fail_connection_closes k CloseReason.InternalError "failed to send client finish" w4)
      as (w5 & -> & Hw5 & _); [apply Hw4|]. by eapply wp_err, (At_not_established ConnectionState.Closed).
  - match goal with |- wp _ ?tail _ _ => assert (Total tail ∧ Keeps session tail) as [Ht Hk'] end.
    { split.
      - unfold transition_state, refresh_runtime_stats, emit_log, count, count_n. total.
      - apply keeps_bind; [apply transition_keeps_session|intros _].
        do 2 (apply keeps_bind; [by apply keeps_count_n|intros _]).
        apply keeps_bind; [by apply keeps_refresh|intros _]. apply keeps_this. intros c. by apply keeps_when. }
    destruct (Ht w4) as ([] & w5 & Heq). specialize (Hk' w4). unfold wp. rewrite Heq in Hk' |- *.
    apply Hdone. cbn [snd] in Hk'. by rewrite Hk', Hs4, Hs3.
Qed.

Lemma handshake_authenticates v p w :
  packet_ok v p → not_established w →
  wp not_established (handle_handshake_packet v) w
    (λ _ w', not_established w' ∨
       c_state (w_client w) = ConnectionState.Handshaking ∧
       authenticated (w_client w) (w_client w') v).
Proof.
  intros Hv Hne. unfold handle_handshake_packet.
  destruct (packet_header_encrypted _); [done|]. apply wp_bind, wp_this.
  case_bool_decide as Hs; cbn [negb]; [|done].
  assert (At ConnectionState.Handshaking k w) as Hw by by split; [apply Hne|].
  destruct (_ || _) eqn:Hnull; [done|]. apply orb_false_iff in Hnull as [Hn1 Hn2].
  pose proof (pk_payload _ _ Hv) as Hp. rewrite Hp in Hn1. rewrite (pk_len _ _ Hv) in Hn2.
  apply Z.eqb_neq in Hn2. rewrite Hp at 1. destruct p as [|b p']; [done|].
  change (default [] (data_of (b :: p')) !! 0%nat) with (Some b). cbv beta iota. destruct (_ =? _).
  { eapply wp_safe; [by eapply handle_retry_safe|exact Hw| |].
    - intros w' Hw'. by apply (At_not_established ConnectionState.Handshaking).
    - intros _ w' Hw'. left. by apply (At_not_established ConnectionState.Handshaking). }
  destruct (_ =? _); [|done].
  eapply wp_mono; [by eapply server_hello_authenticates|]. intros ? w' Ha. by right.
Qed.

Lemma handle_error_not_established rc w :
  not_established w → not_established (handle_error rc w).2.
Proof.
  intros [Hw Hs]. destruct (fatal (code rc)) eqn:Hf.
  - destruct (handle_error_fatal k rc w Hw Hf) as (w' & -> & Hc & _). by apply (At_not_established ConnectionState.Closed).
  - unfold handle_error. by destruct (code rc).
Qed.
End handshake.

(** C25: a handshake packet establishes a session only in a client that is
    handshaking, with the keys of its own exchange and the server's public key,
    and only if the MAC in the hello is the keyed hash of the transcript both
    sides saw. *)
Theorem established_authenticated `{SodiumLaws} cfg w v p :
  client_usable cfg → reachable cfg w → packet_ok v p →
  kind (pv_h v) = kind_value PacketKind.Handshake →
  c_state (w_client w) ≠ ConnectionState.Established →
  let w' := (handle_packet v w).2 in
  c_state (w_client w') = ConnectionState.Established →
  c_state (w_client w) = ConnectionState.Handshaking ∧ authenticated (w_client w) (w_client w') v.
Proof.
  intros Hu [k Hw]%reachable_inv Hv Hkind Hs; [|done]. cbv zeta.
  assert (∃ w1, (emit_on_packet v;; emit_packet_debug "recv" v) w = (Done tt, w1) ∧
    w_client w1 = w_client w ∧ Inv k w1) as (w1 & Heq & Hc1 & Hw1).
  { assert (Safe (Inv k) (emit_on_packet v;; emit_packet_debug "recv" v)) as Hsafe
      by (apply safe_bind; [eauto with safe|intros _; eauto with safe]).
    assert (Total (emit_on_packet v;; emit_packet_debug "recv" v)) as Htot
      by (unfold emit_on_packet, emit_packet_debug; total).
    assert (Keeps id (emit_on_packet v;; emit_packet_debug "recv" v)) as Hkeep.
    { apply keeps_bind; [apply keeps_this; intros; by apply keeps_when|intros _; apply emit_debug_keeps]. }
    destruct (Htot w) as ([] & w1 & Heq). specialize (Hsafe w Hw). specialize (Hkeep w).
    unfold wp in Hsafe. rewrite Heq in Hsafe, Hkeep. by exists w1. }
  assert (not_established k w1) as Hne by (split; [done|by rewrite Hc1]).
  assert (handle_packet v w = (rc ← attempt (handle_handshake_packet v); handle_error rc) w1) as ->.
  { unfold handle_packet. cbv zeta. unfold mbind at 1, io_bind at 1, this. cbv beta iota.
    rewrite (proj2 (Z.eqb_eq _ _) Hkind). revert Heq. unfold mbind, io_bind.
    destruct (emit_on_packet v w) as [[[]|rc|] w2]; [|done..]. by intros ->. }
  pose proof (handshake_authenticates k v p w1 Hv Hne) as Ha. unfold wp in Ha.
  unfold mbind, io_bind, attempt. destruct (handle_handshake_packet v w1) as [[[]|rc|] w2].
  - rewrite Hc1 in Ha. destruct Ha as [[_ Hn]|Ha]; [intros He; by destruct Hn|by intros _].
  - intros He. by destruct (handle_error_not_established k rc w2 Ha).
  - done.
Qed.

(** ** Witnesses *)

#[local] Existing Instance toy_sodium.

(** A forged packet: encrypted, for the right connection, with an arbitrary
    ciphertext. *)
Definition forged : PacketView :=
  mkPacketView (out_header PacketKind.Message true 77 5 20) (data_of (replicate 20 0)).

Lemma unauthenticated_packet_inert_witness :
  ∃ w', handle_packet forged Example.established = (Done tt, w') ∧
    deliveries (w_events w') = deliveries (w_events Example.established) ∧
    c_state (w_client w') = ConnectionState.Closed ∧ keys_empty (c_session_keys (w_client w')) = true.
Proof.
  apply (unauthenticated_packet_inert default_client _ _ (replicate 20 0));
    [apply Example.client_default_usable|apply Example.established_reachable| | | |].
  - split; [done|done|repeat constructor; lia|]. apply out_header_typed; ulia.
  - done.
  - vm_compute. reflexivity.
  - vm_compute. reflexivity.
Defined.

Definition answer_view : PacketView :=
  mkPacketView (out_header PacketKind.Handshake false 77 1 (zlen (enc_server_hello Example.hello)))
    (data_of (enc_server_hello Example.hello)).

Lemma established_authenticated_witness :
  c_state (w_client Example.connecting) = ConnectionState.Handshaking ∧
  authenticated (w_client Example.connecting)
    (w_client (handle_packet answer_view Example.connecting).2) answer_view.
Proof.
  apply (established_authenticated default_client _ _ (enc_server_hello Example.hello));
    [apply Example.client_default_usable|apply Example.connecting_reachable| |done| |].
  - split; [done|done| |].
    + apply (bool_decide_unpack (bytes_ok (enc_server_hello Example.hello))). vm_compute. reflexivity.
    + apply (bool_decide_unpack (header_typed (pv_h answer_view))). vm_compute. reflexivity.
  - vm_compute. discriminate.
  - vm_compute. reflexivity.
Defined.
