(* ===== verification/Server.v ===== *)
(** * The server: state, tokens and abuse limits

    [src/securecnet/include/securecnet/server.hpp] and the first part of
    [lib/server.cpp]: the state of [class Server], the table of peer sessions,
    gauges and state transitions of a session, the per-host abuse limits and the
    retry and resumption tokens.

    A [PeerSession&] is the key of the session in [_sessions]; using it after the
    session was erased is undefined behaviour.  The order in which an
    [unordered_map] is traversed is a parameter. *)
From S2P Require Import Prelude Result ByteBuf Config Message Packet Protocol Windows Payloads.
From S2P Require Import Reliability Ordered Fragmentation Congestion Crypto Stats Endpoint Socket.
From S2P Require Import Client ClientRecv.
#[local] Open Scope Z_scope.

(** [Server::Peer], bound to this server. *)
Record Peer := mkPeer {
  peer_endpoint : Endpoint;
  peer_conn_id : U64;
  peer_peer_id : U64;
}.

(** [Server::PendingPacket] *)
Record ServerPacket := mkServerPacket {
  sp_to : Endpoint;
  sp_owner_conn_id : U64;
  sp_bytes : list U8;
  sp_len : ST;
  sp_priority : SendPriority;
}.

(** [Server::PeerSession]; [ps_user_data] is the user's pointer. *)
Record PeerSession := mkPeerSession {
  ps_endpoint : Endpoint;
  ps_conn_id : U64;
  ps_peer_id : U64;
  ps_user_data : Z;
  ps_state : ConnectionState;
  ps_close_reason : CloseReason;
  ps_created_ms : U64;
  ps_last_recv_ms : U64;
  ps_last_send_ms : U64;
  ps_send_seq : U64;
  ps_send_budget_bytes : U64;
  ps_last_budget_refill_ms : U64;
  ps_congestion : CongestionController;
  ps_next_fragment_message_id : U64;
  ps_next_ordered_sequence : U64;
  ps_next_sequenced_sequence : U64;
  ps_had_retry_token : bool;
  ps_retry_token : RetryToken;
  ps_had_resumption_token : bool;
  ps_resumption_token : ResumptionToken;
  ps_ephemeral : KeyPair;
  ps_keys : SessionKeys;
  ps_client_nonce : list U8;
  ps_server_nonce : list U8;
  ps_client_public_key : list U8;
  ps_packet_window : Window;
  ps_reliable : ReliableSession;
  ps_ordered_reliable : ReliableSession;
  ps_ordered : OrderedReceiveWindow;
  ps_sequenced : SequencedReceiveWindow;
  ps_reassembler : FragmentReassembler;
}.

Definition peer_session_eta (x : PeerSession) : PeerSession :=
  mkPeerSession (ps_endpoint x) (ps_conn_id x) (ps_peer_id x) (ps_user_data x) (ps_state x)
    (ps_close_reason x) (ps_created_ms x) (ps_last_recv_ms x) (ps_last_send_ms x) (ps_send_seq x)
    (ps_send_budget_bytes x) (ps_last_budget_refill_ms x) (ps_congestion x)
    (ps_next_fragment_message_id x) (ps_next_ordered_sequence x) (ps_next_sequenced_sequence x)
    (ps_had_retry_token x) (ps_retry_token x) (ps_had_resumption_token x) (ps_resumption_token x)
    (ps_ephemeral x) (ps_keys x) (ps_client_nonce x) (ps_server_nonce x) (ps_client_public_key x)
    (ps_packet_window x) (ps_reliable x) (ps_ordered_reliable x) (ps_ordered x) (ps_sequenced x)
    (ps_reassembler x).

#[global] Instance assign_ps_user_data : Assign ps_user_data := ltac:(derive_assign peer_session_eta).
#[global] Instance assign_ps_state : Assign ps_state := ltac:(derive_assign peer_session_eta).
#[global] Instance assign_ps_close_reason : Assign ps_close_reason := ltac:(derive_assign peer_session_eta).
#[global] Instance assign_ps_last_recv_ms : Assign ps_last_recv_ms := ltac:(derive_assign peer_session_eta).
#[global] Instance assign_ps_last_send_ms : Assign ps_last_send_ms := ltac:(derive_assign peer_session_eta).
#[global] Instance assign_ps_send_seq : Assign ps_send_seq := ltac:(derive_assign peer_session_eta).
#[global] Instance assign_ps_send_budget_bytes : Assign ps_send_budget_bytes := ltac:(derive_assign peer_session_eta).
#[global] Instance assign_ps_last_budget_refill_ms : Assign ps_last_budget_refill_ms := ltac:(derive_assign peer_session_eta).
#[global] Instance assign_ps_congestion : Assign ps_congestion := ltac:(derive_assign peer_session_eta).
#[global] Instance assign_ps_next_fragment_message_id : Assign ps_next_fragment_message_id := ltac:(derive_assign peer_session_eta).
#[global] Instance assign_ps_next_ordered_sequence : Assign ps_next_ordered_sequence := ltac:(derive_assign peer_session_eta).
#[global] Instance assign_ps_next_sequenced_sequence : Assign ps_next_sequenced_sequence := ltac:(derive_assign peer_session_eta).
#[global] Instance assign_ps_packet_window : Assign ps_packet_window := ltac:(derive_assign peer_session_eta).
#[global] Instance assign_ps_reliable : Assign ps_reliable := ltac:(derive_assign peer_session_eta).
#[global] Instance assign_ps_ordered_reliable : Assign ps_ordered_reliable := ltac:(derive_assign peer_session_eta).
#[global] Instance assign_ps_ordered : Assign ps_ordered := ltac:(derive_assign peer_session_eta).
#[global] Instance assign_ps_sequenced : Assign ps_sequenced := ltac:(derive_assign peer_session_eta).
#[global] Instance assign_ps_reassembler : Assign ps_reassembler := ltac:(derive_assign peer_session_eta).

Record IpAbuseState := mkIpAbuse {
  ab_window_started_ms : U64;
  ab_handshakes_in_window : U32;
  ab_invalid_penalty_score : U32;
  ab_banned_until_ms : U64;
}.
Definition default_ip_abuse : IpAbuseState := mkIpAbuse 0 0 0 0.

Record PreauthBudgetState := mkPreauth {
  pb_bytes_received : U64;
  pb_bytes_sent : U64;
  pb_last_seen_ms : U64;
}.
Definition default_preauth : PreauthBudgetState := mkPreauth 0 0 0.

(** Which callbacks of the server's user are installed. *)
Record ServerCallbacks := mkServerCallbacks {
  scb_on_packet : bool;
  scb_on_message : bool;
  scb_text : gset U8;
  scb_binary : gset U8;
  scb_on_peer_connected : bool;
  scb_on_peer_ready : bool;
  scb_on_peer_disconnected : bool;
  scb_on_peer_state_change : bool;
  scb_on_backpressure : bool;
  scb_logger : bool;
  scb_packet_debug : bool;
}.
Definition no_server_callbacks : ServerCallbacks :=
  mkServerCallbacks false false ∅ ∅ false false false false false false false.

(** [class Server], without the socket and the context pointer.  The endpoint
    table is keyed by [operator==] of endpoints. *)
Record Server := mkServer {
  s_config : ServerConfig;
  s_stateless_seq : U64;
  s_next_peer_id : U64;
  s_pending_bytes : ST;
  s_callbacks : ServerCallbacks;
  s_pending : list ServerPacket;
  s_sessions : gmap U64 PeerSession;
  s_endpoint_to_conn : list (Endpoint * U64);
  s_ip_abuse : gmap (list U8) IpAbuseState;
  s_preauth : gmap (list U8) PreauthBudgetState;
  s_cookie_secret : list U8;
  s_stats : TransportStats;
}.

Definition server_eta (x : Server) : Server :=
  mkServer (s_config x) (s_stateless_seq x) (s_next_peer_id x) (s_pending_bytes x) (s_callbacks x)
    (s_pending x) (s_sessions x) (s_endpoint_to_conn x) (s_ip_abuse x) (s_preauth x)
    (s_cookie_secret x) (s_stats x).

#[global] Instance assign_s_stateless_seq : Assign s_stateless_seq := ltac:(derive_assign server_eta).
#[global] Instance assign_s_next_peer_id : Assign s_next_peer_id := ltac:(derive_assign server_eta).
#[global] Instance assign_s_pending_bytes : Assign s_pending_bytes := ltac:(derive_assign server_eta).
#[global] Instance assign_s_callbacks : Assign s_callbacks := ltac:(derive_assign server_eta).
#[global] Instance assign_s_pending : Assign s_pending := ltac:(derive_assign server_eta).
#[global] Instance assign_s_sessions : Assign s_sessions := ltac:(derive_assign server_eta).
#[global] Instance assign_s_endpoint_to_conn : Assign s_endpoint_to_conn := ltac:(derive_assign server_eta).
#[global] Instance assign_s_ip_abuse : Assign s_ip_abuse := ltac:(derive_assign server_eta).
#[global] Instance assign_s_preauth : Assign s_preauth := ltac:(derive_assign server_eta).
#[global] Instance assign_s_cookie_secret : Assign s_cookie_secret := ltac:(derive_assign server_eta).
#[global] Instance assign_s_stats : Assign s_stats := ltac:(derive_assign server_eta).

(** ** The world of the server

    As for the client, callbacks are events, newest first, and do not call back.
    [SessionCreated], [NumberTaken], [PacketSealed] and [HelloAdmitted] (a client
    hello that passed the rate limit) are instrumentation. *)
Inductive ServerEvent : Type :=
  | SrvOnPacket (from : Endpoint) (v : PacketView)
  | SrvOnMessage (peer : Peer) (m : MsgView)
  | SrvOnText (peer : Peer) (type : U8) (text : list U8)
  | SrvOnBinary (peer : Peer) (m : MsgView)
  | SrvOnPeerConnected (peer : Peer)
  | SrvOnPeerReady (peer : Peer)
  | SrvOnPeerDisconnected (peer : Peer) (reason : CloseReason)
  | SrvOnPeerStateChange (peer : Peer) (previous next : ConnectionState)
  | SrvOnBackpressure (peer : Peer) (info : BackpressureInfo)
  | SrvOnLog (level : LogLevel) (text : string)
  | SrvOnPacketDebug (direction : string) (endpoint : Endpoint) (v : PacketView)
  | SessionCreated (conn_id : U64)
  | NumberTaken (conn_id : U64)
  | PacketSealed (conn_id : U64) (nonce : list U8)
  | HelloAdmitted (from : Endpoint) (at_ms : U64).

Record ServerWorld := mkServerWorld {
  sw_server : Server;
  sw_net : Net;
  sw_events : list ServerEvent;
}.

Definition srv : io ServerWorld Server := λ w, (Done (sw_server w), w).
Definition set_srv (f : Server → Server) : io ServerWorld unit := λ w,
  (Done tt, mkServerWorld (f (sw_server w)) (sw_net w) (sw_events w)).
Definition report (e : ServerEvent) : io ServerWorld unit := λ w,
  (Done tt, mkServerWorld (sw_server w) (sw_net w) (e :: sw_events w)).
Definition os {A} (m : io Net A) : io ServerWorld A := λ w,
  let '(o, n) := m (sw_net w) in (o, mkServerWorld (sw_server w) n (sw_events w)).

(** Read and assign through a [PeerSession&]. *)
Definition session (id : U64) : io ServerWorld PeerSession := λ w,
  match s_sessions (sw_server w) !! id with
  | Some s => (Done s, w)
  | None => (UB, w)
  end.
Definition set_session (id : U64) (f : PeerSession → PeerSession) : io ServerWorld unit :=
  s ← session id;
  set_srv (λ v, v <| s_sessions := <[id := f s]> (s_sessions v) |>).

Definition tally_n (f : Stat) (n : U64) : io ServerWorld unit :=
  set_srv (λ v, v <| s_stats := stat_add f n (s_stats v) |>).
Definition tally (f : Stat) : io ServerWorld unit := tally_n f 1.

(** The order in which the hash table of sessions is traversed. *)
Class Traversal := traversal : gmap U64 PeerSession → list U64.
Class TraversalLaws `{Traversal} : Prop :=
  traversal_keys : ∀ m, traversal m ≡ₚ (map_to_list m).*1.

(** ** Callbacks *)

Definition make_peer (s : PeerSession) : Peer := mkPeer (ps_endpoint s) (ps_conn_id s) (ps_peer_id s).

Definition srv_log (level : LogLevel) (text : string) : io ServerWorld unit :=
  v ← srv; when (scb_logger (s_callbacks v)) (report (SrvOnLog level text)).

Definition srv_packet_debug (direction : string) (endpoint : Endpoint) (p : PacketView)
    : io ServerWorld unit :=
  v ← srv;
  when (server_enable_packet_debug_dumps (s_config v) && scb_packet_debug (s_callbacks v))
    (report (SrvOnPacketDebug direction endpoint p)).

Definition srv_on_packet (from : Endpoint) (p : PacketView) : io ServerWorld unit :=
  v ← srv; when (scb_on_packet (s_callbacks v)) (report (SrvOnPacket from p)).

Definition find_session (id : U64) (v : Server) : option PeerSession := s_sessions v !! id.

Definition srv_backpressure (peer : Peer) (channel : Channel) (type : U8) (rc : Result)
    : io ServerWorld unit :=
  v ← srv;
  when (scb_on_backpressure (s_callbacks v))
    (report (SrvOnBackpressure peer (mkBackpressureInfo (code rc) channel type (zlen (s_pending v))
       (s_pending_bytes v)
       (match find_session (peer_conn_id peer) v with
        | Some s => ps_send_budget_bytes s
        | None => 0
        end)))).

(** ** Gauges *)

Definition stat_max (f : Stat) (n : U64) (s : TransportStats) : TransportStats :=
  stat_set f (Z.max (s f) n) s.

(** The gauges that [refresh_runtime_stats] sets to zero first. *)
Definition zeroed_gauges : list Stat :=
  [Stat.current_reliable_pending; Stat.current_reliable_inflight; Stat.current_reassembly_count;
   Stat.current_reassembly_memory_bytes; Stat.current_send_budget_bytes; Stat.rtt_latest_ms;
   Stat.rtt_smoothed_ms; Stat.rtt_variance_ms; Stat.current_retransmit_timeout_ms;
   Stat.estimated_loss_per_mille; Stat.congestion_current_rate_bytes_per_second;
   Stat.congestion_current_window_bytes; Stat.congestion_ack_events; Stat.congestion_loss_events;
   Stat.congestion_backpressure_events].

(** The body of its loop. *)
Definition add_session_gauges (st : TransportStats) (s : PeerSession) : TransportStats :=
  let r := ps_reliable s in let o := ps_ordered_reliable s in
  let c := snapshot (ps_congestion s) in
  foldl (λ st '(f, v), stat_max f v st)
    (foldl (λ st '(f, v), stat_add f v st) st
       [(Stat.current_reliable_pending, w64 (zlen (rs_pending r) + zlen (rs_pending o)));
        (Stat.current_reliable_inflight, w64 (rs_inflight_count r + rs_inflight_count o));
        (Stat.current_reassembly_count, Z.of_nat (size (ra_entries (ps_reassembler s))));
        (Stat.current_reassembly_memory_bytes, ra_memory_bytes (ps_reassembler s));
        (Stat.current_send_budget_bytes, ps_send_budget_bytes s);
        (Stat.congestion_current_rate_bytes_per_second, sn_rate c);
        (Stat.congestion_current_window_bytes, sn_window c);
        (Stat.congestion_ack_events, sn_ack_events c);
        (Stat.congestion_loss_events, sn_loss_events c);
        (Stat.congestion_backpressure_events, sn_backpressure_events c)])
    [(Stat.rtt_latest_ms, Z.max (latest_rtt_ms (rs_rtt r)) (latest_rtt_ms (rs_rtt o)));
     (Stat.rtt_smoothed_ms, Z.max (srtt_ms (rs_rtt r)) (srtt_ms (rs_rtt o)));
     (Stat.rtt_variance_ms, Z.max (rttvar_ms (rs_rtt r)) (rttvar_ms (rs_rtt o)));
     (Stat.current_retransmit_timeout_ms, Z.max (rto_ms (rs_rtt r)) (rto_ms (rs_rtt o)));
     (Stat.estimated_loss_per_mille, Z.max (loss_per_mille (rs_loss r)) (loss_per_mille (rs_loss o)))].

Definition server_gauges (v : Server) : TransportStats :=
  foldl add_session_gauges
    (foldl (λ st f, stat_set f 0 st)
       (stat_set Stat.current_pending_packets (zlen (s_pending v))
          (stat_set Stat.current_peer_count (Z.of_nat (size (s_sessions v))) (s_stats v)))
       zeroed_gauges)
    (map_to_list (s_sessions v)).*2.

Definition srv_refresh : io ServerWorld unit :=
  set_srv (λ v, v <| s_stats := server_gauges v |>).

(** ** Transitions of a session *)

(** What [transition_state] does once the state is assigned. *)
Definition announce (peer : Peer) (previous next : ConnectionState) (reason : CloseReason)
    : io ServerWorld unit :=
  tally Stat.state_transitions;;
  srv_refresh;;
  srv_log LogLevel.Trace "server session state transition";;
  v ← srv;
  let cb := s_callbacks v in
  when (scb_on_peer_state_change cb) (report (SrvOnPeerStateChange peer previous next));;
  when (negb (bool_decide (previous = ConnectionState.Established))
        && bool_decide (next = ConnectionState.Established))
    (when (scb_on_peer_connected cb) (report (SrvOnPeerConnected peer));;
     when (scb_on_peer_ready cb) (report (SrvOnPeerReady peer)));;
  when (negb (bool_decide (previous = ConnectionState.Closed))
        && bool_decide (next = ConnectionState.Closed) && scb_on_peer_disconnected cb)
    (report (SrvOnPeerDisconnected peer reason)).

Definition transition_session (id : U64) (next : ConnectionState) : io ServerWorld unit :=
  s ← session id;
  if decide (ps_state s = next) then mret tt
  else
    set_session id (λ s, s <| ps_state := next |>);;
    announce (make_peer s) (ps_state s) next (ps_close_reason s).

(** ** Abuse limits *)

Section text.
Context `{Ntop}.

Definition endpoint_host_key (e : Endpoint) : list U8 :=
  match e with
  | EpNone => text "<uninitialized>"
  | EpV4 _ _ | EpV6 _ _ _ _ =>
      match inet_ntop e with Some host => host | None => ep_to_string e end
  | EpOther _ _ => ep_to_string e
  end.

(** [_ip_abuse[key]] and [_preauth[key]] insert a default entry when needed. *)
Definition abuse_state_for (e : Endpoint) (v : Server) : IpAbuseState :=
  default default_ip_abuse (s_ip_abuse v !! endpoint_host_key e).
Definition set_abuse (e : Endpoint) (a : IpAbuseState) : io ServerWorld unit :=
  set_srv (λ v, v <| s_ip_abuse := <[endpoint_host_key e := a]> (s_ip_abuse v) |>).
Definition preauth_state_for (e : Endpoint) (v : Server) : PreauthBudgetState :=
  default default_preauth (s_preauth v !! endpoint_host_key e).
Definition set_preauth (e : Endpoint) (p : PreauthBudgetState) : io ServerWorld unit :=
  set_srv (λ v, v <| s_preauth := <[endpoint_host_key e := p]> (s_preauth v) |>).

Definition endpoint_rate_limited (e : Endpoint) (now : U64) : io ServerWorld bool :=
  v ← srv;
  let state := abuse_state_for e v in
  let restart := (ab_window_started_ms state =? 0) || (now <? ab_window_started_ms state)
                 || (1000 <=? now - ab_window_started_ms state) in
  let started := if restart then now else ab_window_started_ms state in
  let handshakes := if restart then 0 else ab_handshakes_in_window state in
  if per_ip_handshake_rate_limit_per_second (server_abuse (s_config v)) <=? handshakes then
    set_abuse e (mkIpAbuse started handshakes (ab_invalid_penalty_score state) (ab_banned_until_ms state));;
    tally Stat.rate_limited_packets;;
    tally Stat.dropped_packets;;
    mret true
  else
    set_abuse e (mkIpAbuse started (w32 (handshakes + 1)) (ab_invalid_penalty_score state)
                   (ab_banned_until_ms state));;
    mret false.

Definition endpoint_is_banned (e : Endpoint) (now : U64) : io ServerWorld bool :=
  v ← srv;
  let state := abuse_state_for e v in
  set_abuse e state;;
  mret (now <? ab_banned_until_ms state).

Definition note_invalid_packet (e : Endpoint) (now : U64) : io ServerWorld unit :=
  v ← srv;
  let state := abuse_state_for e v in
  let abuse := server_abuse (s_config v) in
  if now <? ab_banned_until_ms state then set_abuse e state
  else
    let score := w32 (ab_invalid_penalty_score state + 1) in
    tally Stat.invalid_packet_penalties;;
    if invalid_packet_ban_threshold abuse <=? score then
      set_abuse e (mkIpAbuse (ab_window_started_ms state) (ab_handshakes_in_window state) 0
                     (w64 (now + invalid_packet_ban_ms abuse)));;
      tally Stat.rate_limited_packets
    else
      set_abuse e (mkIpAbuse (ab_window_started_ms state) (ab_handshakes_in_window state) score
                     (ab_banned_until_ms state)).

Definition can_amplify_to (e : Endpoint) (bytes_to_send now : U64) : io ServerWorld bool :=
  v ← srv;
  let state := preauth_state_for e v in
  let abuse := server_abuse (s_config v) in
  set_preauth e (mkPreauth (pb_bytes_received state) (pb_bytes_sent state) now);;
  let allowance := w64 (w64 (pb_bytes_received state * anti_amplification_factor abuse)
                        + anti_amplification_slack_bytes abuse) in
  if allowance <? w64 (pb_bytes_sent state + bytes_to_send) then
    tally Stat.amplification_drops;;
    tally Stat.dropped_packets;;
    mret false
  else mret true.

Definition note_preauth_receive (e : Endpoint) (bytes now : U64) : io ServerWorld unit :=
  v ← srv;
  let state := preauth_state_for e v in
  set_preauth e (mkPreauth (w64 (pb_bytes_received state + bytes)) (pb_bytes_sent state) now).

Definition note_preauth_send (e : Endpoint) (bytes now : U64) : io ServerWorld unit :=
  v ← srv;
  let state := preauth_state_for e v in
  set_preauth e (mkPreauth (pb_bytes_received state) (w64 (pb_bytes_sent state + bytes)) now).

Definition total_reassembly_memory_bytes (v : Server) : U64 :=
  foldl (λ total s, w64 (total + ra_memory_bytes (ps_reassembler s))) 0
    (map_to_list (s_sessions v)).*2.

(** ** Tokens *)

Section tokens.
Context `{Sodium}.

(** [(void)writer.f(...)] *)
Definition ignore (m : io ByteWriter unit) : io ByteWriter unit := attempt m;; mret tt.

(** [(void)crypto_keyed_hash(...)] into a zeroed array. *)
Definition mac_of (secret input : list U8) (len : nat) : outcome (list U8) :=
  match crypto_keyed_hash (Some secret) (zlen secret) (Some input) (zlen input) false (Z.of_nat len) with
  | Done mac => Done mac
  | Err _ => Done (zeros len)
  | UB => UB
  end.

Definition write_retry_input (from : Endpoint) (hello : ClientHello) (issued_at_ms : U64)
    : io ByteWriter unit :=
  ignore (write_u64 issued_at_ms);;
  ignore (write_u16 NetConfig.ProtocolVersion);;
  ignore (write_u16 (w16 (zlen (ep_to_string from))));;
  ignore (write_bytes (Some (ep_to_string from)) (zlen (ep_to_string from)));;
  ignore (write_array NetConfig.KeyExchangePublicKeyBytes (client_public_key hello));;
  ignore (write_array NetConfig.ClientNonceBytes (client_nonce hello)).

Definition make_retry_token (v : Server) (from : Endpoint) (hello : ClientHello)
    (issued_at_ms : U64) : outcome RetryToken :=
  let? input := write_to 256 (write_retry_input from hello issued_at_ms) in
  let? mac := mac_of (s_cookie_secret v) input NetConfig.RetryTokenMacBytes in
  Done (mkRetryToken issued_at_ms mac).

Definition validate_retry_token (v : Server) (from : Endpoint) (hello : ClientHello)
    (token : RetryToken) (now : U64) : outcome unit :=
  if (now <? rt_issued_at_ms token)
     || (NetConfig.RetryTokenLifetimeMs <? now - rt_issued_at_ms token)
  then Err (fail_result Errc.Timeout "retry token expired")
  else
    let? expected := make_retry_token v from hello (rt_issued_at_ms token) in
    let? same := crypto_constant_time_equal (Some (rt_mac expected)) (Some (rt_mac token))
                   (Z.of_nat NetConfig.RetryTokenMacBytes) in
    if negb same then Err (fail_result Errc.AuthFailed "retry token MAC mismatch") else Done tt.

(** The fields of a resumption token that its MAC covers. *)
Definition resumption_fields (from : Endpoint) (issued expires ticket : U64)
    (wr : io ByteWriter unit → io ByteWriter unit) : io ByteWriter unit :=
  wr (write_u64 issued);;
  wr (write_u64 expires);;
  wr (write_u64 ticket);;
  wr (write_u16 NetConfig.ProtocolVersion);;
  wr (write_u16 (w16 (zlen (endpoint_host_key from))));;
  wr (write_bytes (Some (endpoint_host_key from)) (zlen (endpoint_host_key from))).

(** [do { random } while (ticket_id == 0)]: the draws of the script, then one
    that is not zero. *)
Fixpoint draw_ticket (fuel : nat) : io Net U64 :=
  match fuel with
  | O => mret 1
  | S fuel' =>
      bytes ← random_bytes 8;
      if be_value bytes =? 0 then draw_ticket fuel' else mret (be_value bytes)
  end.

Definition make_resumption_token (from : Endpoint) (issued_at_ms : U64)
    : io ServerWorld ResumptionToken :=
  v ← srv;
  let expires := w64 (issued_at_ms + NetConfig.ResumptionTokenLifetimeMs) in
  ticket ← os (λ n, draw_ticket (length (n_random n)) n);
  input ← lift (write_to 256 (resumption_fields from issued_at_ms expires ticket ignore));
  mac ← lift (mac_of (s_cookie_secret v) input NetConfig.ResumptionTokenMacBytes);
  mret (mkResumptionToken issued_at_ms expires ticket mac).

Definition validate_resumption_token (v : Server) (from : Endpoint) (token : ResumptionToken)
    (now : U64) : outcome unit :=
  if res_ticket_id token =? 0
  then Err (fail_result Errc.BadPacket "resumption token missing ticket id")
  else if (now <? res_issued_at_ms token)
          || (res_expires_at_ms token <=? res_issued_at_ms token)
          || (res_expires_at_ms token <? now)
  then Err (fail_result Errc.Timeout "resumption token expired")
  else
    let? input := write_to 256 (resumption_fields from (res_issued_at_ms token)
                    (res_expires_at_ms token) (res_ticket_id token) id) in
    let? mac := crypto_keyed_hash (Some (s_cookie_secret v)) (zlen (s_cookie_secret v))
                  (Some input) (zlen input) false (Z.of_nat NetConfig.ResumptionTokenMacBytes) in
    let? same := crypto_constant_time_equal (Some mac) (Some (res_mac token))
                   (Z.of_nat NetConfig.ResumptionTokenMacBytes) in
    if negb same then Err (fail_result Errc.AuthFailed "resumption token MAC mismatch") else Done tt.
End tokens.
End text.
