(* ===== verification/ServerSend.v ===== *)
(** * The server: sending

    The middle of [src/securecnet/lib/server.cpp]: queueing and sealing of
    packets, the messages of a session, the public send operations,
    [flush_pending] and retransmission. *)
From S2P Require Import Prelude Result ByteBuf Config Message Packet Protocol Windows Payloads.
From S2P Require Import Reliability Ordered Fragmentation Congestion Crypto Stats Endpoint Socket.
From S2P Require Import Client ClientRecv Server.
#[local] Open Scope Z_scope.

(** ** Queueing packets *)

(** [_pending.insert] before the first packet of a lower priority. *)
Fixpoint insert_packet (p : ServerPacket) (q : list ServerPacket) : list ServerPacket :=
  match q with
  | [] => [p]
  | it :: rest =>
      if priority_value (sp_priority it) <? priority_value (sp_priority p)
      then p :: it :: rest
      else it :: insert_packet p rest
  end.

Definition srv_enqueue (pending : ServerPacket) : io ServerWorld unit :=
  v ← srv;
  if server_max_pending_packets (s_config v) <=? zlen (s_pending v)
  then
    tally Stat.queue_full_events;;
    fail Errc.QueueFull "pending packet queue full"
  else
    set_srv (λ v, v <| s_pending_bytes := w64 (s_pending_bytes v + sp_len pending) |>
                    <| s_pending := insert_packet pending (s_pending v) |>);;
    srv_refresh.

Section server.
Context `{Ntop} `{Sodium}.

(** [Server::queue_packet]; [keys] is the pointer to the session keys. *)
Definition srv_queue_packet (to : Endpoint) (kind : PacketKind) (encrypted : bool) (payload : ptr)
    (payload_len : ST) (conn_id seq : U64) (keys : option SessionKeys) (priority : SendPriority)
    (owner_conn_id : U64) : io ServerWorld unit :=
  if (0 <? payload_len) && bool_decide (payload = None)
  then fail Errc.InvalidArg "payload is null"
  else if encrypted && (NetConfig.MaxEncryptedPlaintextBytes <? payload_len)
  then fail Errc.InvalidArg "encrypted payload too large"
  else if negb encrypted && (NetConfig.MaxPayloadBytes <? payload_len)
  then fail Errc.InvalidArg "payload too large"
  else if encrypted && (match keys with None => true | Some k => keys_empty k end)
  then fail Errc.StateError "missing session keys"
  else
    allowed ← (if encrypted then mret true
               else
                 now ← os now_ms;
                 can_amplify_to to (w64 (NetConfig.PacketHeaderBytes + payload_len)) now);
    if negb allowed then mret tt
    else
      let header len :=
        mkPacketHeader NetConfig.Magic NetConfig.ProtocolVersion (kind_value kind)
          (if encrypted then PacketFlagEncrypted else 0) conn_id seq len in
      let h := header (w32 (if encrypted then payload_len + NetConfig.AeadTagBytes else payload_len)) in
      body ← (if encrypted then
                let tx := default default_session_keys keys in
                body ← lift (seal_payload tx h payload payload_len);
                report (PacketSealed conn_id (crypto_make_packet_nonce conn_id seq));;
                mret body
              else lift (bytes_at payload payload_len));
      pending ← lift (pack_pending h body priority);
      srv_enqueue (mkServerPacket to owner_conn_id (pp_bytes pending) (pp_len pending) priority).

(** [_stateless_seq++], [session.send_seq++] *)
Definition next_stateless : io ServerWorld U64 :=
  v ← srv;
  set_srv (λ v, v <| s_stateless_seq := w64 (s_stateless_seq v + 1) |>);;
  mret (s_stateless_seq v).
Definition next_seq (id : U64) : io ServerWorld U64 :=
  s ← session id;
  set_session id (λ s, s <| ps_send_seq := w64 (ps_send_seq s + 1) |>);;
  report (NumberTaken id);;
  mret (ps_send_seq s).

Definition queue_plain_handshake (to : Endpoint) (payload : ptr) (payload_len : ST) (conn_id : U64)
    : io ServerWorld unit :=
  seq ← next_stateless;
  srv_queue_packet to PacketKind.Handshake false payload payload_len conn_id seq None
    SendPriority.High 0.

Definition queue_retry (to : Endpoint) (token : RetryToken) : io ServerWorld unit :=
  payload ← lift (write_to 64 (write_retry token));
  queue_plain_handshake to (Some payload) (zlen payload) 0;;
  tally Stat.handshake_retries_sent.

(** The client hello of the session, as the transcript has it. *)
Definition session_hello (s : PeerSession) : ClientHello :=
  mkClientHello (ps_client_public_key s) (ps_client_nonce s)
    (ps_had_retry_token s)
    (if ps_had_retry_token s then ps_retry_token s else default_retry_token)
    (ps_had_resumption_token s)
    (if ps_had_resumption_token s then ps_resumption_token s else default_resumption_token).

(** The server hello with its transcript MAC. *)
Definition signed_hello (s : PeerSession) (token : option ResumptionToken) : outcome ServerHello :=
  let hello mac :=
    mkServerHello (ps_conn_id s) (kp_public (ps_ephemeral s)) (ps_server_nonce s) mac
      (bool_decide (is_Some token)) (default default_resumption_token token) in
  let? transcript := build_transcript_mac_input (session_hello s)
                       (hello (zeros NetConfig.TranscriptMacBytes)) 320 in
  let? mac := crypto_keyed_hash (Some (sk_tx (ps_keys s))) (Z.of_nat NetConfig.SessionKeyBytes)
                (Some transcript) (zlen transcript) false (Z.of_nat NetConfig.TranscriptMacBytes) in
  Done (hello mac).

Definition queue_server_hello (id : U64) : io ServerWorld unit :=
  s ← session id;
  v ← srv;
  token ← (if server_enable_session_resumption (s_config v) then
             now ← os now_ms;
             token ← make_resumption_token (ps_endpoint s) now;
             mret (Some token)
           else mret None);
  hello ← lift (signed_hello s token);
  payload ← lift (write_to 192 (write_server_hello hello));
  seq ← next_stateless;
  srv_queue_packet (ps_endpoint s) PacketKind.Handshake false (Some payload) (zlen payload)
    (ps_conn_id s) seq None SendPriority.High (ps_conn_id s).

(** A packet sealed for the session. *)
Definition queue_sealed (id : U64) (kind : PacketKind) (payload : ptr) (payload_len : ST)
    (priority : SendPriority) : io ServerWorld unit :=
  seq ← next_seq id;
  s ← session id;
  srv_queue_packet (ps_endpoint s) kind true payload payload_len (ps_conn_id s) seq
    (Some (ps_keys s)) priority (ps_conn_id s).

Definition srv_internal_message (id : U64) (channel : Channel) (type : U8) (data : ptr) (len : U16)
    (priority : SendPriority) : io ServerWorld unit :=
  payload ← lift (write_to NetConfig.MaxEncryptedPlaintextBytes (write_message channel type data len));
  queue_sealed id PacketKind.Message (Some payload) (zlen payload) priority;;
  tally Stat.message_frames_sent.

Definition srv_message_packet (id : U64) (channel : Channel) (type : U8) (data : ptr) (len : U16)
    (priority : SendPriority) : io ServerWorld unit :=
  if decide (channel = Channel.Control)
  then fail Errc.StateError "control channel is reserved"
  else srv_internal_message id channel type data len priority.

Definition srv_raw_payload (id : U64) (data : ptr) (len : ST) (priority : SendPriority)
    : io ServerWorld unit :=
  queue_sealed id PacketKind.Raw data len priority.

Definition srv_control_ack (id : U64) (channel : Channel) (message_id : U64) : io ServerWorld unit :=
  ack ← lift (write_to 16 (write_reliable_ack channel message_id));
  srv_internal_message id Channel.Control ControlType.ReliableAck (Some ack) (w16 (zlen ack))
    SendPriority.High;;
  tally Stat.reliable_acks_sent.

Definition srv_keepalive (id : U64) : io ServerWorld unit :=
  queue_sealed id PacketKind.Keepalive None 0 SendPriority.High;;
  tally Stat.keepalives_sent.

Definition srv_close_packet (to : Endpoint) (conn_id : U64) (reason : CloseReason) (encrypted : bool)
    (keys : option SessionKeys) (seq : U64) (priority : SendPriority) (owner_conn_id : U64)
    : io ServerWorld unit :=
  frame ← lift (write_to 8 (write_close_frame reason));
  srv_queue_packet to PacketKind.Close encrypted (Some frame) (zlen frame) conn_id seq keys
    priority owner_conn_id;;
  tally Stat.closes_sent.

(** [(void)queue_close_packet(to, conn_id, reason, false, nullptr, _stateless_seq++, High, 0)] *)
Definition refuse (to : Endpoint) (conn_id : U64) (reason : CloseReason) : io ServerWorld unit :=
  seq ← next_stateless;
  attempt (srv_close_packet to conn_id reason false None seq SendPriority.High 0);;
  mret tt.

(** ** Messages of a session *)

(** [ReliableSession& reliable = (channel == ReliableOrdered) ? ... : ...] *)
Definition on_reliable {A} (id : U64) (channel : Channel) (m : io ReliableSession A)
    : io ServerWorld A :=
  s ← session id;
  if decide (channel = Channel.ReliableOrdered) then
    let '(o, r) := m (ps_ordered_reliable s) in
    set_session id (λ s, s <| ps_ordered_reliable := r |>);; lift o
  else
    let '(o, r) := m (ps_reliable s) in
    set_session id (λ s, s <| ps_reliable := r |>);; lift o.

Definition srv_reliable_message (id : U64) (channel : Channel) (type : U8) (data : ptr) (len : U16)
    (priority : SendPriority) (lifetime_ms : U64) : io ServerWorld unit :=
  if w16 NetConfig.MaxReliableMessageBytes <? len
  then fail Errc.TooLarge "reliable payload exceeds inline channel budget"
  else
    now ← os now_ms;
    queued ← (λ w, match on_reliable id channel (enqueue type data len priority lifetime_ms now) w with
                   | (Done p, w') => (Done (inr p), w')
                   | (Err rc, w') => (Done (inl rc), w')
                   | (UB, w') => (UB, w')
                   end);
    match queued with
    | inl rc =>
        when (bool_decide (code rc = Errc.QueueFull)) (tally Stat.queue_full_events);;
        lift (Err rc)
    | inr pending =>
        tally Stat.reliable_message_enqueued;;
        rc ← attempt (srv_message_packet id channel type (Some (p_encoded_payload pending))
                        (w16 (zlen (p_encoded_payload pending))) priority);
        if negb (ok rc) then
          now ← os now_ms;
          on_reliable id channel (acknowledge (p_message_id pending) now);;
          when (bool_decide (code rc = Errc.QueueFull)) (tally Stat.backpressure_events);;
          lift (Err rc)
        else
          now ← os now_ms;
          on_reliable id channel
            (λ s, let '(b, s') := note_sent (p_message_id pending) now s in (Done b, s'));;
          srv_refresh
    end.

(** The loop of [send_fragmented] from [index]; [left] iterations remain. *)
Fixpoint srv_send_fragments (left : nat) (id : U64) (options : SendOptions) (message sequence : U64)
    (type : U8) (payload : list U8) (index : U16) : io ServerWorld unit :=
  match left with
  | O => mret tt
  | S left' =>
      let len := fragment_size_for_index (w16 (zlen payload)) index in
      let data := drop (Z.to_nat (index * NetConfig.MaxFragmentDataBytes)) payload in
      encoded ← lift (write_to NetConfig.MaxMessageBytes
        (write_fragment_payload message sequence (so_channel options) type index
           (fragment_count_for_length (w16 (zlen payload))) (w16 (zlen payload)) (Some data) len));
      (if channel_is_reliable (so_channel options)
       then srv_reliable_message id (so_channel options) ControlType.Fragment (Some encoded)
              (w16 (zlen encoded)) (so_priority options) (so_lifetime_ms options)
       else srv_internal_message id Channel.Control ControlType.Fragment (Some encoded)
              (w16 (zlen encoded)) (so_priority options));;
      tally Stat.fragments_sent;;
      srv_send_fragments left' id options message sequence type payload (w16 (index + 1))
  end.

Definition srv_send_fragmented (id : U64) (options : SendOptions) (type : U8) (payload : list U8)
    : io ServerWorld unit :=
  v ← srv;
  let cfg := server_fragmentation (s_config v) in
  let original_length := w16 (zlen payload) in
  let fragment_count := fragment_count_for_length original_length in
  if negb (frag_enabled cfg) then fail Errc.TooLarge "fragmentation disabled"
  else if negb (channel_is_application (so_channel options))
  then fail Errc.InvalidArg "fragment channel must be an application channel"
  else if max_reassembled_message_bytes cfg <? zlen payload
  then fail Errc.TooLarge "payload exceeds reassembly policy"
  else if (fragment_count =? 0) || (max_fragments_per_message cfg <? fragment_count)
  then fail Errc.TooLarge "fragment count exceeds policy"
  else
    s ← session id;
    let message := ps_next_fragment_message_id s in
    set_session id (λ s, s <| ps_next_fragment_message_id := w64 (message + 1) |>);;
    sequence ←
      (if decide (so_channel options = Channel.ReliableOrdered) then
         set_session id (λ s, s <| ps_next_ordered_sequence := w64 (ps_next_ordered_sequence s + 1) |>);;
         mret (ps_next_ordered_sequence s)
       else if decide (so_channel options = Channel.SequencedUnreliable) then
         set_session id (λ s, s <| ps_next_sequenced_sequence := w64 (ps_next_sequenced_sequence s + 1) |>);;
         mret (ps_next_sequenced_sequence s)
       else mret 0);
    srv_send_fragments (Z.to_nat fragment_count) id options message sequence type payload 0;;
    tally Stat.fragmented_messages_sent;;
    srv_refresh.

(** ** The public send operations *)

(** [find_session(peer.conn_id())] with the endpoint check. *)
Definition peer_session (peer : Peer) (v : Server) : option PeerSession :=
  s ← find_session (peer_conn_id peer) v;
  if ep_eqb (ps_endpoint s) (peer_endpoint peer) then Some s else None.

Definition srv_send_payload (peer : Peer) (data : ptr) (len : ST) : io ServerWorld unit :=
  v ← srv;
  match peer_session peer v with
  | None => fail Errc.Closed "unknown peer session"
  | Some s =>
      if negb (bool_decide (ps_state s = ConnectionState.Established))
      then fail Errc.StateError "peer not established"
      else if NetConfig.MaxEncryptedPlaintextBytes <? len
      then fail Errc.TooLarge "raw payload too large"
      else srv_raw_payload (peer_conn_id peer) data len SendPriority.Normal
  end.

Definition srv_finish (peer : Peer) (options : SendOptions) (type : U8) (m : io ServerWorld unit)
    : io ServerWorld unit :=
  rc ← attempt m;
  when (negb (ok rc) && (bool_decide (code rc = Errc.QueueFull)
                         || bool_decide (code rc = Errc.Backpressure)))
    (srv_backpressure peer (so_channel options) type rc);;
  if ok rc then mret tt else lift (Err rc).

Definition srv_send (peer : Peer) (options : SendOptions) (type : U8) (payload : list U8)
    : io ServerWorld unit :=
  v ← srv;
  let id := peer_conn_id peer in
  match peer_session peer v with
  | None => fail Errc.Closed "unknown peer session"
  | Some s =>
  if negb (bool_decide (ps_state s = ConnectionState.Established))
  then fail Errc.StateError "peer not established"
  else if negb (channel_is_application (so_channel options))
  then fail Errc.InvalidArg "send channel must be an application channel"
  else if U16_MAX <? zlen payload then fail Errc.TooLarge "message payload too large"
  else
    let len := w16 (zlen payload) in
    if max_inline_payload_for_channel (so_channel options) <? len
    then srv_finish peer options type (srv_send_fragmented id options type payload)
    else match so_channel options with
    | Channel.Reliable =>
        srv_finish peer options type
          (srv_reliable_message id Channel.Reliable type (data_of payload) len
             (so_priority options) (so_lifetime_ms options))
    | Channel.ReliableOrdered =>
        set_session id (λ s, s <| ps_next_ordered_sequence := w64 (ps_next_ordered_sequence s + 1) |>);;
        encoded ← lift (write_to NetConfig.MaxReliableMessageBytes
                          (write_ordered_payload (ps_next_ordered_sequence s) (data_of payload) len));
        srv_finish peer options type
          (srv_reliable_message id Channel.ReliableOrdered type (Some encoded) (w16 (zlen encoded))
             (so_priority options) (so_lifetime_ms options))
    | Channel.SequencedUnreliable =>
        set_session id (λ s, s <| ps_next_sequenced_sequence := w64 (ps_next_sequenced_sequence s + 1) |>);;
        encoded ← lift (write_to NetConfig.MaxMessageBytes
                          (write_sequenced_payload (ps_next_sequenced_sequence s) (data_of payload) len));
        srv_finish peer options type
          (srv_message_packet id Channel.SequencedUnreliable type (Some encoded)
             (w16 (zlen encoded)) (so_priority options))
    | _ =>
        srv_finish peer options type
          (srv_message_packet id Channel.Unreliable type (data_of payload) len (so_priority options))
    end
  end.

(** The loop of [broadcast] and [broadcast_except]; [excluded] is the connection
    id that is skipped. *)
Fixpoint broadcast_loop (ids : list U64) (excluded : option U64) (options : SendOptions) (type : U8)
    (payload : list U8) (first_error : Result) : io ServerWorld Result :=
  match ids with
  | [] => mret first_error
  | id :: rest =>
      s ← session id;
      if negb (bool_decide (ps_state s = ConnectionState.Established))
         || bool_decide (Some (ps_conn_id s) = excluded)
      then broadcast_loop rest excluded options type payload first_error
      else
        rc ← attempt (srv_send (make_peer s) options type payload);
        broadcast_loop rest excluded options type payload
          (if negb (ok rc) && ok first_error then rc else first_error)
  end.

Definition broadcast `{Traversal} (excluded : option U64) (options : SendOptions) (type : U8)
    (payload : list U8) : io ServerWorld unit :=
  v ← srv;
  rc ← broadcast_loop (traversal (s_sessions v)) excluded options type payload success;
  if ok rc then mret tt else lift (Err rc).

Definition set_peer_user_data (peer : Peer) (data : Z) : io ServerWorld unit :=
  v ← srv;
  match peer_session peer v with
  | None => fail Errc.Closed "unknown peer session"
  | Some _ => set_session (peer_conn_id peer) (λ s, s <| ps_user_data := data |>)
  end.

(** ** The send budget and [flush_pending] *)

Definition srv_refill (id : U64) (now : U64) : io ServerWorld unit :=
  s ← session id;
  if ps_last_budget_refill_ms s =? 0 then
    set_session id (λ s, s <| ps_last_budget_refill_ms := now |>
                           <| ps_send_budget_bytes :=
                                (if ps_send_budget_bytes s =? 0
                                 then rate_bytes_per_second (ps_congestion s)
                                 else ps_send_budget_bytes s) |>)
  else if now <=? ps_last_budget_refill_ms s then mret tt
  else
    let elapsed_ms := now - ps_last_budget_refill_ms s in
    let refill := w64 (rate_bytes_per_second (ps_congestion s) * elapsed_ms) / 1000 in
    if 0 <? refill then
      set_session id (λ s, s <| ps_send_budget_bytes :=
                                  Z.min (bucket_cap_bytes (ps_congestion s))
                                    (w64 (ps_send_budget_bytes s + refill)) |>
                             <| ps_last_budget_refill_ms := now |>);;
      tally Stat.send_budget_refills
    else mret tt.

(** A congestion signal for the session. *)
Definition srv_congestion (id : U64) (f : CongestionController → outcome CongestionController)
    : io ServerWorld unit :=
  s ← session id;
  cc ← lift (f (ps_congestion s));
  set_session id (λ s, s <| ps_congestion := cc |>).

(** The same, after which the budget is capped again. *)
Definition srv_adapt (id : U64) (f : CongestionController → outcome CongestionController)
    : io ServerWorld unit :=
  srv_congestion id f;;
  set_session id (λ s, s <| ps_send_budget_bytes :=
                              Z.min (ps_send_budget_bytes s) (bucket_cap_bytes (ps_congestion s)) |>).

(** How the scan of the queue ends: a packet left the queue, none did (and
    whether one waits for its budget), or [flush_pending] returns. *)
Inductive scan := Progressed | Exhausted (budget_blocked : bool) | Returned.

(** [_pending.erase(it)] where [pre] is before [it] and [rest] after it. *)
Definition erase_packet (pre : list ServerPacket) (it : ServerPacket) (rest : list ServerPacket)
    : io ServerWorld unit :=
  set_srv (λ v, v <| s_pending_bytes := w64 (s_pending_bytes v - sp_len it) |>
                  <| s_pending := pre ++ rest |>);;
  srv_refresh.

(** The transmission of [it]. *)
Definition transmit (pre : list ServerPacket) (it : ServerPacket) (rest : list ServerPacket)
    (now : U64) (budget_blocked : bool) : io ServerWorld scan :=
  let owner := sp_owner_conn_id it in
  v ← srv;
  (if server_enable_packet_debug_dumps (s_config v)
   then match parse_packet (Some (take (Z.to_nat (sp_len it)) (sp_bytes it))) (sp_len it) with
        | Done packet => srv_packet_debug "send" (sp_to it) packet
        | Err _ => mret tt
        | UB => undefined
        end
   else mret tt);;
  rc ← attempt (os (UdpSocket.send_to (sp_to it) (Some (sp_bytes it)) (sp_len it)));
  if negb (ok rc) then
    if decide (code rc = Errc.WouldBlock) then
      tally Stat.would_block_events;;
      (if owner =? 0 then mret tt else srv_adapt owner (on_backpressure now));;
      when budget_blocked (tally Stat.backpressure_events);;
      srv_refresh;;
      mret Returned
    else
      tally Stat.socket_errors;;
      lift (Err rc)
  else
    (if owner =? 0 then note_preauth_send (sp_to it) (sp_len it) now
     else
       set_session owner (λ s, s <| ps_send_budget_bytes := w64 (ps_send_budget_bytes s - sp_len it) |>
                                 <| ps_last_send_ms := now |>);;
       s ← session owner;
       when (negb (bool_decide (ps_state s = ConnectionState.Established)))
         (note_preauth_send (ps_endpoint s) (sp_len it) now));;
    tally Stat.packets_sent;;
    tally_n Stat.bytes_sent (sp_len it);;
    erase_packet pre it rest;;
    mret Progressed.

(** The inner [for] loop over the queue [pre ++ q]. *)
Fixpoint scan_queue (pre q : list ServerPacket) (now : U64) (budget_blocked : bool)
    : io ServerWorld scan :=
  match q with
  | [] => mret (Exhausted budget_blocked)
  | it :: rest =>
      let owner := sp_owner_conn_id it in
      if owner =? 0 then transmit pre it rest now budget_blocked
      else
        v ← srv;
        match find_session owner v with
        | None => erase_packet pre it rest;; mret Progressed
        | Some _ =>
            srv_refill owner now;;
            s ← session owner;
            if ps_send_budget_bytes s <? sp_len it then
              srv_adapt owner (on_backpressure now);;
              scan_queue (pre ++ [it]) rest now true
            else transmit pre it rest now budget_blocked
        end
  end.

(** The outer [for (;;)]: every iteration that goes on takes a packet out of the
    queue; running out of [fuel] is [UB], excluded by the safety theorem. *)
Fixpoint srv_flush_loop (fuel : nat) : io ServerWorld unit :=
  match fuel with
  | O => undefined
  | S fuel' =>
      now ← os now_ms;
      v ← srv;
      result ← scan_queue [] (s_pending v) now false;
      match result with
      | Progressed => srv_flush_loop fuel'
      | Returned => mret tt
      | Exhausted budget_blocked =>
          (if budget_blocked : bool then
             tally Stat.send_budget_throttles;;
             tally Stat.backpressure_events
           else mret tt);;
          srv_refresh
      end
  end.

Definition srv_flush_pending : io ServerWorld unit :=
  v ← srv; srv_flush_loop (S (length (s_pending v))).

(** ** Retransmission *)

(** The callback passed to [resend_due], as for the client. *)
Definition srv_resend_packet (id : U64) (channel : Channel) (pending : PendingReliableMessage)
    (x : bool * ServerWorld) : Result * (bool * ServerWorld) :=
  match srv_message_packet id channel (p_user_type pending) (Some (p_encoded_payload pending))
          (w16 (zlen (p_encoded_payload pending))) (p_priority pending) x.2 with
  | (Done _, w) => (success, (x.1, w))
  | (Err rc, w) =>
      (if decide (code rc = Errc.QueueFull)
       then fail_result Errc.Backpressure "reliable send backpressure" else rc, (x.1, w))
  | (UB, w) => (fail_result Errc.Internal "undefined", (true, w))
  end.

Definition srv_resend_due (id : U64) (channel : Channel) (now : U64) : io ServerWorld Result :=
  s ← session id;
  let r := if decide (channel = Channel.ReliableOrdered) then ps_ordered_reliable s
           else ps_reliable s in
  '(rc, r') ← ((λ w,
      let '(rc, r', (ub, w1)) := resend_due now (srv_resend_packet id channel) r (false, w) in
      (if ub : bool then UB else Done (rc, r'), w1)) : io ServerWorld (Result * ReliableSession));
  set_session id (λ s, if decide (channel = Channel.ReliableOrdered)
                       then s <| ps_ordered_reliable := r' |> else s <| ps_reliable := r' |>);;
  mret rc.

Definition session_retransmits (s : PeerSession) : U64 :=
  w64 (retransmit_events (rs_loss (ps_reliable s)) + retransmit_events (rs_loss (ps_ordered_reliable s))).
Definition session_losses (s : PeerSession) : U64 :=
  w64 (loss_events (rs_loss (ps_reliable s)) + loss_events (rs_loss (ps_ordered_reliable s))).

Definition srv_tolerate (rc : Result) : io ServerWorld unit :=
  if ok rc then mret tt
  else if decide (code rc = Errc.Backpressure) then tally Stat.backpressure_events
  else lift (Err rc).

(** The body of the loop of [pump_reliable] for an established session. *)
Definition pump_session (id : U64) (now : U64) : io ServerWorld unit :=
  s ← session id;
  let before_retransmits := session_retransmits s in
  let before_losses := session_losses s in
  expired_unordered ← on_reliable id Channel.Reliable
    (λ r, let '(n, r') := expire_old now r in (Done n, r'));
  expired_ordered ← on_reliable id Channel.ReliableOrdered
    (λ r, let '(n, r') := expire_old now r in (Done n, r'));
  (if (0 <? expired_unordered) || (0 <? expired_ordered) then
     tally_n Stat.reliable_expired (w32 (expired_unordered + expired_ordered));;
     tally_n Stat.reliable_messages_dropped (w32 (expired_unordered + expired_ordered));;
     tally_n Stat.ordered_messages_dropped expired_ordered
   else mret tt);;
  rc ← srv_resend_due id Channel.Reliable now;
  srv_tolerate rc;;
  rc ← srv_resend_due id Channel.ReliableOrdered now;
  srv_tolerate rc;;
  s ← session id;
  when (before_retransmits <? session_retransmits s)
    (tally_n Stat.reliable_retransmits (session_retransmits s - before_retransmits));;
  if before_losses <? session_losses s then
    let losses := session_losses s - before_losses in
    tally_n Stat.reliable_loss_events losses;;
    srv_adapt id (on_loss now losses)
  else mret tt.

Fixpoint pump_sessions (ids : list U64) (now : U64) : io ServerWorld unit :=
  match ids with
  | [] => mret tt
  | id :: rest =>
      s ← session id;
      (if negb (bool_decide (ps_state s = ConnectionState.Established)) then mret tt
       else pump_session id now);;
      pump_sessions rest now
  end.

Definition srv_pump_reliable `{Traversal} : io ServerWorld unit :=
  now ← os now_ms;
  v ← srv;
  pump_sessions (traversal (s_sessions v)) now;;
  srv_refresh.
End server.
