(* ===== verification/ServerRecv.v ===== *)
(** * The server: receiving and the tick

    The rest of [src/securecnet/lib/server.cpp]: delivery of messages, closing
    and eviction of sessions, the handshake, the receive loop, housekeeping,
    [listen], [stop] and [tick]. *)
From S2P Require Import Prelude Result ByteBuf Config Message Packet Protocol Windows Payloads.
From S2P Require Import Reliability Ordered Fragmentation Congestion Crypto Stats Endpoint Socket.
From S2P Require Import Client ClientRecv Server ServerSend.
#[local] Open Scope Z_scope.

(** ** Delivery to the application *)

(** The callbacks [emit_message] makes for [m], newest first. *)
Definition srv_message_events (cb : ServerCallbacks) (peer : Peer) (m : MsgView) : list ServerEvent :=
  (if scb_on_message cb then [SrvOnMessage peer m] else [])
  ++ (if bool_decide (m_type m ∈ scb_binary cb) then [SrvOnBinary peer m] else [])
  ++ (if bool_decide (m_type m ∈ scb_text cb) then [SrvOnText peer (m_type m) (msg_bytes m)] else []).

Definition srv_emit_message (cb : ServerCallbacks) (peer : Peer) (m : MsgView)
    (log : list ServerEvent) : list ServerEvent :=
  srv_message_events cb peer m ++ log.

(** The callback passed to [session.ordered.accept]; its state is the log and
    [released]. *)
Definition srv_deliver_ordered (cb : ServerCallbacks) (peer : Peer) (type : U8) (data : ptr)
    (len : U16) (x : list ServerEvent * U64) : Result * (list ServerEvent * U64) :=
  (success,
   (srv_emit_message cb peer (mkMsgView Channel.ReliableOrdered type data len) x.1, w64 (x.2 + 1))).

(** What a delivery works on: the session, the statistics and the log. *)
Record Delivery := mkDelivery {
  dv_session : PeerSession;
  dv_stats : TransportStats;
  dv_events : list ServerEvent;
}.

Definition dv_count (f : Stat) (n : U64) (d : Delivery) : Delivery :=
  mkDelivery (dv_session d) (stat_add f n (dv_stats d)) (dv_events d).

Definition srv_deliver_message (cb : ServerCallbacks) (channel : Channel) (type : U8) (data : ptr)
    (len : U16) (delivery_sequence : U64) (d : Delivery) : Result * Delivery :=
  let s := dv_session d in
  let peer := make_peer s in
  if decide (channel = Channel.ReliableOrdered) then
    let d1 := dv_count Stat.ordered_messages_received 1 d in
    let a := accept_ordered (srv_deliver_ordered cb peer) delivery_sequence type data len
               (ps_ordered s) (dv_events d, 0) in
    let '(events, released) := oa_state a in
    let d2 := mkDelivery (s <| ps_ordered := oa_window a |>) (dv_stats d1) events in
    if negb (ok (oa_rc a)) then
      let d3 := dv_count Stat.ordered_messages_dropped 1 d2 in
      if decide (code (oa_rc a) = Errc.QueueFull)
      then (success, dv_count Stat.backpressure_events 1 d3)
      else (oa_rc a, d3)
    else
      let d3 := if oa_buffered a then dv_count Stat.ordered_messages_buffered 1 d2 else d2 in
      let d4 := if oa_stale a then dv_count Stat.ordered_messages_dropped 1 d3 else d3 in
      (success, dv_count Stat.ordered_messages_released released d4)
  else if decide (channel = Channel.SequencedUnreliable) then
    let d1 := dv_count Stat.sequenced_messages_received 1 d in
    let '(fresh, w) := Sequenced.accept delivery_sequence (ps_sequenced s) in
    let d2 := mkDelivery (s <| ps_sequenced := w |>) (dv_stats d1) (dv_events d1) in
    if negb fresh then (success, dv_count Stat.sequenced_messages_dropped 1 d2)
    else (success, mkDelivery (dv_session d2) (dv_stats d2)
           (srv_emit_message cb peer (mkMsgView Channel.SequencedUnreliable type data len)
              (dv_events d2)))
  else
    (success, mkDelivery s (dv_stats d)
       (srv_emit_message cb peer (mkMsgView channel type data len) (dv_events d))).

Definition srv_deliver_reassembled (cb : ServerCallbacks) (message : FragmentedMessage)
    (d : Delivery) : Result * Delivery :=
  srv_deliver_message cb (fm_channel message) (fm_type message)
    (data_of (fm_payload message)) (w16 (zlen (fm_payload message)))
    (fm_delivery_sequence message)
    (dv_count Stat.fragmented_messages_received 1 d).

(** Run a step on the session [id], the statistics and the log. *)
Definition on_delivery {A} (id : U64) (f : ServerCallbacks → Delivery → A * Delivery)
    : io ServerWorld A :=
  s ← session id;
  v ← srv;
  '(a, d) ← ((λ w, let '(a, d) := f (s_callbacks v) (mkDelivery s (s_stats v) (sw_events w)) in
                   (Done (a, d), mkServerWorld (sw_server w) (sw_net w) (dv_events d)))
             : io ServerWorld (A * Delivery));
  set_session id (λ _, dv_session d);;
  set_srv (λ v, v <| s_stats := dv_stats d |>);;
  mret a.

(** [session.reassembler.accept(...)] *)
Definition srv_reassemble (id : U64) (now : U64) (fragment : FragmentView)
    : io ServerWorld (outcome unit * bool * bool) :=
  r ← on_delivery id (λ cb d,
        let r := accept_fragment (srv_deliver_reassembled cb) now fragment
                   (ps_reassembler (dv_session d)) d in
        ((re_rc r, re_duplicate r, re_completed r),
         mkDelivery (dv_session (re_x r) <| ps_reassembler := re_state r |>)
           (dv_stats (re_x r)) (dv_events (re_x r))));
  match r.1.1 with UB => undefined | _ => mret r end.

Definition srv_handle_fragment (id : U64) (fragment : FragmentView) : io ServerWorld unit :=
  s ← session id;
  v ← srv;
  if negb (contains (fr_message_id fragment) (ps_reassembler s))
     && (max_total_reassembly_memory_server (server_abuse (s_config v))
         <? w64 (total_reassembly_memory_bytes v + fr_original_length fragment))
  then
    tally Stat.reassembly_memory_rejections;;
    tally Stat.reassembly_drops
  else
    now ← os now_ms;
    '(rc, duplicate, completed) ← srv_reassemble id now fragment;
    match rc with
    | Err rc =>
        if decide (code rc = Errc.QueueFull) then
          tally Stat.reassembly_memory_rejections;;
          tally Stat.reassembly_drops
        else if decide (code rc = Errc.TooLarge) then
          tally Stat.fragment_invalid_sets;;
          tally Stat.reassembly_drops
        else
          tally Stat.fragment_invalid_sets;;
          lift (Err rc)
    | _ =>
        when duplicate (tally Stat.fragment_duplicates);;
        when completed (tally Stat.reassemblies_completed)
    end.

Section server.
Context `{Ntop} `{Sodium}.

(** ** Closing and eviction *)

Definition close_session (id : U64) (reason : CloseReason) (send_close : bool)
    : io ServerWorld unit :=
  set_session id (λ s, s <| ps_close_reason := reason |>);;
  s ← session id;
  if send_close && negb (bool_decide (ps_state s = ConnectionState.Closed)) then
    let encrypted := bool_decide (ps_state s = ConnectionState.Established)
                     || bool_decide (ps_state s = ConnectionState.Closing) in
    seq ← (if encrypted then next_seq id else next_stateless);
    attempt (srv_close_packet (ps_endpoint s) (ps_conn_id s) reason encrypted
               (if encrypted then Some (ps_keys s) else None) seq SendPriority.High (ps_conn_id s));;
    transition_session id ConnectionState.Closing
  else transition_session id ConnectionState.Closed.

(** The session is wiped and erased. *)
Definition evict_session (id : U64) : io ServerWorld unit :=
  v ← srv;
  match find_session id v with
  | None => mret tt
  | Some s =>
      set_srv (λ v,
        v <| s_endpoint_to_conn :=
               filter (λ p, ep_eqb p.1 (ps_endpoint s) = false) (s_endpoint_to_conn v) |>
          <| s_sessions := delete id (s_sessions v) |>);;
      tally Stat.peers_evicted;;
      srv_refresh
  end.

Definition doomed (cfg : ServerConfig) (now : U64) (s : PeerSession) : bool :=
  bool_decide (ps_state s = ConnectionState.Closed)
  || (bool_decide (ps_state s = ConnectionState.Closing) && negb (ps_last_send_ms s =? 0)
      && (server_close_drain_ms cfg <=? w64 (now - ps_last_send_ms s))).

Fixpoint evict_all (ids : list U64) : io ServerWorld unit :=
  match ids with
  | [] => mret tt
  | id :: rest => evict_session id;; evict_all rest
  end.

Definition evict_stale_sessions `{Traversal} : io ServerWorld unit :=
  now ← os now_ms;
  v ← srv;
  evict_all (filter (λ id, from_option (doomed (s_config v) now) false (s_sessions v !! id) = true)
               (traversal (s_sessions v))).

(** [for (;;)] over random candidates: the draws of the script that are taken
    are rejected; when the script ends, the first free id stands for the one
    that is drawn at last. *)
Definition fresh_conn_id (m : gmap U64 PeerSession) : U64 :=
  default 1 (head (filter (λ i, m !! i = None) (seqZ 1 (Z.of_nat (S (size m)))))).
Fixpoint draw_conn_id (fuel : nat) (m : gmap U64 PeerSession) : io Net U64 :=
  match fuel with
  | O => mret (fresh_conn_id m)
  | S fuel' =>
      bytes ← random_bytes 8;
      let candidate := be_value bytes in
      if candidate =? 0 then draw_conn_id fuel' m
      else if bool_decide (m !! candidate = None) then mret candidate
      else draw_conn_id fuel' m
  end.
Definition allocate_conn_id : io ServerWorld U64 :=
  v ← srv; os (λ n, draw_conn_id (length (n_random n)) (s_sessions v) n).

Definition find_session_by_endpoint (e : Endpoint) (v : Server) : option PeerSession :=
  p ← head (filter (λ p, ep_eqb p.1 e = true) (s_endpoint_to_conn v));
  find_session p.2 v.

(** ** Dispatching message frames *)

(** [++_stats.f; close_session(session, reason, true);] *)
Definition tally_and_close (f : Stat) (id : U64) (reason : CloseReason) : io ServerWorld unit :=
  tally f;; close_session id reason true.

Definition srv_deliver_or_close (id : U64) (channel : Channel) (type : U8) (data : ptr) (len : U16)
    (delivery_sequence : U64) : io ServerWorld unit :=
  rc ← on_delivery id (λ cb, srv_deliver_message cb channel type data len delivery_sequence);
  when (negb (ok rc)) (tally_and_close Stat.protocol_errors id CloseReason.ProtocolError).

Definition srv_fragment_or_close (id : U64) (fragment : FragmentView) : io ServerWorld unit :=
  tally Stat.fragments_received;;
  rc ← attempt (srv_handle_fragment id fragment);
  when (negb (ok rc)) (tally_and_close Stat.bad_packets id CloseReason.InvalidPacket).

Definition srv_dispatch_control (id : U64) (msg : MsgView) : io ServerWorld unit :=
  if m_type msg =? ControlType.ReliableAck then
    match read_from (m_data msg) (m_len msg) read_reliable_ack with
    | UB => undefined
    | Err _ => tally_and_close Stat.bad_packets id CloseReason.InvalidPacket
    | Done (ack_channel, acked_message_id) =>
        ack_now ← os now_ms;
        ack ← on_reliable id ack_channel (acknowledge acked_message_id ack_now);
        (if ev_removed ack then
           tally Stat.reliable_acks_received;;
           srv_congestion id (on_ack (ev_rtt_sample_valid ack) (ev_rtt_sample_ms ack)
                                (ev_retransmitted ack))
         else mret tt);;
        srv_refresh
    end
  else if m_type msg =? ControlType.Fragment then
    match read_from (m_data msg) (m_len msg) read_fragment_payload with
    | UB => undefined
    | Err _ => tally_and_close Stat.bad_packets id CloseReason.InvalidPacket
    | Done fragment => srv_fragment_or_close id fragment
    end
  else tally_and_close Stat.protocol_errors id CloseReason.ProtocolError.

Definition srv_deliver_reliable (id : U64) (msg : MsgView) (reliable : PayloadView)
    : io ServerWorld unit :=
  match (if m_type msg =? ControlType.Fragment
         then read_from (pl_data reliable) (pl_len reliable) read_fragment_payload
         else Err success) with
  | UB => undefined
  | Done fragment => srv_fragment_or_close id fragment
  | Err _ =>
      if decide (m_channel msg = Channel.ReliableOrdered) then
        match read_from (pl_data reliable) (pl_len reliable) read_ordered_payload with
        | UB => undefined
        | Err _ => tally_and_close Stat.bad_packets id CloseReason.InvalidPacket
        | Done ordered =>
            srv_deliver_or_close id Channel.ReliableOrdered (m_type msg) (pl_data ordered)
              (pl_len ordered) (pl_id ordered)
        end
      else
        srv_deliver_or_close id Channel.Reliable (m_type msg) (pl_data reliable) (pl_len reliable) 0
  end.

Definition srv_dispatch_frame (id : U64) (msg : MsgView) : io ServerWorld unit :=
  match m_channel msg with
  | Channel.Control => srv_dispatch_control id msg
  | Channel.Reliable | Channel.ReliableOrdered =>
      match read_from (m_data msg) (m_len msg) read_reliable_payload with
      | UB => undefined
      | Err _ => tally_and_close Stat.bad_packets id CloseReason.InvalidPacket
      | Done reliable =>
          attempt (srv_control_ack id (m_channel msg) (pl_id reliable));;
          fresh ← on_reliable id (m_channel msg)
                    (λ r, let '(b, r') := accept_incoming (pl_id reliable) r in (Done b, r'));
          if negb fresh then mret tt
          else
            tally Stat.reliable_messages_delivered;;
            srv_deliver_reliable id msg reliable
      end
  | Channel.SequencedUnreliable =>
      match read_from (m_data msg) (m_len msg) read_sequenced_payload with
      | UB => undefined
      | Err _ => tally_and_close Stat.bad_packets id CloseReason.InvalidPacket
      | Done sequenced =>
          srv_deliver_or_close id Channel.SequencedUnreliable (m_type msg) (pl_data sequenced)
            (pl_len sequenced) (pl_id sequenced)
      end
  | Channel.Unreliable =>
      srv_deliver_or_close id (m_channel msg) (m_type msg) (m_data msg) (m_len msg) 0
  end.

(** The loop of [dispatch_message_payload]; [fuel] as for the client. *)
Fixpoint srv_dispatch_loop (fuel : nat) (id : U64) (reader : ByteReader) : io ServerWorld unit :=
  match fuel with
  | O => undefined
  | S fuel' =>
      match read_message reader with
      | (UB, _) => undefined
      | (Err rc, _) =>
          if decide (code rc = Errc.EndOfStream) then mret tt
          else tally_and_close Stat.bad_packets id CloseReason.InvalidPacket
      | (Done msg, reader') =>
          tally Stat.message_frames_received;;
          srv_dispatch_frame id msg;;
          s ← session id;
          if decide (ps_state s = ConnectionState.Closed) then mret tt
          else srv_dispatch_loop fuel' id reader'
      end
  end.

Definition srv_dispatch_payload (id : U64) (payload : ptr) (payload_len : ST) : io ServerWorld unit :=
  srv_dispatch_loop (S (Z.to_nat payload_len)) id (mkReader payload payload_len 0).

(** ** The handshake *)

(** The reliability limits of a session: the byte budget is also bounded by the
    abuse limits. *)
Definition session_reliability (cfg : ServerConfig) : ReliabilityConfig :=
  let r := server_reliability cfg in
  mkReliabilityConfig (initial_rto_ms r) (min_rto_ms r) (max_rto_ms r) (max_pending_messages r)
    (Z.min (max_pending_bytes r) (max_queued_reliable_bytes_per_peer (server_abuse cfg)))
    (max_inflight_messages r) (ordered_receive_window r).

(** The [PeerSession] that [handle_client_hello] fills in, before its keys. *)
Definition new_session (cfg : ServerConfig) (from : Endpoint) (hello : ClientHello)
    (resumed : bool) (id peer_id now : U64) (nonce : list U8) : outcome PeerSession :=
  let? cc := configure_congestion (server_congestion cfg)
               (server_send_budget_bytes_per_second cfg) new_congestion in
  let retry := negb resumed && ch_has_retry_token hello in
  let resumption := resumed && ch_has_resumption_token hello in
  let rel := session_reliability cfg in
  Done (mkPeerSession from id peer_id 0 ConnectionState.Idle CloseReason.Normal now now 0 1
    (rate_bytes_per_second cc) now cc 1 1 1
    retry (if retry then ch_retry_token hello else default_retry_token)
    resumption (if resumption then ch_resumption_token hello else default_resumption_token)
    default_keypair default_session_keys (client_nonce hello) nonce (client_public_key hello)
    fresh_window (configure rel new_reliable_session) (configure rel new_reliable_session)
    (set_max_buffered (ordered_receive_window (server_reliability cfg)) (new_ordered 64))
    fresh_sequenced (configure_reassembler (server_fragmentation cfg) new_reassembler)).

(** Its keys: those of the exchange, the ephemeral secret wiped. *)
Definition with_keys (keypair : KeyPair) (keys : SessionKeys) (s : PeerSession) : PeerSession :=
  mkPeerSession (ps_endpoint s) (ps_conn_id s) (ps_peer_id s) (ps_user_data s) (ps_state s)
    (ps_close_reason s) (ps_created_ms s) (ps_last_recv_ms s) (ps_last_send_ms s) (ps_send_seq s)
    (ps_send_budget_bytes s) (ps_last_budget_refill_ms s) (ps_congestion s)
    (ps_next_fragment_message_id s) (ps_next_ordered_sequence s) (ps_next_sequenced_sequence s)
    (ps_had_retry_token s) (ps_retry_token s) (ps_had_resumption_token s) (ps_resumption_token s)
    (mkKeyPair (kp_public keypair) (crypto_secure_zero (kp_secret keypair))) keys
    (ps_client_nonce s) (ps_server_nonce s) (ps_client_public_key s) (ps_packet_window s)
    (ps_reliable s) (ps_ordered_reliable s) (ps_ordered s) (ps_sequenced s) (ps_reassembler s).

(** [_endpoint_to_conn[from] = conn_id] *)
Definition bind_endpoint (from : Endpoint) (id : U64) (m : list (Endpoint * U64))
    : list (Endpoint * U64) :=
  (from, id) :: filter (λ p, ep_eqb p.1 from = false) m.

(** From the allocation of the connection id to the server hello. *)
Definition create_session (from : Endpoint) (hello : ClientHello) (resumed : bool) (now : U64)
    : io ServerWorld unit :=
  id ← allocate_conn_id;
  v ← srv;
  set_srv (λ v, v <| s_next_peer_id :=
                       (if w64 (s_next_peer_id v + 1) =? 0 then 1 else w64 (s_next_peer_id v + 1)) |>);;
  nonce ← os (random_bytes NetConfig.ServerNonceBytes);
  s0 ← lift (new_session (s_config v) from hello resumed id (s_next_peer_id v) now nonce);
  random ← os (random_bytes 32);
  keypair ← lift (crypto_generate_keypair random);
  keys ← lift (crypto_derive_server_session_keys keypair (Some (client_public_key hello))
                 (Z.of_nat NetConfig.KeyExchangePublicKeyBytes));
  let s := with_keys keypair keys s0 <| ps_state := ConnectionState.Handshaking |> in
  announce (make_peer s) ConnectionState.Idle ConnectionState.Handshaking CloseReason.Normal;;
  set_srv (λ v, v <| s_endpoint_to_conn := bind_endpoint from id (s_endpoint_to_conn v) |>
                  <| s_sessions := <[id := s]> (s_sessions v) |>);;
  report (SessionCreated id);;
  srv_refresh;;
  rc ← attempt (queue_server_hello id);
  if ok rc then mret tt else evict_session id;; lift (Err rc).

(** The capacity checks before a session is created. *)
Definition sessions_for_host (v : Server) (from : Endpoint) : U32 :=
  w32 (zlen (filter (λ s, endpoint_host_key (ps_endpoint s) = endpoint_host_key from)
               (map_to_list (s_sessions v)).*2)).

Definition admit_session `{Traversal} (from : Endpoint) (hello : ClientHello) (resumed : bool)
    (now : U64) : io ServerWorld unit :=
  evict_stale_sessions;;
  v ← srv;
  if server_max_peer_sessions (s_config v) <=? Z.of_nat (size (s_sessions v)) then
    tally Stat.dropped_packets;;
    refuse from 0 CloseReason.Backpressure
  else if max_sessions_per_ip (server_abuse (s_config v)) <=? sessions_for_host v from then
    tally Stat.rate_limited_packets;;
    tally Stat.dropped_packets;;
    refuse from 0 CloseReason.RateLimited
  else
    match find_session_by_endpoint from v with
    | Some existing => evict_session (ps_conn_id existing)
    | None => mret tt
    end;;
    create_session from hello resumed now.

(** A hello without a valid resumption token: a retry token is demanded. *)
Definition check_retry `{Traversal} (from : Endpoint) (hello : ClientHello) (now : U64)
    : io ServerWorld unit :=
  v ← srv;
  let retry := token ← lift (make_retry_token v from hello now); queue_retry from token in
  if negb (ch_has_retry_token hello) then retry
  else
    match validate_retry_token v from hello (ch_retry_token hello) now with
    | UB => undefined
    | Err rc =>
        if decide (code rc = Errc.Timeout) then refuse from 0 CloseReason.CookieExpired
        else attempt retry;; mret tt
    | Done _ => admit_session from hello false now
    end.

Definition handle_client_hello `{Traversal} (from : Endpoint) (hello : ClientHello)
    : io ServerWorld unit :=
  now ← os now_ms;
  if ch_has_retry_token hello && ch_has_resumption_token hello
  then fail Errc.BadPacket "client hello cannot include both retry and resumption token"
  else
    banned ← endpoint_is_banned from now;
    if banned : bool then tally Stat.dropped_packets
    else
      limited ← endpoint_rate_limited from now;
      if limited : bool then mret tt
      else
        report (HelloAdmitted from now);;
        v ← srv;
        if server_enable_session_resumption (s_config v) && ch_has_resumption_token hello
           && negb (ch_has_retry_token hello)
        then
          tally Stat.session_resumptions_attempted;;
          match validate_resumption_token v from (ch_resumption_token hello) now with
          | UB => undefined
          | Done _ =>
              tally Stat.session_resumptions_accepted;;
              admit_session from hello true now
          | Err _ =>
              tally Stat.session_resumptions_rejected;;
              check_retry from hello now
          end
        else check_retry from hello now.

Definition srv_handle_handshake `{Traversal} (from : Endpoint) (packet : PacketView)
    : io ServerWorld unit :=
  let h := pv_h packet in
  if packet_header_encrypted h
  then fail Errc.ProtocolError "encrypted handshake packet is illegal"
  else if bool_decide (pv_payload packet = None) || (payload_len h =? 0)
  then fail Errc.BadPacket "empty handshake packet"
  else
    hello ← lift (read_from (pv_payload packet) (payload_len h) read_client_hello);
    if negb (conn_id h =? 0)
    then fail Errc.ProtocolError "client hello must use conn_id 0"
    else handle_client_hello from hello.

(** ** Session traffic *)

(** The [switch] on the packet kind. *)
Definition srv_dispatch_kind (id : U64) (k : U8) (logical : PacketView) : io ServerWorld unit :=
  let len := payload_len (pv_h logical) in
  if k =? kind_value PacketKind.Raw then mret tt
  else if k =? kind_value PacketKind.Message then srv_dispatch_payload id (pv_payload logical) len
  else if k =? kind_value PacketKind.Keepalive then tally Stat.keepalives_received
  else if k =? kind_value PacketKind.Close then
    match read_from (pv_payload logical) len read_close_frame with
    | UB => undefined
    | Err rc => tally Stat.bad_packets;; lift (Err rc)
    | Done reason =>
        tally Stat.closes_received;;
        s ← session id;
        if negb (bool_decide (ps_state s = ConnectionState.Closing))
        then close_session id reason true
        else transition_session id ConnectionState.Closed
    end
  else if k =? kind_value PacketKind.Handshake
  then fail Errc.ProtocolError "handshake packet in secure path"
  else fail Errc.ProtocolError "unknown secure packet kind".

Definition handle_session_packet (id : U64) (packet : PacketView) : io ServerWorld unit :=
  let h := pv_h packet in
  s ← session id;
  if kind h =? kind_value PacketKind.Handshake
  then fail Errc.ProtocolError "handshake packet not allowed for session"
  else if negb (packet_header_encrypted h)
  then fail Errc.ProtocolError "unencrypted secure packet"
  else if negb (conn_id h =? ps_conn_id s)
  then fail Errc.ProtocolError "connection id mismatch"
  else
    match open_payload (ps_keys s) packet with
    | UB => undefined
    | Err rc =>
        tally Stat.auth_failures;;
        tally Stat.decrypt_failures;;
        lift (Err rc)
    | Done plaintext =>
        if seq h =? 0 then fail Errc.ProtocolError "encrypted packet sequence is invalid"
        else
          let '(fresh, window) := ReplayWindow.accept (seq h) (ps_packet_window s) in
          set_session id (λ s, s <| ps_packet_window := window |>);;
          if negb fresh then
            tally Stat.replays_dropped;;
            fail Errc.Replay "replayed packet"
          else
            now ← os now_ms;
            set_session id (λ s, s <| ps_last_recv_ms := now |>);;
            (if bool_decide (ps_state s = ConnectionState.Handshaking) then
               transition_session id ConnectionState.Established;;
               tally Stat.handshake_successes;;
               tally Stat.sessions_established
             else mret tt);;
            let logical :=
              mkPacketView
                (mkPacketHeader (magic h) (version h) (kind h) (flags h) (conn_id h) (seq h)
                   (w32 (zlen plaintext)))
                (data_of plaintext) in
            srv_on_packet (ps_endpoint s) logical;;
            srv_packet_debug "recv" (ps_endpoint s) logical;;
            srv_dispatch_kind id (kind h) logical
    end.

(** [if (auto* session = find_session(conn_id)) close_session(session, reason, true);] *)
Definition close_if_known (conn_id : U64) (reason : CloseReason) : io ServerWorld unit :=
  v ← srv;
  match find_session conn_id v with
  | Some _ => close_session conn_id reason true
  | None => mret tt
  end.

(** The reaction to a failed handler. *)
Definition srv_handle_error (from : Endpoint) (conn_id : U64) (now : U64) (rc : Result)
    : io ServerWorld unit :=
  match code rc with
  | Errc.AuthFailed =>
      note_invalid_packet from now;;
      close_if_known conn_id CloseReason.AuthenticationFailed
  | Errc.StateError =>
      tally Stat.protocol_errors;;
      note_invalid_packet from now;;
      close_if_known conn_id CloseReason.StateViolation
  | Errc.ProtocolError =>
      tally Stat.protocol_errors;;
      note_invalid_packet from now;;
      close_if_known conn_id CloseReason.ProtocolError
  | Errc.BadPacket | Errc.Truncated =>
      tally Stat.bad_packets;;
      note_invalid_packet from now;;
      when (negb (conn_id =? 0)) (close_if_known conn_id CloseReason.InvalidPacket)
  | _ => mret tt
  end.

Definition srv_handle_packet `{Traversal} (from : Endpoint) (packet : PacketView)
    : io ServerWorld unit :=
  let h := pv_h packet in
  now ← os now_ms;
  banned ← endpoint_is_banned from now;
  if banned : bool then tally Stat.dropped_packets
  else
    rc ← attempt
      (if kind h =? kind_value PacketKind.Handshake then
         srv_on_packet from packet;;
         srv_packet_debug "recv" from packet;;
         srv_handle_handshake from packet
       else if conn_id h =? 0
       then fail Errc.ProtocolError "secure packet missing conn_id"
       else
         v ← srv;
         match find_session (conn_id h) v with
         | Some s =>
             if ep_eqb (ps_endpoint s) from then handle_session_packet (conn_id h) packet
             else
               refuse from (conn_id h) CloseReason.UnknownConnection;;
               fail Errc.Closed "unknown session"
         | None =>
             refuse from (conn_id h) CloseReason.UnknownConnection;;
             fail Errc.Closed "unknown session"
         end);
    if ok rc then mret tt else srv_handle_error from (conn_id h) now rc.

(** Bytes count towards the amplification budget of hosts without a session. *)
Definition note_receive (from : Endpoint) (h : PacketHeader) (len : U64) : io ServerWorld unit :=
  v ← srv;
  let unverified :=
    (kind h =? kind_value PacketKind.Handshake) || (conn_id h =? 0)
    || match find_session (conn_id h) v with
       | Some s => negb (bool_decide (ps_state s = ConnectionState.Established))
       | None => true
       end in
  if unverified then now ← os now_ms; note_preauth_receive from len now else mret tt.

(** The loop of [pump_receive]; [fuel] as for the client. *)
Fixpoint srv_receive_loop `{Traversal} (fuel : nat) : io ServerWorld unit :=
  match fuel with
  | O => undefined
  | S fuel' => λ w,
      match os (UdpSocket.recv_from NetConfig.MaxPacketBytes) w with
      | (UB, w1) => (UB, w1)
      | (Err rc, w1) =>
          (if decide (code rc = Errc.WouldBlock) then tally Stat.would_block_events
           else if decide (code rc = Errc.Truncated) then
             tally Stat.truncated_datagrams;; srv_receive_loop fuel'
           else tally Stat.socket_errors;; lift (Err rc)) w1
      | (Done (from, bytes), w1) =>
          (tally Stat.packets_received;;
           tally_n Stat.bytes_received (zlen bytes);;
           match parse_packet (Some bytes) (zlen bytes) with
           | UB => undefined
           | Err rc =>
               now ← os now_ms;
               note_preauth_receive from (zlen bytes) now;;
               (if decide (code rc = Errc.UnsupportedVersion) then
                  tally Stat.unsupported_version_packets;;
                  refuse from 0 CloseReason.UnsupportedVersion
                else
                  tally Stat.bad_packets;;
                  now ← os now_ms;
                  note_invalid_packet from now);;
               srv_receive_loop fuel'
           | Done packet =>
               note_receive from (pv_h packet) (zlen bytes);;
               srv_handle_packet from packet;;
               srv_receive_loop fuel'
           end) w1
      end
  end.

Definition srv_pump_receive `{Traversal} : io ServerWorld unit := λ w,
  srv_receive_loop (S (length (n_inbox (sw_net w)))) w.

(** ** Housekeeping *)

Definition srv_expire_reassemblies (id : U64) (now : U64) : io ServerWorld unit :=
  on_delivery id (λ _ d,
    let on_expire (_ : U64) (s : TransportStats) :=
      stat_add Stat.reassembly_drops 1 (stat_add Stat.reassemblies_expired 1 s) in
    let r := ps_reassembler (dv_session d) in
    let '(r', st) := expire_entries now on_expire (map_to_list (ra_entries r)).*1 r (dv_stats d) in
    (tt, mkDelivery (dv_session d <| ps_reassembler := r' |>) st (dv_events d))).

(** The body of the loop over the sessions. *)
Definition housekeep_session (id : U64) (now : U64) : io ServerWorld unit :=
  srv_expire_reassemblies id now;;
  s ← session id;
  v ← srv;
  let cfg := s_config v in
  match ps_state s with
  | ConnectionState.Handshaking =>
      when (server_handshake_timeout_ms cfg <? w64 (now - ps_created_ms s))
        (tally_and_close Stat.establish_timeouts id CloseReason.EstablishTimeout)
  | ConnectionState.Established =>
      if negb (ps_last_recv_ms s =? 0)
         && (server_idle_timeout_ms cfg <? w64 (now - ps_last_recv_ms s))
      then tally_and_close Stat.idle_timeouts id CloseReason.IdleTimeout
      else
        when ((ps_last_send_ms s =? 0)
              || (server_keepalive_interval_ms cfg <=? w64 (now - ps_last_send_ms s)))
          (srv_keepalive id)
  | ConnectionState.Closing =>
      when (negb (ps_last_send_ms s =? 0)
            && (server_close_drain_ms cfg <=? w64 (now - ps_last_send_ms s)))
        (transition_session id ConnectionState.Closed)
  | ConnectionState.Idle | ConnectionState.Closed => mret tt
  end.

Fixpoint housekeep_sessions (ids : list U64) (now : U64) : io ServerWorld unit :=
  match ids with
  | [] => mret tt
  | id :: rest => housekeep_session id now;; housekeep_sessions rest now
  end.

(** The entries that the clean-up of [_preauth] and [_ip_abuse] keeps. *)
Definition keep_preauth (cfg : ServerConfig) (now : U64) (p : PreauthBudgetState) : bool :=
  (now <? pb_last_seen_ms p) || (now - pb_last_seen_ms p <=? server_idle_timeout_ms cfg).
Definition keep_abuse (now : U64) (a : IpAbuseState) : bool :=
  (now <? ab_banned_until_ms a)
  || negb (((ab_window_started_ms a =? 0) || (5000 <? w64 (now - ab_window_started_ms a)))
           && (ab_handshakes_in_window a =? 0) && (ab_invalid_penalty_score a =? 0)).

Definition srv_run_housekeeping `{Traversal} : io ServerWorld unit :=
  now ← os now_ms;
  v ← srv;
  housekeep_sessions (traversal (s_sessions v)) now;;
  set_srv (λ v, v <| s_preauth := filter (λ '(_, p), keep_preauth (s_config v) now p = true)
                                    (s_preauth v) |>
                  <| s_ip_abuse := filter (λ '(_, a), keep_abuse now a = true) (s_ip_abuse v) |>);;
  evict_stale_sessions;;
  srv_refresh.

Definition srv_tick `{Traversal} : io ServerWorld unit :=
  srv_flush_pending;;
  srv_pump_reliable;;
  srv_pump_receive;;
  srv_run_housekeeping.

(** ** Public operations *)

Definition close_peer (peer : Peer) (reason : CloseReason) : io ServerWorld unit :=
  v ← srv;
  match peer_session peer v with
  | None => fail Errc.Closed "unknown peer session"
  | Some _ => close_session (peer_conn_id peer) reason true
  end.

(** The tables that [stop] and [listen] empty. *)
Definition clear_tables (v : Server) : Server :=
  v <| s_pending := [] |>
    <| s_pending_bytes := 0 |>
    <| s_sessions := ∅ |>
    <| s_endpoint_to_conn := [] |>
    <| s_ip_abuse := ∅ |>
    <| s_preauth := ∅ |>.

Definition srv_stop : io ServerWorld unit :=
  set_srv clear_tables;;
  os UdpSocket.close;;
  set_srv (λ v, v <| s_stateless_seq := 1 |>);;
  srv_refresh.

Definition listen (runtime : Result) (bind_ep : Endpoint) : io ServerWorld unit :=
  if negb (ok (runtime_status runtime)) then lift (Err (runtime_status runtime))
  else
    v ← srv;
    let rc := validate_server_config (s_config v) in
    if negb (ok rc) then lift (Err rc)
    else
      srv_stop;;
      os (UdpSocket.open (sa_family bind_ep));;
      os (UdpSocket.bind_to bind_ep);;
      os (UdpSocket.set_nonblocking true);;
      set_srv (λ v, clear_tables (v <| s_stateless_seq := 1 |>));;
      secret ← os (random_bytes NetConfig.CookieSecretBytes);
      set_srv (λ v, v <| s_cookie_secret := secret |> <| s_stats := reset_stats |>);;
      srv_refresh;;
      srv_log LogLevel.Info "server listening".

(** [Server(config)] *)
Definition new_server (config : ServerConfig) : Server :=
  let v := mkServer config 1 1 0 no_server_callbacks [] ∅ [] ∅ ∅
             (zeros NetConfig.CookieSecretBytes) reset_stats in
  v <| s_stats := server_gauges v |>.
End server.
