(* ===== verification/ServerInv.v ===== *)
(** * The server: invariant

    An invariant of the server, of its tables and of the log of its calls, and
    the proof that bookkeeping, abuse limits, tokens and the send queue are
    [Safe] for it. *)
From stdpp Require Import sorting.
From S2P Require Import Prelude Result Hoare ByteBuf Config Message Packet Protocol Windows Payloads.
From S2P Require Import Reliability Ordered Fragmentation Congestion Crypto Stats Endpoint Socket.
From S2P Require Import Client ClientRecv ClientInv ClientSafe Server ServerSend ServerRecv.
#[local] Open Scope Z_scope.

(** Read fields of updated sessions and servers. *)
Ltac sfields :=
  cbn [assign assign_ps_user_data assign_ps_state assign_ps_close_reason assign_ps_last_recv_ms
    assign_ps_last_send_ms assign_ps_send_seq assign_ps_send_budget_bytes
    assign_ps_last_budget_refill_ms assign_ps_congestion assign_ps_next_fragment_message_id
    assign_ps_next_ordered_sequence assign_ps_next_sequenced_sequence assign_ps_packet_window
    assign_ps_reliable assign_ps_ordered_reliable assign_ps_ordered assign_ps_sequenced
    assign_ps_reassembler ps_endpoint ps_conn_id ps_peer_id ps_user_data ps_state ps_close_reason
    ps_created_ms ps_last_recv_ms ps_last_send_ms ps_send_seq ps_send_budget_bytes
    ps_last_budget_refill_ms ps_congestion ps_next_fragment_message_id ps_next_ordered_sequence
    ps_next_sequenced_sequence ps_had_retry_token ps_retry_token ps_had_resumption_token
    ps_resumption_token ps_ephemeral ps_keys ps_client_nonce ps_server_nonce ps_client_public_key
    ps_packet_window ps_reliable ps_ordered_reliable ps_ordered ps_sequenced ps_reassembler
    assign_s_stateless_seq assign_s_next_peer_id assign_s_pending_bytes assign_s_callbacks
    assign_s_pending assign_s_sessions assign_s_endpoint_to_conn assign_s_ip_abuse assign_s_preauth
    assign_s_cookie_secret assign_s_stats s_config s_stateless_seq s_next_peer_id s_pending_bytes
    s_callbacks s_pending s_sessions s_endpoint_to_conn s_ip_abuse s_preauth s_cookie_secret s_stats
    sw_server sw_net sw_events].

(** ** The invariant *)

(** The transitions of a session. *)
Definition legal_session (a b : ConnectionState) : bool :=
  match a, b with
  | ConnectionState.Idle, ConnectionState.Handshaking => true
  | ConnectionState.Handshaking, ConnectionState.Established => true
  | (ConnectionState.Handshaking | ConnectionState.Established), ConnectionState.Closing => true
  | ConnectionState.Closing, ConnectionState.Closed => true
  | _, _ => false
  end.

Definition legal_report (e : ServerEvent) : bool :=
  match e with SrvOnPeerStateChange _ a b => legal_session a b | _ => true end.

(** The events since session [id] was created, and the numbers it took. *)
Fixpoint since (id : U64) (log : list ServerEvent) : list ServerEvent :=
  match log with
  | [] => []
  | e :: log' =>
      match e with
      | SessionCreated id' => if decide (id' = id) then [] else e :: since id log'
      | _ => e :: since id log'
      end
  end.
Fixpoint taken (id : U64) (log : list ServerEvent) : Z :=
  match log with
  | [] => 0
  | NumberTaken id' :: log' => (if decide (id' = id) then 1 else 0) + taken id log'
  | _ :: log' => taken id log'
  end.

(** Every sealing directly follows the taking of the number in its nonce. *)
Fixpoint packets_sealed_ok (log : list ServerEvent) : Prop :=
  match log with
  | [] => True
  | PacketSealed id nonce :: log' =>
      (∃ log'', log' = NumberTaken id :: log'' ∧
         nonce = crypto_make_packet_nonce id (w64 (taken id (since id log')))) ∧
      packets_sealed_ok log'
  | _ :: log' => packets_sealed_ok log'
  end.

(** Events that none of the above constrains. *)
Definition plain (e : ServerEvent) : bool :=
  match e with
  | SrvOnPeerStateChange _ _ _ | SessionCreated _ | NumberTaken _ | PacketSealed _ _ => false
  | _ => true
  end.

Record slog_ok (m : gmap U64 PeerSession) (log : list ServerEvent) : Prop := {
  sl_seq : ∀ id s, m !! id = Some s → ps_send_seq s = w64 (1 + taken id (since id log));
  sl_sealed : packets_sealed_ok log;
  sl_legal : Forall (λ e, legal_report e = true) log;
}.

(** Configurations that [listen] accepts. *)
Definition server_usable (cfg : ServerConfig) : Prop :=
  server_typed cfg ∧ validate_server_config cfg = success.

(** The memory quota is far enough from the width of its type that adding the
    length of a message does not wrap. *)
Definition quota_sane (cfg : ServerConfig) : Prop :=
  max_total_reassembly_memory_server (server_abuse cfg) + U16_MAX <= U64_MAX.

(** The memory of a reassembler is what its entries hold. *)
Record memory_exact (cfg : FragmentationConfig) (r : FragmentReassembler) : Prop := {
  me_cfg : ra_cfg r = cfg;
  me_bytes : ra_memory_bytes r = entries_bytes (ra_entries r);
  me_quota : ra_memory_bytes r <= max_total_reassembly_memory_per_peer cfg;
  me_lengths : map_Forall (λ _ e, is_u16 (en_original_length e)) (ra_entries r);
}.

Record session_ok (cfg : ServerConfig) (id : U64) (s : PeerSession) : Prop := {
  so_id : ps_conn_id s = id;
  so_id_range : is_u64 id ∧ id ≠ 0;
  so_state : ps_state s ≠ ConnectionState.Idle;
  so_reliable : rs_cfg (ps_reliable s) = server_reliability cfg;
  so_ordered_reliable : rs_cfg (ps_ordered_reliable s) = server_reliability cfg;
  so_congestion : cc_inv (server_congestion cfg) (server_send_budget_bytes_per_second cfg)
                    (ps_congestion s);
  so_budget : 0 <= ps_send_budget_bytes s <= bucket_cap_bytes (ps_congestion s);
  so_rx : is_array 32 (sk_rx (ps_keys s));
  so_tx : is_array 32 (sk_tx (ps_keys s));
  so_ephemeral : is_array 32 (kp_public (ps_ephemeral s));
  so_client_key : is_array 32 (ps_client_public_key s);
  so_client_nonce : is_array 16 (ps_client_nonce s);
  so_server_nonce : is_array 16 (ps_server_nonce s);
  so_retry : is_array 16 (rt_mac (ps_retry_token s));
  so_ticket : token_ok (ps_resumption_token s);
  so_entries : entries_ok (ra_entries (ps_reassembler s));
  so_memory : quota_sane cfg → memory_exact (server_fragmentation cfg) (ps_reassembler s);
}.

(** The queue, seen as a client's queue. *)
Definition as_pending (p : ServerPacket) : PendingPacket :=
  mkPendingPacket (sp_bytes p) (sp_len p) (sp_priority p).

(** Both tables name the same sessions, one per endpoint. *)
Record tables_agree (m : gmap U64 PeerSession) (t : list (Endpoint * U64)) : Prop := {
  ta_listed : ∀ id s, m !! id = Some s →
    ∃ e, (e, id) ∈ t ∧ ep_eqb e (ps_endpoint s) = true;
  ta_known : ∀ e id, (e, id) ∈ t → ∃ s, m !! id = Some s ∧ ep_eqb e (ps_endpoint s) = true;
  ta_unique : ∀ e1 id1 e2 id2, (e1, id1) ∈ t → (e2, id2) ∈ t → ep_eqb e1 e2 = true → id1 = id2;
}.

Definition total_memory (m : gmap U64 PeerSession) : Z :=
  map_fold (λ _ s n, ra_memory_bytes (ps_reassembler s) + n) 0 m.

(** The sessions of the host with key [host]. *)
Definition on_host `{Ntop} (host : list U8) (m : gmap U64 PeerSession) : gmap U64 PeerSession :=
  filter (λ '(_, s), endpoint_host_key (ps_endpoint s) = host) m.

Record server_ok `{Ntop} (cfg : ServerConfig) (v : Server) : Prop := {
  vo_config : s_config v = cfg;
  vo_sessions : map_Forall (session_ok cfg) (s_sessions v);
  vo_each : Forall pending_ok (as_pending <$> s_pending v);
  vo_count : zlen (s_pending v) <= server_max_pending_packets cfg;
  vo_sorted : StronglySorted by_priority (as_pending <$> s_pending v);
  vo_bytes : s_pending_bytes v = queue_len (as_pending <$> s_pending v);
  vo_secret : is_array 32 (s_cookie_secret v);
  vo_stateless : is_u64 (s_stateless_seq v);
  vo_tables : tables_agree (s_sessions v) (s_endpoint_to_conn v);
  vo_size : Z.of_nat (size (s_sessions v)) <= server_max_peer_sessions cfg;
  vo_hosts : ∀ host, Z.of_nat (size (on_host host (s_sessions v)))
                     <= max_sessions_per_ip (server_abuse cfg);
  vo_memory : quota_sane cfg →
    total_memory (s_sessions v) <= max_total_reassembly_memory_server (server_abuse cfg);
}.

(** The invariant of a world whose socket holds at most [k] datagrams; the same
    with the endpoints and states of the sessions known to be [Γ]; and with the
    set of sessions known to be [D]. *)
Record SInv `{Ntop} (cfg : ServerConfig) (k : nat) (w : ServerWorld) : Prop := {
  si_server : server_ok cfg (sw_server w);
  si_log : slog_ok (s_sessions (sw_server w)) (sw_events w);
  si_inbox : (length (n_inbox (sw_net w)) <= k)%nat;
}.

Definition view_of (s : PeerSession) : Endpoint * ConnectionState := (ps_endpoint s, ps_state s).
Definition views (w : ServerWorld) : gmap U64 (Endpoint * ConnectionState) :=
  view_of <$> s_sessions (sw_server w).

Definition SAt `{Ntop} cfg (Γ : gmap U64 (Endpoint * ConnectionState)) k (w : ServerWorld) : Prop :=
  SInv cfg k w ∧ views w = Γ.
Definition SDom `{Ntop} cfg (D : gset U64) k (w : ServerWorld) : Prop :=
  SInv cfg k w ∧ dom (views w) = D.

Lemma server_usable_valid cfg : server_usable cfg → server_valid cfg.
Proof. intros [Ht Hv]. by apply validate_server_config_sound. Qed.
Lemma server_usable_queue cfg : server_usable cfg → 0 < server_max_pending_packets cfg <= U32_MAX.
Proof.
  intros Hu. pose proof (sv_queue _ (server_usable_valid _ Hu)). destruct Hu as [Ht _].
  unfold server_typed in Ht. widths. lia.
Qed.
Lemma server_usable_congestion cfg :
  server_usable cfg →
  congestion_usable (server_congestion cfg) (server_send_budget_bytes_per_second cfg).
Proof.
  intros Hu. destruct (server_usable_valid _ Hu). destruct Hu as [Ht _].
  unfold server_typed in Ht. destruct Ht as (_ & _ & ? & _ & _ & _ & _ & _ & _ & ? & _).
  split_and!; [done|done|]. by apply validate_congestion_ok.
Qed.
Lemma session_reliability_eq cfg : server_usable cfg → session_reliability cfg = server_reliability cfg.
Proof.
  intros Hu. destruct (server_usable_valid _ Hu). unfold session_reliability. cbv zeta.
  rewrite Z.min_l by done. by destruct (server_reliability cfg).
Qed.

(** ** Logs *)

Lemma taken_nonneg id log : 0 <= taken id log.
Proof. induction log as [|[]]; simpl; try case_decide; lia. Qed.

Lemma plain_taken e id log : plain e = true → taken id (since id (e :: log)) = taken id (since id log).
Proof. by destruct e. Qed.
Lemma plain_sealed e log : plain e = true → packets_sealed_ok log → packets_sealed_ok (e :: log).
Proof. by destruct e. Qed.
Lemma plain_legal e : plain e = true → legal_report e = true.
Proof. by destruct e. Qed.

Lemma slog_ok_plain m e log : plain e = true → slog_ok m log → slog_ok m (e :: log).
Proof.
  intros He []. split; [|by apply plain_sealed|constructor; [by apply plain_legal|done]].
  intros id s Hs. rewrite plain_taken by done. by apply sl_seq0.
Qed.

Lemma slog_ok_legal m peer a b log :
  legal_session a b = true → slog_ok m log → slog_ok m (SrvOnPeerStateChange peer a b :: log).
Proof. intros Hab []. split; [done|done|by constructor]. Qed.

(** Sessions may change in anything but their sequence number, and go away. *)
Lemma slog_ok_mono m m' log :
  (∀ id s', m' !! id = Some s' → ∃ s, m !! id = Some s ∧ ps_send_seq s' = ps_send_seq s) →
  slog_ok m log → slog_ok m' log.
Proof.
  intros Hm []. split; [|done..]. intros id s' Hs'. destruct (Hm id s' Hs') as (s & Hs & ->). eauto.
Qed.

Lemma slog_ok_update m id s s' log :
  m !! id = Some s → ps_send_seq s' = ps_send_seq s → slog_ok m log → slog_ok (<[id := s']> m) log.
Proof.
  intros Hs Hq. apply slog_ok_mono. intros id' s'' [[<- <-]|[? ?]]%lookup_insert_Some; eauto.
Qed.

(** Session [id] takes its next number. *)
Lemma slog_ok_taken m id s log :
  m !! id = Some s → slog_ok m log →
  slog_ok (<[id := s <| ps_send_seq := w64 (ps_send_seq s + 1) |>]> m) (NumberTaken id :: log).
Proof.
  intros Hs []. split; [|done|by constructor].
  intros id' s' [[<- <-]|[Hne Hs']]%lookup_insert_Some; cbn [since taken].
  - rewrite decide_True by done. sfields. rewrite (sl_seq0 _ _ Hs). unfold w64.
    rewrite Zplus_mod_idemp_l. f_equal. lia.
  - rewrite decide_False by done. by apply sl_seq0.
Qed.

Lemma slog_ok_sealed m id log0 log :
  log = NumberTaken id :: log0 → slog_ok m log →
  slog_ok m (PacketSealed id (crypto_make_packet_nonce id (w64 (taken id (since id log)))) :: log).
Proof.
  intros -> []. split; [done| |by constructor]. cbn [packets_sealed_ok]. split; [by exists log0|done].
Qed.

(** A new session starts at number 1. *)
Lemma slog_ok_created m id s log :
  ps_send_seq s = 1 → slog_ok m log → slog_ok (<[id := s]> m) (SessionCreated id :: log).
Proof.
  intros Hs []. split; [|done|by constructor].
  intros id' s' [[<- <-]|[Hne Hs']]%lookup_insert_Some; cbn [since].
  - by rewrite decide_True.
  - rewrite decide_False by done. cbn [taken]. by apply sl_seq0.
Qed.

(** ** Tables of sessions *)

Lemma total_memory_insert m id s :
  m !! id = None → total_memory (<[id := s]> m) = ra_memory_bytes (ps_reassembler s) + total_memory m.
Proof. intros H. unfold total_memory. rewrite map_fold_insert_L; [done| |done]. intros. lia. Qed.
Lemma total_memory_delete m id s :
  m !! id = Some s → total_memory m = ra_memory_bytes (ps_reassembler s) + total_memory (delete id m).
Proof.
  intros H. rewrite <- (insert_delete_id m id s H) at 1. apply total_memory_insert, lookup_delete_eq.
Qed.
Lemma total_memory_update m id s s' :
  m !! id = Some s →
  total_memory (<[id := s']> m) =
    total_memory m - ra_memory_bytes (ps_reassembler s) + ra_memory_bytes (ps_reassembler s').
Proof.
  intros H. rewrite (total_memory_delete m id s H), <- insert_delete_eq.
  rewrite total_memory_insert by apply lookup_delete_eq. lia.
Qed.

Lemma on_host_delete `{Ntop} host id m : on_host host (delete id m) = delete id (on_host host m).
Proof. unfold on_host. by rewrite map_filter_delete. Qed.

(** What depends on the endpoints of the sessions only. *)
Lemma same_endpoint (m m' : gmap U64 PeerSession) id s :
  ps_endpoint <$> m = ps_endpoint <$> m' → m !! id = Some s →
  ∃ s', m' !! id = Some s' ∧ ps_endpoint s' = ps_endpoint s.
Proof.
  intros Hm Hs. assert ((ps_endpoint <$> m') !! id = Some (ps_endpoint s)) as Hs'
    by (by rewrite <- Hm, lookup_fmap, Hs).
  rewrite lookup_fmap in Hs'. destruct (m' !! id) as [s'|]; [|done]. exists s'.
  split; [done|]. by injection Hs'.
Qed.

Lemma on_host_size `{Ntop} host (m m' : gmap U64 PeerSession) :
  ps_endpoint <$> m = ps_endpoint <$> m' → size (on_host host m) = size (on_host host m').
Proof.
  intros Hv. rewrite <- !size_dom. f_equal. apply set_eq. intros id.
  rewrite !elem_of_dom. unfold on_host.
  assert (∀ (m m' : gmap U64 PeerSession), ps_endpoint <$> m = ps_endpoint <$> m' →
    is_Some (filter (λ '(_, s), endpoint_host_key (ps_endpoint s) = host) m !! id) →
    is_Some (filter (λ '(_, s), endpoint_host_key (ps_endpoint s) = host) m' !! id)) as Hdir.
  { intros m1 m2 Hm [s [Hs Hh]%map_lookup_filter_Some].
    destruct (same_endpoint _ _ _ _ Hm Hs) as (s2 & Hs2 & He).
    exists s2. apply map_lookup_filter_Some. by rewrite He. }
  split; by apply Hdir.
Qed.

Lemma tables_agree_endpoints m m' t :
  ps_endpoint <$> m = ps_endpoint <$> m' → tables_agree m t → tables_agree m' t.
Proof.
  intros Hm [Hl Hk Hu]. split; [| |done].
  - intros id s' Hs'. destruct (same_endpoint _ _ _ _ (eq_sym Hm) Hs') as (s & Hs & He).
    rewrite <- He. eauto.
  - intros e id Hin. destruct (Hk e id Hin) as (s & Hs & He).
    destruct (same_endpoint _ _ _ _ Hm Hs) as (s' & Hs' & He'). exists s'. by rewrite He'.
Qed.

Lemma tables_agree_evict m t id s :
  m !! id = Some s → tables_agree m t →
  tables_agree (delete id m) (filter (λ p, ep_eqb p.1 (ps_endpoint s) = false) t).
Proof.
  intros Hs [Hl Hk Hu]. split.
  - intros id' s' [Hne Hs']%lookup_delete_Some. destruct (Hl _ _ Hs') as (e' & Hin' & He').
    exists e'. split; [|done]. apply list_elem_of_filter. split; [|done]. cbn [fst].
    destruct (ep_eqb e' (ps_endpoint s)) eqn:Heq; [|done]. exfalso. apply Hne.
    destruct (Hl _ _ Hs) as (e & Hin & He). apply (Hu e id e' id' Hin Hin').
    apply (ep_eqb_trans _ (ps_endpoint s)); [done|by rewrite ep_eqb_sym].
  - intros e id' [He Hin]%list_elem_of_filter. cbn [fst] in He.
    destruct (Hk _ _ Hin) as (s' & Hs' & He'). exists s'. split; [|done].
    apply lookup_delete_Some. split; [|done]. intros <-. simplify_eq. congruence.
  - intros e1 id1 e2 id2 [_ H1]%list_elem_of_filter [_ H2]%list_elem_of_filter. by apply Hu.
Qed.

Lemma tables_agree_create m t id s :
  m !! id = None → (∀ e i, (e, i) ∈ t → ep_eqb e (ps_endpoint s) = false) → tables_agree m t →
  tables_agree (<[id := s]> m) (bind_endpoint (ps_endpoint s) id t).
Proof.
  intros Hid Hfree [Hl Hk Hu]. unfold bind_endpoint. split.
  - intros id' s' [[<- <-]|[Hne Hs']]%lookup_insert_Some.
    + exists (ps_endpoint s). split; [left|apply ep_eqb_refl].
    + destruct (Hl _ _ Hs') as (e & Hin & He). exists e. split; [|done]. right.
      apply list_elem_of_filter. split; [by eapply Hfree|done].
  - intros e id' [[= -> ->]|[_ Hin]%list_elem_of_filter]%elem_of_cons.
    + exists s. split; [apply lookup_insert_eq|apply ep_eqb_refl].
    + destruct (Hk _ _ Hin) as (s' & Hs' & He'). exists s'. split; [|done].
      apply lookup_insert_Some. right. split; [intros <-; congruence|done].
  - intros e1 id1 e2 id2 [[= -> ->]|[H1 H1']%list_elem_of_filter]%elem_of_cons
      [[= -> ->]|[H2 H2']%list_elem_of_filter]%elem_of_cons He; [done| | |by eapply Hu].
    + rewrite ep_eqb_sym in He. cbn [fst] in H2. congruence.
    + cbn [fst] in H1. congruence.
Qed.

Lemma view_endpoints (m m' : gmap U64 PeerSession) :
  view_of <$> m = view_of <$> m' → ps_endpoint <$> m = ps_endpoint <$> m'.
Proof.
  intros Hm. apply (f_equal (fmap fst)) in Hm. rewrite <- !map_fmap_compose in Hm. exact Hm.
Qed.
Lemma view_sizes (m m' : gmap U64 PeerSession) :
  view_of <$> m = view_of <$> m' → size m = size m'.
Proof. intros Hv. by rewrite <- (map_size_fmap view_of m), Hv, map_size_fmap. Qed.

Lemma view_update (m : gmap U64 PeerSession) id s s' :
  m !! id = Some s → view_of s' = view_of s → view_of <$> <[id := s']> m = view_of <$> m.
Proof.
  intros Hs Hv. rewrite fmap_insert, Hv. apply insert_id. by rewrite lookup_fmap, Hs.
Qed.

Lemma endpoint_update (m : gmap U64 PeerSession) id s s' :
  m !! id = Some s → ps_endpoint s' = ps_endpoint s →
  ps_endpoint <$> <[id := s']> m = ps_endpoint <$> m.
Proof.
  intros Hs Hv. rewrite fmap_insert, Hv. apply insert_id. by rewrite lookup_fmap, Hs.
Qed.

(** ** Steps of the server *)

Lemma wp_srv E w (Q : Server → ServerWorld → Prop) : Q (sw_server w) w → wp E srv w Q.
Proof. done. Qed.
Lemma wp_set_srv E f w (Q : unit → ServerWorld → Prop) :
  Q tt (mkServerWorld (f (sw_server w)) (sw_net w) (sw_events w)) → wp E (set_srv f) w Q.
Proof. done. Qed.
Lemma wp_report E e w (Q : unit → ServerWorld → Prop) :
  Q tt (mkServerWorld (sw_server w) (sw_net w) (e :: sw_events w)) → wp E (report e) w Q.
Proof. done. Qed.
Lemma wp_session E id s w (Q : PeerSession → ServerWorld → Prop) :
  s_sessions (sw_server w) !! id = Some s → Q s w → wp E (session id) w Q.
Proof. intros Hs HQ. unfold wp, session. by rewrite Hs. Qed.
Lemma wp_set_session E id f s w (Q : unit → ServerWorld → Prop) :
  s_sessions (sw_server w) !! id = Some s →
  Q tt (mkServerWorld (sw_server w <| s_sessions := <[id := f s]> (s_sessions (sw_server w)) |>)
          (sw_net w) (sw_events w)) →
  wp E (set_session id f) w Q.
Proof. intros Hs HQ. by eapply wp_bind, wp_session, wp_set_srv. Qed.

Section steps.
Context `{Ntop} (cfg : ServerConfig) (Γ : gmap U64 (Endpoint * ConnectionState)) (k : nat).
Implicit Types (w : ServerWorld) (s : PeerSession).

Lemma safe_srv {B} P (f : Server → io ServerWorld B) :
  (∀ w, P w → wp P (f (sw_server w)) w (λ _, P)) → Safe P (srv ≫= f).
Proof. intros Hf w Hw. apply wp_bind, wp_srv. by apply Hf. Qed.

Lemma safe_srv_any {B} P (f : Server → io ServerWorld B) :
  (∀ v, Safe P (f v)) → Safe P (srv ≫= f).
Proof. intros Hf. apply safe_srv. intros w Hw. by apply Hf. Qed.

Lemma SAt_lookup w id v :
  SAt cfg Γ k w → Γ !! id = Some v →
  ∃ s, s_sessions (sw_server w) !! id = Some s ∧ view_of s = v ∧ session_ok cfg id s.
Proof.
  intros [[Hv _ _] <-]. unfold views. rewrite lookup_fmap.
  destruct (s_sessions (sw_server w) !! id) as [s|] eqn:Hs; [|done]. cbn. intros [= <-].
  exists s. split_and!; [done|done|]. by apply (vo_sessions _ _ Hv).
Qed.

Lemma SAt_find w id s :
  SAt cfg Γ k w → find_session id (sw_server w) = Some s → Γ !! id = Some (view_of s).
Proof. intros [_ <-] Hs. unfold views, find_session in *. by rewrite lookup_fmap, Hs. Qed.

Lemma safe_session {B} id (f : PeerSession → io ServerWorld B) :
  is_Some (Γ !! id) →
  (∀ w s, SAt cfg Γ k w → s_sessions (sw_server w) !! id = Some s → session_ok cfg id s →
     Γ !! id = Some (view_of s) → wp (SAt cfg Γ k) (f s) w (λ _, SAt cfg Γ k)) →
  Safe (SAt cfg Γ k) (session id ≫= f).
Proof.
  intros [v Hid] Hf w Hw. destruct (SAt_lookup _ _ _ Hw Hid) as (s & Hs & <- & Hok).
  by eapply wp_bind, wp_session, Hf.
Qed.

(** A change of the server that keeps its sessions. *)
Lemma SAt_server w v :
  (server_ok cfg (sw_server w) → server_ok cfg v) → s_sessions v = s_sessions (sw_server w) →
  SAt cfg Γ k w → SAt cfg Γ k (mkServerWorld v (sw_net w) (sw_events w)).
Proof.
  intros Hf Hs [[Hv Hl Hi] HΓ]. unfold SAt, views. cbn [sw_server]. rewrite Hs. split; [|done].
  split; cbn [sw_server sw_net sw_events]; [by apply Hf|by rewrite Hs|done].
Qed.

Lemma safe_set_srv f :
  (∀ v, server_ok cfg v → server_ok cfg (f v)) → (∀ v, s_sessions (f v) = s_sessions v) →
  Safe (SAt cfg Γ k) (set_srv f).
Proof. intros Hf Hs w Hw. apply wp_set_srv, SAt_server; auto. Qed.

Lemma server_ok_stats v st : server_ok cfg v → server_ok cfg (v <| s_stats := st |>).
Proof. intros []. by split. Qed.

(** A session changes in what nothing else depends on. *)
Lemma server_ok_session v id s s' :
  s_sessions v !! id = Some s → session_ok cfg id s' → ps_endpoint s' = ps_endpoint s →
  (quota_sane cfg → total_memory (s_sessions v) <= max_total_reassembly_memory_server (server_abuse cfg) →
   total_memory (<[id := s']> (s_sessions v)) <= max_total_reassembly_memory_server (server_abuse cfg)) →
  server_ok cfg v → server_ok cfg (v <| s_sessions := <[id := s']> (s_sessions v) |>).
Proof.
  intros Hs Hok He Hm []. pose proof (endpoint_update _ _ _ _ Hs He) as Hep.
  split; sfields; try done.
  - by apply map_Forall_insert_2.
  - by eapply tables_agree_endpoints.
  - by rewrite map_size_insert_Some by (by eexists).
  - intros host. by rewrite (on_host_size _ _ _ Hep).
  - auto.
Qed.

Lemma same_memory m id s s' (b : Z) :
  m !! id = Some s → ps_reassembler s' = ps_reassembler s →
  total_memory m <= b → total_memory (<[id := s']> m) <= b.
Proof. intros Hs Hr ?. rewrite (total_memory_update _ _ _ _ Hs), Hr. lia. Qed.

Lemma SAt_session w id s s' :
  s_sessions (sw_server w) !! id = Some s → (session_ok cfg id s → session_ok cfg id s') →
  view_of s' = view_of s → ps_send_seq s' = ps_send_seq s →
  ps_reassembler s' = ps_reassembler s → SAt cfg Γ k w →
  SAt cfg Γ k (mkServerWorld (sw_server w <| s_sessions := <[id := s']> (s_sessions (sw_server w)) |>)
                 (sw_net w) (sw_events w)).
Proof.
  intros Hs Hok Hv Hq Hr [[Hsrv Hl Hi] <-]. split; [|by apply (view_update _ _ s)].
  split; cbn [sw_server sw_net sw_events]; sfields; [|by eapply slog_ok_update|done].
  apply (server_ok_session _ _ s); [done| |by injection Hv| |done].
  - apply Hok, (vo_sessions _ _ Hsrv). done.
  - intros _. by apply (same_memory _ _ s).
Qed.

Lemma safe_set_session id f :
  is_Some (Γ !! id) → (∀ s, session_ok cfg id s → session_ok cfg id (f s)) →
  (∀ s, view_of (f s) = view_of s) → (∀ s, ps_send_seq (f s) = ps_send_seq s) →
  (∀ s, ps_reassembler (f s) = ps_reassembler s) → Safe (SAt cfg Γ k) (set_session id f).
Proof.
  intros [v Hid] Hf Hv Hq Hr w Hw. destruct (SAt_lookup _ _ _ Hw Hid) as (s & Hs & _ & Hok).
  eapply wp_set_session; [done|]. eapply SAt_session; eauto.
Qed.

Lemma safe_report e : plain e = true → Safe (SAt cfg Γ k) (report e).
Proof.
  intros He w [[Hv Hl Hi] HΓ]. apply wp_report. split; [|done].
  split; cbn [sw_server sw_net sw_events]; [done|by apply slog_ok_plain|done].
Qed.

Lemma tally_n_safe f n : Safe (SAt cfg Γ k) (tally_n f n).
Proof. apply safe_set_srv; [|done]. intros. by apply server_ok_stats. Qed.
Lemma tally_safe f : Safe (SAt cfg Γ k) (tally f).
Proof. apply tally_n_safe. Qed.
Lemma srv_refresh_safe : Safe (SAt cfg Γ k) srv_refresh.
Proof. apply safe_set_srv; [|done]. intros. by apply server_ok_stats. Qed.

(** System calls leave the server alone and do not add to the inbox. *)
Lemma os_safe {A} (m : io Net A) :
  (∀ n, (m n).1 ≠ UB ∧ (length (n_inbox (m n).2) <= length (n_inbox n))%nat) →
  Safe (SAt cfg Γ k) (os m).
Proof.
  intros Hm w [[Hc Hl Hi] Hs]. unfold wp, os. destruct (Hm (sw_net w)) as [H1 H2].
  destruct (m (sw_net w)) as [o n]. cbn in *.
  destruct o; [| |done]; (split; [|done]; split; cbn; [done..|lia]).
Qed.
Lemma srv_now_safe : Safe (SAt cfg Γ k) (os now_ms).
Proof. apply os_safe. intros n. unfold now_ms. destruct (n_clock n); by split. Qed.

Lemma srv_log_safe l t : Safe (SAt cfg Γ k) (srv_log l t).
Proof. apply safe_srv. intros w Hw. by apply safe_when; [apply safe_report|]. Qed.
Lemma srv_packet_debug_safe d e v : Safe (SAt cfg Γ k) (srv_packet_debug d e v).
Proof. apply safe_srv. intros w Hw. by apply safe_when; [apply safe_report|]. Qed.
Lemma srv_on_packet_safe e v : Safe (SAt cfg Γ k) (srv_on_packet e v).
Proof. apply safe_srv. intros w Hw. by apply safe_when; [apply safe_report|]. Qed.
Lemma srv_backpressure_safe p ch t rc : Safe (SAt cfg Γ k) (srv_backpressure p ch t rc).
Proof. apply safe_srv. intros w Hw. by apply safe_when; [apply safe_report|]. Qed.
End steps.

#[export] Hint Resolve tally_n_safe tally_safe srv_refresh_safe srv_now_safe srv_log_safe
  srv_packet_debug_safe srv_on_packet_safe srv_backpressure_safe : safe.

(** ** Abuse limits *)

Section abuse.
Context `{Ntop} (cfg : ServerConfig) (Γ : gmap U64 (Endpoint * ConnectionState)) (k : nat).

Lemma set_abuse_safe e a : Safe (SAt cfg Γ k) (set_abuse e a).
Proof. apply safe_set_srv; [|done]. intros v []. by split. Qed.
Lemma set_preauth_safe e p : Safe (SAt cfg Γ k) (set_preauth e p).
Proof. apply safe_set_srv; [|done]. intros v []. by split. Qed.
#[local] Hint Resolve set_abuse_safe set_preauth_safe : safe.

Lemma rate_limited_safe e now : Safe (SAt cfg Γ k) (endpoint_rate_limited e now).
Proof. apply safe_srv_any. intros v. cbv zeta. safe_steps. Qed.
Lemma is_banned_safe e now : Safe (SAt cfg Γ k) (endpoint_is_banned e now).
Proof. apply safe_srv_any. intros v. cbv zeta. safe_steps. Qed.
Lemma note_invalid_safe e now : Safe (SAt cfg Γ k) (note_invalid_packet e now).
Proof. apply safe_srv_any. intros v. cbv zeta. safe_steps. Qed.
Lemma can_amplify_safe e n now : Safe (SAt cfg Γ k) (can_amplify_to e n now).
Proof. apply safe_srv_any. intros v. cbv zeta. safe_steps. Qed.
Lemma preauth_receive_safe e n now : Safe (SAt cfg Γ k) (note_preauth_receive e n now).
Proof. apply safe_srv_any. intros v. cbv zeta. safe_steps. Qed.
Lemma preauth_send_safe e n now : Safe (SAt cfg Γ k) (note_preauth_send e n now).
Proof. apply safe_srv_any. intros v. cbv zeta. safe_steps. Qed.
End abuse.

#[export] Hint Resolve rate_limited_safe is_banned_safe note_invalid_safe can_amplify_safe
  preauth_receive_safe preauth_send_safe : safe.

(** ** Transitions *)

Section transitions.
Context `{Ntop} (cfg : ServerConfig) (k : nat).
Implicit Types (Γ : gmap U64 (Endpoint * ConnectionState)).

Lemma safe_state_change Γ peer a b :
  legal_session a b = true → Safe (SAt cfg Γ k) (report (SrvOnPeerStateChange peer a b)).
Proof.
  intros Hab w [[Hv Hl Hi] HΓ]. apply wp_report. split; [|done].
  split; cbn [sw_server sw_net sw_events]; [done|by apply slog_ok_legal|done].
Qed.

Lemma announce_safe Γ peer a b reason :
  legal_session a b = true → Safe (SAt cfg Γ k) (announce peer a b reason).
Proof.
  intros Hab. unfold announce.
  do 3 (apply safe_bind; [solve [eauto with safe]|intros _]).
  apply safe_srv_any. intros v. cbv zeta.
  apply safe_bind; [by apply safe_when, safe_state_change|intros _].
  apply safe_bind; [|intros _; by apply safe_when, safe_report].
  apply safe_when, safe_bind; [|intros _]; by apply safe_when, safe_report.
Qed.

Lemma transition_session_wp Γ id e σ next w E Q :
  SAt cfg Γ k w → Γ !! id = Some (e, σ) → σ = next ∨ legal_session σ next = true →
  (∀ w', SAt cfg (<[id := (e, next)]> Γ) k w' → Q tt w') →
  (∀ w', SAt cfg (<[id := (e, next)]> Γ) k w' → E w') →
  wp E (transition_session id next) w Q.
Proof.
  intros Hw Hid Hleg HQ HE. destruct (SAt_lookup _ _ _ _ _ _ Hw Hid) as (s & Hs & Hv & Hok).
  assert (ps_state s = σ) as Hst by (injection Hv; done).
  apply wp_bind. eapply wp_session; [done|]. case_decide as Heq.
  { apply HQ. rewrite insert_id; [done|]. congruence. }
  apply wp_bind. eapply wp_set_session; [done|].
  eapply wp_safe; [apply announce_safe|..|exact HE|intros []; exact HQ].
  { rewrite Hst. destruct Hleg; [congruence|done]. }
  destruct Hw as [[Hsrv Hl Hi] HΓ]. split.
  2: { unfold views. cbn [sw_server]. sfields. rewrite fmap_insert. f_equal; [|exact HΓ].
       unfold view_of. sfields. injection Hv. congruence. }
  split; cbn [sw_server sw_net sw_events]; sfields; [|by eapply slog_ok_update|done].
  apply (server_ok_session _ _ _ s); [done| |done| |done].
  - destruct Hok. split; sfields; try done. intros ->. destruct Hleg as [?|Hl']; [congruence|].
    by destruct σ.
  - intros _. by apply (same_memory _ _ s).
Qed.
End transitions.

(** ** Tokens *)

#[export] Instance ignore_safe (m : io ByteWriter unit) : WriterSafe m → WriterSafe (ignore m).
Proof.
  intros Hm w Hw. specialize (Hm w Hw). unfold ignore, attempt, mbind, io_bind, mret, io_ret.
  destruct (m w) as [[a|rc|] w']; cbn in *; naive_solver.
Qed.

Lemma write_text_safe bs : WriterSafe (write_bytes (Some bs) (zlen bs)).
Proof. apply write_bytes_safe. lia. Qed.

Section tokens.
Context `{Ntop} `{SodiumLaws}.

Lemma retry_input_safe from h t :
  is_array 32 (client_public_key h) → is_array 16 (client_nonce h) →
  WriterSafe (write_retry_input from h t).
Proof.
  intros Hpk%write_array_safe Hcn%write_array_safe. pose proof (write_text_safe (ep_to_string from)).
  unfold write_retry_input. apply _.
Qed.

Lemma resumption_fields_safe from i e t (wr : io ByteWriter unit → io ByteWriter unit) :
  (∀ m, WriterSafe m → WriterSafe (wr m)) → WriterSafe (resumption_fields from i e t wr).
Proof.
  intros Hwr. pose proof (write_text_safe (endpoint_host_key from)). unfold resumption_fields.
  repeat (apply writer_safe_bind; [by apply Hwr; apply _|intros _]). by apply Hwr.
Qed.

Lemma secret_hash_ok secret data n :
  is_array 32 secret → 0 <= n →
  match crypto_keyed_hash (Some secret) (zlen secret) (Some data) (zlen data) false n with
  | Done mac => zlen mac = n ∧ bytes_ok mac
  | Err _ => True
  | UB => False
  end.
Proof. intros Hs Hn. destruct Hs as [Hl Hb]. rewrite Hl. by apply keyed_hash_ok. Qed.

Lemma mac_of_ok secret input len :
  is_array 32 secret → ∃ mac, mac_of secret input len = Done mac ∧ is_array len mac.
Proof.
  intros Hs. pose proof (secret_hash_ok secret input (Z.of_nat len) Hs ltac:(lia)) as Hh. unfold mac_of.
  destruct (crypto_keyed_hash _ _ _ _ _ _) as [mac|rc|]; [|eexists; split; [done|apply zeros_array]|done].
  destruct Hh. exists mac. split; [done|]. split; [lia|done].
Qed.

Lemma ignore_done (m : io ByteWriter unit) w : (m w).1 ≠ UB → (ignore m w).1 = Done tt.
Proof. unfold ignore, attempt, mbind, io_bind, mret, io_ret. by destruct (m w) as [[a|rc|] w']. Qed.

Lemma write_to_total size m :
  0 <= size → WriterSafe m → (∀ w, writer_wf w → (m w).1 = Done tt) → ∃ bs, write_to size m = Done bs.
Proof.
  intros Hs Hm Hd. unfold write_to.
  match goal with |- context [m ?w] => assert (writer_wf w) as Hw end.
  { split; cbn; [lia|]. unfold zeros. rewrite length_replicate. lia. }
  specialize (Hd _ Hw). destruct (m _) as [o w']. cbn in Hd. subst o. by eexists.
Qed.

(** Writes whose results are ignored never fail. *)
Definition Total_writer (m : io ByteWriter unit) : Prop :=
  WriterSafe m ∧ ∀ w, writer_wf w → (m w).1 = Done tt.
Lemma total_ignore m : WriterSafe m → Total_writer (ignore m).
Proof. intros Hm. split; [apply _|]. intros w Hw. apply ignore_done. by apply Hm. Qed.
Lemma total_seq m1 m2 : Total_writer m1 → Total_writer m2 → Total_writer (m1;; m2).
Proof.
  intros [S1 D1] [S2 D2]. split; [apply _|]. intros w Hw. specialize (D1 w Hw).
  destruct (S1 w Hw) as [_ Hw']. unfold mbind, io_bind. destruct (m1 w) as [o w1]. cbn in *.
  subst o. by apply D2.
Qed.

Lemma make_retry_token_ok cfg v from h t :
  server_ok cfg v → is_array 32 (client_public_key h) → is_array 16 (client_nonce h) →
  ∃ mac, make_retry_token v from h t = Done (mkRetryToken t mac) ∧ is_array 16 mac.
Proof.
  intros Hv Hpk Hcn. unfold make_retry_token.
  assert (Total_writer (write_retry_input from h t)) as [Hs Hd].
  { pose proof (write_array_safe _ _ Hpk). pose proof (write_array_safe _ _ Hcn).
    pose proof (write_text_safe (ep_to_string from)).
    unfold write_retry_input. repeat (apply total_seq; [apply total_ignore; apply _|]).
    by apply total_ignore. }
  destruct (write_to_total 256 _ ltac:(done) Hs Hd) as [input ->]. cbn [outcome_bind].
  destruct (mac_of_ok _ input NetConfig.RetryTokenMacBytes (vo_secret _ _ Hv)) as (mac & -> & Hm).
  by exists mac.
Qed.

Lemma validate_retry_token_ok cfg v from h t now :
  server_ok cfg v → is_array 32 (client_public_key h) → is_array 16 (client_nonce h) →
  is_array 16 (rt_mac t) → validate_retry_token v from h t now ≠ UB.
Proof.
  intros Hv Hpk Hcn Ht. unfold validate_retry_token. case_match; [done|].
  destruct (make_retry_token_ok cfg v from h (rt_issued_at_ms t) Hv Hpk Hcn) as (mac & -> & Hm).
  cbn [outcome_bind rt_mac]. destruct Hm as [Hm1 Hm2], Ht as [Ht1 Ht2].
  change (Z.of_nat NetConfig.RetryTokenMacBytes) with (Z.of_nat 16). rewrite <- Hm1.
  rewrite constant_time_equal_mac by (done || congruence). cbn [outcome_bind]. by destruct (negb _).
Qed.

Lemma validate_resumption_token_ok cfg v from t now :
  server_ok cfg v → token_ok t → validate_resumption_token v from t now ≠ UB.
Proof.
  intros Hv Ht. unfold validate_resumption_token. do 2 (case_match; [done|]).
  pose proof (write_to_safe 256 (resumption_fields from (res_issued_at_ms t) (res_expires_at_ms t)
    (res_ticket_id t) id) ltac:(done)) as Hw.
  destruct (write_to _ _) as [input|rc|]; cbn [outcome_bind];
    [|done|by exfalso; apply Hw; [apply resumption_fields_safe|]].
  pose proof (secret_hash_ok (s_cookie_secret v) input (Z.of_nat NetConfig.ResumptionTokenMacBytes)
    (vo_secret _ _ Hv) ltac:(lia)) as Hh.
  destruct (crypto_keyed_hash _ _ _ _ _ _) as [mac|rc|]; cbn [outcome_bind]; [|done..].
  destruct Hh as [Hm1 Hm2], Ht as [Ht1 Ht2]. rewrite <- Hm1.
  rewrite constant_time_equal_mac by (done || lia). cbn [outcome_bind]. by destruct (negb _).
Qed.

Lemma draw_ticket_quiet fuel n :
  ∃ t n', draw_ticket fuel n = (Done t, n') ∧ n_inbox n' = n_inbox n.
Proof.
  revert n. induction fuel as [|fuel IH]; intros n; cbn [draw_ticket]; [by do 2 eexists|].
  unfold mbind, io_bind. pose proof (random_bytes_array 8 n) as Hr.
  destruct (random_bytes 8 n) as [[bs|rc|] n1]; [|done..]. destruct Hr as [_ Hn].
  destruct (_ =? 0); [|by do 2 eexists]. destruct (IH n1) as (t & n2 & -> & Hn2).
  do 2 eexists. split; [done|congruence].
Qed.

Lemma make_resumption_token_wp cfg Γ k from t w E Q :
  SAt cfg Γ k w → (∀ w' tok, SAt cfg Γ k w' → token_ok tok → Q tok w') →
  wp E (make_resumption_token from t) w Q.
Proof.
  intros Hw HQ. unfold make_resumption_token. apply wp_bind, wp_srv. cbv zeta. apply wp_bind.
  unfold wp at 1, os. destruct (draw_ticket_quiet (length (n_random (sw_net w))) (sw_net w))
    as (ticket & n & -> & Hn).
  assert (Total_writer (resumption_fields from t (w64 (t + NetConfig.ResumptionTokenLifetimeMs))
    ticket ignore)) as [Hs Hd].
  { pose proof (write_text_safe (endpoint_host_key from)). unfold resumption_fields.
    repeat (apply total_seq; [apply total_ignore; apply _|]). by apply total_ignore. }
  destruct (write_to_total 256 _ ltac:(done) Hs Hd) as [input ->]. apply wp_bind, wp_done.
  destruct Hw as [[Hv Hl Hi] HΓ].
  destruct (mac_of_ok (s_cookie_secret (sw_server w)) input NetConfig.ResumptionTokenMacBytes
    (vo_secret _ _ Hv)) as (mac & -> & Hm).
  apply wp_bind, wp_done, wp_ret, HQ; [|done]. split; [|done].
  split; cbn [sw_server sw_net sw_events]; [done|done|by rewrite Hn].
Qed.
End tokens.

(** ** Queueing a packet *)

Lemma insert_packet_pending p q :
  as_pending <$> insert_packet p q = insert_pending (as_pending p) (as_pending <$> q).
Proof.
  induction q as [|it q IH]; [done|]. cbn [insert_packet fmap list_fmap insert_pending].
  cbn [as_pending pp_priority]. destruct (_ <? _); [done|]. cbn [fmap list_fmap]. f_equal. exact IH.
Qed.

Section queue.
Context `{HN : Ntop} (cfg : ServerConfig) (Hu : server_usable cfg).
Context (Γ : gmap U64 (Endpoint * ConnectionState)) (k : nat).

Lemma insert_packet_ok v p :
  server_ok cfg v → pending_ok (as_pending p) → zlen (s_pending v) < server_max_pending_packets cfg →
  server_ok cfg (v <| s_pending_bytes := w64 (s_pending_bytes v + sp_len p) |>
                   <| s_pending := insert_packet p (s_pending v) |>).
Proof.
  intros [] Hp Hroom. pose proof (server_usable_queue _ Hu).
  pose proof (queue_len_nonneg _ vo_each0) as Hlen. rewrite length_fmap in Hlen.
  pose proof (po_len _ Hp) as Hl. change NetConfig.PacketHeaderBytes with 28 in Hl.
  change NetConfig.MaxPacketBytes with 1300 in Hl. cbn [as_pending pp_len] in Hl.
  pose proof (insert_packet_pending p (s_pending v)) as Hins.
  split; sfields; try done.
  - rewrite Hins, insert_pending_perm. by constructor.
  - rewrite <- (length_fmap as_pending), Hins, insert_pending_perm. simpl. rewrite length_fmap. lia.
  - rewrite Hins. by apply insert_pending_sorted.
  - rewrite Hins, (queue_len_perm _ _ (insert_pending_perm _ _)), vo_bytes0.
    cbn [queue_len foldr as_pending pp_len]. fold (queue_len (as_pending <$> s_pending v)).
    unfold U32_MAX in *. rewrite w64_id; [lia|]. ulia.
Qed.

Lemma srv_enqueue_safe p : pending_ok (as_pending p) → Safe (SAt cfg Γ k) (srv_enqueue p).
Proof.
  intros Hp. apply safe_srv. intros w Hw.
  assert (s_config (sw_server w) = cfg) as -> by apply Hw.
  destruct (Z.leb_spec (server_max_pending_packets cfg) (zlen (s_pending (sw_server w)))) as [_|Hroom].
  { revert w Hw. change (Safe (SAt cfg Γ k) (tally Stat.queue_full_events;;
      fail (A:=unit) Errc.QueueFull "pending packet queue full")). safe_steps. }
  apply wp_bind, wp_set_srv. apply srv_refresh_safe. apply SAt_server; [|done|done].
  intros Hv. by apply insert_packet_ok.
Qed.

Context `{SodiumLaws}.

(** The packet that [queue_packet] builds from a body, sealed or not. *)
Lemma pack_and_enqueue_safe to kind enc id s body prio owner :
  is_u64 id → is_u64 s → zlen body <= NetConfig.MaxPayloadBytes →
  Safe (SAt cfg Γ k)
    (pending ← lift (pack_pending (out_header kind enc id s (zlen body)) body prio);
     srv_enqueue (mkServerPacket to owner (pp_bytes pending) (pp_len pending) prio)).
Proof.
  intros Hid Hs Hlen. change NetConfig.MaxPayloadBytes with 1272 in Hlen.
  set (h := out_header kind enc id s (zlen body)).
  assert (header_typed h) as Hh by (apply out_header_typed; [done|done|ulia]).
  assert (validate_packet_header h = success) as Hv by (apply out_header_valid; done).
  assert (payload_len h = zlen body) as Hpl by done.
  destruct (pack_pending_ok h body prio Hh Hv Hpl Hlen) as (pp & -> & Hpp).
  intros w Hw. apply wp_bind, wp_done. apply srv_enqueue_safe; [|done]. by destruct Hpp.
Qed.

Lemma queue_plain_safe to kind p n id s keys prio owner :
  readable p n → 0 <= n → is_u64 id → is_u64 s →
  Safe (SAt cfg Γ k) (srv_queue_packet to kind false p n id s keys prio owner).
Proof.
  intros Hp Hn Hid Hs. unfold srv_queue_packet.
  apply safe_if; intros Hnull; [apply safe_fail|]. cbn [andb negb].
  apply safe_if; intros Hbig; [apply safe_fail|]. apply Z.ltb_ge in Hbig.
  change NetConfig.MaxPayloadBytes with 1272 in Hbig.
  apply safe_bind; [safe_steps|intros allowed]. destruct allowed; cbn [negb]; [|apply safe_ret].
  cbv zeta. destruct (bytes_at_readable _ _ Hp Hnull) as (body & -> & Hlen).
  apply safe_bind_lift; [done|]. intros body' [= <-]. rewrite w32_id by ulia.
  replace n with (zlen body) by lia.
  apply (pack_and_enqueue_safe to kind false id s body prio owner); [done|done|].
  change NetConfig.MaxPayloadBytes with 1272. lia.
Qed.

(** A sealed packet with the number that was just taken. *)
Lemma queue_encrypted_wp to kind p n id s keys prio owner w log :
  SAt cfg Γ k w → readable p n → 0 <= n → is_u64 id → is_array 32 (sk_tx keys) →
  sw_events w = NumberTaken id :: log → s = w64 (taken id (since id (sw_events w))) →
  wp (SAt cfg Γ k) (srv_queue_packet to kind true p n id s (Some keys) prio owner) w (λ _, SAt cfg Γ k).
Proof.
  intros Hw Hp Hn Hid Htx Hlog Hs. assert (is_u64 s) as Hsu by (subst s; apply w64_range).
  unfold srv_queue_packet. destruct (_ && _) eqn:Hnull; [done|]. cbn [andb negb].
  destruct (Z.ltb_spec NetConfig.MaxEncryptedPlaintextBytes n) as [|Hbig]; [done|].
  destruct (keys_empty keys); [done|]. apply wp_bind, wp_ret. cbn [negb]. cbv zeta.
  change (default default_session_keys (Some keys)) with keys.
  change NetConfig.MaxEncryptedPlaintextBytes with 1256 in Hbig.
  change NetConfig.AeadTagBytes with 16. rewrite w32_id by ulia.
  change (mkPacketHeader NetConfig.Magic NetConfig.ProtocolVersion (kind_value kind)
    PacketFlagEncrypted id s (n + 16)) with (out_header kind true id s (n + 16)).
  assert (header_typed (out_header kind true id s (n + 16))) as Hh
    by (apply out_header_typed; [done|done|ulia]).
  pose proof (seal_payload_spec keys _ p n Htx Hh Hp (conj Hn Hbig) Hnull) as Hseal.
  apply wp_bind, wp_bind, wp_lift; [intros Hub; by rewrite Hub in Hseal| |by intros].
  intros body Hbody. rewrite Hbody in Hseal. change (zlen body = n + 16) in Hseal.
  apply wp_bind, wp_report, wp_ret. rewrite <- Hseal.
  apply (pack_and_enqueue_safe to kind true id s body prio owner); [done|done|change NetConfig.MaxPayloadBytes with 1272; lia|].
  destruct Hw as [[Hv Hl Hi] HΓ]. split; [|done]. split; cbn [sw_server sw_net sw_events]; [done| |done].
  subst s. by eapply slog_ok_sealed.
Qed.
End queue.
