(* ===== verification/ServerSafe.v ===== *)
(** * The server: safety of the sending half

    Queueing of every kind of packet, the messages of a session, the public
    send operations, [flush_pending] and retransmission are [Safe]. *)
From stdpp Require Import sorting.
From S2P Require Import Prelude Result Hoare ByteBuf Config Message Packet Protocol Windows Payloads.
From S2P Require Import Reliability Ordered Fragmentation Congestion Crypto Stats Endpoint Socket.
From S2P Require Import Client ClientRecv ClientInv ClientSafe Server ServerSend ServerRecv ServerInv.
#[local] Open Scope Z_scope.

#[local] Hint Resolve readable_w16 readable_all w16_nonneg : scn.

Section sending.
Context {HN : Ntop} {HS : Sodium} {HL : SodiumLaws}.
Context (cfg : ServerConfig) (Hu : server_usable cfg) (k : nat).
Implicit Types (Γ : gmap U64 (Endpoint * ConnectionState)).

(** ** Packets of a session *)

(** The next number of session [id] is taken. *)
Lemma next_seq_wp Γ id w E Q :
  SAt cfg Γ k w → is_Some (Γ !! id) →
  (∀ n w' log, SAt cfg Γ k w' → sw_events w' = NumberTaken id :: log →
     n = w64 (taken id (since id (sw_events w'))) → Q n w') →
  wp E (next_seq id) w Q.
Proof.
  intros Hw [v Hid] HQ. destruct (SAt_lookup _ _ _ _ _ _ Hw Hid) as (s & Hs & Hv & Hok).
  unfold next_seq. apply wp_bind. eapply wp_session; [done|]. apply wp_bind.
  eapply wp_set_session; [done|]. apply wp_bind, wp_report, wp_ret. eapply HQ; [|reflexivity|].
  - destruct Hw as [[Hsrv Hl Hi] HΓ]. split; [|rewrite <- HΓ; by apply (view_update _ _ s)].
    split; cbn [sw_server sw_net sw_events]; sfields; [|by apply slog_ok_taken|done].
    apply (server_ok_session _ _ _ s); [done|by destruct Hok|done| |done].
    intros _. by apply (same_memory _ _ s).
  - cbn [sw_events since taken]. rewrite decide_True by done.
    destruct Hw as [[_ [Hseq _ _] _] _]. by rewrite (Hseq _ _ Hs).
Qed.

Lemma queue_sealed_safe Γ id kind p n prio :
  is_Some (Γ !! id) → readable p n → 0 <= n → Safe (SAt cfg Γ k) (queue_sealed id kind p n prio).
Proof.
  intros Hid Hp Hn w Hw. unfold queue_sealed. apply wp_bind. eapply next_seq_wp; [done|done|].
  intros seq w' log Hw' Hlog Hseq. destruct Hid as [v Hid].
  destruct (SAt_lookup _ _ _ _ _ _ Hw' Hid) as (s & Hs & Hv & Hok).
  apply wp_bind. eapply wp_session; [done|]. rewrite (so_id _ _ _ Hok).
  eapply queue_encrypted_wp; try done; apply Hok.
Qed.

Lemma next_stateless_wp Γ w E Q :
  SAt cfg Γ k w → (∀ n w', SAt cfg Γ k w' → is_u64 n → Q n w') → wp E next_stateless w Q.
Proof.
  intros Hw HQ. unfold next_stateless. apply wp_bind, wp_srv, wp_bind, wp_set_srv, wp_ret, HQ.
  - apply SAt_server; [|done|done]. intros []. split; sfields; try done. apply w64_range.
  - apply Hw.
Qed.

Lemma internal_message_safe Γ id ch t p n prio :
  is_Some (Γ !! id) → readable p n → Safe (SAt cfg Γ k) (srv_internal_message id ch t p n prio).
Proof.
  intros Hid Hp. unfold srv_internal_message. apply safe_bind_lift.
  { apply write_to_safe; [done|by apply write_message_safe]. }
  intros payload _. apply safe_bind; [|intros _; apply tally_safe].
  apply queue_sealed_safe; [done|apply readable_all|lia].
Qed.

Lemma message_packet_safe Γ id ch t p n prio :
  is_Some (Γ !! id) → readable p n → Safe (SAt cfg Γ k) (srv_message_packet id ch t p n prio).
Proof.
  intros Hid Hp. unfold srv_message_packet. case_decide; [apply safe_fail|by apply internal_message_safe].
Qed.

Lemma control_ack_safe Γ id ch m : is_Some (Γ !! id) → Safe (SAt cfg Γ k) (srv_control_ack id ch m).
Proof.
  intros Hid. unfold srv_control_ack. apply safe_bind_lift; [apply write_to_safe; [done|apply _]|].
  intros ack _. apply safe_bind; [|intros _; apply tally_safe].
  apply internal_message_safe; [done|apply readable_w16].
Qed.

Lemma keepalive_safe Γ id : is_Some (Γ !! id) → Safe (SAt cfg Γ k) (srv_keepalive id).
Proof.
  intros Hid. apply safe_bind; [by apply queue_sealed_safe|intros _; apply tally_safe].
Qed.

(** ** Packets without a session *)

Lemma plain_close_safe Γ to id reason seq keys prio owner :
  is_u64 id → is_u64 seq → Safe (SAt cfg Γ k) (srv_close_packet to id reason false keys seq prio owner).
Proof.
  intros Hid Hs. unfold srv_close_packet. apply safe_bind_lift; [apply write_to_safe; [done|apply _]|].
  intros frame _. apply safe_bind; [|intros _; apply tally_safe].
  apply queue_plain_safe; [done|apply readable_all|lia|done|done].
Qed.

Lemma sealed_close_wp Γ to id reason seq keys prio owner w log :
  SAt cfg Γ k w → is_u64 id → is_array 32 (sk_tx keys) →
  sw_events w = NumberTaken id :: log → seq = w64 (taken id (since id (sw_events w))) →
  wp (SAt cfg Γ k) (srv_close_packet to id reason true (Some keys) seq prio owner) w
    (λ _, SAt cfg Γ k).
Proof.
  intros Hw Hid Htx Hlog Hs. unfold srv_close_packet.
  apply wp_bind, wp_lift; [apply write_to_safe; [done|apply _]| |by intros].
  intros frame _. apply wp_bind. eapply wp_mono.
  - eapply queue_encrypted_wp; try done; [apply readable_all|lia].
  - intros u w' Hw'. by apply tally_safe.
Qed.

Lemma refuse_safe Γ to id reason : is_u64 id → Safe (SAt cfg Γ k) (refuse to id reason).
Proof.
  intros Hid w Hw. unfold refuse. apply wp_bind. eapply next_stateless_wp; [done|].
  intros seq w1 Hw1 Hseq. eapply wp_seq; [by apply safe_attempt, plain_close_safe|done|done|].
  intros rc w2 Hw2. done.
Qed.

Lemma plain_handshake_safe Γ to p n id :
  readable p n → 0 <= n → is_u64 id → Safe (SAt cfg Γ k) (queue_plain_handshake to p n id).
Proof.
  intros Hp Hn Hid w Hw. unfold queue_plain_handshake. apply wp_bind. eapply next_stateless_wp; [done|].
  intros seq w1 Hw1 Hseq. by apply queue_plain_safe.
Qed.

Lemma queue_retry_safe Γ to t : is_array 16 (rt_mac t) → Safe (SAt cfg Γ k) (queue_retry to t).
Proof.
  intros Ht%write_retry_token_safe. unfold queue_retry. apply safe_bind_lift.
  { apply write_to_safe; [done|]. unfold write_retry. apply _. }
  intros payload _. apply safe_bind; [|intros _; apply tally_safe].
  apply plain_handshake_safe; [apply readable_all|lia|ulia].
Qed.

(** ** Messages of a session *)

(** Changes of fields the invariant does not mention. *)
Ltac same_session := let H := fresh in intros ? H; destruct H; split; sfields; done.

Lemma session_reliability_valid id s :
  session_ok cfg id s → reliability_valid (rs_cfg (ps_reliable s)) ∧
  reliability_valid (rs_cfg (ps_ordered_reliable s)).
Proof.
  intros Hok. rewrite (so_reliable _ _ _ Hok), (so_ordered_reliable _ _ _ Hok).
  split; apply sv_reliability; by apply server_usable_valid.
Qed.

Lemma on_reliable_safe {A} Γ id ch (m : io ReliableSession A) :
  is_Some (Γ !! id) → session_safe m → Safe (SAt cfg Γ k) (on_reliable id ch m).
Proof.
  intros Hid Hm. apply safe_session; [done|]. intros w s Hw Hs Hok _.
  destruct (session_reliability_valid _ _ Hok) as [Hv1 Hv2]. case_decide.
  - destruct (Hm _ Hv2) as [H1 H2]. destruct (m _) as [o r]. cbn in H1, H2.
    apply wp_bind. eapply wp_set_session; [done|]. apply safe_lift; [done|].
    apply (SAt_session _ _ _ _ _ s); [done| |done..]. intros []. split; sfields; try done. congruence.
  - destruct (Hm _ Hv1) as [H1 H2]. destruct (m _) as [o r]. cbn in H1, H2.
    apply wp_bind. eapply wp_set_session; [done|]. apply safe_lift; [done|].
    apply (SAt_session _ _ _ _ _ s); [done| |done..]. intros []. split; sfields; try done. congruence.
Qed.

Lemma srv_acknowledge_safe Γ id ch m now :
  is_Some (Γ !! id) → Safe (SAt cfg Γ k) (on_reliable id ch (acknowledge m now)).
Proof. intros Hid. apply on_reliable_safe; [done|]. intros s. apply acknowledge_cfg. Qed.
Lemma srv_note_safe Γ id ch m now :
  is_Some (Γ !! id) →
  Safe (SAt cfg Γ k) (on_reliable id ch (λ s, let '(b, s') := note_sent m now s in (Done b, s'))).
Proof. intros Hid. apply on_reliable_safe, session_safe_total; [done|]. intros. apply note_sent_cfg. Qed.
Lemma srv_expire_safe Γ id ch now :
  is_Some (Γ !! id) →
  Safe (SAt cfg Γ k) (on_reliable id ch (λ s, let '(n, s') := expire_old now s in (Done n, s'))).
Proof. intros Hid. apply on_reliable_safe, session_safe_total; [done|]. intros. apply expire_old_cfg. Qed.
Lemma srv_incoming_safe Γ id ch m :
  is_Some (Γ !! id) →
  Safe (SAt cfg Γ k) (on_reliable id ch (λ s, let '(b, s') := accept_incoming m s in (Done b, s'))).
Proof. intros Hid. apply on_reliable_safe, session_safe_total; [done|]. intros. apply accept_incoming_cfg. Qed.
#[local] Hint Resolve srv_acknowledge_safe srv_note_safe srv_expire_safe srv_incoming_safe : safe.

Lemma reliable_message_safe Γ id ch t p n prio life :
  is_Some (Γ !! id) → readable p n → 0 <= n →
  Safe (SAt cfg Γ k) (srv_reliable_message id ch t p n prio life).
Proof.
  intros Hid Hp Hn. unfold srv_reliable_message. apply safe_if; intros _; [apply safe_fail|].
  apply safe_bind; [apply srv_now_safe|intros now]. apply safe_bind.
  { assert (Safe (SAt cfg Γ k) (on_reliable id ch (enqueue t p n prio life now))) as Hs.
    { apply on_reliable_safe; [done|]. intros s _. by apply enqueue_cfg. }
    intros w Hw. specialize (Hs w Hw). unfold wp in *.
    by destruct (on_reliable _ _ _ w) as [[|rc|] w']. }
  intros [rc|pending]; [safe_steps|].
  apply safe_bind; [apply tally_safe|intros _].
  apply safe_bind; [by apply safe_attempt, message_packet_safe; [|apply readable_w16]|intros rc].
  apply safe_if; intros _; safe_steps.
Qed.

Lemma srv_fragments_safe Γ left id options m s t payload index :
  is_Some (Γ !! id) → 0 < zlen payload <= U16_MAX → 0 <= index →
  index + Z.of_nat left <= fragment_count_for_length (zlen payload) →
  Safe (SAt cfg Γ k) (srv_send_fragments left id options m s t payload index).
Proof.
  intros Hid Hp. revert index. induction left as [|left IH]; intros index H1 H2; [apply safe_ret|].
  cbn [srv_send_fragments]. cbv zeta. unfold U16_MAX in Hp. rewrite (w16_id (zlen payload)) by ulia.
  destruct (fragment_count_spec (zlen payload)) as [Hc _]; [unfold U16_MAX; lia|].
  destruct (fragment_size_spec (zlen payload) index) as [Hsz Hpos]; [unfold U16_MAX; lia|lia|].
  apply safe_bind_lift.
  { apply write_to_safe; [done|apply write_fragment_safe]. unfold readable.
    rewrite Hsz, length_drop, max_fragment_data. lia. }
  intros encoded _. apply safe_bind.
  { apply safe_if; intros _; [apply reliable_message_safe; auto with scn
                             |apply internal_message_safe; [done|apply readable_w16]]. }
  intros _. apply safe_bind; [apply tally_safe|intros _]. rewrite (w16_id (index + 1)) by ulia.
  apply IH; lia.
Qed.

Lemma srv_fragmented_safe Γ id options t payload :
  is_Some (Γ !! id) → zlen payload <= U16_MAX →
  Safe (SAt cfg Γ k) (srv_send_fragmented id options t payload).
Proof.
  intros Hid Hp. apply safe_srv_any. intros v. cbv zeta. unfold U16_MAX in Hp.
  rewrite (w16_id (zlen payload)) by ulia.
  do 3 (apply safe_if; intros _; [apply safe_fail|]).
  apply safe_if; intros Hc; [apply safe_fail|]. apply orb_false_iff in Hc as [Hc _].
  assert (0 < zlen payload) by (destruct payload; [done|simpl; lia]).
  destruct (fragment_count_spec (zlen payload)) as [Hcnt _]; [unfold U16_MAX; lia|].
  apply safe_session; [done|]. intros w0 s0 Hw0 _ _ _.
  match goal with |- wp _ ?m _ _ => revert w0 Hw0; change (Safe (SAt cfg Γ k) m) end.
  apply safe_bind; [by apply safe_set_session; [|same_session|..]|intros _].
  apply safe_bind.
  { do 2 (case_decide; [apply safe_bind; [by apply safe_set_session; [|same_session|..]
      |intros _; apply safe_ret]|]). apply safe_ret. }
  intros s. apply safe_bind; [apply srv_fragments_safe; unfold U16_MAX; auto; lia|intros _]. safe_steps.
Qed.

Lemma srv_finish_safe Γ peer options t m :
  Safe (SAt cfg Γ k) m → Safe (SAt cfg Γ k) (srv_finish peer options t m).
Proof. intros Hm. unfold srv_finish. safe_steps. Qed.

(** ** The public send operations *)

Lemma peer_session_known Γ peer w s :
  SAt cfg Γ k w → peer_session peer (sw_server w) = Some s → is_Some (Γ !! peer_conn_id peer).
Proof.
  intros Hw Hs. unfold peer_session in Hs. destruct (find_session _ _) as [s'|] eqn:Hf; [|done].
  rewrite (SAt_find _ _ _ _ _ _ Hw Hf). by eexists.
Qed.

Lemma srv_send_payload_safe Γ peer p n :
  readable p n → 0 <= n → Safe (SAt cfg Γ k) (srv_send_payload peer p n).
Proof.
  intros Hp Hn. apply safe_srv. intros w Hw. destruct (peer_session _ _) as [s|] eqn:Hs; [|done].
  pose proof (peer_session_known _ _ _ _ Hw Hs). revert w Hw Hs. intros w Hw _.
  apply safe_if; [intros _; apply safe_fail|intros _|done].
  apply safe_if; intros _; [apply safe_fail|by apply queue_sealed_safe].
Qed.

Lemma srv_send_safe Γ peer options t payload : Safe (SAt cfg Γ k) (srv_send peer options t payload).
Proof.
  apply safe_srv. intros w Hw. cbv zeta. destruct (peer_session _ _) as [s|] eqn:Hs; [|done].
  pose proof (peer_session_known _ _ _ _ Hw Hs) as Hid. revert Hw. clear Hs. revert w.
  match goal with |- ∀ w, _ → wp _ ?m w _ => change (Safe (SAt cfg Γ k) m) end.
  do 2 (apply safe_if; intros _; [apply safe_fail|]).
  apply safe_if; intros Hp; [apply safe_fail|]. apply Z.ltb_ge in Hp.
  pose proof (readable_data_of payload Hp) as Hr.
  apply safe_if; intros _; [by apply srv_finish_safe, srv_fragmented_safe|].
  destruct (so_channel options).
  - by apply srv_finish_safe, message_packet_safe.
  - apply srv_finish_safe, reliable_message_safe; auto with scn.
  - apply safe_bind; [by apply safe_set_session; [|same_session|..]|intros _].
    apply safe_bind_lift; [apply write_to_safe; [done|by apply write_envelope_safe]|].
    intros e _. apply srv_finish_safe, reliable_message_safe; auto with scn.
  - apply safe_bind; [by apply safe_set_session; [|same_session|..]|intros _].
    apply safe_bind_lift; [apply write_to_safe; [done|by apply write_envelope_safe]|].
    intros e _. apply srv_finish_safe, message_packet_safe; auto with scn.
  - by apply srv_finish_safe, message_packet_safe.
Qed.

Lemma broadcast_loop_safe Γ ids excluded options t payload rc :
  (∀ id, id ∈ ids → is_Some (Γ !! id)) →
  Safe (SAt cfg Γ k) (broadcast_loop ids excluded options t payload rc).
Proof.
  revert rc. induction ids as [|id ids IH]; intros rc Hids; [apply safe_ret|]. cbn [broadcast_loop].
  assert (∀ rc, Safe (SAt cfg Γ k) (broadcast_loop ids excluded options t payload rc)) as Hrest.
  { intros rc'. apply IH. intros i Hi. apply Hids. by right. }
  apply safe_session; [apply Hids; left|]. intros w s Hw _ _ _. destruct (_ || _); [by apply Hrest|].
  by eapply wp_seq; [apply safe_attempt, srv_send_safe|done|done|intros; apply Hrest].
Qed.

Lemma traversal_known `{TraversalLaws} Γ w id :
  SAt cfg Γ k w → id ∈ traversal (s_sessions (sw_server w)) → is_Some (Γ !! id).
Proof.
  intros [_ <-]. rewrite traversal_keys. intros ((i & s) & -> & Hin%elem_of_map_to_list)%list_elem_of_fmap.
  exists (view_of s). cbn [fst]. unfold views. by rewrite lookup_fmap, Hin.
Qed.

Lemma broadcast_safe `{TraversalLaws} Γ excluded options t payload :
  Safe (SAt cfg Γ k) (broadcast excluded options t payload).
Proof.
  apply safe_srv. intros w Hw. eapply wp_seq; [apply broadcast_loop_safe|done|done|].
  - intros id. by apply traversal_known.
  - intros rc w1 Hw1. by destruct (ok rc).
Qed.

Lemma set_user_data_safe Γ peer data : Safe (SAt cfg Γ k) (set_peer_user_data peer data).
Proof.
  apply safe_srv. intros w Hw. destruct (peer_session _ _) as [s|] eqn:Hs; [|done].
  by apply safe_set_session; [by eapply peer_session_known|same_session|..].
Qed.

(** ** The send budget *)

Lemma session_rate id s :
  session_ok cfg id s →
  1 <= rate_bytes_per_second (ps_congestion s) <= U32_MAX ∧
  bucket_cap_bytes (ps_congestion s) = Z.max 1300 (rate_bytes_per_second (ps_congestion s) * 2).
Proof.
  intros Hok. exact (cc_rate _ _ _ (server_usable_congestion _ Hu) (so_congestion _ _ _ Hok)).
Qed.

Lemma srv_refill_safe Γ id now : is_Some (Γ !! id) → Safe (SAt cfg Γ k) (srv_refill id now).
Proof.
  intros Hid. apply safe_session; [done|]. intros w0 s0 Hw0 _ _ _. revert w0 Hw0.
  match goal with |- ∀ w, _ → wp _ ?m w _ => change (Safe (SAt cfg Γ k) m) end.
  apply safe_if; intros _.
  { apply safe_set_session; [done| |done..]. intros s Hok. pose proof (session_rate _ _ Hok) as [Hr Hcap].
    destruct Hok. split; sfields; try done. case_match; lia. }
  apply safe_if; intros _; [apply safe_ret|]. cbv zeta. apply safe_if; intros _; [|apply safe_ret].
  apply safe_bind; [|intros _; apply tally_safe].
  apply safe_set_session; [done| |done..]. intros s Hok. pose proof (session_rate _ _ Hok) as [Hr Hcap].
  destruct Hok. split; sfields; try done.
  match goal with |- context [w64 ?z] => pose proof (w64_range z) as Hw64 end. unfold is_u64 in Hw64. lia.
Qed.

(** An acknowledgement never lowers the cap. *)
Lemma srv_on_ack_safe Γ id v rtt re :
  is_Some (Γ !! id) → Safe (SAt cfg Γ k) (srv_congestion id (on_ack v rtt re)).
Proof.
  intros Hid. apply safe_session; [done|]. intros w s Hw Hs Hok _.
  pose proof (server_usable_congestion _ Hu) as Hcu.
  destruct (cc_step_inv _ _ (EvAck v rtt re) _ Hcu (so_congestion _ _ _ Hok)) as (c' & Hc' & Hinv).
  cbn [cc_step] in Hc'. rewrite Hc'. apply wp_bind, wp_done. eapply wp_set_session; [done|].
  apply (SAt_session _ _ _ _ _ s); [done| |done..]. intros _.
  pose proof (on_ack_rate _ _ _ _ _ _ _ Hcu (so_congestion _ _ _ Hok) Hc').
  destruct (cc_rate _ _ _ Hcu Hinv) as [_ Hcap']. pose proof (session_rate _ _ Hok) as [_ Hcap].
  destruct Hok. split; sfields; try done. rewrite Hcap'. lia.
Qed.

Lemma srv_adapt_safe Γ id f ev :
  is_Some (Γ !! id) → (∀ c, f c = cc_step ev c) → Safe (SAt cfg Γ k) (srv_adapt id f).
Proof.
  intros [v Hid] Hf w Hw. destruct (SAt_lookup _ _ _ _ _ _ Hw Hid) as (s & Hs & _ & Hok).
  pose proof (server_usable_congestion _ Hu) as Hcu.
  destruct (cc_step_inv _ _ ev _ Hcu (so_congestion _ _ _ Hok)) as (c' & Hc' & Hinv).
  unfold srv_adapt, srv_congestion. apply wp_bind, wp_bind. eapply wp_session; [done|].
  rewrite Hf, Hc'. apply wp_bind, wp_done. eapply wp_set_session; [done|].
  eapply wp_set_session; [apply lookup_insert_eq|].
  cbn [sw_server sw_net sw_events]. sfields. rewrite insert_insert_eq.
  apply (SAt_session _ _ _ _ _ s); [done| |done..]. intros _.
  destruct (cc_rate _ _ _ Hcu Hinv) as [Hr Hcap]. destruct Hok. split; sfields; try done.
  rewrite Hcap. lia.
Qed.

Lemma srv_backpressured_safe Γ id now :
  is_Some (Γ !! id) → Safe (SAt cfg Γ k) (srv_adapt id (on_backpressure now)).
Proof. intros Hid. by apply (srv_adapt_safe Γ id _ (EvBackpressure now)). Qed.
Lemma srv_lost_safe Γ id now n :
  is_Some (Γ !! id) → Safe (SAt cfg Γ k) (srv_adapt id (on_loss now n)).
Proof. intros Hid. by apply (srv_adapt_safe Γ id _ (EvLoss now n)). Qed.
#[local] Hint Resolve srv_on_ack_safe srv_backpressured_safe srv_lost_safe srv_refill_safe : safe.

(** ** Flushing *)

Definition queued (w : ServerWorld) : list ServerPacket := s_pending (sw_server w).

Lemma stable_set_srv f : (∀ v, s_pending (f v) = s_pending v) → Stable queued (set_srv f).
Proof. intros Hf w. apply Hf. Qed.
Lemma stable_tally_n f n : Stable queued (tally_n f n).
Proof. by apply stable_set_srv. Qed.
Lemma stable_tally f : Stable queued (tally f).
Proof. by apply stable_set_srv. Qed.
Lemma stable_refresh : Stable queued srv_refresh.
Proof. by apply stable_set_srv. Qed.
Lemma stable_session id : Stable queued (session id).
Proof. intros w. unfold session. by destruct (_ !! _). Qed.
Lemma stable_set_session id f : Stable queued (set_session id f).
Proof. apply stable_bind; [apply stable_session|intros s]. by apply stable_set_srv. Qed.
Lemma stable_os {A} (m : io Net A) : Stable queued (os m).
Proof. intros w. unfold os. by destruct (m (sw_net w)). Qed.
#[local] Hint Resolve stable_tally_n stable_tally stable_refresh stable_session stable_set_session
  stable_os : stable.
Lemma stable_refill id now : Stable queued (srv_refill id now).
Proof. unfold srv_refill. apply stable_bind; [eauto with stable|intros s]. cbv zeta. eauto 6 with stable. Qed.
Lemma stable_adapt id f : Stable queued (srv_adapt id f).
Proof. unfold srv_adapt, srv_congestion. eauto 6 with stable. Qed.
Lemma stable_debug d e v : Stable queued (srv_packet_debug d e v).
Proof. apply stable_bind; [done|intros s]. by apply stable_when. Qed.
Lemma stable_preauth_send e n now : Stable queued (note_preauth_send e n now).
Proof. apply stable_bind; [done|intros s]. by apply stable_set_srv. Qed.
#[local] Hint Resolve stable_refill stable_adapt stable_debug stable_preauth_send : stable.

(** A packet leaves the queue. *)
Lemma erase_packet_ok v pre it rest :
  server_ok cfg v → s_pending v = pre ++ it :: rest →
  server_ok cfg (v <| s_pending_bytes := w64 (s_pending_bytes v - sp_len it) |>
                   <| s_pending := pre ++ rest |>).
Proof.
  intros Hv Hq. pose proof (server_usable_queue _ Hu).
  pose proof (vo_each _ _ Hv) as He. pose proof (vo_count _ _ Hv) as Hc.
  pose proof (vo_sorted _ _ Hv) as Hs. pose proof (vo_bytes _ _ Hv) as Hb.
  rewrite Hq in He, Hc, Hs, Hb. rewrite fmap_app, fmap_cons in He, Hs, Hb.
  assert ((as_pending <$> pre) ++ as_pending it :: (as_pending <$> rest) ≡ₚ
    as_pending it :: (as_pending <$> (pre ++ rest))) as Hperm
    by (by rewrite fmap_app, Permutation_middle).
  rewrite Hperm in He. apply Forall_cons in He as [_ He].
  pose proof (queue_len_nonneg _ He) as Hlen. rewrite length_fmap, length_app in Hlen.
  rewrite length_app in Hc. cbn [length] in Hc.
  destruct Hv. split; sfields; try done.
  - rewrite length_app. lia.
  - rewrite fmap_app. apply StronglySorted_app in Hs as (S1 & S2 & S3). inv S3.
    apply StronglySorted_app_2; [|done|done]. intros x1 x2 Hx1 Hx2. apply S1; [done|by right].
  - rewrite Hb, (queue_len_perm _ _ Hperm). cbn [queue_len foldr as_pending pp_len].
    fold (queue_len (as_pending <$> (pre ++ rest))). unfold U32_MAX in *.
    rewrite w64_id; [lia|]. ulia.
Qed.

Lemma erase_packet_wp Γ pre it rest w E (Q : unit → ServerWorld → Prop) :
  SAt cfg Γ k w → queued w = pre ++ it :: rest →
  (∀ w', SAt cfg Γ k w' → queued w' = pre ++ rest → Q tt w') → wp E (erase_packet pre it rest) w Q.
Proof.
  intros Hw Hq HQ. unfold erase_packet. apply wp_bind, wp_set_srv, wp_set_srv. apply HQ; [|done].
  apply SAt_server; [|done|]; cbn [sw_server].
  - intros Hv. by apply server_ok_stats.
  - apply SAt_server; [|done|done]. intros Hv. by apply erase_packet_ok.
Qed.

Lemma udp_send_to_safe Γ to data n : Safe (SAt cfg Γ k) (os (UdpSocket.send_to to data n)).
Proof.
  apply os_safe. intros m. unfold UdpSocket.send_to.
  destruct (send_datagram_inbox (Some (normalize_send_endpoint to)) data n m) as [? ->].
  split; [done|lia].
Qed.

Lemma send_debug_safe Γ (p : ServerPacket) (b : bool) :
  pending_ok (as_pending p) →
  Safe (SAt cfg Γ k)
    (if b then match parse_packet (Some (take (Z.to_nat (sp_len p)) (sp_bytes p))) (sp_len p) with
               | Done packet => srv_packet_debug "send" (sp_to p) packet
               | Err _ => mret tt
               | UB => undefined
               end else mret tt) ∧
  Stable sw_server
    (if b then match parse_packet (Some (take (Z.to_nat (sp_len p)) (sp_bytes p))) (sp_len p) with
               | Done packet => srv_packet_debug "send" (sp_to p) packet
               | Err _ => mret tt
               | UB => undefined
               end else mret tt).
Proof.
  intros [_ _ [v Hv]]. cbn [as_pending pp_len pp_bytes] in Hv. rewrite Hv.
  destruct b; [|split; [apply safe_ret|done]]. split; [apply srv_packet_debug_safe|].
  apply stable_bind; [done|intros s]. by apply stable_when.
Qed.

(** What [transmit] does with the packet at hand. *)
Definition progress (n : nat) (r : scan) (w : ServerWorld) : Prop :=
  match r with Progressed => (length (queued w) < n)%nat | _ => True end.

(** The bookkeeping of a packet that was sent. *)
Lemma sent_wp Γ (it : ServerPacket) now w E (Q : unit → ServerWorld → Prop) :
  SAt cfg Γ k w → pending_ok (as_pending it) →
  (sp_owner_conn_id it ≠ 0 → ∃ s, s_sessions (sw_server w) !! sp_owner_conn_id it = Some s ∧
     sp_len it <= ps_send_budget_bytes s) →
  (∀ w', SAt cfg Γ k w' → queued w' = queued w → Q tt w') → (∀ w', SAt cfg Γ k w' → E w') →
  wp E (if sp_owner_conn_id it =? 0 then note_preauth_send (sp_to it) (sp_len it) now
     else
       set_session (sp_owner_conn_id it)
         (λ s, s <| ps_send_budget_bytes := w64 (ps_send_budget_bytes s - sp_len it) |>
                 <| ps_last_send_ms := now |>);;
       s ← session (sp_owner_conn_id it);
       when (negb (bool_decide (ps_state s = ConnectionState.Established)))
         (note_preauth_send (ps_endpoint s) (sp_len it) now)) w Q.
Proof.
  intros Hw Hp Hown HQ HE. destruct (Z.eqb_spec (sp_owner_conn_id it) 0) as [|Hne].
  { eapply (wp_stable queued); [apply preauth_send_safe|eauto with stable|exact Hw|done|].
    intros [] w' Hw' Hq. by apply HQ. }
  destruct (Hown Hne) as (s & Hs & Hb). pose proof (po_len _ Hp) as Hl.
  change NetConfig.PacketHeaderBytes with 28 in Hl. cbn [as_pending pp_len] in Hl.
  apply wp_bind. eapply wp_set_session; [done|]. apply wp_bind.
  eapply wp_session; [apply lookup_insert_eq|].
  eapply (wp_stable queued (SAt cfg Γ k)); [apply safe_when, preauth_send_safe|eauto with stable| |done|].
  2: { intros [] w' Hw' Hq. by apply HQ. }
  apply (SAt_session _ _ _ _ _ s); [done| |done..]. intros Hok.
  pose proof (session_rate _ _ Hok) as [Hr Hcap]. pose proof (so_budget _ _ _ Hok).
  destruct Hok. split; sfields; try done. rewrite Hcap in *. unfold U32_MAX in *.
  rewrite w64_id by ulia. lia.
Qed.

Lemma transmit_wp Γ pre it rest now blocked w :
  SAt cfg Γ k w → queued w = pre ++ it :: rest →
  (sp_owner_conn_id it ≠ 0 → ∃ s, s_sessions (sw_server w) !! sp_owner_conn_id it = Some s ∧
     sp_len it <= ps_send_budget_bytes s) →
  wp (SAt cfg Γ k) (transmit pre it rest now blocked) w
    (λ r w', SAt cfg Γ k w' ∧ progress (length (queued w)) r w').
Proof.
  intros Hw Hq Hown. unfold transmit.
  assert (pending_ok (as_pending it)) as Hp.
  { pose proof (vo_each _ _ (si_server _ _ _ (proj1 Hw))) as He. unfold queued in Hq.
    rewrite Hq, fmap_app, fmap_cons in He. by apply Forall_app in He as [_ [? _]%Forall_cons]. }
  assert (sp_owner_conn_id it ≠ 0 → is_Some (Γ !! sp_owner_conn_id it)) as Hknown.
  { intros Hne. destruct (Hown Hne) as (s & Hs & _). rewrite <- (proj2 Hw). unfold views.
    rewrite lookup_fmap, Hs. by eexists. }
  apply wp_bind, wp_srv. cbv zeta.
  destruct (send_debug_safe Γ it (server_enable_packet_debug_dumps (s_config (sw_server w))) Hp) as [Hd1 Hd2].
  apply wp_bind. eapply (wp_stable sw_server); [exact Hd1|exact Hd2|exact Hw|done|].
  intros _ w1 Hw1 Hv1. apply wp_bind.
  eapply (wp_stable sw_server); [apply safe_attempt, udp_send_to_safe| |exact Hw1|done|].
  { apply stable_attempt. intros ?. unfold os. by destruct (UdpSocket.send_to _ _ _ _). }
  intros rc w2 Hw2 Hv2. rewrite Hv1 in Hv2.
  assert (queued w2 = queued w) as Hq2 by (unfold queued; by rewrite Hv2).
  destruct (negb (ok rc)).
  { case_decide.
    - eapply (wp_seq (SAt cfg Γ k)); [apply tally_safe|exact Hw2|done|]. intros _ w3 Hw3.
      eapply (wp_seq (SAt cfg Γ k)); [|exact Hw3|done|].
      { destruct (Z.eqb_spec (sp_owner_conn_id it) 0); [apply safe_ret|auto with safe]. }
      intros _ w4 Hw4. eapply (wp_seq (SAt cfg Γ k)); [apply safe_when, tally_safe|exact Hw4|done|].
      intros _ w5 Hw5. eapply (wp_seq (SAt cfg Γ k)); [apply srv_refresh_safe|exact Hw5|done|].
      intros _ w6 Hw6. by apply wp_ret.
    - eapply (wp_seq (SAt cfg Γ k)); [apply tally_safe|exact Hw2|done|]. intros _ w3 Hw3. by apply wp_err. }
  apply wp_bind. eapply (sent_wp Γ); [exact Hw2|done|by rewrite Hv2| |done]. intros w3 Hw3 Hq3.
  apply wp_bind. eapply (wp_stable queued); [apply tally_safe|apply stable_tally|exact Hw3|done|].
  intros _ w4 Hw4 Hq4. apply wp_bind.
  eapply (wp_stable queued); [apply tally_n_safe|apply stable_tally_n|exact Hw4|done|].
  intros _ w5 Hw5 Hq5. apply wp_bind. eapply (erase_packet_wp Γ); [exact Hw5|congruence|].
  intros w6 Hw6 Hq6. apply wp_ret. split; [done|]. unfold progress. rewrite Hq6, Hq, !length_app. simpl. lia.
Qed.

Lemma scan_queue_wp Γ pre q now blocked w :
  SAt cfg Γ k w → queued w = pre ++ q →
  wp (SAt cfg Γ k) (scan_queue pre q now blocked) w
    (λ r w', SAt cfg Γ k w' ∧ progress (length (queued w)) r w').
Proof.
  revert pre blocked w. induction q as [|it rest IH]; intros pre blocked w Hw Hq; cbn [scan_queue].
  { by apply wp_ret. }
  cbv zeta. destruct (Z.eqb_spec (sp_owner_conn_id it) 0) as [H0|Hne].
  { apply transmit_wp; [done|done|]. intros ?. congruence. }
  apply wp_bind, wp_srv. destruct (find_session _ _) as [s|] eqn:Hf.
  2: { apply wp_bind. eapply (erase_packet_wp Γ); [exact Hw|done|]. intros w1 Hw1 Hq1.
       apply wp_ret. split; [done|]. unfold progress. rewrite Hq1, Hq, !length_app. simpl. lia. }
  pose proof (SAt_find _ _ _ _ _ _ Hw Hf) as Hid.
  assert (is_Some (Γ !! sp_owner_conn_id it)) as Hsome by (by rewrite Hid; eexists).
  apply wp_bind. eapply (wp_stable queued); [by apply srv_refill_safe|apply stable_refill|exact Hw|done|].
  intros _ w1 Hw1 Hq1. destruct (SAt_lookup _ _ _ _ _ _ Hw1 Hid) as (s1 & Hs1 & _ & _).
  apply wp_bind. eapply wp_session; [exact Hs1|].
  destruct (Z.ltb_spec (ps_send_budget_bytes s1) (sp_len it)) as [|Hb].
  - apply wp_bind. eapply (wp_stable queued);
      [by apply srv_backpressured_safe|apply stable_adapt|exact Hw1|done|].
    intros _ w2 Hw2 Hq2. rewrite <- Hq1, <- Hq2. apply IH; [done|].
    rewrite Hq2, Hq1, Hq. by rewrite <- app_assoc.
  - rewrite <- Hq1. apply transmit_wp; [done|congruence|]. intros _. by exists s1.
Qed.

Lemma srv_flush_loop_wp Γ fuel w :
  SAt cfg Γ k w → (length (queued w) < fuel)%nat →
  wp (SAt cfg Γ k) (srv_flush_loop fuel) w (λ _, SAt cfg Γ k).
Proof.
  revert w. induction fuel as [|fuel IH]; intros w Hw Hlen; [lia|]. cbn [srv_flush_loop].
  apply wp_bind. eapply (wp_stable queued); [apply srv_now_safe|apply stable_os|exact Hw|done|].
  intros now w1 Hw1 Hq1. apply wp_bind, wp_srv, wp_bind.
  eapply wp_mono; [by apply (scan_queue_wp Γ [])|]. intros r w2 [Hw2 Hp].
  destruct r as [|blocked|]; [| |by apply wp_ret].
  - apply IH; [done|]. unfold progress in Hp. rewrite Hq1 in Hp. lia.
  - eapply (wp_seq (SAt cfg Γ k)); [|exact Hw2|done|intros _ w3 Hw3; by apply srv_refresh_safe].
    destruct blocked; safe_steps.
Qed.

Lemma srv_flush_safe Γ : Safe (SAt cfg Γ k) srv_flush_pending.
Proof. apply safe_srv. intros w Hw. by apply srv_flush_loop_wp; [|unfold queued; lia]. Qed.

(** ** Retransmission *)

(** The state of the callback: still defined, and the invariant. *)
Definition srv_resend_ok Γ (x : bool * ServerWorld) : Prop := x.1 = false ∧ SAt cfg Γ k x.2.

Lemma srv_resend_packet_ok Γ id ch m x :
  is_Some (Γ !! id) → srv_resend_ok Γ x → srv_resend_ok Γ (srv_resend_packet id ch m x).2.
Proof.
  intros Hid (Hb & Hw). unfold srv_resend_packet, srv_resend_ok.
  pose proof (message_packet_safe Γ id ch (p_user_type m) (Some (p_encoded_payload m))
    (w16 (zlen (p_encoded_payload m))) (p_priority m) Hid (readable_w16 _) _ Hw) as Hq.
  unfold wp in Hq. destruct (srv_message_packet _ _ _ _ _ _ _) as [[a|rc|] w']; cbn in *; done.
Qed.

Lemma srv_resend_due_safe Γ id ch now : is_Some (Γ !! id) → Safe (SAt cfg Γ k) (srv_resend_due id ch now).
Proof.
  intros Hid. unfold srv_resend_due. apply safe_session; [done|]. intros w s Hw Hs Hok _. cbv zeta.
  set (r := if decide _ then _ else _). assert (rs_cfg r = server_reliability cfg) as Hr.
  { subst r. destruct Hok. by case_decide. }
  apply wp_bind. unfold wp at 1.
  pose proof (resend_due_state (srv_resend_ok Γ) now (srv_resend_packet id ch) r (false, w)
    (λ m x, srv_resend_packet_ok Γ id ch m x Hid) (conj eq_refl Hw)) as Hx.
  pose proof (resend_due_cfg now (srv_resend_packet id ch) r (false, w)) as Hcfg.
  destruct (resend_due _ _ _ _) as [[rc r'] [ub w1]]. destruct Hx as (Hub & Hw1).
  cbn in Hub, Hw1, Hcfg. subst ub.
  eapply wp_seq; [|exact Hw1|done|intros _ w2 Hw2; by apply wp_ret].
  rewrite Hr in Hcfg. apply safe_set_session; [done|..]; try (intros; by case_decide).
  intros s' []. case_decide; split; sfields; done.
Qed.

Lemma srv_tolerate_safe Γ rc : Safe (SAt cfg Γ k) (srv_tolerate rc).
Proof. unfold srv_tolerate. apply safe_if; intros _; [apply safe_ret|]. case_decide; safe_steps. Qed.
#[local] Hint Resolve srv_tolerate_safe srv_resend_due_safe : safe.

Lemma pump_session_safe Γ id now : is_Some (Γ !! id) → Safe (SAt cfg Γ k) (pump_session id now).
Proof.
  intros Hid. unfold pump_session. apply safe_session; [done|]. intros w0 s0 Hw0 _ _ _. revert w0 Hw0.
  cbv zeta. match goal with |- ∀ w, _ → wp _ ?m w _ => change (Safe (SAt cfg Γ k) m) end.
  apply safe_bind; [by apply srv_expire_safe|intros n1]. apply safe_bind; [by apply srv_expire_safe|intros n2].
  apply safe_bind; [case_match; safe_steps|intros _].
  do 4 (apply safe_bind; [solve [eauto with safe]|intros ?]).
  apply safe_session; [done|]. intros w s Hw _ _ _.
  eapply (wp_seq (SAt cfg Γ k)); [eauto with safe|exact Hw|done|]. intros _ w1 Hw1.
  destruct (_ <? _); [|by apply wp_ret].
  eapply (wp_seq (SAt cfg Γ k)); [apply tally_n_safe|exact Hw1|done|]. intros _ w2 Hw2.
  by apply srv_lost_safe.
Qed.

Lemma pump_sessions_safe Γ ids now :
  (∀ id, id ∈ ids → is_Some (Γ !! id)) → Safe (SAt cfg Γ k) (pump_sessions ids now).
Proof.
  induction ids as [|id ids IH]; intros Hids; [apply safe_ret|]. cbn [pump_sessions].
  apply safe_session; [apply Hids; left|]. intros w s Hw _ _ _.
  eapply (wp_seq (SAt cfg Γ k)); [|exact Hw|done|].
  - destruct (negb _); [apply safe_ret|]. apply pump_session_safe, Hids. left.
  - intros _ w1 Hw1. apply IH; [|done]. intros i Hi. apply Hids. by right.
Qed.

Lemma srv_pump_reliable_safe `{TraversalLaws} Γ : Safe (SAt cfg Γ k) srv_pump_reliable.
Proof.
  apply safe_bind; [apply srv_now_safe|intros now]. apply safe_srv. intros w Hw.
  eapply wp_seq; [apply pump_sessions_safe|exact Hw|done|intros _ w1 Hw1; by apply srv_refresh_safe].
  intros id. by apply traversal_known.
Qed.
End sending.
