(* ===== verification/ServerSafeRecv.v ===== *)
(** * The server: safety of the receiving half

    Delivery, reassembly within the memory limit, closing of sessions, the
    dispatch of message frames and the traffic of a session are [Safe]. *)
From stdpp Require Import sorting.
From S2P Require Import Prelude Result Hoare ByteBuf Config Message Packet Protocol Windows Payloads.
From S2P Require Import Reliability Ordered Fragmentation Congestion Crypto Stats Endpoint Socket.
From S2P Require Import Client ClientRecv ClientInv ClientSafe Server ServerSend ServerRecv ServerInv.
From S2P Require Import ServerSafe.
#[local] Open Scope Z_scope.

(** ** Reassembly memory

    The accounting is exact whatever fragments arrive, forged ones included. *)

Section memory.
Context {X : Type} (d : FragmentedMessage → X → Result * X).
Context (cfg : FragmentationConfig).
Context (Hq : 0 <= max_total_reassembly_memory_per_peer cfg <= U64_MAX - U16_MAX).

Lemma memory_exact_nonneg r : memory_exact cfg r → 0 <= ra_memory_bytes r.
Proof.
  intros []. rewrite me_bytes. apply entries_bytes_nonneg. intros id e He.
  specialize (me_lengths id e He). cbn in me_lengths. ulia.
Qed.

Lemma memory_exact_update r id e e' :
  memory_exact cfg r → ra_entries r !! id = Some e → en_original_length e' = en_original_length e →
  memory_exact cfg (mkReassembler (ra_cfg r) (<[id := e']> (ra_entries r)) (ra_memory_bytes r)).
Proof.
  intros [] He Hl. split; cbn; [done| |done|].
  - by rewrite (entries_bytes_update _ _ e).
  - apply map_Forall_insert_2; [|done]. rewrite Hl. exact (me_lengths id e He).
Qed.

Lemma memory_exact_remove r id e :
  memory_exact cfg r → ra_entries r !! id = Some e →
  memory_exact cfg (mkReassembler (ra_cfg r) (delete id (ra_entries r))
                      (w64 (ra_memory_bytes r - en_original_length e))) ∧
  w64 (ra_memory_bytes r - en_original_length e) <= ra_memory_bytes r.
Proof.
  intros Hr He. pose proof (memory_exact_nonneg _ Hr) as Hn. destruct Hr.
  pose proof (me_lengths id e He) as Hl. cbn in Hl.
  pose proof (entries_bytes_delete _ _ _ He) as Hd.
  assert (0 <= entries_bytes (delete id (ra_entries r))).
  { apply entries_bytes_nonneg. intros id' e' [_ He']%lookup_delete_Some.
    specialize (me_lengths id' e' He'). cbn in me_lengths. ulia. }
  unfold U16_MAX, U64_MAX in Hq.
  assert (w64 (ra_memory_bytes r - en_original_length e) = ra_memory_bytes r - en_original_length e) as ->
    by (apply w64_id; ulia).
  split; [|ulia]. split; cbn; [done|lia|ulia|by apply map_Forall_delete].
Qed.

Lemma accept_into_memory now f e r x :
  memory_exact cfg r → ra_entries r !! fr_message_id f = Some e →
  let r' := re_state (accept_into d now f e r x) in
  memory_exact cfg r' ∧ ra_memory_bytes r' <= ra_memory_bytes r.
Proof.
  intros Hr He. unfold accept_into. destruct (negb _); [done|].
  destruct (en_received e !! Z.to_nat (fr_index f)) as [[]|]; [| |done]; cbn [re_state ra_memory_bytes].
  - split; [|lia]. by apply (memory_exact_update _ _ e).
  - cbv zeta. destruct (_ <? _); [done|].
    set (e' := store_fragment now f (fr_index f * NetConfig.MaxFragmentDataBytes) e).
    assert (memory_exact cfg (mkReassembler (ra_cfg r) (<[fr_message_id f := e']> (ra_entries r))
      (ra_memory_bytes r))) as Hr' by by apply (memory_exact_update _ _ e).
    destruct (_ =? _); [|done]. destruct (d _ x) as [rc x1]. destruct (negb (ok rc)); [done|].
    exact (memory_exact_remove _ _ e' Hr' (lookup_insert_eq _ _ _)).
Qed.

Lemma accept_fragment_memory now f r x :
  memory_exact cfg r → is_u16 (fr_original_length f) →
  let r' := re_state (accept_fragment d now f r x) in
  memory_exact cfg r' ∧
  ra_memory_bytes r' <= ra_memory_bytes r +
    (if contains (fr_message_id f) r then 0 else fr_original_length f).
Proof.
  intros Hr Hf. pose proof (memory_exact_nonneg _ Hr) as Hn. cbv zeta.
  assert (memory_exact cfg r ∧ ra_memory_bytes r <= ra_memory_bytes r +
    (if contains (fr_message_id f) r then 0 else fr_original_length f)) as Hsame
    by (split; [done|case_match; ulia]).
  unfold accept_fragment.
  do 6 match goal with |- context [re_state (if ?b then _ else _)] => destruct b; [exact Hsame|] end.
  unfold contains in *.
  destruct (ra_entries r !! fr_message_id f) as [e|] eqn:He.
  - destruct (accept_into_memory now f e r x Hr He) as [H1 H2]. split; [done|].
    rewrite bool_decide_eq_true_2 by (by eexists). lia.
  - rewrite bool_decide_eq_false_2 in * by (by intros []).
    destruct (_ <=? _); [exact Hsame|]. destruct (Z.ltb_spec (max_total_reassembly_memory_per_peer (ra_cfg r))
      (w64 (ra_memory_bytes r + fr_original_length f))) as [|Hroom]; [done|].
    pose proof Hr as [Hcfg Hb Hquota Hl]. unfold U16_MAX, U64_MAX in Hq.
    rewrite w64_id in Hroom |- * by ulia.
    match goal with |- context [accept_into d now f ?e ?r1 x] =>
      destruct (accept_into_memory now f e r1 x) as [H1' H2'] end; [|apply lookup_insert_eq|done].
    split; cbn; [done| |congruence|].
    + rewrite entries_bytes_insert by done. cbn. lia.
    + by apply map_Forall_insert_2.
Qed.
End memory.

Lemma expire_entries_memory {X} cfg now (g : U64 → X → X) order r x :
  0 <= max_total_reassembly_memory_per_peer cfg <= U64_MAX - U16_MAX → memory_exact cfg r →
  let r' := (expire_entries now g order r x).1 in
  memory_exact cfg r' ∧ ra_memory_bytes r' <= ra_memory_bytes r.
Proof.
  intros Hq. revert r x. induction order as [|id order IH]; intros r x Hr; [done|]. cbn [expire_entries].
  destruct (_ !! _) as [e|] eqn:He; [|by apply IH]. destruct (stale_entry _ _ _); [|by apply IH].
  destruct (memory_exact_remove cfg Hq r id e Hr He) as [H1 H2].
  match goal with |- context [expire_entries now g order ?r1 ?x1] =>
    destruct (IH r1 x1 H1) as [H3 H4] end. split; [done|]. cbn in H4. lia.
Qed.

(** ** Delivery *)

Lemma srv_message_events_plain cb p m : Forall (λ e, plain e = true) (srv_message_events cb p m).
Proof.
  unfold srv_message_events. apply Forall_app_2; [by case_match; repeat constructor|].
  apply Forall_app_2; case_match; by repeat constructor.
Qed.

Lemma slog_ok_message m cb p msg log : slog_ok m log → slog_ok m (srv_emit_message cb p msg log).
Proof.
  intros Hl. unfold srv_emit_message. induction (srv_message_events_plain cb p msg); [done|].
  by apply slog_ok_plain.
Qed.

Section delivery.
Context {HN : Ntop} {HS : Sodium} {HL : SodiumLaws}.
Context (cfg : ServerConfig) (Hu : server_usable cfg) (k : nat).
Implicit Types (Γ : gmap U64 (Endpoint * ConnectionState)).

(** What a delivery may change of session [id]: its receive windows. *)
Record delivering (m : gmap U64 PeerSession) (id : U64) (s0 : PeerSession) (d : Delivery) : Prop := {
  dl_session : session_ok cfg id (dv_session d);
  dl_view : view_of (dv_session d) = view_of s0;
  dl_seq : ps_send_seq (dv_session d) = ps_send_seq s0;
  dl_reassembler : ps_reassembler (dv_session d) = ps_reassembler s0;
  dl_log : slog_ok m (dv_events d);
}.

Lemma delivering_count m id s0 f n d : delivering m id s0 d → delivering m id s0 (dv_count f n d).
Proof. intros []. by split. Qed.

Lemma session_ok_windows id s o q :
  session_ok cfg id s → session_ok cfg id (s <| ps_ordered := o |>) ∧
  session_ok cfg id (s <| ps_sequenced := q |>).
Proof. intros []. split; split; sfields; done. Qed.

Lemma deliver_message_ok m id s0 cb ch t p n seq d :
  delivering m id s0 d → delivering m id s0 (srv_deliver_message cb ch t p n seq d).2.
Proof.
  intros Hd. pose proof Hd as [Hs Hv Hq Hr Hl]. unfold srv_deliver_message. cbv zeta. case_decide.
  - match goal with |- context [accept_ordered ?dl ?s ?t ?p ?n ?ow ?x] =>
      pose proof (accept_ordered_state (λ y : list ServerEvent * U64, slog_ok m y.1) dl s t p n ow x) as Ha;
      set (a := accept_ordered dl s t p n ow x) in * end.
    destruct (oa_state a) as [events cnt]. cbn in Ha.
    assert (slog_ok m events) as He by (apply Ha; [intros; by apply slog_ok_message|done]).
    assert (delivering m id s0 (mkDelivery (dv_session d <| ps_ordered := oa_window a |>)
      (dv_stats (dv_count Stat.ordered_messages_received 1 d)) events)) as Hd2.
    { split; cbn [dv_session dv_events]; try done.
      exact (proj1 (session_ok_windows _ _ (oa_window a) fresh_sequenced Hs)). }
    destruct (negb _); [case_decide|destruct (oa_buffered a), (oa_stale a)]; cbn [snd];
      by repeat apply delivering_count.
  - case_decide.
    + destruct (Sequenced.accept _ _) as [fresh sw].
      pose proof (proj2 (session_ok_windows _ _ (ps_ordered (dv_session d)) sw Hs)) as Hs'.
      destruct (negb fresh); cbn [snd]; [apply delivering_count|];
        split; cbn [dv_session dv_events]; try done. by apply slog_ok_message.
    + split; cbn [snd dv_session dv_events]; try done. by apply slog_ok_message.
Qed.

Lemma deliver_reassembled_msg_ok m id s0 cb msg d :
  delivering m id s0 d → delivering m id s0 (srv_deliver_reassembled cb msg d).2.
Proof. intros Hd. by apply deliver_message_ok, delivering_count. Qed.

Lemma on_delivery_wp {A} Γ id s (f : ServerCallbacks → Delivery → A * Delivery) w E Q :
  SAt cfg Γ k w → s_sessions (sw_server w) !! id = Some s →
  (let '(a, d) := f (s_callbacks (sw_server w)) (mkDelivery s (s_stats (sw_server w)) (sw_events w)) in
   session_ok cfg id (dv_session d) ∧ view_of (dv_session d) = view_of s ∧
   ps_send_seq (dv_session d) = ps_send_seq s ∧ slog_ok (s_sessions (sw_server w)) (dv_events d) ∧
   (quota_sane cfg →
    total_memory (s_sessions (sw_server w)) <= max_total_reassembly_memory_server (server_abuse cfg) →
    total_memory (<[id := dv_session d]> (s_sessions (sw_server w)))
      <= max_total_reassembly_memory_server (server_abuse cfg)) ∧
   (∀ w', SAt cfg Γ k w' → Q a w')) →
  wp E (on_delivery id f) w Q.
Proof.
  intros Hw Hs Hf. unfold on_delivery. apply wp_bind. eapply wp_session; [done|].
  apply wp_bind, wp_srv, wp_bind. unfold wp at 1.
  destruct (f _ _) as [a d]. destruct Hf as (Hok & Hv & Hq & Hl & Hm & HQ).
  apply wp_bind. eapply wp_set_session; [exact Hs|]. apply wp_bind, wp_set_srv, wp_ret, HQ.
  cbn [sw_server sw_net sw_events]. destruct Hw as [[Hsrv Hlog Hi] HΓ].
  assert (server_ok cfg (sw_server w <| s_sessions := <[id := dv_session d]> (s_sessions (sw_server w)) |>))
    as Hsrv' by (apply (server_ok_session _ _ _ s); [done|done|by injection Hv|done|done]).
  split; [|rewrite <- HΓ; by apply (view_update _ _ s)].
  split; cbn [sw_server sw_net sw_events]; [by apply server_ok_stats| |done].
  sfields. by eapply slog_ok_update.
Qed.

Lemma deliver_safe Γ id ch t p n seq :
  is_Some (Γ !! id) → Safe (SAt cfg Γ k) (on_delivery id (λ cb, srv_deliver_message cb ch t p n seq)).
Proof.
  intros [v Hid] w Hw. destruct (SAt_lookup _ _ _ _ _ _ Hw Hid) as (s & Hs & Hv & Hok).
  eapply (on_delivery_wp Γ); [done|done|].
  pose proof (deliver_message_ok (s_sessions (sw_server w)) id s (s_callbacks (sw_server w)) ch t p n seq
    (mkDelivery s (s_stats (sw_server w)) (sw_events w))) as Hd.
  destruct (srv_deliver_message _ _ _ _ _ _ _) as [rc d]. destruct Hd as [H1 H2 H3 H4 H5].
  { split; [done..|apply Hw]. }
  split_and!; try done. intros _. by apply (same_memory _ _ s).
Qed.

Lemma quota_range : quota_sane cfg →
  0 <= max_total_reassembly_memory_per_peer (server_fragmentation cfg) <= U64_MAX - U16_MAX.
Proof.
  intros Hq. pose proof (sv_memory _ (server_usable_valid _ Hu)). destruct Hu as [Ht _].
  unfold server_typed, fragmentation_typed in Ht. unfold quota_sane in Hq. split; [|lia].
  destruct Ht as (_ & (_ & _ & _ & ? & _) & _). ulia.
Qed.

Lemma total_memory_nonneg v : quota_sane cfg → server_ok cfg v → 0 <= total_memory (s_sessions v).
Proof.
  intros Hq Hv. pose proof (vo_sessions _ _ Hv) as Hm. unfold total_memory.
  apply (map_fold_weak_ind (λ n (m : gmap U64 PeerSession), map_Forall (session_ok cfg) m → 0 <= n));
    [done| |done].
  intros i s m n Hi IH [Hs Hm']%map_Forall_insert; [|done]. specialize (IH Hm').
  pose proof (memory_exact_nonneg _ _ (so_memory _ _ _ Hs Hq)). lia.
Qed.

Lemma total_memory_foldl v :
  quota_sane cfg → server_ok cfg v → total_reassembly_memory_bytes v = total_memory (s_sessions v).
Proof.
  intros Hq0 Hv. pose proof (vo_memory _ _ Hv Hq0) as Hb. pose proof Hq0 as Hq.
  unfold quota_sane, U64_MAX, U16_MAX in Hq.
  unfold total_reassembly_memory_bytes, total_memory in *. rewrite map_fold_foldr in *.
  assert (Forall (λ s, 0 <= ra_memory_bytes (ps_reassembler s)) (map_to_list (s_sessions v)).*2) as Hpos.
  { apply Forall_fmap, Forall_forall. intros [i s] Hin%elem_of_map_to_list. cbn.
    apply (memory_exact_nonneg (server_fragmentation cfg)).
    apply (so_memory _ _ _ (vo_sessions _ _ Hv _ _ Hin)). exact Hq0. }
  assert (∀ (l : list (U64 * PeerSession)) a,
    Forall (λ s, 0 <= ra_memory_bytes (ps_reassembler s)) l.*2 → 0 <= a →
    0 <= foldr (uncurry (λ _ s n, ra_memory_bytes (ps_reassembler s) + n)) 0 l ∧
    (a + foldr (uncurry (λ _ s n, ra_memory_bytes (ps_reassembler s) + n)) 0 l <= U64_MAX →
     foldl (λ total s, w64 (total + ra_memory_bytes (ps_reassembler s))) a l.*2 =
     a + foldr (uncurry (λ _ s n, ra_memory_bytes (ps_reassembler s) + n)) 0 l)) as Hsum.
  { clear. induction l as [|[i s] l IH]; intros a Hl Ha; cbn; [lia|].
    inv Hl. cbn in *. destruct (IH (a + ra_memory_bytes (ps_reassembler s))) as [H1' H2']; [done|lia|].
    split; [lia|]. intros Hle. unfold U64_MAX in *. rewrite w64_id by ulia. rewrite H2'; lia. }
  destruct (Hsum (map_to_list (s_sessions v)) 0 Hpos ltac:(lia)) as [_ Heq].
  rewrite Heq; [done|]. unfold U64_MAX. lia.
Qed.

(** ** Reassembly *)

Lemma session_ok_reassembler id s r :
  session_ok cfg id s → entries_ok (ra_entries r) →
  (quota_sane cfg → memory_exact (server_fragmentation cfg) r) →
  session_ok cfg id (s <| ps_reassembler := r |>).
Proof. intros [] He Hm. split; sfields; done. Qed.

(** The server-wide memory limit admits the fragment. *)
Definition admitted (f : FragmentView) (s : PeerSession) (v : Server) : Prop :=
  quota_sane cfg → contains (fr_message_id f) (ps_reassembler s) = true ∨
    total_memory (s_sessions v) + fr_original_length f
      <= max_total_reassembly_memory_server (server_abuse cfg).

Lemma srv_reassemble_wp Γ id s now f w :
  SAt cfg Γ k w → s_sessions (sw_server w) !! id = Some s →
  0 <= fr_index f → is_u16 (fr_original_length f) → admitted f s (sw_server w) →
  wp (SAt cfg Γ k) (srv_reassemble id now f) w (λ _, SAt cfg Γ k).
Proof.
  intros Hw Hs Hi Hlen Hadm. pose proof (vo_sessions _ _ (si_server _ _ _ (proj1 Hw)) _ _ Hs) as Hok.
  unfold srv_reassemble. apply wp_bind. eapply (on_delivery_wp Γ); [done|done|]. cbv beta zeta.
  set (cb := s_callbacks _). set (d0 := mkDelivery s (s_stats (sw_server w)) (sw_events w)).
  destruct (accept_fragment_ok (srv_deliver_reassembled cb) now f (ps_reassembler s) d0
    (so_entries _ _ _ Hok) Hi) as [Hub Hen].
  pose proof (accept_fragment_state (delivering (s_sessions (sw_server w)) id s)
    (srv_deliver_reassembled cb) now f (ps_reassembler s) d0
    (λ m x, deliver_reassembled_msg_ok (s_sessions (sw_server w)) id s cb m x)) as Hd.
  destruct Hd as [D1 D2 D3 D4 D5]; [split; [exact Hok|reflexivity..|exact (si_log _ _ _ (proj1 Hw))]|].
  assert (quota_sane cfg →
    let r' := re_state (accept_fragment (srv_deliver_reassembled cb) now f (ps_reassembler s) d0) in
    memory_exact (server_fragmentation cfg) r' ∧ ra_memory_bytes r' <= ra_memory_bytes (ps_reassembler s) +
      (if contains (fr_message_id f) (ps_reassembler s) then 0 else fr_original_length f)) as Hmem.
  { intros Hq. apply accept_fragment_memory; [by apply quota_range|by apply (so_memory _ _ _ Hok)|done]. }
  change (ps_reassembler (dv_session d0)) with (ps_reassembler s).
  set (r := accept_fragment _ _ _ _ _) in *. cbn [dv_session dv_events]. split_and!.
  - apply session_ok_reassembler; [done|done|]. intros Hq. by apply Hmem.
  - done.
  - done.
  - done.
  - intros Hq Htot. destruct (Hmem Hq) as [_ Hle]. rewrite (total_memory_update _ _ _ _ Hs). sfields.
    destruct (Hadm Hq) as [Hc|Hroom]; [rewrite Hc in Hle; lia|]. destruct (contains _ _); ulia.
  - intros w' Hw'. cbn [fst]. destruct (re_rc r); [done|done|congruence].
Qed.

Lemma srv_handle_fragment_safe Γ id f :
  is_Some (Γ !! id) → 0 <= fr_index f → is_u16 (fr_original_length f) →
  Safe (SAt cfg Γ k) (srv_handle_fragment id f).
Proof.
  intros [v Hid] Hi Hlen w Hw. destruct (SAt_lookup _ _ _ _ _ _ Hw Hid) as (s & Hs & Hv & Hok).
  pose proof (si_server _ _ _ (proj1 Hw)) as Hsrv.
  unfold srv_handle_fragment. apply wp_bind. eapply wp_session; [done|]. apply wp_bind, wp_srv.
  destruct (_ && _) eqn:Hguard.
  { eapply (wp_seq (SAt cfg Γ k)); [apply tally_safe|exact Hw|done|]. intros _ w1 Hw1. by apply tally_safe. }
  assert (admitted f s (sw_server w)) as Hadm.
  { intros Hq0. pose proof Hq0 as Hq. apply andb_false_iff in Hguard as [Hc|Hm]; [left; by destruct (contains _ _)|right].
    apply Z.ltb_ge in Hm. rewrite (total_memory_foldl _ Hq0 Hsrv), (vo_config _ _ Hsrv) in Hm.
    pose proof (vo_memory _ _ Hsrv Hq0) as Hb. unfold quota_sane in Hq.
    unfold U64_MAX, U16_MAX in Hq. rewrite w64_id in Hm; [done|].
    pose proof (total_memory_nonneg _ Hq0 Hsrv). ulia. }
  apply wp_bind. eapply (wp_stable sw_server); [apply srv_now_safe| |exact Hw|done|].
  { intros ?. unfold os. by destruct (now_ms _). }
  intros now w1 Hw1 Hv1. apply wp_bind. eapply wp_mono.
  { eapply srv_reassemble_wp; [exact Hw1|by rewrite Hv1|done|done|by rewrite Hv1]. }
  intros [[rc dup] comp] w2 Hw2. revert w2 Hw2.
  match goal with |- ∀ w, _ → wp _ ?m w _ => change (Safe (SAt cfg Γ k) m) end.
  destruct rc as [[]|rc|]; [safe_steps| |safe_steps]. case_decide; [safe_steps|]. case_decide; safe_steps.
Qed.

Lemma srv_expire_reassemblies_safe Γ id now :
  is_Some (Γ !! id) → Safe (SAt cfg Γ k) (srv_expire_reassemblies id now).
Proof.
  intros [v Hid] w Hw. destruct (SAt_lookup _ _ _ _ _ _ Hw Hid) as (s & Hs & Hv & Hok).
  unfold srv_expire_reassemblies. eapply (on_delivery_wp Γ); [done|done|]. cbv zeta. cbn [dv_session].
  match goal with |- context [expire_entries ?n ?g ?o ?r ?x] =>
    pose proof (expire_entries_ok n g o r x (so_entries _ _ _ Hok)) as He;
    pose proof (λ Hq, expire_entries_memory (server_fragmentation cfg) n g o r x (quota_range Hq)
      (so_memory _ _ _ Hok Hq)) as Hm;
    destruct (expire_entries n g o r x) as [r' st] end.
  cbn [fst dv_session dv_stats dv_events] in *. split_and!; try done.
  - apply session_ok_reassembler; [done|done|]. intros Hq. by apply Hm.
  - apply Hw.
  - intros Hq Htot. destruct (Hm Hq) as [_ Hle]. rewrite (total_memory_update _ _ _ _ Hs). sfields. lia.
Qed.
End delivery.

Lemma read_fragment_view bs f :
  read_from (data_of bs) (zlen bs) read_fragment_payload = Done f →
  0 <= fr_index f ∧ is_u16 (fr_original_length f).
Proof.
  unfold read_from. destruct (read_fragment_payload _) as [o r] eqn:Hr. cbn. intros ->.
  unfold read_fragment_payload in Hr. inv_done Hr. case_match; [done|].
  do 7 inv_done Hr. repeat (case_match; [done|]). inv_done Hr. cbv zeta in Hr.
  repeat (case_match; [done|]). inv_done Hr. unfold mret, io_ret in Hr. simplify_eq Hr. intros <- _.
  cbn. repeat match goal with H : read_u16 _ = (Done _, _) |- _ => apply read_u16_range in H end.
  split; ulia.
Qed.

(** ** Knowing the set of sessions only *)

Section domains.
Context {HN : Ntop} (cfg : ServerConfig) (k : nat).

Lemma SAt_dom Γ w : SAt cfg Γ k w → SDom cfg (dom Γ) k w.
Proof. by intros [? <-]. Qed.
Lemma SAt_inv Γ w : SAt cfg Γ k w → SInv cfg k w.
Proof. by intros []. Qed.

Lemma safe_dom {A} D (m : io ServerWorld A) :
  (∀ Γ, dom Γ = D → Safe (SAt cfg Γ k) m) → Safe (SDom cfg D k) m.
Proof.
  intros Hm w [Hw <-]. eapply wp_safe; [by apply (Hm (views w))|done|by apply SAt_dom|].
  intros _. by apply SAt_dom.
Qed.
Lemma safe_inv {A} (m : io ServerWorld A) : (∀ Γ, Safe (SAt cfg Γ k) m) → Safe (SInv cfg k) m.
Proof.
  intros Hm w Hw. eapply wp_safe; [apply (Hm (views w))|done|apply SAt_inv|]. intros _. apply SAt_inv.
Qed.
Lemma safe_inv_dom {A} (m : io ServerWorld A) : (∀ D, Safe (SDom cfg D k) m) → Safe (SInv cfg k) m.
Proof. intros Hm w Hw. eapply wp_safe; [apply (Hm (dom (views w)))|done|by intros ? []|by intros ? ? []]. Qed.

Lemma in_domain (D : gset U64) (Γ : gmap U64 (Endpoint * ConnectionState)) (id : U64) :
  id ∈ D → dom Γ = D → is_Some (Γ !! id).
Proof. intros Hid <-. by apply elem_of_dom. Qed.
End domains.

#[export] Hint Extern 5 (Safe (SInv _ _) _) => apply safe_inv; intros ? : safe.
#[export] Hint Extern 5 (Safe (SDom _ _ _) _) => apply safe_dom; intros ? ? : safe.
#[export] Hint Extern 1 (is_Some (_ !! _)) => eapply in_domain; eassumption : safe.

(** ** Closing and eviction *)

Section closing.
Context {HN : Ntop} {HS : Sodium} {HL : SodiumLaws}.
Context (cfg : ServerConfig) (Hu : server_usable cfg) (k : nat).
Implicit Types (Γ : gmap U64 (Endpoint * ConnectionState)).

Lemma transition_dom D Γ id e σ next w E (Q : unit → ServerWorld → Prop) :
  SAt cfg Γ k w → dom Γ = D → Γ !! id = Some (e, σ) → σ = next ∨ legal_session σ next = true →
  (∀ w', SDom cfg D k w' → E w') → (∀ w', SDom cfg D k w' → Q tt w') →
  wp E (transition_session id next) w Q.
Proof.
  intros Hw HD Hid Hleg HE HQ.
  assert (dom (<[id := (e, next)]> Γ) = D) as HD'.
  { rewrite dom_insert_lookup_L; [done|]. by eexists. }
  eapply transition_session_wp; [done|done|done|..]; intros w' Hw'; [apply HQ|apply HE];
    rewrite <- HD'; by apply SAt_dom.
Qed.

(** The close packet of [close_session], sealed or not. *)
Lemma close_packet_wp Γ id s encrypted reason w E (Q : Result → ServerWorld → Prop) :
  SAt cfg Γ k w → s_sessions (sw_server w) !! id = Some s → session_ok cfg id s →
  (∀ rc w', SAt cfg Γ k w' → Q rc w') → (∀ w', SAt cfg Γ k w' → E w') →
  wp E
    (seq ← (if encrypted : bool then next_seq id else next_stateless);
     attempt (srv_close_packet (ps_endpoint s) (ps_conn_id s) reason encrypted
                (if encrypted then Some (ps_keys s) else None) seq SendPriority.High (ps_conn_id s)))
    w Q.
Proof.
  intros Hw Hs Hok HQ HE. rewrite (so_id _ _ _ Hok). apply wp_bind. destruct encrypted.
  - eapply next_seq_wp; [done| |].
    { rewrite <- (proj2 Hw). unfold views. rewrite lookup_fmap, Hs. by eexists. }
    intros seq w1 log Hw1 Hlog Hseq. unfold wp, attempt.
    pose proof (sealed_close_wp cfg Hu k Γ (ps_endpoint s) id reason seq (ps_keys s) SendPriority.High
      id w1 log Hw1 (proj1 (so_id_range _ _ _ Hok)) (so_tx _ _ _ Hok) Hlog Hseq) as Hc.
    unfold wp in Hc. destruct (srv_close_packet _ _ _ _ _ _ _ _ _) as [[[]|rc|] w2]; auto.
  - eapply next_stateless_wp; [done|]. intros seq w1 Hw1 Hseq.
    eapply wp_attempt; [apply plain_close_safe|exact Hw1|exact HQ]; [done|apply Hok|done].
Qed.

Lemma close_session_safe D id reason :
  id ∈ D → Safe (SDom cfg D k) (close_session id reason true).
Proof.
  intros Hid w [Hw HD]. assert (SAt cfg (views w) k w) as Hat by by split.
  destruct (in_domain _ _ _ Hid HD) as [[e σ] Hv].
  destruct (SAt_lookup _ _ _ _ _ _ Hat Hv) as (s & Hs & Hvs & Hok).
  unfold close_session. apply wp_bind. eapply wp_set_session; [done|]. apply wp_bind.
  eapply wp_session; [apply lookup_insert_eq|]. sfields. cbn [andb].
  assert (ps_state s = σ) as Hst by (by injection Hvs).
  set (s1 := s <| ps_close_reason := reason |>). set (w1 := mkServerWorld _ _ _).
  assert (session_ok cfg id s1) as Hok1 by (destruct Hok; split; sfields; done).
  assert (SAt cfg (views w) k w1) as Hw1 by (by apply (SAt_session _ _ _ _ _ s)).
  assert (s_sessions (sw_server w1) !! id = Some s1) as Hs1 by apply lookup_insert_eq.
  assert (∀ w', SAt cfg (views w) k w' → SDom cfg D k w') as HSD.
  { intros w' Hw'. rewrite <- HD. by apply SAt_dom. }
  case_bool_decide as Hclosed; cbn [negb].
  { eapply transition_dom; [exact Hw1|done|done|left; congruence|done|done]. }
  assert (σ = ConnectionState.Closing ∨ legal_session σ ConnectionState.Closing = true) as Hleg.
  { pose proof (so_state _ _ _ Hok) as Hidle. rewrite Hst in *. destruct σ; auto; congruence. }
  cbv zeta. set (enc := _ || _).
  pose proof (close_packet_wp (views w) id s1 enc reason w1 (SDom cfg D k)
    (λ _, SAt cfg (views w) k) Hw1 Hs1 Hok1 (λ _ _ Hx, Hx) HSD) as Hc.
  apply wp_assoc. eapply wp_mono; [exact Hc|]. intros rc w2 Hw2.
  eapply transition_dom; [exact Hw2|exact HD|exact Hv|by destruct Hleg; auto|done|done].
Qed.

Lemma tally_and_close_safe D f id reason :
  id ∈ D → Safe (SDom cfg D k) (tally_and_close f id reason).
Proof.
  intros Hid. apply safe_bind; [eauto with safe|intros _]. by apply close_session_safe.
Qed.
End closing.

(** ** Dispatching *)

Section dispatch.
Context {HN : Ntop} {HS : Sodium} {HL : SodiumLaws}.
Context (cfg : ServerConfig) (Hu : server_usable cfg) (k : nat).
Context (D : gset U64) (id : U64) (Hid : id ∈ D).
#[local] Hint Resolve tally_and_close_safe srv_acknowledge_safe srv_incoming_safe srv_on_ack_safe : safe.

Lemma deliver_or_close_safe ch t p n seq :
  Safe (SDom cfg D k) (srv_deliver_or_close id ch t p n seq).
Proof.
  unfold srv_deliver_or_close. apply safe_bind; [|intros rc; eauto with safe].
  apply safe_dom. intros Γ HΓ. apply deliver_safe. by eapply in_domain.
Qed.

Lemma fragment_or_close_safe f :
  0 <= fr_index f → is_u16 (fr_original_length f) → Safe (SDom cfg D k) (srv_fragment_or_close id f).
Proof.
  intros Hi Hl. unfold srv_fragment_or_close. apply safe_bind; [eauto with safe|intros _].
  apply safe_bind; [|intros rc; eauto with safe].
  apply safe_attempt, safe_dom. intros Γ HΓ. apply srv_handle_fragment_safe; [done| |done|done].
  by eapply in_domain.
Qed.

Lemma srv_dispatch_control_safe m : msg_ok m → Safe (SDom cfg D k) (srv_dispatch_control id m).
Proof.
  intros (bs & Hd & Hl & Hok). unfold srv_dispatch_control. rewrite Hd, Hl. destruct (_ =? _).
  - pose proof (read_from_safe bs read_reliable_ack ltac:(apply _)).
    destruct (read_from _ _ _) as [[ch a]|rc|]; [|eauto with safe|done].
    apply safe_dom. intros Γ HΓ. apply safe_bind; [apply srv_now_safe|intros now].
    apply safe_bind; [eauto with safe|intros ack].
    apply safe_bind; [|intros _; apply srv_refresh_safe]. destruct (ev_removed ack); [|apply safe_ret].
    apply safe_bind; [apply tally_safe|intros _]. eauto with safe.
  - destruct (_ =? _); [|eauto with safe].
    pose proof (read_from_safe bs read_fragment_payload ltac:(apply _)).
    destruct (read_from _ _ _) as [f|rc|] eqn:Hf; [|eauto with safe|done].
    apply read_fragment_view in Hf as [? ?]. by apply fragment_or_close_safe.
Qed.

Lemma srv_deliver_reliable_safe m v :
  (∃ bs, pl_data v = data_of bs ∧ pl_len v = zlen bs ∧ bytes_ok bs) →
  Safe (SDom cfg D k) (srv_deliver_reliable id m v).
Proof.
  intros (bs & Hd & Hl & Hok). unfold srv_deliver_reliable. rewrite Hd, Hl.
  assert (Safe (SDom cfg D k)
    (if decide (m_channel m = Channel.ReliableOrdered) then
       match read_from (data_of bs) (zlen bs) read_ordered_payload with
       | UB => undefined
       | Err _ => tally_and_close Stat.bad_packets id CloseReason.InvalidPacket
       | Done ordered => srv_deliver_or_close id Channel.ReliableOrdered (m_type m) (pl_data ordered)
           (pl_len ordered) (pl_id ordered)
       end
     else srv_deliver_or_close id Channel.Reliable (m_type m) (data_of bs) (zlen bs) 0)) as Hplain.
  { case_decide; [|apply deliver_or_close_safe].
    pose proof (read_from_safe bs read_ordered_payload ltac:(apply read_envelope_safe)).
    destruct (read_from _ _ _); [apply deliver_or_close_safe|eauto with safe|done]. }
  destruct (_ =? _); [|exact Hplain].
  pose proof (read_from_safe bs read_fragment_payload ltac:(apply _)).
  destruct (read_from (data_of bs) (zlen bs) read_fragment_payload) as [f|rc|] eqn:Hf; [|exact Hplain|done].
  apply read_fragment_view in Hf as [? ?]. by apply fragment_or_close_safe.
Qed.

Lemma srv_dispatch_frame_safe m : msg_ok m → Safe (SDom cfg D k) (srv_dispatch_frame id m).
Proof.
  intros Hm. pose proof Hm as (bs & Hd & Hl & Hok). unfold srv_dispatch_frame.
  assert (∀ ch, Safe (SDom cfg D k)
    match read_from (m_data m) (m_len m) read_reliable_payload with
    | UB => undefined
    | Err _ => tally_and_close Stat.bad_packets id CloseReason.InvalidPacket
    | Done reliable =>
        attempt (srv_control_ack id ch (pl_id reliable));;
        fresh ← on_reliable id ch
                  (λ s, let '(b, s') := accept_incoming (pl_id reliable) s in (Done b, s'));
        if negb fresh then mret tt
        else tally Stat.reliable_messages_delivered;; srv_deliver_reliable id m reliable
    end) as Hrel.
  { intros ch. rewrite Hd, Hl.
    pose proof (read_from_safe bs read_reliable_payload ltac:(apply read_envelope_safe)).
    destruct (read_from _ _ _) as [v|rc|] eqn:Hv; [|eauto with safe|done].
    apply (read_envelope_view _ _ _ _ _ Hok) in Hv.
    apply safe_bind; [apply safe_attempt, safe_dom; intros Γ HΓ; apply control_ack_safe;
      [done|by eapply in_domain]|intros _].
    apply safe_bind; [eauto with safe|intros fresh]. destruct (negb fresh); [apply safe_ret|].
    apply safe_bind; [eauto with safe|intros _]. by apply srv_deliver_reliable_safe. }
  destruct (m_channel m) eqn:Hch.
  - apply deliver_or_close_safe.
  - apply Hrel.
  - apply Hrel.
  - clear Hrel. rewrite Hd, Hl.
    pose proof (read_from_safe bs read_sequenced_payload ltac:(apply read_envelope_safe)).
    destruct (read_from _ _ _); [apply deliver_or_close_safe|eauto with safe|done].
  - by apply srv_dispatch_control_safe.
Qed.

Lemma srv_dispatch_loop_safe fuel pre rest :
  bytes_ok rest → (length rest < fuel)%nat →
  Safe (SDom cfg D k) (srv_dispatch_loop fuel id (reader_at pre rest)).
Proof.
  revert pre rest. induction fuel as [|fuel IH]; intros pre rest Hok Hlen; [lia|]. cbn [srv_dispatch_loop].
  pose proof (reader_safe (m:=read_message) _ (reader_wf_at pre rest)) as [Hub _].
  destruct (read_message (reader_at pre rest)) as [[m|rc|] r] eqn:Hm; [| |done].
  - apply read_message_inv in Hm as (bs & rest' & Hm & _ & _ & Hbs & -> & ->); [|done].
    apply Forall_app in Hok as [_ Hok]. rewrite length_app, length_enc_message in Hlen.
    apply safe_bind; [eauto with safe|intros _]. apply safe_bind.
    { apply srv_dispatch_frame_safe. exists bs. rewrite Hm. done. }
    intros _ w Hw. assert (SAt cfg (views w) k w) as Hat by (split; [apply Hw|done]).
    destruct (in_domain _ _ _ Hid (proj2 Hw)) as [v Hv].
    destruct (SAt_lookup _ _ _ _ _ _ Hat Hv) as (s & Hs & _ & _).
    apply wp_bind. eapply wp_session; [exact Hs|]. case_decide; [done|]. apply IH; [done|lia|done].
  - case_decide; [apply safe_ret|eauto with safe].
Qed.

Lemma srv_dispatch_payload_safe bs :
  bytes_ok bs → Safe (SDom cfg D k) (srv_dispatch_payload id (data_of bs) (zlen bs)).
Proof.
  intros Hok. unfold srv_dispatch_payload, data_of. case_decide as Hd.
  - subst. apply safe_ret.
  - change (mkReader (Some bs) (zlen bs) 0) with (reader_at [] bs).
    apply srv_dispatch_loop_safe; [done|lia].
Qed.

(** ** Session traffic *)

Lemma srv_dispatch_kind_safe kd h bs :
  bytes_ok bs → payload_len h = zlen bs →
  Safe (SDom cfg D k) (srv_dispatch_kind id kd (mkPacketView h (data_of bs))).
Proof.
  intros Hok Hl. unfold srv_dispatch_kind. cbn [pv_h pv_payload]. rewrite Hl. cbv zeta.
  destruct (_ =? _); [apply safe_ret|]. destruct (_ =? _); [by apply srv_dispatch_payload_safe|].
  destruct (_ =? _); [eauto with safe|]. destruct (_ =? _).
  2: { destruct (_ =? _); apply safe_fail. }
  pose proof (read_from_safe bs read_close_frame ltac:(apply _)).
  destruct (read_from _ _ _) as [reason|rc|]; [| |done].
  2: { apply safe_bind; [eauto with safe|intros _; apply safe_err]. }
  apply safe_bind; [eauto with safe|intros _]. intros w Hw.
  assert (SAt cfg (views w) k w) as Hat by (split; [apply Hw|done]).
  destruct (in_domain _ _ _ Hid (proj2 Hw)) as [[e σ] Hv].
  destruct (SAt_lookup _ _ _ _ _ _ Hat Hv) as (s & Hs & Hvs & _). injection Hvs as He Hσ.
  apply wp_bind. eapply wp_session; [exact Hs|]. case_bool_decide as Hst; cbn [negb].
  - eapply transition_dom; [exact Hat|apply Hw|exact Hv|right; by rewrite <- Hσ, Hst|done|done].
  - by apply close_session_safe.
Qed.

Lemma handle_session_packet_safe v p : packet_ok v p → Safe (SDom cfg D k) (handle_session_packet id v).
Proof.
  intros Hp w Hw. assert (SAt cfg (views w) k w) as Hat by (split; [apply Hw|done]).
  destruct (in_domain _ _ _ Hid (proj2 Hw)) as [[e σ] Hv].
  destruct (SAt_lookup _ _ _ _ _ _ Hat Hv) as (s & Hs & Hvs & Hok). injection Hvs as He Hσ.
  assert (∀ w', SAt cfg (views w) k w' → SDom cfg D k w') as HSD.
  { intros w' Hw'. rewrite <- (proj2 Hw). by apply SAt_dom. }
  unfold handle_session_packet. apply wp_bind. eapply wp_session; [exact Hs|].
  destruct (_ =? _); [done|]. destruct (negb _); [done|]. destruct (negb _); [done|].
  pose proof (open_payload_ok (ps_keys s) v p (so_rx _ _ _ Hok) Hp) as Ho.
  destruct (open_payload _ _) as [m|rc|]; [|clear Ho|done].
  2: { eapply (wp_seq (SDom cfg D k)); [eauto with safe|exact Hw|done|]. intros _ w1 Hw1.
       eapply (wp_seq (SDom cfg D k)); [eauto with safe|exact Hw1|done|]. intros _ w2 Hw2. by apply wp_err. }
  destruct Ho as [Hmok Hlen]. destruct (_ =? 0); [done|].
  destruct (ReplayWindow.accept _ _) as [fresh win]. set (Γ := views w) in *.
  assert (Γ !! id = Some (e, σ)) as HΓ by exact Hv. clearbody Γ.
  eapply (wp_seq (SAt cfg Γ k)); [|exact Hat|done|].
  { apply safe_set_session; [by eexists|..]; try done. intros s' []. split; sfields; done. }
  intros _ w1 Hw1. destruct (negb fresh).
  { eapply (wp_seq (SAt cfg Γ k)); [apply tally_safe|exact Hw1|done|]. intros _ w2 Hw2.
    by apply wp_fail, HSD. }
  eapply (wp_seq (SAt cfg Γ k)); [apply srv_now_safe|exact Hw1|done|]. intros now w2 Hw2.
  eapply (wp_seq (SAt cfg Γ k)); [|exact Hw2|done|].
  { apply safe_set_session; [by eexists|..]; try done. intros s' []. split; sfields; done. }
  intros _ w3 Hw3. assert (dom Γ = D) as HD.
  { by destruct (HSD _ Hw3) as [_ <-]; destruct Hw3 as [_ ->]. }
  apply wp_bind.
  apply (wp_weaken (SDom cfg D k) _ _ _ (λ _, SDom cfg D k)); [|done|].
  { case_bool_decide as Hhs.
    - apply wp_bind. eapply transition_dom; [exact Hw3|done|exact HΓ| |done|].
      { right. rewrite <- Hσ, Hhs. done. }
      intros w4 Hw4. eapply (wp_seq (SDom cfg D k)); [eauto with safe|exact Hw4|done|].
      intros _ w5 Hw5. revert w5 Hw5. change (Safe (SDom cfg D k) (tally Stat.sessions_established)).
      eauto with safe.
    - by apply wp_ret, HSD. }
  intros _ w4 Hw4. cbv zeta.
  eapply (wp_seq (SDom cfg D k)); [eauto with safe|exact Hw4|done|]. intros _ w5 Hw5.
  eapply (wp_seq (SDom cfg D k)); [eauto with safe|exact Hw5|done|]. intros _ w6 Hw6.
  pose proof (pk_len _ _ Hp) as Hpl. destruct (pk_typed _ _ Hp) as (_ & _ & _ & _ & _ & _ & Ht).
  apply srv_dispatch_kind_safe; [done| |done]. cbn [payload_len]. apply w32_id. ulia.
Qed.
End dispatch.
