(* ===== verification/ServerAdmit.v ===== *)
(** * The server: admission of sessions

    Eviction, the choice of a connection id, the creation of a session and the
    handling of client hellos are [Safe]: the limits on sessions hold and the
    tables agree after each. *)
From stdpp Require Import sorting.
From S2P Require Import Prelude Result Hoare ByteBuf Config Message Packet Protocol Windows Payloads.
From S2P Require Import Reliability Ordered Fragmentation Congestion Crypto Stats Endpoint Socket.
From S2P Require Import Client ClientRecv ClientInv ClientSafe Server ServerSend ServerRecv ServerInv.
From S2P Require Import ServerSafe ServerSafeRecv.
#[local] Open Scope Z_scope.

(** ** Eviction *)

Section eviction.
Context {HN : Ntop} (cfg : ServerConfig) (k : nat).
Implicit Types (Γ : gmap U64 (Endpoint * ConnectionState)).

Lemma server_ok_evict v id s :
  s_sessions v !! id = Some s → server_ok cfg v →
  server_ok cfg (v <| s_endpoint_to_conn :=
                        filter (λ p, ep_eqb p.1 (ps_endpoint s) = false) (s_endpoint_to_conn v) |>
                   <| s_sessions := delete id (s_sessions v) |>).
Proof.
  intros Hs Hv. pose proof (total_memory_delete _ _ _ Hs) as Hm.
  assert (quota_sane cfg → 0 <= ra_memory_bytes (ps_reassembler s)) as Hpos.
  { intros Hq. exact (memory_exact_nonneg _ _ (so_memory _ _ _ (vo_sessions _ _ Hv _ _ Hs) Hq)). }
  pose proof (vo_sessions _ _ Hv) as Hall. pose proof (vo_tables _ _ Hv) as Ht.
  pose proof (vo_size _ _ Hv) as Hsz. pose proof (vo_hosts _ _ Hv) as Hh. pose proof (vo_memory _ _ Hv) as Htot.
  destruct Hv. split; sfields; try done.
  - by apply map_Forall_delete.
  - by apply tables_agree_evict.
  - rewrite map_size_delete_Some by (by eexists). lia.
  - intros host. rewrite on_host_delete. specialize (Hh host).
    pose proof (map_subseteq_size _ _ (delete_subseteq (on_host host (s_sessions v)) id)). lia.
  - intros Hq. specialize (Hpos Hq). specialize (Htot Hq). lia.
Qed.

Lemma evict_session_wp Γ id w E (Q : unit → ServerWorld → Prop) :
  SAt cfg Γ k w → (∀ w', SInv cfg k w' → E w') →
  (∀ w', SAt cfg (delete id Γ) k w' →
     s_endpoint_to_conn (sw_server w') =
       match s_sessions (sw_server w) !! id with
       | Some s => filter (λ p, ep_eqb p.1 (ps_endpoint s) = false) (s_endpoint_to_conn (sw_server w))
       | None => s_endpoint_to_conn (sw_server w)
       end → Q tt w') → wp E (evict_session id) w Q.
Proof.
  intros Hw HE HQ. unfold evict_session. apply wp_bind, wp_srv. unfold find_session.
  destruct (s_sessions (sw_server w) !! id) as [s|] eqn:Hs.
  2: { apply wp_ret, HQ; [|done]. rewrite delete_id; [done|]. rewrite <- (proj2 Hw). unfold views.
       by rewrite lookup_fmap, Hs. }
  apply wp_bind, wp_set_srv. set (w1 := mkServerWorld _ _ _).
  assert (SAt cfg (delete id Γ) k w1) as Hw1.
  { destruct Hw as [[Hv Hl Hi] HΓ].
    split; [|unfold views; cbn [w1 sw_server]; sfields; by rewrite fmap_delete, <- HΓ].
    split; cbn [w1 sw_server sw_net sw_events]; [by apply server_ok_evict| |done].
    sfields. eapply slog_ok_mono; [|exact Hl]. intros i s' [_ Hs']%lookup_delete_Some. by exists s'. }
  eapply (wp_stable (λ w, s_endpoint_to_conn (sw_server w)));
    [|by apply stable_bind|exact Hw1|by intros w' Hw'; apply HE; apply Hw'|].
  { apply safe_bind; [apply tally_safe|intros _; apply srv_refresh_safe]. }
  intros [] w' Hw' Ht. by apply HQ.
Qed.

Lemma evict_session_safe id : Safe (SInv cfg k) (evict_session id).
Proof.
  intros w Hw. eapply (evict_session_wp (views w)); [by split|done|]. intros w' Hw' _. by apply SAt_inv in Hw'.
Qed.
Lemma evict_all_safe ids : Safe (SInv cfg k) (evict_all ids).
Proof.
  induction ids as [|id ids IH]; [apply safe_ret|]. apply safe_bind; [apply evict_session_safe|by intros _].
Qed.
Lemma evict_stale_safe `{Traversal} : Safe (SInv cfg k) evict_stale_sessions.
Proof.
  apply safe_bind; [eauto with safe|intros now]. apply safe_srv_any. intros v. apply evict_all_safe.
Qed.
End eviction.

(** ** Choosing a connection id *)

Lemma fresh_conn_id_ok (m : gmap U64 PeerSession) :
  1 <= fresh_conn_id m <= Z.of_nat (S (size m)) ∧ m !! fresh_conn_id m = None.
Proof.
  unfold fresh_conn_id. destruct (filter _ _) as [|i l] eqn:Hf; cbn [head default].
  - exfalso. set (ids := seqZ 1 (Z.of_nat (S (size m)))) in *.
    assert ((list_to_set ids : gset U64) ⊆ dom m) as Hsub.
    { intros i Hi%elem_of_list_to_set. apply elem_of_dom. destruct (m !! i) eqn:E; [by eexists|].
      assert (i ∈ filter (λ i, m !! i = None) ids) as Hin by (by apply list_elem_of_filter).
      rewrite Hf in Hin. by apply elem_of_nil in Hin. }
    apply subseteq_size in Hsub. rewrite size_list_to_set, size_dom in Hsub by apply NoDup_seqZ.
    unfold ids in Hsub. rewrite length_seqZ in Hsub. lia.
  - assert (i ∈ filter (λ i, m !! i = None) (seqZ 1 (Z.of_nat (S (size m))))) as Hin
      by (rewrite Hf; left). apply list_elem_of_filter in Hin as [Hn Hin].
    apply elem_of_seqZ in Hin. split; [cbn; lia|done].
Qed.

Lemma draw_conn_id_ok fuel (m : gmap U64 PeerSession) n :
  Z.of_nat (size m) < U64_MAX →
  ∃ id n', draw_conn_id fuel m n = (Done id, n') ∧ n_inbox n' = n_inbox n ∧
    is_u64 id ∧ id ≠ 0 ∧ m !! id = None.
Proof.
  intros Hsz. revert n. induction fuel as [|fuel IH]; intros n; cbn [draw_conn_id].
  { destruct (fresh_conn_id_ok m) as [H1 H2]. do 2 eexists. split_and!; [done|done| |lia|done].
    unfold U64_MAX in Hsz. ulia. }
  unfold mbind, io_bind. pose proof (random_bytes_array 8 n) as Hr.
  destruct (random_bytes 8 n) as [[bs|rc|] n1]; [|done..]. destruct Hr as [[Hlen Hok] Hn]. cbv zeta.
  destruct (IH n1) as (id & n2 & Hd & Hn2 & Hid).
  destruct (Z.eqb_spec (be_value bs) 0);
    [rewrite Hd; exists id, n2; split_and!; [done|congruence|apply Hid..]|].
  case_bool_decide as Hfree; [|rewrite Hd; exists id, n2; split_and!; [done|congruence|apply Hid..]].
  do 2 eexists. split_and!; [done|done| |done|done].
  pose proof (be_value_bound bs Hok) as Hb. rewrite Hlen in Hb.
  change (256 ^ Z.of_nat 8) with 18446744073709551616 in Hb. ulia.
Qed.

(** ** The number of sessions of a host *)

Lemma sessions_for_host_size {HN : Ntop} host (m : gmap U64 PeerSession) :
  length (filter (λ s, endpoint_host_key (ps_endpoint s) = host) (map_to_list m).*2) =
  size (on_host host m).
Proof.
  induction m as [|id s m Hid IH] using map_ind.
  { unfold on_host. by rewrite map_to_list_empty, map_filter_empty, map_size_empty. }
  rewrite (map_to_list_insert m id s Hid), fmap_cons, filter_cons. unfold on_host. cbn [snd].
  case_decide as Hh.
  - rewrite map_filter_insert_True by done. rewrite map_size_insert_None; [cbn; by rewrite IH|].
    apply map_lookup_filter_None. by left.
  - rewrite map_filter_insert_False by done. rewrite delete_id by done. exact IH.
Qed.

(** ** The server hello *)

Lemma write_server_hello_safe h : server_hello_ok h → WriterSafe (write_server_hello h).
Proof.
  intros [_ H1 H2 H3 H4]. apply write_array_safe in H1, H2, H3. apply write_resumption_token_safe in H4.
  unfold write_server_hello.
  do 5 (apply writer_safe_bind; [first [done|apply _]|intros _]). by apply write_optional_safe.
Qed.

Section hello.
Context {HN : Ntop} {HS : Sodium} {HL : SodiumLaws}.
Context (cfg : ServerConfig) (Hu : server_usable cfg) (k : nat).
Implicit Types (Γ : gmap U64 (Endpoint * ConnectionState)).

Lemma session_hello_ok id s : session_ok cfg id s → hello_ok (session_hello s).
Proof.
  intros []. split; cbn; try done.
  - by case_match; [|apply (zeros_array 16)].
  - by case_match; [|apply (zeros_array 16)].
Qed.

Lemma signed_hello_ok id s token :
  session_ok cfg id s → (∀ t, token = Some t → token_ok t) →
  match signed_hello s token with Done h => server_hello_ok h | Err _ => True | UB => False end.
Proof.
  intros Hok Ht. unfold signed_hello. cbv zeta.
  assert (∀ mac, is_array 16 mac → server_hello_ok
    (mkServerHello (ps_conn_id s) (kp_public (ps_ephemeral s)) (ps_server_nonce s) mac
      (bool_decide (is_Some token)) (default default_resumption_token token))) as Hh.
  { intros mac Hmac. pose proof (so_id_range _ _ _ Hok) as [Hid _]. rewrite <- (so_id _ _ _ Hok) in Hid.
    split; cbn; [done|apply Hok|apply Hok|done|].
    destruct token as [t|]; [by apply Ht|apply (zeros_array 16)]. }
  unfold build_transcript_mac_input. set (h0 := mkServerHello _ _ _ (zeros _) _ _).
  pose proof (write_to_safe 320 (write_transcript (session_hello s) h0) ltac:(done)
    (write_transcript_safe _ _ (session_hello_ok _ _ Hok) (Hh _ (zeros_array 16)))) as Hw.
  destruct (write_to _ _) as [transcript|rc|]; cbn [outcome_bind]; [|done..].
  pose proof (keyed_hash_ok (sk_tx (ps_keys s)) transcript (Z.of_nat NetConfig.TranscriptMacBytes)
    (so_tx _ _ _ Hok) ltac:(lia)) as Hmac.
  destruct (crypto_keyed_hash _ _ _ _ _ _) as [mac|rc|]; cbn [outcome_bind]; [|done..].
  apply Hh. destruct Hmac as [Hl Hm]. change (zlen mac = 16) in Hl. split; [lia|done].
Qed.

Lemma queue_server_hello_safe Γ id : is_Some (Γ !! id) → Safe (SAt cfg Γ k) (queue_server_hello id).
Proof.
  intros Hid. apply safe_session; [done|]. intros w s Hw Hs Hok _. apply wp_bind, wp_srv.
  assert (∀ token w1, SAt cfg Γ k w1 → (∀ t, token = Some t → token_ok t) →
    wp (SAt cfg Γ k)
      (hello ← lift (signed_hello s token);
       payload ← lift (write_to 192 (write_server_hello hello));
       seq ← next_stateless;
       srv_queue_packet (ps_endpoint s) PacketKind.Handshake false (Some payload) (zlen payload)
         (ps_conn_id s) seq None SendPriority.High (ps_conn_id s)) w1 (λ _, SAt cfg Γ k)) as Hmain.
  { intros token w1 Hw1 Ht. pose proof (signed_hello_ok id s token Hok Ht) as Hh.
    apply wp_bind, wp_lift; [intros Hub; by rewrite Hub in Hh| |by intros].
    intros hello Heq. rewrite Heq in Hh.
    apply wp_bind, wp_lift; [apply write_to_safe; [done|by apply write_server_hello_safe]| |by intros].
    intros payload _. apply wp_bind. eapply next_stateless_wp; [done|]. intros seq w2 Hw2 Hseq.
    apply queue_plain_safe; [done|apply readable_all|lia| |done|done].
    rewrite (so_id _ _ _ Hok). apply (so_id_range _ _ _ Hok). }
  destruct (server_enable_session_resumption _).
  - apply wp_bind. eapply (wp_seq (SAt cfg Γ k)); [apply srv_now_safe|exact Hw|done|]. intros now w1 Hw1.
    apply wp_bind. eapply make_resumption_token_wp; [exact Hw1|]. intros w2 tok Hw2 Htok.
    apply wp_ret, Hmain; [done|]. by intros t [= <-].
  - apply wp_bind, wp_ret, Hmain; [done|]. by intros t [=].
Qed.
End hello.

(** ** Creating a session *)

Section create.
Context {HN : Ntop} {HS : Sodium} {HL : SodiumLaws}.
Context (cfg : ServerConfig) (Hu : server_usable cfg) (k : nat).
Implicit Types (Γ : gmap U64 (Endpoint * ConnectionState)).

(** There is room for a session from [from], and none from there yet. *)
Record room (from : Endpoint) (m : gmap U64 PeerSession) (t : list (Endpoint * U64)) : Prop := {
  rm_size : Z.of_nat (size m) < server_max_peer_sessions cfg;
  rm_host : Z.of_nat (size (on_host (endpoint_host_key from) m)) < max_sessions_per_ip (server_abuse cfg);
  rm_free : ∀ e i, (e, i) ∈ t → ep_eqb e from = false;
}.

Definition tables (w : ServerWorld) : gmap U64 PeerSession * list (Endpoint * U64) :=
  (s_sessions (sw_server w), s_endpoint_to_conn (sw_server w)).

Lemma stable_tables_announce peer a b r : Stable tables (announce peer a b r).
Proof.
  unfold announce, tally, tally_n, srv_refresh, srv_log. repeat (apply stable_bind; [done|intros ?]).
  repeat first [done | apply stable_when | apply stable_bind; [|intros ?] | apply stable_if].
Qed.

Lemma new_session_ok from hello resumed id peer now nonce keypair keys :
  is_u64 id → id ≠ 0 → hello_ok hello → is_array 16 nonce → is_array 32 (kp_public keypair) →
  is_array 32 (sk_rx keys) → is_array 32 (sk_tx keys) →
  ∃ s0, new_session cfg from hello resumed id peer now nonce = Done s0 ∧
    let s := with_keys keypair keys s0 <| ps_state := ConnectionState.Handshaking |> in
    session_ok cfg id s ∧ ps_send_seq s = 1 ∧ ps_endpoint s = from ∧
    ps_state s = ConnectionState.Handshaking ∧ ra_memory_bytes (ps_reassembler s) = 0.
Proof.
  intros Hid Hne [Hpk Hcn Hrt Hres] Hnonce Heph Hrx Htx.
  pose proof (server_usable_congestion _ Hu) as Hcu. unfold new_session, configure_congestion. cbv zeta.
  match goal with |- context [reset_runtime ?c] =>
    destruct (reset_runtime_inv _ _ c Hcu) as (cc & Hcc & Hinv); [done|] end.
  rewrite Hcc. cbn [outcome_bind]. eexists. split; [done|].
  destruct (cc_rate _ _ _ Hcu Hinv) as [Hr Hcap]. unfold with_keys. sfields.
  rewrite (session_reliability_eq _ Hu). split; [|done].
  split; sfields; try done.
  - rewrite Hcap. lia.
  - case_match; [done|apply (zeros_array 16)].
  - case_match; [done|apply (zeros_array 16)].
  - intros Hq. pose proof (quota_range cfg Hu Hq). split; cbn; [done|done|lia|done].
Qed.

Lemma server_ok_create v from id s :
  server_ok cfg v → room from (s_sessions v) (s_endpoint_to_conn v) → s_sessions v !! id = None →
  session_ok cfg id s → ps_endpoint s = from → ra_memory_bytes (ps_reassembler s) = 0 →
  server_ok cfg (v <| s_endpoint_to_conn := bind_endpoint from id (s_endpoint_to_conn v) |>
                   <| s_sessions := <[id := s]> (s_sessions v) |>).
Proof.
  intros Hv [Hr1 Hr2 Hr3] Hid Hs He Hm.
  pose proof (vo_sessions _ _ Hv). pose proof (vo_tables _ _ Hv) as Ht.
  pose proof (vo_hosts _ _ Hv) as Hh. pose proof (vo_memory _ _ Hv) as Htot. destruct Hv.
  split; sfields; try done.
  - by apply map_Forall_insert_2.
  - subst from. by apply tables_agree_create.
  - rewrite map_size_insert_None by done. lia.
  - intros host. unfold on_host in *. destruct (decide (endpoint_host_key (ps_endpoint s) = host)) as [Heq|Hne].
    + rewrite map_filter_insert_True by done. rewrite map_size_insert_None.
      * rewrite <- Heq, He. lia.
      * apply map_lookup_filter_None. by left.
    + rewrite map_filter_insert_False by done. rewrite delete_id by done. apply Hh.
  - intros Hq. rewrite total_memory_insert by done. specialize (Htot Hq). lia.
Qed.

Lemma derive_server_keys_ok kp pk :
  is_array 32 pk →
  match crypto_derive_server_session_keys kp (Some pk) (Z.of_nat NetConfig.KeyExchangePublicKeyBytes) with
  | Done keys => is_array 32 (sk_rx keys) ∧ is_array 32 (sk_tx keys)
  | Err _ => True
  | UB => False
  end.
Proof.
  intros Hpk. unfold crypto_derive_server_session_keys. rewrite crypto_ready.
  rewrite reject_if_false by (rewrite bool_decide_eq_false_2 by done; by rewrite Z.eqb_refl).
  change NetConfig.KeyExchangePublicKeyBytes with 32%nat.
  rewrite (is_array_readable _ _ Hpk). cbn [outcome_bind].
  destruct (kx_server_session_keys _ _ _) as [[rx tx]|] eqn:Hk; [|done].
  by apply server_keys_length in Hk.
Qed.

(** Random bytes leave the server alone. *)
Lemma random_wp Γ len w E (Q : list U8 → ServerWorld → Prop) :
  SAt cfg Γ k w →
  (∀ bs w', SAt cfg Γ k w' → tables w' = tables w → is_array len bs → Q bs w') →
  wp E (os (random_bytes len)) w Q.
Proof.
  intros Hw HQ. unfold wp, os. pose proof (random_bytes_array len (sw_net w)) as Hr.
  destruct (random_bytes len (sw_net w)) as [[bs|rc|] n]; [|done..]. destruct Hr as [Hbs Hn].
  apply HQ; [|done|done]. destruct Hw as [[Hv Hl Hi] HΓ]. split; [|done].
  split; cbn [sw_server sw_net sw_events]; [done|done|by rewrite Hn].
Qed.

Lemma allocate_conn_id_wp Γ w E (Q : U64 → ServerWorld → Prop) :
  SAt cfg Γ k w → Z.of_nat (size (s_sessions (sw_server w))) < server_max_peer_sessions cfg →
  (∀ id w', SAt cfg Γ k w' → tables w' = tables w → is_u64 id → id ≠ 0 →
     s_sessions (sw_server w) !! id = None → Q id w') →
  wp E allocate_conn_id w Q.
Proof.
  intros Hw Hsz HQ. unfold allocate_conn_id. apply wp_bind, wp_srv. unfold wp, os.
  destruct (draw_conn_id_ok (length (n_random (sw_net w))) (s_sessions (sw_server w)) (sw_net w))
    as (id & n & -> & Hn & Hid & Hne & Hfree).
  { destruct Hu as [Ht _]. unfold server_typed in Ht. unfold U64_MAX.
    destruct Ht as (_ & _ & _ & _ & _ & _ & _ & _ & _ & _ & Ht). ulia. }
  apply HQ; [|done..]. destruct Hw as [[Hv Hl Hi] HΓ]. split; [|done].
  split; cbn [sw_server sw_net sw_events]; [done|done|by rewrite Hn].
Qed.

(** The new session enters the tables. *)
Lemma insert_session_wp Γ from id s w E (Q : unit → ServerWorld → Prop) :
  SAt cfg Γ k w → room from (tables w).1 (tables w).2 → (tables w).1 !! id = None →
  session_ok cfg id s → ps_send_seq s = 1 → ps_endpoint s = from →
  ra_memory_bytes (ps_reassembler s) = 0 →
  (∀ w', SAt cfg (<[id := view_of s]> Γ) k w' → Q tt w') →
  wp E (set_srv (λ v, v <| s_endpoint_to_conn := bind_endpoint from id (s_endpoint_to_conn v) |>
                        <| s_sessions := <[id := s]> (s_sessions v) |>);;
        report (SessionCreated id)) w Q.
Proof.
  intros [[Hv Hl Hi] HΓ] Hroom Hfree Hs Hseq He Hm HQ. apply wp_bind, wp_set_srv, wp_report, HQ.
  cbn [sw_server sw_net sw_events]. split.
  - split; cbn [sw_server sw_net sw_events]; [by apply server_ok_create| |done].
    sfields. by apply slog_ok_created.
  - unfold views. cbn [sw_server]. sfields. by rewrite fmap_insert, <- HΓ.
Qed.

Lemma create_session_wp Γ from hello resumed now w :
  SAt cfg Γ k w → room from (tables w).1 (tables w).2 → hello_ok hello →
  wp (SInv cfg k) (create_session from hello resumed now) w (λ _, SInv cfg k).
Proof.
  intros Hw Hroom Hh. unfold create_session.
  assert (∀ Γ w', SAt cfg Γ k w' → SInv cfg k w') as HE by apply SAt_inv.
  apply wp_bind. eapply allocate_conn_id_wp; [exact Hw|apply Hroom|].
  intros id w1 Hw1 Ht1 Hid Hne Hfree. apply wp_bind, wp_srv.
  assert (s_config (sw_server w1) = cfg) as -> by apply Hw1.
  eapply wp_bind, wp_set_srv. set (w2 := mkServerWorld _ _ _).
  assert (SAt cfg Γ k w2 ∧ tables w2 = tables w1) as [Hw2 Ht2].
  { split; [|done]. apply SAt_server; [|done|done]. intros []. by split. }
  apply wp_bind. eapply random_wp; [exact Hw2|]. intros nonce w3 Hw3 Ht3 Hnonce.
  rewrite Ht2, Ht1 in Ht3. clearbody w2.
  apply wp_bind, wp_lift; [|intros s0 Hs0|by intros; eapply HE].
  { destruct (new_session_ok from hello resumed id (s_next_peer_id (sw_server w1)) now nonce
      (mkKeyPair (zeros 32) []) (mkSessionKeys (zeros 32) (zeros 32))) as (s0 & -> & _);
      [done..|exact (zeros_array 32)|exact (zeros_array 32)|exact (zeros_array 32)|done]. }
  apply wp_bind. eapply random_wp; [exact Hw3|]. intros random w4 Hw4 Ht4 _. rewrite Ht3 in Ht4.
  unfold crypto_generate_keypair. rewrite crypto_ready.
  destruct (kx_keypair random) as [[pk sk]|] eqn:Hkx; [|by apply wp_bind, wp_err, (HE _ _ Hw4)].
  apply keypair_length in Hkx as [Hpk Hsk]. apply wp_bind, wp_done.
  pose proof (derive_server_keys_ok (mkKeyPair pk sk) _ (ho_public _ Hh)) as Hkeys.
  apply wp_bind, wp_lift; [intros Hub; by rewrite Hub in Hkeys|intros keys Hk|by intros; eapply HE].
  rewrite Hk in Hkeys. destruct Hkeys as [Hrx Htx].
  destruct (new_session_ok from hello resumed id (s_next_peer_id (sw_server w1)) now nonce
    (mkKeyPair pk sk) keys Hid Hne Hh Hnonce Hpk Hrx Htx) as (s0' & Hs0' & Hs).
  assert (s0' = s0) as -> by congruence. cbv zeta in Hs |- *.
  set (s := with_keys _ keys s0 <| ps_state := _ |>) in *. destruct Hs as (Hok & Hseq & Hep & Hst & Hmem).
  apply wp_bind. eapply (wp_stable tables); [by apply announce_safe|apply stable_tables_announce|
    exact Hw4|apply HE|]. intros _ w5 Hw5 Ht5. rewrite Ht4 in Ht5.
  apply wp_assoc. eapply (insert_session_wp Γ); [exact Hw5|by rewrite Ht5|by rewrite Ht5|done..|].
  intros w6 Hw6. set (Γ' := <[id := view_of s]> Γ) in *.
  assert (is_Some (Γ' !! id)) as Hsome by (exists (view_of s); apply lookup_insert_eq). clearbody Γ'.
  eapply (wp_seq (SAt cfg Γ' k)); [apply srv_refresh_safe|exact Hw6|apply HE|]. intros _ w7 Hw7.
  apply wp_bind. eapply wp_attempt; [by apply queue_server_hello_safe|exact Hw7|]. intros rc w8 Hw8.
  destruct (ok rc); [by apply wp_ret, (HE _ _ Hw8)|].
  eapply (wp_seq (SInv cfg k)); [apply evict_session_safe|by apply (HE _ _ Hw8)|done|]. by intros.
Qed.
End create.

(** ** Client hellos *)

Section admission.
Context {HN : Ntop} {HS : Sodium} {HL : SodiumLaws} `{Traversal}.
Context (cfg : ServerConfig) (Hu : server_usable cfg) (k : nat).
Implicit Types (Γ : gmap U64 (Endpoint * ConnectionState)).

(** Without a session from [from], the endpoint table has no entry for it. *)
Lemma by_endpoint_none from v :
  tables_agree (s_sessions v) (s_endpoint_to_conn v) → find_session_by_endpoint from v = None →
  ∀ e i, (e, i) ∈ s_endpoint_to_conn v → ep_eqb e from = false.
Proof.
  intros Ht Hf e i Hin. destruct (ep_eqb e from) eqn:He; [|done]. exfalso.
  unfold find_session_by_endpoint in Hf.
  destruct (filter (λ p, ep_eqb p.1 from = true) (s_endpoint_to_conn v)) as [|[e' i'] l] eqn:Hl.
  - assert ((e, i) ∈ filter (λ p, ep_eqb p.1 from = true) (s_endpoint_to_conn v)) as Hin'
      by (by apply list_elem_of_filter). rewrite Hl in Hin'. by apply elem_of_nil in Hin'.
  - assert ((e', i') ∈ filter (λ p, ep_eqb p.1 from = true) (s_endpoint_to_conn v)) as Hin'
      by (rewrite Hl; left).
    apply list_elem_of_filter in Hin' as [_ Hin']. destruct (ta_known _ _ Ht _ _ Hin') as (s & Hs & _).
    cbn in Hf. unfold find_session in Hf. congruence.
Qed.

(** With one, the table's entries for [from] are those of that session. *)
Lemma by_endpoint_some from v s :
  map_Forall (session_ok cfg) (s_sessions v) →
  tables_agree (s_sessions v) (s_endpoint_to_conn v) → find_session_by_endpoint from v = Some s →
  s_sessions v !! ps_conn_id s = Some s ∧ ep_eqb (ps_endpoint s) from = true.
Proof.
  intros Hall Ht Hf. unfold find_session_by_endpoint in Hf.
  destruct (filter (λ p, ep_eqb p.1 from = true) (s_endpoint_to_conn v)) as [|[e i] l] eqn:Hl; [done|].
  assert ((e, i) ∈ filter (λ p, ep_eqb p.1 from = true) (s_endpoint_to_conn v)) as Hin
    by (rewrite Hl; left). apply list_elem_of_filter in Hin as [He Hin]. cbn in Hf, He.
  unfold find_session in Hf. rewrite (so_id _ _ _ (Hall _ _ Hf)). split; [done|].
  destruct (ta_known _ _ Ht _ _ Hin) as (s' & Hs' & He'). assert (s' = s) as -> by congruence.
  apply (ep_eqb_trans _ e); [by rewrite ep_eqb_sym|done].
Qed.

Lemma admit_session_safe from hello resumed now :
  hello_ok hello → Safe (SInv cfg k) (admit_session from hello resumed now).
Proof.
  intros Hh. unfold admit_session. apply safe_bind; [apply evict_stale_safe|intros _].
  apply safe_srv. intros w Hw. pose proof (si_server _ _ _ Hw) as Hv. rewrite (vo_config _ _ Hv).
  assert (∀ reason, Safe (SInv cfg k) (refuse from 0 reason)) as Hrefuse.
  { intros reason. apply safe_inv. intros Γ. apply refuse_safe; [done|ulia]. }
  destruct (Z.leb_spec (server_max_peer_sessions cfg) (Z.of_nat (size (s_sessions (sw_server w))))) as [|Hsz].
  { eapply (wp_seq (SInv cfg k)); [eauto with safe|done|done|]. intros. by apply Hrefuse. }
  destruct (Z.leb_spec (max_sessions_per_ip (server_abuse cfg)) (sessions_for_host (sw_server w) from))
    as [|Hhost].
  { eapply (wp_seq (SInv cfg k)); [eauto with safe|done|done|]. intros _ w1 Hw1.
    eapply (wp_seq (SInv cfg k)); [eauto with safe|done|done|]. intros. by apply Hrefuse. }
  assert (Z.of_nat (size (on_host (endpoint_host_key from) (s_sessions (sw_server w))))
    < max_sessions_per_ip (server_abuse cfg)) as Hhost'.
  { unfold sessions_for_host in Hhost. rewrite sessions_for_host_size in Hhost.
    pose proof (vo_hosts _ _ Hv (endpoint_host_key from)) as Hb. destruct Hu as [Ht _].
    unfold server_typed, abuse_typed in Ht. destruct Ht as (_ & _ & _ & (_ & _ & _ & Ht & _) & _).
    rewrite w32_id in Hhost by ulia. done. }
  destruct (find_session_by_endpoint _ _) as [s|] eqn:Hf.
  - destruct (by_endpoint_some _ _ _ (vo_sessions _ _ Hv) (vo_tables _ _ Hv) Hf) as [Hs He].
    apply wp_bind. eapply (evict_session_wp cfg k (views w)); [by split|done|].
    intros w1 Hw1 Ht. rewrite Hs in Ht.
    eapply create_session_wp; [done|exact Hw1| |done]. unfold tables. cbn [fst snd].
    assert (Z.of_nat (size (s_sessions (sw_server w1))) <= Z.of_nat (size (s_sessions (sw_server w))) ∧
      Z.of_nat (size (on_host (endpoint_host_key from) (s_sessions (sw_server w1))))
      <= Z.of_nat (size (on_host (endpoint_host_key from) (s_sessions (sw_server w))))) as [Hle1 Hle2].
    { destruct Hw1 as [_ HΓ]. unfold views in HΓ. rewrite <- fmap_delete in HΓ.
      rewrite (view_sizes _ _ HΓ), (on_host_size _ _ _ (view_endpoints _ _ HΓ)), on_host_delete.
      split; [apply inj_le, map_subseteq_size, delete_subseteq|].
      apply inj_le, map_subseteq_size, delete_subseteq. }
    split; [lia|lia|]. rewrite Ht. intros e i [Hne Hin]%list_elem_of_filter. cbn [fst] in Hne.
    destruct (ep_eqb e from) eqn:Hef; [|done]. rewrite <- Hne. symmetry.
    apply (ep_eqb_trans _ from); [done|by rewrite ep_eqb_sym].
  - apply wp_bind, wp_ret. eapply (create_session_wp cfg Hu k (views w)); [by split| |done].
    split; [done|done|]. by apply by_endpoint_none; [apply (vo_tables _ _ Hv)|].
Qed.

Lemma check_retry_safe from hello now :
  hello_ok hello → Safe (SInv cfg k) (check_retry from hello now).
Proof.
  intros Hh. unfold check_retry. apply safe_srv. intros w Hw. pose proof (si_server _ _ _ Hw) as Hv.
  destruct (make_retry_token_ok cfg (sw_server w) from hello now Hv (ho_public _ Hh) (ho_nonce _ Hh))
    as (mac & -> & Hmac).
  assert (Safe (SInv cfg k) (token ← lift (Done (mkRetryToken now mac)); queue_retry from token)) as Hr.
  { apply safe_bind_lift; [done|]. intros t Ht. apply safe_inv. intros Γ.
    apply queue_retry_safe; [done|]. by inv Ht. }
  cbv zeta. destruct (negb _); [by apply Hr|].
  pose proof (validate_retry_token_ok cfg (sw_server w) from hello (ch_retry_token hello) now Hv
    (ho_public _ Hh) (ho_nonce _ Hh) (ho_retry _ Hh)) as Hval.
  destruct (validate_retry_token _ _ _ _ _) as [[]|rc|]; [by apply admit_session_safe| |done].
  clear Hval. case_decide.
  - apply safe_inv; [|done]. intros Γ. apply refuse_safe; [done|ulia].
  - eapply (wp_seq (SInv cfg k)); [by apply safe_attempt|done|done|]. by intros.
Qed.

Lemma handle_client_hello_safe from hello :
  hello_ok hello → Safe (SInv cfg k) (handle_client_hello from hello).
Proof.
  intros Hh. unfold handle_client_hello. apply safe_bind; [eauto with safe|intros now].
  apply safe_if; intros _; [apply safe_fail|].
  apply safe_bind; [eauto with safe|intros banned]. apply safe_if; intros _; [eauto with safe|].
  apply safe_bind; [eauto with safe|intros limited]. apply safe_if; intros _; [apply safe_ret|].
  apply safe_bind; [apply safe_inv; intros; by apply safe_report|intros _].
  apply safe_srv. intros w Hw. destruct (_ && _ && _); [|by apply check_retry_safe].
  eapply (wp_seq (SInv cfg k)); [eauto with safe|exact Hw|done|]. intros _ w1 Hw1.
  pose proof (validate_resumption_token_ok cfg (sw_server w) from (ch_resumption_token hello) now
    (si_server _ _ _ Hw) (ho_resumption _ Hh)) as Hval.
  destruct (validate_resumption_token _ _ _ _) as [[]|rc|]; [| |done]; clear Hval;
    (eapply (wp_seq (SInv cfg k)); [eauto with safe|exact Hw1|done|]); intros _ w2 Hw2;
    [by apply admit_session_safe|by apply check_retry_safe].
Qed.

Lemma read_client_hello_ok bs h :
  bytes_ok bs → read_from (data_of bs) (zlen bs) read_client_hello = Done h → hello_ok h.
Proof.
  intros Hok Hh. apply read_from_inv in Hh as [r Hh]; [|done].
  apply (frame_canon (rd:=read_client_hello)) in Hh as [(H1 & H2 & H3 & H4) _]; [|done].
  unfold optional_valid in H3, H4. cbn in H3, H4. split; [done|done| |].
  - destruct (ch_has_retry_token h); [apply H3|]. rewrite H3. apply (zeros_array 16).
  - unfold token_ok. destruct (ch_has_resumption_token h); [apply H4|]. rewrite H4. apply (zeros_array 16).
Qed.

Lemma srv_handle_handshake_safe from v p :
  packet_ok v p → Safe (SInv cfg k) (srv_handle_handshake from v).
Proof.
  intros Hp. unfold srv_handle_handshake. cbv zeta. do 2 (apply safe_if; intros _; [apply safe_fail|]).
  rewrite (pk_payload _ _ Hp), (pk_len _ _ Hp).
  apply safe_bind_lift; [apply read_from_safe; apply _|]. intros hello Hh.
  apply read_client_hello_ok in Hh; [|apply Hp]. apply safe_if; intros _; [apply safe_fail|].
  by apply handle_client_hello_safe.
Qed.
End admission.
