(* ===== verification/ServerLoop.v ===== *)
(** * The server: safety of the interface

    The receive loop, housekeeping, the tick, [listen] and [stop] are [Safe]. *)
From stdpp Require Import sorting.
From S2P Require Import Prelude Result Hoare ByteBuf Config Message Packet Protocol Windows Payloads.
From S2P Require Import Reliability Ordered Fragmentation Congestion Crypto Stats Endpoint Socket.
From S2P Require Import Client ClientRecv ClientInv ClientSafe Server ServerSend ServerRecv ServerInv.
From S2P Require Import ServerSafe ServerSafeRecv ServerAdmit.
#[local] Open Scope Z_scope.

Section interface.
Context {HN : Ntop} {HS : Sodium} {HL : SodiumLaws} `{HT : TraversalLaws}.
Context (cfg : ServerConfig) (Hu : server_usable cfg).

(** ** Packets *)

Section packets.
Context (k : nat).

Lemma close_known_wp id reason w s :
  SInv cfg k w → find_session id (sw_server w) = Some s →
  wp (SInv cfg k) (close_session id reason true) w (λ _, SInv cfg k).
Proof.
  intros Hw Hf. set (D := dom (views w)). assert (id ∈ D) as Hid.
  { apply elem_of_dom. exists (view_of s). unfold views, find_session in *. by rewrite lookup_fmap, Hf. }
  eapply wp_safe; [by apply (close_session_safe cfg Hu k D)|by split|by intros ? []|by intros ? ? []].
Qed.

Lemma close_if_known_safe id reason : Safe (SInv cfg k) (close_if_known id reason).
Proof.
  apply safe_srv. intros w Hw. destruct (find_session _ _) as [s|] eqn:Hf; [|done].
  by eapply close_known_wp.
Qed.
#[local] Hint Resolve close_if_known_safe : safe.

Lemma srv_handle_error_safe from id now rc : Safe (SInv cfg k) (srv_handle_error from id now rc).
Proof.
  unfold srv_handle_error. destruct (code rc); try apply safe_ret;
    repeat (apply safe_bind; [solve [eauto with safe]|intros _]); eauto with safe.
Qed.

Lemma refuse_inv_safe from id reason : is_u64 id → Safe (SInv cfg k) (refuse from id reason).
Proof. intros Hid. apply safe_inv. intros Γ. by apply refuse_safe. Qed.

Lemma srv_handle_packet_safe from v p : packet_ok v p → Safe (SInv cfg k) (srv_handle_packet from v).
Proof.
  intros Hp. unfold srv_handle_packet. cbv zeta. apply safe_bind; [eauto with safe|intros now].
  apply safe_bind; [eauto with safe|intros banned]. apply safe_if; intros _; [eauto with safe|].
  apply safe_bind; [|intros rc; destruct (ok rc); [apply safe_ret|apply srv_handle_error_safe]].
  apply safe_attempt. apply safe_if; intros _.
  { apply safe_bind; [eauto with safe|intros _]. apply safe_bind; [eauto with safe|intros _].
    by eapply srv_handle_handshake_safe. }
  apply safe_if; intros _; [apply safe_fail|].
  assert (Safe (A:=unit) (SInv cfg k) (refuse from (conn_id (pv_h v)) CloseReason.UnknownConnection;;
    fail Errc.Closed "unknown session")) as Hrefuse.
  { apply safe_bind; [apply refuse_inv_safe, (pk_typed _ _ Hp)|intros _; apply safe_fail]. }
  apply safe_srv. intros w Hw. destruct (find_session _ _) as [s|] eqn:Hf; [|by apply Hrefuse].
  destruct (ep_eqb _ _); [|by apply Hrefuse]. set (D := dom (views w)).
  assert (conn_id (pv_h v) ∈ D) as Hid.
  { apply elem_of_dom. exists (view_of s). unfold views, find_session in *. by rewrite lookup_fmap, Hf. }
  eapply wp_safe; [by eapply (handle_session_packet_safe cfg Hu k D)|by split|by intros ? []|by intros ? ? []].
Qed.

Lemma note_receive_safe from h n : Safe (SInv cfg k) (note_receive from h n).
Proof.
  apply safe_srv_any. intros v. cbv zeta. apply safe_if; intros _; [|apply safe_ret].
  apply safe_bind; [eauto with safe|intros now]. eauto with safe.
Qed.
End packets.

(** ** The receive loop *)

Lemma SInv_weaken k k' w : (k <= k')%nat → SInv cfg k w → SInv cfg k' w.
Proof. intros ? []. split; [done|done|lia]. Qed.

Lemma srv_receive_loop_wp fuel k w :
  SInv cfg k w → (k < fuel)%nat → wp (SInv cfg k) (srv_receive_loop fuel) w (λ _, SInv cfg k).
Proof.
  revert k w. induction fuel as [|fuel IH]; intros k w Hw Hk; [lia|].
  unfold wp. cbn [srv_receive_loop]. unfold os at 1.
  pose proof (udp_datagram_cases true NetConfig.MaxPacketBytes (sw_net w)) as Hr.
  unfold UdpSocket.recv_from.
  destruct (UdpSocket.recv_datagram_common _ _ _) as [[[from bytes]|rc|] n]; [| |done].
  - destruct Hr as [Hok Hn]. set (w1 := mkServerWorld _ _ _).
    assert (SInv cfg (k - 1) w1 ∧ (1 <= k)%nat) as [H1 Hpos].
    { destruct Hw as [Hc Hl Hi]. split; [split; cbn; [done|done|lia]|lia]. }
    match goal with |- match ?m w1 with _ => _ end => change (wp (SInv cfg k) m w1 (λ _, SInv cfg k)) end.
    eapply wp_weaken with (E := SInv cfg (k - 1)) (Q := λ _, SInv cfg (k - 1));
      [|by intros; eapply SInv_weaken; [|done]; lia|by intros; eapply SInv_weaken; [|done]; lia].
    assert (∀ w', SInv cfg (k - 1) w' → wp (SInv cfg (k - 1)) (srv_receive_loop fuel) w'
      (λ _, SInv cfg (k - 1))) as Hnext by (intros w' Hw'; apply IH; [done|lia]).
    eapply (wp_seq (SInv cfg (k - 1))); [eauto with safe|exact H1|done|]. intros _ w2 H2.
    eapply (wp_seq (SInv cfg (k - 1))); [eauto with safe|exact H2|done|]. intros _ w3 H3.
    pose proof (parse_packet_safe bytes) as Hp.
    destruct (parse_packet _ _) as [v|rc|] eqn:Hv; [| |done].
    + destruct (parse_packet_ok _ _ Hok Hv) as [p Hpk].
      eapply (wp_seq (SInv cfg (k - 1))); [apply note_receive_safe|exact H3|done|]. intros _ w4 H4.
      eapply (wp_seq (SInv cfg (k - 1))); [by eapply srv_handle_packet_safe|exact H4|done|].
      intros _ w5 H5. by apply Hnext.
    + eapply (wp_seq (SInv cfg (k - 1))); [eauto with safe|exact H3|done|]. intros now w4 H4.
      eapply (wp_seq (SInv cfg (k - 1))); [eauto with safe|exact H4|done|]. intros _ w5 H5.
      eapply (wp_seq (SInv cfg (k - 1))); [|exact H5|done|intros _ w6 H6; by apply Hnext].
      case_decide.
      * apply safe_bind; [eauto with safe|intros _]. apply refuse_inv_safe. ulia.
      * apply safe_bind; [eauto with safe|intros _]. apply safe_bind; [eauto with safe|intros now'].
        eauto with safe.
  - destruct Hr as [Hn Ht]. set (w1 := mkServerWorld _ _ _).
    assert (SInv cfg k w1) as H1 by (destruct Hw as [Hc Hl Hi]; split; cbn; [done|done|lia]).
    match goal with |- match ?m w1 with _ => _ end => change (wp (SInv cfg k) m w1 (λ _, SInv cfg k)) end.
    case_decide; [apply (safe_inv cfg k); [intros; apply tally_safe|exact H1]|].
    case_decide as Htr.
    + specialize (Ht Htr).
      assert (SInv cfg (k - 1) w1 ∧ (1 <= k)%nat) as [Hw2 Hpos].
      { destruct Hw as [Hc Hl Hi]. split; [split; cbn; [done|done|lia]|lia]. }
      eapply wp_weaken with (E := SInv cfg (k - 1)) (Q := λ _, SInv cfg (k - 1));
        [|by intros; eapply SInv_weaken; [|done]; lia|by intros; eapply SInv_weaken; [|done]; lia].
      eapply (wp_seq (SInv cfg (k - 1))); [eauto with safe|exact Hw2|done|]. intros _ w3 Hw3.
      apply IH; [done|lia].
    + eapply (wp_seq (SInv cfg k)); [eauto with safe|exact H1|done|]. by intros.
Qed.

Lemma srv_pump_receive_safe k : Safe (SInv cfg k) srv_pump_receive.
Proof.
  intros w Hw. set (k' := length (n_inbox (sw_net w))).
  assert (SInv cfg k' w) as Hw' by (destruct Hw; split; done).
  pose proof (srv_receive_loop_wp (S k') k' w Hw' ltac:(lia)) as Hr.
  change (wp (SInv cfg k) (srv_receive_loop (S k')) w (λ _, SInv cfg k)).
  pose proof (si_inbox _ _ _ Hw) as Hle. eapply wp_weaken; [exact Hr| |].
  - intros w' Hi. exact (SInv_weaken k' k w' Hle Hi).
  - intros a w' Hi. exact (SInv_weaken k' k w' Hle Hi).
Qed.

(** ** Housekeeping and the tick *)

Section tick.
Context (k : nat).

Lemma housekeep_session_safe D id now : id ∈ D → Safe (SDom cfg D k) (housekeep_session id now).
Proof.
  intros Hid. unfold housekeep_session. apply safe_bind.
  { apply safe_dom. intros Γ HΓ. apply srv_expire_reassemblies_safe; [done|by eapply in_domain]. }
  intros _ w Hw. assert (SAt cfg (views w) k w) as Hat by (split; [apply Hw|done]).
  destruct (in_domain _ _ _ Hid (proj2 Hw)) as [[e σ] Hv].
  destruct (SAt_lookup _ _ _ _ _ _ Hat Hv) as (s & Hs & Hvs & _). injection Hvs as He Hσ.
  apply wp_bind. eapply wp_session; [exact Hs|]. apply wp_bind, wp_srv. cbv zeta. rewrite Hσ.
  assert (∀ f reason, Safe (SDom cfg D k) (tally_and_close f id reason)) as Hclose
    by (intros; by apply tally_and_close_safe).
  destruct σ; [done| | | |done].
  - by apply safe_when.
  - destruct (_ && _); [by apply Hclose|]. apply safe_when; [|done].
    apply safe_dom. intros Γ HΓ. apply keepalive_safe; [done|by eapply in_domain].
  - destruct (_ && _); [|done]. unfold when.
    eapply transition_dom; [exact Hat|apply Hw|exact Hv|by right|done|done].
Qed.

Lemma housekeep_sessions_safe D ids now :
  (∀ id, id ∈ ids → id ∈ D) → Safe (SDom cfg D k) (housekeep_sessions ids now).
Proof.
  induction ids as [|id ids IH]; intros Hids; [apply safe_ret|]. cbn [housekeep_sessions].
  apply safe_bind; [apply housekeep_session_safe, Hids; left|intros _].
  apply IH. intros i Hi. apply Hids. by right.
Qed.

Lemma srv_housekeeping_safe : Safe (SInv cfg k) srv_run_housekeeping.
Proof.
  unfold srv_run_housekeeping. apply safe_bind; [eauto with safe|intros now]. apply safe_srv. intros w Hw.
  eapply (wp_seq (SDom cfg (dom (views w)) k)); [apply housekeep_sessions_safe|by split|by intros ? []|].
  { intros id Hid. apply elem_of_dom. by eapply (traversal_known cfg k (views w)); [|exact Hid]. }
  intros _ w1 [Hw1 _]. eapply (wp_seq (SInv cfg k)); [|exact Hw1|done|].
  { apply safe_inv. intros Γ. apply safe_set_srv; [|done]. intros v []. by split. }
  intros _ w2 Hw2. eapply (wp_seq (SInv cfg k)); [apply evict_stale_safe|exact Hw2|done|].
  intros _ w3 Hw3. revert w3 Hw3. change (Safe (SInv cfg k) srv_refresh). eauto with safe.
Qed.

Lemma srv_tick_safe : Safe (SInv cfg k) srv_tick.
Proof.
  unfold srv_tick. apply safe_bind; [apply safe_inv; intros; by apply srv_flush_safe|intros _].
  apply safe_bind; [apply safe_inv; intros; by apply srv_pump_reliable_safe|intros _].
  apply safe_bind; [apply srv_pump_receive_safe|intros _]. apply srv_housekeeping_safe.
Qed.

(** ** Public operations *)

Lemma close_peer_safe peer reason : Safe (SInv cfg k) (close_peer peer reason).
Proof.
  apply safe_srv. intros w Hw. unfold peer_session.
  destruct (find_session (peer_conn_id peer) (sw_server w)) as [s|] eqn:Hf; [|done]. cbn.
  destruct (ep_eqb _ _); [|done]. by eapply close_known_wp.
Qed.

Lemma clear_tables_ok v : server_ok cfg v → server_ok cfg (clear_tables v).
Proof.
  intros Hv. pose proof (server_usable_queue _ Hu). pose proof (server_usable_valid _ Hu) as Hval.
  pose proof Hu as [Ht _]. unfold server_typed, abuse_typed in Ht.
  destruct Hv. unfold clear_tables. split; sfields; try done.
  - simpl. lia.
  - constructor.
  - split; [by intros id s|by intros e id ?%elem_of_nil|by intros e1 i1 e2 i2 ?%elem_of_nil].
  - rewrite map_size_empty. pose proof (sv_sessions _ Hval). lia.
  - intros host. unfold on_host. rewrite map_filter_empty, map_size_empty. pose proof (sv_per_host _ Hval). lia.
  - intros _. unfold total_memory. rewrite map_fold_empty. ulia.
Qed.

Lemma safe_clear f :
  (∀ v, server_ok cfg v → server_ok cfg (f v)) → (∀ v, s_sessions (f v) = ∅) →
  Safe (SInv cfg k) (set_srv f).
Proof.
  intros Hf Hs w [Hv [_ Hse Hle] Hi]. apply wp_set_srv. split; cbn [sw_server sw_net sw_events]; [by apply Hf| |done].
  rewrite Hs. by split.
Qed.

Lemma srv_stop_safe : Safe (SInv cfg k) srv_stop.
Proof.
  unfold srv_stop. apply safe_bind; [by apply safe_clear; [apply clear_tables_ok|]|intros _].
  apply safe_bind.
  { apply safe_inv. intros Γ. apply os_safe. intros n. destruct (close_keeps n) as (a & n' & -> & Hn).
    split; [done|]. cbn. by rewrite Hn. }
  intros _. apply safe_bind; [|intros _; eauto with safe]. apply safe_inv. intros Γ.
  apply safe_set_srv; [|done]. intros v []. split; sfields; done.
Qed.

Lemma quiet_bind_to local : quiet_call (UdpSocket.bind_to local).
Proof.
  unfold UdpSocket.bind_to. apply quiet_bind; [done|intros opened].
  apply quiet_bind; [destruct opened; [done|apply quiet_open]|intros _].
  apply quiet_bind; [apply quiet_os_call|by intros []].
Qed.

Lemma quiet_safe {A} (m : io Net A) : quiet_call m → Safe (SInv cfg k) (os m).
Proof.
  intros Hm. apply safe_inv. intros Γ. apply os_safe. intros n. destruct (Hm n) as [? ->]. split; [done|lia].
Qed.

Lemma listen_safe runtime e : Safe (SInv cfg k) (listen runtime e).
Proof.
  unfold listen. apply safe_if; intros _; [apply safe_err|]. apply safe_srv_any. intros v. cbv zeta.
  apply safe_if; intros _; [apply safe_err|]. apply safe_bind; [apply srv_stop_safe|intros _].
  apply safe_bind; [apply quiet_safe, quiet_open|intros _].
  apply safe_bind; [apply quiet_safe, quiet_bind_to|intros _].
  apply safe_bind; [apply quiet_safe, quiet_nonblocking|intros _].
  apply safe_bind.
  { apply safe_clear; [|done]. intros v' Hv'. apply clear_tables_ok. destruct Hv'.
    split; sfields; done. }
  intros _ w Hw. apply wp_bind. eapply (random_wp cfg k (views w)); [by split|].
  intros secret w1 Hw1 _ Hsec. eapply (wp_seq (SInv cfg k)); [|by eapply SAt_inv|done|].
  { apply safe_inv. intros Γ. apply safe_set_srv; [|done]. intros v' []. by split. }
  intros _ w2 Hw2. eapply (wp_seq (SInv cfg k)); [eauto with safe|exact Hw2|done|]. intros _ w3 Hw3.
  revert w3 Hw3. change (Safe (SInv cfg k) (srv_log LogLevel.Info "server listening")). eauto with safe.
Qed.

Lemma new_server_ok : server_ok cfg (new_server cfg) ∧ s_sessions (new_server cfg) = ∅.
Proof.
  split; [|done]. unfold new_server. cbv zeta. apply server_ok_stats.
  pose proof (server_usable_queue _ Hu). pose proof (server_usable_valid _ Hu) as Hval.
  pose proof Hu as [Ht _]. unfold server_typed, abuse_typed in Ht.
  split; sfields; try done.
  - simpl. lia.
  - constructor.
  - apply (zeros_array 32).
  - split; [by intros id s|by intros e id ?%elem_of_nil|by intros e1 i1 e2 i2 ?%elem_of_nil].
  - rewrite map_size_empty. pose proof (sv_sessions _ Hval). lia.
  - intros host. unfold on_host. rewrite map_filter_empty, map_size_empty. pose proof (sv_per_host _ Hval). lia.
  - intros _. unfold total_memory. rewrite map_fold_empty. ulia.
Qed.
End tick.
End interface.
