(* ===== verification/ServerProps.v ===== *)
(** * The server: theorems

    What the server promises over any sequence of calls and any traffic: no
    undefined behaviour, bounded and consistent tables, legal state
    transitions and unique nonces. *)
From stdpp Require Import sorting.
From S2P Require Import Prelude Result Hoare ByteBuf Config Message Packet Protocol Windows Payloads.
From S2P Require Import Reliability Ordered Fragmentation Congestion Crypto Stats Endpoint Socket.
From S2P Require Import Client ClientRecv ClientInv ClientSafe Server ServerSend ServerRecv ServerInv.
From S2P Require Import ServerSafe ServerSafeRecv ServerAdmit ServerLoop ClientProps.
#[local] Open Scope Z_scope.

(** ** Runs *)

(** The public operations of [class Server]. *)
Inductive server_op : Type :=
  | SrvListen (runtime : Result) (bind_ep : Endpoint)
  | SrvStop
  | SrvTick
  | SrvSend (peer : Peer) (options : SendOptions) (type : U8) (payload : list U8)
  | SrvSendPayload (peer : Peer) (payload : list U8)
  | SrvSendNull (peer : Peer) (len : nat)
  | SrvBroadcast (excluded : option U64) (options : SendOptions) (type : U8) (payload : list U8)
  | SrvClosePeer (peer : Peer) (reason : CloseReason)
  | SrvSetUserData (peer : Peer) (data : Z)
  | SrvResetStats
  | SrvSetCallbacks (cb : ServerCallbacks).

Section runs.
Context {HN : Ntop} {HS : Sodium} {HT : Traversal}.

Definition run_server (op : server_op) : io ServerWorld unit :=
  match op with
  | SrvListen runtime e => listen runtime e
  | SrvStop => srv_stop
  | SrvTick => srv_tick
  | SrvSend peer options type payload => srv_send peer options type payload
  | SrvSendPayload peer payload => srv_send_payload peer (data_of payload) (zlen payload)
  | SrvSendNull peer len => srv_send_payload peer None (Z.of_nat len)
  | SrvBroadcast excluded options type payload => broadcast excluded options type payload
  | SrvClosePeer peer reason => close_peer peer reason
  | SrvSetUserData peer data => set_peer_user_data peer data
  | SrvResetStats => set_srv (λ v, v <| s_stats := reset_stats |>);; srv_refresh
  | SrvSetCallbacks cb => set_srv (λ v, v <| s_callbacks := cb |>)
  end.

(** Worlds reached from [Server(cfg)] by calls, between which time passes and
    the network does anything. *)
Inductive server_reachable (cfg : ServerConfig) : ServerWorld → Prop :=
  | SReachNew net : server_reachable cfg (mkServerWorld (new_server cfg) net [])
  | SReachNet w net :
      server_reachable cfg w → server_reachable cfg (mkServerWorld (sw_server w) net (sw_events w))
  | SReachOp w op : server_reachable cfg w → server_reachable cfg (run_server op w).2.
End runs.

(** ** Nonces *)

Definition sealed_nonces (id : U64) (log : list ServerEvent) : list (list U8) :=
  omap (λ e, match e with PacketSealed id' n => if decide (id' = id) then Some n else None | _ => None end)
    log.

Lemma sealed_bound id log n :
  packets_sealed_ok log → n ∈ sealed_nonces id (since id log) →
  ∃ s, n = crypto_make_packet_nonce id (w64 s) ∧ 1 <= s <= taken id (since id log).
Proof.
  induction log as [|e log IH]; cbn [packets_sealed_ok since]; [by intros _ ?%elem_of_nil|].
  destruct e; try (by intros Hs Hn; apply IH); unfold sealed_nonces; cbn [omap list_omap];
    fold (sealed_nonces id (since id log)).
  - case_decide; [by intros _ ?%elem_of_nil|]. intros Hs Hn. by apply IH.
  - intros Hs Hn. destruct (IH Hs Hn) as (s & -> & Hb). exists s. split; [done|].
    cbn [taken]. case_decide; lia.
  - intros [(log' & -> & ->) Hs]. case_decide as Hid.
    + subst conn_id. intros [->|Hn]%elem_of_cons.
      * exists (taken id (since id (NumberTaken id :: log'))). split; [done|]. cbn [since taken].
        rewrite decide_True by done. pose proof (taken_nonneg id (since id log')). lia.
      * destruct (IH Hs Hn) as (s & -> & Hb). by exists s.
    + intros Hn. destruct (IH Hs Hn) as (s & -> & Hb). by exists s.
Qed.

Lemma sealed_nodup id log :
  packets_sealed_ok log → taken id (since id log) <= U64_MAX → NoDup (sealed_nonces id (since id log)).
Proof.
  induction log as [|e log IH]; cbn [packets_sealed_ok since]; [constructor|].
  destruct e; try (by intros Hs Hn; apply IH); unfold sealed_nonces; cbn [omap list_omap];
    fold (sealed_nonces id (since id log)).
  - case_decide; [constructor|]. intros Hs Hn. by apply IH.
  - cbn [taken]. intros Hs Hn. apply IH; [done|]. case_decide; lia.
  - intros [(log' & -> & ->) Hs] Ha. case_decide as Hid; [|by apply IH]. subst conn_id.
    apply NoDup_cons. split; [|by apply IH]. cbn [since taken] in Ha |- *.
    rewrite decide_True in Ha |- * by done. intros Hin. cbn [packets_sealed_ok] in Hs.
    change (sealed_nonces id (NumberTaken id :: since id log')) with (sealed_nonces id (since id log')) in Hin.
    destruct (sealed_bound _ _ _ Hs Hin) as (s & Heq & Hb).
    rewrite !nonce_layout in Heq. apply app_inj_1 in Heq as [_ Heq]; [|done].
    apply app_inj_1 in Heq as [_ Heq]; [|by rewrite !length_be].
    apply (wire_enc_inj (wr:=write_u64) (rd:=read_u64) (enc:=be 8) (valid:=is_u64)) in Heq;
      [|apply w64_range..]. unfold U64_MAX in Ha. rewrite !w64_id in Heq by ulia. lia.
Qed.

(** ** Properties of every run *)

Section properties.
Context {HN : Ntop} {HS : Sodium} {HL : SodiumLaws} {HT : Traversal} {HTL : TraversalLaws}.
Context (cfg : ServerConfig).

Lemma run_server_safe k op : server_usable cfg → Safe (SInv cfg k) (run_server op).
Proof.
  intros Hu. destruct op; cbn [run_server].
  - by apply listen_safe.
  - by apply srv_stop_safe.
  - by apply srv_tick_safe.
  - apply safe_inv. intros. by apply srv_send_safe.
  - apply safe_inv. intros. apply srv_send_payload_safe; [done| |lia].
    unfold data_of, readable. case_decide; [done|lia].
  - apply safe_inv. intros. apply srv_send_payload_safe; [done|done|lia].
  - apply safe_inv. intros. by apply broadcast_safe.
  - by apply close_peer_safe.
  - apply safe_inv. intros. by apply set_user_data_safe.
  - apply safe_inv. intros. apply safe_bind; [|intros _; apply srv_refresh_safe].
    apply safe_set_srv; [|done]. intros. by apply server_ok_stats.
  - apply safe_inv. intros. apply safe_set_srv; [|done]. intros v []. by split.
Qed.

Lemma server_reachable_inv w : server_usable cfg → server_reachable cfg w → ∃ k, SInv cfg k w.
Proof.
  intros Hu. induction 1 as [net|w net _ [k Hw]|w op _ [k Hw]].
  - destruct (new_server_ok cfg Hu) as [Hv Hs]. exists (length (n_inbox net)).
    split; cbn [sw_server sw_net sw_events]; [done| |done]. rewrite Hs. by split.
  - exists (length (n_inbox net)). destruct Hw. by split.
  - exists k. pose proof (run_server_safe k op Hu w Hw) as Hr. unfold wp in Hr.
    by destruct (run_server op w) as [[a|rc|] w'].
Qed.

(** C2: with a configuration that [listen] accepts, no public operation, in any
    state the server can reach and whatever arrives from any number of peers, has
    undefined behaviour: no access out of bounds, no use of an erased session, no
    clamp on an empty range, and the flush, receive and dispatch loops end. *)
Theorem server_never_undefined w op :
  server_usable cfg → server_reachable cfg w → (run_server op w).1 ≠ UB.
Proof.
  intros Hu [k Hw]%server_reachable_inv; [|done]. pose proof (run_server_safe k op Hu w Hw) as Hr.
  unfold wp in Hr. by destruct (run_server op w) as [[a|rc|] w'].
Qed.

(** C3: in every reachable state the send queue is exact, within its limit and
    ordered by priority; the number of sessions is within the limit, as is the
    number from each host; no two sessions have the same endpoint and the
    endpoint table finds each; every session has its own non-zero connection id
    and a send budget within its bucket; and reassembly stays within the memory
    limit of the server. *)
Theorem server_invariant w :
  server_usable cfg → quota_sane cfg → server_reachable cfg w →
  let v := sw_server w in
  s_pending_bytes v = queue_len (as_pending <$> s_pending v) ∧
  zlen (s_pending v) <= server_max_pending_packets cfg ∧
  StronglySorted by_priority (as_pending <$> s_pending v) ∧
  Z.of_nat (size (s_sessions v)) <= server_max_peer_sessions cfg ∧
  (∀ host, Z.of_nat (size (on_host host (s_sessions v))) <= max_sessions_per_ip (server_abuse cfg)) ∧
  (∀ id1 s1 id2 s2, s_sessions v !! id1 = Some s1 → s_sessions v !! id2 = Some s2 →
     ep_eqb (ps_endpoint s1) (ps_endpoint s2) = true → id1 = id2) ∧
  (∀ id s, s_sessions v !! id = Some s →
     find_session_by_endpoint (ps_endpoint s) v = Some s ∧ ps_conn_id s = id ∧ id ≠ 0 ∧
     0 <= ps_send_budget_bytes s <= bucket_cap_bytes (ps_congestion s)) ∧
  total_memory (s_sessions v) <= max_total_reassembly_memory_server (server_abuse cfg).
Proof.
  intros Hu Hq [k [Hv _ _]]%server_reachable_inv v; [|done]. pose proof (vo_tables _ _ Hv) as Ht.
  assert (∀ id1 s1 id2 s2, s_sessions v !! id1 = Some s1 → s_sessions v !! id2 = Some s2 →
    ep_eqb (ps_endpoint s1) (ps_endpoint s2) = true → id1 = id2) as Huniq.
  { intros id1 s1 id2 s2 Hs1 Hs2 He. destruct (ta_listed _ _ Ht _ _ Hs1) as (e1 & Hin1 & He1).
    destruct (ta_listed _ _ Ht _ _ Hs2) as (e2 & Hin2 & He2).
    apply (ta_unique _ _ Ht e1 id1 e2 id2); [done|done|].
    apply (ep_eqb_trans _ (ps_endpoint s1)); [done|].
    apply (ep_eqb_trans _ (ps_endpoint s2)); [done|by rewrite ep_eqb_sym]. }
  split_and!; [apply Hv|apply Hv|apply Hv|apply Hv|apply Hv|done| |by apply Hv].
  intros id s Hs. pose proof (vo_sessions _ _ Hv _ _ Hs) as Hok.
  split_and!; [|apply Hok|apply (so_id_range _ _ _ Hok)|apply Hok|apply Hok].
  destruct (find_session_by_endpoint (ps_endpoint s) v) as [s'|] eqn:Hf.
  - destruct (by_endpoint_some cfg _ _ _ (vo_sessions _ _ Hv) Ht Hf) as [Hs' He].
    assert (ps_conn_id s' = id) as Hid by (by eapply Huniq). rewrite Hid in Hs'. unfold v in *. congruence.
  - exfalso. destruct (ta_listed _ _ Ht _ _ Hs) as (e & Hin & He).
    rewrite (by_endpoint_none _ _ Ht Hf _ _ Hin) in He. done.
Qed.

(** C13: within a session no two packets are sealed with the same nonce, as long
    as fewer than 2^64 sequence numbers are taken. *)
Theorem server_nonces_unique w id :
  server_usable cfg → server_reachable cfg w → taken id (since id (sw_events w)) <= U64_MAX →
  NoDup (sealed_nonces id (since id (sw_events w))).
Proof.
  intros Hu [k [_ Hl _]]%server_reachable_inv Ha; [|done]. by apply sealed_nodup; [apply Hl|].
Qed.

(** C16: every state change of a session that is reported to the user is an edge
    of the session state machine: a session is never established twice, never
    leaves [Closing] but for [Closed], and never leaves [Closed]. *)
Theorem server_transitions_legal w peer a b :
  server_usable cfg → server_reachable cfg w → SrvOnPeerStateChange peer a b ∈ sw_events w →
  legal_session a b = true.
Proof.
  intros Hu [k [_ [_ _ Hl] _]]%server_reachable_inv Hin; [|done].
  rewrite Forall_forall in Hl. exact (Hl _ Hin).
Qed.
End properties.

(** ** An example run

    The client of [ClientProps.Example] and a server complete the handshake, on
    the concrete library [toy_sodium]: datagrams that one end sends are handed
    to the other. *)
Module Pair.
#[export] Existing Instance toy_sodium.
#[export] Instance toy_ntop : Ntop := λ e,
  match e with EpV4 _ a => Some (be 4 a) | EpV6 _ _ _ a => Some a | _ => None end.
#[export] Instance toy_traversal : Traversal := λ m, (map_to_list m).*1.
#[export] Instance toy_traversal_laws : TraversalLaws.
Proof. intros m. reflexivity. Qed.

Definition server_addr : Endpoint := EpV4 4000 2130706433.
Definition client_addr : Endpoint := EpV4 5555 2130706433.

Definition handed (from : Endpoint) (datagrams : list (list U8)) (n : Net) : Net :=
  mkNet (n_now n) (n_clock n) (n_open n) (n_calls n) (n_sends n) (OsDatagram from <$> datagrams)
    (n_random n) [].
Definition to_server (datagrams : list (list U8)) (w : ServerWorld) : ServerWorld :=
  mkServerWorld (sw_server w) (handed client_addr datagrams (sw_net w)) (sw_events w).
Definition to_client (datagrams : list (list U8)) (w : World) : World :=
  mkWorld (w_client w) (handed server_addr datagrams (w_net w)) (w_events w).
Definition sent (n : Net) : list (list U8) := reverse (n_sent n).*2.

Definition srv_every_callback : ServerCallbacks :=
  mkServerCallbacks true true {[7]} {[8]} true true true true true false true.
Definition server_net : Net :=
  mkNet 1000 [] false [] [] [] [[1; 2]; [0; 0; 0; 0; 0; 0; 0; 9]; [3; 4; 5]; [6; 6; 6]] [].

Definition server0 : ServerWorld := mkServerWorld (new_server default_server) server_net [].
Definition listening : ServerWorld :=
  (run_server (SrvListen success server_addr) (run_server (SrvSetCallbacks srv_every_callback) server0).2).2.
Definition server_ticks (w : ServerWorld) : ServerWorld := (run_server SrvTick (run_server SrvTick w).2).2.
Definition client_ticks (w : World) : World := (run_op OpTick (run_op OpTick w).2).2.

(** Hello, retry, hello with the retry token, server hello, keepalive. *)
Definition client1 : World := Example.connecting.
Definition server1 : ServerWorld := server_ticks (to_server (sent (w_net client1)) listening).
Definition client2 : World := (run_op OpTick (to_client (sent (sw_net server1)) client1)).2.
Definition server2 : ServerWorld := server_ticks (to_server (sent (w_net client2)) server1).
Definition client3 : World := client_ticks (to_client (sent (sw_net server2)) client2).
Definition server3 : ServerWorld := server_ticks (to_server (sent (w_net client3)) server2).

Lemma server_default_usable : server_usable default_server.
Proof. split; [by apply (bool_decide_unpack (server_typed default_server)); vm_compute|reflexivity]. Qed.
Lemma server_default_sane : quota_sane default_server.
Proof. done. Qed.
Lemma listening_reachable : server_reachable default_server listening.
Proof. do 2 apply SReachOp. constructor. Qed.
Lemma server3_reachable : server_reachable default_server server3.
Proof. do 3 (do 2 apply SReachOp; apply SReachNet). apply listening_reachable. Qed.

(** The peer of the established session. *)
Definition peer : Peer := mkPeer client_addr 9 1.
End Pair.

(** ** Witnesses *)

Import Pair.

Lemma server_never_undefined_witness :
  (run_server (SrvSend peer (mkSendOptions Channel.ReliableOrdered SendPriority.Normal 0) 7 [1; 2; 3])
     server3).1 ≠ UB.
Proof.
  apply (server_never_undefined default_server); [apply server_default_usable|apply server3_reachable].
Defined.

Lemma server_invariant_witness :
  size (s_sessions (sw_server server3)) = 1%nat ∧
  s_pending_bytes (sw_server server3) = queue_len (as_pending <$> s_pending (sw_server server3)).
Proof.
  split; [vm_compute; reflexivity|].
  exact (proj1 (server_invariant default_server server3 server_default_usable server_default_sane
    server3_reachable)).
Defined.

Lemma server_nonces_unique_witness :
  NoDup (sealed_nonces 9 (since 9 (sw_events (run_server SrvTick server3).2))).
Proof.
  apply (server_nonces_unique default_server);
    [apply server_default_usable|apply SReachOp, server3_reachable|]. vm_compute. discriminate.
Defined.

Lemma server_transitions_legal_witness :
  legal_session ConnectionState.Handshaking ConnectionState.Established = true.
Proof.
  apply (server_transitions_legal default_server server3 peer);
    [apply server_default_usable|apply server3_reachable|].
  vm_compute. repeat constructor.
Defined.
