(* ===== verification/ServerAuth.v ===== *)
(** * The server: tokens, authentication and agreement with the client

    Retry and resumption tokens, the packets that change nothing but
    statistics, bans and connection state, and the composition of both ends of
    the handshake. *)
From stdpp Require Import sorting.
From S2P Require Import Prelude Result Hoare ByteBuf Config Message Packet Protocol Windows Payloads.
From S2P Require Import Reliability Ordered Fragmentation Congestion Crypto Stats Endpoint Socket.
From S2P Require Import Client ClientRecv ClientInv ClientSafe Server ServerSend ServerRecv ServerInv.
From S2P Require Import ServerSafe ServerSafeRecv ServerAdmit ServerLoop ClientProps ServerProps.
#[local] Open Scope Z_scope.

(** ** Operations that neither deliver a message nor create a session *)

Definition background (e : ServerEvent) : bool :=
  match e with
  | SrvOnMessage _ _ | SrvOnText _ _ _ | SrvOnBinary _ _ | SessionCreated _ => false
  | _ => true
  end.

Section background.
Context {HN : Ntop} {HS : Sodium} {HT : Traversal} {X : Type} (F : list ServerEvent → X).
Context (HF : ∀ e log, background e = true → F (e :: log) = F log).

Definition logged (w : ServerWorld) : X := F (sw_events w).

Lemma bg_set_srv f : Stable logged (set_srv f).
Proof. done. Qed.
Lemma bg_report e : background e = true → Stable logged (report e).
Proof. intros He w. by apply HF. Qed.
Lemma bg_os {A} (m : io Net A) : Stable logged (os m).
Proof. intros w. unfold os. by destruct (m (sw_net w)). Qed.
Lemma bg_session id : Stable logged (session id).
Proof. intros w. unfold session. by destruct (_ !! _). Qed.
Lemma bg_set_session id f : Stable logged (set_session id f).
Proof. apply stable_bind; [apply bg_session|done]. Qed.

(** Walk through a body. *)
Ltac bg :=
  repeat first
    [ solve [eauto 2 with stable nocore]
    | done
    | apply bg_report; reflexivity
    | apply bg_os
    | apply bg_session
    | apply bg_set_session
    | apply stable_when
    | apply stable_attempt
    | apply stable_bind; [|intros ?]
    | case_match ].

Lemma bg_tally f : Stable logged (tally f).
Proof. done. Qed.
Lemma bg_refresh : Stable logged srv_refresh.
Proof. done. Qed.
Lemma bg_log l t : Stable logged (srv_log l t).
Proof. unfold srv_log. bg. Qed.
Lemma bg_debug d e v : Stable logged (srv_packet_debug d e v).
Proof. unfold srv_packet_debug. bg. Qed.
Lemma bg_on_packet e v : Stable logged (srv_on_packet e v).
Proof. unfold srv_on_packet. bg. Qed.
Lemma bg_limited e now : Stable logged (endpoint_rate_limited e now).
Proof. unfold endpoint_rate_limited, set_abuse. bg. Qed.
Lemma bg_banned e now : Stable logged (endpoint_is_banned e now).
Proof. unfold endpoint_is_banned, set_abuse. bg. Qed.
Lemma bg_invalid e now : Stable logged (note_invalid_packet e now).
Proof. unfold note_invalid_packet, set_abuse. bg. Qed.
Lemma bg_amplify e n now : Stable logged (can_amplify_to e n now).
Proof. unfold can_amplify_to, set_preauth. bg. Qed.
#[local] Hint Resolve bg_tally bg_refresh bg_log bg_debug bg_on_packet bg_limited bg_banned bg_invalid
  bg_amplify : stable.

Lemma bg_enqueue p : Stable logged (srv_enqueue p).
Proof. unfold srv_enqueue. bg. Qed.
Lemma bg_stateless : Stable logged next_stateless.
Proof. unfold next_stateless. bg. Qed.
Lemma bg_seq id : Stable logged (next_seq id).
Proof. unfold next_seq. bg. Qed.
#[local] Hint Resolve bg_enqueue bg_stateless bg_seq : stable.
Lemma bg_queue to kd enc p n id s keys prio owner :
  Stable logged (srv_queue_packet to kd enc p n id s keys prio owner).
Proof. unfold srv_queue_packet. bg. Qed.
#[local] Hint Resolve bg_queue : stable.
Lemma bg_close_packet to id r enc keys s prio owner :
  Stable logged (srv_close_packet to id r enc keys s prio owner).
Proof. unfold srv_close_packet. bg. Qed.
Lemma bg_handshake to p n id : Stable logged (queue_plain_handshake to p n id).
Proof. unfold queue_plain_handshake. bg. Qed.
#[local] Hint Resolve bg_close_packet bg_handshake : stable.
Lemma bg_refuse to id r : Stable logged (refuse to id r).
Proof. unfold refuse. bg. Qed.
Lemma bg_retry to t : Stable logged (queue_retry to t).
Proof. unfold queue_retry. bg. Qed.
Lemma bg_announce p a b r : Stable logged (announce p a b r).
Proof. unfold announce. bg. Qed.
#[local] Hint Resolve bg_refuse bg_retry bg_announce : stable.
Lemma bg_transition id next : Stable logged (transition_session id next).
Proof. unfold transition_session. bg. Qed.
#[local] Hint Resolve bg_transition : stable.
Lemma bg_close id r b : Stable logged (close_session id r b).
Proof. unfold close_session. bg. Qed.
#[local] Hint Resolve bg_close : stable.
Lemma bg_close_known id r : Stable logged (close_if_known id r).
Proof. unfold close_if_known. bg. Qed.
#[local] Hint Resolve bg_close_known : stable.
Lemma bg_error from id now rc : Stable logged (srv_handle_error from id now rc).
Proof. unfold srv_handle_error. bg. Qed.
End background.

(** The messages delivered to the user and the sessions created. *)
Definition foreground (log : list ServerEvent) : list ServerEvent :=
  filter (λ e, background e = false) log.

Lemma foreground_background e log : background e = true → foreground (e :: log) = foreground log.
Proof. intros He. unfold foreground. rewrite filter_cons_False; [done|]. by rewrite He. Qed.

(** One step at a time, with what the step leaves unchanged. *)
Lemma stable_step {W A B X} (g : W → X) (m : io W A) (f : A → io W B) w :
  g (m w).2 = g w → (∀ a w', m w = (Done a, w') → g (f a w').2 = g w') → g ((m ≫= f) w).2 = g w.
Proof.
  intros Hm Hf. unfold mbind, io_bind. destruct (m w) as [[a|rc|] w']; cbn in *; [|done..].
  rewrite <- Hm. by apply Hf.
Qed.
Lemma stable_at {W A X} (g : W → X) (m : io W A) w a w' : Stable g m → m w = (Done a, w') → g w' = g w.
Proof. intros Hm Hw. specialize (Hm w). by rewrite Hw in Hm. Qed.
Lemma attempt_world {W} (m : io W unit) w : (attempt m w).2 = (m w).2.
Proof. unfold attempt. by destruct (m w) as [[a|rc|] w']. Qed.

(** What tokens and sessions are checked against. *)
Definition checked (w : ServerWorld) :=
  (s_sessions (sw_server w), s_cookie_secret (sw_server w), s_config (sw_server w)).

Section auth.
Context {HN : Ntop} {HS : Sodium} {HT : Traversal}.

Lemma checked_now : Stable checked (os now_ms).
Proof. intros w. unfold os. by destruct (now_ms (sw_net w)). Qed.
Lemma checked_banned e now : Stable checked (endpoint_is_banned e now).
Proof. unfold endpoint_is_banned, set_abuse. do 2 (apply stable_bind; [done|intros ?]). done. Qed.
Lemma checked_limited e now : Stable checked (endpoint_rate_limited e now).
Proof.
  unfold endpoint_rate_limited, set_abuse. apply stable_bind; [done|intros ?]. cbv zeta.
  apply stable_if; repeat (apply stable_bind; [done|intros ?]); done.
Qed.

Definition fg := logged foreground.
Ltac fg_stable :=
  try match goal with |- fg (snd (?m ?w)) = fg ?w => refine ((_ : Stable fg m) w) end;
  first
  [ done
  | apply (bg_os foreground)
  | apply (bg_banned foreground)
  | apply (bg_limited foreground)
  | apply (bg_refuse foreground foreground_background)
  | apply (bg_retry foreground foreground_background)
  | apply (bg_on_packet foreground foreground_background)
  | apply (bg_debug foreground foreground_background)
  | apply (bg_error foreground foreground_background) ].

(** ** Packets that do not authenticate *)

(** The packet is sealed for the session it names, comes from that session's
    endpoint, and its number was not seen. *)
Definition authentic_for (from : Endpoint) (packet : PacketView) (m : gmap U64 PeerSession) : Prop :=
  ∃ s plaintext, m !! conn_id (pv_h packet) = Some s ∧ ep_eqb (ps_endpoint s) from = true ∧
    packet_header_encrypted (pv_h packet) = true ∧ open_payload (ps_keys s) packet = Done plaintext ∧
    seq (pv_h packet) ≠ 0 ∧ (ReplayWindow.accept (seq (pv_h packet)) (ps_packet_window s)).1 = true.

Lemma session_packet_inert from packet s w :
  s_sessions (sw_server w) !! conn_id (pv_h packet) = Some s → ep_eqb (ps_endpoint s) from = true →
  ¬ authentic_for from packet (s_sessions (sw_server w)) →
  fg (handle_session_packet (conn_id (pv_h packet)) packet w).2 = fg w.
Proof.
  intros Hs He Hna. unfold handle_session_packet. cbv zeta.
  apply stable_step; [apply (bg_session foreground)|]. intros s' w' Hw'.
  unfold session in Hw'. rewrite Hs in Hw'. injection Hw' as <- <-.
  destruct (_ =? _); [reflexivity|].
  destruct (packet_header_encrypted _) eqn:Henc; cbn [negb]; [|reflexivity].
  destruct (negb _); [reflexivity|].
  destruct (open_payload (ps_keys s) packet) as [m|rc|] eqn:Hopen; [|reflexivity..].
  destruct (Z.eqb_spec (seq (pv_h packet)) 0) as [|Hseq]; [reflexivity|].
  destruct (ReplayWindow.accept _ _) as [fresh win] eqn:Hacc.
  apply stable_step; [apply (bg_set_session foreground)|]. intros _ w1 _. destruct fresh; cbn [negb].
  - exfalso. apply Hna. exists s, m. rewrite Hacc. split_and!; assumption || reflexivity.
  - apply stable_step; [reflexivity|]. intros _ w2 _. reflexivity.
Qed.

(** C10: a packet that is not a handshake packet and does not authenticate for the
    session it names (unknown connection id, other sender, not encrypted, wrong
    seal, number zero or seen before) delivers no message to the user and creates
    no session. *)
Theorem server_unauthenticated_inert from packet w :
  kind (pv_h packet) ≠ kind_value PacketKind.Handshake →
  ¬ authentic_for from packet (s_sessions (sw_server w)) →
  foreground (sw_events (srv_handle_packet from packet w).2) = foreground (sw_events w).
Proof.
  intros Hk Hna. change (fg (srv_handle_packet from packet w).2 = fg w).
  unfold srv_handle_packet. cbv zeta. apply stable_step; [fg_stable|]. intros now w1 Hw1.
  pose proof (stable_at checked _ _ _ _ checked_now Hw1) as Hc1.
  apply stable_step; [fg_stable|]. intros banned w2 Hw2.
  pose proof (stable_at checked _ _ _ _ (checked_banned from now) Hw2) as Hc2. rewrite Hc1 in Hc2.
  injection Hc2 as Hs2 _ _. destruct banned; [done|]. apply stable_step.
  2: { intros rc w3 _. destruct (ok rc); [done|fg_stable]. }
  rewrite attempt_world. destruct (Z.eqb_spec (kind (pv_h packet)) (kind_value PacketKind.Handshake)); [done|].
  destruct (_ =? 0); [done|]. apply stable_step; [done|]. intros v w3 [= <- <-].
  assert (fg ((refuse from (conn_id (pv_h packet)) CloseReason.UnknownConnection;;
    fail (A:=unit) Errc.Closed "unknown session") w2).2 = fg w2) as Hrefuse
    by (apply stable_step; [fg_stable|done]).
  unfold find_session. destruct (_ !! _) as [s|] eqn:Hs; [|exact Hrefuse].
  destruct (ep_eqb _ _) eqn:He; [|exact Hrefuse].
  apply (session_packet_inert from packet s); [done|done|]. by rewrite Hs2.
Qed.

(** ** Sessions need a token *)

Lemma retry_token_checked v v' from h t now :
  s_cookie_secret v = s_cookie_secret v' →
  validate_retry_token v from h t now = validate_retry_token v' from h t now.
Proof. intros Heq. unfold validate_retry_token, make_retry_token. by rewrite Heq. Qed.
Lemma resumption_token_checked v v' from t now :
  s_cookie_secret v = s_cookie_secret v' →
  validate_resumption_token v from t now = validate_resumption_token v' from t now.
Proof. intros Heq. unfold validate_resumption_token. by rewrite Heq. Qed.

Lemma check_retry_inert from hello now w :
  ch_has_retry_token hello = false ∨
  validate_retry_token (sw_server w) from hello (ch_retry_token hello) now ≠ Done tt →
  fg (check_retry from hello now w).2 = fg w.
Proof.
  intros Hno. unfold check_retry. apply stable_step; [done|]. intros v w1 [= <- <-]. cbv zeta.
  assert (Stable fg (token ← lift (make_retry_token (sw_server w) from hello now); queue_retry from token))
    as Hretry by (apply stable_bind; [done|intros; fg_stable]).
  destruct (ch_has_retry_token hello); cbn [negb]; [|apply Hretry].
  destruct (validate_retry_token _ _ _ _ _) as [[]|rc|]; [by destruct Hno| |done].
  case_decide; [fg_stable|]. apply stable_step; [|done]. by apply stable_attempt.
Qed.

(** The tokens that admit a client: a retry token for the sender's address,
    public key and nonce, or, when resumption is enabled, a resumption token for
    its host. *)
Definition token_valid (v : Server) (from : Endpoint) (hello : ClientHello) (now : U64) : Prop :=
  (ch_has_retry_token hello = true ∧
   validate_retry_token v from hello (ch_retry_token hello) now = Done tt) ∨
  (server_enable_session_resumption (s_config v) = true ∧ ch_has_resumption_token hello = true ∧
   validate_resumption_token v from (ch_resumption_token hello) now = Done tt).

#[export] Instance validated_dec (o : outcome unit) : Decision (o = Done tt).
Proof. destruct o as [[]|?|]; [by left|by right..]. Defined.
#[export] Instance token_valid_dec v from hello now : Decision (token_valid v from hello now).
Proof. unfold token_valid. apply _. Defined.

Lemma client_hello_inert from hello w now n :
  now_ms (sw_net w) = (Done now, n) →
  (ab_banned_until_ms (abuse_state_for from (sw_server w)) <= now →
   ¬ token_valid (sw_server w) from hello now) →
  fg (handle_client_hello from hello w).2 = fg w.
Proof.
  intros Hnow Hno. unfold handle_client_hello. apply stable_step; [fg_stable|]. intros t w1 Hw1.
  unfold os in Hw1. rewrite Hnow in Hw1. injection Hw1 as <- <-. destruct (_ && _); [reflexivity|].
  apply stable_step; [fg_stable|]. intros banned w2 Hw2.
  pose proof (stable_at checked _ _ _ _ (checked_banned from now) Hw2) as Hc2.
  assert (banned = (now <? ab_banned_until_ms (abuse_state_for from (sw_server w)))) as ->
    by (by injection Hw2 as <- _).
  destruct (Z.ltb_spec now (ab_banned_until_ms (abuse_state_for from (sw_server w)))) as [_|Hban];
    [reflexivity|]. specialize (Hno Hban). unfold token_valid in Hno.
  apply stable_step; [fg_stable|]. intros limited w3 Hw3.
  pose proof (stable_at checked _ _ _ _ (checked_limited from now) Hw3) as Hc3. rewrite Hc2 in Hc3.
  injection Hc3 as _ Hsec Hcfg. cbn [sw_server] in Hsec, Hcfg.
  destruct limited; [reflexivity|].
  apply stable_step; [by apply (bg_report foreground foreground_background)|]. intros [] w3' [= <-].
  apply stable_step; [reflexivity|]. intros v w4 [= <- <-].
  rewrite Hcfg. rewrite (resumption_token_checked _ (sw_server w)) by done.
  assert (∀ w', s_cookie_secret (sw_server w') = s_cookie_secret (sw_server w) →
    fg (check_retry from hello now w').2 = fg w') as Hretry.
  { intros w' Hw'. apply check_retry_inert. destruct (ch_has_retry_token hello); [right|by left].
    rewrite (retry_token_checked _ (sw_server w)) by done. tauto. }
  destruct (server_enable_session_resumption _ && ch_has_resumption_token hello && _) eqn:Hres;
    [|by apply Hretry].
  apply andb_true_iff in Hres as [[Hen Hht]%andb_true_iff _].
  apply stable_step; [reflexivity|]. intros [] w5 [= <-].
  destruct (validate_resumption_token _ _ _ _) as [[]|rc|]; [tauto| |reflexivity].
  apply stable_step; [reflexivity|]. intros [] w6 [= <-]. apply Hretry. exact Hsec.
Qed.

(** C11: a client hello makes the server create a session only when its sender is
    not banned and it carries a valid token: a retry token for its address, public
    key and nonce, or, when resumption is enabled, a resumption token for its
    host.  Any other hello changes neither the sessions created nor the messages
    delivered. *)
Theorem session_requires_token from hello w now n :
  now_ms (sw_net w) = (Done now, n) →
  foreground (sw_events (handle_client_hello from hello w).2) ≠ foreground (sw_events w) →
  ab_banned_until_ms (abuse_state_for from (sw_server w)) <= now ∧
  token_valid (sw_server w) from hello now.
Proof.
  intros Hnow Hch. destruct (decide (ab_banned_until_ms (abuse_state_for from (sw_server w)) <= now ∧
    token_valid (sw_server w) from hello now)) as [|Hno]; [done|]. exfalso. apply Hch.
  apply (client_hello_inert from hello w now n Hnow). tauto.
Qed.
End auth.

(** ** Retry tokens *)

Section agreement.
Context {HN : Ntop} {HS : Sodium} {HL : SodiumLaws} {HT : Traversal} {HTL : TraversalLaws}.
Context (cfg : ServerConfig).

(** C14: the server accepts a retry token exactly when it is the one it makes
    itself for the sender's address, public key and nonce at the time the token
    names, and that time is not in the future and not older than the lifetime of
    a token; no state is kept for it. *)
Theorem retry_token_correct w from hello t now :
  server_usable cfg → server_reachable cfg w → hello_ok hello → is_array 16 (rt_mac t) →
  validate_retry_token (sw_server w) from hello t now = Done tt ↔
  rt_issued_at_ms t <= now <= rt_issued_at_ms t + NetConfig.RetryTokenLifetimeMs ∧
  make_retry_token (sw_server w) from hello (rt_issued_at_ms t) = Done t.
Proof.
  intros Hu [k [Hv _ _]]%server_reachable_inv [Hpk Hcn _ _] [Hl Ht]; [|done].
  destruct (make_retry_token_ok cfg (sw_server w) from hello (rt_issued_at_ms t) Hv Hpk Hcn)
    as (mac & Hmake & Hm1 & Hm2).
  unfold validate_retry_token. rewrite Hmake. cbn [outcome_bind rt_mac].
  change (Z.of_nat NetConfig.RetryTokenMacBytes) with (Z.of_nat 16). rewrite <- Hm1.
  rewrite constant_time_equal_mac; [|congruence|exact Hm2|exact Ht]. cbn [outcome_bind].
  destruct (Z.ltb_spec now (rt_issued_at_ms t)),
    (Z.ltb_spec NetConfig.RetryTokenLifetimeMs (now - rt_issued_at_ms t));
    cbn [orb]; [split; [discriminate|lia]..|].
  destruct (bool_decide_reflect (mac = rt_mac t)) as [->|Hne]; cbn [negb].
  - destruct t. split; [|reflexivity]. split; [lia|reflexivity].
  - split; [discriminate|]. intros [_ Heq]. destruct Hne. injection Heq as Heq. by rewrite <- Heq.
Qed.

(** ** Both ends of the handshake *)

Lemma derive_server_keys kp pk keys :
  is_array 32 pk → crypto_derive_server_session_keys kp (Some pk) 32 = Done keys →
  kx_server_session_keys (kp_public kp) (kp_secret kp) pk = Some (sk_rx keys, sk_tx keys).
Proof.
  intros [Hl _]. unfold crypto_derive_server_session_keys. rewrite crypto_ready.
  rewrite reject_if_false by done. replace 32 with (zlen pk) by lia. rewrite bytes_at_all.
  cbn [outcome_bind]. destruct (kx_server_session_keys _ _ _) as [[rx tx]|]; [|done]. by intros [= <-].
Qed.
Lemma derive_client_keys kp pk rx tx :
  is_array 32 pk → kx_client_session_keys (kp_public kp) (kp_secret kp) pk = Some (rx, tx) →
  crypto_derive_client_session_keys kp (Some pk) 32 = Done (mkSessionKeys rx tx).
Proof.
  intros [Hl _] Hk. unfold crypto_derive_client_session_keys. rewrite crypto_ready.
  rewrite reject_if_false by done. replace 32 with (zlen pk) by lia. rewrite bytes_at_all.
  cbn [outcome_bind]. by rewrite Hk.
Qed.
Lemma generated_keypair r kp :
  crypto_generate_keypair r = Done kp → kx_keypair r = Some (kp_public kp, kp_secret kp).
Proof.
  unfold crypto_generate_keypair. rewrite crypto_ready. destruct (kx_keypair r) as [[pk sk]|]; [|done].
  by intros [= <-].
Qed.

(** The session remembers the hello it was made for. *)
Lemma new_session_hello c from id peer now nonce s kp keys :
  new_session cfg from (current_hello c) (ch_has_resumption_token (current_hello c)) id peer now nonce = Done s →
  session_hello (with_keys kp keys s) = current_hello c.
Proof.
  unfold new_session. destruct (configure_congestion _ _ _) as [cc|rc|]; cbn [outcome_bind]; [|done..].
  intros [= <-]. unfold session_hello, with_keys, current_hello. fields.
  destruct (c_have_retry_token c), (client_enable_session_resumption (c_config c)),
    (c_have_resumption_token c), (c_attempted_resumption c); reflexivity.
Qed.

(** C12: both ends of the handshake agree.  For the session the server makes for
    the hello the client sent, with both key pairs drawn from the generator, the
    client accepts the server hello, and ends up with the keys of the session,
    what one end receives with being what the other sends with. *)
Theorem handshake_agreement ccfg cw r1 r2 kp keys from id peer now nonce s token hello :
  let c := w_client cw in
  client_usable ccfg → reachable ccfg cw → crypto_generate_keypair r1 = Done (c_ephemeral c) →
  crypto_generate_keypair r2 = Done kp →
  crypto_derive_server_session_keys kp (Some (kp_public (c_ephemeral c))) 32 = Done keys →
  new_session cfg from (current_hello c) (ch_has_resumption_token (current_hello c)) id peer now nonce = Done s →
  signed_hello (with_keys kp keys s <| ps_state := ConnectionState.Handshaking |>) token = Done hello →
  authenticate_hello c hello = Done (mkSessionKeys (sk_tx keys) (sk_rx keys)) ∧
  server_conn_id hello = ps_conn_id s.
Proof.
  intros c Hu [k [Hc _ _]]%reachable_inv Hr1 Hr2 Hkeys Hs Hsigned; [|done]. fold c in Hc.
  change (signed_hello (with_keys kp keys s) token = Done hello) in Hsigned.
  pose proof (new_session_hello _ _ _ _ _ _ _ kp keys Hs) as Hhello.
  apply generated_keypair in Hr1, Hr2. destruct (keypair_length _ _ _ Hr2) as [Hpk2 _].
  apply derive_server_keys in Hkeys; [|apply Hc].
  destruct (server_keys_length _ _ _ _ _ Hkeys) as [_ Htx].
  pose proof (kx_agree _ _ _ _ _ _ _ _ Hr1 Hr2 Hkeys) as Hagree.
  unfold signed_hello in Hsigned. cbv zeta in Hsigned. rewrite Hhello in Hsigned.
  destruct (build_transcript_mac_input _ _ _) as [transcript|rc|] eqn:Ht; cbn [outcome_bind] in Hsigned; [|done..].
  pose proof (keyed_hash_ok (sk_tx keys) transcript (Z.of_nat NetConfig.TranscriptMacBytes) Htx ltac:(lia)) as Hm.
  change (ps_keys (with_keys kp keys s)) with keys in Hsigned.
  destruct (crypto_keyed_hash _ _ _ _ _ _) as [mac|rc|] eqn:Hmac; cbn [outcome_bind] in Hsigned; [|done..].
  destruct Hm as [Hml Hmok]. injection Hsigned as <-. split; [|done].
  unfold authenticate_hello. cbn [server_public_key].
  change (kp_public (ps_ephemeral (with_keys kp keys s))) with (kp_public kp).
  change (Z.of_nat NetConfig.KeyExchangePublicKeyBytes) with 32.
  rewrite (derive_client_keys _ _ _ _ Hpk2 Hagree). cbn [outcome_bind sk_rx transcript_mac].
  change (build_transcript_mac_input (current_hello c) _ 320) with (build_transcript_mac_input (current_hello c)
    (mkServerHello (ps_conn_id (with_keys kp keys s)) (kp_public (ps_ephemeral (with_keys kp keys s)))
       (ps_server_nonce (with_keys kp keys s)) (zeros NetConfig.TranscriptMacBytes)
       (bool_decide (is_Some token)) (default default_resumption_token token)) 320).
  rewrite Ht. cbn [outcome_bind]. rewrite Hmac. cbn [outcome_bind].
  rewrite <- Hml at 1. rewrite constant_time_equal_mac by done. cbn [outcome_bind].
  by rewrite bool_decide_eq_true_2.
Qed.
End agreement.

(** ** Witnesses *)

Import Pair.

(** A packet that names the session of the example and is not encrypted. *)
Definition forged : PacketView :=
  mkPacketView (out_header PacketKind.Message false 9 50 3) (Some [1; 2; 3]).

Lemma server_unauthenticated_inert_witness :
  is_Some (s_sessions (sw_server server3) !! 9) ∧
  foreground (sw_events (srv_handle_packet client_addr forged server3).2) = foreground (sw_events server3).
Proof.
  split; [vm_compute; by eexists|].
  apply (server_unauthenticated_inert client_addr forged server3); [by vm_compute|].
  intros (s & m & _ & _ & He & _). vm_compute in He. discriminate.
Defined.

(** The hello with which the client of the example answers the retry. *)
Definition second_hello : ClientHello := current_hello (w_client client2).

Lemma session_requires_token_witness :
  ab_banned_until_ms (abuse_state_for client_addr (sw_server server1)) <= 1000 ∧
  token_valid (sw_server server1) client_addr second_hello 1000.
Proof.
  apply (session_requires_token client_addr second_hello server1 1000 (now_ms (sw_net server1)).2).
  - vm_compute. reflexivity.
  - vm_compute. discriminate.
Defined.

Lemma server1_reachable : server_reachable default_server server1.
Proof. do 2 apply SReachOp. apply SReachNet, listening_reachable. Qed.
Lemma client2_reachable : reachable default_client client2.
Proof. apply ReachOp, ReachNet, Example.connecting_reachable. Qed.

Lemma retry_token_correct_witness :
  make_retry_token (sw_server server1) client_addr second_hello 1000 = Done (ch_retry_token second_hello).
Proof.
  refine (proj2 (proj1 (retry_token_correct default_server server1 client_addr second_hello
    (ch_retry_token second_hello) 1500 server_default_usable server1_reachable _ _) _)).
  - split; apply (bool_decide_unpack _); vm_compute; exact I.
  - apply (bool_decide_unpack _); vm_compute; exact I.
  - vm_compute. reflexivity.
Defined.

(** The server's side of the example, computed. *)
Definition server_pair : KeyPair := mkKeyPair (toy_array 32 [3; 4; 5]) (toy_array 32 (reverse [3; 4; 5])).
Definition server_keys : SessionKeys :=
  Example.value (crypto_derive_server_session_keys server_pair (Some (client_public_key second_hello)) 32).
Definition server_side : PeerSession :=
  Example.value (new_session default_server client_addr second_hello false 9 1 1000 (zeros 16)).
Definition server_answer : ServerHello :=
  Example.value (signed_hello (with_keys server_pair server_keys server_side
                                 <| ps_state := ConnectionState.Handshaking |>) None).

Lemma handshake_agreement_witness :
  authenticate_hello (w_client client2) server_answer =
    Done (mkSessionKeys (sk_tx server_keys) (sk_rx server_keys)) ∧
  server_conn_id server_answer = 9.
Proof.
  apply (handshake_agreement default_server default_client client2
    (kp_public (c_ephemeral (w_client client2))) [3; 4; 5] server_pair server_keys client_addr 9 1 1000
    (zeros 16) server_side None server_answer Example.client_default_usable client2_reachable);
    vm_compute; reflexivity.
Defined.

(** ** A session closed by a stranger

    [handle_packet] closes the session that a bad packet names without looking at
    the sender: a plaintext handshake packet from any address ends it. *)
Definition stranger : Endpoint := EpV4 6666 3232235777.
Definition bad_handshake : PacketView :=
  mkPacketView (out_header PacketKind.Handshake false 9 1 3) (Some [255; 255; 255]).

Example stranger_closes_session :
  (ps_state <$> s_sessions (sw_server server3) !! 9) = Some ConnectionState.Established ∧
  (ps_state <$> s_sessions (sw_server (srv_handle_packet stranger bad_handshake server3).2) !! 9) =
    Some ConnectionState.Closing.
Proof. split; vm_compute; reflexivity. Qed.
