(* ===== verification/RateLimit.v ===== *)
(** * The server: the limit on handshakes per host

    Over any sequence of calls and any traffic between two [listen]s, how many
    client hellos of one host, whatever their ports, pass the rate limit in a
    second: [Server::endpoint_rate_limited] in [handle_client_hello], with every
    other operation of the server in between. *)
From stdpp Require Import sorting.
From S2P Require Import Prelude Result Hoare ByteBuf Config Message Packet Protocol Windows Payloads.
From S2P Require Import Reliability Ordered Fragmentation Congestion Crypto Stats Endpoint Socket.
From S2P Require Import Client ClientRecv ClientInv ClientSafe Server ServerSend ServerRecv ServerInv.
From S2P Require Import ServerSafe ServerSafeRecv ServerAdmit ServerLoop ClientProps ServerProps.
#[local] Open Scope Z_scope.

Create HintDb untouched.

(** ** Counting in windows *)

(** The limiter of one host: its window began at [s] and admitted [n] hellos, and
    [log] are the times of all it admitted, newest first. *)
Inductive paced (limit : Z) : U64 → Z → list U64 → Prop :=
  | PacedStart s : s = 0 ∨ limit <= 0 → paced limit s 0 []
  | PacedMore s n t log :
      paced limit s n log → s ≠ 0 → s <= t < s + 1000 → n < limit → paced limit s (n + 1) (t :: log)
  | PacedNew s n t log :
      paced limit s n log → s = 0 ∨ t < s ∨ s + 1000 <= t → 0 < limit → paced limit t 1 (t :: log).

Lemma paced_count limit s n log : paced limit s n log → 0 <= n ∧ (n = 0 → log = []).
Proof. induction 1 as [|s n t log _ [IH _]|]; split; try done; lia. Qed.

Lemma paced_window limit s n log : paced limit s n log → log = [] ∨ (s ∈ log ∧ n <= limit).
Proof.
  induction 1 as [|s n t log Hp IH H0 Ht Hn|]; [by left| |right; split; [left|lia]]. right.
  split; [|lia]. destruct IH as [->|[IH _]]; [|by right].
  inversion Hp as [s' Hs| |]; subst. lia.
Qed.

(** How many of [log] fall into the second that begins at [a]. *)
Definition within (a : U64) (log : list U64) : Z :=
  zlen (filter (λ t, a <= t < a + 1000) log).

Lemma within_cons a t log :
  within a (t :: log) = (if bool_decide (a <= t < a + 1000) then 1 else 0) + within a log.
Proof. unfold within. rewrite filter_cons. case_decide; case_bool_decide; done || (cbn [length]; lia). Qed.
Lemma within_before a log t : t < a → Forall (λ u, u <= t) log → within a log = 0.
Proof.
  intros Ht. induction 1 as [|u log Hu _ IH]; [done|]. rewrite within_cons, IH.
  case_bool_decide; lia.
Qed.

(** Two windows can meet in a second, three cannot. *)
Lemma paced_within limit s n log a :
  0 < a → 0 <= limit → paced limit s n log → StronglySorted Z.ge log →
  (s < a → within a log <= n) ∧ (s < a + 1000 → within a log <= limit + n) ∧
  within a log <= 2 * limit.
Proof.
  intros Ha Hlim Hp. induction Hp as [s|s n t log Hp IH H0 Ht Hn|s n t log Hp IH Hs H0]; intros Hsort.
  { change (within a []) with 0. lia. }
  all: apply StronglySorted_inv in Hsort as [Hsort Hle]; specialize (IH Hsort);
    rewrite within_cons; destruct IH as (IH1 & IH2 & IH3).
  - case_bool_decide; lia.
  - assert (Forall (λ u, u <= t) log) as Hle' by (eapply Forall_impl; [exact Hle|]; cbn; lia).
    destruct (paced_window _ _ _ _ Hp) as [->|[Hin Hn]]; [change (within a []) with 0; case_bool_decide; lia|].
    rewrite Forall_forall in Hle'. pose proof (Hle' s Hin). rewrite <- Forall_forall in Hle'.
    pose proof (within_before a log t). case_bool_decide; [lia|].
    destruct (decide (t < a)); [|lia]. rewrite H1 by done. lia.
Qed.

(** ** The table of hosts *)

(** What [inet_ntop] is documented to do: it reads the address alone, and prints
    every IPv4 and IPv6 address (its buffer is large enough). *)
Definition ep_address (e : Endpoint) : Endpoint :=
  match e with
  | EpV4 _ a => EpV4 0 a
  | EpV6 _ _ _ a => EpV6 0 0 0 a
  | EpOther _ _ => EpOther 0 []
  | EpNone => EpNone
  end.
Class NtopLaws `{Ntop} : Prop := {
  ntop_address e e' : ep_address e = ep_address e' → inet_ntop e = inet_ntop e';
  ntop_v4 port a : is_Some (inet_ntop (EpV4 port a));
  ntop_v6 port scope flow a : is_Some (inet_ntop (EpV6 port scope flow a));
}.

Lemma host_key_address `{NtopLaws} e e' :
  ep_address e = ep_address e' → endpoint_host_key e = endpoint_host_key e'.
Proof.
  intros He. pose proof (ntop_address e e' He) as Ht. unfold endpoint_host_key.
  destruct e as [|p a|p s f a|]; destruct e' as [|p' a'|p' s' f' a'|]; try done; rewrite <- Ht.
  - by destruct (ntop_v4 p a) as [t ->].
  - by destruct (ntop_v6 p s f a) as [t ->].
Qed.

(** ** Operations that leave the table alone *)

(** The client hellos that passed the limit, newest first. *)
Definition hellos (log : list ServerEvent) : list (Endpoint * U64) :=
  omap (λ e, match e with HelloAdmitted from t => Some (from, t) | _ => None end) log.

(** What the limit depends on and what it lets through. *)
Definition limit_view (w : ServerWorld) : gmap (list U8) IpAbuseState * ServerConfig * list (Endpoint * U64) :=
  (s_ip_abuse (sw_server w), s_config (sw_server w), hellos (sw_events w)).

Section untouched.
Context {HN : Ntop} {HS : Sodium} {HT : Traversal}.
Abbreviation Untouched := (Stable limit_view).

Lemma un_set_srv f :
  (∀ v, s_ip_abuse (f v) = s_ip_abuse v ∧ s_config (f v) = s_config v) → Untouched (set_srv f).
Proof. intros Hf w. unfold limit_view. cbn. by destruct (Hf (sw_server w)) as [-> ->]. Qed.
Lemma un_os {A} (m : io Net A) : Untouched (os m).
Proof. intros w. unfold os. by destruct (m (sw_net w)). Qed.
Lemma un_session id : Untouched (session id).
Proof. intros w. unfold session. by destruct (_ !! _). Qed.
Lemma un_set_session id f : Untouched (set_session id f).
Proof. apply stable_bind; [apply un_session|intros s; by apply un_set_srv]. Qed.

(** Walk through a body, by the head of the next step. *)
Ltac un_head :=
  lazymatch goal with
  | |- Stable _ (mbind _ _) => apply stable_bind; [|intros ?]
  | |- Stable _ (when _ _) => apply stable_when
  | |- Stable _ (attempt _) => apply stable_attempt
  | |- Stable _ (mret _) => apply stable_ret
  | |- Stable _ (lift _) => apply stable_lift
  | |- Stable _ (os _) => apply un_os
  | |- Stable _ (session _) => apply un_session
  | |- Stable _ (set_session _ _) => apply un_set_session
  | |- Stable _ (set_srv _) => apply un_set_srv; intros ?; sfields; split; reflexivity
  | |- Stable _ srv => intros ?; reflexivity
  | |- Stable _ (report _) => intros ?; reflexivity
  | |- Stable _ (fail _ _) => intros ?; reflexivity
  | |- Stable _ undefined => intros ?; reflexivity
  | |- Stable _ (match _ with _ => _ end) => case_match
  | |- Stable _ _ => first [assumption | solve [auto 2 with untouched nocore]]
  end.
Ltac un := cbv zeta; repeat (un_head; cbv zeta).

Lemma un_tally_n f n : Untouched (tally_n f n).
Proof. by apply un_set_srv. Qed.
#[local] Hint Resolve un_tally_n : untouched.
Lemma un_tally f : Untouched (tally f).
Proof. apply un_tally_n. Qed.
#[local] Hint Resolve un_tally : untouched.
Lemma un_refresh : Untouched srv_refresh.
Proof. by apply un_set_srv. Qed.
#[local] Hint Resolve un_refresh : untouched.
Lemma un_log l t : Untouched (srv_log l t).
Proof. unfold srv_log. un. Qed.
#[local] Hint Resolve un_log : untouched.
Lemma un_debug d e v : Untouched (srv_packet_debug d e v).
Proof. unfold srv_packet_debug. un. Qed.
#[local] Hint Resolve un_debug : untouched.
Lemma un_on_packet e v : Untouched (srv_on_packet e v).
Proof. unfold srv_on_packet. un. Qed.
#[local] Hint Resolve un_on_packet : untouched.
Lemma un_backpressure p ch t rc : Untouched (srv_backpressure p ch t rc).
Proof. unfold srv_backpressure. un. Qed.
#[local] Hint Resolve un_backpressure : untouched.
Lemma un_announce p a b r : Untouched (announce p a b r).
Proof. unfold announce. un. Qed.
#[local] Hint Resolve un_announce : untouched.
Lemma un_amplify e n now : Untouched (can_amplify_to e n now).
Proof. unfold can_amplify_to, set_preauth. un. Qed.
#[local] Hint Resolve un_amplify : untouched.
Lemma un_preauth_receive e n now : Untouched (note_preauth_receive e n now).
Proof. unfold note_preauth_receive, set_preauth. un. Qed.
#[local] Hint Resolve un_preauth_receive : untouched.
Lemma un_preauth_send e n now : Untouched (note_preauth_send e n now).
Proof. unfold note_preauth_send, set_preauth. un. Qed.
#[local] Hint Resolve un_preauth_send : untouched.
Lemma un_transition id next : Untouched (transition_session id next).
Proof. unfold transition_session. un. Qed.
#[local] Hint Resolve un_transition : untouched.
Lemma un_enqueue p : Untouched (srv_enqueue p).
Proof. unfold srv_enqueue. un. Qed.
#[local] Hint Resolve un_enqueue : untouched.
Lemma un_stateless : Untouched next_stateless.
Proof. unfold next_stateless. un. Qed.
#[local] Hint Resolve un_stateless : untouched.
Lemma un_seq id : Untouched (next_seq id).
Proof. unfold next_seq. un. Qed.
#[local] Hint Resolve un_seq : untouched.
Lemma un_queue to kd enc p n id s keys prio owner :
  Untouched (srv_queue_packet to kd enc p n id s keys prio owner).
Proof. unfold srv_queue_packet. un. Qed.
#[local] Hint Resolve un_queue : untouched.
Lemma un_handshake to p n id : Untouched (queue_plain_handshake to p n id).
Proof. unfold queue_plain_handshake. un. Qed.
#[local] Hint Resolve un_handshake : untouched.
Lemma un_retry to t : Untouched (queue_retry to t).
Proof. unfold queue_retry. un. Qed.
#[local] Hint Resolve un_retry : untouched.
Lemma un_resumption_token e now : Untouched (make_resumption_token e now).
Proof. unfold make_resumption_token. un. Qed.
#[local] Hint Resolve un_resumption_token : untouched.
Lemma un_server_hello id : Untouched (queue_server_hello id).
Proof. unfold queue_server_hello. un. Qed.
#[local] Hint Resolve un_server_hello : untouched.
Lemma un_sealed id kd p n prio : Untouched (queue_sealed id kd p n prio).
Proof. unfold queue_sealed. un. Qed.
#[local] Hint Resolve un_sealed : untouched.
Lemma un_internal id ch t p n prio : Untouched (srv_internal_message id ch t p n prio).
Proof. unfold srv_internal_message. un. Qed.
#[local] Hint Resolve un_internal : untouched.
Lemma un_message id ch t p n prio : Untouched (srv_message_packet id ch t p n prio).
Proof. unfold srv_message_packet. un. Qed.
#[local] Hint Resolve un_message : untouched.
Lemma un_raw id p n prio : Untouched (srv_raw_payload id p n prio).
Proof. unfold srv_raw_payload. un. Qed.
#[local] Hint Resolve un_raw : untouched.
Lemma un_ack id ch m : Untouched (srv_control_ack id ch m).
Proof. unfold srv_control_ack. un. Qed.
#[local] Hint Resolve un_ack : untouched.
Lemma un_keepalive id : Untouched (srv_keepalive id).
Proof. unfold srv_keepalive. un. Qed.
#[local] Hint Resolve un_keepalive : untouched.
Lemma un_close_packet to id r enc keys s prio owner :
  Untouched (srv_close_packet to id r enc keys s prio owner).
Proof. unfold srv_close_packet. un. Qed.
#[local] Hint Resolve un_close_packet : untouched.
Lemma un_refuse to id r : Untouched (refuse to id r).
Proof. unfold refuse. un. Qed.
#[local] Hint Resolve un_refuse : untouched.
Lemma un_on_reliable {A} id ch (m : io ReliableSession A) : Untouched (on_reliable id ch m).
Proof. unfold on_reliable. un. Qed.
#[local] Hint Resolve un_on_reliable : untouched.

(** *** Sending *)

Lemma un_reliable id ch t p n prio life : Untouched (srv_reliable_message id ch t p n prio life).
Proof.
  unfold srv_reliable_message. case_match; [done|]. apply stable_bind; [un|intros now].
  apply stable_bind; [|intros q; un]. intros w.
  pose proof (un_on_reliable id ch (enqueue t p n prio life now) w) as Hr.
  by destruct (on_reliable _ _ _ w) as [[q|rc|] w'].
Qed.
#[local] Hint Resolve un_reliable : untouched.
Lemma un_fragments left : ∀ id o m s t p i, Untouched (srv_send_fragments left id o m s t p i).
Proof. induction left as [|left IH]; intros; cbn [srv_send_fragments]; un. Qed.
#[local] Hint Resolve un_fragments : untouched.
Lemma un_fragmented id o t p : Untouched (srv_send_fragmented id o t p).
Proof. unfold srv_send_fragmented. un. Qed.
#[local] Hint Resolve un_fragmented : untouched.
Lemma un_send_payload peer p n : Untouched (srv_send_payload peer p n).
Proof. unfold srv_send_payload. un. Qed.
#[local] Hint Resolve un_send_payload : untouched.
Lemma un_finish peer o t m : Untouched m → Untouched (srv_finish peer o t m).
Proof. intros Hm. unfold srv_finish. un. Qed.
#[local] Hint Resolve un_finish : untouched.
Lemma un_send peer o t p : Untouched (srv_send peer o t p).
Proof. unfold srv_send. un. Qed.
#[local] Hint Resolve un_send : untouched.
Lemma un_broadcast_loop ids : ∀ ex o t p rc, Untouched (broadcast_loop ids ex o t p rc).
Proof. induction ids as [|id ids IH]; intros; cbn [broadcast_loop]; un. Qed.
#[local] Hint Resolve un_broadcast_loop : untouched.
Lemma un_broadcast ex o t p : Untouched (broadcast ex o t p).
Proof. unfold broadcast. un. Qed.
#[local] Hint Resolve un_broadcast : untouched.
Lemma un_user_data peer d : Untouched (set_peer_user_data peer d).
Proof. unfold set_peer_user_data. un. Qed.
#[local] Hint Resolve un_user_data : untouched.

(** *** Flushing and retransmission *)

Lemma un_refill id now : Untouched (srv_refill id now).
Proof. unfold srv_refill. un. Qed.
#[local] Hint Resolve un_refill : untouched.
Lemma un_congestion id f : Untouched (srv_congestion id f).
Proof. unfold srv_congestion. un. Qed.
#[local] Hint Resolve un_congestion : untouched.
Lemma un_adapt id f : Untouched (srv_adapt id f).
Proof. unfold srv_adapt. un. Qed.
#[local] Hint Resolve un_adapt : untouched.
Lemma un_erase pre it rest : Untouched (erase_packet pre it rest).
Proof. unfold erase_packet. un. Qed.
#[local] Hint Resolve un_erase : untouched.
Lemma un_transmit pre it rest now b : Untouched (transmit pre it rest now b).
Proof. unfold transmit. un. Qed.
#[local] Hint Resolve un_transmit : untouched.
Lemma un_scan q : ∀ pre now b, Untouched (scan_queue pre q now b).
Proof. induction q as [|it q IH]; intros; cbn [scan_queue]; un. Qed.
#[local] Hint Resolve un_scan : untouched.
Lemma un_flush_loop fuel : Untouched (srv_flush_loop fuel).
Proof. induction fuel as [|fuel IH]; cbn [srv_flush_loop]; un. Qed.
#[local] Hint Resolve un_flush_loop : untouched.
Lemma un_flush : Untouched srv_flush_pending.
Proof. unfold srv_flush_pending. un. Qed.
#[local] Hint Resolve un_flush : untouched.
Lemma un_resend id ch now : Untouched (srv_resend_due id ch now).
Proof.
  unfold srv_resend_due. apply stable_bind; [un|intros s]. cbv zeta. apply stable_bind; [|intros []; un].
  intros w. set (r := if decide (ch = Channel.ReliableOrdered) then ps_ordered_reliable s else ps_reliable s).
  pose proof (resend_loop_state (rs_cfg r) now (srv_resend_packet id ch)
    (λ x, limit_view x.2 = limit_view w) (rs_pending r) (rs_inflight_count r) (rs_loss r) (false, w)) as Hx.
  unfold resend_due. destruct (resend_loop _ _ _ _ _ _ _) as [[[[q n] l] [ub w1]] rc]. apply Hx; [|done].
  intros m m' [b w2] _ _ Hw2. unfold srv_resend_packet. cbn [snd] in *.
  match goal with |- context [srv_message_packet ?a ?b ?c ?d ?e ?f w2] =>
    pose proof (un_message a b c d e f w2) as Hm; destruct (srv_message_packet a b c d e f w2) as [[u|rc'|] w3] end;
    cbn [snd] in *; congruence.
Qed.
#[local] Hint Resolve un_resend : untouched.
Lemma un_tolerate rc : Untouched (srv_tolerate rc).
Proof. unfold srv_tolerate. un. Qed.
#[local] Hint Resolve un_tolerate : untouched.
Lemma un_pump_session id now : Untouched (pump_session id now).
Proof. unfold pump_session. un. Qed.
#[local] Hint Resolve un_pump_session : untouched.
Lemma un_pump_sessions ids now : Untouched (pump_sessions ids now).
Proof. induction ids as [|id ids IH]; cbn [pump_sessions]; un. Qed.
#[local] Hint Resolve un_pump_sessions : untouched.
Lemma un_pump_reliable : Untouched srv_pump_reliable.
Proof. unfold srv_pump_reliable. un. Qed.
#[local] Hint Resolve un_pump_reliable : untouched.

(** *** Receiving on a session *)

Lemma hellos_message cb p m log : hellos (srv_emit_message cb p m log) = hellos log.
Proof.
  unfold srv_emit_message, srv_message_events, hellos. rewrite !omap_app.
  by destruct (scb_on_message cb), (bool_decide (m_type m ∈ scb_binary cb)), (bool_decide (m_type m ∈ scb_text cb)).
Qed.
Lemma hellos_deliver cb ch t p n sq d :
  hellos (dv_events (srv_deliver_message cb ch t p n sq d).2) = hellos (dv_events d).
Proof.
  unfold srv_deliver_message. cbv zeta. case_decide.
  - match goal with |- context [accept_ordered ?dl ?s ?t ?p ?n ?ow ?x] =>
      pose proof (accept_ordered_state (λ y : list ServerEvent * U64, hellos y.1 = hellos (dv_events d))
        dl s t p n ow x) as Ha; set (a := accept_ordered dl s t p n ow x) in * end.
    destruct (oa_state a) as [events cnt]. cbn [fst] in Ha.
    assert (hellos events = hellos (dv_events d)) as He.
    { apply Ha; [|done]. intros t' p' n' y Hy. cbn. by rewrite hellos_message. }
    destruct (negb _); [case_decide|destruct (oa_buffered a), (oa_stale a)]; exact He.
  - case_decide.
    + destruct (Sequenced.accept _ _) as [fresh sw]. destruct (negb fresh); [done|]. apply hellos_message.
    + apply hellos_message.
Qed.

Lemma un_on_delivery {A} id (f : ServerCallbacks → Delivery → A * Delivery) :
  (∀ cb d, hellos (dv_events (f cb d).2) = hellos (dv_events d)) → Untouched (on_delivery id f).
Proof.
  intros Hf. unfold on_delivery. apply stable_bind; [un|intros s]. apply stable_bind; [done|intros v].
  apply stable_bind; [|intros []; un]. intros w. specialize (Hf (s_callbacks v) (mkDelivery s (s_stats v) (sw_events w))).
  destruct (f _ _) as [a d]. unfold limit_view. cbn [snd sw_server sw_events dv_events] in *. by rewrite Hf.
Qed.
Lemma un_reassemble id now f : Untouched (srv_reassemble id now f).
Proof.
  unfold srv_reassemble. apply stable_bind; [|intros ?; un]. apply un_on_delivery. intros cb d. cbn [snd dv_events].
  apply (accept_fragment_state (λ x, hellos (dv_events x) = hellos (dv_events d))); [|done].
  intros m x Hx. unfold srv_deliver_reassembled. rewrite hellos_deliver. exact Hx.
Qed.
#[local] Hint Resolve un_reassemble : untouched.
Lemma un_fragment id f : Untouched (srv_handle_fragment id f).
Proof. unfold srv_handle_fragment. un. Qed.
#[local] Hint Resolve un_fragment : untouched.
Lemma un_close id r b : Untouched (close_session id r b).
Proof. unfold close_session. un. Qed.
#[local] Hint Resolve un_close : untouched.
Lemma un_evict id : Untouched (evict_session id).
Proof. unfold evict_session. un. Qed.
#[local] Hint Resolve un_evict : untouched.
Lemma un_evict_all ids : Untouched (evict_all ids).
Proof. induction ids as [|id ids IH]; cbn [evict_all]; un. Qed.
#[local] Hint Resolve un_evict_all : untouched.
Lemma un_evict_stale : Untouched evict_stale_sessions.
Proof. unfold evict_stale_sessions. un. Qed.
#[local] Hint Resolve un_evict_stale : untouched.
Lemma un_allocate : Untouched allocate_conn_id.
Proof. unfold allocate_conn_id. un. Qed.
#[local] Hint Resolve un_allocate : untouched.
Lemma un_tally_close f id r : Untouched (tally_and_close f id r).
Proof. unfold tally_and_close. un. Qed.
#[local] Hint Resolve un_tally_close : untouched.
Lemma un_deliver_or_close id ch t p n sq : Untouched (srv_deliver_or_close id ch t p n sq).
Proof.
  unfold srv_deliver_or_close. apply stable_bind; [|intros ?; un]. apply un_on_delivery.
  intros cb d. apply hellos_deliver.
Qed.
#[local] Hint Resolve un_deliver_or_close : untouched.
Lemma un_fragment_or_close id f : Untouched (srv_fragment_or_close id f).
Proof. unfold srv_fragment_or_close. un. Qed.
#[local] Hint Resolve un_fragment_or_close : untouched.
Lemma un_control id m : Untouched (srv_dispatch_control id m).
Proof. unfold srv_dispatch_control. un. Qed.
#[local] Hint Resolve un_control : untouched.
Lemma un_deliver_reliable id m r : Untouched (srv_deliver_reliable id m r).
Proof. unfold srv_deliver_reliable. un. Qed.
#[local] Hint Resolve un_deliver_reliable : untouched.
Lemma un_frame id m : Untouched (srv_dispatch_frame id m).
Proof. unfold srv_dispatch_frame. un. Qed.
#[local] Hint Resolve un_frame : untouched.
Lemma un_dispatch_loop fuel : ∀ id r, Untouched (srv_dispatch_loop fuel id r).
Proof. induction fuel as [|fuel IH]; intros; cbn [srv_dispatch_loop]; un. Qed.
#[local] Hint Resolve un_dispatch_loop : untouched.
Lemma un_dispatch_kind id k v : Untouched (srv_dispatch_kind id k v).
Proof. unfold srv_dispatch_kind, srv_dispatch_payload. un. Qed.
#[local] Hint Resolve un_dispatch_kind : untouched.
Lemma un_session_packet id p : Untouched (handle_session_packet id p).
Proof. unfold handle_session_packet. un. Qed.
#[local] Hint Resolve un_session_packet : untouched.
Lemma un_close_known id r : Untouched (close_if_known id r).
Proof. unfold close_if_known. un. Qed.
#[local] Hint Resolve un_close_known : untouched.

(** *** Admitting a session, and housekeeping of one *)

Lemma un_create from h r now : Untouched (create_session from h r now).
Proof. unfold create_session. un. Qed.
#[local] Hint Resolve un_create : untouched.
Lemma un_admit from h r now : Untouched (admit_session from h r now).
Proof. unfold admit_session. un. Qed.
#[local] Hint Resolve un_admit : untouched.
Lemma un_check_retry from h now : Untouched (check_retry from h now).
Proof. unfold check_retry. un. Qed.
#[local] Hint Resolve un_check_retry : untouched.
Lemma un_note_receive from h n : Untouched (note_receive from h n).
Proof. unfold note_receive. un. Qed.
#[local] Hint Resolve un_note_receive : untouched.
Lemma un_expire id now : Untouched (srv_expire_reassemblies id now).
Proof.
  unfold srv_expire_reassemblies. apply un_on_delivery. intros cb d. cbv zeta.
  by destruct (expire_entries _ _ _ _ _) as [r st].
Qed.
#[local] Hint Resolve un_expire : untouched.
Lemma un_housekeep id now : Untouched (housekeep_session id now).
Proof. unfold housekeep_session. un. Qed.
#[local] Hint Resolve un_housekeep : untouched.
Lemma un_housekeep_all ids now : Untouched (housekeep_sessions ids now).
Proof. induction ids as [|id ids IH]; cbn [housekeep_sessions]; un. Qed.
#[local] Hint Resolve un_housekeep_all : untouched.
Lemma un_close_peer peer r : Untouched (close_peer peer r).
Proof. unfold close_peer. un. Qed.
#[local] Hint Resolve un_close_peer : untouched.
(** ** Every operation keeps the pace *)

Section pacing.
Context (key : list U8) (limit : U32) (Hlimit : is_u32 limit) (old : list (Endpoint * U64)).

Definition hello_limit (w : ServerWorld) : U32 :=
  per_ip_handshake_rate_limit_per_second (server_abuse (s_config (sw_server w))).

(** The times of the hellos under [key]. *)
Definition times (new : list (Endpoint * U64)) : list U64 :=
  (filter (λ h, endpoint_host_key h.1 = key) new).*2.

Definition entry (w : ServerWorld) : IpAbuseState :=
  default default_ip_abuse (s_ip_abuse (sw_server w) !! key).
Definition pacing (w : ServerWorld) : Prop :=
  hello_limit w = limit ∧
  ∃ new, hellos (sw_events w) = new ++ old ∧
    paced limit (ab_window_started_ms (entry w)) (ab_handshakes_in_window (entry w)) (times new).

Definition Keeps {A} (m : io ServerWorld A) : Prop := ∀ w, pacing w → pacing (m w).2.

Lemma keeps_stable {A} (m : io ServerWorld A) : Stable limit_view m → Keeps m.
Proof.
  intros Hm w Hw. specialize (Hm w). unfold limit_view in Hm. injection Hm as H1 H2 H3.
  unfold pacing, hello_limit, entry in *. by rewrite H1, H2, H3.
Qed.
Lemma pacing_bind {A B} (m : io ServerWorld A) (f : A → io ServerWorld B) :
  Keeps m → (∀ a, Keeps (f a)) → Keeps (m ≫= f).
Proof.
  intros Hm Hf w Hw. specialize (Hm w Hw). unfold mbind, io_bind.
  destruct (m w) as [[a|rc|] w']; [by apply Hf|done..].
Qed.
Lemma pacing_attempt (m : io ServerWorld unit) : Keeps m → Keeps (attempt m).
Proof. intros Hm w Hw. specialize (Hm w Hw). unfold attempt. by destruct (m w) as [[]]. Qed.

(** Writing an entry. *)
Lemma pacing_put e a new w :
  hello_limit w = limit → hellos (sw_events w) = new ++ old →
  (let b := if decide (endpoint_host_key e = key) then a else entry w in
   paced limit (ab_window_started_ms b) (ab_handshakes_in_window b) (times new)) →
  pacing (set_abuse e a w).2.
Proof.
  intros Hlim Hnew Hp. split; [exact Hlim|]. exists new. split; [exact Hnew|].
  unfold entry, set_abuse, set_srv in *. cbn [snd sw_server]. sfields. cbv zeta in Hp. case_decide as Hk.
  - rewrite Hk, lookup_insert_eq. exact Hp.
  - by rewrite lookup_insert_ne.
Qed.
Lemma keeps_write e a w :
  pacing w → ab_window_started_ms a = ab_window_started_ms (abuse_state_for e (sw_server w)) →
  ab_handshakes_in_window a = ab_handshakes_in_window (abuse_state_for e (sw_server w)) →
  pacing (set_abuse e a w).2.
Proof.
  intros (Hlim & new & Hnew & Hp) H1 H2. apply (pacing_put e a new); [done..|]. cbv zeta. case_decide as Hk; [|done].
  rewrite H1, H2. unfold abuse_state_for. by rewrite Hk.
Qed.
Lemma keeps_banned e now : Keeps (endpoint_is_banned e now).
Proof. intros w Hw. by apply (keeps_write e (abuse_state_for e (sw_server w))). Qed.
Lemma keeps_invalid e now : Keeps (note_invalid_packet e now).
Proof.
  intros w Hw. unfold note_invalid_packet. unfold mbind at 1, io_bind at 1, srv at 1. cbv zeta.
  case_match; [by apply keeps_write|].
  assert (∀ a, ab_window_started_ms a = ab_window_started_ms (abuse_state_for e (sw_server w)) →
    ab_handshakes_in_window a = ab_handshakes_in_window (abuse_state_for e (sw_server w)) →
    pacing (set_abuse e a (tally Stat.invalid_packet_penalties w).2).2) as Hset.
  { intros a H1 H2. apply keeps_write; [by apply (keeps_stable _ (un_tally _))|done..]. }
  destruct (invalid_packet_ban_threshold _ <=? _); [|by apply Hset].
  apply (keeps_stable _ (un_tally Stat.rate_limited_packets)). by apply Hset.
Qed.

(** The limiter, with the hello it lets through on record. *)
Lemma rate_limited_pacing e t w :
  pacing w →
  match endpoint_rate_limited e t w with
  | (Done false, w') => pacing (report (HelloAdmitted e t) w').2
  | (_, w') => pacing w'
  end.
Proof.
  intros Hw. pose proof Hw as (Hlim & new & Hnew & Hp).
  unfold endpoint_rate_limited. unfold mbind at 1, io_bind at 1, srv at 1. cbv zeta.
  change (per_ip_handshake_rate_limit_per_second _) with (hello_limit w). rewrite Hlim.
  set (a := abuse_state_for e (sw_server w)).
  assert (endpoint_host_key e = key → a = entry w) as Ha
    by (intros Hk; unfold a, abuse_state_for, entry; by rewrite Hk).
  set (restart := _ || _ || _).
  set (started := if restart then t else ab_window_started_ms a).
  set (n := if restart then 0 else ab_handshakes_in_window a).
  destruct (Z.leb_spec limit n) as [Hfull|Hroom].
  - change (pacing (tally Stat.dropped_packets (tally Stat.rate_limited_packets (set_abuse e
      (mkIpAbuse started n (ab_invalid_penalty_score a) (ab_banned_until_ms a)) w).2).2).2).
    do 2 apply (keeps_stable _ (un_tally _)). apply (pacing_put e _ new); [done..|]. cbv zeta.
    case_decide as Hk; [|exact Hp]. specialize (Ha Hk). rewrite <- Ha in Hp. cbn [ab_window_started_ms
      ab_handshakes_in_window]. unfold started, n in *. destruct restart; [|exact Hp].
    destruct (paced_window _ _ _ _ Hp) as [->|[_ Hn]]; [by constructor; right|].
    destruct (paced_count _ _ _ _ Hp) as [Hn0 Hlog]. rewrite Hlog by lia. by constructor; right.
  - change (pacing (set_abuse e (mkIpAbuse started (w32 (n + 1)) (ab_invalid_penalty_score a)
      (ab_banned_until_ms a)) (report (HelloAdmitted e t) w).2).2).
    apply (pacing_put e _ ((e, t) :: new)); [done|by cbn; rewrite <- Hnew|]. cbv zeta.
    unfold times. case_decide as Hk; [rewrite filter_cons_True by done|by rewrite filter_cons_False].
    specialize (Ha Hk). rewrite <- Ha in Hp. cbn [fmap list_fmap snd ab_window_started_ms ab_handshakes_in_window].
    fold (times new). destruct (paced_count _ _ _ _ Hp) as [Hn0 _]. unfold started, n, restart in *.
    destruct (_ || _ || _) eqn:Hr.
    + eapply PacedNew; [exact Hp| |lia].
      apply orb_true_iff in Hr as [[Hr|Hr]%orb_true_iff|Hr]; lia.
    + rewrite w32_id by ulia. apply orb_false_iff in Hr as [[Hr1 Hr2]%orb_false_iff Hr3].
      apply PacedMore; [exact Hp|lia..].
Qed.

(** *** Every operation but [listen] and [stop] *)

Ltac keeps_un := apply keeps_stable; solve [un].

Lemma keeps_hello from hello : Keeps (handle_client_hello from hello).
Proof.
  unfold handle_client_hello. apply pacing_bind; [keeps_un|intros now]. case_match; [keeps_un|].
  apply pacing_bind; [apply keeps_banned|intros banned]. case_match; [keeps_un|]. intros w Hw.
  pose proof (rate_limited_pacing from now w Hw) as Hr. unfold mbind at 1, io_bind at 1.
  destruct (endpoint_rate_limited from now w) as [[[|]|rc|] w']; [exact Hr| |exact Hr..].
  match goal with |- pacing ((_ ≫= ?f) w').2 => change (pacing (f tt (report (HelloAdmitted from now) w').2).2) end.
  cbv beta. revert Hr. generalize (report (HelloAdmitted from now) w').2. fold (Keeps (A:=unit)). keeps_un.
Qed.

Lemma keeps_error from id now rc : Keeps (srv_handle_error from id now rc).
Proof.
  unfold srv_handle_error.
  case_match; try keeps_un; repeat (apply pacing_bind; [apply keeps_invalid || keeps_un|intros ?]); keeps_un.
Qed.

Lemma keeps_packet from p : Keeps (srv_handle_packet from p).
Proof.
  unfold srv_handle_packet. cbv zeta. apply pacing_bind; [keeps_un|intros now].
  apply pacing_bind; [apply keeps_banned|intros banned]. case_match; [keeps_un|].
  apply pacing_bind; [apply pacing_attempt|intros rc; case_match; [keeps_un|apply keeps_error]].
  case_match; [|keeps_un]. apply pacing_bind; [keeps_un|intros _]. apply pacing_bind; [keeps_un|intros _].
  unfold srv_handle_handshake. cbv zeta. do 2 (case_match; [keeps_un|]).
  apply pacing_bind; [keeps_un|intros hello]. case_match; [keeps_un|apply keeps_hello].
Qed.

Lemma keeps_receive fuel : Keeps (srv_receive_loop fuel).
Proof.
  induction fuel as [|fuel IH]; cbn [srv_receive_loop]; [keeps_un|]. intros w Hw.
  pose proof (keeps_stable _ (un_os (UdpSocket.recv_from NetConfig.MaxPacketBytes)) w Hw) as Hw1.
  destruct (os _ w) as [[[from bytes]|rc|] w1]; [| |done]; cbn [snd] in Hw1; revert w1 Hw1; fold (Keeps (A:=unit)).
  - do 2 (apply pacing_bind; [keeps_un|intros _]). case_match; [| |keeps_un].
    + apply pacing_bind; [keeps_un|intros _]. apply pacing_bind; [apply keeps_packet|intros _; exact IH].
    + apply pacing_bind; [keeps_un|intros now]. apply pacing_bind; [keeps_un|intros _].
      apply pacing_bind; [|intros _; exact IH]. case_match; [keeps_un|].
      do 2 (apply pacing_bind; [keeps_un|intros ?]). apply keeps_invalid.
  - case_match; [keeps_un|]. case_match; [|keeps_un]. apply pacing_bind; [keeps_un|intros _; exact IH].
Qed.

(** Only entries that admitted nothing are cleaned up. *)
Lemma keeps_cleanup now f :
  (∀ v, s_config (f v) = s_config v ∧
        s_ip_abuse (f v) = filter (λ '(_, a), keep_abuse now a = true) (s_ip_abuse v)) →
  Keeps (set_srv f).
Proof.
  intros Hf w (Hlim & new & Hnew & Hp). destruct (Hf (sw_server w)) as [Hcfg Htab].
  split; [unfold hello_limit in *; cbn; by rewrite Hcfg|]. exists new. split; [exact Hnew|].
  unfold entry in *. cbn [set_srv snd sw_server]. rewrite Htab.
  destruct (s_ip_abuse (sw_server w) !! key) as [a|] eqn:Ha; cbn [default] in Hp.
  - destruct (keep_abuse now a) eqn:Hk.
    + by rewrite (map_lookup_filter_Some_2 _ _ _ a).
    + rewrite (map_lookup_filter_None_2 _ (s_ip_abuse (sw_server w)) key); [|right; intros a' Ha'; congruence].
      cbn in Hp |- *. destruct (paced_count _ _ _ _ Hp) as [_ Hlog]. rewrite Hlog; [constructor; by left|].
      unfold keep_abuse in Hk. lia.
  - rewrite (map_lookup_filter_None_2 _ (s_ip_abuse (sw_server w)) key) by (by left). exact Hp.
Qed.

Lemma keeps_tick : Keeps srv_tick.
Proof.
  unfold srv_tick, srv_pump_receive, srv_run_housekeeping.
  apply pacing_bind; [keeps_un|intros _]. apply pacing_bind; [keeps_un|intros _].
  apply pacing_bind; [intros w; apply keeps_receive|intros _].
  do 3 (apply pacing_bind; [keeps_un|intros ?]).
  apply pacing_bind; [|intros _; keeps_un]. apply keeps_cleanup with a. intros v. by sfields.
Qed.

Definition keeps_table (op : server_op) : bool :=
  match op with SrvListen _ _ | SrvStop => false | _ => true end.

Lemma run_server_keeps op : keeps_table op = true → Keeps (run_server op).
Proof. destruct op; intros Hop; try done; cbn [run_server]; [apply keeps_tick|keeps_un..]. Qed.
End pacing.
End untouched.

(** ** The bound *)

Section bound.
Context {HN : Ntop} {HNL : NtopLaws} {HS : Sodium} {HT : Traversal}.

(** What the server does between [listen] and [stop]: any calls, between which
    time passes and the network does anything. *)
Inductive serving (w : ServerWorld) : ServerWorld → Prop :=
  | ServeStart : serving w w
  | ServeNet w' net : serving w w' → serving w (mkServerWorld (sw_server w') net (sw_events w'))
  | ServeOp w' op : serving w w' → keeps_table op = true → serving w (run_server op w').2.

Lemma serving_pacing key w w' :
  s_ip_abuse (sw_server w) = ∅ → is_u32 (hello_limit w) → serving w w' →
  pacing key (hello_limit w) (hellos (sw_events w)) w'.
Proof.
  intros Hempty Hlim. induction 1 as [|w' net _ IH|w' op _ IH Hop].
  - split; [done|]. exists []. split; [done|]. unfold entry. rewrite Hempty, lookup_empty. constructor. by left.
  - exact IH.
  - by apply run_server_keeps.
Qed.

(** C15: between two [listen]s, over any sequence of calls and any traffic, and
    for any host (an address, whatever the ports its packets come from): of its
    client hellos, at most twice the configured rate pass the limit in any
    second.  (The limiter counts in fixed windows, two of which can meet in a
    second.)  The clock is [steady_clock]: the hellos are processed at times that
    do not go back, and the second does not begin at its epoch; the table of
    hosts is empty, as [listen] leaves it; and [inet_ntop] prints every address,
    reading nothing else. *)
Theorem handshake_rate_bounded e a w w' :
  s_ip_abuse (sw_server w) = ∅ → is_u32 (hello_limit w) → 0 < a → serving w w' →
  ∃ new, hellos (sw_events w') = new ++ hellos (sw_events w) ∧
    (StronglySorted Z.ge new.*2 →
     zlen (filter (λ h, ep_address h.1 = ep_address e ∧ a <= h.2 < a + 1000) new)
       <= 2 * hello_limit w).
Proof.
  intros Hempty Hlim Ha Hs.
  destruct (serving_pacing (endpoint_host_key e) w w' Hempty Hlim Hs) as (_ & new & Hnew & Hp).
  exists new. split; [exact Hnew|]. intros Hsort.
  assert (StronglySorted Z.ge (times (endpoint_host_key e) new)) as Hsort'.
  { eapply StronglySorted_sublist; [|exact Hsort]. apply fmap_sublist, sublist_filter. }
  destruct (paced_within _ _ _ _ a Ha (proj1 Hlim) Hp Hsort') as (_ & _ & Hb).
  etrans; [|exact Hb]. unfold within, times. clear -HNL. induction new as [|[from t] new IH]; [done|].
  rewrite !filter_cons. cbn [fst snd]. case_decide as Hh.
  - destruct Hh as [He Ht]. rewrite decide_True by (by apply host_key_address).
    rewrite fmap_cons, filter_cons_True by done. cbn [length]. lia.
  - case_decide; [|exact IH]. rewrite fmap_cons, filter_cons. case_decide; cbn [length]; lia.
Qed.
End bound.

(** ** A witness *)

Import Pair.

#[export] Instance toy_ntop_laws : NtopLaws.
Proof. split; [|by eexists..]. intros [] [] He; by inversion He. Qed.

(** Eighty copies of a client hello, each from another port of one host. *)
Definition flooded : ServerWorld :=
  let n := sw_net listening in
  let datagram := default [] (head (sent (w_net client1))) in
  mkServerWorld (sw_server listening)
    (mkNet (n_now n) (n_clock n) (n_open n) (n_calls n) (n_sends n)
       ((λ port, OsDatagram (EpV4 port 2130706433) datagram) <$> seqZ 6000 80) (n_random n) [])
    (sw_events listening).
Definition after_flood : ServerWorld := (run_server SrvTick flooded).2.

Lemma handshake_rate_bounded_witness :
  hello_limit listening = 64 ∧ length (hellos (sw_events after_flood)) = 64%nat ∧
  zlen (filter (λ h, ep_address h.1 = ep_address client_addr ∧ 1000 <= h.2 < 2000)
          (hellos (sw_events after_flood))) <= 128.
Proof.
  split; [vm_compute; reflexivity|]. split; [vm_compute; reflexivity|].
  destruct (handshake_rate_bounded client_addr 1000 listening after_flood) as (new & Hnew & Hb).
  - vm_compute. reflexivity.
  - apply (bool_decide_unpack _). vm_compute. exact I.
  - lia.
  - apply ServeOp; [|reflexivity]. apply (ServeNet listening listening). apply ServeStart.
  - assert (hellos (sw_events listening) = []) as H0 by (vm_compute; reflexivity).
    rewrite H0, app_nil_r in Hnew. rewrite Hnew. apply Hb. rewrite <- Hnew.
    apply (bool_decide_unpack _). vm_compute. exact I.
Defined.
