(* ===== verification/Codec.v ===== *)
(** * Typed encoding of application messages

    [src/securecnet/include/securecnet/codec.hpp]: [BinaryWriter] and
    [BinaryReader], which put integers of either sign, byte strings, texts and
    plain structs one after the other into a buffer.  A value of a trivially
    copyable type is the list of its bytes. *)
From S2P Require Import Prelude Result ByteBuf Config Message.
#[local] Open Scope Z_scope.

(** [static_cast<I>(u)] for a signed type of [2 * half] values. *)
Definition signed (half : Z) (u : Z) : Z := if u <? half then u else u - 2 * half.

Module BinaryWriter.
Definition u8 (value : U8) : io ByteWriter unit := write_u8 value.
Definition i8 (value : Z) : io ByteWriter unit := write_u8 (w8 value).
Definition u16 (value : U16) : io ByteWriter unit := write_u16 value.
Definition i16 (value : Z) : io ByteWriter unit := write_u16 (w16 value).
Definition u32 (value : U32) : io ByteWriter unit := write_u32 value.
Definition i32 (value : Z) : io ByteWriter unit := write_u32 (w32 value).
Definition u64 (value : U64) : io ByteWriter unit := write_u64 value.
Definition i64 (value : Z) : io ByteWriter unit := write_u64 (w64 value).
Definition bytes (value : list U8) : io ByteWriter unit := write_bytes (data_of value) (zlen value).
Definition sized_bytes (value : list U8) : io ByteWriter unit :=
  if U16_MAX <? zlen value then fail Errc.TooLarge "sized byte payload too large"
  else
    write_u16 (w16 (zlen value));;
    bytes value.
Definition string (value : list U8) : io ByteWriter unit := sized_bytes value.
Definition pod (value : list U8) : io ByteWriter unit := bytes value.
End BinaryWriter.

Module BinaryReader.
Definition u8 : io ByteReader U8 := read_u8.
Definition i8 : io ByteReader Z := tmp ← read_u8; mret (signed 128 tmp).
Definition u16 : io ByteReader U16 := read_u16.
Definition i16 : io ByteReader Z := tmp ← read_u16; mret (signed 32768 tmp).
Definition u32 : io ByteReader U32 := read_u32.
Definition i32 : io ByteReader Z := tmp ← read_u32; mret (signed 2147483648 tmp).
Definition u64 : io ByteReader U64 := read_u64.
Definition i64 : io ByteReader Z := tmp ← read_u64; mret (signed 9223372036854775808 tmp).
Definition bytes (len : ST) : io ByteReader (list U8) := read_bytes len.
(** The vector's [data()] is null when it is empty. *)
Definition sized_bytes : io ByteReader (list U8) :=
  len ← read_u16;
  read_bytes_to (len =? 0) len.
Definition string_view : io ByteReader (list U8) :=
  len ← read_u16;
  r ← get;
  let ptr := peek_ptr len r in
  if (0 <? len) && bool_decide (ptr = None)
  then fail Errc.Truncated "truncated string payload"
  else
    skip_r len;;
    mret (default [] ptr).
Definition pod (size : nat) : io ByteReader (list U8) := read_bytes (Z.of_nat size).
End BinaryReader.

(** ** Messages as sequences of fields *)

Inductive field : Type :=
  | FU8 (v : Z) | FI8 (v : Z) | FU16 (v : Z) | FI16 (v : Z)
  | FU32 (v : Z) | FI32 (v : Z) | FU64 (v : Z) | FI64 (v : Z)
  | FSized (bs : list U8) | FString (bs : list U8) | FPod (bs : list U8).

Inductive shape : Type :=
  | SU8 | SI8 | SU16 | SI16 | SU32 | SI32 | SU64 | SI64
  | SSized | SString | SPod (size : nat).

Definition put (f : field) : io ByteWriter unit :=
  match f with
  | FU8 v => BinaryWriter.u8 v
  | FI8 v => BinaryWriter.i8 v
  | FU16 v => BinaryWriter.u16 v
  | FI16 v => BinaryWriter.i16 v
  | FU32 v => BinaryWriter.u32 v
  | FI32 v => BinaryWriter.i32 v
  | FU64 v => BinaryWriter.u64 v
  | FI64 v => BinaryWriter.i64 v
  | FSized bs => BinaryWriter.sized_bytes bs
  | FString bs => BinaryWriter.string bs
  | FPod bs => BinaryWriter.pod bs
  end.

Definition take_field (s : shape) : io ByteReader field :=
  match s with
  | SU8 => v ← BinaryReader.u8; mret (FU8 v)
  | SI8 => v ← BinaryReader.i8; mret (FI8 v)
  | SU16 => v ← BinaryReader.u16; mret (FU16 v)
  | SI16 => v ← BinaryReader.i16; mret (FI16 v)
  | SU32 => v ← BinaryReader.u32; mret (FU32 v)
  | SI32 => v ← BinaryReader.i32; mret (FI32 v)
  | SU64 => v ← BinaryReader.u64; mret (FU64 v)
  | SI64 => v ← BinaryReader.i64; mret (FI64 v)
  | SSized => bs ← BinaryReader.sized_bytes; mret (FSized bs)
  | SString => bs ← BinaryReader.string_view; mret (FString bs)
  | SPod n => bs ← BinaryReader.pod n; mret (FPod bs)
  end.

Fixpoint put_all (fs : list field) : io ByteWriter unit :=
  match fs with
  | [] => mret tt
  | f :: rest => put f;; put_all rest
  end.
Fixpoint take_all (ss : list shape) : io ByteReader (list field) :=
  match ss with
  | [] => mret []
  | s :: rest => f ← take_field s; fs ← take_all rest; mret (f :: fs)
  end.

(** ** Specification *)

Definition enc_sized (bs : list U8) : list U8 := be 2 (zlen bs) ++ bs.

Definition enc_field (f : field) : list U8 :=
  match f with
  | FU8 v => be 1 v | FI8 v => be 1 (w8 v)
  | FU16 v => be 2 v | FI16 v => be 2 (w16 v)
  | FU32 v => be 4 v | FI32 v => be 4 (w32 v)
  | FU64 v => be 8 v | FI64 v => be 8 (w64 v)
  | FSized bs | FString bs => enc_sized bs
  | FPod bs => bs
  end.

(** The values of a field of the shape: those of its C++ type. *)
Definition fits (s : shape) (f : field) : Prop :=
  match s, f with
  | SU8, FU8 v => is_u8 v
  | SI8, FI8 v => -128 <= v < 128
  | SU16, FU16 v => is_u16 v
  | SI16, FI16 v => -32768 <= v < 32768
  | SU32, FU32 v => is_u32 v
  | SI32, FI32 v => -2147483648 <= v < 2147483648
  | SU64, FU64 v => is_u64 v
  | SI64, FI64 v => -9223372036854775808 <= v < 9223372036854775808
  | SSized, FSized bs | SString, FString bs => bytes_ok bs ∧ zlen bs <= U16_MAX
  | SPod n, FPod bs => is_array n bs
  | _, _ => False
  end.

#[global] Instance fits_dec s f : Decision (fits s f).
Proof. destruct s, f; cbn; apply _. Defined.

(** ** Each kind of field *)

(** A format read through a bijection. *)
Lemma wire_iso {A B} (to : B → A) (of_ : A → B) (good : B → Prop) wr rd enc valid :
  Wire wr rd enc valid →
  (∀ b, good b → valid (to b) ∧ of_ (to b) = b) → (∀ a, valid a → good (of_ a) ∧ to (of_ a) = a) →
  Wire (λ b, wr (to b)) (a ← rd; mret (of_ a)) (λ b, enc (to b)) good.
Proof.
  intros HW Hto Hof. split.
  - intros b out rest Hb. by apply wire_put, Hto.
  - intros b pre rest Hb. destruct (Hto b Hb) as [Hv Heq].
    erewrite bind_done; [|by apply wire_get]. by rewrite Heq.
  - intros b pre rest r' Hok Hr. inv_done Hr. apply wire_canon in Hm as (Ha & rest' & -> & ->); [|done].
    unfold mret, io_ret in Hr. destruct (Hof _ Ha) as [Hg Heq]. simplify_eq Hr. intros <- <-.
    rewrite Heq. by split; [|eexists].
  - intros b Hb. by apply (wire_ok (rd:=rd)), Hto.
Qed.

Lemma signed_iso half v :
  0 < half → -half <= v < half → 0 <= v mod (2 * half) < 2 * half ∧ signed half (v mod (2 * half)) = v.
Proof.
  intros Hh Hv. split; [apply Z.mod_pos_bound; lia|]. unfold signed.
  destruct (Z.lt_ge_cases v 0).
  - assert (v mod (2 * half) = v + 2 * half) as ->
      by (symmetry; apply Z.mod_unique with (q := -1); lia).
    destruct (Z.ltb_spec (v + 2 * half) half); lia.
  - rewrite Z.mod_small by lia. destruct (Z.ltb_spec v half); lia.
Qed.
Lemma signed_range half u :
  0 <= u < 2 * half → -half <= signed half u < half ∧ signed half u mod (2 * half) = u.
Proof.
  intros Hu. unfold signed. destruct (Z.ltb_spec u half); (split; [lia|]).
  - apply Z.mod_small. lia.
  - symmetry. apply Z.mod_unique with (q := -1); lia.
Qed.

#[global] Instance wire_i8 :
  Wire BinaryWriter.i8 BinaryReader.i8 (λ v, be 1 (w8 v)) (λ v, -128 <= v < 128).
Proof.
  apply (wire_iso w8 (signed 128) _ _ _ _ _ wire_u8); intros;
    [by apply (signed_iso 128)|by apply (signed_range 128)].
Qed.
#[global] Instance wire_i16 :
  Wire BinaryWriter.i16 BinaryReader.i16 (λ v, be 2 (w16 v)) (λ v, -32768 <= v < 32768).
Proof.
  apply (wire_iso w16 (signed 32768) _ _ _ _ _ wire_u16); intros;
    [by apply (signed_iso 32768)|by apply (signed_range 32768)].
Qed.
#[global] Instance wire_i32 :
  Wire BinaryWriter.i32 BinaryReader.i32 (λ v, be 4 (w32 v)) (λ v, -2147483648 <= v < 2147483648).
Proof.
  apply (wire_iso w32 (signed 2147483648) _ _ _ _ _ wire_u32); intros;
    [by apply (signed_iso 2147483648)|by apply (signed_range 2147483648)].
Qed.
#[global] Instance wire_i64 :
  Wire BinaryWriter.i64 BinaryReader.i64 (λ v, be 8 (w64 v))
    (λ v, -9223372036854775808 <= v < 9223372036854775808).
Proof.
  apply (wire_iso w64 (signed 9223372036854775808) _ _ _ _ _ wire_u64); intros;
    [by apply (signed_iso 9223372036854775808)|by apply (signed_range 9223372036854775808)].
Qed.

Lemma bytes_at_end bs out rest :
  (length bs <= length rest)%nat →
  BinaryWriter.bytes bs (writer_at out rest) = (Done tt, writer_at (out ++ bs) (drop (length bs) rest)).
Proof.
  intros Hlen. unfold BinaryWriter.bytes, data_of. case_decide as Hbs; [subst bs|apply write_bytes_at; lia].
  change (write_bytes None (zlen [])) with (need_w 0;; mret tt). rewrite bind_ret_tt, need_w_at.
  destruct (Z.leb_spec 0 (zlen rest)); [|lia].
  by rewrite app_nil_r.
Qed.

#[global] Instance wire_pod n : Wire BinaryWriter.pod (BinaryReader.pod n) enc_array (is_array n).
Proof.
  destruct (wire_array n) as [Hput Hget Hcanon Hok]. split; [|exact Hget|exact Hcanon|exact Hok].
  intros a out rest Ha Hlen. by apply bytes_at_end.
Qed.

(** The two readers of sized byte strings differ only in how they fail. *)
Definition sized_valid (bs : list U8) : Prop := bytes_ok bs ∧ zlen bs <= U16_MAX.

Lemma put_sized bs out rest :
  sized_valid bs → (length (enc_sized bs) <= length rest)%nat →
  BinaryWriter.sized_bytes bs (writer_at out rest) =
    (Done tt, writer_at (out ++ enc_sized bs) (drop (length (enc_sized bs)) rest)).
Proof.
  intros [_ Hl] Hlen. unfold BinaryWriter.sized_bytes, enc_sized in *. rewrite (proj2 (Z.ltb_ge _ _)) by lia.
  rewrite length_app, length_be in *. assert (is_u16 (zlen bs)) by ulia. rewrite w16_id by done. wput.
  rewrite bytes_at_end by (rewrite length_drop, length_be; lia). by rewrite drop_drop, length_be, <- app_assoc.
Qed.

Lemma wire_sized_of rd :
  (∀ bs pre rest, sized_valid bs →
     rd (reader_at pre (enc_sized bs ++ rest)) = (Done bs, reader_at (pre ++ enc_sized bs) rest)) →
  (∀ pre rest a r', bytes_ok rest → rd (reader_at pre rest) = (Done a, r') →
     ∃ bs rest', sized_valid bs ∧ rest = enc_sized bs ++ rest') →
  Wire BinaryWriter.sized_bytes rd enc_sized sized_valid.
Proof.
  intros Hget Hinv. split; [apply put_sized|apply Hget| |].
  - intros a pre rest r' Hok Hr. destruct (Hinv _ _ _ _ Hok Hr) as (bs & rest' & Hv & ->).
    rewrite Hget in Hr by done. simplify_eq. split; [done|by eexists].
  - intros bs [Hok _]. apply bytes_ok_app; [apply be_ok|done].
Qed.

(** A length that is too large for what is left fails. *)
Lemma sized_prefix (n : U16) rest :
  bytes_ok rest → is_u16 n → n <= zlen rest →
  ∃ bs rest', sized_valid bs ∧ zlen bs = n ∧ be 2 n ++ rest = enc_sized bs ++ rest'.
Proof.
  intros Hok Hn Hle. exists (take (Z.to_nat n) rest), (drop (Z.to_nat n) rest).
  assert (zlen (take (Z.to_nat n) rest) = n) as Hlen by (rewrite length_take; ulia).
  split; [split; [by apply Forall_take|ulia]|]. split; [done|]. unfold enc_sized.
  by rewrite Hlen, <- app_assoc, take_drop.
Qed.

Lemma read_bytes_zero b pre rest : read_bytes_to b 0 (reader_at pre rest) = (Done [], reader_at pre rest).
Proof.
  unfold read_bytes_to. change (0 <? 0) with false. cbn [andb].
  erewrite bind_done; [done|]. apply need_r_ok. lia.
Qed.

#[global] Instance wire_sized_bytes :
  Wire BinaryWriter.sized_bytes BinaryReader.sized_bytes enc_sized sized_valid.
Proof.
  apply wire_sized_of; unfold BinaryReader.sized_bytes.
  - intros bs pre rest [_ Hl]. unfold enc_sized. assert (is_u16 (zlen bs)) by ulia. wget.
    destruct (Z.eqb_spec (zlen bs) 0) as [Hz|].
    + destruct bs; [|done]. cbn [length Z.of_nat app]. rewrite read_bytes_zero. by rewrite app_nil_r.
    + change (read_bytes_to false) with read_bytes. rewrite read_bytes_app by done. by rewrite <- app_assoc.
  - intros pre rest a r' Hok Hr. wcanon Hr Hok. destruct (decide (a0 <= zlen x)) as [Hle|Hgt].
    + destruct (sized_prefix a0 x) as (bs & rest' & Hv & _ & Heq); [done..|]. by exists bs, rest'.
    + exfalso. destruct (Z.eqb_spec a0 0); [lia|]. change (read_bytes_to false) with read_bytes in Hr.
      by rewrite read_bytes_short in Hr by lia.
Qed.

#[global] Instance wire_string : Wire BinaryWriter.string BinaryReader.string_view enc_sized sized_valid.
Proof.
  apply wire_sized_of; unfold BinaryReader.string_view.
  - intros bs pre rest [_ Hl]. unfold enc_sized. assert (is_u16 (zlen bs)) by ulia. wget.
    erewrite bind_done by reflexivity. cbv zeta. rewrite peek_ptr_app by done. rewrite andb_false_r.
    erewrite bind_done by (by apply skip_r_app). by rewrite <- app_assoc.
  - intros pre rest a r' Hok Hr. wcanon Hr Hok. erewrite bind_done in Hr by reflexivity. cbv zeta in Hr.
    destruct (decide (a0 <= zlen x)) as [Hle|Hgt].
    + destruct (sized_prefix a0 x) as (bs & rest' & Hv & _ & Heq); [done..|]. by exists bs, rest'.
    + exfalso. assert (peek_ptr a0 (reader_at (pre ++ be 2 a0) x) = None) as Hp.
      { unfold peek_ptr. rewrite r_remaining_at. by rewrite (proj2 (Z.ltb_lt _ _)) by lia. }
      rewrite Hp, bool_decide_eq_true_2 in Hr by done. destruct (Z.ltb_spec 0 a0); [discriminate Hr|lia].
Qed.

(** ** Sequences of fields *)

#[global] Instance wire_bu8 : Wire BinaryWriter.u8 BinaryReader.u8 (be 1) is_u8 := wire_u8.
#[global] Instance wire_bu16 : Wire BinaryWriter.u16 BinaryReader.u16 (be 2) is_u16 := wire_u16.
#[global] Instance wire_bu32 : Wire BinaryWriter.u32 BinaryReader.u32 (be 4) is_u32 := wire_u32.
#[global] Instance wire_bu64 : Wire BinaryWriter.u64 BinaryReader.u64 (be 8) is_u64 := wire_u64.

#[global] Instance wire_field s : Wire put (take_field s) enc_field (fits s).
Proof.
  split.
  - intros f out rest Hf Hlen. destruct s, f; try done; cbn [fits put enc_field] in *;
      try exact (wire_put (Wire:=wire_pod size) _ _ _ Hf Hlen);
      match goal with |- ?wr _ _ = _ => pose proof (wire_put (wr:=wr)) as Hw; by apply Hw end.
  - intros f pre rest Hf. destruct s, f; try done; cbn [fits take_field enc_field] in *;
      match goal with |- (?rd ≫= _) _ = _ => pose proof (wire_get (rd:=rd)) as Hr end;
      (erewrite bind_done; [|by apply Hr]); done.
  - intros f pre rest r' Hok Hr. destruct s; cbn [take_field] in Hr; inv_done Hr;
      match type of Hm with ?rd _ = _ => pose proof (wire_canon (rd:=rd)) as Hc end;
      (apply Hc in Hm as (? & ? & -> & ->); [|done]); clear Hc;
      unfold mret, io_ret in Hr; simplify_eq Hr; intros <- <-; (split; [done|by eexists]).
  - intros f Hf. destruct s, f; try done; cbn [fits enc_field] in *; try apply be_ok.
    + apply bytes_ok_app; [apply be_ok|apply Hf].
    + apply bytes_ok_app; [apply be_ok|apply Hf].
    + apply Hf.
Qed.

Definition enc_all (fs : list field) : list U8 := concat (enc_field <$> fs).

#[global] Instance wire_fields ss : Wire put_all (take_all ss) enc_all (Forall2 fits ss).
Proof.
  unfold enc_all. split.
  - intros fs out rest Hfs. revert out rest.
    induction Hfs as [|s f ss fs Hf _ IH]; intros out rest; cbn [put_all fmap list_fmap concat].
    { intros _. by rewrite app_nil_r. }
    rewrite length_app. intros Hlen. erewrite bind_done; [|apply (wire_put (rd:=take_field s)); [done|lia]].
    rewrite IH by (rewrite length_drop; lia). by rewrite drop_drop, <- app_assoc.
  - intros fs pre rest Hfs. revert pre.
    induction Hfs as [|s f ss fs Hf _ IH]; intros pre; cbn [take_all fmap list_fmap concat].
    { by rewrite app_nil_r. }
    rewrite <- app_assoc. erewrite bind_done; [|by apply wire_get]. erewrite bind_done; [|apply IH].
    by rewrite <- app_assoc.
  - intros fs pre rest r' Hok Hr. revert fs pre rest r' Hok Hr.
    induction ss as [|s ss IH]; intros fs pre rest r' Hok Hr; cbn [take_all] in Hr.
    { unfold mret, io_ret in Hr. simplify_eq Hr. intros <- <-. split; [done|]. exists rest. by rewrite app_nil_r. }
    wcanon Hr Hok. inv_done Hr. apply IH in Hm as (Hfs & rest' & -> & ->); [|done].
    unfold mret, io_ret in Hr. simplify_eq Hr. intros <- <-. split; [by constructor|].
    exists rest'. cbn. by rewrite <- !app_assoc.
  - intros fs Hfs. induction Hfs as [|s f ss fs Hf _ IH]; cbn; [constructor|].
    apply bytes_ok_app; [by apply (wire_ok (rd:=take_field s))|done].
Qed.

#[global] Instance sized_bytes_safe : ReaderSafe BinaryReader.sized_bytes.
Proof.
  intros r Hr. unfold BinaryReader.sized_bytes. apply reader_safe_bind_val; [apply _|done|].
  intros len r1 Hlen Hr1. apply read_u16_range in Hlen. destruct (Z.eqb_spec len 0) as [->|].
  - change (read_bytes_to true 0) with (read_bytes 0). by apply reader_safe.
  - change (read_bytes_to false) with read_bytes. by apply reader_safe.
Qed.
#[global] Instance string_view_safe : ReaderSafe BinaryReader.string_view.
Proof.
  intros r Hr. unfold BinaryReader.string_view. apply reader_safe_bind_val; [apply _|done|].
  intros len r1 Hlen Hr1. apply read_u16_range in Hlen. erewrite bind_done by reflexivity. cbv zeta.
  destruct (_ && _); [done|]. apply (reader_safe_bind_val (skip_r len)); [|done|done].
  apply skip_r_safe. ulia.
Qed.
#[global] Instance take_field_safe s : ReaderSafe (take_field s).
Proof.
  destruct s; unfold take_field, BinaryReader.u8, BinaryReader.i8, BinaryReader.u16, BinaryReader.i16,
    BinaryReader.u32, BinaryReader.i32, BinaryReader.u64, BinaryReader.i64, BinaryReader.pod; apply _.
Qed.
#[global] Instance take_all_safe ss : ReaderSafe (take_all ss).
Proof. induction ss; cbn [take_all]; apply _. Qed.

(** C38: whatever fields an application writes one after the other (integers of
    each width and sign, sized byte strings, texts, plain structs), reading them
    back in the same order gives the same values and stops where the writer did.
    The encoding is canonical: fields that are read from any input are written
    as the bytes they were read from.  On no input does reading leave the buffer. *)
Theorem codec_roundtrip ss fs room bs :
  Forall2 fits ss fs → (length (enc_all fs) <= length room)%nat → bytes_ok bs →
  (∃ w, put_all fs (writer_at [] room) = (Done tt, w) ∧
     ∀ rest, take_all ss (reader_at [] (written w ++ rest)) = (Done fs, reader_at (written w) rest)) ∧
  (∀ fs' r', take_all ss (reader_at [] bs) = (Done fs', r') →
     ∃ w rest, put_all fs' (writer_at [] bs) = (Done tt, w) ∧ bs = written w ++ rest ∧
       r' = reader_at (written w) rest) ∧
  (take_all ss (reader_at [] bs)).1 ≠ UB.
Proof.
  intros Hfs Hroom Hbs. split_and!.
  - eexists. split; [by apply (wire_put (Wire:=wire_fields ss))|]. intros rest. rewrite written_at.
    by apply (wire_get (Wire:=wire_fields ss)).
  - intros fs' r' Hr. apply (wire_canon (Wire:=wire_fields ss)) in Hr as (Hv & rest & -> & ->); [|done].
    eexists _, rest. split; [apply (wire_put (Wire:=wire_fields ss)); [done|]|].
    { rewrite length_app. lia. }
    by rewrite written_at.
  - apply reader_safe, reader_wf_at.
Qed.

Definition sample_shapes : list shape := [SU16; SI32; SString; SPod 2; SI8; SSized].
Definition sample_fields : list field :=
  [FU16 513; FI32 (-7); FString [104; 105]; FPod [1; 2]; FI8 (-128); FSized []].

Lemma codec_roundtrip_witness :
  ∃ w, put_all sample_fields (writer_at [] (replicate 32 0)) = (Done tt, w) ∧
    ∀ rest, take_all sample_shapes (reader_at [] (written w ++ rest)) =
      (Done sample_fields, reader_at (written w) rest).
Proof.
  apply (codec_roundtrip sample_shapes sample_fields (replicate 32 0) []).
  - apply (bool_decide_unpack _). vm_compute. exact I.
  - apply (bool_decide_unpack _). vm_compute. exact I.
  - constructor.
Defined.
