(* ===== verification/NatHints.v ===== *)
(** * NAT traversal hints

    [src/securecnet/include/securecnet/nat.hpp]: the wire form of a peer's
    address, the punch frame, and the conversions between hints and endpoints. *)
From S2P Require Import Prelude Result ByteBuf Config Endpoint Crypto.
#[local] Open Scope Z_scope.

Module NatHintFamily.
Inductive NatHintFamily : Set := IPv4 | IPv6.
End NatHintFamily.
Abbreviation NatHintFamily := NatHintFamily.NatHintFamily.
#[global] Instance NatHintFamily_eq_dec : EqDecision NatHintFamily.
Proof. solve_decision. Defined.

Definition family_value (f : NatHintFamily) : U8 :=
  match f with NatHintFamily.IPv4 => 4 | NatHintFamily.IPv6 => 6 end.

Record NatPeerHint := mkNatHint {
  nh_family : NatHintFamily;
  nh_port : U16;
  nh_address : list U8;
}.
Definition default_nat_hint : NatPeerHint := mkNatHint NatHintFamily.IPv4 0 (zeros 16).

Record NatPunchFrame := mkPunch {
  np_token : U64;
  np_issued_at_ms : U64;
}.

(** The test that the family is one of the enumerators holds for each value of
    the type here. *)
Definition write_nat_peer_hint (hint : NatPeerHint) : io ByteWriter unit :=
  if nh_port hint =? 0 then fail Errc.InvalidArg "nat hint port must be non-zero"
  else
    write_u8 (family_value (nh_family hint));;
    write_u16 (nh_port hint);;
    write_array 16 (nh_address hint).

Definition read_nat_peer_hint : io ByteReader NatPeerHint :=
  raw ← read_u8;
  family ← (if raw =? family_value NatHintFamily.IPv4 then mret NatHintFamily.IPv4
            else if raw =? family_value NatHintFamily.IPv6 then mret NatHintFamily.IPv6
            else fail Errc.BadPacket "invalid nat hint family");
  port ← read_u16;
  if port =? 0 then fail Errc.BadPacket "nat hint port must be non-zero"
  else
    address ← read_array 16;
    expect_end "extra bytes in nat hint";;
    mret (mkNatHint family port address).

(** [memcpy] of the first four bytes of the address, which are in network
    order. *)
Definition make_nat_peer_hint (e : Endpoint) : outcome NatPeerHint :=
  match e with
  | EpNone => Err (fail_result Errc.InvalidArg "endpoint is empty")
  | EpV4 port addr => Done (mkNatHint NatHintFamily.IPv4 port (be 4 addr ++ zeros 12))
  | EpV6 port _ _ addr => Done (mkNatHint NatHintFamily.IPv6 port addr)
  | EpOther _ _ => Err (fail_result Errc.InvalidArg "unsupported endpoint family")
  end.

Definition endpoint_from_nat_peer_hint (hint : NatPeerHint) : outcome Endpoint :=
  if nh_port hint =? 0 then Err (fail_result Errc.InvalidArg "nat hint port must be non-zero")
  else
    match nh_family hint with
    | NatHintFamily.IPv4 => Done (EpV4 (nh_port hint) (be_value (take 4 (nh_address hint))))
    | NatHintFamily.IPv6 => Done (EpV6 (nh_port hint) 0 0 (nh_address hint))
    end.

Definition write_nat_punch_frame (frame : NatPunchFrame) : io ByteWriter unit :=
  if (np_token frame =? 0) || (np_issued_at_ms frame =? 0)
  then fail Errc.InvalidArg "nat punch frame fields must be non-zero"
  else
    write_u64 (np_token frame);;
    write_u64 (np_issued_at_ms frame).

Definition read_nat_punch_frame : io ByteReader NatPunchFrame :=
  token ← read_u64;
  issued ← read_u64;
  if (token =? 0) || (issued =? 0)
  then fail Errc.BadPacket "nat punch frame fields must be non-zero"
  else
    expect_end "extra bytes in nat punch frame";;
    mret (mkPunch token issued).

(** ** Specification *)

Definition enc_hint (h : NatPeerHint) : list U8 :=
  be 1 (family_value (nh_family h)) ++ be 2 (nh_port h) ++ enc_array (nh_address h).
Definition hint_valid (h : NatPeerHint) : Prop :=
  is_u16 (nh_port h) ∧ nh_port h ≠ 0 ∧ is_array 16 (nh_address h).

Definition enc_punch (f : NatPunchFrame) : list U8 := be 8 (np_token f) ++ be 8 (np_issued_at_ms f).
Definition punch_valid (f : NatPunchFrame) : Prop :=
  is_u64 (np_token f) ∧ np_token f ≠ 0 ∧ is_u64 (np_issued_at_ms f) ∧ np_issued_at_ms f ≠ 0.

Lemma family_range f : is_u8 (family_value f).
Proof. by destruct f. Qed.

#[global] Instance frame_hint : WireFrame write_nat_peer_hint read_nat_peer_hint enc_hint hint_valid.
Proof.
  split.
  - intros h out rest (H1 & H2 & H3) Hlen. unfold write_nat_peer_hint, enc_hint in *.
    rewrite (proj2 (Z.eqb_neq _ _) H2). rewrite !length_app, !length_be in *.
    pose proof (family_range (nh_family h)). do 2 wput. rewrite wire_put by (done || wire_side).
    by rewrite <- !app_assoc, !drop_drop, !length_be.
  - intros h pre (H1 & H2 & H3). unfold read_nat_peer_hint, enc_hint.
    pose proof (family_range (nh_family h)). wget.
    assert (∀ r, (if family_value (nh_family h) =? family_value NatHintFamily.IPv4 then mret NatHintFamily.IPv4
             else if family_value (nh_family h) =? family_value NatHintFamily.IPv6 then mret NatHintFamily.IPv6
             else fail Errc.BadPacket "invalid nat hint family" : io ByteReader NatHintFamily) r =
            (Done (nh_family h), r)) as Hfam by (intros; by destruct (nh_family h)).
    erewrite bind_done by apply Hfam. wget. rewrite (proj2 (Z.eqb_neq _ _) H2).
    rewrite <- (app_nil_r (enc_array _)). wget. erewrite bind_done by apply expect_end_at.
    rewrite <- !app_assoc, app_nil_r. by destruct h.
  - intros h pre rest r' Hok H. unfold read_nat_peer_hint in H. wcanon H Hok. inv_done H.
    assert (a = family_value a0 ∧ s = reader_at (pre ++ be 1 a) x) as [-> ->].
    { destruct (Z.eqb_spec a (family_value NatHintFamily.IPv4)) as [->|];
        [|destruct (Z.eqb_spec a (family_value NatHintFamily.IPv6)) as [->|]; [|done]];
        unfold mret, io_ret in Hm; by simplify_eq. }
    wcanon H Hok. destruct (Z.eqb_spec a 0); [done|]. wcanon H Hok. inv_done H.
    apply expect_end_inv in Hm0 as [-> ->]. unfold mret, io_ret in H. simplify_eq H. intros <- <-.
    split; [done|]. unfold enc_hint. cbn -[be]. by rewrite app_nil_r.
Qed.

#[global] Instance frame_punch :
  WireFrame write_nat_punch_frame read_nat_punch_frame enc_punch punch_valid.
Proof.
  split.
  - intros f out rest (H1 & H2 & H3 & H4) Hlen. unfold write_nat_punch_frame, enc_punch in *.
    rewrite (proj2 (Z.eqb_neq _ _) H2), (proj2 (Z.eqb_neq _ _) H4). cbn [orb].
    rewrite length_app, !length_be in *. wput. rewrite wire_put by (done || wire_side).
    by rewrite <- app_assoc, drop_drop, !length_be.
  - intros f pre (H1 & H2 & H3 & H4). unfold read_nat_punch_frame, enc_punch. wget.
    rewrite <- (app_nil_r (be 8 (np_issued_at_ms f))). wget.
    rewrite (proj2 (Z.eqb_neq _ _) H2), (proj2 (Z.eqb_neq _ _) H4). cbn [orb].
    erewrite bind_done by apply expect_end_at. rewrite <- !app_assoc, app_nil_r. by destruct f.
  - intros f pre rest r' Hok H. unfold read_nat_punch_frame in H. do 2 wcanon H Hok.
    destruct (Z.eqb_spec a 0), (Z.eqb_spec a0 0); [done..|]. cbn [orb] in H. inv_done H.
    apply expect_end_inv in Hm as [-> ->]. unfold mret, io_ret in H. simplify_eq H. intros <- <-.
    split; [done|]. unfold enc_punch. cbn -[be]. by rewrite app_nil_r.
Qed.

#[global] Instance read_hint_safe : ReaderSafe read_nat_peer_hint.
Proof. unfold read_nat_peer_hint. apply _. Qed.
#[global] Instance read_punch_safe : ReaderSafe read_nat_punch_frame.
Proof. unfold read_nat_punch_frame. apply _. Qed.

(** An endpoint of one of the two families, as the operating system gives it. *)
Definition endpoint_typed (e : Endpoint) : Prop :=
  match e with
  | EpV4 p a => is_u16 p ∧ is_u32 a
  | EpV6 p s f a => is_u16 p ∧ is_u32 s ∧ is_u32 f ∧ is_array 16 a
  | EpNone | EpOther _ _ => False
  end.
#[global] Instance endpoint_typed_dec e : Decision (endpoint_typed e).
Proof. destruct e; cbn; apply _. Defined.
Definition ep_scope (e : Endpoint) : U32 := match e with EpV6 _ s _ _ => s | _ => 0 end.

Lemma hint_of_endpoint e :
  endpoint_typed e → ep_port e ≠ 0 →
  ∃ h, make_nat_peer_hint e = Done h ∧ hint_valid h ∧
    ∃ e', endpoint_from_nat_peer_hint h = Done e' ∧ (ep_scope e = 0 → ep_eqb e e' = true).
Proof.
  destruct e as [|p a|p s fl a|]; cbn [endpoint_typed ep_port ep_scope]; [done| | |done].
  - intros [Hp Ha] Hp0. eexists. split; [done|]. split.
    + split_and!; [done|done|]. split; [done|]. apply bytes_ok_app; [apply be_ok|].
      by apply (bool_decide_unpack _).
    + unfold endpoint_from_nat_peer_hint. cbn [nh_port nh_family nh_address].
      rewrite (proj2 (Z.eqb_neq _ _) Hp0). eexists. split; [done|]. intros _. cbn [ep_eqb].
      change 4%nat with (length (be 4 a)) at 1. rewrite take_app_length, be_value_be by exact Ha.
      by rewrite !Z.eqb_refl.
  - intros (Hp & Hs & Hf & Ha) Hp0. eexists. split; [done|]. split; [done|].
    unfold endpoint_from_nat_peer_hint. cbn [nh_port nh_family nh_address].
    rewrite (proj2 (Z.eqb_neq _ _) Hp0). eexists. split; [done|]. intros ->. cbn [ep_eqb].
    by rewrite Z.eqb_refl, bool_decide_eq_true_2.
Qed.

(** A peer's address survives the exchange of NAT hints: the hint made for an
    endpoint is written, read back and turned into an endpoint that is equal to
    the first (when it has no IPv6 scope); a punch frame is read back as it was
    written; and both readers accept only what the writers write and never leave
    their buffer. *)
Theorem nat_roundtrip e f room bs :
  endpoint_typed e → ep_port e ≠ 0 → ep_scope e = 0 → punch_valid f → 19 <= zlen room → bytes_ok bs →
  (∃ h w e', make_nat_peer_hint e = Done h ∧ write_nat_peer_hint h (writer_at [] room) = (Done tt, w) ∧
     (read_nat_peer_hint (reader_at [] (written w))).1 = Done h ∧
     endpoint_from_nat_peer_hint h = Done e' ∧ ep_eqb e e' = true) ∧
  (∃ w, write_nat_punch_frame f (writer_at [] room) = (Done tt, w) ∧
     (read_nat_punch_frame (reader_at [] (written w))).1 = Done f) ∧
  (∀ h, (read_nat_peer_hint (reader_at [] bs)).1 = Done h →
     ∃ w, write_nat_peer_hint h (writer_at [] bs) = (Done tt, w) ∧ written w = bs) ∧
  (∀ f', (read_nat_punch_frame (reader_at [] bs)).1 = Done f' →
     ∃ w, write_nat_punch_frame f' (writer_at [] bs) = (Done tt, w) ∧ written w = bs) ∧
  (read_nat_peer_hint (reader_at [] bs)).1 ≠ UB ∧ (read_nat_punch_frame (reader_at [] bs)).1 ≠ UB.
Proof.
  intros He Hp Hs Hf Hroom Hbs. split_and!.
  - destruct (hint_of_endpoint e He Hp) as (h & Hh & Hv & e' & He' & Heq).
    destruct (frame_roundtrip (rd:=read_nat_peer_hint) h room Hv) as (w & Hw & Hr).
    { unfold enc_hint. destruct Hv as (_ & _ & Ha). rewrite !length_app, !length_be, (length_enc_array _ _ Ha). lia. }
    exists h, w, e'. split_and!; auto.
  - apply (frame_roundtrip (rd:=read_nat_punch_frame) f room Hf). unfold enc_punch. rewrite length_app, !length_be. lia.
  - intros h Hr. by eapply frame_rebuild.
  - intros f' Hr. by eapply frame_rebuild.
  - apply reader_safe, reader_wf_at.
  - apply reader_safe, reader_wf_at.
Qed.

Lemma nat_roundtrip_witness :
  ∃ h w e', make_nat_peer_hint (EpV4 4000 2130706433) = Done h ∧
    write_nat_peer_hint h (writer_at [] (replicate 20 0)) = (Done tt, w) ∧
    (read_nat_peer_hint (reader_at [] (written w))).1 = Done h ∧
    endpoint_from_nat_peer_hint h = Done e' ∧ ep_eqb (EpV4 4000 2130706433) e' = true.
Proof.
  refine (proj1 (nat_roundtrip (EpV4 4000 2130706433) (mkPunch 5 6) (replicate 20 0) [] _ _ _ _ _ _)).
  - apply (bool_decide_unpack _). vm_compute. exact I.
  - done.
  - done.
  - done.
  - by vm_compute.
  - constructor.
Defined.

(** The scope of an IPv6 address is not part of a hint: a link-local endpoint
    comes back as a different one. *)
Definition link_local : Endpoint := EpV6 4000 3 0 ([254; 128] ++ zeros 13 ++ [7]).

Example hint_loses_scope :
  match make_nat_peer_hint link_local with
  | Done h => match endpoint_from_nat_peer_hint h with
              | Done e' => ep_eqb link_local e' = false
              | _ => False
              end
  | _ => False
  end.
Proof. vm_compute. reflexivity. Qed.
