(* ===== verification/Router.v ===== *)
(** * Routing of messages

    [src/securecnet/include/securecnet/router.hpp]: [ClientRouter] and
    [ServerRouter] send a message to the handler registered for its type, to a
    fallback, or nowhere.  The two classes differ in what a handler is given: a
    message, or a peer and a message; the model is parametric in it.  Handlers
    act on the state [X] of the application. *)
From S2P Require Import Prelude Result ByteBuf Config Message Server.
#[local] Open Scope Z_scope.

Record RouteResult := mkRoute { rr_handled : bool; rr_rc : Result }.
Definition route_unhandled : RouteResult := mkRoute false success.
Definition route_success : RouteResult := mkRoute true success.
Definition route_fail (c : Errc) (m : string) : RouteResult := mkRoute true (fail_result c m).

Section router.
Context {A X : Type} (message : A → MsgView).

(** A handler the user passes returns a [Result] or nothing. *)
Inductive user_handler (B : Type) : Type :=
  | Returning (f : B → io X unit)
  | Procedure (f : B → X → X).
Arguments Returning {B} f.
Arguments Procedure {B} f.

Definition invoke_route_handler {B} (fn : user_handler B) (arg : B) : io X unit :=
  match fn with
  | Returning f => f arg
  | Procedure f => modify (f arg)
  end.

Definition Handler : Type := A → io X unit.

Record Router := mkRouter {
  rt_handlers : gmap U8 Handler;
  rt_fallback : option Handler;
  rt_on_error : option (A → Result → X → X);
}.
Definition new_router : Router := mkRouter ∅ None None.

Definition on (type : U8) (fn : user_handler A) (r : Router) : Router :=
  mkRouter (<[type := invoke_route_handler fn]> (rt_handlers r)) (rt_fallback r) (rt_on_error r).

(** [payload a b]: the argument of a text or binary handler, made from the
    decoded bytes (with the peer, on the server). *)
Definition on_text {C} (payload : A → list U8 → C) (type : U8) (fn : user_handler C)
    : Router → Router :=
  on type (Returning (λ a, invoke_route_handler fn (payload a (msg_bytes (message a))))).

Definition on_binary {C} (payload : A → list U8 → C) (size : ST) (type : U8) (fn : user_handler C)
    : Router → Router :=
  on type (Returning (λ a,
    value ← lift (msg_as size (message a));
    invoke_route_handler fn (payload a value))).

Definition on_unhandled (fn : user_handler A) (r : Router) : Router :=
  mkRouter (rt_handlers r) (Some (invoke_route_handler fn)) (rt_on_error r).
Definition on_error (fn : A → Result → X → X) (r : Router) : Router :=
  mkRouter (rt_handlers r) (rt_fallback r) (Some fn).
Definition clear_type (type : U8) (r : Router) : Router :=
  mkRouter (delete type (rt_handlers r)) (rt_fallback r) (rt_on_error r).
Definition clear_router (r : Router) : Router := new_router.
Definition has (type : U8) (r : Router) : bool := bool_decide (is_Some (rt_handlers r !! type)).

(** The body that both branches of [dispatch] share. *)
Definition run_handler (h : Handler) (r : Router) (a : A) : io X RouteResult :=
  rc ← attempt (h a);
  match rt_on_error r with
  | Some f => when (negb (ok rc)) (modify (f a rc))
  | None => mret tt
  end;;
  mret (mkRoute true rc).

Definition dispatch (r : Router) (a : A) : io X RouteResult :=
  match rt_handlers r !! m_type (message a) with
  | Some h => run_handler h r a
  | None =>
      match rt_fallback r with
      | Some h => run_handler h r a
      | None => mret route_unhandled
      end
  end.

(** ** Specification: a history of registrations *)

Inductive registration : Type :=
  | RegOn (type : U8) (fn : user_handler A)
  | RegUnhandled (fn : user_handler A)
  | RegError (fn : A → Result → X → X)
  | RegClear (type : U8)
  | RegClearAll.

Definition register (g : registration) : Router → Router :=
  match g with
  | RegOn type fn => on type fn
  | RegUnhandled fn => on_unhandled fn
  | RegError fn => on_error fn
  | RegClear type => clear_type type
  | RegClearAll => clear_router
  end.

(** The newest registration comes first. *)
Definition registered (history : list registration) : Router := foldr register new_router history.

Fixpoint current_handler (type : U8) (history : list registration) : option (user_handler A) :=
  match history with
  | [] | RegClearAll :: _ => None
  | RegOn t fn :: rest => if decide (t = type) then Some fn else current_handler type rest
  | RegClear t :: rest => if decide (t = type) then None else current_handler type rest
  | _ :: rest => current_handler type rest
  end.
Fixpoint current_fallback (history : list registration) : option (user_handler A) :=
  match history with
  | [] | RegClearAll :: _ => None
  | RegUnhandled fn :: _ => Some fn
  | _ :: rest => current_fallback rest
  end.
Fixpoint current_error (history : list registration) : option (A → Result → X → X) :=
  match history with
  | [] | RegClearAll :: _ => None
  | RegError fn :: _ => Some fn
  | _ :: rest => current_error rest
  end.

(** What the application sees of a message: the handler runs once, the error
    handler after it when it failed. *)
Definition delivered (fn : user_handler A) (err : option (A → Result → X → X)) (a : A) (x : X)
    : outcome RouteResult * X :=
  match invoke_route_handler fn a x with
  | (Done _, x') => (Done route_success, x')
  | (Err rc, x') =>
      (Done (mkRoute true rc),
       match err with Some f => if ok rc then x' else f a rc x' | None => x' end)
  | (UB, x') => (UB, x')
  end.

Lemma registered_handlers history type :
  rt_handlers (registered history) !! type = invoke_route_handler <$> current_handler type history.
Proof.
  unfold registered. induction history as [|[t fn|fn|fn|t|] rest IH]; cbn [foldr register current_handler];
    try done.
  - unfold on. cbn [rt_handlers]. case_decide as Ht; [subst t; by rewrite lookup_insert_eq|].
    by rewrite lookup_insert_ne.
  - unfold clear_type. cbn [rt_handlers]. case_decide as Ht; [subst t; by rewrite lookup_delete_eq|].
    by rewrite lookup_delete_ne.
Qed.
Lemma registered_fallback history :
  rt_fallback (registered history) = invoke_route_handler <$> current_fallback history.
Proof. induction history as [|[] rest IH]; cbn; try done. Qed.
Lemma registered_error history : rt_on_error (registered history) = current_error history.
Proof. induction history as [|[] rest IH]; cbn; try done. Qed.

Lemma run_handler_delivered fn history a x :
  run_handler (invoke_route_handler fn) (registered history) a x =
    delivered fn (current_error history) a x.
Proof.
  unfold run_handler, delivered. rewrite registered_error. unfold mbind, io_bind, attempt.
  destruct (invoke_route_handler fn a x) as [[[]|rc|] x']; [| |done].
  - by destruct (current_error history).
  - destruct (current_error history); [|done]. by destruct (ok rc).
Qed.

(** C37: after any sequence of registrations and clears, a message is given exactly
    once to the handler that was last registered for its type and not cleared
    since, or else to the last fallback; without either it is reported unhandled
    and nothing runs.  A failure is reported to the last error handler, once. *)
Theorem router_refines history a x :
  dispatch (registered history) a x =
    match current_handler (m_type (message a)) history, current_fallback history with
    | Some fn, _ | None, Some fn => delivered fn (current_error history) a x
    | None, None => (Done route_unhandled, x)
    end.
Proof.
  unfold dispatch. rewrite registered_handlers, registered_fallback.
  destruct (current_handler _ _); cbn [fmap option_fmap option_map]; [apply run_handler_delivered|].
  destruct (current_fallback _); cbn [fmap option_fmap option_map]; [apply run_handler_delivered|done].
Qed.
End router.

(** ** The routers

    [ClientRouter] is the router of messages, [ServerRouter] that of messages with
    their peer. *)
Section instances.
Context {X : Type}.

Definition client_dispatch (r : Router (A:=MsgView) (X:=X)) (m : MsgView) : io X RouteResult :=
  dispatch (λ m, m) r m.

Definition server_on (type : U8) (fn : user_handler (X:=X) (Peer * MsgView)) := on type fn.
Definition server_on_text (type : U8) (fn : user_handler (X:=X) (Peer * list U8)) :=
  on_text (A:=Peer * MsgView) snd (λ a t, (a.1, t)) type fn.
Definition server_on_binary (size : ST) (type : U8) (fn : user_handler (X:=X) (Peer * list U8)) :=
  on_binary (A:=Peer * MsgView) snd (λ a v, (a.1, v)) size type fn.
Definition server_on_unhandled (fn : user_handler (X:=X) (Peer * MsgView)) := on_unhandled fn.
Definition server_on_error (fn : Peer * MsgView → Result → X → X) := on_error fn.
Definition server_clear_type (type : U8) (r : Router (A:=Peer * MsgView) (X:=X)) := clear_type type r.
Definition server_clear (r : Router (A:=Peer * MsgView) (X:=X)) := clear_router r.
Definition server_has (type : U8) (r : Router (A:=Peer * MsgView) (X:=X)) : bool := has type r.
Definition server_dispatch (r : Router (A:=Peer * MsgView) (X:=X)) (peer : Peer) (m : MsgView)
    : io X RouteResult :=
  dispatch snd r (peer, m).
End instances.
