(* ===== verification/RequestReply.v ===== *)
(** * Requests and replies

    [src/securecnet/include/securecnet/request_reply.hpp]: the frame that carries
    a request or its reply inside a message, the source of request ids, and the
    table with which a client matches replies to the futures it handed out.

    A promise is an index into the list of futures handed out so far.  Setting a
    promise twice throws in C++; here it is [UB]. *)
From S2P Require Import Prelude Result Hoare ByteBuf Config Message Packet Protocol Windows Payloads.
From S2P Require Import Reliability Ordered Fragmentation Congestion Crypto Stats Endpoint.
From S2P Require Import Socket Client ClientRecv ClientInv ClientProps Server ServerSend Router.
#[local] Open Scope Z_scope.

Definition RequestReplyDefaultMessageType : U8 := 250.
Definition RequestReplyHeaderBytes : ST := 13.

Module RequestReplyKind.
Inductive RequestReplyKind : Set := Request | Response | Error.
End RequestReplyKind.
Abbreviation RequestReplyKind := RequestReplyKind.RequestReplyKind.
#[global] Instance RequestReplyKind_eq_dec : EqDecision RequestReplyKind.
Proof. solve_decision. Defined.

Definition rr_kind_value (k : RequestReplyKind) : U8 :=
  match k with
  | RequestReplyKind.Request => 1
  | RequestReplyKind.Response => 2
  | RequestReplyKind.Error => 3
  end.

(** [request_reply_kind_valid(static_cast<RequestReplyKind>(raw))] *)
Definition request_reply_kind_valid (raw : U8) : option RequestReplyKind :=
  if raw =? 1 then Some RequestReplyKind.Request
  else if raw =? 2 then Some RequestReplyKind.Response
  else if raw =? 3 then Some RequestReplyKind.Error
  else None.

Record RequestReplyFrame := mkFrame {
  rf_kind : RequestReplyKind;
  rf_request_id : U64;
  rf_type : U8;
  rf_data : ptr;
  rf_len : U16;
}.
Definition rf_bytes (f : RequestReplyFrame) : list U8 :=
  match rf_data f with
  | None => []
  | Some bs => if rf_len f =? 0 then [] else take (Z.to_nat (rf_len f)) bs
  end.

Record RequestReplyOptions := mkRROptions {
  ro_envelope_type : U8;
  ro_request_send : SendOptions;
  ro_response_send : SendOptions;
}.
Definition default_rr_options : RequestReplyOptions :=
  mkRROptions RequestReplyDefaultMessageType
    (mkSendOptions Channel.ReliableOrdered SendPriority.Normal 0)
    (mkSendOptions Channel.ReliableOrdered SendPriority.Normal 0).

(** ** Frames *)

Definition write_request_reply (kind : RequestReplyKind) (request_id : U64) (type : U8)
    (payload : list U8) : io ByteWriter unit :=
  write_u8 1;;
  write_u8 (rr_kind_value kind);;
  write_u64 request_id;;
  write_u8 type;;
  write_u16 (w16 (zlen payload));;
  (if decide (payload = []) then mret tt else write_bytes (Some payload) (zlen payload)).

(** The vector of [13 + payload.size()] bytes. *)
Definition make_request_reply_frame (kind : RequestReplyKind) (request_id : U64) (type : U8)
    (payload : list U8) : outcome (list U8) :=
  if request_id =? 0 then Err (fail_result Errc.InvalidArg "request/reply id zero is reserved")
  else if U16_MAX <? zlen payload
  then Err (fail_result Errc.TooLarge "request/reply payload too large")
  else
    let size := RequestReplyHeaderBytes + zlen payload in
    match write_request_reply kind request_id type payload
            (mkWriter (Some (zeros (Z.to_nat size))) size 0) with
    | (Done _, w) => Done (default [] (dst w))
    | (Err rc, _) => Err rc
    | (UB, _) => UB
    end.

Definition parse_request_reply : io ByteReader RequestReplyFrame :=
  version ← read_u8;
  raw_kind ← read_u8;
  request_id ← read_u64;
  type ← read_u8;
  len ← read_u16;
  if negb (version =? 1) then fail Errc.UnsupportedVersion "unsupported request/reply frame version"
  else
    match request_reply_kind_valid raw_kind with
    | None => fail Errc.BadPacket "invalid request/reply frame kind"
    | Some kind =>
        if request_id =? 0 then fail Errc.BadPacket "request/reply id zero is invalid"
        else
          r ← get;
          if negb (len =? r_remaining r)
          then fail Errc.BadPacket "request/reply payload length mismatch"
          else mret (mkFrame kind request_id type (if len =? 0 then None else peek_ptr len r) len)
    end.

Definition read_request_reply_frame (bytes : list U8) : outcome RequestReplyFrame :=
  if zlen bytes <? RequestReplyHeaderBytes
  then Err (fail_result Errc.BadPacket "truncated request/reply frame")
  else (parse_request_reply (mkReader (Some bytes) (zlen bytes) 0)).1.

Definition read_request_reply_message (envelope_type : U8) (m : MsgView) : outcome RequestReplyFrame :=
  if negb (m_type m =? envelope_type)
  then Err (fail_result Errc.ProtocolError "message is not a request/reply envelope")
  else read_request_reply_frame (msg_bytes m).

(** ** Sending *)

Section send.
Context {HN : Ntop} {HS : Sodium}.

Definition send_request (options : RequestReplyOptions) (request_id : U64) (type : U8)
    (payload : list U8) : io World unit :=
  frame ← lift (make_request_reply_frame RequestReplyKind.Request request_id type payload);
  send (ro_request_send options) (ro_envelope_type options) frame.

(** The reply, of either kind, to a peer that is bound to its server. *)
Definition send_reply (kind : RequestReplyKind) (options : RequestReplyOptions) (peer : Peer)
    (request : RequestReplyFrame) (payload : list U8) : io ServerWorld unit :=
  if negb (bool_decide (rf_kind request = RequestReplyKind.Request))
  then fail Errc.InvalidArg
         (if decide (kind = RequestReplyKind.Error) then "error response requires a request frame"
          else "response requires a request frame")
  else
    frame ← lift (make_request_reply_frame kind (rf_request_id request) (rf_type request) payload);
    srv_send peer (ro_response_send options) (ro_envelope_type options) frame.
Definition send_response : RequestReplyOptions → Peer → RequestReplyFrame → list U8 → io ServerWorld unit :=
  send_reply RequestReplyKind.Response.
Definition send_error_response : RequestReplyOptions → Peer → RequestReplyFrame → list U8 → io ServerWorld unit :=
  send_reply RequestReplyKind.Error.
End send.

(** ** The request table *)

(** [RequestIdSource::next]: the id and the counter after it. *)
Definition next_id (counter : U64) : U64 * U64 :=
  if counter =? 0 then (w64 (counter + 1), w64 (counter + 2)) else (counter, w64 (counter + 1)).
Definition reset_ids (first : U64) : U64 := if first =? 0 then 1 else first.

Inductive future_state : Type :=
  | Waiting
  | Ready (r : outcome (list U8))
  | BrokenPromise.

Record PendingRequest := mkPendingRequest {
  pr_promise : nat;
  pr_expires_at_ms : U64;
}.

Record ClientRequestTable := mkTable {
  tb_options : RequestReplyOptions;
  tb_ids : U64;
  tb_pending : gmap U64 PendingRequest;
  tb_futures : list future_state;
}.
Definition new_table (options : RequestReplyOptions) : ClientRequestTable := mkTable options 1 ∅ [].
Definition pending_count (t : ClientRequestTable) : ST := Z.of_nat (size (tb_pending t)).

Record RequestWorld := mkRequestWorld {
  rw_table : ClientRequestTable;
  rw_world : World;
}.

Definition table : io RequestWorld ClientRequestTable := λ w, (Done (rw_table w), w).
Definition set_table (f : ClientRequestTable → ClientRequestTable) : io RequestWorld unit := λ w,
  (Done tt, mkRequestWorld (f (rw_table w)) (rw_world w)).
Definition on_client {A} (m : io World A) : io RequestWorld A := λ w,
  let '(o, w') := m (rw_world w) in (o, mkRequestWorld (rw_table w) w').

Definition set_pending (f : gmap U64 PendingRequest → gmap U64 PendingRequest)
    (t : ClientRequestTable) : ClientRequestTable :=
  mkTable (tb_options t) (tb_ids t) (f (tb_pending t)) (tb_futures t).
Definition set_futures (f : list future_state → list future_state) (t : ClientRequestTable)
    : ClientRequestTable :=
  mkTable (tb_options t) (tb_ids t) (tb_pending t) (f (tb_futures t)).

(** [promise.set_value(r)] *)
Definition set_value (p : nat) (r : outcome (list U8)) : io RequestWorld unit :=
  t ← table;
  match tb_futures t !! p with
  | Some Waiting => set_table (set_futures (<[p := Ready r]>))
  | _ => undefined
  end.

(** [it->second.promise.set_value(r); _pending.erase(it);] *)
Definition resolve (id : U64) (p : PendingRequest) (r : outcome (list U8)) : io RequestWorld unit :=
  set_value (pr_promise p) r;;
  set_table (set_pending (delete id)).

(** [_pending.emplace(id, pending)]: an id that is taken keeps its entry, and the
    promise is destroyed. *)
Definition emplace (id : U64) (p : PendingRequest) : io RequestWorld unit :=
  t ← table;
  match tb_pending t !! id with
  | None => set_table (set_pending (<[id := p]>))
  | Some _ => set_table (set_futures (<[pr_promise p := BrokenPromise]>))
  end.

Section table.
Context `{Sodium}.

Definition request (type : U8) (payload : list U8) (timeout_ms : U64) : io RequestWorld nat :=
  t ← table;
  let '(id, counter) := next_id (tb_ids t) in
  set_table (λ t, mkTable (tb_options t) counter (tb_pending t) (tb_futures t));;
  frame ← lift (make_request_reply_frame RequestReplyKind.Request id type payload);
  let promise := length (tb_futures t) in
  set_table (set_futures (λ l, l ++ [Waiting]));;
  expires ← (if timeout_ms =? 0 then mret 0
             else now ← on_client (sys now_ms); mret (w64 (now + timeout_ms)));
  emplace id (mkPendingRequest promise expires);;
  rc ← attempt (on_client (send (ro_request_send (tb_options t)) (ro_envelope_type (tb_options t)) frame));
  if ok rc then mret promise
  else
    t' ← table;
    match tb_pending t' !! id with
    | Some p => resolve id p (Err rc)
    | None => mret tt
    end;;
    lift (Err rc).

Definition dispatch_reply (m : MsgView) : io RequestWorld RouteResult :=
  t ← table;
  if negb (m_type m =? ro_envelope_type (tb_options t)) then mret route_unhandled
  else
    match read_request_reply_message (ro_envelope_type (tb_options t)) m with
    | UB => undefined
    | Err rc => mret (mkRoute true rc)
    | Done frame =>
        if decide (rf_kind frame = RequestReplyKind.Request) then mret route_unhandled
        else
          match tb_pending t !! rf_request_id frame with
          | None => mret (route_fail Errc.ProtocolError "response for unknown request id")
          | Some p =>
              resolve (rf_request_id frame) p
                (if decide (rf_kind frame = RequestReplyKind.Error)
                 then Err (fail_result Errc.ProtocolError "remote request error")
                 else Done (rf_bytes frame));;
              mret route_success
          end
    end.
End table.

(** The loop of [expire] over the entries, whose promises are distinct, so that
    the order of the hash table does not matter. *)
Definition expired_request (now : U64) (p : PendingRequest) : bool :=
  negb (pr_expires_at_ms p =? 0) && (pr_expires_at_ms p <=? now).
Fixpoint expire_requests (entries : list (U64 * PendingRequest)) (now : U64) (expired : ST)
    : io RequestWorld ST :=
  match entries with
  | [] => mret expired
  | (id, p) :: rest =>
      if expired_request now p then
        resolve id p (Err (fail_result Errc.Timeout "request timed out"));;
        expire_requests rest now (w64 (expired + 1))
      else expire_requests rest now expired
  end.
Definition expire (now : U64) : io RequestWorld ST :=
  t ← table; expire_requests (map_to_list (tb_pending t)) now 0.

Fixpoint cancel_entries (entries : list (U64 * PendingRequest)) (rc : Result) : io RequestWorld unit :=
  match entries with
  | [] => mret tt
  | (_, p) :: rest => set_value (pr_promise p) (Err rc);; cancel_entries rest rc
  end.
Definition cancel_all (c : Errc) (m : string) : io RequestWorld unit :=
  t ← table;
  cancel_entries (map_to_list (tb_pending t)) (fail_result c m);;
  set_table (set_pending (λ _, ∅)).

(** ** Frames: specification *)

Definition enc_reply (kind : RequestReplyKind) (id : U64) (type : U8) (payload : list U8) : list U8 :=
  be 1 1 ++ be 1 (rr_kind_value kind) ++ be 8 id ++ be 1 type ++ be 2 (zlen payload) ++ payload.
Definition reply_valid (id : U64) (type : U8) (payload : list U8) : Prop :=
  is_u64 id ∧ id ≠ 0 ∧ is_u8 type ∧ bytes_ok payload ∧ zlen payload <= U16_MAX.

Lemma rr_kind_range k : is_u8 (rr_kind_value k).
Proof. by destruct k. Qed.
Lemma rr_kind_valid k : request_reply_kind_valid (rr_kind_value k) = Some k.
Proof. by destruct k. Qed.
Lemma rr_kind_inv raw k : request_reply_kind_valid raw = Some k → raw = rr_kind_value k.
Proof.
  unfold request_reply_kind_valid. zcases; naive_solver.
Qed.

Lemma make_frame_done kind id type payload :
  reply_valid id type payload →
  make_request_reply_frame kind id type payload = Done (enc_reply kind id type payload).
Proof.
  intros (Hid & Hid0 & Ht & Hp & Hl). unfold make_request_reply_frame. cbv zeta.
  rewrite (proj2 (Z.eqb_neq _ _) Hid0), (proj2 (Z.ltb_ge _ _)) by lia.
  set (room := zeros _). assert (zlen room = 13 + zlen payload) as Hroom.
  { unfold room, zeros, RequestReplyHeaderBytes. rewrite length_replicate. lia. }
  change (mkWriter (Some room) (RequestReplyHeaderBytes + zlen payload) 0) with
    (mkWriter (Some ([] ++ room)) (13 + zlen payload) 0). rewrite <- Hroom.
  change (mkWriter _ _ 0) with (writer_at [] room).
  unfold write_request_reply. rewrite w16_id by ulia. assert (is_u16 (zlen payload)) by ulia.
  pose proof (rr_kind_range kind). do 5 wput.
  assert (∀ out rest, (length payload <= length rest)%nat →
    (if decide (payload = []) then mret tt else write_bytes (Some payload) (zlen payload))
      (writer_at out rest) = (Done tt, writer_at (out ++ payload) (drop (length payload) rest))) as Hbytes.
  { intros out rest Hr. case_decide as Hn; [subst payload; by rewrite app_nil_r|].
    apply write_bytes_at; lia. }
  rewrite Hbytes by wire_side. cbn [dst writer_at default]. f_equal. unfold enc_reply.
  rewrite !drop_drop, !length_be. rewrite (drop_ge room) by lia. by rewrite app_nil_r, <- !app_assoc.
Qed.

Lemma parse_reply kind id type payload :
  reply_valid id type payload →
  read_request_reply_frame (enc_reply kind id type payload) =
    Done (mkFrame kind id type (data_of payload) (zlen payload)).
Proof.
  intros (Hid & Hid0 & Ht & Hp & Hl). unfold read_request_reply_frame.
  assert (zlen (enc_reply kind id type payload) = 13 + zlen payload) as Hlen.
  { unfold enc_reply. rewrite !length_app, !length_be. lia. }
  rewrite (proj2 (Z.ltb_ge _ _)) by (unfold RequestReplyHeaderBytes; lia).
  change (mkReader _ _ 0) with (reader_at [] (enc_reply kind id type payload)).
  unfold parse_request_reply, enc_reply. assert (is_u16 (zlen payload)) by ulia.
  pose proof (rr_kind_range kind). do 5 wget. rewrite rr_kind_valid. cbn [Z.eqb Pos.eqb negb].
  rewrite (proj2 (Z.eqb_neq _ _) Hid0). erewrite bind_done by reflexivity.
  rewrite r_remaining_at, Z.eqb_refl. cbn [negb]. unfold mret, io_ret. cbn [fst].
  by rewrite peek_data_all.
Qed.

Lemma parse_reply_inv bs f :
  bytes_ok bs → read_request_reply_frame bs = Done f →
  ∃ payload, bs = enc_reply (rf_kind f) (rf_request_id f) (rf_type f) payload ∧
    reply_valid (rf_request_id f) (rf_type f) payload ∧
    f = mkFrame (rf_kind f) (rf_request_id f) (rf_type f) (data_of payload) (zlen payload).
Proof.
  intros Hok. unfold read_request_reply_frame. destruct (_ <? _); [done|].
  change (mkReader _ _ 0) with (reader_at [] bs).
  destruct (parse_request_reply (reader_at [] bs)) as [o r'] eqn:H. cbn [fst]. intros ->.
  unfold parse_request_reply in H. do 5 wcanon H Hok.
  destruct (Z.eqb_spec a 1) as [->|]; [cbn [negb] in H|done].
  destruct (request_reply_kind_valid a0) as [k|] eqn:Hk; [|done]. apply rr_kind_inv in Hk as ->.
  destruct (Z.eqb_spec a1 0); [done|]. erewrite bind_done in H by reflexivity.
  rewrite r_remaining_at in H. destruct (Z.eqb_spec a3 (zlen x)) as [->|]; [cbn [negb] in H|done].
  unfold mret, io_ret in H. rewrite peek_data_all in H. simplify_eq H. intros <- <-.
  exists x. cbn [rf_kind rf_request_id rf_type]. split; [done|]. split; [|done]. split_and!; [done..|ulia].
Qed.

#[global] Instance parse_request_reply_safe : ReaderSafe parse_request_reply.
Proof.
  unfold parse_request_reply. do 5 (apply reader_safe_bind; [apply _|intros ?]).
  apply reader_safe_if; [apply _|]. destruct (request_reply_kind_valid _); apply _.
Qed.

(** ** The table: invariant *)

(** A future waits exactly when one request of the table holds its promise. *)
Record table_ok (t : ClientRequestTable) : Prop := {
  to_pending id p : tb_pending t !! id = Some p → id ≠ 0 ∧ tb_futures t !! pr_promise p = Some Waiting;
  to_waiting n : tb_futures t !! n = Some Waiting →
    ∃ id p, tb_pending t !! id = Some p ∧ pr_promise p = n;
  to_distinct i p j q : tb_pending t !! i = Some p → tb_pending t !! j = Some q →
    pr_promise p = pr_promise q → i = j;
  to_ids : is_u64 (tb_ids t);
}.

Definition resolved (id : U64) (p : PendingRequest) (r : outcome (list U8)) (t : ClientRequestTable)
    : ClientRequestTable :=
  set_pending (delete id) (set_futures (<[pr_promise p := Ready r]>) t).

Lemma resolve_done id p r w :
  table_ok (rw_table w) → tb_pending (rw_table w) !! id = Some p →
  resolve id p r w = (Done tt, mkRequestWorld (resolved id p r (rw_table w)) (rw_world w)).
Proof.
  intros Hok Hp. unfold resolve, set_value, mbind, io_bind, table.
  by rewrite (proj2 (to_pending _ Hok _ _ Hp)).
Qed.

Lemma resolved_ok id p r t : table_ok t → tb_pending t !! id = Some p → table_ok (resolved id p r t).
Proof.
  intros Hok Hp. pose proof (to_pending _ Hok _ _ Hp) as [_ Hw].
  assert (pr_promise p < length (tb_futures t))%nat as Hlt by (by eapply lookup_lt_Some).
  split; cbn.
  - intros id' q [Hne Hq]%lookup_delete_Some. destruct (to_pending _ Hok _ _ Hq) as [H0 Hwq]. split; [done|].
    rewrite list_lookup_insert_ne; [done|]. intros Heq. apply Hne. by eapply (to_distinct _ Hok).
  - intros n. destruct (decide (n = pr_promise p)) as [->|Hne].
    + by rewrite list_lookup_insert_eq.
    + rewrite list_lookup_insert_ne by done. intros Hn. destruct (to_waiting _ Hok _ Hn) as (i & q & Hq & Hqn).
      exists i, q. split; [|done]. apply lookup_delete_Some. split; [|done]. intros ->. congruence.
  - intros i q j q' [_ Hi]%lookup_delete_Some [_ Hj]%lookup_delete_Some. by eapply (to_distinct _ Hok).
  - apply Hok.
Qed.

Lemma new_table_ok options : table_ok (new_table options).
Proof. split; cbn; [done..|ulia]. Qed.

(** ** Expiry *)

Definition timeout_result : outcome (list U8) := Err (fail_result Errc.Timeout "request timed out").

Definition expire_step (now : U64) (t : ClientRequestTable) (e : U64 * PendingRequest)
    : ClientRequestTable :=
  if expired_request now e.2 then resolved e.1 e.2 timeout_result t else t.

Definition listed (entries : list (U64 * PendingRequest)) (t : ClientRequestTable) : Prop :=
  NoDup entries.*1 ∧ ∀ id p, (id, p) ∈ entries → tb_pending t !! id = Some p.

Lemma listed_step now id p rest t : listed ((id, p) :: rest) t → listed rest (expire_step now t (id, p)).
Proof.
  intros [[Hn Hd]%NoDup_cons Hin]. split; [done|]. intros j q Hj. unfold expire_step. cbn [fst snd].
  assert (j ≠ id) by (intros ->; apply Hn, list_elem_of_fmap; by exists (id, q)).
  case_match; [|apply Hin; by right]. cbn. rewrite lookup_delete_ne by done. apply Hin. by right.
Qed.

Lemma expire_step_ok now id p rest t : table_ok t → listed ((id, p) :: rest) t → table_ok (expire_step now t (id, p)).
Proof.
  intros Hok [_ Hin]. unfold expire_step. cbn [fst snd]. case_match; [|done].
  apply resolved_ok; [done|]. apply Hin. by left.
Qed.

Lemma expire_requests_done now entries n w :
  table_ok (rw_table w) → listed entries (rw_table w) →
  expire_requests entries now (w64 n) w =
    (Done (w64 (n + zlen (filter (λ e, expired_request now e.2 = true) entries))),
     mkRequestWorld (foldl (expire_step now) (rw_table w) entries) (rw_world w)).
Proof.
  revert n w. induction entries as [|[id p] rest IH]; intros n w Hok Hl; cbn [expire_requests foldl].
  { cbn. by rewrite Z.add_0_r; destruct w. }
  pose proof (listed_step now id p rest _ Hl) as Hl'. pose proof (expire_step_ok now id p rest _ Hok Hl) as Hok'.
  rewrite filter_cons. unfold expire_step in Hl', Hok' |- * at 2. cbn [fst snd] in *.
  destruct (expired_request now p) eqn:He.
  - erewrite bind_done by (apply resolve_done; [done|apply Hl; by left]).
    replace (w64 (w64 n + 1)) with (w64 (n + 1)) by (unfold w64; by rewrite Zplus_mod_idemp_l).
    rewrite IH by done. cbn [rw_table rw_world]. rewrite decide_True by done. do 3 f_equal. cbn [length]. lia.
  - rewrite IH by done. by rewrite decide_False by congruence.
Qed.

(** What the loop does to the table. *)
Lemma expire_fold now entries t :
  table_ok t → listed entries t →
  let t' := foldl (expire_step now) t entries in
  table_ok t' ∧
  (∀ id p, tb_pending t !! id = Some p → expired_request now p = false → tb_pending t' !! id = Some p) ∧
  (∀ id p, tb_pending t' !! id = Some p → tb_pending t !! id = Some p) ∧
  (∀ n, tb_futures t !! n ≠ Some Waiting → tb_futures t' !! n = tb_futures t !! n) ∧
  (∀ id p, (id, p) ∈ entries → expired_request now p = true →
     tb_pending t' !! id = None ∧ tb_futures t' !! pr_promise p = Some (Ready timeout_result)).
Proof.
  revert t. induction entries as [|[id p] rest IH]; intros t Hok Hl; cbn [foldl].
  { split_and!; [done..|]. by intros id p ?%elem_of_nil. }
  destruct (IH _ (expire_step_ok now id p rest _ Hok Hl) (listed_step now id p rest _ Hl))
    as (Hok' & Hkeep & Hfrom & Hset & Hexp). clear IH.
  assert (tb_pending t !! id = Some p) as Hp by (apply Hl; by left).
  assert (expire_step now t (id, p) = if expired_request now p then resolved id p timeout_result t else t)
    as Hs by done. destruct (expired_request now p) eqn:He; rewrite Hs in *; clear Hs.
  - assert (pr_promise p < length (tb_futures t))%nat as Hlt
      by (apply lookup_lt_is_Some; rewrite (proj2 (to_pending _ Hok _ _ Hp)); by eexists).
    split_and!; [done|..].
    + intros j q Hq Hqe. apply Hkeep; [|done]. cbn. rewrite lookup_delete_ne; [done|]. intros ->. congruence.
    + intros j q Hq. apply Hfrom in Hq. cbn in Hq. by apply lookup_delete_Some in Hq as [_ ?].
    + intros n Hn. assert (n ≠ pr_promise p) by (intros ->; by rewrite (proj2 (to_pending _ Hok _ _ Hp)) in Hn).
      rewrite Hset; cbn; by rewrite list_lookup_insert_ne.
    + intros j q [[= -> ->]|Hq]%elem_of_cons Hqe; [|by apply Hexp].
      split.
      * destruct (tb_pending (foldl _ _ _) !! id) as [q|] eqn:Hq; [|done].
        apply Hfrom in Hq. cbn in Hq. by rewrite lookup_delete_eq in Hq.
      * rewrite Hset; cbn; by rewrite list_lookup_insert_eq.
  - split_and!; [done..|]. intros j q [[= -> ->]|Hq]%elem_of_cons Hqe; [congruence|by apply Hexp].
Qed.

Lemma listed_all t : listed (map_to_list (tb_pending t)) t.
Proof. split; [apply NoDup_fst_map_to_list|]. intros. by apply elem_of_map_to_list. Qed.

(** ** Cancellation *)

Lemma cancel_entries_done entries rc w :
  NoDup (pr_promise <$> entries.*2) →
  (∀ id p, (id, p) ∈ entries → tb_futures (rw_table w) !! pr_promise p = Some Waiting) →
  ∃ l, cancel_entries entries rc w =
         (Done tt, mkRequestWorld (set_futures (λ _, l) (rw_table w)) (rw_world w)) ∧
    (∀ n, n ∉ (pr_promise <$> entries.*2) → l !! n = tb_futures (rw_table w) !! n) ∧
    (∀ n, n ∈ (pr_promise <$> entries.*2) → l !! n = Some (Ready (Err rc))).
Proof.
  revert w. induction entries as [|[id p] rest IH]; intros w Hnd Hw; cbn [cancel_entries].
  { exists (tb_futures (rw_table w)). split_and!; [by destruct w as [[] ?]|done|by intros n ?%elem_of_nil]. }
  rewrite !fmap_cons in Hnd |- *. cbn [snd] in *. apply NoDup_cons in Hnd as [Hn Hnd].
  assert (tb_futures (rw_table w) !! pr_promise p = Some Waiting) as Hp by (apply (Hw id); by left).
  assert (pr_promise p < length (tb_futures (rw_table w)))%nat as Hlt by (by eapply lookup_lt_Some).
  set (w1 := mkRequestWorld (set_futures (<[pr_promise p := Ready (Err rc)]>) (rw_table w)) (rw_world w)).
  assert (set_value (pr_promise p) (Err rc) w = (Done tt, w1)) as Hset.
  { unfold set_value, mbind, io_bind, table. by rewrite Hp. }
  rewrite (bind_done _ _ _ _ _ Hset). destruct (IH w1 Hnd) as (l & Hl & Hout & Hin).
  { intros j q Hq. cbn. rewrite list_lookup_insert_ne; [apply (Hw j); by right|].
    intros Heq. apply Hn. rewrite Heq. apply list_elem_of_fmap. exists q. split; [done|].
    apply list_elem_of_fmap. by exists (j, q). }
  exists l. split; [exact Hl|]. split.
  - intros n [Hne Hnr]%not_elem_of_cons. rewrite Hout by done. cbn. by rewrite list_lookup_insert_ne.
  - intros n [->|Hnr]%elem_of_cons; [|by apply Hin]. rewrite Hout by done. cbn. by rewrite list_lookup_insert_eq.
Qed.

Lemma promises_distinct t : table_ok t → NoDup (pr_promise <$> (map_to_list (tb_pending t)).*2).
Proof.
  intros Hok. rewrite <- list_fmap_compose. apply NoDup_fmap_2_strong; [|apply NoDup_map_to_list].
  intros [i p] [j q] Hi%elem_of_map_to_list Hj%elem_of_map_to_list Heq. cbn in Heq.
  assert (i = j) by (by eapply (to_distinct _ Hok)). subst j. congruence.
Qed.

Lemma cancel_all_done c m w :
  table_ok (rw_table w) →
  ∃ t', cancel_all c m w = (Done tt, mkRequestWorld t' (rw_world w)) ∧ table_ok t' ∧ tb_pending t' = ∅ ∧
    ∀ n, tb_futures t' !! n ≠ Some Waiting.
Proof.
  intros Hok. destruct (cancel_entries_done (map_to_list (tb_pending (rw_table w))) (fail_result c m) w)
    as (l & Hl & Hout & Hin); [by apply promises_distinct| |].
  { intros id p Hp%elem_of_map_to_list. apply (to_pending _ Hok _ _ Hp). }
  unfold cancel_all. erewrite bind_done by reflexivity. rewrite (bind_done _ _ _ _ _ Hl).
  eexists. split; [done|].
  assert (∀ n, l !! n ≠ Some Waiting) as Hnone.
  { intros n Hn. destruct (decide (n ∈ pr_promise <$> (map_to_list (tb_pending (rw_table w))).*2)) as [Hi|Ho].
    - by rewrite Hin in Hn.
    - rewrite Hout in Hn by done. destruct (to_waiting _ Hok _ Hn) as (id & p & Hp & <-). apply Ho.
      apply list_elem_of_fmap. exists p. split; [done|]. apply list_elem_of_fmap. exists (id, p).
      split; [done|]. by apply elem_of_map_to_list. }
  split; [|done]. split; cbn; try done.
  - intros n Hn. by apply Hnone in Hn.
  - apply Hok.
Qed.

(** ** Requests *)

Lemma next_id_ok counter :
  is_u64 counter → (next_id counter).1 ≠ 0 ∧ is_u64 (next_id counter).1 ∧ is_u64 (next_id counter).2.
Proof.
  intros Hc. unfold next_id. destruct (Z.eqb_spec counter 0) as [->|]; cbn [fst snd].
  - done.
  - split_and!; [done|done|apply w64_range].
Qed.

Lemma make_frame_safe kind id type payload : make_request_reply_frame kind id type payload ≠ UB.
Proof.
  unfold make_request_reply_frame. destruct (_ =? _); [done|]. destruct (_ <? _); [done|]. cbv zeta.
  assert (WriterSafe (write_request_reply kind id type payload)) as Hs.
  { unfold write_request_reply. do 5 (apply writer_safe_bind; [apply _|intros _]).
    case_decide; [apply _|]. apply write_bytes_safe. lia. }
  match goal with |- context [write_request_reply _ _ _ _ ?w] => assert (writer_wf w) as Hw end.
  { split; cbn; [unfold RequestReplyHeaderBytes; lia|]. unfold zeros. rewrite length_replicate.
    unfold RequestReplyHeaderBytes. lia. }
  destruct (Hs _ Hw) as [Hub _]. destruct (write_request_reply _ _ _ _ _) as [[a|rc|] w']; done.
Qed.

(** The table after a request was registered under a fresh id, or one in use. *)
Definition registered_request (id : U64) (expires : U64) (t : ClientRequestTable) : ClientRequestTable :=
  match tb_pending t !! id with
  | None => set_pending (<[id := mkPendingRequest (length (tb_futures t)) expires]>)
              (set_futures (λ l, l ++ [Waiting]) t)
  | Some _ => set_futures (λ l, l ++ [BrokenPromise]) t
  end.

Lemma lookup_snoc_Some {A} (l : list A) x n y :
  (l ++ [x]) !! n = Some y ↔ l !! n = Some y ∨ (n = length l ∧ x = y).
Proof.
  rewrite lookup_app_Some. rewrite list_lookup_singleton_Some. split.
  - intros [?|(? & ? & ?)]; [by left|right]. split; [lia|done].
  - intros [?|[-> ->]]; [by left|right]. split_and!; [lia|lia|done].
Qed.

Lemma registered_ok id expires t : table_ok t → id ≠ 0 → table_ok (registered_request id expires t).
Proof.
  intros Hok Hid. unfold registered_request. destruct (tb_pending t !! id) as [q|] eqn:Hq; split; cbn.
  - intros j p Hp. destruct (to_pending _ Hok _ _ Hp). split; [done|]. apply lookup_snoc_Some. by left.
  - intros n [Hn|[_ ?]]%lookup_snoc_Some; [|done]. by apply Hok.
  - apply Hok.
  - apply Hok.
  - intros j p [[<- <-]|[Hne Hp]]%lookup_insert_Some; cbn [pr_promise].
    + split; [done|]. apply lookup_snoc_Some. by right.
    + destruct (to_pending _ Hok _ _ Hp). split; [done|]. apply lookup_snoc_Some. by left.
  - intros n [Hn|[-> _]]%lookup_snoc_Some.
    + destruct (to_waiting _ Hok _ Hn) as (j & p & Hp & Hpn). exists j, p. split; [|done].
      rewrite lookup_insert_ne; [done|]. congruence.
    + exists id. eexists. split; [apply lookup_insert_eq|done].
  - assert (∀ j p, tb_pending t !! j = Some p → pr_promise p ≠ length (tb_futures t)) as Hfresh.
    { intros j p Hp Heq. apply (to_pending _ Hok) in Hp as [_ Hp]. apply lookup_lt_Some in Hp. lia. }
    intros i p j p' [[<- <-]|[Hne Hp]]%lookup_insert_Some [[<- <-]|[Hne' Hp']]%lookup_insert_Some;
      cbn [pr_promise]; [done|intros Heq; by destruct (Hfresh _ _ Hp')|intros Heq; by destruct (Hfresh _ _ Hp)|].
    by apply (to_distinct _ Hok).
  - apply Hok.
Qed.

(** ** Runs *)

Inductive request_op : Type :=
  | ReqRequest (type : U8) (payload : list U8) (timeout_ms : U64)
  | ReqDispatch (m : MsgView)
  | ReqExpire (now : U64)
  | ReqCancelAll (c : Errc) (m : string)
  | ReqClient (op : client_op).

Section runs.
Context {HS : Sodium}.

Definition run_request (op : request_op) : io RequestWorld unit :=
  match op with
  | ReqRequest type payload timeout => request type payload timeout;; mret tt
  | ReqDispatch m => dispatch_reply m;; mret tt
  | ReqExpire now => expire now;; mret tt
  | ReqCancelAll c m => cancel_all c m
  | ReqClient op => on_client (run_op op)
  end.

(** A table and the client it sends through, from their construction. *)
Inductive request_reachable (cfg : ClientConfig) : RequestWorld → Prop :=
  | QReachNew options w : reachable cfg w → request_reachable cfg (mkRequestWorld (new_table options) w)
  | QReachNet w net :
      request_reachable cfg w →
      request_reachable cfg (mkRequestWorld (rw_table w)
        (mkWorld (w_client (rw_world w)) net (w_events (rw_world w))))
  | QReachOp w op : request_reachable cfg w → request_reachable cfg (run_request op w).2.
End runs.

Section safety.
Context {HS : Sodium} {HL : SodiumLaws} (cfg : ClientConfig) (Hu : client_usable cfg).

Definition RInv (w : RequestWorld) : Prop := table_ok (rw_table w) ∧ reachable cfg (rw_world w).

Lemma run_op_wp op w :
  reachable cfg w → (run_op op w).1 ≠ UB ∧ reachable cfg (run_op op w).2.
Proof.
  intros Hw. destruct (reachable_inv cfg w Hu Hw) as [k Hk]. split; [|by apply ReachOp].
  pose proof (run_op_safe k op w Hk) as Hr. unfold wp in Hr. by destruct (run_op op w) as [[a|rc|] w'].
Qed.

Lemma on_client_safe op : Safe RInv (on_client (run_op op)).
Proof.
  intros w [Ht Hw]. destruct (run_op_wp op (rw_world w) Hw) as [Hub Hr]. unfold wp, on_client.
  by destruct (run_op op (rw_world w)) as [[a|rc|] w'].
Qed.

Lemma resolve_safe id p r w (Q : unit → RequestWorld → Prop) :
  RInv w → tb_pending (rw_table w) !! id = Some p → (∀ w', RInv w' → Q tt w') →
  wp RInv (resolve id p r) w Q.
Proof.
  intros [Ht Hw] Hp HQ. unfold wp. rewrite resolve_done by done. apply HQ. split; [|done]. by apply resolved_ok.
Qed.

(** Registration: no state in between is observed. *)
Lemma register_request_wp id expires w E (Q : unit → RequestWorld → Prop) :
  Q tt (mkRequestWorld (registered_request id expires (rw_table w)) (rw_world w)) →
  wp E (emplace id (mkPendingRequest (length (tb_futures (rw_table w))) expires))
    (mkRequestWorld (set_futures (λ l, l ++ [Waiting]) (rw_table w)) (rw_world w)) Q.
Proof.
  unfold wp, emplace, registered_request, mbind, io_bind, table. cbn [rw_table tb_pending set_futures].
  destruct (tb_pending (rw_table w) !! id) as [q|]; [|done]. unfold set_table, set_futures. cbn.
  by rewrite insert_app_r_alt, Nat.sub_diag by lia.
Qed.

Lemma wp_table E w (Q : ClientRequestTable → RequestWorld → Prop) : Q (rw_table w) w → wp E table w Q.
Proof. done. Qed.
Lemma wp_set_table E f w (Q : unit → RequestWorld → Prop) :
  Q tt (mkRequestWorld (f (rw_table w)) (rw_world w)) → wp E (set_table f) w Q.
Proof. done. Qed.
Lemma wp_clock E w (Q : U64 → RequestWorld → Prop) :
  (∀ now net, Q now (mkRequestWorld (rw_table w)
     (mkWorld (w_client (rw_world w)) net (w_events (rw_world w))))) →
  wp E (on_client (sys now_ms)) w Q.
Proof.
  intros HQ. unfold wp, on_client, sys, now_ms. destruct (n_clock (w_net (rw_world w))); apply HQ.
Qed.

Lemma send_registered_safe id type options frame (promise : nat) w :
  RInv w → wp RInv
    (rc ← attempt (on_client (send options type frame));
     if ok rc then mret promise
     else
       t' ← table;
       match tb_pending t' !! id with Some p => resolve id p (Err rc) | None => mret tt end;;
       lift (Err rc)) w (λ _, RInv).
Proof.
  intros Hw. apply wp_bind. eapply (wp_attempt RInv);
    [apply (on_client_safe (OpSend options type frame))|done|].
  intros rc w1 Hw1. destruct (ok rc); [done|]. apply wp_bind, wp_table, wp_bind.
  destruct (tb_pending (rw_table w1) !! id) as [p|] eqn:Hp; [|done].
  eapply resolve_safe; [done|done|]. by intros w2 Hw2.
Qed.

Lemma request_safe type payload timeout : Safe RInv (request type payload timeout).
Proof.
  intros w [Ht Hw]. unfold request. apply wp_bind, wp_table.
  destruct (next_id_ok _ (to_ids _ Ht)) as (Hid & _ & Hc).
  destruct (next_id (tb_ids (rw_table w))) as [id counter]. cbn [fst snd] in *.
  apply wp_bind, wp_set_table. set (t0 := mkTable _ counter _ _).
  assert (table_ok t0) as Ht0 by (by destruct Ht).
  apply wp_bind, wp_lift; [apply make_frame_safe| |by intros].
  intros frame _. cbv zeta. apply wp_bind, wp_set_table. apply wp_bind.
  change (length (tb_futures (rw_table w))) with (length (tb_futures t0)).
  assert (∀ expires net, wp RInv
    (emplace id (mkPendingRequest (length (tb_futures t0)) expires);;
     rc ← attempt (on_client (send (ro_request_send (tb_options (rw_table w)))
            (ro_envelope_type (tb_options (rw_table w))) frame));
     if ok rc then mret (length (tb_futures t0))
     else
       t' ← table;
       match tb_pending t' !! id with Some p => resolve id p (Err rc) | None => mret tt end;;
       lift (Err rc))
    (mkRequestWorld (set_futures (λ l, l ++ [Waiting]) t0)
       (mkWorld (w_client (rw_world w)) net (w_events (rw_world w)))) (λ _, RInv)) as Hmain.
  { intros expires net. apply wp_bind.
    apply (register_request_wp id expires (mkRequestWorld t0 _)). apply send_registered_safe.
    split; [by apply registered_ok|by apply ReachNet]. }
  cbn [rw_table rw_world]. destruct (timeout =? 0).
  - apply wp_ret. specialize (Hmain 0 (w_net (rw_world w))). by destruct (rw_world w).
  - apply wp_bind, wp_clock. intros now net. apply wp_ret. apply Hmain.
Qed.

Lemma dispatch_reply_safe m : Safe RInv (dispatch_reply m).
Proof.
  intros w Hw. unfold dispatch_reply. apply wp_bind, wp_table. destruct (negb _); [done|].
  destruct (read_request_reply_message _ m) as [f|rc|] eqn:Hread; [|done|].
  - case_decide; [done|]. destruct (tb_pending _ !! _) as [p|] eqn:Hp; [|done].
    apply wp_bind. eapply resolve_safe; [done|done|]. by intros w2 Hw2.
  - exfalso. unfold read_request_reply_message in Hread. destruct (negb _); [done|].
    unfold read_request_reply_frame in Hread. destruct (_ <? _); [done|].
    destruct (reader_safe (m:=parse_request_reply) (reader_at [] (msg_bytes m)) (reader_wf_at _ _)) as [Hub _].
    by apply Hub.
Qed.

Lemma run_request_safe op : Safe RInv (run_request op).
Proof.
  destruct op; cbn [run_request].
  - apply safe_bind; [apply request_safe|intros; apply safe_ret].
  - apply safe_bind; [apply dispatch_reply_safe|intros; apply safe_ret].
  - apply safe_bind; [|intros; apply safe_ret]. intros w [Ht Hw]. unfold expire. apply wp_bind, wp_table. unfold wp.
    change 0 with (w64 0). rewrite expire_requests_done by (done || apply listed_all).
    split; [|done]. apply expire_fold; [done|apply listed_all].
  - intros w [Ht Hw]. destruct (cancel_all_done c m w Ht) as (t' & Heq & Ht' & _). unfold wp. by rewrite Heq.
  - apply on_client_safe.
Qed.

Lemma request_reachable_inv w : request_reachable cfg w → RInv w.
Proof.
  induction 1 as [options w Hw|w net _ [Ht Hw]|w op _ IH].
  - split; [apply new_table_ok|done].
  - split; [done|by apply ReachNet].
  - pose proof (run_request_safe op w IH) as Hr. unfold wp in Hr. by destruct (run_request op w) as [[a|rc|] w'].
Qed.
End safety.

(** ** Theorems *)

Section theorems.
Context {HS : Sodium} {HL : SodiumLaws} (cfg : ClientConfig).

(** C34: over any sequence of requests, replies, expiries, cancellations and uses of
    the client, no promise is set twice and nothing is undefined; a future waits
    exactly when one pending request, under a non-zero id, holds its promise, and
    no two requests hold the same one; after [cancel_all] no future waits. *)
Theorem requests_resolve_once w op :
  client_usable cfg → request_reachable cfg w →
  (run_request op w).1 ≠ UB ∧
  (∀ n, tb_futures (rw_table w) !! n = Some Waiting ↔
     ∃ id p, tb_pending (rw_table w) !! id = Some p ∧ pr_promise p = n ∧ id ≠ 0) ∧
  (∀ i p j q, tb_pending (rw_table w) !! i = Some p → tb_pending (rw_table w) !! j = Some q →
     pr_promise p = pr_promise q → i = j) ∧
  (∀ c m n, tb_futures (rw_table (cancel_all c m w).2) !! n ≠ Some Waiting).
Proof.
  intros Hu Hw. pose proof (request_reachable_inv cfg Hu w Hw) as Hinv. destruct Hinv as [Ht Hr]. split_and!.
  - pose proof (run_request_safe cfg Hu op w (conj Ht Hr)) as Hs. unfold wp in Hs.
    by destruct (run_request op w) as [[a|rc|] w'].
  - intros n. split.
    + intros Hn. destruct (to_waiting _ Ht _ Hn) as (id & p & Hp & Hpn). exists id, p.
      split_and!; [done|done|]. apply (to_pending _ Ht _ _ Hp).
    + intros (id & p & Hp & <- & _). apply (to_pending _ Ht _ _ Hp).
  - apply Ht.
  - intros c m. destruct (cancel_all_done c m w Ht) as (t' & -> & _ & _ & Hnone). exact Hnone.
Qed.

(** C35: the reply that the peer makes for a pending request settles that request
    and no other: a response gives its future the payload, an error reply a
    failure; the entry is freed, the other futures and the client are untouched;
    a reply for an id that is not pending is refused and changes nothing. *)
Theorem reply_settles_request w ch id type payload kind :
  client_usable cfg → request_reachable cfg w →
  reply_valid id type payload → kind ≠ RequestReplyKind.Request →
  let t := rw_table w in
  let m bytes := msg_view ch (ro_envelope_type (tb_options t)) bytes in
  ∃ bytes, make_request_reply_frame kind id type payload = Done bytes ∧
    match tb_pending t !! id with
    | None => dispatch_reply (m bytes) w =
        (Done (route_fail Errc.ProtocolError "response for unknown request id"), w)
    | Some p => ∃ t', dispatch_reply (m bytes) w = (Done route_success, mkRequestWorld t' (rw_world w)) ∧
        tb_pending t' = delete id (tb_pending t) ∧
        tb_futures t' !! pr_promise p =
          Some (Ready (if decide (kind = RequestReplyKind.Error)
                       then Err (fail_result Errc.ProtocolError "remote request error") else Done payload)) ∧
        (∀ n, n ≠ pr_promise p → tb_futures t' !! n = tb_futures t !! n)
    end.
Proof.
  intros Hu Hw Hv Hk t m. destruct (request_reachable_inv cfg Hu w Hw) as [Ht _]. fold t in Ht.
  exists (enc_reply kind id type payload). split; [by apply make_frame_done|].
  assert (msg_bytes (m (enc_reply kind id type payload)) = enc_reply kind id type payload) as Hbytes
    by apply data_of_bytes.
  assert (∀ w', dispatch_reply (m (enc_reply kind id type payload)) w = w' ↔
    match tb_pending t !! id with
    | None => (Done (route_fail Errc.ProtocolError "response for unknown request id"), w)
    | Some p => (resolve id p (if decide (kind = RequestReplyKind.Error)
                  then Err (fail_result Errc.ProtocolError "remote request error") else Done payload);;
                 mret route_success) w
    end = w') as Hd.
  { intros w'. unfold dispatch_reply. rewrite (bind_done table _ _ t w) by done.
    unfold read_request_reply_message. cbn [m m_type msg_view]. rewrite Z.eqb_refl. cbn [negb].
    fold (m (enc_reply kind id type payload)). rewrite Hbytes, parse_reply by done.
    cbn [rf_kind rf_request_id]. rewrite decide_False by done.
    replace (rf_bytes _) with payload by (symmetry; apply (data_of_bytes Channel.Unreliable 0)).
    by destruct (tb_pending t !! id). }
  destruct (tb_pending t !! id) as [p|] eqn:Hp; [|by apply Hd].
  eexists. split; [apply Hd; by rewrite (bind_done _ _ _ _ _ (resolve_done id p _ w Ht Hp))|].
  assert (pr_promise p < length (tb_futures t))%nat as Hlt
    by (apply lookup_lt_is_Some; rewrite (proj2 (to_pending _ Ht _ _ Hp)); by eexists).
  split; [done|]. cbn. split; [by rewrite list_lookup_insert_eq|]. intros n Hn. by rewrite list_lookup_insert_ne.
Qed.

(** Expiry fails exactly the requests whose deadline has passed, with a
    timeout, and counts them; the others, and the client, are untouched. *)
Theorem expire_exact w now :
  client_usable cfg → request_reachable cfg w →
  let t := rw_table w in
  ∃ t', expire now w =
      (Done (w64 (zlen (filter (λ e, expired_request now e.2 = true) (map_to_list (tb_pending t))))),
       mkRequestWorld t' (rw_world w)) ∧
    tb_pending t' = filter (λ e, expired_request now e.2 = false) (tb_pending t) ∧
    (∀ id p, tb_pending t !! id = Some p →
       tb_futures t' !! pr_promise p =
         Some (if expired_request now p then Ready timeout_result else Waiting)) ∧
    (∀ n, tb_futures t !! n ≠ Some Waiting → tb_futures t' !! n = tb_futures t !! n).
Proof.
  intros Hu Hw t. destruct (request_reachable_inv cfg Hu w Hw) as [Ht _]. fold t in Ht.
  destruct (expire_fold now (map_to_list (tb_pending t)) t Ht (listed_all t)) as (Hok & Hkeep & Hfrom & Hset & Hexp).
  exists (foldl (expire_step now) t (map_to_list (tb_pending t))). split; [|split_and!].
  - unfold expire. rewrite (bind_done table _ _ t w) by done. change 0 with (w64 0).
    rewrite expire_requests_done by (done || apply listed_all). by rewrite Z.add_0_l.
  - apply map_eq. intros id. apply option_eq. intros p. rewrite map_lookup_filter_Some. cbn [snd]. split.
    + intros Hp. split; [by apply Hfrom|]. destruct (expired_request now p) eqn:He; [|done].
      destruct (Hexp id p) as [Hnone _]; [|done|by rewrite Hnone in Hp].
      by apply elem_of_map_to_list, Hfrom.
    + intros [Hp He]. by apply Hkeep.
  - intros id p Hp. destruct (expired_request now p) eqn:He.
    + apply (Hexp id); [by apply elem_of_map_to_list|done].
    + apply (to_pending _ Hok id). by apply Hkeep.
  - exact Hset.
Qed.
End theorems.

(** ** Witnesses *)

Module RequestExample.
#[local] Existing Instance toy_sodium.

Definition start : RequestWorld := mkRequestWorld (new_table default_rr_options) Example.established.
(** A request with a timeout of 500 ms and one without. *)
Definition asked : RequestWorld :=
  (run_request (ReqRequest 7 [1; 2] 500) (run_request (ReqRequest 8 [3] 0) start).2).2.

Lemma asked_reachable : request_reachable default_client asked.
Proof. do 2 apply QReachOp. apply QReachNew, Example.established_reachable. Qed.

Lemma requests_resolve_once_witness :
  tb_futures (rw_table asked) = [Waiting; Waiting] ∧
  (run_request (ReqCancelAll Errc.Closed "closed") asked).1 ≠ UB.
Proof.
  split; [vm_compute; reflexivity|].
  exact (proj1 (requests_resolve_once default_client asked (ReqCancelAll Errc.Closed "closed")
    Example.client_default_usable asked_reachable)).
Defined.

Lemma reply_settles_request_witness :
  is_Some (tb_pending (rw_table asked) !! 2) ∧
  ∃ bytes, make_request_reply_frame RequestReplyKind.Response 2 7 [9; 9] = Done bytes ∧
    match tb_pending (rw_table asked) !! 2 with
    | None =>
        dispatch_reply (msg_view Channel.Reliable (ro_envelope_type (tb_options (rw_table asked))) bytes)
          asked =
        (Done (route_fail Errc.ProtocolError "response for unknown request id"), asked)
    | Some p => ∃ t',
        dispatch_reply (msg_view Channel.Reliable (ro_envelope_type (tb_options (rw_table asked))) bytes)
          asked = (Done route_success, mkRequestWorld t' (rw_world asked)) ∧
        tb_pending t' = delete 2 (tb_pending (rw_table asked)) ∧
        tb_futures t' !! pr_promise p =
          Some (Ready (if decide (RequestReplyKind.Response = RequestReplyKind.Error)
                       then Err (fail_result Errc.ProtocolError "remote request error") else Done [9; 9])) ∧
        (∀ n, n ≠ pr_promise p → tb_futures t' !! n = tb_futures (rw_table asked) !! n)
    end.
Proof.
  split; [vm_compute; by eexists|].
  refine (reply_settles_request default_client asked Channel.Reliable 2 7 [9; 9] RequestReplyKind.Response
    Example.client_default_usable asked_reachable _ _).
  - split_and!; [done|done|done| |done]. by apply (bool_decide_unpack _).
  - done.
Defined.

Lemma expire_exact_witness :
  ∃ t', expire 2000 asked =
      (Done (w64 (zlen (filter (λ e, expired_request 2000 e.2 = true)
                          (map_to_list (tb_pending (rw_table asked)))))),
       mkRequestWorld t' (rw_world asked)) ∧
    tb_pending t' = filter (λ e, expired_request 2000 e.2 = false) (tb_pending (rw_table asked)) ∧
    (∀ id p, tb_pending (rw_table asked) !! id = Some p →
       tb_futures t' !! pr_promise p =
         Some (if expired_request 2000 p then Ready timeout_result else Waiting)) ∧
    (∀ n, tb_futures (rw_table asked) !! n ≠ Some Waiting →
       tb_futures t' !! n = tb_futures (rw_table asked) !! n).
Proof.
  exact (expire_exact default_client asked 2000 Example.client_default_usable asked_reachable).
Defined.
End RequestExample.
