(* ===== verification/IoContext.v ===== *)
(** * The I/O context

    [src/securecnet/lib/io_context.cpp] and [include/securecnet/io_context.hpp]:
    a queue of posted callbacks, a list of services to poll, and the loop that
    [run], [run_until] and the worker thread of [run_async] execute.

    Threads interleave: every section of code that holds the mutex is one step,
    and so are the call of a callback, its return, every call of a service and
    every thread operation between them.  A thread is its place in the code; any
    thread, a callback included, may post, stop or register at any time. *)
From S2P Require Import Prelude Result.
#[local] Open Scope Z_scope.

(** Callbacks, services and threads by name. *)
Abbreviation callback := nat (only parsing).
Abbreviation service := nat (only parsing).
Abbreviation thread := nat (only parsing).

(** Who executes the loop: [run], [run_until] or the worker. *)
Inductive runner : Set := Plain | Timed | Worker.

(** Where a thread is; [c] is the runner whose loop called [poll], if any, and
    [last] says that it is in the second [drain_posted] of [poll].  A thread at
    [Taken] has a callback from the queue and has released the mutex; at
    [Calling] it is inside the callback. *)
Inductive place : Type :=
  | RunEnter (k : runner)
  | LoopTop (k : runner)
  | Draining (last : bool) (c : option runner)
  | Taken (cb : callback) (last : bool) (c : option runner)
  | Calling (cb : callback) (last : bool) (c : option runner)
  | PollCopy (c : option runner)
  | Polling (services : list service) (c : option runner)
  | LoopBottom (k : runner)
  | RunExit (k : runner) (rc : Result)
  | WorkerExit (rc : Result)
  | AsyncEnter
  | AsyncSpawn
  | AsyncAssign (worker : thread)
  | AsyncWait
  | JoinEnter
  | Joining (worker : thread)
  | JoinRead
  | DestroyEnter
  | DestroyJoin
  | DestroyWait (worker : thread)
  | Returned (rc : Result).

Record IoContextConfig := mkIoConfig { max_posted_callbacks : ST }.

(** [class IoContext]; [io_threads] are the threads that called it,
    [io_accepted], [io_taken] and [io_started] list the callbacks that were
    accepted, taken from the queue and called, oldest first, and [io_terminated] says that a joinable thread was
    assigned over, which ends the process. *)
Record IoContext := mkIo {
  io_config : IoContextConfig;
  io_runtime : Result;
  io_services : list service;
  io_posted : list callback;
  io_worker : option thread;
  io_run_result : Result;
  io_running : bool;
  io_stop_requested : bool;
  io_threads : gmap thread place;
  io_accepted : list callback;
  io_taken : list callback;
  io_started : list callback;
  io_terminated : bool;
}.

Definition new_io (config : IoContextConfig) (runtime : Result) : IoContext :=
  mkIo config runtime [] [] None success false false ∅ [] [] [] false.

Definition at_place (t : thread) (p : place) (s : IoContext) : IoContext :=
  mkIo (io_config s) (io_runtime s) (io_services s) (io_posted s) (io_worker s) (io_run_result s)
    (io_running s) (io_stop_requested s) (<[t := p]> (io_threads s)) (io_accepted s) (io_taken s) (io_started s)
    (io_terminated s).

(** ** Operations under the mutex *)

(** [_posted.push_back] *)
Definition push_posted (cb : callback) (s : IoContext) : IoContext :=
  mkIo (io_config s) (io_runtime s) (io_services s) (io_posted s ++ [cb]) (io_worker s)
    (io_run_result s) (io_running s) (io_stop_requested s) (io_threads s)
    (io_accepted s ++ [cb]) (io_taken s) (io_started s) (io_terminated s).

(** [fn] may be empty. *)
Definition try_post (fn : option callback) (s : IoContext) : Result * IoContext :=
  match fn with
  | None => (fail_result Errc.InvalidArg "posted callback is empty", s)
  | Some cb =>
      let max := max_posted_callbacks (io_config s) in
      if negb (max =? 0) && (max <=? zlen (io_posted s))
      then (fail_result Errc.QueueFull "IoContext posted callback queue is full", s)
      else (success, push_posted cb s)
  end.

Definition set_services (l : list service) (s : IoContext) : IoContext :=
  mkIo (io_config s) (io_runtime s) l (io_posted s) (io_worker s) (io_run_result s) (io_running s)
    (io_stop_requested s) (io_threads s) (io_accepted s) (io_taken s) (io_started s) (io_terminated s).
Definition register_service (v : service) (s : IoContext) : IoContext :=
  if decide (v ∈ io_services s) then s else set_services (io_services s ++ [v]) s.
Definition unregister_service (v : service) (s : IoContext) : IoContext :=
  set_services (filter (λ u, u ≠ v) (io_services s)) s.

Definition set_stop (b : bool) (s : IoContext) : IoContext :=
  mkIo (io_config s) (io_runtime s) (io_services s) (io_posted s) (io_worker s) (io_run_result s)
    (io_running s) b (io_threads s) (io_accepted s) (io_taken s) (io_started s) (io_terminated s).
Definition io_stop : IoContext → IoContext := set_stop true.
Definition restart : IoContext → IoContext := set_stop false.

(** The first critical section of [run]. *)
Definition begin_run (s : IoContext) : IoContext :=
  mkIo (io_config s) (io_runtime s) (io_services s) (io_posted s) (io_worker s) success true false
    (io_threads s) (io_accepted s) (io_taken s) (io_started s) (io_terminated s).
(** Its last one, and the one of the worker after it. *)
Definition end_run (rc : Result) (s : IoContext) : IoContext :=
  mkIo (io_config s) (io_runtime s) (io_services s) (io_posted s) (io_worker s) rc false
    (io_stop_requested s) (io_threads s) (io_accepted s) (io_taken s) (io_started s) (io_terminated s).
Definition set_result (rc : Result) (s : IoContext) : IoContext :=
  mkIo (io_config s) (io_runtime s) (io_services s) (io_posted s) (io_worker s) rc (io_running s)
    (io_stop_requested s) (io_threads s) (io_accepted s) (io_taken s) (io_started s) (io_terminated s).
Definition set_worker (w : option thread) (s : IoContext) : IoContext :=
  mkIo (io_config s) (io_runtime s) (io_services s) (io_posted s) w (io_run_result s) (io_running s)
    (io_stop_requested s) (io_threads s) (io_accepted s) (io_taken s) (io_started s) (io_terminated s).
Definition terminate (s : IoContext) : IoContext :=
  mkIo (io_config s) (io_runtime s) (io_services s) (io_posted s) (io_worker s) (io_run_result s)
    (io_running s) (io_stop_requested s) (io_threads s) (io_accepted s) (io_taken s) (io_started s) true.
(** The critical section of [drain_posted] that takes the front callback. *)
Definition pop_posted (cb : callback) (rest : list callback) (s : IoContext) : IoContext :=
  mkIo (io_config s) (io_runtime s) (io_services s) rest (io_worker s) (io_run_result s)
    (io_running s) (io_stop_requested s) (io_threads s) (io_accepted s) (io_taken s ++ [cb]) (io_started s)
    (io_terminated s).
(** [fn()], after the mutex is released. *)
Definition call_posted (cb : callback) (s : IoContext) : IoContext :=
  mkIo (io_config s) (io_runtime s) (io_services s) (io_posted s) (io_worker s) (io_run_result s)
    (io_running s) (io_stop_requested s) (io_threads s) (io_accepted s) (io_taken s) (io_started s ++ [cb])
    (io_terminated s).

(** ** Steps of a thread *)

(** What the environment decides in a step: whether a callback throws, what a
    service answers, whether the deadline has passed, which thread a spawn
    creates or that it fails. *)
Inductive choice : Type :=
  | Go
  | Throws (m : string)
  | Answer (rc : Result)
  | DeadlinePassed
  | Spawns (worker : thread)
  | SpawnFails.

(** [poll] returns [rc], to its caller or to the loop. *)
Definition poll_returns (c : option runner) (rc : Result) : place :=
  match c with
  | None => Returned rc
  | Some k => if ok rc then LoopBottom k else RunExit k rc
  end.

(** [run] returns [rc], to its caller or to the body of the worker. *)
Definition run_returns (k : runner) (rc : Result) : place :=
  match k with Worker => WorkerExit rc | Plain | Timed => Returned rc end.

(** [poll] begins: the runtime, then the first [drain_posted]. *)
Definition poll_begins (c : option runner) (s : IoContext) : place :=
  if ok (io_runtime s) then Draining false c else poll_returns c (io_runtime s).

(** The destructor: stop, then join the worker or, on the worker, detach it. *)
Definition destroy (t : thread) (p : place) (s : IoContext) : option IoContext :=
  match p with
  | DestroyEnter => Some (at_place t DestroyJoin (io_stop s))
  | DestroyJoin =>
      Some (match io_worker s with
            | None => at_place t (Returned success) s
            | Some w =>
                if decide (w = t) then at_place t (Returned success) (set_worker None s)
                else at_place t (DestroyWait w) s
            end)
  | DestroyWait w =>
      match io_threads s !! w with
      | Some (Returned _) => Some (at_place t (Returned success) (set_worker None s))
      | _ => None
      end
  | _ => None
  end.

Definition advance (t : thread) (d : choice) (s : IoContext) : option IoContext :=
  p ← io_threads s !! t;
  match p, d with
  | RunEnter k, Go =>
      Some (if negb (ok (io_runtime s)) then
              at_place t (run_returns k (io_runtime s)) s
            else if io_running s then
              at_place t (run_returns k (fail_result Errc.StateError "IoContext is already running")) s
            else at_place t (LoopTop k) (begin_run s))
  | LoopTop k, Go =>
      Some (at_place t (if io_stop_requested s then RunExit k success else poll_begins (Some k) s) s)
  | LoopTop Timed, DeadlinePassed => Some (at_place t (RunExit Timed success) s)
  | Draining last c, Go =>
      Some (match io_posted s with
            | cb :: rest => at_place t (Taken cb last c) (pop_posted cb rest s)
            | [] => at_place t (if last then poll_returns c success else PollCopy c) s
            end)
  | Taken cb last c, Go => Some (at_place t (Calling cb last c) (call_posted cb s))
  | Calling _ last c, Go => Some (at_place t (Draining last c) s)
  | Calling _ _ c, Throws m => Some (at_place t (poll_returns c (fail_result Errc.Internal m)) s)
  | PollCopy c, Go => Some (at_place t (Polling (io_services s) c) s)
  | Polling [] c, Go => Some (at_place t (Draining true c) s)
  | Polling (_ :: rest) c, Answer rc =>
      Some (at_place t (if ok rc then Polling rest c else poll_returns c rc) s)
  | LoopBottom k, Go => Some (at_place t (LoopTop k) s)
  | RunExit k rc, Go =>
      Some (at_place t (run_returns k rc) (end_run rc s))
  | WorkerExit rc, Go => Some (at_place t (Returned rc) (set_result rc s))
  | AsyncEnter, Go =>
      Some (if negb (ok (io_runtime s)) then at_place t (Returned (io_runtime s)) s
            else if io_running s || bool_decide (is_Some (io_worker s))
            then at_place t (Returned (fail_result Errc.StateError
                                         "IoContext async runner is already active")) s
            else at_place t AsyncSpawn s)
  | AsyncSpawn, Spawns w =>
      if decide (io_threads s !! w = None) then
        Some (at_place t (AsyncAssign w) (at_place w (RunEnter Worker) s))
      else None
  | AsyncSpawn, SpawnFails =>
      Some (at_place t (Returned (fail_result Errc.Internal
                                    "failed to start IoContext worker thread")) s)
  | AsyncAssign w, Go =>
      Some (match io_worker s with
            | Some _ => terminate s
            | None => at_place t AsyncWait (set_worker (Some w) s)
            end)
  | AsyncWait, Go => if io_running s then Some (at_place t (Returned success) s) else None
  | JoinEnter, Go =>
      Some (match io_worker s with
            | None => at_place t JoinRead s
            | Some w =>
                if decide (w = t)
                then at_place t (Returned (fail_result Errc.StateError
                                             "IoContext cannot join its own worker thread")) s
                else at_place t (Joining w) s
            end)
  | Joining w, Go =>
      match io_threads s !! w with
      | Some (Returned _) => Some (at_place t JoinRead (set_worker None s))
      | _ => None
      end
  | JoinRead, Go => Some (at_place t (Returned (io_run_result s)) s)
  | (DestroyEnter | DestroyJoin | DestroyWait _), Go => destroy t p s
  | _, _ => None
  end.

(** Calls from outside: a thread that is not in the context enters it, or any
    thread runs one of the operations under the mutex. *)
Inductive io_call : Type :=
  | CallRun | CallRunUntil | CallPoll | CallRunAsync | CallJoin | CallDestroy.
Definition entry (c : io_call) (s : IoContext) : place :=
  match c with
  | CallRun => RunEnter Plain
  | CallRunUntil => RunEnter Timed
  | CallPoll => poll_begins None s
  | CallRunAsync => AsyncEnter
  | CallJoin => JoinEnter
  | CallDestroy => DestroyEnter
  end.

Inductive label : Type :=
  | Enter (t : thread) (c : io_call)
  | Advance (t : thread) (d : choice)
  | Post (fn : option callback)
  | Stop
  | Restart
  | Register (v : service)
  | Unregister (v : service).

Definition outside (p : option place) : bool :=
  match p with None | Some (Returned _) => true | _ => false end.

(** The steps that are possible; none after the process has ended. *)
Definition io_step (l : label) (s : IoContext) : option IoContext :=
  if io_terminated s then None
  else
    match l with
    | Enter t c => if outside (io_threads s !! t) then Some (at_place t (entry c s) s) else None
    | Advance t d => advance t d s
    | Post fn => Some (try_post fn s).2
    | Stop => Some (io_stop s)
    | Restart => Some (restart s)
    | Register v => Some (register_service v s)
    | Unregister v => Some (unregister_service v s)
    end.

(** [polls] says whether threads call [poll] themselves; the loop calls it in any
    case. *)
Definition admitted_label (polls : bool) (l : label) : bool :=
  match l with Enter _ CallPoll => polls | _ => true end.

Inductive io_reachable (polls : bool) (config : IoContextConfig) (runtime : Result) : IoContext → Prop :=
  | IoReachNew : io_reachable polls config runtime (new_io config runtime)
  | IoReachStep l s s' :
      io_reachable polls config runtime s → admitted_label polls l = true → io_step l s = Some s' →
      io_reachable polls config runtime s'.

(** ** Invariant *)

(** The thread is between the first and the last critical section of [run]. *)
Definition in_run (p : place) : bool :=
  match p with
  | LoopTop _ | LoopBottom _ | RunExit _ _ => true
  | Draining _ c | Taken _ _ c | Calling _ _ c | PollCopy c | Polling _ c => bool_decide (is_Some c)
  | _ => false
  end.

(** The callbacks that threads have taken and not yet called. *)
Definition in_hand_of (p : place) : list callback := match p with Taken cb _ _ => [cb] | _ => [] end.
Definition hands (threads : gmap thread place) : list callback :=
  map_to_list threads ≫= λ e, in_hand_of e.2.
Definition in_hand (s : IoContext) : list callback := hands (io_threads s).

Lemma hands_insert t p m : hands (<[t := p]> m) ≡ₚ in_hand_of p ++ hands (delete t m).
Proof.
  unfold hands. rewrite <- insert_delete_eq, map_to_list_insert by apply lookup_delete_eq. done.
Qed.
Lemma hands_lookup t m : hands m ≡ₚ from_option in_hand_of [] (m !! t) ++ hands (delete t m).
Proof.
  destruct (m !! t) as [p|] eqn:Hp; cbn [from_option].
  - rewrite <- (insert_id m t p Hp) at 1. apply hands_insert.
  - by rewrite delete_id.
Qed.

(** Whoever is inside the loop is alone there, and the flag says so. *)
Record run_ok (running : bool) (threads : gmap thread place) : Prop := {
  ro_inside t p : threads !! t = Some p → in_run p = true → running = true;
  ro_single t u p q : threads !! t = Some p → threads !! u = Some q →
    in_run p = true → in_run q = true → t = u;
  ro_runner : running = true → ∃ t p, threads !! t = Some p ∧ in_run p = true;
}.

Record io_ok (config : IoContextConfig) (s : IoContext) : Prop := {
  ik_config : io_config s = config;
  ik_fifo : io_accepted s = io_taken s ++ io_posted s;
  ik_called : io_taken s ≡ₚ io_started s ++ in_hand s;
  ik_bound : max_posted_callbacks config ≠ 0 → 0 <= max_posted_callbacks config →
             zlen (io_posted s) <= max_posted_callbacks config;
  ik_services : NoDup (io_services s);
  ik_run : run_ok (io_running s) (io_threads s);
}.

Lemma ik_single config s t u p q :
  io_ok config s → io_threads s !! t = Some p → io_threads s !! u = Some q →
  in_run p = true → in_run q = true → t = u.
Proof. intros Hok. apply (ro_single _ _ (ik_run _ _ Hok)). Qed.

Lemma new_io_ok config runtime : io_ok config (new_io config runtime).
Proof. split; cbn; try done; try lia. constructor. Qed.

(** A thread moves without entering or leaving the loop. *)
Lemma run_ok_move b t p m :
  run_ok b m → from_option in_run false (m !! t) = in_run p → run_ok b (<[t := p]> m).
Proof.
  intros [Hin Hone Hrun] Hp. split.
  - intros u q [[<- <-]|[Hne Hq]]%lookup_insert_Some; [|by eapply Hin].
    intros Hr. rewrite Hr in Hp. destruct (m !! t) eqn:Ht; [|done]. by eapply Hin.
  - intros u v q q' [[<- <-]|[Hne Hq]]%lookup_insert_Some [[<- <-]|[Hne' Hq']]%lookup_insert_Some;
      intros Hr Hr'; [done| | |by eapply Hone].
    + rewrite Hr in Hp. destruct (m !! t) eqn:Ht; [|done]. by eapply Hone.
    + rewrite Hr' in Hp. destruct (m !! t) eqn:Ht; [|done]. by eapply Hone.
  - intros Hr. destruct (Hrun Hr) as (u & q & Hq & Hi). destruct (decide (u = t)) as [->|Hne].
    + rewrite Hq in Hp. cbn in Hp. exists t, p. rewrite lookup_insert_eq. split; congruence.
    + exists u, q. by rewrite lookup_insert_ne.
Qed.

Lemma run_ok_begin t p m : run_ok false m → in_run p = true → run_ok true (<[t := p]> m).
Proof.
  intros [Hin _ _] Hp. assert (∀ u q, m !! u = Some q → in_run q = true → False) as Hnone.
  { intros u q Hq Hi. by specialize (Hin _ _ Hq Hi). }
  split; [done| |].
  - intros u v q q' [[<- <-]|[Hne Hq]]%lookup_insert_Some [[<- <-]|[Hne' Hq']]%lookup_insert_Some;
      intros Hi Hi'; [done|..]; exfalso; eauto.
  - intros _. exists t, p. by rewrite lookup_insert_eq.
Qed.

Lemma run_ok_end b t p q m :
  run_ok b m → m !! t = Some p → in_run p = true → in_run q = false → run_ok false (<[t := q]> m).
Proof.
  intros [_ Hone _] Hp Hi Hq. assert (∀ u x, <[t := q]> m !! u = Some x → in_run x = false) as Hnone.
  { intros u x [[<- <-]|[Hne Hx]]%lookup_insert_Some; [done|]. apply not_true_iff_false. intros Hxi.
    by eapply Hne, (Hone t u). }
  split; [|by intros u v x y Hx%Hnone _ ?; congruence|done].
  intros u x Hx%Hnone ?. congruence.
Qed.

(** What a move does to the callbacks in hand. *)
Lemma hands_move t p m :
  from_option in_hand_of [] (m !! t) = in_hand_of p → hands (<[t := p]> m) ≡ₚ hands m.
Proof. intros Hp. by rewrite hands_insert, (hands_lookup t m), Hp. Qed.

Lemma io_ok_move config t p s :
  io_ok config s → from_option in_run false (io_threads s !! t) = in_run p →
  from_option in_hand_of [] (io_threads s !! t) = in_hand_of p → io_ok config (at_place t p s).
Proof.
  intros [] Hp Hh. split; cbn; try done; [|by apply run_ok_move].
  unfold in_hand. cbn. by rewrite hands_move.
Qed.

Lemma begin_run_ok config t k s :
  io_ok config s → io_running s = false → from_option in_hand_of [] (io_threads s !! t) = [] →
  io_ok config (at_place t (LoopTop k) (begin_run s)).
Proof.
  intros [] Hr Hh. split; cbn; try done.
  - unfold in_hand. cbn. by rewrite hands_move.
  - rewrite Hr in *. by apply run_ok_begin.
Qed.

Lemma end_run_ok config t p q rc s :
  io_ok config s → io_threads s !! t = Some p → in_run p = true → in_run q = false →
  in_hand_of p = [] → in_hand_of q = [] → io_ok config (at_place t q (end_run rc s)).
Proof.
  intros [] Hp Hin Hq Hh Hh'. split; cbn; try done.
  - unfold in_hand. cbn. rewrite hands_move; [done|]. rewrite Hp. cbn. congruence.
  - by eapply run_ok_end.
Qed.

Lemma run_returns_out k rc : in_run (run_returns k rc) = false.
Proof. by destruct k. Qed.
Lemma run_returns_hand k rc : in_hand_of (run_returns k rc) = [].
Proof. by destruct k. Qed.
Lemma poll_returns_in c rc : in_run (poll_returns c rc) = bool_decide (is_Some c).
Proof. destruct c as [k|]; [|done]. cbn. by destruct (ok rc). Qed.
Lemma poll_returns_hand c rc : in_hand_of (poll_returns c rc) = [].
Proof. destruct c as [k|]; [|done]. cbn. by destruct (ok rc). Qed.
Lemma poll_begins_in c s : in_run (poll_begins c s) = bool_decide (is_Some c).
Proof. unfold poll_begins. destruct (ok _); [done|apply poll_returns_in]. Qed.
Lemma poll_begins_hand c s : in_hand_of (poll_begins c s) = [].
Proof. unfold poll_begins. destruct (ok _); [done|apply poll_returns_hand]. Qed.

(** The front of the queue is taken, and a callback that was taken is called. *)
Lemma pop_ok config t cb rest last c s :
  io_ok config s → io_posted s = cb :: rest → io_threads s !! t = Some (Draining last c) →
  io_ok config (at_place t (Taken cb last c) (pop_posted cb rest s)).
Proof.
  intros [] Hq Ht. rewrite Hq in *. split; cbn; try done.
  - by rewrite <- app_assoc.
  - unfold in_hand in *. cbn. rewrite hands_insert, ik_called0, (hands_lookup t), Ht. cbn [from_option in_hand_of].
    rewrite app_nil_l, <- app_assoc. apply Permutation_app_head. by rewrite Permutation_app_comm.
  - intros H1 H2. specialize (ik_bound0 H1 H2). cbn [length] in *. lia.
  - apply run_ok_move; [done|]. by rewrite Ht.
Qed.

Lemma call_ok config t cb last c s :
  io_ok config s → io_threads s !! t = Some (Taken cb last c) →
  io_ok config (at_place t (Calling cb last c) (call_posted cb s)).
Proof.
  intros [] Ht. split; cbn; try done.
  - unfold in_hand in *. cbn. rewrite hands_insert, ik_called0, (hands_lookup t (io_threads s)), Ht.
    cbn [from_option in_hand_of]. by rewrite <- app_assoc.
  - apply run_ok_move; [done|]. by rewrite Ht.
Qed.

(** Fields that the invariant does not mention. *)
Lemma io_ok_result config rc s : io_ok config s → io_ok config (set_result rc s).
Proof. by intros []. Qed.
Lemma io_ok_worker config w s : io_ok config s → io_ok config (set_worker w s).
Proof. by intros []. Qed.
Lemma io_ok_terminate config s : io_ok config s → io_ok config (terminate s).
Proof. by intros []. Qed.
Lemma io_ok_stop config b s : io_ok config s → io_ok config (set_stop b s).
Proof. by intros []. Qed.
Create HintDb io.
Create Rewrite HintDb io.
#[local] Hint Resolve io_ok_result io_ok_worker io_ok_terminate io_ok_stop : io.
#[local] Hint Rewrite run_returns_out run_returns_hand poll_returns_in poll_returns_hand poll_begins_in
  poll_begins_hand : io.

Lemma advance_ok config t d s s' : io_ok config s → advance t d s = Some s' → io_ok config s'.
Proof.
  intros Hok. unfold advance. destruct (io_threads s !! t) as [p|] eqn:Hp; [cbn [mbind option_bind]|done].
  assert (∀ q s1, io_ok config s1 → io_threads s1 = io_threads s → in_run p = in_run q →
    in_hand_of p = in_hand_of q → io_ok config (at_place t q s1)) as Hmove.
  { intros q s1 Hs1 He Hq Hh. apply io_ok_move; [done|by rewrite He, Hp..]. }
  destruct p as [k|[| |]|last c|cb last c|cb last c|c|[|v vs] c|k|k rc|rc| | |w| | |w| | | |w|rc]; destruct d; try done.
  all: cbn [destroy]; try (intros [= <-]; repeat case_match; apply Hmove; auto with io; by autorewrite with io).
  - intros [= <-]. destruct (negb _); [apply Hmove; [done..| |]; by autorewrite with io|].
    destruct (io_running s) eqn:Hr; [apply Hmove; [done..| |]; by autorewrite with io|].
    apply begin_run_ok; [done..|]. by rewrite Hp.
  - intros [= <-]. destruct (io_posted s) as [|cb rest] eqn:Hq; [|by apply pop_ok].
    destruct last; apply Hmove; try done; by autorewrite with io.
  - intros [= <-]. by apply call_ok.
  - intros [= <-]. eapply end_run_ok; [done|done|done| |done|]; by autorewrite with io.
  - case_decide as Hw; [|done]. intros [= <-].
    assert (worker ≠ t) as Hne by congruence. apply io_ok_move.
    + apply io_ok_move; [done|by rewrite Hw..].
    + cbn. by rewrite lookup_insert_ne, Hp.
    + cbn. by rewrite lookup_insert_ne, Hp.
  - intros [= <-]. destruct (io_worker s); [auto with io|]. apply Hmove; auto with io.
  - destruct (io_running s); [|done]. intros [= <-]. by apply Hmove.
  - destruct (io_threads s !! w) as [[]|]; try done. intros [= <-]. apply Hmove; auto with io.
  - intros [= <-]. apply Hmove; try done. by apply io_ok_stop.
  - destruct (io_threads s !! w) as [[]|]; try done. intros [= <-]. apply Hmove; auto with io.
Qed.

Lemma try_post_ok config fn s : io_ok config s → io_ok config (try_post fn s).2.
Proof.
  intros Hok. unfold try_post, push_posted. destruct fn as [cb|]; [|done]. cbv zeta.
  destruct (_ && _) eqn:Hfull; [done|]. cbn [snd].
  destruct Hok as [Hcfg Hfifo Hcalled Hb]. split; cbn; try done.
  - by rewrite Hfifo, <- app_assoc.
  - intros H0 H1. rewrite Hcfg in Hfull. rewrite (proj2 (Z.eqb_neq _ _) H0) in Hfull. cbn [negb andb] in Hfull.
    apply Z.leb_gt in Hfull. rewrite length_app. cbn [length]. lia.
Qed.

Lemma io_step_ok config l s s' : io_ok config s → io_step l s = Some s' → io_ok config s'.
Proof.
  intros Hok. unfold io_step. destruct (io_terminated s); [done|]. destruct l as [t c|t d|cb| | |v|v].
  - destruct (outside _) eqn:Ho; [|done]. intros [= <-].
    assert (in_run (entry c s) = false ∧ in_hand_of (entry c s) = []) as [He Hh]
      by (destruct c; try done; split; [apply poll_begins_in|apply poll_begins_hand]).
    apply io_ok_move; [done|rewrite He|rewrite Hh]; by destruct (io_threads s !! t) as [[]|].
  - by apply advance_ok.
  - intros [= <-]. by apply try_post_ok.
  - intros [= <-]. by apply io_ok_stop.
  - intros [= <-]. by apply io_ok_stop.
  - intros [= <-]. unfold register_service. case_decide as Hv; [done|]. destruct Hok. split; cbn; try done.
    apply NoDup_app. split_and!; [done| |apply NoDup_singleton]. intros u Hu ->%list_elem_of_singleton. done.
  - intros [= <-]. destruct Hok. split; cbn; try done. by apply NoDup_filter.
Qed.

Lemma io_reachable_ok polls config runtime s : io_reachable polls config runtime s → io_ok config s.
Proof. induction 1 as [|l s s' _ IH _ Hs]; [apply new_io_ok|by eapply io_step_ok]. Qed.

(** ** One thread at the queue

    When only the loop polls, whoever is at the queue is inside the loop, so one
    thread at most holds a callback and callbacks start in the order of the
    queue. *)
Definition at_queue (p : place) : bool :=
  match p with
  | Draining _ _ | Taken _ _ _ | Calling _ _ _ | PollCopy _ | Polling _ _ => true
  | _ => false
  end.
Record solo (s : IoContext) : Prop := {
  so_inside t p : io_threads s !! t = Some p → at_queue p = true → in_run p = true;
  so_one : (length (in_hand s) <= 1)%nat;
  so_order : io_taken s = io_started s ++ in_hand s;
}.

Lemma short_perm {A} (l k : list A) : l ≡ₚ k → (length k <= 1)%nat → l = k.
Proof.
  intros Hp Hl. destruct k as [|x [|y k]]; [by apply Permutation_nil_r|by apply Permutation_singleton_r|].
  cbn in Hl. lia.
Qed.

(** The thread inside the loop is the only one that can hold a callback. *)
Lemma solo_alone config s t p :
  io_ok config s → solo s → io_threads s !! t = Some p → in_run p = true → hands (delete t (io_threads s)) = [].
Proof.
  intros Hok Hs Hp Hin. unfold hands.
  assert (∀ e, e ∈ map_to_list (delete t (io_threads s)) → in_hand_of e.2 = []) as Hnone.
  { intros [u q] Hq%elem_of_map_to_list. apply lookup_delete_Some in Hq as [Hne Hq]. cbn [snd].
    destruct q; try done. exfalso. apply Hne. eapply (ik_single _ _ t u _ _ Hok); [done..|].
    by apply (so_inside _ Hs u _ Hq). }
  induction (map_to_list _) as [|e l IH]; [done|]. cbn. rewrite Hnone by left. apply IH. intros e' He'.
  apply Hnone. by right.
Qed.

Lemma solo_inside t p s m :
  solo s → m = <[t := p]> (io_threads s) → (at_queue p = true → in_run p = true) →
  ∀ u q, m !! u = Some q → at_queue q = true → in_run q = true.
Proof.
  intros Hs -> Hp u q [[<- <-]|[Hne Hq]]%lookup_insert_Some; [done|by apply (so_inside _ Hs u)].
Qed.

(** A thread moves without taking or calling. *)
Lemma solo_move t p s s1 :
  solo s → io_threads s1 = io_threads s → io_taken s1 = io_taken s → io_started s1 = io_started s →
  from_option in_hand_of [] (io_threads s !! t) = in_hand_of p → (at_queue p = true → in_run p = true) →
  solo (at_place t p s1).
Proof.
  intros Hs Ht Hta Hst Hh Hq. pose proof Hs as [Hin Hone Hord].
  assert (in_hand (at_place t p s1) = in_hand s) as He.
  { apply short_perm; [|done]. unfold in_hand. cbn. rewrite Ht. by apply hands_move. }
  split; [|by rewrite He|cbn; by rewrite Hta, Hst, He].
  apply (solo_inside t p s); [done|cbn; by rewrite Ht|done].
Qed.

Lemma solo_pop config t cb rest last c s :
  io_ok config s → solo s → io_threads s !! t = Some (Draining last c) →
  solo (at_place t (Taken cb last c) (pop_posted cb rest s)).
Proof.
  intros Hok Hs Hp. pose proof (so_inside _ Hs t _ Hp eq_refl) as Hin. cbn in Hin.
  pose proof (solo_alone config s t _ Hok Hs Hp Hin) as Hd.
  assert (in_hand s = []) as Hnone.
  { apply short_perm; [|cbn; lia]. unfold in_hand. rewrite (hands_lookup t), Hp, Hd. done. }
  assert (in_hand (at_place t (Taken cb last c) (pop_posted cb rest s)) = [cb]) as He.
  { apply short_perm; [|cbn; lia]. unfold in_hand. cbn. rewrite hands_insert, Hd. done. }
  split; [apply (solo_inside t (Taken cb last c) s); done|by rewrite He|].
  rewrite He. cbn. by rewrite (so_order _ Hs), Hnone, app_nil_r.
Qed.

Lemma solo_call config t cb last c s :
  io_ok config s → solo s → io_threads s !! t = Some (Taken cb last c) →
  solo (at_place t (Calling cb last c) (call_posted cb s)).
Proof.
  intros Hok Hs Hp. pose proof (so_inside _ Hs t _ Hp eq_refl) as Hin. cbn in Hin.
  pose proof (solo_alone config s t _ Hok Hs Hp Hin) as Hd.
  assert (in_hand s = [cb]) as Hone.
  { apply short_perm; [|cbn; lia]. unfold in_hand. rewrite (hands_lookup t), Hp, Hd. done. }
  assert (in_hand (at_place t (Calling cb last c) (call_posted cb s)) = []) as He.
  { apply short_perm; [|cbn; lia]. unfold in_hand. cbn. rewrite hands_insert, Hd. done. }
  split; [apply (solo_inside t (Calling cb last c) s); done|rewrite He; cbn; lia|].
  rewrite He. cbn. by rewrite (so_order _ Hs), Hone, app_nil_r.
Qed.

Lemma poll_returns_queue c rc : at_queue (poll_returns c rc) = false.
Proof. destruct c as [k|]; [|done]. cbn. by destruct (ok rc). Qed.
Lemma run_returns_queue k rc : at_queue (run_returns k rc) = false.
Proof. by destruct k. Qed.
#[local] Hint Rewrite poll_returns_queue run_returns_queue : io.

Lemma advance_solo config t d s s' : io_ok config s → solo s → advance t d s = Some s' → solo s'.
Proof.
  intros Hok Hs. unfold advance. destruct (io_threads s !! t) as [p|] eqn:Hp; [cbn [mbind option_bind]|done].
  assert (∀ q s1, io_threads s1 = io_threads s → io_taken s1 = io_taken s → io_started s1 = io_started s →
    in_hand_of p = in_hand_of q → (at_queue q = true → in_run q = true) → solo (at_place t q s1)) as Hmove.
  { intros q s1 H1 H2 H3 Hh Hq. apply (solo_move t q s s1); try done. by rewrite Hp. }
  pose proof (so_inside _ Hs t p Hp) as Hin.
  destruct p as [k|[| |]|last c|cb last c|cb last c|c|[|v vs] c|k|k rc|rc| | |w| | |w| | | |w|rc]; destruct d; try done.
  all: cbn [destroy]; try (intros [= <-]; repeat case_match; apply Hmove; try done; by autorewrite with io).
  - intros [= <-]. destruct (io_posted s) as [|cb rest] eqn:Hq; [|by apply (solo_pop config)].
    destruct last; apply Hmove; try done; by autorewrite with io.
  - intros [= <-]. by apply (solo_call config).
  - case_decide as Hw; [|done]. intros [= <-]. assert (worker ≠ t) as Hne by congruence.
    apply (solo_move t _ (at_place worker (RunEnter Worker) s)); try done.
    + apply (solo_move worker _ s); try done. by rewrite Hw.
    + cbn. by rewrite lookup_insert_ne, Hp.
  - intros [= <-]. destruct (io_worker s); [by destruct Hs|by apply Hmove].
  - destruct (io_running s); [|done]. intros [= <-]. by apply Hmove.
  - destruct (io_threads s !! w) as [[]|]; try done. intros [= <-]. by apply Hmove.
  - destruct (io_threads s !! w) as [[]|]; try done. intros [= <-]. by apply Hmove.
Qed.

Lemma io_step_solo config l s s' :
  io_ok config s → solo s → admitted_label false l = true → io_step l s = Some s' → solo s'.
Proof.
  intros Hok Hs Hl. unfold io_step. destruct (io_terminated s); [done|].
  assert (∀ s1, io_threads s1 = io_threads s → io_taken s1 = io_taken s → io_started s1 = io_started s →
    solo s1) as Hsame.
  { intros s1 H1 H2 H3. destruct Hs as [Hin Hone Hord]. unfold in_hand in *.
    split; [rewrite H1; exact Hin|..]; unfold in_hand; by rewrite ?H1, ?H2, ?H3. }
  destruct l as [t c|t d|cb| | |v|v].
  - destruct (outside _) eqn:Ho; [|done]. intros [= <-]. apply (solo_move t _ s); try done.
    + destruct c; try done; by destruct (io_threads s !! t) as [[]|].
    + by destruct c.
  - by apply (advance_solo config).
  - intros [= <-]. unfold try_post. destruct cb as [cb|]; [|done]. cbv zeta. destruct (_ && _); [done|by apply Hsame].
  - intros [= <-]. by apply Hsame.
  - intros [= <-]. by apply Hsame.
  - intros [= <-]. unfold register_service. case_decide; [done|by apply Hsame].
  - intros [= <-]. by apply Hsame.
Qed.

Lemma io_reachable_solo config runtime s : io_reachable false config runtime s → solo s.
Proof.
  induction 1 as [|l s s' Hr IH Hl Hs]; [split; [done|apply Nat.le_0_l|done]|].
  eapply io_step_solo; [by eapply io_reachable_ok|done..].
Qed.

(** ** Properties *)

(** C36: under every interleaving of the threads that use the context, callbacks
    leave the queue in the order in which they were accepted, and each one that
    left it has been called once or is in the hands of a thread that is about to
    call it; the queue respects its bound, no service is registered twice, and at
    most one thread at a time executes the loop, which is when the context says it
    is running.  When only the loop polls, no thread calling [poll] itself, at most
    one callback is in hand and callbacks are called in the order in which they
    were accepted. *)
Theorem io_context_invariant polls config runtime s :
  io_reachable polls config runtime s →
  io_accepted s = io_taken s ++ io_posted s ∧
  io_taken s ≡ₚ io_started s ++ in_hand s ∧
  (0 < max_posted_callbacks config → zlen (io_posted s) <= max_posted_callbacks config) ∧
  NoDup (io_services s) ∧
  (∀ t u p q, io_threads s !! t = Some p → io_threads s !! u = Some q →
     in_run p = true → in_run q = true → t = u) ∧
  (io_running s = true ↔ ∃ t p, io_threads s !! t = Some p ∧ in_run p = true) ∧
  (polls = false → io_accepted s = io_started s ++ in_hand s ++ io_posted s ∧ (length (in_hand s) <= 1)%nat).
Proof.
  intros Hr. pose proof (io_reachable_ok _ _ _ _ Hr) as [_ Hf Hc Hb Hs [Hi H1 Hrun]].
  split_and!; [done|done| |done|done| |].
  - intros Hpos. apply Hb; lia.
  - split; [done|]. intros (t & p & Hp & Hin). by eapply Hi.
  - intros ->. destruct (io_reachable_solo _ _ _ Hr) as [_ Hone Hord]. split; [|done].
    by rewrite Hf, Hord, <- app_assoc.
Qed.

(** ** Schedules *)

Fixpoint follow (ls : list label) (s : IoContext) : option IoContext :=
  match ls with
  | [] => Some s
  | l :: rest => s' ← io_step l s; follow rest s'
  end.

Lemma follow_reachable polls config runtime ls s s' :
  io_reachable polls config runtime s → Forall (λ l, admitted_label polls l = true) ls →
  follow ls s = Some s' → io_reachable polls config runtime s'.
Proof.
  intros Hs Hls. revert s Hs. induction Hls as [|l ls Hl _ IH]; intros s Hs; cbn [follow]; [by intros [= <-]|].
  destruct (io_step l s) as [s1|] eqn:Hstep; [|done]. cbn. apply IH. by eapply IoReachStep.
Qed.

Definition default_io : IoContext := new_io (mkIoConfig 65536) success.

(** A run in which two callbacks are called. *)
Definition serving : list label :=
  [Register 5; Post (Some 1%nat); Enter 7 CallRun; Advance 7 Go; Post (Some 2%nat); Advance 7 Go; Advance 7 Go;
   Advance 7 Go; Advance 7 Go; Advance 7 Go; Advance 7 Go; Post (Some 3%nat)].
Definition served : option IoContext := follow serving default_io.

Lemma io_context_invariant_witness :
  ((λ s, (io_started s, io_posted s, io_running s)) <$> served) = Some ([1; 2]%nat, [3]%nat, true) ∧
  ∀ s, served = Some s → io_accepted s = io_started s ++ in_hand s ++ io_posted s ∧ (length (in_hand s) <= 1)%nat.
Proof.
  split; [vm_compute; reflexivity|]. intros s Hs.
  refine (proj2 (proj2 (proj2 (proj2 (proj2 (proj2 (io_context_invariant false (mkIoConfig 65536) success s _))))))
    eq_refl).
  apply (follow_reachable false _ _ serving default_io s (IoReachNew _ _ _)); [repeat constructor|exact Hs].
Defined.

(** Two threads that call [poll] themselves can call the callbacks in another
    order than that of the queue: the first waits with its callback in hand while
    the second calls its own. *)
Example direct_polls_reorder :
  ((λ s, (io_accepted s, io_taken s, io_started s)) <$>
     follow [Post (Some 1%nat); Post (Some 2%nat); Enter 7 CallPoll; Enter 8 CallPoll; Advance 7 Go; Advance 8 Go;
             Advance 8 Go; Advance 8 Go; Advance 7 Go] default_io)
    = Some ([1; 2]%nat, [1; 2]%nat, [2; 1]%nat).
Proof. reflexivity. Qed.

(** [run_async] waits until the context is running.  When the worker has come and
    gone before the caller looks, because a callback threw, no thread can move and
    the caller waits for ever. *)
Definition hung : option IoContext :=
  follow [Post (Some 1%nat); Enter 1 CallRunAsync; Advance 1 Go; Advance 1 (Spawns 2); Advance 1 Go; Advance 2 Go;
          Advance 2 Go; Advance 2 Go; Advance 2 Go; Advance 2 (Throws "failed"); Advance 2 Go; Advance 2 Go] default_io.

Lemma nobody_moves s :
  Forall (λ e, ∀ d, advance e.1 d s = None) (map_to_list (io_threads s)) → ∀ t d, advance t d s = None.
Proof.
  intros Hall t d. destruct (io_threads s !! t) as [p|] eqn:Hp; [|unfold advance; by rewrite Hp].
  apply elem_of_map_to_list in Hp. rewrite Forall_forall in Hall. exact (Hall _ Hp d).
Qed.

Example run_async_hangs :
  ∃ s, hung = Some s ∧ io_threads s !! 1%nat = Some AsyncWait ∧ io_running s = false ∧
    ∀ t d, advance t d s = None.
Proof.
  unfold hung. eexists. split; [vm_compute; reflexivity|]. split; [reflexivity|]. split; [reflexivity|].
  apply nobody_moves. vm_compute. repeat constructor; intros []; reflexivity.
Qed.

(** The worker is assigned outside the mutex: of two threads that call
    [run_async] at the same time, the second overwrites a running thread, which
    ends the process. *)
Example run_async_race_terminates :
  (io_terminated <$> follow [Enter 1 CallRunAsync; Enter 2 CallRunAsync; Advance 1 Go; Advance 2 Go;
                             Advance 1 (Spawns 3); Advance 2 (Spawns 4); Advance 1 Go; Advance 2 Go] default_io) = Some true.
Proof. reflexivity. Qed.

(** [poll] calls a copy of the service list.  A service that is destroyed while
    the copy is walked, say by a callback that an earlier service made, is
    unregistered and called all the same. *)
Example unregistered_still_polled :
  ((λ s, (io_services s, io_threads s !! 7%nat)) <$>
     follow [Register 4; Register 5; Enter 7 CallPoll; Advance 7 Go; Advance 7 Go; Unregister 5; Advance 7 (Answer success)]
       default_io) = Some ([4]%nat, Some (Polling [5]%nat None)).
Proof. reflexivity. Qed.

(** The destructor stops a worker in its loop and waits for it. *)
Example destructor_joins_worker :
  ((λ s, (io_worker s, io_running s, io_threads s !! 1%nat)) <$>
     follow [Enter 1 CallRunAsync; Advance 1 Go; Advance 1 (Spawns 2); Advance 2 Go; Advance 1 Go; Advance 1 Go;
             Enter 1 CallDestroy; Advance 1 Go; Advance 1 Go; Advance 2 Go; Advance 2 Go; Advance 2 Go;
             Advance 1 Go] default_io) = Some (None, false, Some (Returned success)).
Proof. reflexivity. Qed.
