(* ===== verification/Sealing.v ===== *)
(** * Frames and the packets that carry them

    What both ends share when they send a message: the frame of a message and of
    an acknowledgement, the sealed datagram that carries a frame, and the
    envelopes and reliable sessions that accept a message. *)
From S2P Require Import Prelude Result Hoare ByteBuf Config Message Packet Protocol Windows Payloads.
From S2P Require Import Reliability Ordered Fragmentation Congestion Crypto Stats Endpoint Socket.
From S2P Require Import Client ClientRecv ClientInv ClientSafe ClientProps.
#[local] Open Scope Z_scope.

(** ** Frames *)

(** The body of the frame that carries [bs] on a channel. *)
Definition frame_body (ch : Channel) (id sequence : U64) (bs : list U8) : list U8 :=
  match ch with
  | Channel.Reliable => enc_payload id bs
  | Channel.ReliableOrdered => enc_payload id (enc_payload sequence bs)
  | Channel.SequencedUnreliable => enc_payload sequence bs
  | Channel.Unreliable | Channel.Control => bs
  end.

(** The frame that carries a message, and the header of its sealed packet. *)
Definition message_frame (ch : Channel) (t : U8) (m sequence : U64) (bs : list U8) : list U8 :=
  enc_message ch t (frame_body ch m sequence bs).
Definition message_header (id n : U64) (frame : list U8) : PacketHeader :=
  out_header PacketKind.Message true id n (zlen frame + NetConfig.AeadTagBytes).

(** The numbers a sender puts in front of a message. *)
Definition numbers_ok (ch : Channel) (m sequence : U64) : Prop :=
  (channel_is_reliable ch = true → is_u64 m ∧ m ≠ 0) ∧
  (ch = Channel.ReliableOrdered ∨ ch = Channel.SequencedUnreliable → is_u64 sequence ∧ sequence ≠ 0).

Lemma frame_body_length ch m sequence bs : zlen (frame_body ch m sequence bs) <= zlen bs + 16.
Proof. destruct ch; cbn [frame_body]; rewrite ?enc_payload_length; lia. Qed.

Lemma frame_body_fits ch m sequence bs :
  zlen bs <= max_inline_payload_for_channel ch → zlen (frame_body ch m sequence bs) <= NetConfig.MaxMessageBytes.
Proof.
  intros Hl. change NetConfig.MaxMessageBytes with 1252. destruct ch; cbn [frame_body];
    rewrite ?enc_payload_length;
    match type of Hl with _ <= ?x => let y := eval vm_compute in x in change x with y in Hl end; lia.
Qed.

(** The frame of an acknowledgement. *)
Definition ack_frame (ch : Channel) (m : U64) : list U8 :=
  enc_message Channel.Control ControlType.ReliableAck (enc_ack (ch, m)).

(** ** Writing and reading *)

Lemma write_to_at size (m : io ByteWriter unit) enc :
  (∀ rest, (length enc <= length rest)%nat → ∃ rest', m (writer_at [] rest) = (Done tt, writer_at enc rest')) →
  zlen enc <= size → write_to size m = Done enc.
Proof.
  intros Hm Hs. unfold write_to.
  replace (mkWriter (Some (zeros (Z.to_nat size))) size 0) with (writer_at [] (zeros (Z.to_nat size))).
  2: { unfold writer_at, zeros. cbn. rewrite length_replicate. f_equal. lia. }
  destruct (Hm (zeros (Z.to_nat size))) as [rest' ->].
  { unfold zeros. rewrite length_replicate. lia. }
  by rewrite written_at.
Qed.

Lemma max_inline ch : max_inline_payload_for_channel ch <= 1252.
Proof. by destruct ch. Qed.

Lemma write_ordered_done sequence bs :
  is_u64 sequence → sequence ≠ 0 → zlen bs <= NetConfig.MaxOrderedMessageBytes →
  write_to NetConfig.MaxReliableMessageBytes (write_ordered_payload sequence (data_of bs) (zlen bs)) =
    Done (enc_payload sequence bs).
Proof.
  intros Hs H0 Hl. apply write_to_at.
  - intros rest Hr. eexists. unfold enc_payload in Hr. rewrite length_app, length_be in Hr.
    by apply (write_envelope_at NetConfig.MaxOrderedMessageBytes).
  - rewrite enc_payload_length. change NetConfig.MaxOrderedMessageBytes with 1236 in Hl.
    change NetConfig.MaxReliableMessageBytes with 1244. lia.
Qed.
Lemma write_sequenced_done sequence bs :
  is_u64 sequence → sequence ≠ 0 → zlen bs <= NetConfig.MaxSequencedMessageBytes →
  write_to NetConfig.MaxMessageBytes (write_sequenced_payload sequence (data_of bs) (zlen bs)) =
    Done (enc_payload sequence bs).
Proof.
  intros Hs H0 Hl. apply write_to_at.
  - intros rest Hr. eexists. unfold enc_payload in Hr. rewrite length_app, length_be in Hr.
    by apply (write_envelope_at NetConfig.MaxSequencedMessageBytes).
  - rewrite enc_payload_length. change NetConfig.MaxSequencedMessageBytes with 1244 in Hl.
    change NetConfig.MaxMessageBytes with 1252. lia.
Qed.

Lemma data_of_payload id bs : data_of (enc_payload id bs) = Some (enc_payload id bs).
Proof.
  unfold data_of. rewrite decide_False; [done|]. intros He%(f_equal length).
  unfold enc_payload in He. by rewrite length_app, length_be in He.
Qed.

Lemma read_from_envelope m1 m2 m3 id bs :
  is_u64 id → id ≠ 0 → zlen bs <= U16_MAX →
  read_from (data_of (enc_payload id bs)) (zlen (enc_payload id bs)) (read_envelope m1 m2 m3) =
    Done (payload_view id bs).
Proof.
  intros Hid H0 Hl. unfold read_from, data_of. rewrite decide_False.
  2: { intros He%(f_equal length). unfold enc_payload in He. by rewrite length_app, length_be in He. }
  change (mkReader (Some (enc_payload id bs)) (zlen (enc_payload id bs)) 0)
    with (reader_at [] (enc_payload id bs)).
  by rewrite read_envelope_all.
Qed.

Lemma write_ack_done ch m :
  channel_is_reliable ch = true → is_u64 m → m ≠ 0 →
  write_to 16 (write_reliable_ack ch m) = Done (enc_ack (ch, m)).
Proof.
  intros Hch Hm H0. apply write_to_at.
  - intros rest Hr. eexists.
    by apply (frame_put (wr:=λ ack, write_reliable_ack ack.1 ack.2) (rd:=read_reliable_ack) (enc:=enc_ack)
      (valid:=ack_valid) (ch, m) [] rest).
  - unfold enc_ack. rewrite length_app, !length_be. lia.
Qed.
Lemma read_ack_done ch m :
  channel_is_reliable ch = true → is_u64 m → m ≠ 0 →
  read_from (data_of (enc_ack (ch, m))) (zlen (enc_ack (ch, m))) read_reliable_ack = Done (ch, m).
Proof.
  intros Hch Hm H0. unfold read_from. change (data_of (enc_ack (ch, m))) with (Some (enc_ack (ch, m))).
  change (mkReader _ _ 0) with (reader_at [] (enc_ack (ch, m))). by rewrite (frame_get (rd:=read_reliable_ack)).
Qed.

Lemma enc_message_ok ch t body : is_u8 t → bytes_ok body → bytes_ok (enc_message ch t body).
Proof. intros. unfold enc_message. auto using bytes_ok_app, be_ok. Qed.
Lemma data_of_message ch t body : data_of (enc_message ch t body) = Some (enc_message ch t body).
Proof.
  unfold data_of. rewrite decide_False; [done|]. intros He%(f_equal length).
  by rewrite length_enc_message in He.
Qed.
Lemma write_message_done ch t body :
  is_u8 t → zlen body <= NetConfig.MaxMessageBytes →
  write_to NetConfig.MaxEncryptedPlaintextBytes (write_message ch t (data_of body) (zlen body)) =
    Done (enc_message ch t body).
Proof.
  intros Ht Hl. apply write_to_at.
  - intros rest Hr. eexists. rewrite length_enc_message in Hr. by apply (write_message_at ch t body []).
  - rewrite length_enc_message. change NetConfig.MaxMessageBytes with 1252 in Hl.
    change NetConfig.MaxEncryptedPlaintextBytes with 1256. lia.
Qed.

(** ** Sealing *)

Section sealing.
Context {HS : Sodium} {HL : SodiumLaws}.

(** The datagram [pp] carries [frame] under connection id [id] and number [n],
    for a peer that receives with [peer]. *)
Definition carries (peer : SessionKeys) (id n : U64) (frame : list U8) (pp : PendingPacket) : Prop :=
  ∃ v, parse_packet (Some (take (Z.to_nat (pp_len pp)) (pp_bytes pp))) (pp_len pp) = Done v ∧
    pv_h v = message_header id n frame ∧ open_payload peer v = Done frame.


(** Sealing a frame succeeds, and whoever receives with the sender's key opens
    the datagram. *)
Lemma sealed_frame keys id n frame prio :
  is_array 32 (sk_tx keys) → is_u64 id → is_u64 n → bytes_ok frame →
  zlen frame <= NetConfig.MaxEncryptedPlaintextBytes →
  ∃ ct pp, seal_payload keys (message_header id n frame) (data_of frame) (zlen frame) = Done ct ∧
    pack_pending (message_header id n frame) ct prio = Done pp ∧ pp_priority pp = prio ∧
    ∀ peer, sk_rx peer = sk_tx keys → carries peer id n frame pp.
Proof.
  intros Hk Hid Hn Hf Hlen. set (h := message_header id n frame).
  change NetConfig.MaxEncryptedPlaintextBytes with 1256 in Hlen.
  assert (header_typed h) as Hh.
  { apply out_header_typed; [done|done|]. change NetConfig.AeadTagBytes with 16. ulia. }
  assert (validate_packet_header h = success) as Hv.
  { apply out_header_valid. change NetConfig.AeadTagBytes with 16. change NetConfig.MaxPayloadBytes with 1272. lia. }
  destruct (seal_payload_done keys h frame Hk Hh Hf Hlen) as [ct Hct].
  assert (∀ peer, sk_rx peer = sk_tx keys → ∃ pp v, pack_pending h ct prio = Done pp ∧ pp_priority pp = prio ∧
    parse_packet (Some (take (Z.to_nat (pp_len pp)) (pp_bytes pp))) (pp_len pp) = Done v ∧
    pv_h v = h ∧ open_payload peer v = Done frame) as Hpack.
  { intros peer Hpeer. apply (pack_sealed keys peer h frame ct prio); try assumption. reflexivity. }
  destruct (Hpack (mkSessionKeys (sk_tx keys) (sk_tx keys)) eq_refl) as (pp & _ & Hpp & Hprio & _).
  exists ct, pp. split; [exact Hct|]. split; [exact Hpp|]. split; [exact Hprio|]. intros peer Hpeer.
  destruct (Hpack peer Hpeer) as (pp' & v & Hpp' & _ & Hparse & Hhv & Hopen).
  rewrite Hpp in Hpp'. injection Hpp' as <-. exists v. split; [exact Hparse|]. split; [exact Hhv|exact Hopen].
Qed.
End sealing.

(** ** Room in a reliable session *)

(** The limits of a reliable session leave room for a message of [len] bytes. *)
Definition session_takes (s : ReliableSession) (len : Z) : Prop :=
  zlen (rs_pending s) < max_pending_messages (rs_cfg s) ∧
  w32 (rs_pending_bytes s + w32 (8 + len)) <= max_pending_bytes (rs_cfg s).

Lemma enqueue_takes t bs prio life now s :
  session_takes s (zlen bs) → zlen bs <= NetConfig.MaxReliableMessageBytes →
  is_u64 (rs_next_message_id s) → rs_next_message_id s ≠ 0 →
  ∃ p s', enqueue t (data_of bs) (zlen bs) prio life now s = (Done p, s') ∧
    p_message_id p = rs_next_message_id s ∧ p_encoded_payload p = enc_payload (rs_next_message_id s) bs ∧
    rs_pending s' = insert_by_priority p (rs_pending s).
Proof.
  intros [Hn Hb] Hlen Hid H0. unfold enqueue. rewrite (proj2 (Z.leb_gt _ _) Hn). cbv zeta.
  rewrite (proj2 (Z.ltb_ge _ _) Hb).
  replace (mkWriter (Some (replicate (Z.to_nat (8 + zlen bs)) 0)) (8 + zlen bs) 0)
    with (writer_at [] (replicate (Z.to_nat (8 + zlen bs)) 0)).
  2: { unfold writer_at. cbn. rewrite length_replicate. f_equal. lia. }
  unfold write_reliable_payload. rewrite write_envelope_at; [|done|done|exact Hlen|].
  2: { rewrite length_replicate. lia. }
  eexists _, _. split; [reflexivity|]. split; [reflexivity|]. split; [|reflexivity].
  cbn [p_encoded_payload writer_at dst default].
  rewrite drop_ge by (rewrite length_replicate; lia). by rewrite !app_nil_r.
Qed.

(** The queue with a new message, its transmission noted, and without it again. *)
Lemma extract_insert p q :
  p_message_id p ∉ p_message_id <$> q → extract (p_message_id p) (insert_by_priority p q) = Some (p, q).
Proof.
  induction q as [|it q IH]; csimpl; intros Hn.
  - by rewrite Z.eqb_refl.
  - apply not_elem_of_cons in Hn as [Hn1 Hn2]. case_match; cbn [extract]; [by rewrite Z.eqb_refl|].
    rewrite (proj2 (Z.eqb_neq _ _) (not_eq_sym Hn1)). by rewrite IH.
Qed.
Lemma extract_note cfg id now q n it rest :
  extract id q = Some (it, rest) → ∃ it', extract id (note_loop cfg id now q n).1.2 = Some (it', rest).
Proof.
  revert n rest. induction q as [|m q IH]; intros n rest; cbn [extract note_loop]; [done|].
  destruct (Z.eqb_spec (p_message_id m) id) as [Hid|Hid]; cbn [negb].
  - intros [= <- <-]. destruct (_ && _); cbn [fst snd extract mark_sent p_message_id];
      rewrite (proj2 (Z.eqb_eq _ _) Hid); by eexists.
  - destruct (extract id q) as [[m' rest']|] eqn:He; [|done]. intros [= -> <-].
    destruct (IH n _ eq_refl) as [it' Hit]. destruct (note_loop _ _ _ _ _) as [[b q'] n']. cbn [fst snd] in *.
    cbn [extract]. rewrite (proj2 (Z.eqb_neq _ _) Hid), Hit. by eexists.
Qed.
Lemma acknowledge_extract id now s it rest :
  reliability_valid (rs_cfg s) → extract id (rs_pending s) = Some (it, rest) →
  rs_pending (acknowledge id now s).2 = rest.
Proof.
  intros Hv He. unfold acknowledge. rewrite He. cbv zeta. destruct (_ && _ && _); [|done].
  by match goal with |- context [update_rtt ?c ?x ?t] => destruct (update_rtt_ok c x t Hv) as (t' & -> & _) end.
Qed.

(** The bytes [send] gives to the reliable session. *)
Definition reliable_length (ch : Channel) (bs : list U8) : Z :=
  if decide (ch = Channel.ReliableOrdered) then 8 + zlen bs else zlen bs.

(** ** The receiving half of a session *)

Record RxWindows := mkRxWindows {
  rx_reliable : Window;
  rx_ordered_reliable : Window;
  rx_ordered : OrderedReceiveWindow;
  rx_sequenced : SequencedReceiveWindow;
}.

(** The reliable window of the channel lets the id through. *)
Definition fresh_id (r : RxWindows) (ch : Channel) (id : U64) : Prop :=
  match ch with
  | Channel.Reliable => (ReliableReceiveWindow.accept id (rx_reliable r)).1 = true
  | Channel.ReliableOrdered => (ReliableReceiveWindow.accept id (rx_ordered_reliable r)).1 = true
  | _ => True
  end.

(** The message is newer than the sequenced ones before it, or the next of the
    ordered ones with no successor waiting for it. *)
Definition in_turn (r : RxWindows) (ch : Channel) (sequence : U64) : Prop :=
  match ch with
  | Channel.ReliableOrdered =>
      ow_next_expected (rx_ordered r) = sequence ∧
      ow_buffer (rx_ordered r) !! w64 (sequence + 1) = None
  | Channel.SequencedUnreliable => (Sequenced.accept sequence (rx_sequenced r)).1 = true
  | _ => True
  end.

Lemma accept_ordered_next {X} (d : U8 → ptr → U16 → X → Result * X) k t p n w x x' :
  k ≠ 0 → ow_next_expected w = k → ow_buffer w !! w64 (k + 1) = None → d t p n x = (success, x') →
  let a := accept_ordered d k t p n w x in
  oa_rc a = success ∧ oa_buffered a = false ∧ oa_stale a = false ∧ oa_state a = x'.
Proof.
  intros Hk Hn Hb Hd. unfold accept_ordered. rewrite (proj2 (Z.eqb_neq _ _) Hk), Hn.
  rewrite (proj2 (Z.eqb_neq _ _) Hk). cbn [ow_next_expected ow_buffer ow_max_buffered].
  rewrite Z.ltb_irrefl, Z.eqb_refl, Hd. cbn [negb ok]. unfold release.
  cbn [ow_next_expected ow_buffer ow_max_buffered]. rewrite Hb. done.
Qed.

(** ** Running an operation step by step *)

Lemma attempt_run {W X} (P : W → Prop) (g : W → X) (m : io W unit) w :
  Safe P m → Stable g m → P w → ∃ rc w', attempt m w = (Done rc, w') ∧ P w' ∧ g w' = g w.
Proof.
  intros Hs Hg Hw. specialize (Hs w Hw). specialize (Hg w). unfold wp, attempt in *.
  destruct (m w) as [[a|rc|] w'] eqn:Hm; cbn in Hg; [by eauto 6..|done].
Qed.

(** A step that succeeds, keeps the invariant and leaves the view unchanged. *)
Lemma quiet_step {W X A B} (P : W → Prop) (g : W → X) (m : io W A) (f : A → io W B) (b : B) w (Q : W → Prop) :
  Safe P m → Stable g m → P w → (∃ a w', m w = (Done a, w')) →
  (∀ a w', P w' → g w' = g w → ∃ w'', f a w' = (Done b, w'') ∧ Q w'') →
  ∃ w'', (m ≫= f) w = (Done b, w'') ∧ Q w''.
Proof.
  intros Hs Hg Hw (a & w' & Hm) Hf. specialize (Hs w Hw). specialize (Hg w). unfold wp in Hs.
  unfold mbind, io_bind. rewrite Hm in *. cbn in Hg. by apply Hf.
Qed.
