(* ===== verification/ServerTx.v ===== *)
(** * What the server queues for a session

    The sending half of [lib/server.cpp] when the session is ready and the queue
    has room: the exact effect of a sealed message and of an acknowledgement on
    the state, and the packet that [send] to a peer puts into the queue. *)
From S2P Require Import Prelude Result Hoare ByteBuf Config Message Packet Protocol Windows Payloads.
From S2P Require Import Reliability Ordered Fragmentation Congestion Crypto Stats Endpoint Socket.
From S2P Require Import Client ClientRecv ClientInv ClientSafe Server ServerSend ServerRecv ServerInv.
From S2P Require Import ServerSafe ServerSafeRecv ServerAdmit ServerLoop ClientProps ServerProps ServerAuth.
From S2P Require Import Sealing.
#[local] Open Scope Z_scope.

(** The session can seal packets and the queue takes one. *)
Record srv_ready (w : ServerWorld) (id : U64) (s : PeerSession) : Prop := {
  sr_session : s_sessions (sw_server w) !! id = Some s;
  sr_id : ps_conn_id s = id ∧ is_u64 id;
  sr_tx : is_array 32 (sk_tx (ps_keys s));
  sr_keys : keys_empty (ps_keys s) = false;
  sr_seq : is_u64 (ps_send_seq s);
  sr_room : zlen (s_pending (sw_server w)) < server_max_pending_packets (s_config (sw_server w));
}.

(** One number of the session is taken. *)
Definition numbered (s : PeerSession) : PeerSession := s <| ps_send_seq := w64 (ps_send_seq s + 1) |>.

(** [sp] joined the queue with the next number of session [id]; nothing else
    changed but the counters. *)
Record pushed (id : U64) (s : PeerSession) (sp : ServerPacket) (w w' : ServerWorld) : Prop := {
  pu_queue : s_pending (sw_server w') = insert_packet sp (s_pending (sw_server w));
  pu_sessions : s_sessions (sw_server w') = <[id := numbered s]> (s_sessions (sw_server w));
  pu_callbacks : s_callbacks (sw_server w') = s_callbacks (sw_server w);
  pu_config : s_config (sw_server w') = s_config (sw_server w);
  pu_net : sw_net w' = sw_net w;
  pu_log : foreground (sw_events w') = foreground (sw_events w);
}.

(** The datagram for the session that carries [frame] with number [n]. *)
Definition addressed `{Sodium} (s : PeerSession) (n : U64) (frame : list U8) (sp : ServerPacket) : Prop :=
  sp_to sp = ps_endpoint s ∧ sp_owner_conn_id sp = ps_conn_id s ∧
  ∀ peer, sk_rx peer = sk_tx (ps_keys s) → carries peer (ps_conn_id s) n frame (as_pending sp).

Section sending.
Context {HN : Ntop} {HS : Sodium} {HL : SodiumLaws}.

Lemma session_ready cfg k w s :
  SInv cfg k w → s_sessions (sw_server w) !! ps_conn_id s = Some s → keys_empty (ps_keys s) = false →
  zlen (s_pending (sw_server w)) < server_max_pending_packets (s_config (sw_server w)) →
  srv_ready w (ps_conn_id s) s.
Proof.
  intros Hw Hs Hk Hroom. pose proof (vo_sessions _ _ (si_server _ _ _ Hw) _ _ Hs) as Hok.
  split; [exact Hs|split; [done|apply Hok]|apply Hok|exact Hk| |exact Hroom].
  rewrite (sl_seq _ _ (si_log _ _ _ Hw) _ _ Hs). apply w64_range.
Qed.

Lemma pushed_tally id s sp w w' f : pushed id s sp w w' →
  ∃ w'', tally f w' = (Done tt, w'') ∧ pushed id s sp w w''.
Proof. intros []. eexists. split; [reflexivity|]. by split. Qed.

(** [queue_sealed] for a message frame. *)
Lemma srv_sealed_done w id s frame prio :
  srv_ready w id s → bytes_ok frame → zlen frame <= NetConfig.MaxEncryptedPlaintextBytes →
  ∃ w' sp, queue_sealed id PacketKind.Message (data_of frame) (zlen frame) prio w = (Done tt, w') ∧
    pushed id s sp w w' ∧ addressed s (ps_send_seq s) frame sp.
Proof.
  intros [Hs [Hid Hid64] Htx Hkeys Hseq Hroom] Hb Hlen.
  destruct (sealed_frame (ps_keys s) id (ps_send_seq s) frame prio Htx Hid64 Hseq Hb Hlen)
    as (ct & pp & Hct & Hpack & Hprio & Hcar).
  unfold queue_sealed, next_seq, set_session. unfold mbind, io_bind, session at 1. rewrite Hs. cbv iota.
  unfold session at 1. rewrite Hs. cbn [set_srv report]. unfold mret at 1, io_ret at 1.
  unfold session. cbn [sw_server sw_net sw_events]. sfields. rewrite lookup_insert_eq. cbv iota.
  unfold srv_queue_packet.
  assert ((0 <? zlen frame) && bool_decide (data_of frame = None) = false) as ->.
  { unfold data_of. case_decide; [by subst|]. by rewrite andb_false_r. }
  rewrite (proj2 (Z.ltb_ge _ _)) by exact Hlen. cbn [andb negb]. sfields. rewrite Hkeys.
  change NetConfig.MaxEncryptedPlaintextBytes with 1256 in Hlen.
  unfold mbind, io_bind, mret, io_ret, lift, report. cbn [default negb Datatypes.id]. rewrite Hid.
  rewrite w32_id by (change NetConfig.AeadTagBytes with 16; ulia).
  change (mkPacketHeader _ _ _ _ _ _ _) with (message_header id (ps_send_seq s) frame). rewrite Hct, Hpack.
  unfold srv_enqueue. unfold mbind, io_bind, srv, set_srv, srv_refresh. cbn [sw_server sw_net sw_events]. sfields.
  rewrite (proj2 (Z.leb_gt _ _)) by exact Hroom.
  eexists _, (mkServerPacket (ps_endpoint s) id (pp_bytes pp) (pp_len pp) prio). split; [reflexivity|]. split.
  - split; cbn [sw_server sw_net sw_events]; sfields; try reflexivity.
  - split; [reflexivity|]. split; [by cbn|]. intros peer Hpeer. rewrite Hid.
    destruct (Hcar peer Hpeer) as (v & Hv). by exists v.
Qed.

(** A message frame of any channel. *)
Lemma srv_internal_done w id s ch t body prio :
  srv_ready w id s → is_u8 t → bytes_ok body → zlen body <= NetConfig.MaxMessageBytes →
  ∃ w' sp, srv_internal_message id ch t (data_of body) (zlen body) prio w = (Done tt, w') ∧
    pushed id s sp w w' ∧ addressed s (ps_send_seq s) (enc_message ch t body) sp.
Proof.
  intros Hw Ht Hb Hlen. unfold srv_internal_message. rewrite write_message_done by done.
  unfold mbind at 1, io_bind at 1, lift. change NetConfig.MaxMessageBytes with 1252 in Hlen.
  destruct (srv_sealed_done w id s (enc_message ch t body) prio Hw) as (w1 & sp & H1 & Hp & Ha).
  { by apply enc_message_ok. }
  { rewrite length_enc_message. change NetConfig.MaxEncryptedPlaintextBytes with 1256. lia. }
  rewrite data_of_message in H1. unfold mbind, io_bind. rewrite H1.
  destruct (pushed_tally _ _ _ _ _ Stat.message_frames_sent Hp) as (w2 & H2 & Hp2).
  exists w2, sp. split; [exact H2|]. split; [exact Hp2|exact Ha].
Qed.

(** The acknowledgement of a reliable message. *)
Lemma srv_ack_done w id s ch m :
  srv_ready w id s → channel_is_reliable ch = true → is_u64 m → m ≠ 0 →
  ∃ w' sp, srv_control_ack id ch m w = (Done tt, w') ∧
    pushed id s sp w w' ∧ addressed s (ps_send_seq s) (ack_frame ch m) sp.
Proof.
  intros Hw Hch Hm H0. unfold srv_control_ack. rewrite write_ack_done by done.
  unfold mbind at 1, io_bind at 1, lift.
  destruct (srv_internal_done w id s Channel.Control ControlType.ReliableAck (enc_ack (ch, m))
    SendPriority.High Hw) as (w1 & sp & H1 & Hp & Ha).
  { done. } { unfold enc_ack. auto using bytes_ok_app, be_ok. } { done. }
  change (data_of (enc_ack (ch, m))) with (Some (enc_ack (ch, m))) in H1.
  change (w16 (zlen (enc_ack (ch, m)))) with (zlen (enc_ack (ch, m))).
  unfold mbind, io_bind. rewrite H1.
  destruct (pushed_tally _ _ _ _ _ Stat.reliable_acks_sent Hp) as (w2 & H2 & Hp2).
  exists w2, sp. split; [exact H2|]. split; [exact Hp2|exact Ha].
Qed.

(** ** Reliable messages *)

Definition reliable_of (ch : Channel) (s : PeerSession) : ReliableSession :=
  if decide (ch = Channel.ReliableOrdered) then ps_ordered_reliable s else ps_reliable s.
Definition with_reliable (ch : Channel) (r : ReliableSession) (s : PeerSession) : PeerSession :=
  if decide (ch = Channel.ReliableOrdered) then s <| ps_ordered_reliable := r |> else s <| ps_reliable := r |>.

(** [sp] joined the queue. *)
Definition srv_queued (s : PeerSession) (frame : list U8) (w w' : ServerWorld) : Prop :=
  ∃ sp, s_pending (sw_server w') = insert_packet sp (s_pending (sw_server w)) ∧
    addressed s (ps_send_seq s) frame sp.

Lemma on_reliable_run {A} w id s ch (m : io ReliableSession A) a r :
  s_sessions (sw_server w) !! id = Some s → m (reliable_of ch s) = (Done a, r) →
  on_reliable id ch m w = (Done a, mkServerWorld
    (sw_server w <| s_sessions := <[id := with_reliable ch r s]> (s_sessions (sw_server w)) |>)
    (sw_net w) (sw_events w)).
Proof.
  intros Hs Hm. unfold on_reliable, set_session, reliable_of, with_reliable in *.
  unfold mbind, io_bind, session. rewrite Hs. case_decide; rewrite Hm, Hs; reflexivity.
Qed.

Lemma ready_with_reliable w id s ch r net st :
  srv_ready w id s →
  srv_ready (mkServerWorld (sw_server w <| s_sessions := <[id := with_reliable ch r s]> (s_sessions (sw_server w)) |>
                              <| s_stats := st |>) net (sw_events w)) id (with_reliable ch r s).
Proof.
  intros []. unfold with_reliable. case_decide; split; cbn [sw_server sw_net sw_events]; sfields; try done;
    by rewrite lookup_insert_eq.
Qed.

Lemma addressed_with_reliable ch r s n frame sp :
  addressed (with_reliable ch r s) n frame sp → addressed s n frame sp.
Proof. unfold addressed, with_reliable. by case_decide. Qed.

Lemma srv_note_sent_tail w id s ch m :
  s_sessions (sw_server w) !! id = Some s →
  ∃ w', (now ← os now_ms;
         on_reliable id ch (λ s, let '(b, s') := note_sent m now s in (Done b, s'));;
         srv_refresh) w = (Done tt, w') ∧ s_pending (sw_server w') = s_pending (sw_server w).
Proof.
  intros Hs. assert (∃ now net, now_ms (sw_net w) = (Done now, net)) as (now & net & Hnow).
  { unfold now_ms. destruct (n_clock (sw_net w)); by eexists _, _. }
  unfold mbind at 1, io_bind at 1, os at 1. rewrite Hnow.
  destruct (note_sent m now (reliable_of ch s)) as [b r] eqn:Hn.
  unfold mbind, io_bind. erewrite on_reliable_run; [|exact Hs|by rewrite Hn].
  eexists. split; [reflexivity|]. reflexivity.
Qed.

Lemma srv_reliable_done w id s ch t inner prio life :
  srv_ready w id s → channel_is_reliable ch = true → is_u8 t → bytes_ok inner →
  zlen inner <= NetConfig.MaxReliableMessageBytes → session_takes (reliable_of ch s) (zlen inner) →
  let m := rs_next_message_id (reliable_of ch s) in is_u64 m → m ≠ 0 →
  ∃ w', srv_reliable_message id ch t (data_of inner) (zlen inner) prio life w = (Done tt, w') ∧
    srv_queued s (enc_message ch t (enc_payload m inner)) w w'.
Proof.
  intros Hw Hch Ht Hb Hlen Htake m Hm H0. unfold srv_reliable_message.
  change NetConfig.MaxReliableMessageBytes with 1244 in Hlen. rewrite (proj2 (Z.ltb_ge _ _)) by (exact Hlen).
  assert (∃ now net, now_ms (sw_net w) = (Done now, net)) as (now & net & Hnow).
  { unfold now_ms. destruct (n_clock (sw_net w)); by eexists _, _. }
  unfold mbind at 1, io_bind at 1, os at 1. rewrite Hnow. cbv iota.
  destruct (enqueue_takes t inner prio life now (reliable_of ch s) Htake Hlen Hm H0) as (p & r & He & Hp1 & Hp2 & _).
  unfold mbind at 1, io_bind at 1. erewrite on_reliable_run; [|exact (sr_session _ _ _ Hw)|exact He]. cbv iota.
  unfold mbind at 1, io_bind at 1, tally at 1, tally_n, set_srv. cbn [sw_server sw_net sw_events]. cbv iota.
  set (w1 := mkServerWorld _ _ _). assert (srv_ready w1 id (with_reliable ch r s)) as Hw1
    by (by apply ready_with_reliable).
  rewrite Hp2. pose proof (enc_payload_length m inner) as Hl. fold m.
  destruct (srv_internal_done w1 id (with_reliable ch r s) ch t (enc_payload m inner) prio Hw1 Ht)
    as (w2 & sp & H2 & Hp & Ha).
  { unfold enc_payload. auto using bytes_ok_app, be_ok. }
  { rewrite Hl. change NetConfig.MaxMessageBytes with 1252. lia. }
  rewrite data_of_payload in H2. rewrite w16_id by (rewrite Hl; ulia).
  unfold mbind at 1, io_bind at 1, attempt, srv_message_packet.
  rewrite decide_False by (by intros ->). rewrite H2. cbv iota. cbn [ok success negb].
  rewrite Hp1. destruct (srv_note_sent_tail w2 id (numbered (with_reliable ch r s)) ch m) as (w' & H' & Hq).
  { rewrite (pu_sessions _ _ _ _ _ Hp). apply lookup_insert_eq. }
  exists w'. split; [exact H'|]. exists sp. split.
  - rewrite Hq, (pu_queue _ _ _ _ _ Hp). reflexivity.
  - apply (addressed_with_reliable ch r). unfold with_reliable in *. by case_decide.
Qed.

(** ** [send] to a peer *)

(** The numbers [send] takes. *)
Definition srv_next_sequence (ch : Channel) (s : PeerSession) : U64 :=
  match ch with
  | Channel.ReliableOrdered => ps_next_ordered_sequence s
  | Channel.SequencedUnreliable => ps_next_sequenced_sequence s
  | _ => 0
  end.
Definition srv_next_message_id (ch : Channel) (s : PeerSession) : U64 :=
  rs_next_message_id (reliable_of ch s).

(** A message of one packet that [send] accepts now. *)
Record srv_sendable (s : PeerSession) (ch : Channel) (t : U8) (bs : list U8) : Prop := {
  ss_state : ps_state s = ConnectionState.Established;
  ss_channel : channel_is_application ch = true;
  ss_type : is_u8 t;
  ss_bytes : bytes_ok bs;
  ss_inline : zlen bs <= max_inline_payload_for_channel ch;
  ss_numbers : numbers_ok ch (srv_next_message_id ch s) (srv_next_sequence ch s);
  ss_takes : channel_is_reliable ch = true → session_takes (reliable_of ch s) (reliable_length ch bs);
}.

Lemma srv_finish_done peer options t (m : io ServerWorld unit) w w' :
  m w = (Done tt, w') → srv_finish peer options t m w = (Done tt, w').
Proof. intros Hm. unfold srv_finish, mbind, io_bind, attempt. by rewrite Hm. Qed.

(** The session after [send] took a number of the channel. *)
Lemma srv_ready_step w id s f :
  srv_ready w id s →
  ps_conn_id (f s) = ps_conn_id s → ps_keys (f s) = ps_keys s → ps_send_seq (f s) = ps_send_seq s →
  ∃ w1, set_session id f w = (Done tt, w1) ∧ srv_ready w1 id (f s) ∧
    s_pending (sw_server w1) = s_pending (sw_server w).
Proof.
  intros [Hs Hid Htx Hkeys Hseq Hroom] H1 H2 H3. unfold set_session, mbind, io_bind, session. rewrite Hs.
  eexists. split; [reflexivity|]. split; [|reflexivity].
  split; cbn [sw_server]; sfields; rewrite ?H1, ?H2, ?H3; try done. apply lookup_insert_eq.
Qed.

Lemma srv_ordered_branch w id s peer options t bs :
  srv_ready w id s → is_u8 t → bytes_ok bs → zlen bs <= NetConfig.MaxOrderedMessageBytes →
  let q := ps_next_ordered_sequence s in is_u64 q → q ≠ 0 →
  let r := ps_ordered_reliable s in
  session_takes r (8 + zlen bs) → is_u64 (rs_next_message_id r) → rs_next_message_id r ≠ 0 →
  ∃ w', (set_session id (λ s, s <| ps_next_ordered_sequence := w64 (ps_next_ordered_sequence s + 1) |>);;
         encoded ← lift (write_to NetConfig.MaxReliableMessageBytes
                           (write_ordered_payload q (data_of bs) (zlen bs)));
         srv_finish peer options t
           (srv_reliable_message id Channel.ReliableOrdered t (Some encoded) (w16 (zlen encoded))
              (so_priority options) (so_lifetime_ms options))) w = (Done tt, w') ∧
    srv_queued s (message_frame Channel.ReliableOrdered t (rs_next_message_id r) q bs) w w'.
Proof.
  intros Hw Ht Hb Hlen q Hq H0 r Htake Hi Hi0. pose proof (enc_payload_length q bs) as Hl.
  unfold mbind at 1, io_bind at 1.
  match goal with |- context [set_session id ?f w] =>
    destruct (srv_ready_step w id s f Hw eq_refl eq_refl eq_refl) as (w1 & H1 & Hw1 & Hp1) end.
  rewrite H1. rewrite write_ordered_done by done.
  change NetConfig.MaxOrderedMessageBytes with 1236 in Hlen.
  unfold mbind, io_bind, lift. rewrite <- data_of_payload, w16_id by (rewrite Hl; ulia).
  destruct (srv_reliable_done w1 id _ Channel.ReliableOrdered t (enc_payload q bs) (so_priority options)
    (so_lifetime_ms options) Hw1) as (w' & H' & sp & Hsp & Ha); try done.
  - unfold enc_payload. auto using bytes_ok_app, be_ok.
  - rewrite Hl. change NetConfig.MaxReliableMessageBytes with 1244. lia.
  - by rewrite Hl.
  - exists w'. split; [by apply srv_finish_done|]. exists sp. split; [by rewrite Hsp, Hp1|exact Ha].
Qed.

Lemma srv_sequenced_branch w id s peer options t bs :
  srv_ready w id s → is_u8 t → bytes_ok bs → zlen bs <= NetConfig.MaxSequencedMessageBytes →
  let q := ps_next_sequenced_sequence s in is_u64 q → q ≠ 0 →
  ∃ w', (set_session id (λ s, s <| ps_next_sequenced_sequence := w64 (ps_next_sequenced_sequence s + 1) |>);;
         encoded ← lift (write_to NetConfig.MaxMessageBytes
                           (write_sequenced_payload q (data_of bs) (zlen bs)));
         srv_finish peer options t
           (srv_message_packet id Channel.SequencedUnreliable t (Some encoded) (w16 (zlen encoded))
              (so_priority options))) w = (Done tt, w') ∧
    ∀ m, srv_queued s (message_frame Channel.SequencedUnreliable t m q bs) w w'.
Proof.
  intros Hw Ht Hb Hlen q Hq H0. pose proof (enc_payload_length q bs) as Hl.
  unfold mbind at 1, io_bind at 1.
  match goal with |- context [set_session id ?f w] =>
    destruct (srv_ready_step w id s f Hw eq_refl eq_refl eq_refl) as (w1 & H1 & Hw1 & Hp1) end.
  rewrite H1. rewrite write_sequenced_done by done.
  change NetConfig.MaxSequencedMessageBytes with 1244 in Hlen.
  unfold mbind, io_bind, lift. rewrite <- data_of_payload, w16_id by (rewrite Hl; ulia).
  destruct (srv_internal_done w1 id _ Channel.SequencedUnreliable t (enc_payload q bs) (so_priority options) Hw1)
    as (w' & sp & H' & Hp & Ha); try done.
  - unfold enc_payload. auto using bytes_ok_app, be_ok.
  - rewrite Hl. change NetConfig.MaxMessageBytes with 1252. lia.
  - exists w'. split; [by apply srv_finish_done|]. intros m. exists sp.
    split; [by rewrite (pu_queue _ _ _ _ _ Hp), Hp1|exact Ha].
Qed.

Lemma srv_send_done w id s options t bs :
  let ch := so_channel options in
  srv_ready w id s → srv_sendable s ch t bs →
  ∃ w', srv_send (make_peer s) options t bs w = (Done tt, w') ∧
    srv_queued s (message_frame ch t (srv_next_message_id ch s) (srv_next_sequence ch s) bs) w w'.
Proof.
  intros ch Hw [Hst Hch Ht Hb Hin [Hnum Hseq] Htake]. subst ch. pose proof (max_inline (so_channel options)).
  pose proof (proj1 (sr_id _ _ _ Hw)) as Hid. pose proof (sr_session _ _ _ Hw) as Hs.
  unfold srv_send. unfold mbind at 1, io_bind at 1, srv. cbv zeta. cbn [make_peer peer_conn_id]. rewrite Hid.
  assert (peer_session (make_peer s) (sw_server w) = Some s) as Hps.
  { unfold peer_session, find_session. cbn [make_peer peer_conn_id peer_endpoint]. rewrite Hid, Hs.
    cbn. by rewrite ep_eqb_refl. }
  rewrite Hps, bool_decide_eq_true_2 by exact Hst. rewrite Hch. cbn [negb].
  rewrite (proj2 (Z.ltb_ge U16_MAX _)), w16_id, (proj2 (Z.ltb_ge _ _) Hin) by ulia.
  destruct (so_channel options) eqn:Hso; cbn [channel_is_reliable srv_next_sequence] in *; [| | | |discriminate].
  - destruct (srv_internal_done w id s Channel.Unreliable t bs (so_priority options) Hw Ht Hb Hin)
      as (w' & sp & H' & Hp & Ha).
    exists w'. split; [by apply srv_finish_done|]. exists sp. split; [apply Hp|exact Ha].
  - destruct (Hnum eq_refl) as [Hi H0].
    destruct (srv_reliable_done w id s Channel.Reliable t bs (so_priority options) (so_lifetime_ms options) Hw)
      as (w' & H' & Hq); try done; [by apply Htake|].
    exists w'. split; [by apply srv_finish_done|exact Hq].
  - destruct (Hnum eq_refl) as [Hi H0]. destruct (Hseq (or_introl eq_refl)) as [Hi' H0'].
    apply srv_ordered_branch; try done. by apply Htake.
  - destruct (Hseq (or_intror eq_refl)) as [Hi' H0'].
    destruct (srv_sequenced_branch w id s (make_peer s) options t bs Hw Ht Hb Hin Hi' H0') as (w' & H' & Hq).
    exists w'. split; [exact H'|apply Hq].
Qed.
End sending.
