(* ===== verification/Deliver.v ===== *)
(** * From an authentic packet to the user's callbacks

    What [srv_handle_packet] hands to the user for one message frame of an
    established session, on each channel. *)
From S2P Require Import Prelude Result Hoare ByteBuf Config Message Packet Protocol Windows Payloads.
From S2P Require Import Reliability Ordered Fragmentation Congestion Crypto Stats Endpoint Socket.
From S2P Require Import Client ClientRecv ClientInv ClientSafe Server ServerSend ServerRecv ServerInv.
From S2P Require Import ServerSafe ServerSafeRecv ServerAdmit ServerLoop ClientProps ServerProps ServerAuth Sealing ServerTx.
#[local] Open Scope Z_scope.

(** ** The receiving half of a session *)

(** What delivery reads: the peer, the state and the receive windows. *)
Record RxState := mkRx {
  rx_peer : Peer;
  rx_state : ConnectionState;
  rx_windows :> RxWindows;
}.

Definition rx_of (s : PeerSession) : RxState :=
  mkRx (make_peer s) (ps_state s)
    (mkRxWindows (rs_received (ps_reliable s)) (rs_received (ps_ordered_reliable s)) (ps_ordered s)
       (ps_sequenced s)).

(** The receiving half of session [id], the callbacks and what was handed over. *)
Definition rx_view (id : U64) (w : ServerWorld) : option RxState * ServerCallbacks * list ServerEvent :=
  (rx_of <$> s_sessions (sw_server w) !! id, s_callbacks (sw_server w), foreground (sw_events w)).

(** The sending half of session [id] and the queue. *)
Definition out_of (s : PeerSession) := (ps_endpoint s, ps_conn_id s, ps_keys s, ps_send_seq s).
Definition out_view (id : U64) (w : ServerWorld) :=
  (s_pending (sw_server w), s_config (sw_server w), out_of <$> s_sessions (sw_server w) !! id).
Abbreviation Out := (list ServerPacket * ServerConfig * option (Endpoint * U64 * SessionKeys * U64))%type.

(** Both halves. *)
Definition full_view (id : U64) (w : ServerWorld) := (rx_view id w, out_view id w).

(** The session can seal a packet and the queue takes it. *)
Definition out_ready (o : Out) : bool :=
  match o with
  | (q, cfg, Some (_, _, keys, _)) => negb (keys_empty keys) && (zlen q <? server_max_pending_packets cfg)
  | _ => false
  end.

(** From [o] to [o'] the acknowledgement of message [m] was queued, when it
    could be. *)
Definition acks `{Sodium} (ch : Channel) (m : U64) (o o' : Out) : Prop :=
  channel_is_reliable ch = true → out_ready o = true →
  match o with
  | (q, _, Some (e, id, keys, n)) =>
      ∃ sp, o'.1.1 = insert_packet sp q ∧ sp_to sp = e ∧
        ∀ peer, sk_rx peer = sk_tx keys → carries peer id n (ack_frame ch m) (as_pending sp)
  | _ => False
  end.

Lemma full_split id w r cb F o :
  full_view id w = (Some r, cb, F, o) → rx_view id w = (Some r, cb, F) ∧ out_view id w = o.
Proof. unfold full_view. intros Hv. apply pair_equal_spec in Hv. exact Hv. Qed.

Section stable_rx.
Context {HN : Ntop} {HS : Sodium} (id : U64).

Lemma rx_set_srv f :
  (∀ v, s_sessions (f v) = s_sessions v ∧ s_callbacks (f v) = s_callbacks v) →
  Stable (rx_view id) (set_srv f).
Proof. intros Hf w. unfold rx_view. cbn. by destruct (Hf (sw_server w)) as [-> ->]. Qed.
Lemma rx_report e : background e = true → Stable (rx_view id) (report e).
Proof.
  intros He w. unfold rx_view, report. cbn [snd sw_server sw_events]. by rewrite foreground_background.
Qed.
Lemma rx_os {A} (m : io Net A) : Stable (rx_view id) (os m).
Proof. intros w. unfold os. by destruct (m (sw_net w)). Qed.
Lemma rx_session id' : Stable (rx_view id) (session id').
Proof. intros w. unfold session. by destruct (_ !! _). Qed.
Lemma rx_set_session id' f : (∀ s, rx_of (f s) = rx_of s) → Stable (rx_view id) (set_session id' f).
Proof.
  intros Hf w. unfold set_session, mbind, io_bind, session.
  destruct (s_sessions (sw_server w) !! id') as [s|] eqn:Hs; [|done]. unfold rx_view. cbn.
  destruct (decide (id' = id)) as [->|]; [|by rewrite lookup_insert_ne].
  by rewrite lookup_insert_eq, Hs; cbn; rewrite Hf.
Qed.

Ltac rx :=
  repeat first
    [ solve [eauto 2 with stable nocore]
    | done
    | apply rx_report; reflexivity
    | apply rx_os
    | apply rx_session
    | apply rx_set_session; done
    | apply rx_set_srv; done
    | apply stable_when
    | apply stable_attempt
    | apply stable_bind; [|intros ?]
    | case_match ].

Lemma rx_tally f : Stable (rx_view id) (tally f).
Proof. unfold tally, tally_n. rx. Qed.
Lemma rx_refresh : Stable (rx_view id) srv_refresh.
Proof. unfold srv_refresh. rx. Qed.
#[local] Hint Resolve rx_tally rx_refresh : stable.
Lemma rx_on_packet e v : Stable (rx_view id) (srv_on_packet e v).
Proof. unfold srv_on_packet. rx. Qed.
Lemma rx_debug d e v : Stable (rx_view id) (srv_packet_debug d e v).
Proof. unfold srv_packet_debug. rx. Qed.
Lemma rx_banned e now : Stable (rx_view id) (endpoint_is_banned e now).
Proof. unfold endpoint_is_banned, set_abuse. rx. Qed.
Lemma rx_amplify e n now : Stable (rx_view id) (can_amplify_to e n now).
Proof. unfold can_amplify_to, set_preauth. rx. Qed.
Lemma rx_enqueue p : Stable (rx_view id) (srv_enqueue p).
Proof. unfold srv_enqueue. rx. Qed.
Lemma rx_next_seq id' : Stable (rx_view id) (next_seq id').
Proof. unfold next_seq. rx. Qed.
#[local] Hint Resolve rx_amplify rx_enqueue rx_next_seq : stable.
Lemma rx_queue to kd enc p n c s keys prio owner :
  Stable (rx_view id) (srv_queue_packet to kd enc p n c s keys prio owner).
Proof. unfold srv_queue_packet. rx. Qed.
#[local] Hint Resolve rx_queue : stable.
Lemma rx_internal_message id' ch t p n prio :
  Stable (rx_view id) (srv_internal_message id' ch t p n prio).
Proof. unfold srv_internal_message, queue_sealed. rx. Qed.
#[local] Hint Resolve rx_internal_message : stable.
Lemma rx_control_ack id' ch m : Stable (rx_view id) (srv_control_ack id' ch m).
Proof. unfold srv_control_ack. rx. Qed.

(** The same for the sending half, and for both. *)
Lemma out_set_srv f :
  (∀ v, s_sessions (f v) = s_sessions v ∧ s_pending (f v) = s_pending v ∧ s_config (f v) = s_config v) →
  Stable (out_view id) (set_srv f).
Proof. intros Hf w. unfold out_view. cbn. by destruct (Hf (sw_server w)) as (-> & -> & ->). Qed.
Lemma out_set_session id' f : (∀ s, out_of (f s) = out_of s) → Stable (out_view id) (set_session id' f).
Proof.
  intros Hf w. unfold set_session, mbind, io_bind, session.
  destruct (s_sessions (sw_server w) !! id') as [s|] eqn:Hs; [|done]. unfold out_view. cbn.
  destruct (decide (id' = id)) as [->|]; [|by rewrite lookup_insert_ne].
  by rewrite lookup_insert_eq, Hs; cbn; rewrite Hf.
Qed.

Lemma full_stable {A} (m : io ServerWorld A) :
  Stable (rx_view id) m → Stable (out_view id) m → Stable (full_view id) m.
Proof. intros H1 H2 w. unfold full_view. by rewrite H1, H2. Qed.
Lemma full_set_session id' f :
  (∀ s, rx_of (f s) = rx_of s) → (∀ s, out_of (f s) = out_of s) → Stable (full_view id) (set_session id' f).
Proof. intros. apply full_stable; [by apply rx_set_session|by apply out_set_session]. Qed.
Lemma full_os {A} (m : io Net A) : Stable (full_view id) (os m).
Proof. apply full_stable; [apply rx_os|]. intros w. unfold os. by destruct (m (sw_net w)). Qed.
Lemma full_tally f : Stable (full_view id) (tally f).
Proof. apply full_stable; [apply rx_tally|by apply out_set_srv]. Qed.
Lemma full_on_packet e v : Stable (full_view id) (srv_on_packet e v).
Proof.
  apply full_stable; [apply rx_on_packet|]. unfold srv_on_packet. apply stable_bind; [done|intros u].
  by apply stable_when.
Qed.
Lemma full_debug d e v : Stable (full_view id) (srv_packet_debug d e v).
Proof.
  apply full_stable; [apply rx_debug|]. unfold srv_packet_debug. apply stable_bind; [done|intros u].
  by apply stable_when.
Qed.
Lemma full_banned e now : Stable (full_view id) (endpoint_is_banned e now).
Proof.
  apply full_stable; [apply rx_banned|]. unfold endpoint_is_banned, set_abuse.
  apply stable_bind; [done|intros u]. apply stable_bind; [by apply out_set_srv|done].
Qed.
End stable_rx.

(** ** One message *)

Lemma foreground_app l1 l2 : foreground (l1 ++ l2) = foreground l1 ++ foreground l2.
Proof. apply filter_app. Qed.
Lemma foreground_messages cb p m : foreground (srv_message_events cb p m) = srv_message_events cb p m.
Proof. unfold srv_message_events, foreground. rewrite !filter_app. do 3 case_match; done. Qed.

Lemma deliver_message_done cb ch t bs sequence d r :
  rx_of (dv_session d) = r → channel_is_application ch = true → in_turn r ch sequence →
  (ch = Channel.ReliableOrdered → sequence ≠ 0) →
  ∃ d', srv_deliver_message cb ch t (data_of bs) (zlen bs) sequence d = (success, d') ∧
    dv_events d' = srv_message_events cb (rx_peer r) (msg_view ch t bs) ++ dv_events d ∧
    ps_state (dv_session d') = rx_state r ∧ out_of (dv_session d') = out_of (dv_session d).
Proof.
  intros <- Hch Hx Hseq. unfold srv_deliver_message. destruct ch; cbn [in_turn] in Hx; [| | | |done].
  - eexists. split_and!; reflexivity.
  - eexists. split_and!; reflexivity.
  - destruct Hx as (Hn & Hb). rewrite decide_True by done.
    destruct (accept_ordered_next (srv_deliver_ordered cb (make_peer (dv_session d))) sequence t (data_of bs)
      (zlen bs) (ps_ordered (dv_session d)) (dv_events d, 0) _ (Hseq eq_refl) Hn Hb eq_refl)
      as (-> & -> & -> & ->).
    eexists. split_and!; reflexivity.
  - rewrite decide_False, decide_True by done. cbn [rx_of rx_windows rx_sequenced] in Hx.
    destruct (Sequenced.accept _ _) as [fresh win]. cbn in Hx. subst fresh. cbn [negb].
    eexists. split_and!; reflexivity.
Qed.

(** The user got [log], newest first, and the session is still established. *)
Definition has_delivered (id : U64) (log : list ServerEvent) (w : ServerWorld) : Prop :=
  foreground (sw_events w) = log ∧
  ∃ s, s_sessions (sw_server w) !! id = Some s ∧ ps_state s = ConnectionState.Established.

Section delivery.
Context {HN : Ntop} {HS : Sodium}.

Lemma deliver_or_close_done id ch t bs sequence w r cb F o :
  full_view id w = (Some r, cb, F, o) → rx_state r = ConnectionState.Established →
  channel_is_application ch = true → in_turn r ch sequence → (ch = Channel.ReliableOrdered → sequence ≠ 0) →
  ∃ w', srv_deliver_or_close id ch t (data_of bs) (zlen bs) sequence w = (Done tt, w') ∧
    has_delivered id (srv_message_events cb (rx_peer r) (msg_view ch t bs) ++ F) w' ∧ out_view id w' = o.
Proof.
  intros [Hv Ho]%full_split Hst Hch Hx Hseq. unfold rx_view in Hv. injection Hv as Hs Hcb HF. unfold out_view in Ho.
  destruct (s_sessions (sw_server w) !! id) as [s|] eqn:Hlook; [|done]. injection Hs as Hs.
  destruct (deliver_message_done cb ch t bs sequence (mkDelivery s (s_stats (sw_server w)) (sw_events w))
    r Hs Hch Hx Hseq) as (d' & Hd & Hev & Hst' & Hout).
  unfold srv_deliver_or_close, on_delivery, set_session. unfold mbind, io_bind, session at 1.
  rewrite Hlook. cbn [srv sw_server sw_net sw_events]. rewrite Hcb, Hd. cbn.
  unfold session. cbn. rewrite Hlook. cbn. eexists. split; [reflexivity|].
  split; [split; cbn [sw_events sw_server s_sessions]|].
  - rewrite Hev, foreground_app, foreground_messages. cbn [dv_events]. by rewrite HF.
  - exists (dv_session d'). sfields. rewrite lookup_insert_eq. split; [done|]. congruence.
  - unfold out_view. cbn [sw_server]. sfields. rewrite lookup_insert_eq. cbn [fmap option_fmap option_map].
    rewrite Hout. exact Ho.
Qed.
End delivery.

(** ** One frame *)

Section frame.
Context {HN : Ntop} {HS : Sodium} {HL : SodiumLaws}.
Context (cfg : ServerConfig) (Hu : server_usable cfg) (k : nat).

Lemma incoming_done id ch m w r cb F o :
  full_view id w = (Some r, cb, F, o) → channel_is_reliable ch = true → fresh_id r ch m →
  ∃ w' r', on_reliable id ch (λ s, let '(b, s') := accept_incoming m s in (Done b, s')) w = (Done true, w') ∧
    full_view id w' = (Some r', cb, F, o) ∧ rx_peer r' = rx_peer r ∧ rx_state r' = rx_state r ∧
    rx_ordered r' = rx_ordered r.
Proof.
  intros [Hv <-]%full_split Hch Hf. unfold rx_view in Hv. injection Hv as Hs Hcb HF.
  destruct (s_sessions (sw_server w) !! id) as [s|] eqn:Hlook; [|done]. injection Hs as <-.
  unfold on_reliable, accept_incoming, set_session, mbind, io_bind, session at 1. rewrite Hlook.
  destruct ch; try discriminate Hch; cbn [fresh_id rx_of rx_windows rx_reliable rx_ordered_reliable] in Hf.
  - rewrite decide_False by done. destruct (ReliableReceiveWindow.accept _ _) as [b win]. cbn in Hf. subst b.
    unfold session. rewrite Hlook. cbn. eexists _, _. split; [reflexivity|].
    unfold full_view, rx_view, out_view. cbn [sw_server sw_events]. sfields. rewrite lookup_insert_eq, Hlook.
    split; [rewrite <- Hcb, <- HF; reflexivity|]. split_and!; reflexivity.
  - rewrite decide_True by done. destruct (ReliableReceiveWindow.accept _ _) as [b win]. cbn in Hf. subst b.
    unfold session. rewrite Hlook. cbn. eexists _, _. split; [reflexivity|].
    unfold full_view, rx_view, out_view. cbn [sw_server sw_events]. sfields. rewrite lookup_insert_eq, Hlook.
    split; [rewrite <- Hcb, <- HF; reflexivity|]. split_and!; reflexivity.
Qed.

(** The acknowledgement: queued when it can be, and nothing else changes. *)
Lemma control_ack_acks id ch m Γ w r cb F o :
  SAt cfg Γ k w → is_Some (Γ !! id) → full_view id w = (Some r, cb, F, o) →
  channel_is_reliable ch = true → is_u64 m → m ≠ 0 →
  ∃ rc w1 o1, attempt (srv_control_ack id ch m) w = (Done rc, w1) ∧
    full_view id w1 = (Some r, cb, F, o1) ∧ acks ch m o o1.
Proof.
  intros Hw Hid [Hv Ho]%full_split Hr Hm1 Hm2.
  destruct (attempt_run (SAt cfg Γ k) (rx_view id) (srv_control_ack id ch m) w
    (control_ack_safe cfg Hu k Γ id ch m Hid) (rx_control_ack id id ch m) Hw) as (rc & w1 & H1 & _ & Hv1).
  exists rc, w1, (out_view id w1). split; [exact H1|]. split; [unfold full_view; by rewrite Hv1, Hv|].
  intros _ Hready. subst o. unfold out_view in Hready |- *.
  destruct (s_sessions (sw_server w) !! id) as [s|] eqn:Hs; [|done].
  cbn [fmap option_fmap option_map out_of out_ready] in Hready |- *.
  apply andb_true_iff in Hready as [Hk%negb_true_iff Hroom%Z.ltb_lt].
  pose proof (so_id _ _ _ (vo_sessions _ _ (si_server _ _ _ (proj1 Hw)) _ _ Hs)) as Hsid.
  destruct (srv_ack_done w id s ch m) as (w' & sp & H' & Hp & Hto & _ & Hcar); [|done..|].
  { rewrite <- Hsid in Hs |- *. exact (session_ready cfg k w s (proj1 Hw) Hs Hk Hroom). }
  unfold attempt in H1. rewrite H' in H1. injection H1 as <- <-.
  exists sp. split; [exact (pu_queue _ _ _ _ _ Hp)|]. split; [exact Hto|exact Hcar].
Qed.

(** Acknowledge, filter, and hand on what the envelope holds. *)
Lemma reliable_branch_done id ch m inner Γ w r cb F o (K : PayloadView → io ServerWorld unit) (Q : ServerWorld → Prop) :
  SAt cfg Γ k w → is_Some (Γ !! id) → full_view id w = (Some r, cb, F, o) →
  channel_is_reliable ch = true → is_u64 m → m ≠ 0 → fresh_id r ch m → zlen inner <= U16_MAX →
  (∀ w1 r1 o1, full_view id w1 = (Some r1, cb, F, o1) → acks ch m o o1 → rx_peer r1 = rx_peer r →
     rx_state r1 = rx_state r → rx_ordered r1 = rx_ordered r → ∃ w', K (payload_view m inner) w1 = (Done tt, w') ∧ Q w') →
  ∃ w', match read_from (data_of (enc_payload m inner)) (zlen (enc_payload m inner)) read_reliable_payload with
    | UB => undefined
    | Err _ => tally_and_close Stat.bad_packets id CloseReason.InvalidPacket
    | Done reliable =>
        attempt (srv_control_ack id ch (pl_id reliable));;
        fresh ← on_reliable id ch
                  (λ r, let '(b, r') := accept_incoming (pl_id reliable) r in (Done b, r'));
        if negb fresh then mret tt
        else tally Stat.reliable_messages_delivered;; K reliable
    end w = (Done tt, w') ∧ Q w'.
Proof.
  intros Hw Hid Hv Hr Hm1 Hm2 Hf Hl HK. unfold read_reliable_payload.
  rewrite read_from_envelope by done. cbn [payload_view pl_id].
  destruct (control_ack_acks id ch m Γ w r cb F o Hw Hid Hv Hr Hm1 Hm2) as (rc & w1 & o1 & H1 & Hv1 & Ha).
  unfold mbind at 1, io_bind at 1. rewrite H1.
  destruct (incoming_done id ch m w1 r cb F o1 Hv1 Hr Hf) as (w2 & r2 & H2 & Hv2 & Hp2 & Hs2 & Ho2).
  unfold mbind at 1, io_bind at 1. rewrite H2. cbn [negb].
  unfold mbind at 1, io_bind at 1, tally, tally_n, set_srv.
  by eapply HK; [exact Hv2|exact Ha|..].
Qed.

Lemma dispatch_frame_done id ch t bs m sequence Γ w r cb F o :
  SAt cfg Γ k w → is_Some (Γ !! id) →
  full_view id w = (Some r, cb, F, o) → rx_state r = ConnectionState.Established →
  channel_is_application ch = true → numbers_ok ch m sequence → fresh_id r ch m → in_turn r ch sequence →
  (channel_is_reliable ch = true → t ≠ ControlType.Fragment) → zlen bs + 16 <= U16_MAX →
  ∃ w', srv_dispatch_frame id (msg_view ch t (frame_body ch m sequence bs)) w = (Done tt, w') ∧
    has_delivered id (srv_message_events cb (rx_peer r) (msg_view ch t bs) ++ F) w' ∧ acks ch m o (out_view id w').
Proof.
  intros Hw Hid Hv Hst Hch [Hm Hseq] Hf Ht Hty Hlen. unfold srv_dispatch_frame.
  assert (∀ w1 r1 o1 ch' q, full_view id w1 = (Some r1, cb, F, o1) → acks ch m o o1 → rx_peer r1 = rx_peer r →
    rx_state r1 = rx_state r → channel_is_application ch' = true → in_turn r1 ch' q →
    (ch' = Channel.ReliableOrdered → q ≠ 0) →
    ∃ w', srv_deliver_or_close id ch' t (data_of bs) (zlen bs) q w1 = (Done tt, w') ∧
      has_delivered id (srv_message_events cb (rx_peer r) (msg_view ch' t bs) ++ F) w' ∧
      acks ch m o (out_view id w')) as Hdel.
  { intros w1 r1 o1 ch' q Hv1 Ha1 <- Hs1 Hc Hq Hq0.
    destruct (deliver_or_close_done id ch' t bs q w1 r1 cb F o1 Hv1) as (w' & H' & Hd & Ho);
      [congruence|assumption..|]. exists w'. rewrite Ho. split_and!; assumption. }
  assert (channel_is_reliable ch = false → acks ch m o o) as Hnone by (intros H0 H1; congruence).
  cbn [msg_view m_channel m_type m_data m_len]. destruct ch; cbn [frame_body]; [| | | |done].
  - by apply (Hdel w r o); [exact Hv|apply Hnone|..].
  - destruct (Hm eq_refl) as [Hm1 Hm2].
    apply (reliable_branch_done id Channel.Reliable m bs Γ w r cb F o); try assumption; [lia|].
    intros w1 r1 o1 Hv1 Ha1 Hp1 Hs1 _. unfold srv_deliver_reliable. cbn [m_type msg_view].
    rewrite (proj2 (Z.eqb_neq _ _) (Hty eq_refl)), decide_False by done. cbn [payload_view pl_data pl_len].
    by apply (Hdel w1 r1 o1).
  - destruct (Hm eq_refl) as [Hm1 Hm2]. destruct (Hseq (or_introl eq_refl)) as [Hq1 Hq2].
    apply (reliable_branch_done id Channel.ReliableOrdered m (enc_payload sequence bs) Γ w r cb F o); try assumption.
    { rewrite enc_payload_length. lia. }
    intros w1 r1 o1 Hv1 Ha1 Hp1 Hs1 Ho1. unfold srv_deliver_reliable. cbn [m_type msg_view m_channel].
    rewrite (proj2 (Z.eqb_neq _ _) (Hty eq_refl)), decide_True by done. cbn [payload_view pl_data pl_len].
    unfold read_ordered_payload. rewrite read_from_envelope by (done || lia).
    cbn [payload_view pl_data pl_len pl_id]. apply (Hdel w1 r1 o1); try done.
    cbn [in_turn] in *. by rewrite Ho1.
  - destruct (Hseq (or_intror eq_refl)) as [Hq1 Hq2].
    unfold read_sequenced_payload. rewrite read_from_envelope by (done || lia).
    cbn [payload_view pl_data pl_len pl_id]. by apply (Hdel w r o); [exact Hv|apply Hnone|..].
Qed.
End frame.

(** ** One packet *)

Section totals.
Context {HN : Ntop}.
Lemma now_total w : ∃ t w', os now_ms w = (Done t, w').
Proof. unfold os, now_ms. destruct (n_clock (sw_net w)); eauto. Qed.
Lemma on_packet_total e v w : ∃ a w', srv_on_packet e v w = (Done a, w').
Proof. unfold srv_on_packet, mbind, io_bind, srv. destruct (scb_on_packet _); eexists _, _; reflexivity. Qed.
Lemma debug_total d e v w : ∃ a w', srv_packet_debug d e v w = (Done a, w').
Proof. unfold srv_packet_debug, mbind, io_bind, srv. destruct (_ && _); eexists _, _; reflexivity. Qed.
Lemma set_session_total id f w r cb F o :
  full_view id w = (Some r, cb, F, o) → ∃ a w', set_session id f w = (Done a, w').
Proof.
  unfold full_view, rx_view. intros [= Hs _ _ _]. unfold set_session, mbind, io_bind, session.
  destruct (_ !! _) as [s|]; [|done]. eexists _, _. reflexivity.
Qed.
End totals.

Section packet.
Context {HN : Ntop} {HS : Sodium} {HL : SodiumLaws}.
Context (cfg : ServerConfig) (Hu : server_usable cfg) (k : nat).
Context (id : U64) (ch : Channel) (t : U8) (bs : list U8) (m sequence : U64).
Context (r : RxState) (cb : ServerCallbacks) (F : list ServerEvent) (o : Out).
Context (Γ : gmap U64 (Endpoint * ConnectionState)) (HΓ : is_Some (Γ !! id)).
Context (Hst : rx_state r = ConnectionState.Established) (Hch : channel_is_application ch = true).
Context (Hn : numbers_ok ch m sequence) (Hf : fresh_id r ch m) (Hturn : in_turn r ch sequence).
Context (Hty : channel_is_reliable ch = true → t ≠ ControlType.Fragment) (Ht : is_u8 t).
Context (Hlen : zlen bs <= NetConfig.MaxMessageBytes).

Let delivered (w : ServerWorld) : Prop :=
  has_delivered id (srv_message_events cb (rx_peer r) (msg_view ch t bs) ++ F) w ∧ acks ch m o (out_view id w).
Let frame := message_frame ch t m sequence bs.

Lemma dispatch_payload_done w :
  SAt cfg Γ k w → full_view id w = (Some r, cb, F, o) →
  ∃ w', srv_dispatch_payload id (data_of frame) (zlen frame) w = (Done tt, w') ∧ delivered w'.
Proof.
  intros Hw Hv. pose proof (frame_body_length ch m sequence bs) as Hb. change NetConfig.MaxMessageBytes with 1252 in Hlen.
  assert (data_of frame = Some frame) as ->.
  { unfold data_of. rewrite decide_False; [done|]. intros He%(f_equal length).
    unfold frame, message_frame in He. by rewrite length_enc_message in He. }
  unfold srv_dispatch_payload. change (mkReader (Some frame) (zlen frame) 0) with (reader_at [] frame).
  cbn [srv_dispatch_loop]. pose proof (read_message_app ch t (frame_body ch m sequence bs) [] [] Ht) as Hr.
  rewrite app_nil_r in Hr. change (enc_message _ _ _) with frame in Hr. rewrite Hr by ulia. clear Hr.
  eapply (quiet_step (SAt cfg Γ k) (full_view id)); [apply tally_safe|apply full_tally|done|by eexists _, _|].
  intros _ w1 Hw1 Hv1. rewrite Hv in Hv1.
  destruct (dispatch_frame_done cfg Hu k id ch t bs m sequence Γ w1 r cb F o) as (w2 & H2 & Hd);
    try done; [ulia|].
  unfold mbind at 1, io_bind at 1. rewrite H2. destruct Hd as [[Hlog (s & Hs & Hstate)] Hacks].
  unfold mbind at 1, io_bind at 1, session. rewrite Hs, decide_False by (by rewrite Hstate).
  replace (Z.to_nat (zlen frame)) with (S (length frame - 1)).
  2: { unfold frame, message_frame. rewrite length_enc_message. lia. }
  cbn [srv_dispatch_loop]. exists w2. split; [|split; [split; [exact Hlog|by exists s]|exact Hacks]].
  unfold read_message. erewrite bind_done by reflexivity. by rewrite r_remaining_at.
Qed.

Lemma session_packet_done v n w s :
  SAt cfg Γ k w → full_view id w = (Some r, cb, F, o) → s_sessions (sw_server w) !! id = Some s →
  pv_h v = message_header id n frame → n ≠ 0 → open_payload (ps_keys s) v = Done frame →
  (ReplayWindow.accept n (ps_packet_window s)).1 = true →
  ∃ w', handle_session_packet id v w = (Done tt, w') ∧ delivered w'.
Proof.
  intros Hw Hv Hs Hh Hn0 Hopen Hfresh.
  assert (session_ok cfg id s) as Hok by (apply (vo_sessions _ _ (si_server _ _ _ (proj1 Hw))); done).
  assert (rx_of s = r) as Hr by (unfold full_view, rx_view in Hv; rewrite Hs in Hv; by injection Hv).
  unfold handle_session_packet. unfold mbind at 1, io_bind at 1, session. rewrite Hs, Hh. cbv zeta.
  unfold message_header at 1 2 3. rewrite out_header_encrypted. cbn [out_header kind conn_id seq].
  rewrite (so_id _ _ _ Hok), Z.eqb_refl, Hopen. cbn [negb].
  change (kind_value PacketKind.Message =? kind_value PacketKind.Handshake) with false. cbv iota.
  unfold message_header at 1. cbn [out_header seq]. rewrite (proj2 (Z.eqb_neq _ _) Hn0).
  unfold message_header at 1. cbn [out_header seq].
  destruct (ReplayWindow.accept n (ps_packet_window s)) as [fresh win]. cbn [fst] in Hfresh. subst fresh.
  eapply (quiet_step (SAt cfg Γ k) (full_view id)); [|by apply full_set_session|exact Hw|by eapply set_session_total|].
  { apply safe_set_session; [exact HΓ| |reflexivity..]. clear. intros s' []. split; sfields; done. }
  intros _ w1 Hw1 Hv1. rewrite Hv in Hv1. cbn [negb].
  eapply (quiet_step (SAt cfg Γ k) (full_view id)); [apply srv_now_safe|apply full_os|exact Hw1|apply now_total|].
  intros now w2 Hw2 Hv2. rewrite Hv1 in Hv2.
  eapply (quiet_step (SAt cfg Γ k) (full_view id)); [|by apply full_set_session|exact Hw2|by eapply set_session_total|].
  { apply safe_set_session; [exact HΓ| |reflexivity..]. clear. intros s' []. split; sfields; done. }
  intros _ w3 Hw3 Hv3. rewrite Hv2 in Hv3.
  rewrite bool_decide_eq_false_2 by (by rewrite <- Hr in Hst; cbn in Hst; rewrite Hst).
  unfold mbind at 1, io_bind at 1, mret, io_ret.
  eapply (quiet_step (SAt cfg Γ k) (full_view id)); [apply srv_on_packet_safe|apply full_on_packet|exact Hw3|apply on_packet_total|].
  intros _ w4 Hw4 Hv4. rewrite Hv3 in Hv4.
  eapply (quiet_step (SAt cfg Γ k) (full_view id)); [apply srv_packet_debug_safe|apply full_debug|exact Hw4|apply debug_total|].
  intros _ w5 Hw5 Hv5. rewrite Hv4 in Hv5.
  unfold srv_dispatch_kind. cbn [message_header out_header kind pv_h pv_payload payload_len].
  change (kind_value PacketKind.Message =? kind_value PacketKind.Raw) with false.
  change (kind_value PacketKind.Message =? kind_value PacketKind.Message) with true. cbv iota zeta.
  rewrite w32_id; [by apply dispatch_payload_done|].
  pose proof (frame_body_length ch m sequence bs). change NetConfig.MaxMessageBytes with 1252 in Hlen.
  unfold frame, message_frame. rewrite length_enc_message. ulia.
Qed.
Lemma not_banned from now w :
  SAt cfg Γ k w → ab_banned_until_ms (abuse_state_for from (sw_server w)) <= now →
  ∃ w', endpoint_is_banned from now w = (Done false, w') ∧ SAt cfg Γ k w' ∧
    full_view id w' = full_view id w ∧ s_sessions (sw_server w') = s_sessions (sw_server w).
Proof.
  intros Hw Hban. pose proof (is_banned_safe cfg Γ k from now w Hw) as Hs.
  pose proof (full_banned id from now w) as Hg. unfold wp in Hs.
  assert (endpoint_is_banned from now w = (Done false, (endpoint_is_banned from now w).2)) as He.
  { unfold endpoint_is_banned, mbind, io_bind, srv, set_abuse, set_srv, mret, io_ret. cbn [fst snd].
    by rewrite (proj2 (Z.ltb_ge _ _) Hban). }
  rewrite He in Hs. eexists. split_and!; [exact He|exact Hs|exact Hg|reflexivity].
Qed.

(** The time of the first clock reading. *)
Definition reading (w : ServerWorld) : U64 :=
  match (now_ms (sw_net w)).1 with Done now => now | _ => 0 end.

Lemma handle_packet_done {HT : Traversal} from v n w s :
  SInv cfg k w → views w = Γ → full_view id w = (Some r, cb, F, o) →
  s_sessions (sw_server w) !! id = Some s → ep_eqb (ps_endpoint s) from = true →
  ab_banned_until_ms (abuse_state_for from (sw_server w)) <= reading w →
  pv_h v = message_header id n frame → n ≠ 0 → open_payload (ps_keys s) v = Done frame →
  (ReplayWindow.accept n (ps_packet_window s)).1 = true →
  ∃ w', srv_handle_packet from v w = (Done tt, w') ∧ delivered w'.
Proof.
  intros Hw HΓw Hv Hs He Hban Hh Hn0 Hopen Hfresh.
  assert (session_ok cfg id s) as Hok by (apply (vo_sessions _ _ (si_server _ _ _ Hw)); exact Hs).
  unfold srv_handle_packet. cbv zeta. rewrite Hh. cbn [message_header out_header kind conn_id].
  unfold mbind at 1, io_bind at 1, os. unfold reading in Hban.
  destruct (now_ms (sw_net w)) as [o' net] eqn:Hnow.
  assert (∃ now, o' = Done now) as [now ->].
  { unfold now_ms in Hnow. destruct (n_clock (sw_net w)); injection Hnow as <- <-; by eexists. }
  cbn [fst] in Hban. set (w1 := mkServerWorld (sw_server w) net (sw_events w)).
  assert (SAt cfg Γ k w1) as Hw1.
  { pose proof (srv_now_safe cfg Γ k w (conj Hw HΓw)) as Hsafe. unfold wp, os in Hsafe.
    by rewrite Hnow in Hsafe. }
  destruct (not_banned from now w1 Hw1 Hban) as (w2 & H2 & Hw2 & Hv2 & Hs2).
  unfold mbind at 1, io_bind at 1. rewrite H2.
  change (kind_value PacketKind.Message =? kind_value PacketKind.Handshake) with false.
  rewrite (proj2 (Z.eqb_neq _ _) (proj2 (so_id_range _ _ _ Hok))).
  assert (∃ w', (v0 ← srv; match find_session id v0 with
    | Some s0 => if ep_eqb (ps_endpoint s0) from then handle_session_packet id v
                 else refuse from id CloseReason.UnknownConnection;; fail Errc.Closed "unknown session"
    | None => refuse from id CloseReason.UnknownConnection;; fail Errc.Closed "unknown session"
    end) w2 = (Done tt, w') ∧ delivered w') as (w' & Hrun & Hd).
  { unfold mbind at 1, io_bind at 1, srv, find_session. rewrite Hs2. cbn [sw_server w1]. rewrite Hs, He.
    apply (session_packet_done v n w2 s); try assumption; [by rewrite Hv2|by rewrite Hs2]. }
  exists w'. split; [|exact Hd]. unfold mbind at 1, io_bind at 1, attempt. cbv iota. rewrite Hrun. reflexivity.
Qed.
End packet.
