(* ===== verification/ClientDeliver.v ===== *)
(** * From an authentic packet to the callbacks of the client

    What [Client::handle_packet] does with one message frame of an established
    session: on an application channel it hands the message to the user, on the
    control channel an acknowledgement releases the message it names. *)
From S2P Require Import Prelude Result Hoare ByteBuf Config Message Packet Protocol Windows Payloads.
From S2P Require Import Reliability Ordered Fragmentation Congestion Crypto Stats Endpoint.
From S2P Require Import Socket Client ClientRecv ClientInv ClientSafe ClientProps Sealing.
#[local] Open Scope Z_scope.

(** ** What delivery reads *)

(** The messages among the events. *)
Definition is_message (e : Event) : bool :=
  match e with OnMessage _ | OnText _ _ | OnBinary _ => true | _ => false end.
Definition heard (log : list Event) : list Event := filter (λ e, is_message e = true) log.

Lemma heard_skip e log : is_message e = false → heard (e :: log) = heard log.
Proof. intros He. unfold heard. rewrite filter_cons_False; [done|]. by rewrite He. Qed.
Lemma heard_messages cb m log : heard (message_events cb m ++ log) = message_events cb m ++ heard log.
Proof. unfold message_events, heard. rewrite !filter_app. do 3 case_match; done. Qed.

Record CRx := mkCRx {
  cx_state : ConnectionState;
  cx_reliable : ReliableSession;
  cx_ordered_reliable : ReliableSession;
  cx_ordered : OrderedReceiveWindow;
  cx_sequenced : SequencedReceiveWindow;
  cx_callbacks : Callbacks;
  cx_heard : list Event;
  cx_reassembler : FragmentReassembler;
}.
Definition crx (w : World) : CRx :=
  let c := w_client w in
  mkCRx (c_state c) (c_reliable c) (c_ordered_reliable c) (c_ordered c) (c_sequenced c) (c_callbacks c)
    (heard (w_events w)) (c_reassembler c).

(** What opening a packet reads. *)
Definition rx_side (w : World) :=
  let c := w_client w in (c_state c, c_session_keys c, c_conn_id c, c_packet_window c).
Definition cfull (w : World) := (crx w, rx_side w).

(** The receive windows. *)
Definition crx_windows (c : Client) : RxWindows :=
  mkRxWindows (rs_received (c_reliable c)) (rs_received (c_ordered_reliable c)) (c_ordered c) (c_sequenced c).

Section stable.
Context {HS : Sodium}.

Lemma crx_update f :
  (∀ c, c_state (f c) = c_state c ∧ c_reliable (f c) = c_reliable c ∧
        c_ordered_reliable (f c) = c_ordered_reliable c ∧ c_ordered (f c) = c_ordered c ∧
        c_sequenced (f c) = c_sequenced c ∧ c_callbacks (f c) = c_callbacks c ∧
        c_reassembler (f c) = c_reassembler c) →
  Stable crx (update f).
Proof. intros Hf w. unfold crx. cbn. by destruct (Hf (w_client w)) as (-> & -> & -> & -> & -> & -> & ->). Qed.
Lemma crx_emit e : is_message e = false → Stable crx (emit e).
Proof. intros He w. unfold crx, emit. cbn [snd w_client w_events]. by rewrite heard_skip. Qed.
Lemma crx_sys {A} (m : io Net A) : Stable crx (sys m).
Proof. intros w. unfold sys. by destruct (m (w_net w)). Qed.
Lemma crx_this : Stable crx this.
Proof. done. Qed.

Lemma crx_count f : Stable crx (count f).
Proof. unfold count, count_n. apply crx_update. intros ?. split_and!; reflexivity. Qed.
Lemma crx_refresh : Stable crx refresh_runtime_stats.
Proof. unfold refresh_runtime_stats. apply crx_update. intros ?. split_and!; reflexivity. Qed.

Ltac crx_steps :=
  repeat first
    [ match goal with |- Stable _ (update _) => apply crx_update; intros ?; split_and!; reflexivity end
    | match goal with |- Stable _ (fail _ _) => done | |- Stable _ this => done
      | |- Stable _ (count _) => apply crx_count | |- Stable _ refresh_runtime_stats => apply crx_refresh end
    | solve [eauto 2 with stable nocore]
    | apply crx_emit; reflexivity
    | apply crx_sys
    | apply stable_when
    | apply stable_attempt
    | apply stable_bind; [|intros ?]
    | case_match
    | done ].

Lemma crx_on_packet v : Stable crx (emit_on_packet v).
Proof. unfold emit_on_packet. crx_steps. Qed.
Lemma crx_debug d v : Stable crx (emit_packet_debug d v).
Proof. unfold emit_packet_debug. crx_steps. Qed.
Lemma crx_enqueue p : Stable crx (enqueue_pending_packet p).
Proof. unfold enqueue_pending_packet. crx_steps. Qed.
#[local] Hint Resolve crx_enqueue : stable.
Lemma crx_queue_packet kd enc p n prio id : Stable crx (queue_packet kd enc p n prio id).
Proof. unfold queue_packet. crx_steps. Qed.
#[local] Hint Resolve crx_queue_packet : stable.
Lemma crx_message ch t p n prio : Stable crx (queue_message_packet ch t p n prio).
Proof. unfold queue_message_packet, queue_internal_message. crx_steps. Qed.
Lemma crx_ack ch m : Stable crx (queue_control_ack ch m).
Proof. unfold queue_control_ack, queue_internal_message. crx_steps. Qed.

(** The same for what opening reads, and for both. *)
Lemma side_update f :
  (∀ c, c_state (f c) = c_state c ∧ c_session_keys (f c) = c_session_keys c ∧ c_conn_id (f c) = c_conn_id c ∧
        c_packet_window (f c) = c_packet_window c) → Stable rx_side (update f).
Proof. intros Hf w. unfold rx_side. cbn. by destruct (Hf (w_client w)) as (-> & -> & -> & ->). Qed.
Lemma side_sys {A} (m : io Net A) : Stable rx_side (sys m).
Proof. intros w. unfold sys. by destruct (m (w_net w)). Qed.
Lemma side_count f : Stable rx_side (count f).
Proof. unfold count, count_n. apply side_update. intros ?. split_and!; reflexivity. Qed.
Lemma side_refresh : Stable rx_side refresh_runtime_stats.
Proof. unfold refresh_runtime_stats. apply side_update. intros ?. split_and!; reflexivity. Qed.
Lemma cfull_stable {A} (m : io World A) : Stable crx m → Stable rx_side m → Stable cfull m.
Proof. intros H1 H2 w. unfold cfull. by rewrite H1, H2. Qed.
Lemma cfull_sys {A} (m : io Net A) : Stable cfull (sys m).
Proof. apply cfull_stable; [apply crx_sys|apply side_sys]. Qed.
Lemma cfull_count f : Stable cfull (count f).
Proof. apply cfull_stable; [apply crx_count|apply side_count]. Qed.
Lemma cfull_on_packet v : Stable cfull (emit_on_packet v).
Proof.
  apply cfull_stable; [apply crx_on_packet|]. unfold emit_on_packet. apply stable_bind; [done|intros c].
  by apply stable_when.
Qed.
Lemma cfull_debug d v : Stable cfull (emit_packet_debug d v).
Proof.
  apply cfull_stable; [apply crx_debug|]. unfold emit_packet_debug. apply stable_bind; [done|intros c].
  by apply stable_when.
Qed.
End stable.

(** ** One message *)

Section delivery.

Lemma deliver_application_done w ch t bs sequence text :
  channel_is_application ch = true → in_turn (crx_windows (w_client w)) ch sequence →
  (ch = Channel.ReliableOrdered → sequence ≠ 0) →
  ∃ w', deliver_or_fail ch t (data_of bs) (zlen bs) sequence text w = (Done tt, w') ∧
    heard (w_events w') = message_events (c_callbacks (w_client w)) (msg_view ch t bs) ++ heard (w_events w) ∧
    c_state (w_client w') = c_state (w_client w).
Proof.
  intros Hch Hx Hseq. unfold deliver_or_fail, mbind, io_bind, call, deliver_application_message. cbv zeta.
  destruct ch; cbn [in_turn crx_windows rx_ordered rx_sequenced] in Hx; [| | | |done].
  - eexists. split; [reflexivity|]. split; [apply heard_messages|reflexivity].
  - eexists. split; [reflexivity|]. split; [apply heard_messages|reflexivity].
  - destruct Hx as (Hn & Hb). rewrite decide_True by done.
    destruct (accept_ordered_next (deliver_ordered (c_callbacks (w_client w))) sequence t (data_of bs)
      (zlen bs) (c_ordered (w_client w)) (w_events w, 0) _ (Hseq eq_refl) Hn Hb eq_refl)
      as (-> & -> & -> & ->).
    eexists. split; [reflexivity|]. split; [apply heard_messages|reflexivity].
  - rewrite decide_False, decide_True by done.
    destruct (Sequenced.accept _ _) as [fresh win]. cbn in Hx. subst fresh. cbn [negb].
    eexists. split; [reflexivity|]. split; [apply heard_messages|reflexivity].
Qed.
End delivery.

(** ** One frame *)

Definition reliable_session (ch : Channel) (c : Client) : ReliableSession :=
  if decide (ch = Channel.ReliableOrdered) then c_ordered_reliable c else c_reliable c.
Definition with_session (ch : Channel) (s : ReliableSession) (c : Client) : Client :=
  if decide (ch = Channel.ReliableOrdered) then c <| c_ordered_reliable := s |> else c <| c_reliable := s |>.

Lemma on_session_run {A} w ch (m : io ReliableSession A) o s :
  m (reliable_session ch (w_client w)) = (o, s) →
  on_session ch m w = (o, mkWorld (with_session ch s (w_client w)) (w_net w) (w_events w)).
Proof. unfold on_session, reliable_session, with_session. by case_decide; intros ->. Qed.

Lemma now_run w : ∃ now net, sys now_ms w = (Done now, mkWorld (w_client w) net (w_events w)).
Proof. unfold sys, now_ms. destruct (n_clock (w_net w)); by eexists _, _. Qed.

Lemma crx_session_eq ch w w' :
  crx w' = crx w → reliable_session ch (w_client w') = reliable_session ch (w_client w).
Proof. unfold crx, reliable_session. intros [= _ -> -> _ _ _ _ _]. done. Qed.

Section frame.
Context {HS : Sodium} {HL : SodiumLaws} (k : nat).
#[local] Abbreviation Est := (At ConnectionState.Established k).

(** What remains to be read after an incoming number was accepted. *)
Definition still (w w' : World) : Prop :=
  c_state (w_client w') = c_state (w_client w) ∧ c_callbacks (w_client w') = c_callbacks (w_client w) ∧
  c_ordered (w_client w') = c_ordered (w_client w) ∧ heard (w_events w') = heard (w_events w).

Lemma reliable_frame_done ch t m inner w (Q : World → Prop) :
  Est w → channel_is_reliable ch = true → is_u64 m → m ≠ 0 → zlen inner <= U16_MAX →
  fresh_id (crx_windows (w_client w)) ch m →
  (∀ w1, still w w1 → ∃ w', deliver_reliable (msg_view ch t (enc_payload m inner)) (payload_view m inner) w1
     = (Done tt, w') ∧ Q w') →
  ∃ w', dispatch_message_frame (msg_view ch t (enc_payload m inner)) w = (Done tt, w') ∧ Q w'.
Proof.
  intros Hw Hch Hm H0 Hl Hf HK.
  assert (read_from (data_of (enc_payload m inner)) (zlen (enc_payload m inner)) read_reliable_payload =
    Done (payload_view m inner)) as Hr by (by apply read_from_envelope).
  destruct (attempt_run Est crx (queue_control_ack ch m) w (queue_control_ack_safe _ _ ch m) (crx_ack ch m) Hw)
    as (rc & w1 & H1 & _ & Hv1).
  assert (∃ s, accept_incoming m (reliable_session ch (w_client w1)) = (true, s)) as (s & Hs).
  { unfold crx in Hv1. injection Hv1 as _ Hv1 Hv2 _ _ _ _ _. unfold accept_incoming, reliable_session.
    destruct ch; try discriminate Hch; cbn [fresh_id crx_windows rx_reliable rx_ordered_reliable] in Hf;
      case_decide; try done; rewrite ?Hv1, ?Hv2; destruct (ReliableReceiveWindow.accept _ _) as [b win];
      cbn in Hf; subst b; by eexists. }
  assert (dispatch_message_frame (msg_view ch t (enc_payload m inner)) w =
    deliver_reliable (msg_view ch t (enc_payload m inner)) (payload_view m inner)
      (mkWorld (counted Stat.reliable_messages_delivered 1 (with_session ch s (w_client w1))) (w_net w1) (w_events w1)))
    as ->.
  { unfold dispatch_message_frame. cbn [msg_view m_channel m_data m_len]. destruct ch; try discriminate Hch;
      rewrite Hr; cbn [payload_view pl_id]; unfold mbind at 1, io_bind at 1; rewrite H1;
      unfold mbind at 1, io_bind at 1; (erewrite on_session_run; [|by rewrite Hs]); reflexivity. }
  apply HK. unfold crx in Hv1. injection Hv1 as E1 _ _ E2 _ E3 E4 _. unfold still, counted, with_session.
  case_decide; cbn [w_client w_events]; fields; by split_and!.
Qed.

Lemma still_in_turn w w' sequence :
  still w w' → in_turn (crx_windows (w_client w)) Channel.ReliableOrdered sequence →
  in_turn (crx_windows (w_client w')) Channel.ReliableOrdered sequence.
Proof. intros (_ & _ & He & _). cbn [in_turn crx_windows rx_ordered]. by rewrite He. Qed.

Lemma crx_windows_eq w w' : crx w' = crx w → crx_windows (w_client w') = crx_windows (w_client w).
Proof. unfold crx, crx_windows. by intros [= _ -> -> -> -> _ _ _]. Qed.

(** The user got exactly this message and the session is still established. *)
Definition got (w : World) (m : MsgView) (w' : World) : Prop :=
  heard (w_events w') = message_events (c_callbacks (w_client w)) m ++ heard (w_events w) ∧
  c_state (w_client w') = ConnectionState.Established.

Lemma got_still w w1 m w' : still w w1 → got w1 m w' → got w m w'.
Proof. intros (_ & Hc & _ & Hh) []. split; [|done]. congruence. Qed.

Lemma got_crx w w1 m w' : crx w1 = crx w → got w1 m w' → got w m w'.
Proof. unfold crx. intros [= _ _ _ _ _ Hc Hh _] []. split; [|done]. congruence. Qed.

Lemma client_frame_done w ch t bs m sequence :
  Est w → channel_is_application ch = true → numbers_ok ch m sequence →
  fresh_id (crx_windows (w_client w)) ch m → in_turn (crx_windows (w_client w)) ch sequence →
  (channel_is_reliable ch = true → t ≠ ControlType.Fragment) → zlen bs + 16 <= U16_MAX →
  ∃ w', dispatch_message_frame (msg_view ch t (frame_body ch m sequence bs)) w = (Done tt, w') ∧
    got w (msg_view ch t bs) w'.
Proof.
  intros Hw Hch [Hm Hseq] Hf Ht Hty Hlen. pose proof (proj2 Hw) as Hst.
  assert (∀ w1 ch' q text, still w w1 → channel_is_application ch' = true →
    in_turn (crx_windows (w_client w1)) ch' q → (ch' = Channel.ReliableOrdered → q ≠ 0) →
    ∃ w', deliver_or_fail ch' t (data_of bs) (zlen bs) q text w1 = (Done tt, w') ∧ got w (msg_view ch' t bs) w')
    as Hdel.
  { intros w1 ch' q text Hs1 Hc Hq Hq0.
    destruct (deliver_application_done w1 ch' t bs q text Hc Hq Hq0) as (w' & H' & Hh' & Hst').
    exists w'. split; [exact H'|]. apply (got_still w w1); [exact Hs1|]. split; [exact Hh'|].
    rewrite Hst', (proj1 Hs1). exact Hst. }
  assert (still w w) as Hrefl by done.
  destruct ch; cbn [frame_body]; [| | | |done].
  - unfold dispatch_message_frame. cbn [msg_view m_channel m_data m_len m_type]. by apply Hdel.
  - destruct (Hm eq_refl) as [Hm1 Hm2].
    apply reliable_frame_done; try done; [lia|]. intros w1 Hs1. unfold deliver_reliable.
    cbn [msg_view m_type m_channel]. rewrite (proj2 (Z.eqb_neq _ _) (Hty eq_refl)), decide_False by done.
    cbn [payload_view pl_data pl_len]. by apply Hdel.
  - destruct (Hm eq_refl) as [Hm1 Hm2]. destruct (Hseq (or_introl eq_refl)) as [Hq1 Hq2].
    apply reliable_frame_done; try done. { rewrite enc_payload_length. lia. }
    intros w1 Hs1. unfold deliver_reliable.
    cbn [msg_view m_type m_channel]. rewrite (proj2 (Z.eqb_neq _ _) (Hty eq_refl)), decide_True by done.
    cbn [payload_view pl_data pl_len]. unfold read_ordered_payload. rewrite read_from_envelope by (done || lia).
    cbn [payload_view pl_data pl_len pl_id]. apply Hdel; try done. by apply (still_in_turn w).
  - destruct (Hseq (or_intror eq_refl)) as [Hq1 Hq2].
    unfold dispatch_message_frame. cbn [msg_view m_channel m_data m_len m_type].
    unfold read_sequenced_payload. rewrite read_from_envelope by (done || lia).
    cbn [payload_view pl_data pl_len pl_id]. by apply Hdel.
Qed.

(** An acknowledgement is applied to the session of its channel. *)
Lemma client_ack_done w ch m :
  Est w → channel_is_reliable ch = true → is_u64 m → m ≠ 0 →
  ∃ w' now, dispatch_message_frame (msg_view Channel.Control ControlType.ReliableAck (enc_ack (ch, m))) w
      = (Done tt, w') ∧
    reliable_session ch (w_client w') = (acknowledge m now (reliable_session ch (w_client w))).2 ∧
    c_state (w_client w') = ConnectionState.Established.
Proof.
  intros Hw Hch Hm H0. unfold dispatch_message_frame. cbn [msg_view m_channel].
  unfold dispatch_control. cbn [msg_view m_type m_data m_len].
  change (ControlType.ReliableAck =? ControlType.ReliableAck) with true. cbv iota. rewrite read_ack_done by done.
  destruct (now_run w) as (now & net & Hnow). unfold mbind at 1, io_bind at 1. rewrite Hnow.
  pose proof (now_ms_safe ConnectionState.Established k w Hw) as Hw1. unfold wp in Hw1. rewrite Hnow in Hw1.
  set (w1 := mkWorld (w_client w) net (w_events w)) in *.
  pose proof (iv_client _ _ (proj1 Hw1)) as Hc.
  assert (∃ ev s, acknowledge m now (reliable_session ch (w_client w)) = (Done ev, s)) as (ev & s & Hack).
  { pose proof (client_ok_reliability _ Hc) as Hv.
    assert (rs_cfg (reliable_session ch (w_client w)) = client_reliability (c_config (w_client w))) as Hcfg
      by (unfold reliable_session; case_decide; apply Hc).
    unfold acknowledge. destruct (extract _ _) as [[it rest]|]; [|by eexists _, _]. cbv zeta.
    destruct (_ && _ && _); [|by eexists _, _].
    match goal with |- context [update_rtt ?c ?x ?t] => destruct (update_rtt_ok c x t) as (t' & -> & _) end;
      [by rewrite Hcfg|]. by eexists _, _. }
  unfold mbind at 1, io_bind at 1. rewrite (on_session_run w1 ch _ _ _ Hack).
  set (w2 := mkWorld (with_session ch s (w_client w1)) (w_net w1) (w_events w1)).
  assert (∀ w3, reliable_session ch (w_client w3) = s → c_state (w_client w3) = ConnectionState.Established →
    ∃ w' now', refresh_runtime_stats w3 = (Done tt, w') ∧
      reliable_session ch (w_client w') = (acknowledge m now' (reliable_session ch (w_client w))).2 ∧
      c_state (w_client w') = ConnectionState.Established) as Hend.
  { intros w3 Hs3 Hst3. eexists _, now. split; [reflexivity|]. rewrite Hack. cbn [snd].
    split; [rewrite <- Hs3; reflexivity|exact Hst3]. }
  assert (reliable_session ch (w_client w2) = s ∧ c_state (w_client w2) = ConnectionState.Established ∧
    c_congestion (w_client w2) = c_congestion (w_client w1)) as (Hs2 & Hst2 & Hcc2).
  { pose proof (proj2 Hw). unfold w2, reliable_session, with_session. case_decide; by split_and!. }
  destruct (ev_removed ev); [|by unfold mbind, io_bind, mret, io_ret; apply Hend].
  destruct (cc_step_inv (client_congestion (c_config (w_client w1)))
    (client_send_budget_bytes_per_second (c_config (w_client w1)))
    (EvAck (ev_rtt_sample_valid ev) (ev_rtt_sample_ms ev) (ev_retransmitted ev)) (c_congestion (w_client w1)))
    as (cc & Hcc & _); [apply client_usable_congestion, Hc|apply Hc|].
  cbn [cc_step] in Hcc. unfold mbind, io_bind, count, count_n, on_congestion, update, this, lift.
  unfold mbind, io_bind. cbv beta iota.
  match goal with |- context [on_ack _ _ _ ?c] => change c with (c_congestion (w_client w2)) end.
  rewrite Hcc2, Hcc. by apply Hend.
Qed.
End frame.

(** ** One packet *)

Section packet.
Context {HS : Sodium} {HL : SodiumLaws} (k : nat).
#[local] Abbreviation Est := (At ConnectionState.Established k).

(** A payload that is one frame. *)
Lemma client_payload_done w ch t body (Q : World → Prop) :
  is_u8 t → zlen body <= U16_MAX →
  (∀ w1, cfull w1 = cfull w → Est w1 → ∃ w', dispatch_message_frame (msg_view ch t body) w1 = (Done tt, w') ∧ Q w' ∧
     c_state (w_client w') = ConnectionState.Established) → Est w →
  ∃ w', dispatch_message_payload (data_of (enc_message ch t body)) (zlen (enc_message ch t body)) w = (Done tt, w') ∧
    Q w' ∧ c_state (w_client w') = ConnectionState.Established.
Proof.
  intros Ht Hl HK Hw. unfold dispatch_message_payload. rewrite data_of_message.
  change (mkReader (Some (enc_message ch t body)) _ 0) with (reader_at [] (enc_message ch t body)).
  cbn [dispatch_loop]. pose proof (read_message_app ch t body [] [] Ht Hl) as Hr. rewrite app_nil_r in Hr.
  rewrite Hr. clear Hr.
  eapply (quiet_step Est cfull); [apply count_safe|apply cfull_count|exact Hw|eexists _, _; reflexivity|].
  intros _ w1 Hw1 Hv1. destruct (HK w1 Hv1 Hw1) as (w2 & H2 & HQ & Hst).
  unfold mbind at 1, io_bind at 1. rewrite H2. unfold mbind at 1, io_bind at 1, this.
  rewrite decide_False by (by rewrite Hst).
  replace (Z.to_nat (zlen (enc_message ch t body))) with (S (3 + length body))
    by (rewrite length_enc_message; lia).
  cbn [dispatch_loop]. exists w2. split; [|by split].
  unfold read_message. erewrite bind_done by reflexivity. by rewrite r_remaining_at.
Qed.

Lemma on_packet_run v w : ∃ a w', emit_on_packet v w = (Done a, w').
Proof. unfold emit_on_packet, mbind, io_bind, this. destruct (cb_on_packet _); eexists _, _; reflexivity. Qed.
Lemma debug_run d v w : ∃ a w', emit_packet_debug d v w = (Done a, w').
Proof. unfold emit_packet_debug, mbind, io_bind, this. destruct (_ && _); eexists _, _; reflexivity. Qed.

(** The client is the receiver of packet [v], number [n], that carries [frame]. *)
Record receives (c : Client) (v : PacketView) (n : U64) (frame : list U8) : Prop := {
  rc_header : pv_h v = message_header (c_conn_id c) n frame;
  rc_number : n ≠ 0;
  rc_opens : open_payload (c_session_keys c) v = Done frame;
  rc_keys : keys_empty (c_session_keys c) = false;
  rc_fresh : (ReplayWindow.accept n (c_packet_window c)).1 = true;
}.

Lemma client_packet_done w v n ch t body (Q : World → Prop) :
  Est w → receives (w_client w) v n (enc_message ch t body) → is_u8 t → zlen body <= NetConfig.MaxMessageBytes →
  (∀ w1, crx w1 = crx w → rx_side w1 = (ConnectionState.Established, c_session_keys (w_client w),
           c_conn_id (w_client w), (ReplayWindow.accept n (c_packet_window (w_client w))).2) → Est w1 → ∃ w', dispatch_message_frame (msg_view ch t body) w1 = (Done tt, w') ∧ Q w' ∧
     c_state (w_client w') = ConnectionState.Established) →
  ∃ w', handle_packet v w = (Done tt, w') ∧ Q w'.
Proof.
  intros Hw [Hh Hn Hopen Hk Hfresh] Ht Hl HK. change NetConfig.MaxMessageBytes with 1252 in Hl.
  set (frame := enc_message ch t body) in *.
  assert (zlen frame = 4 + zlen body) as Hfl by (unfold frame; rewrite length_enc_message; lia).
  assert (∃ w', handle_established_packet v w = (Done tt, w') ∧ Q w') as (w' & H' & HQ).
  { unfold handle_established_packet. cbv zeta. rewrite Hh. unfold message_header at 1. rewrite out_header_encrypted.
    cbn [negb]. unfold mbind at 1, io_bind at 1, this. rewrite Hk, Hopen.
    cbn [message_header out_header conn_id seq kind]. rewrite Z.eqb_refl, (proj2 (Z.eqb_neq _ _) Hn). cbn [negb].
    destruct (ReplayWindow.accept n _) as [fresh win] eqn:Hacc. cbn [fst] in Hfresh. subst fresh. cbn [snd] in HK.
    unfold mbind at 1, io_bind at 1, update at 1. cbn [negb].
    set (w1 := mkWorld _ (w_net w) (w_events w)).
    assert (Est w1) as Hw1.
    { apply At_update; [|done..|exact Hw]. same_fields. }
    assert (cfull w1 = (crx w, (ConnectionState.Established, c_session_keys (w_client w), c_conn_id (w_client w), win)))
      as Hv1 by (rewrite <- (proj2 Hw); reflexivity).
    eapply (quiet_step Est cfull); [apply now_ms_safe|apply cfull_sys|exact Hw1| |].
    { destruct (now_run w1) as (now & net & ->). by eexists _, _. }
    intros now w2 Hw2 Hv2.
    eapply (quiet_step Est cfull); [|apply cfull_stable; [apply crx_update; intros c; by split_and!|apply side_update; intros c; by split_and!]|exact Hw2|eexists _, _; reflexivity|].
    { apply safe_update; [|done..]. intros c Hc _. revert Hc. same_fields. }
    intros _ w3 Hw3 Hv3.
    eapply (quiet_step Est cfull); [apply emit_on_packet_safe|apply cfull_on_packet|exact Hw3|apply on_packet_run|].
    intros _ w4 Hw4 Hv4.
    eapply (quiet_step Est cfull); [apply emit_packet_debug_safe|apply cfull_debug|exact Hw4|apply debug_run|].
    intros _ w5 Hw5 Hv5. unfold dispatch_kind. cbn [pv_h pv_payload payload_len].
    change (kind_value PacketKind.Message =? kind_value PacketKind.Raw) with false.
    change (kind_value PacketKind.Message =? kind_value PacketKind.Message) with true. cbv iota zeta.
    rewrite w32_id by ulia.
    destruct (client_payload_done w5 ch t body Q Ht) as (w6 & H6 & HQ & Hst); [ulia| |exact Hw5|].
    { intros w6 Hv6. assert (cfull w6 = cfull w1) as Hv by congruence. rewrite Hv1 in Hv.
      apply pair_equal_spec in Hv as [Ha Hb]. by apply HK. }
    exists w6. split; [|exact HQ]. unfold mbind at 1, io_bind at 1. fold frame in H6. rewrite H6.
    unfold mbind at 1, io_bind at 1, this. rewrite decide_False; [reflexivity|]. by rewrite Hst. }
  exists w'. split; [|exact HQ]. unfold handle_packet. cbv zeta. unfold mbind at 1, io_bind at 1, this.
  rewrite Hh. cbn [message_header out_header kind].
  change (kind_value PacketKind.Message =? kind_value PacketKind.Handshake) with false.
  change (kind_value PacketKind.Message =? kind_value PacketKind.Close) with false. cbn [andb].
  unfold mbind at 1, io_bind at 1, attempt. rewrite H'. reflexivity.
Qed.
End packet.
