(* ===== verification/EndToEnd.v ===== *)
(** * From [send] at the client to the callbacks of the server

    The composition of [Client::send], the packet layer and
    [Server::handle_packet]: a message that fits one packet reaches the user of
    the peer with its channel, type and bytes. *)
From S2P Require Import Prelude Result Hoare ByteBuf Config Message Packet Protocol Windows Payloads.
From S2P Require Import Reliability Ordered Fragmentation Congestion Crypto Stats Endpoint Socket.
From S2P Require Import Client ClientRecv ClientInv ClientSafe Server ServerSend ServerRecv ServerInv.
From S2P Require Import ServerSafe ServerSafeRecv ServerAdmit ServerLoop ClientProps ServerProps ServerAuth.
From S2P Require Import Sealing Deliver ClientDeliver.
#[local] Open Scope Z_scope.

(** ** What sealing a packet depends on *)

Definition tx_view (w : World) :=
  let c := w_client w in
  (c_session_keys c, c_conn_id c, c_seq c, c_pending c, c_config c).

Record tx_ready (w : World) : Prop := {
  tr_keys : is_array 32 (sk_tx (c_session_keys (w_client w)));
  tr_ready : keys_empty (c_session_keys (w_client w)) = false;
  tr_conn : is_u64 (c_conn_id (w_client w)) ∧ c_conn_id (w_client w) ≠ 0;
  tr_seq : is_u64 (c_seq (w_client w));
  tr_room : zlen (c_pending (w_client w)) < client_max_pending_packets (c_config (w_client w));
}.

Lemma tx_view_fields w w' :
  tx_view w' = tx_view w →
  c_session_keys (w_client w') = c_session_keys (w_client w) ∧
  c_conn_id (w_client w') = c_conn_id (w_client w) ∧
  c_seq (w_client w') = c_seq (w_client w) ∧ c_pending (w_client w') = c_pending (w_client w).
Proof. unfold tx_view. by intros [= -> -> -> -> _]. Qed.

Lemma tx_ready_view w w' : tx_view w' = tx_view w → tx_ready w → tx_ready w'.
Proof. unfold tx_view. intros [= Hk Hc Hs Hp Hcfg] []. split; congruence. Qed.

Lemma tx_sys {A} (m : io Net A) : Stable tx_view (sys m).
Proof. intros w. unfold sys. by destruct (m (w_net w)). Qed.
Lemma tx_on_session {A} ch (m : io ReliableSession A) : Stable tx_view (on_session ch m).
Proof.
  intros w. unfold on_session. case_decide.
  - by destruct (m (c_ordered_reliable (w_client w))).
  - by destruct (m (c_reliable (w_client w))).
Qed.

Section sending.
Context {HS : Sodium} {HL : SodiumLaws}.

(** A queued packet carries [frame]; nothing else is queued. *)
Definition queued (peer : SessionKeys) (frame : list U8) (w w' : World) : Prop :=
  ∃ pp, c_pending (w_client w') = insert_pending pp (c_pending (w_client w)) ∧
    carries peer (c_conn_id (w_client w)) (c_seq (w_client w)) frame pp.

Lemma queue_internal_done w ch t body prio peer :
  tx_ready w → sk_rx peer = sk_tx (c_session_keys (w_client w)) → is_u8 t → bytes_ok body →
  zlen body <= NetConfig.MaxMessageBytes →
  ∃ w', queue_internal_message ch t (data_of body) (zlen body) prio w = (Done tt, w') ∧
    queued peer (enc_message ch t body) w w'.
Proof.
  intros [Hk Hr [Hc Hc0] Hs Hroom] Hpeer Ht Hb Hlen. unfold queue_internal_message.
  rewrite write_message_done by done. unfold mbind at 1, io_bind at 1, lift.
  set (frame := enc_message ch t body). change NetConfig.MaxMessageBytes with 1252 in Hlen.
  assert (zlen frame <= NetConfig.MaxEncryptedPlaintextBytes) as Hfmax.
  { unfold frame. rewrite length_enc_message. change NetConfig.MaxEncryptedPlaintextBytes with 1256. lia. }
  assert (bytes_ok frame) as Hfok by (by apply enc_message_ok).
  destruct (sealed_frame (c_session_keys (w_client w)) (c_conn_id (w_client w)) (c_seq (w_client w)) frame prio
    Hk Hc Hs Hfok Hfmax) as (ct & pp & Hct & Hpack & _ & Hcar).
  destruct (queue_packet_sealed w PacketKind.Message frame prio ct pp Hfok Hfmax Hr Hc0 Hroom Hct Hpack)
    as (w' & Hq & Hpend).
  rewrite (data_of_message ch t body : data_of frame = Some frame) in Hq.
  unfold mbind at 1, io_bind at 1. rewrite Hq.
  eexists. split; [reflexivity|]. exists pp. split; [exact Hpend|by apply Hcar].
Qed.
Lemma queue_message_done w ch t body prio peer :
  tx_ready w → sk_rx peer = sk_tx (c_session_keys (w_client w)) →
  channel_is_application ch = true → is_u8 t → bytes_ok body → zlen body <= NetConfig.MaxMessageBytes →
  ∃ w', queue_message_packet ch t (data_of body) (zlen body) prio w = (Done tt, w') ∧
    queued peer (enc_message ch t body) w w'.
Proof.
  intros Hw Hpeer Hch Ht Hb Hlen. unfold queue_message_packet. rewrite decide_False by (by intros ->).
  by apply queue_internal_done.
Qed.
(** Message [m] joined the messages that wait for an acknowledgement. *)
Definition awaited (ch : Channel) (m : U64) (w w' : World) : Prop :=
  let q := rs_pending (reliable_session ch (w_client w)) in
  m ∉ p_message_id <$> q →
  ∃ it, extract m (rs_pending (reliable_session ch (w_client w'))) = Some (it, q).

Lemma session_with ch s c : reliable_session ch (with_session ch s c) = s.
Proof. unfold reliable_session, with_session. by case_decide. Qed.

Lemma note_sent_tail ch id w :
  ∃ w' now, (now ← sys now_ms;
         on_session ch (λ s, let '(b, s') := note_sent id now s in (Done b, s'));;
         refresh_runtime_stats) w = (Done tt, w') ∧ c_pending (w_client w') = c_pending (w_client w) ∧
    reliable_session ch (w_client w') = (note_sent id now (reliable_session ch (w_client w))).2.
Proof.
  destruct (now_run w) as (now & net & Hnow). unfold mbind at 1, io_bind at 1. rewrite Hnow.
  destruct (note_sent id now (reliable_session ch (w_client w))) as [b s] eqn:Hn.
  unfold mbind, io_bind. erewrite on_session_run; [|by cbn [w_client]; rewrite Hn].
  eexists _, now. split; [reflexivity|]. rewrite Hn. cbn [snd].
  split; [unfold with_session; by case_decide|]. exact (session_with ch s (w_client w)).
Qed.

Lemma send_reliable_done w ch t inner prio life peer :
  tx_ready w → sk_rx peer = sk_tx (c_session_keys (w_client w)) →
  channel_is_reliable ch = true → is_u8 t → bytes_ok inner →
  zlen inner <= NetConfig.MaxReliableMessageBytes →
  session_takes (reliable_session ch (w_client w)) (zlen inner) →
  let m := rs_next_message_id (reliable_session ch (w_client w)) in is_u64 m → m ≠ 0 →
  ∃ w', send_reliable_message ch t (data_of inner) (zlen inner) prio life w = (Done tt, w') ∧
    queued peer (enc_message ch t (enc_payload m inner)) w w' ∧ awaited ch m w w'.
Proof.
  intros Hw Hpeer Hch Ht Hin Hlen Htake m Hid H0. set (s := reliable_session ch (w_client w)) in *.
  unfold send_reliable_message. change NetConfig.MaxReliableMessageBytes with 1244 in Hlen.
  rewrite (proj2 (Z.ltb_ge _ _)) by (exact Hlen).
  destruct (now_run w) as (now & net & Hnow). unfold mbind at 1, io_bind at 1. rewrite Hnow.
  destruct (enqueue_takes t inner prio life now s Htake Hlen Hid H0) as (p & s' & He & Hp1 & Hp2 & Hp3).
  unfold mbind at 1, io_bind at 1. erewrite on_session_run; [|exact He]. cbn [w_client w_net w_events].
  unfold mbind at 1, io_bind at 1, count at 1, count_n, update. cbn [w_client w_net w_events].
  set (w3 := mkWorld _ _ _).
  assert (tx_view w3 = tx_view w ∧ reliable_session ch (w_client w3) = s') as [Hv3 Hs3].
  { unfold w3, tx_view, reliable_session, with_session. case_decide; by split. }
  destruct (tx_view_fields _ _ Hv3) as (Hk & Hc & Hs & Hp). pose proof (enc_payload_length m inner) as Hbl.
  destruct (queue_message_done w3 ch t (enc_payload m inner) prio peer) as (w4 & H4 & Hq4).
  { by eapply tx_ready_view. }
  { by rewrite Hk. }
  { by destruct ch. } { done. } { unfold enc_payload. auto using bytes_ok_app, be_ok. }
  { rewrite Hbl. change NetConfig.MaxMessageBytes with 1252. lia. }
  pose proof (crx_message ch t (data_of (enc_payload m inner)) (zlen (enc_payload m inner)) prio w3) as Hst4.
  rewrite H4 in Hst4. cbn [snd] in Hst4.
  rewrite Hp2, Hp1. fold m. rewrite w16_id, <- data_of_payload by (rewrite Hbl; ulia).
  unfold mbind at 1, io_bind at 1, attempt. rewrite H4. cbv iota. cbn [negb ok success].
  destruct (note_sent_tail ch m w4) as (w' & now' & Hw' & Hpend & Hs').
  exists w'. split; [exact Hw'|]. split.
  - unfold queued in *. rewrite Hpend, <- Hc, <- Hs, <- Hp. exact Hq4.
  - intros Hnew. fold s in Hnew |- *. rewrite Hs', (crx_session_eq ch w3 w4 Hst4), Hs3. unfold note_sent.
    destruct (extract_note (rs_cfg s') m now' (rs_pending s') (rs_inflight_count s') p (rs_pending s)) as [it Hit].
    { fold m in Hp1. rewrite Hp3, <- Hp1. apply extract_insert. by rewrite Hp1. }
    destruct (note_loop _ _ _ _ _) as [[b q] n]. exists it. exact Hit.
Qed.
Lemma finish_done options t (m : io World unit) w w' :
  m w = (Done tt, w') → finish options t m w = (Done tt, w').
Proof. intros Hm. unfold finish, mbind, io_bind, attempt. by rewrite Hm. Qed.

(** The numbers [send] takes. *)
Definition next_sequence (ch : Channel) (c : Client) : U64 :=
  match ch with
  | Channel.ReliableOrdered => c_next_ordered_sequence c
  | Channel.SequencedUnreliable => c_next_sequenced_sequence c
  | _ => 0
  end.
Definition next_message_id (ch : Channel) (c : Client) : U64 := rs_next_message_id (reliable_session ch c).

(** A message of one packet that [send] accepts now. *)
Record sendable (c : Client) (ch : Channel) (t : U8) (bs : list U8) : Prop := {
  sd_state : c_state c = ConnectionState.Established;
  sd_channel : channel_is_application ch = true;
  sd_type : is_u8 t;
  sd_bytes : bytes_ok bs;
  sd_inline : zlen bs <= max_inline_payload_for_channel ch;
  sd_numbers : numbers_ok ch (next_message_id ch c) (next_sequence ch c);
  sd_takes : channel_is_reliable ch = true → session_takes (reliable_session ch c) (reliable_length ch bs);
}.

(** The two branches of [send] that write an envelope of their own. *)
Lemma ordered_branch w options t bs sequence peer :
  tx_ready w → sk_rx peer = sk_tx (c_session_keys (w_client w)) → is_u8 t → bytes_ok bs →
  zlen bs <= NetConfig.MaxOrderedMessageBytes → is_u64 sequence → sequence ≠ 0 →
  let s := c_ordered_reliable (w_client w) in
  session_takes s (8 + zlen bs) → is_u64 (rs_next_message_id s) → rs_next_message_id s ≠ 0 →
  ∃ w', (encoded ← lift (write_to NetConfig.MaxReliableMessageBytes
                           (write_ordered_payload sequence (data_of bs) (zlen bs)));
         finish options t
           (send_reliable_message Channel.ReliableOrdered t (Some encoded) (w16 (zlen encoded))
              (so_priority options) (so_lifetime_ms options))) w = (Done tt, w') ∧
    queued peer (message_frame Channel.ReliableOrdered t (rs_next_message_id s) sequence bs) w w' ∧
    awaited Channel.ReliableOrdered (rs_next_message_id s) w w'.
Proof.
  intros Hw Hpeer Ht Hb Hlen Hs H0 s Htake Hi Hi0. pose proof (enc_payload_length sequence bs) as Hl.
  rewrite write_ordered_done by done. change NetConfig.MaxOrderedMessageBytes with 1236 in Hlen.
  unfold mbind, io_bind, lift. rewrite <- data_of_payload, w16_id by (rewrite Hl; ulia).
  destruct (send_reliable_done w Channel.ReliableOrdered t (enc_payload sequence bs)
    (so_priority options) (so_lifetime_ms options) peer) as (w' & H' & Hq & Ha); try done.
  - unfold enc_payload. auto using bytes_ok_app, be_ok.
  - rewrite Hl. change NetConfig.MaxReliableMessageBytes with 1244. lia.
  - by rewrite Hl.
  - exists w'. split; [by apply finish_done|]. split; [exact Hq|exact Ha].
Qed.

Lemma sequenced_branch w options t bs sequence peer :
  tx_ready w → sk_rx peer = sk_tx (c_session_keys (w_client w)) → is_u8 t → bytes_ok bs →
  zlen bs <= NetConfig.MaxSequencedMessageBytes → is_u64 sequence → sequence ≠ 0 →
  ∃ w', (encoded ← lift (write_to NetConfig.MaxMessageBytes
                           (write_sequenced_payload sequence (data_of bs) (zlen bs)));
         finish options t
           (queue_message_packet Channel.SequencedUnreliable t (Some encoded) (w16 (zlen encoded))
              (so_priority options))) w = (Done tt, w') ∧
    ∀ m, queued peer (message_frame Channel.SequencedUnreliable t m sequence bs) w w'.
Proof.
  intros Hw Hpeer Ht Hb Hlen Hs H0. pose proof (enc_payload_length sequence bs) as Hl.
  rewrite write_sequenced_done by done. change NetConfig.MaxSequencedMessageBytes with 1244 in Hlen.
  unfold mbind, io_bind, lift. rewrite <- data_of_payload, w16_id by (rewrite Hl; ulia).
  destruct (queue_message_done w Channel.SequencedUnreliable t (enc_payload sequence bs)
    (so_priority options) peer) as (w' & H' & Hq); try done.
  - unfold enc_payload. auto using bytes_ok_app, be_ok.
  - rewrite Hl. change NetConfig.MaxMessageBytes with 1252. lia.
  - exists w'. split; [by apply finish_done|by intros ?].
Qed.

Lemma send_inline_done w options t bs peer :
  let c := w_client w in let ch := so_channel options in
  tx_ready w → sk_rx peer = sk_tx (c_session_keys c) → sendable c ch t bs →
  ∃ w', send options t bs w = (Done tt, w') ∧
    queued peer (message_frame ch t (next_message_id ch c) (next_sequence ch c) bs) w w' ∧
    (channel_is_reliable ch = true → awaited ch (next_message_id ch c) w w').
Proof.
  intros c ch Hw Hpeer [Hst Hch Ht Hb Hin [Hnum Hseq] Htake]. subst ch. pose proof (max_inline (so_channel options)).
  unfold send. unfold mbind at 1, io_bind at 1, this. fold c.
  rewrite bool_decide_eq_true_2 by exact Hst. rewrite Hch. cbn [negb].
  rewrite (proj2 (Z.ltb_ge U16_MAX _)), w16_id, (proj2 (Z.ltb_ge _ _) Hin) by ulia. cbv zeta.
  destruct (so_channel options) eqn:Hso; cbn [channel_is_reliable next_sequence] in *; [| | | |discriminate].
  - destruct (queue_message_done w Channel.Unreliable t bs (so_priority options) peer) as (w' & H' & Hq);
      try done.
    exists w'. split; [by apply finish_done|]. by split; [exact Hq|].
  - destruct (Hnum eq_refl) as [Hi H0].
    destruct (send_reliable_done w Channel.Reliable t bs (so_priority options) (so_lifetime_ms options) peer)
      as (w' & H' & Hq & Ha); try done; [by apply Htake|].
    exists w'. split; [by apply finish_done|]. split; [exact Hq|intros _; exact Ha].
  - destruct (Hnum eq_refl) as [Hi H0]. destruct (Hseq (or_introl eq_refl)) as [Hi' H0'].
    unfold mbind at 1, io_bind at 1, update. cbv iota.
    set (w1 := mkWorld _ _ _). destruct (ordered_branch w1 options t bs (c_next_ordered_sequence c) peer)
      as (w' & H' & Hq & Ha); try done; [by apply (tx_ready_view w)|by apply Htake|].
    exists w'. split; [exact H'|]. split; [exact Hq|intros _; exact Ha].
  - destruct (Hseq (or_intror eq_refl)) as [Hi' H0'].
    unfold mbind at 1, io_bind at 1, update. cbv iota.
    set (w1 := mkWorld _ _ _). destruct (sequenced_branch w1 options t bs (c_next_sequenced_sequence c) peer)
      as (w' & H' & Hq); try done; [by apply (tx_ready_view w)|].
    exists w'. split; [exact H'|]. by split; [apply Hq|].
Qed.
End sending.

(** ** Both ends *)

(** [s] is the session of the server at the other end of the client's
    connection, reached from [from], ready for the client's next packet. *)
Record peered `{Ntop} (c : Client) (w : ServerWorld) (from : Endpoint) (s : PeerSession) : Prop := {
  pe_session : s_sessions (sw_server w) !! c_conn_id c = Some s;
  pe_state : ps_state s = ConnectionState.Established;
  pe_from : ep_eqb (ps_endpoint s) from = true;
  pe_keys : sk_rx (ps_keys s) = sk_tx (c_session_keys c);
  pe_allowed : ab_banned_until_ms (abuse_state_for from (sw_server w)) <= reading w;
  pe_fresh : c_seq c ≠ 0 ∧ (ReplayWindow.accept (c_seq c) (ps_packet_window s)).1 = true;
}.

Section both.
Context {HN : Ntop} {HS : Sodium} {HL : SodiumLaws} {HT : Traversal} {HTL : TraversalLaws}.

(** The run behind [message_delivered], with what each end keeps: the client
    its entry for a reliable message, the server the acknowledgement it owes. *)
Lemma message_arrives k1 scfg k2 cw sw options t bs from s :
  let c := w_client cw in let ch := so_channel options in
  Inv k1 cw → server_usable scfg → SInv scfg k2 sw →
  sendable c ch t bs → keys_empty (c_session_keys c) = false →
  zlen (c_pending c) < client_max_pending_packets (c_config c) →
  peered c sw from s → fresh_id (rx_of s) ch (next_message_id ch c) → in_turn (rx_of s) ch (next_sequence ch c) →
  (channel_is_reliable ch = true → t ≠ ControlType.Fragment) →
  ∃ cw' pp v sw',
    send options t bs cw = (Done tt, cw') ∧
    c_pending (w_client cw') = insert_pending pp (c_pending c) ∧
    parse_packet (Some (take (Z.to_nat (pp_len pp)) (pp_bytes pp))) (pp_len pp) = Done v ∧
    srv_handle_packet from v sw = (Done tt, sw') ∧
    foreground (sw_events sw') =
      srv_message_events (s_callbacks (sw_server sw)) (make_peer s) (msg_view ch t bs)
      ++ foreground (sw_events sw) ∧
    (channel_is_reliable ch = true → awaited ch (next_message_id ch c) cw cw') ∧
    acks ch (next_message_id ch c) (out_view (c_conn_id c) sw) (out_view (c_conn_id c) sw').
Proof.
  intros c ch Hc Hsu Hsw Hsend Hkeys Hroom [Hs Hst Hfrom Hpk Hban [Hq0 Hq]] Hf Ht Hty.
  pose proof (vo_sessions _ _ (si_server _ _ _ Hsw) _ _ Hs) as Hok.
  assert (tx_ready cw) as Htx.
  { split; [apply (co_tx _ (iv_client _ _ Hc))|exact Hkeys| | |exact Hroom].
    - exact (so_id_range _ _ _ Hok).
    - rewrite (lo_seq _ _ (iv_log _ _ Hc)). apply w64_range. }
  destruct (send_inline_done cw options t bs (ps_keys s) Htx Hpk Hsend)
    as (cw' & Hrun & (pp & Hpend & v & Hparse & Hh & Hopen) & Haw).
  pose proof (max_inline ch). destruct Hsend as [_ Hch Hu8 _ Hin Hnum _].
  destruct (handle_packet_done scfg Hsu k2 (c_conn_id c) ch t bs (next_message_id ch c) (next_sequence ch c)
    (rx_of s) (s_callbacks (sw_server sw)) (foreground (sw_events sw)) (out_view (c_conn_id c) sw) (views sw))
    with (HT := HT) (from := from) (v := v) (n := c_seq c) (w := sw) (s := s)
    as (sw' & Hrun' & [Hlog _] & Hacks); try assumption; try reflexivity.
  - unfold views. rewrite lookup_fmap, Hs. by eexists.
  - change NetConfig.MaxMessageBytes with 1252. lia.
  - unfold full_view, rx_view. by rewrite Hs.
  - exists cw', pp, v, sw'. split_and!; assumption.
Qed.

(** C4: a message that fits one packet goes end to end.  On every channel, when
    the client may send it (established, room in the queues) and the server's
    session is the other end of the connection, [send] succeeds and queues one
    packet, and when the server handles that packet its user gets exactly this
    message, with its channel, type and bytes, through every callback installed
    for it, once; the windows of the session have let its numbers through and, on
    the ordered channel, it is the next one. *)
Theorem message_delivered ccfg scfg cw sw options t bs from s :
  let c := w_client cw in let ch := so_channel options in
  client_usable ccfg → reachable ccfg cw → server_usable scfg → server_reachable scfg sw →
  sendable c ch t bs → keys_empty (c_session_keys c) = false →
  zlen (c_pending c) < client_max_pending_packets (c_config c) →
  peered c sw from s → fresh_id (rx_of s) ch (next_message_id ch c) → in_turn (rx_of s) ch (next_sequence ch c) →
  (channel_is_reliable ch = true → t ≠ ControlType.Fragment) →
  ∃ cw' pp v sw',
    send options t bs cw = (Done tt, cw') ∧
    c_pending (w_client cw') = insert_pending pp (c_pending c) ∧
    parse_packet (Some (take (Z.to_nat (pp_len pp)) (pp_bytes pp))) (pp_len pp) = Done v ∧
    srv_handle_packet from v sw = (Done tt, sw') ∧
    foreground (sw_events sw') =
      srv_message_events (s_callbacks (sw_server sw)) (make_peer s) (msg_view ch t bs)
      ++ foreground (sw_events sw).
Proof.
  intros c ch Hcu [k1 Hc]%reachable_inv Hsu [k2 Hsw]%server_reachable_inv Hsend Hkeys Hroom Hp Hf Ht Hty; [|done..].
  destruct (message_arrives k1 scfg k2 cw sw options t bs from s Hc Hsu Hsw Hsend Hkeys Hroom Hp Hf Ht Hty)
    as (cw' & pp & v & sw' & H1 & H2 & H3 & H4 & H5 & _).
  exists cw', pp, v, sw'. split_and!; assumption.
Qed.
End both.

(** ** Witness *)

Import Pair.

Lemma client3_reachable : reachable default_client client3.
Proof. do 2 apply ReachOp. apply ReachNet, ReachOp, ReachNet, Example.connecting_reachable. Qed.

Definition session9 : PeerSession := default
  (Example.value (new_session default_server client_addr (current_hello (w_client client2)) false 9 1 1000 []))
  (s_sessions (sw_server server3) !! 9).
Definition ordered_options : SendOptions := mkSendOptions Channel.ReliableOrdered SendPriority.Normal 0.

Lemma message_delivered_witness :
  ∃ cw' pp v sw',
    send ordered_options 7 [104; 105] client3 = (Done tt, cw') ∧
    c_pending (w_client cw') = insert_pending pp (c_pending (w_client client3)) ∧
    parse_packet (Some (take (Z.to_nat (pp_len pp)) (pp_bytes pp))) (pp_len pp) = Done v ∧
    srv_handle_packet client_addr v server3 = (Done tt, sw') ∧
    foreground (sw_events sw') =
      srv_message_events (s_callbacks (sw_server server3)) (make_peer session9)
        (msg_view Channel.ReliableOrdered 7 [104; 105])
      ++ foreground (sw_events server3).
Proof.
  apply (message_delivered default_client default_server client3 server3 ordered_options 7 [104; 105]
    client_addr session9 Example.client_default_usable client3_reachable server_default_usable server3_reachable).
  - split; [vm_compute; reflexivity|reflexivity|split; lia|repeat constructor; lia|vm_compute; discriminate| |].
    + split; intros _; (split; [apply (bool_decide_unpack _); vm_compute; exact I|vm_compute; discriminate]).
    + intros _. split; vm_compute; [reflexivity|discriminate].
  - vm_compute. reflexivity.
  - vm_compute. reflexivity.
  - split; [vm_compute; reflexivity..| |].
    + vm_compute. discriminate.
    + split; vm_compute; [discriminate|reflexivity].
  - vm_compute. reflexivity.
  - split; vm_compute; reflexivity.
  - intros _. discriminate.
Defined.
