(* ===== verification/Downlink.v ===== *)
(** * From [send] at the server to the callbacks of the client

    The way back: [Server::send] to a peer, the packet layer and
    [Client::handle_packet], composed as [EndToEnd] composes the other
    direction. *)
From S2P Require Import Prelude Result Hoare ByteBuf Config Message Packet Protocol Windows Payloads.
From S2P Require Import Reliability Ordered Fragmentation Congestion Crypto Stats Endpoint Socket.
From S2P Require Import Client ClientRecv ClientInv ClientSafe Server ServerSend ServerRecv ServerInv.
From S2P Require Import ServerSafe ServerSafeRecv ServerAdmit ServerLoop ClientProps ServerProps ServerAuth.
From S2P Require Import Sealing ServerTx Deliver ClientDeliver EndToEnd.
#[local] Open Scope Z_scope.

(** [c] is the client at the other end of session [s], ready for the session's
    next packet. *)
Record attached (s : PeerSession) (c : Client) : Prop := {
  at_state : c_state c = ConnectionState.Established;
  at_conn : c_conn_id c = ps_conn_id s;
  at_keys : sk_rx (c_session_keys c) = sk_tx (ps_keys s);
  at_ready : keys_empty (ps_keys s) = false ∧ keys_empty (c_session_keys c) = false;
  at_fresh : ps_send_seq s ≠ 0 ∧ (ReplayWindow.accept (ps_send_seq s) (c_packet_window c)).1 = true;
}.

Section both.
Context {HN : Ntop} {HS : Sodium} {HL : SodiumLaws} {HT : Traversal} {HTL : TraversalLaws}.

(** [send] to the peer and [handle_packet] of the client, for states that satisfy
    the invariants. *)
Lemma reply_arrives k1 scfg k2 sw cw options t bs s :
  let c := w_client cw in let ch := so_channel options in let v := sw_server sw in
  SInv scfg k1 sw → Inv k2 cw →
  s_sessions v !! ps_conn_id s = Some s → srv_sendable s ch t bs →
  zlen (s_pending v) < server_max_pending_packets (s_config v) → attached s c →
  fresh_id (crx_windows c) ch (srv_next_message_id ch s) → in_turn (crx_windows c) ch (srv_next_sequence ch s) →
  (channel_is_reliable ch = true → t ≠ ControlType.Fragment) →
  ∃ sw' sp p cw',
    srv_send (make_peer s) options t bs sw = (Done tt, sw') ∧
    s_pending (sw_server sw') = insert_packet sp (s_pending v) ∧ sp_to sp = ps_endpoint s ∧
    parse_packet (Some (take (Z.to_nat (sp_len sp)) (sp_bytes sp))) (sp_len sp) = Done p ∧
    handle_packet p cw = (Done tt, cw') ∧
    heard (w_events cw') = message_events (c_callbacks c) (msg_view ch t bs) ++ heard (w_events cw).
Proof.
  intros c ch v Hsw Hcw Hs Hsend Hroom.
  intros [Hst Hconn Hkeys [Hk1 Hk2] [Hq0 Hq]] Hf Ht Hty.
  pose proof (session_ready scfg k1 sw s Hsw Hs Hk1 Hroom) as Hready.
  destruct (srv_send_done sw (ps_conn_id s) s options t bs Hready Hsend) as (sw' & Hrun & sp & Hpend & Hto & _ & Hcar).
  destruct (Hcar (c_session_keys c) Hkeys) as (p & Hparse & Hh & Hopen).
  destruct Hsend as [_ Hch Hu8 _ Hin Hnum _]. pose proof (max_inline ch).
  destruct (client_packet_done k2 cw p (ps_send_seq s) ch t
    (frame_body ch (srv_next_message_id ch s) (srv_next_sequence ch s) bs) (got cw (msg_view ch t bs)))
    as (cw' & Hrun' & Hgot & _).
  - by split.
  - split; [fold c; rewrite Hconn; exact Hh|assumption..].
  - exact Hu8.
  - by apply frame_body_fits.
  - intros w1 Hv1 _ Hw1.
    destruct (client_frame_done k2 w1 ch t bs (srv_next_message_id ch s) (srv_next_sequence ch s))
      as (w2 & H2 & Hg); [exact Hw1|exact Hch|exact Hnum| | |exact Hty|ulia|].
    { rewrite (crx_windows_eq cw w1 Hv1). exact Hf. }
    { rewrite (crx_windows_eq cw w1 Hv1). exact Ht. }
    exists w2. split; [exact H2|]. split; [exact (got_crx cw w1 _ _ Hv1 Hg)|apply Hg].
  - exists sw', sp, p, cw'. split_and!; assumption.
Qed.

(** C5: a message that fits one packet goes from the server to the client.  On
    every channel, when the server may send it to the peer (established, room in
    the queues) and the client is the other end of the session, [send] to the peer
    succeeds and queues one packet for the peer's address, and when the client
    handles that packet its user gets exactly this message, with its channel, type
    and bytes, through every callback installed for it, once. *)
Theorem reply_delivered scfg ccfg sw cw options t bs s :
  let c := w_client cw in let ch := so_channel options in let v := sw_server sw in
  server_usable scfg → server_reachable scfg sw → client_usable ccfg → reachable ccfg cw →
  s_sessions v !! ps_conn_id s = Some s → srv_sendable s ch t bs →
  zlen (s_pending v) < server_max_pending_packets (s_config v) → attached s c →
  fresh_id (crx_windows c) ch (srv_next_message_id ch s) → in_turn (crx_windows c) ch (srv_next_sequence ch s) →
  (channel_is_reliable ch = true → t ≠ ControlType.Fragment) →
  ∃ sw' sp p cw',
    srv_send (make_peer s) options t bs sw = (Done tt, sw') ∧
    s_pending (sw_server sw') = insert_packet sp (s_pending v) ∧ sp_to sp = ps_endpoint s ∧
    parse_packet (Some (take (Z.to_nat (sp_len sp)) (sp_bytes sp))) (sp_len sp) = Done p ∧
    handle_packet p cw = (Done tt, cw') ∧
    heard (w_events cw') = message_events (c_callbacks c) (msg_view ch t bs) ++ heard (w_events cw).
Proof.
  intros c ch v Hsu [k1 Hsw]%server_reachable_inv Hcu [k2 Hcw]%reachable_inv; [|done..].
  exact (reply_arrives k1 scfg k2 sw cw options t bs s Hsw Hcw).
Qed.
End both.

(** ** Witness *)

Import Pair.

Definition sequenced_options : SendOptions := mkSendOptions Channel.SequencedUnreliable SendPriority.Normal 0.

Lemma reply_delivered_witness :
  ∃ sw' sp p cw',
    srv_send (make_peer session9) ordered_options 7 [111; 107] server3 = (Done tt, sw') ∧
    s_pending (sw_server sw') = insert_packet sp (s_pending (sw_server server3)) ∧ sp_to sp = ps_endpoint session9 ∧
    parse_packet (Some (take (Z.to_nat (sp_len sp)) (sp_bytes sp))) (sp_len sp) = Done p ∧
    handle_packet p client3 = (Done tt, cw') ∧
    heard (w_events cw') =
      message_events (c_callbacks (w_client client3)) (msg_view Channel.ReliableOrdered 7 [111; 107])
      ++ heard (w_events client3).
Proof.
  apply (reply_delivered default_server default_client server3 client3 ordered_options 7 [111; 107] session9
    server_default_usable server3_reachable Example.client_default_usable client3_reachable).
  - vm_compute. reflexivity.
  - split; [vm_compute; reflexivity|reflexivity|split; lia|repeat constructor; lia|vm_compute; discriminate| |].
    + split; intros _; (split; [apply (bool_decide_unpack _); vm_compute; exact I|vm_compute; discriminate]).
    + intros _. split; vm_compute; [reflexivity|discriminate].
  - vm_compute. reflexivity.
  - split; [vm_compute; reflexivity..| |].
    + split; vm_compute; reflexivity.
    + split; vm_compute; [discriminate|reflexivity].
  - vm_compute. reflexivity.
  - split; vm_compute; reflexivity.
  - intros _. discriminate.
Defined.
