(* ===== verification/Exchange.v ===== *)
(** * A reliable message and its acknowledgement

    The whole cycle of a reliable message: [Client::send] puts it on the wire and
    keeps it for retransmission, [Server::handle_packet] hands it to its user and
    answers, and when the client handles the answer the message is no longer
    kept. *)
From S2P Require Import Prelude Result Hoare ByteBuf Config Message Packet Protocol Windows Payloads.
From S2P Require Import Reliability Ordered Fragmentation Congestion Crypto Stats Endpoint Socket.
From S2P Require Import Client ClientRecv ClientInv ClientSafe Server ServerSend ServerRecv ServerInv.
From S2P Require Import ServerSafe ServerSafeRecv ServerAdmit ServerLoop ClientProps ServerProps ServerAuth.
From S2P Require Import Sealing ServerTx Deliver ClientDeliver EndToEnd Downlink.
#[local] Open Scope Z_scope.

(** ** What [send] leaves to the receiving half *)

Section stable.
Context {HS : Sodium}.

Lemma side_session {A} ch (m : io ReliableSession A) : Stable rx_side (on_session ch m).
Proof. intros w. unfold on_session. case_decide; by destruct (m _). Qed.

Ltac side :=
  repeat first
    [ match goal with |- Stable _ (update _) => apply side_update; intros ?; split_and!; reflexivity end
    | match goal with |- Stable _ (fail _ _) => done | |- Stable _ (emit _) => done | |- Stable _ this => done
      | |- Stable _ (count _) => apply side_count | |- Stable _ refresh_runtime_stats => apply side_refresh end
    | solve [eauto 2 with stable nocore]
    | apply side_sys
    | apply side_session
    | apply stable_when
    | apply stable_attempt
    | apply stable_bind; [|intros ?]
    | case_match
    | done ].

Lemma side_enqueue_packet p : Stable rx_side (enqueue_pending_packet p).
Proof. unfold enqueue_pending_packet. side. Qed.
#[local] Hint Resolve side_enqueue_packet : stable.
Lemma side_queue kd enc p n prio id : Stable rx_side (queue_packet kd enc p n prio id).
Proof. unfold queue_packet. side. Qed.
#[local] Hint Resolve side_queue : stable.
Lemma side_internal ch t p n prio : Stable rx_side (queue_internal_message ch t p n prio).
Proof. unfold queue_internal_message. side. Qed.
#[local] Hint Resolve side_internal : stable.

Lemma side_enqueue ch (m : io ReliableSession PendingReliableMessage) :
  Stable rx_side (λ w, match on_session ch m w with
    | (Done p, w') => (Done (inr p : Result + PendingReliableMessage), w')
    | (Err rc, w') => (Done (inl rc), w')
    | (UB, w') => (UB, w')
    end).
Proof. intros w. pose proof (side_session ch m w). by destruct (on_session ch m w) as [[]]. Qed.
#[local] Hint Resolve side_enqueue : stable.
Lemma side_reliable ch t p n prio life : Stable rx_side (send_reliable_message ch t p n prio life).
Proof. unfold send_reliable_message, queue_message_packet. side. Qed.
#[local] Hint Resolve side_reliable : stable.
Lemma side_fragments left options id q t bs i : Stable rx_side (send_fragments left options id q t bs i).
Proof. revert i. induction left as [|left IH]; intros i; cbn [send_fragments]; side; apply IH. Qed.
#[local] Hint Resolve side_fragments : stable.
Lemma side_fragmented options t bs : Stable rx_side (send_fragmented options t bs).
Proof. unfold send_fragmented. side. Qed.
Lemma side_finish options t m : Stable rx_side m → Stable rx_side (finish options t m).
Proof. intros Hm. unfold finish, emit_backpressure. side. Qed.
Lemma side_send options t bs : Stable rx_side (send options t bs).
Proof.
  assert (∀ ch t p n prio, Stable rx_side (queue_message_packet ch t p n prio)).
  { intros. unfold queue_message_packet. side. }
  unfold send. repeat first [apply side_finish; auto using side_fragmented, side_reliable
    | apply side_update; intros ?; split_and!; reflexivity | apply stable_bind; [|intros ?] | case_match | done].
Qed.
End stable.

(** ** The cycle *)

Section cycle.
Context {HN : Ntop} {HS : Sodium} {HL : SodiumLaws} {HT : Traversal} {HTL : TraversalLaws}.

(** The client handles the acknowledgement of a message it awaits. *)
Lemma ack_settles k w ch m n v it rest :
  At ConnectionState.Established k w → channel_is_reliable ch = true → is_u64 m → m ≠ 0 →
  receives (w_client w) v n (ack_frame ch m) →
  extract m (rs_pending (reliable_session ch (w_client w))) = Some (it, rest) →
  ∃ w', handle_packet v w = (Done tt, w') ∧ rs_pending (reliable_session ch (w_client w')) = rest.
Proof.
  intros Hw Hch Hm H0 Hrec Hext.
  apply (client_packet_done k w v n Channel.Control ControlType.ReliableAck (enc_ack (ch, m)));
    [exact Hw|exact Hrec|done|vm_compute; discriminate|].
  intros w1 Hv1 _ Hw1. destruct (client_ack_done k w1 ch m Hw1 Hch Hm H0) as (w' & now & H' & Hs' & Hst').
  exists w'. split; [exact H'|]. split; [|exact Hst'].
  rewrite Hs', (crx_session_eq ch w w1 Hv1). apply (acknowledge_extract m now _ it); [|exact Hext].
  pose proof (iv_client _ _ (proj1 Hw)) as Hc. pose proof (client_ok_reliability _ Hc) as Hv.
  unfold reliable_session. case_decide; [rewrite (co_ordered_reliable _ Hc)|rewrite (co_reliable _ Hc)]; exact Hv.
Qed.

(** C6: a reliable message goes through its whole cycle.  On both reliable
    channels, when the client may send the message, the server's session is the
    other end of the connection and has room to answer, then [send] queues a
    packet and keeps the message; the server that handles the packet hands exactly
    this message to its user and queues an acknowledgement for the client's
    address; and when the client handles the acknowledgement, the messages it keeps
    for retransmission are those it kept before. *)
Theorem reliable_exchange ccfg scfg cw sw options t bs from s :
  let c := w_client cw in let ch := so_channel options in let m := next_message_id ch c in
  client_usable ccfg → reachable ccfg cw → server_usable scfg → server_reachable scfg sw →
  channel_is_reliable ch = true → sendable c ch t bs →
  zlen (c_pending c) < client_max_pending_packets (c_config c) →
  peered c sw from s → attached s c →
  zlen (s_pending (sw_server sw)) < server_max_pending_packets (s_config (sw_server sw)) →
  fresh_id (rx_of s) ch m → in_turn (rx_of s) ch (next_sequence ch c) → t ≠ ControlType.Fragment →
  m ∉ p_message_id <$> rs_pending (reliable_session ch c) →
  ∃ cw' pp v sw' sp p cw'',
    (send options t bs cw = (Done tt, cw') ∧
     c_pending (w_client cw') = insert_pending pp (c_pending c) ∧
     parse_packet (Some (take (Z.to_nat (pp_len pp)) (pp_bytes pp))) (pp_len pp) = Done v ∧
     m ∈ p_message_id <$> rs_pending (reliable_session ch (w_client cw'))) ∧
    (srv_handle_packet from v sw = (Done tt, sw') ∧
     foreground (sw_events sw') =
       srv_message_events (s_callbacks (sw_server sw)) (make_peer s) (msg_view ch t bs)
       ++ foreground (sw_events sw) ∧
     s_pending (sw_server sw') = insert_packet sp (s_pending (sw_server sw)) ∧ sp_to sp = ps_endpoint s ∧
     parse_packet (Some (take (Z.to_nat (sp_len sp)) (sp_bytes sp))) (sp_len sp) = Done p) ∧
    handle_packet p cw' = (Done tt, cw'') ∧
    rs_pending (reliable_session ch (w_client cw'')) = rs_pending (reliable_session ch c).
Proof.
  intros c ch m Hcu [k1 Hc]%reachable_inv Hsu [k2 Hsw]%server_reachable_inv Hrel Hsend Hroom; [|done..].
  intros Hp Hatt Hroom2 Hf Ht Hty Hnew. pose proof Hatt as [Hst Hconn Hkeys [Hk1 Hk2] [Hq0 Hq]].
  pose proof (proj1 (sd_numbers _ _ _ _ Hsend) Hrel) as [Hm Hm0].
  destruct (message_arrives k1 scfg k2 cw sw options t bs from s Hc Hsu Hsw Hsend Hk2 Hroom Hp Hf Ht (λ _, Hty))
    as (cw' & pp & v & sw' & H1 & H2 & H3 & H4 & H5 & Haw & Hacks).
  destruct (Haw Hrel Hnew) as [it Hext].
  pose proof (side_send options t bs cw) as Hside. pose proof (run_op_safe k1 (OpSend options t bs) cw Hc) as Hc'.
  unfold wp in Hc'. cbn [run_op] in Hc'. rewrite H1 in Hside, Hc'. cbn [snd] in Hside.
  unfold rx_side in Hside. injection Hside as E1 E2 E3 E4.
  specialize (Hacks Hrel). unfold out_view in Hacks. fold c in Hacks. rewrite (pe_session _ _ _ _ Hp) in Hacks.
  cbn [fmap option_fmap option_map out_of out_ready fst] in Hacks.
  rewrite Hk1, (proj2 (Z.ltb_lt _ _) Hroom2) in Hacks. destruct (Hacks eq_refl) as (sp & Hsp & Hto & Hcar).
  destruct (Hcar (c_session_keys c) Hkeys) as (p & Hparse & Hh & Hopen).
  destruct (ack_settles k1 cw' ch m (ps_send_seq s) p it (rs_pending (reliable_session ch c)))
    as (cw'' & Hrun & Hset); try assumption.
  - split; [exact Hc'|]. by rewrite E1.
  - split; [rewrite E3; fold c; rewrite Hconn; exact Hh|exact Hq0|by rewrite E2|by rewrite E2|by rewrite E4].
  - exists cw', pp, v, sw', sp, p, cw''. split; [split_and!; [assumption..|]|]; [|split; [split_and!; assumption|by split]].
    destruct (extract_perm _ _ _ _ Hext) as (Hperm & _ & Hid).
    fold ch in Hperm. apply list_elem_of_fmap. exists it. split; [by rewrite Hid|].
    apply (elem_of_Permutation_proper it _ _ Hperm). left.
Qed.
End cycle.

(** ** Witness *)

Import Pair.

Lemma reliable_exchange_witness :
  ∃ cw' pp v sw' sp p cw'',
    (send ordered_options 7 [104; 105] client3 = (Done tt, cw') ∧
     c_pending (w_client cw') = insert_pending pp (c_pending (w_client client3)) ∧
     parse_packet (Some (take (Z.to_nat (pp_len pp)) (pp_bytes pp))) (pp_len pp) = Done v ∧
     1 ∈ p_message_id <$> rs_pending (reliable_session Channel.ReliableOrdered (w_client cw'))) ∧
    (srv_handle_packet client_addr v server3 = (Done tt, sw') ∧
     foreground (sw_events sw') =
       srv_message_events (s_callbacks (sw_server server3)) (make_peer session9)
         (msg_view Channel.ReliableOrdered 7 [104; 105])
       ++ foreground (sw_events server3) ∧
     s_pending (sw_server sw') = insert_packet sp (s_pending (sw_server server3)) ∧
     sp_to sp = ps_endpoint session9 ∧
     parse_packet (Some (take (Z.to_nat (sp_len sp)) (sp_bytes sp))) (sp_len sp) = Done p) ∧
    handle_packet p cw' = (Done tt, cw'') ∧
    rs_pending (reliable_session Channel.ReliableOrdered (w_client cw'')) =
      rs_pending (reliable_session Channel.ReliableOrdered (w_client client3)).
Proof.
  apply (reliable_exchange default_client default_server client3 server3 ordered_options 7 [104; 105]
    client_addr session9 Example.client_default_usable client3_reachable server_default_usable server3_reachable).
  - reflexivity.
  - split; [vm_compute; reflexivity|reflexivity|split; lia|repeat constructor; lia|vm_compute; discriminate| |].
    + split; intros _; (split; [apply (bool_decide_unpack _); vm_compute; exact I|vm_compute; discriminate]).
    + intros _. split; vm_compute; [reflexivity|discriminate].
  - vm_compute. reflexivity.
  - split; [vm_compute; reflexivity..| |].
    + vm_compute. discriminate.
    + split; vm_compute; [discriminate|reflexivity].
  - split; [vm_compute; reflexivity..| |].
    + split; vm_compute; reflexivity.
    + split; vm_compute; [discriminate|reflexivity].
  - vm_compute. reflexivity.
  - vm_compute. reflexivity.
  - split; vm_compute; reflexivity.
  - discriminate.
  - vm_compute. by intros ?%elem_of_nil.
Defined.
