(* ===== verification/Large.v ===== *)
(** * Messages larger than a packet, from the server to the client

    [Server::send] cuts a message into fragments; the client that handles their
    packets, in whatever order the network delivers them, hands the whole message
    to its user.  This is for the channels without retransmission, where nothing
    but the reassembler puts the fragments together. *)
From S2P Require Import Prelude Result Hoare ByteBuf Config Message Packet Protocol Windows Payloads.
From S2P Require Import Reliability Ordered Fragmentation Congestion Crypto Stats Endpoint Socket.
From S2P Require Import Client ClientRecv ClientInv ClientSafe Server ServerSend ServerRecv ServerInv.
From S2P Require Import ServerSafe ServerSafeRecv ServerAdmit ServerLoop ClientProps ServerProps ServerAuth.
From S2P Require Import Sealing ServerTx Deliver ClientDeliver EndToEnd Downlink.
#[local] Open Scope Z_scope.

(** ** One fragment on the wire *)

Definition fragment_body (id : U64) (o : Original) (i : nat) : list U8 :=
  enc_fragment (fragment_from id o i) (fragment_slice (or_payload o) (Z.of_nat i)).
Definition fragment_frame (id : U64) (o : Original) (i : nat) : list U8 :=
  enc_message Channel.Control ControlType.Fragment (fragment_body id o i).

Lemma fragment_body_length id o i :
  original_ok o → (i < fragments o)%nat → 24 < zlen (fragment_body id o i) <= 1236.
Proof.
  intros Ho Hi. destruct (fragment_from_len id o i Ho Hi) as (_ & Hl & _).
  change (fr_len (fragment_from id o i)) with (zlen (fragment_slice (or_payload o) (Z.of_nat i))) in Hl.
  unfold fragment_body, enc_fragment. rewrite !length_app, !length_be. lia.
Qed.

Lemma fragment_type_u8 : is_u8 ControlType.Fragment.
Proof. done. Qed.

Lemma data_of_fragment id o i : data_of (fragment_body id o i) = Some (fragment_body id o i).
Proof.
  unfold data_of. rewrite decide_False; [done|]. intros He%(f_equal length).
  unfold fragment_body, enc_fragment in He. by rewrite length_app, length_be in He.
Qed.

Lemma read_fragment_done id o i :
  is_u64 id → id ≠ 0 → original_ok o → original_typed o → (i < fragments o)%nat →
  read_from (data_of (fragment_body id o i)) (zlen (fragment_body id o i)) read_fragment_payload =
    Done (fragment_from id o i).
Proof.
  intros Hid H0 Ho Ht Hi. rewrite data_of_fragment. unfold read_from.
  change (mkReader (Some (fragment_body id o i)) _ 0) with (reader_at [] (fragment_body id o i)).
  unfold fragment_body. by rewrite (read_fragment_all id o i []).
Qed.

(** ** The client takes one fragment *)

(** [handle_packet] for one packet after the other. *)
Fixpoint handle_packets `{Sodium} (vs : list PacketView) : io World unit :=
  match vs with [] => mret tt | v :: rest => handle_packet v;; handle_packets rest end.

Section client.
Context {HS : Sodium} {HL : SodiumLaws} (k : nat).
#[local] Abbreviation Est := (At ConnectionState.Established k).
Context (id : U64) (o : Original) (s0 : FragmentReassembler) (cb : Callbacks) (log : list Event).
Hypothesis Hid : is_u64 id ∧ id ≠ 0.
Hypothesis Ho : original_ok o.
Hypothesis Hty : original_typed o.
Hypothesis Hch : channel_is_reliable (or_channel o) = false.
Hypothesis Hadm : admits s0 o.
Hypothesis Hnew : ra_entries s0 !! id = None.

Let message := msg_view (or_channel o) (or_type o) (or_payload o).

(** The fragments [got] have arrived, nothing was handed over. *)
Record assembling (got : list nat) (w : World) : Prop := {
  as_partial : partial_state id o s0 got (c_reassembler (w_client w));
  as_turn : in_turn (crx_windows (w_client w)) (or_channel o) (or_seq o);
  as_callbacks : c_callbacks (w_client w) = cb;
  as_heard : heard (w_events w) = log;
}.
(** The message was handed over and the reassembler is as before. *)
Record assembled (w : World) : Prop := {
  ad_reassembler : c_reassembler (w_client w) = s0;
  ad_heard : heard (w_events w) = message_events cb message ++ log;
}.

Lemma assembling_crx got w w' : crx w' = crx w → assembling got w → assembling got w'.
Proof.
  intros Hv []. pose proof (crx_windows_eq w w' Hv) as Hw. unfold crx in Hv.
  injection Hv as _ _ _ _ _ Hc Hh Hr. split; [by rewrite Hr|by rewrite Hw|congruence..].
Qed.

Lemma reassembled_ok w : ok (deliver_reassembled_message (message_from id o) w).1 = true.
Proof using Hch.
  unfold deliver_reassembled_message, deliver_application_message. cbv zeta. cbn [message_from fm_channel].
  destruct (or_channel o); try done. rewrite decide_False, decide_True by done.
  destruct (Sequenced.accept _ _) as [[] ?]; done.
Qed.
Lemma reassembled_run got w :
  assembling got w →
  let w' := (deliver_reassembled_message (message_from id o) w).2 in
  heard (w_events w') = message_events cb message ++ log ∧ rx_side w' = rx_side w.
Proof using Hid Ho Hch.
  intros [_ Ht <- <-]. unfold deliver_reassembled_message, deliver_application_message. cbv zeta.
  cbn [message_from fm_channel fm_type fm_payload fm_delivery_sequence]. destruct Ho as [Hl Happ].
  rewrite w16_id by ulia. unfold message.
  destruct (or_channel o); cbn [in_turn crx_windows rx_sequenced] in Ht; try done.
  - split; [apply heard_messages|reflexivity].
  - rewrite decide_False, decide_True by done.
    match goal with |- context [Sequenced.accept ?q ?x] =>
      change (Sequenced.accept q x) with (Sequenced.accept (or_seq o) (c_sequenced (w_client w))) end.
    destruct (Sequenced.accept (or_seq o) (c_sequenced (w_client w))) as [fresh win]. cbn [fst] in Ht. subst fresh.
    split; [apply heard_messages|reflexivity].
Qed.

(** [dispatch_message_frame] for a fragment. *)
Lemma client_fragment_done got w i :
  Est w → assembling got w → ¬ all_arrived o got → (i < fragments o)%nat →
  ∃ w', dispatch_message_frame (msg_view Channel.Control ControlType.Fragment (fragment_body id o i)) w
      = (Done tt, w') ∧ rx_side w' = rx_side w ∧
    (¬ all_arrived o (i :: got) → assembling (i :: got) w') ∧ (all_arrived o (i :: got) → assembled w').
Proof using Hid Ho Hty Hch Hadm Hnew.
  intros Hw Has Hnot Hi. unfold dispatch_message_frame. cbn [msg_view m_channel].
  unfold dispatch_control. cbn [msg_view m_type m_data m_len].
  change (ControlType.Fragment =? ControlType.ReliableAck) with false.
  change (ControlType.Fragment =? ControlType.Fragment) with true. cbv iota.
  rewrite read_fragment_done by (done || apply Hid). unfold fragment_or_fail.
  unfold mbind at 1, io_bind at 1, count at 1, count_n, update. set (w1 := mkWorld _ (w_net w) (w_events w)).
  assert (assembling got w1) as Has1 by (by apply (assembling_crx got w)).
  destruct (now_run w1) as (now & net & Hnow). set (w2 := mkWorld (w_client w1) net (w_events w1)) in Hnow.
  destruct (accept_fragment_run deliver_reassembled_message id o s0 reassembled_ok Ho Hadm Hnew now i got
    (c_reassembler (w_client w2)) w2 (as_partial _ _ Has1) Hi Hnot) as (Hrc & Hpart & Hall).
  set (r := accept_fragment deliver_reassembled_message now (fragment_from id o i) (c_reassembler (w_client w2)) w2) in *.
  set (w3 := mkWorld (w_client (re_x r) <| c_reassembler := re_state r |>) (w_net (re_x r)) (w_events (re_x r))).
  assert (∃ w', handle_fragment_payload (fragment_from id o i) w1 = (Done tt, w') ∧ crx w' = crx w3 ∧
    rx_side w' = rx_side w3) as (w' & Hrun & Hv & Hside).
  { unfold handle_fragment_payload. unfold mbind at 1, io_bind at 1. rewrite Hnow.
    unfold mbind at 1, io_bind at 1, reassemble. cbv zeta. fold r. rewrite Hrc. fold w3.
    unfold mbind, io_bind, when, count, count_n, update, mret, io_ret.
    destruct (re_duplicate r), (re_completed r); eexists; (split; [reflexivity|]); split; reflexivity. }
  exists w'. split.
  { unfold mbind at 1, io_bind at 1, attempt. rewrite Hrun. reflexivity. }
  assert (rx_side w2 = rx_side w) as Hside2 by reflexivity.
  assert (assembling got w2) as Has2 by (exact (assembling_crx got w1 w2 eq_refl Has1)).
  destruct (reassembled_run got w2 Has2) as [Hlog2 Hrun2]. split; [|split].
  - rewrite Hside. destruct (decide (Forall (λ j, j ∈ i :: got) (List.seq 0 (fragments o)))) as [Ha|Ha].
    + assert (all_arrived o (i :: got)) as Hall'.
      { intros j Hj. rewrite Forall_forall in Ha. apply Ha, elem_of_seq. lia. }
      destruct (Hall Hall') as [_ Hx]. transitivity (rx_side (re_x r)); [reflexivity|]. rewrite Hx.
      rewrite <- Hside2. exact Hrun2.
    + destruct Hpart as [_ Hx].
      { intros Hall'. apply Ha. apply Forall_forall. intros j Hj%elem_of_seq. apply Hall'. lia. }
      transitivity (rx_side (re_x r)); [reflexivity|]. by rewrite Hx.
  - intros Hn. destruct (Hpart Hn) as [Hp Hx]. apply (assembling_crx _ w3); [exact Hv|].
    unfold w3. rewrite Hx. destruct Has1 as [_ H2 H3 H4]. split; [exact Hp|exact H2|exact H3|exact H4].
  - intros Ha. destruct (Hall Ha) as [Hs Hx]. unfold crx in Hv. injection Hv as _ _ _ _ _ _ Hh Hr. split.
    + rewrite Hr. exact Hs.
    + rewrite Hh. unfold w3. cbn [w_events]. rewrite Hx. exact Hlog2.
Qed.

(** ** Its packets *)

Context (keys : SessionKeys) (conn base : U64).
Hypothesis Hkeys : keys_empty keys = false.
Hypothesis Hbase : 0 < base ∧ base + Z.of_nat (fragments o) <= U64_MAX.
Hypothesis Hbytes : bytes_ok (or_payload o).

(** Fragment [i] has the number [base + i]. *)
Definition fragment_packet (v : PacketView) (i : nat) : Prop :=
  pv_h v = message_header conn (base + Z.of_nat i) (fragment_frame id o i) ∧
  open_payload keys v = Done (fragment_frame id o i).

(** The replay window has let through earlier numbers and the fragments [got]. *)
Definition numbers_seen (got : list nat) (win : Window) : Prop :=
  ∃ h, window_rel win h ∧ ∀ x, x ∈ h → x < base ∨ ∃ i, i ∈ got ∧ x = base + Z.of_nat i.
Definition listening (got : list nat) (w : World) : Prop :=
  Est w ∧ c_session_keys (w_client w) = keys ∧ c_conn_id (w_client w) = conn ∧
  numbers_seen got (c_packet_window (w_client w)).

Lemma number_accepted got i win :
  numbers_seen got win → Forall (λ j, (j < fragments o)%nat) got → (i < fragments o)%nat → i ∉ got →
  (ReplayWindow.accept (base + Z.of_nat i) win).1 = true ∧
  numbers_seen (i :: got) (ReplayWindow.accept (base + Z.of_nat i) win).2.
Proof using Ho Hbase.
  clear HL Hid Hty Hch Hadm Hnew Hkeys Hbytes HS. intros (h & Hrel & Hh) Hgot Hi Hni. pose proof (fragments_bound o Ho) as [_ Hn].
  rewrite Forall_forall in Hgot.
  destruct (replay_accept_refines win h (base + Z.of_nat i) Hrel) as [Hb Hr]; [ulia|].
  destruct (spec_accept_cases (base + Z.of_nat i) h) as [(Hs & _)|(_ & _ & Hbad)].
  - rewrite Hs in Hb, Hr. split; [exact Hb|]. exists ((base + Z.of_nat i) :: h). split; [exact Hr|].
    intros x [->|Hx]%elem_of_cons; [right; exists i; set_solver|].
    destruct (Hh x Hx) as [?|(j & Hj & ->)]; [by left|right; exists j; set_solver].
  - exfalso. destruct Hbad as [Hin|Hgr].
    + destruct (Hh _ Hin) as [?|(j & Hj & Hx)]; [lia|]. assert (i = j) as -> by lia. contradiction.
    + assert (greatest h < base + Z.of_nat i + 64); [|lia]. apply greatest_lt; [lia|].
      intros x Hx. destruct (Hh x Hx) as [?|(j & Hj%Hgot & ->)]; lia.
Qed.

Lemma fragment_body_ok i : bytes_ok (fragment_body id o i).
Proof using Hbytes.
  unfold fragment_body, enc_fragment. repeat (apply bytes_ok_app; [apply be_ok|]).
  unfold fragment_slice. by apply Forall_take, Forall_drop.
Qed.

(** [handle_packet] for the packet of a fragment. *)
Lemma client_fragment_packet got w v i :
  listening got w → assembling got w → Forall (λ j, (j < fragments o)%nat) got → ¬ all_arrived o got →
  (i < fragments o)%nat → i ∉ got → fragment_packet v i →
  ∃ w', handle_packet v w = (Done tt, w') ∧ listening (i :: got) w' ∧
    (¬ all_arrived o (i :: got) → assembling (i :: got) w') ∧ (all_arrived o (i :: got) → assembled w').
Proof using HL Hid Ho Hty Hch Hadm Hnew Hkeys Hbase Hbytes.
  intros (Hw & Hk & Hc & Hseen) Has Hgot Hnot Hi Hni [Hh Hopen].
  destruct (number_accepted got i _ Hseen Hgot Hi Hni) as [Hacc Hseen'].
  pose proof (fragment_body_length id o i Ho Hi) as Hlen.
  apply (client_packet_done k w v (base + Z.of_nat i) Channel.Control ControlType.Fragment (fragment_body id o i)
    (λ w', listening (i :: got) w' ∧ (¬ all_arrived o (i :: got) → assembling (i :: got) w') ∧
           (all_arrived o (i :: got) → assembled w'))).
  - exact Hw.
  - split; [rewrite Hc; exact Hh|lia|rewrite Hk; exact Hopen|by rewrite Hk|exact Hacc].
  - exact fragment_type_u8.
  - change NetConfig.MaxMessageBytes with 1252. lia.
  - intros w1 Hv1 Hside1 Hw1.
    destruct (client_fragment_done got w1 i Hw1 (assembling_crx got w w1 Hv1 Has) Hnot Hi)
      as (w' & Hrun & Hside & Hpart & Hall).
    exists w'. split; [exact Hrun|]. rewrite Hside1 in Hside. unfold rx_side in Hside.
    injection Hside as Hst Hk' Hc' Hwin. split; [|exact Hst].
    split; [|split; assumption]. split; [|split; [congruence|split; [congruence|by rewrite Hwin]]].
    split; [|exact Hst].
    pose proof (dispatch_frame_safe k (msg_view Channel.Control ControlType.Fragment (fragment_body id o i))) as Hsafe.
    specialize (Hsafe (ex_intro _ (fragment_body id o i) (conj eq_refl (conj eq_refl (fragment_body_ok i)))) w1
      (proj1 Hw1)). unfold wp in Hsafe. rewrite Hrun in Hsafe. exact Hsafe.
Qed.

(** The packets of the missing fragments, in any order. *)
Lemma client_fragments_done vs order got w :
  Forall2 fragment_packet vs order → order ++ got ≡ₚ List.seq 0 (fragments o) → order ≠ [] →
  listening got w → assembling got w →
  ∃ w', handle_packets vs w = (Done tt, w') ∧ listening (rev order ++ got) w' ∧ assembled w'.
Proof using HL Hid Ho Hty Hch Hadm Hnew Hkeys Hbase Hbytes.
  intros Hvs. revert got w. induction Hvs as [|v i vs order Hv Hvs IH]; intros got w Hperm Hne Hli Has; [done|].
  assert (∀ j, j ∈ (i :: order) ++ got ↔ (j < fragments o)%nat) as Hmem.
  { intros j. rewrite Hperm, elem_of_seq. lia. }
  assert (NoDup ((i :: order) ++ got)) as Hnd by (rewrite Hperm; apply NoDup_seq).
  pose proof Hnd as Hnd'. cbn [app] in Hnd'. apply NoDup_cons in Hnd' as [Hni _].
  assert (i ∉ got) as Hig by set_solver.
  assert (i < fragments o)%nat as Hi by (apply Hmem; set_solver).
  destruct (client_fragment_packet got w v i Hli Has) as (w1 & H1 & Hli1 & Hpart & Hall); [|..|exact Hv|].
  { apply Forall_forall. intros j Hj. apply Hmem. set_solver. }
  { intros Ha. by apply Hig, Ha. }
  { exact Hi. } { exact Hig. }
  cbn [handle_packets]. unfold mbind, io_bind. rewrite H1. cbn [rev]. rewrite <- app_assoc. cbn [app].
  destruct order as [|j order'].
  - inversion Hvs; subst. exists w1. split; [reflexivity|]. split; [exact Hli1|]. apply Hall.
    intros j Hj. apply Hmem in Hj. set_solver.
  - apply IH; [|done|exact Hli1|].
    + rewrite <- Hperm. by rewrite <- Permutation_middle.
    + apply Hpart. intros Ha.
      assert (j ∈ i :: got) as Hj.
      { apply Ha, Hmem. set_solver. }
      apply NoDup_app in Hnd as (Hnd1 & Hdis & _). apply elem_of_cons in Hj as [->|Hj].
      * apply NoDup_cons in Hnd1 as [Hnd1 _]. set_solver.
      * apply (Hdis j); [set_solver|exact Hj].
Qed.
End client.

(** ** The server cuts and queues *)

(** The loop passes the rest of the payload and the length of the slice. *)
Lemma write_slice_done id o i :
  is_u64 id → id ≠ 0 → original_ok o → original_typed o → (i < fragments o)%nat →
  write_to NetConfig.MaxMessageBytes
    (write_fragment_payload id (or_seq o) (or_channel o) (or_type o) (Z.of_nat i)
       (fragment_count_for_length (zlen (or_payload o))) (zlen (or_payload o))
       (Some (drop (Z.to_nat (Z.of_nat i * NetConfig.MaxFragmentDataBytes)) (or_payload o)))
       (fragment_size_for_index (zlen (or_payload o)) (Z.of_nat i))) = Done (fragment_body id o i).
Proof.
  intros Hid H0 Ho Ht Hi. pose proof (fragment_body_length id o i Ho Hi) as Hb.
  destruct (fragment_from_len id o i Ho Hi) as (Hl & Hp & Hend). rewrite Hl in Hp, Hend.
  apply write_to_at; [|change NetConfig.MaxMessageBytes with 1252; lia].
  intros rest Hr. eexists. etransitivity; [|apply (write_fragment_at id o i [] rest); try done].
  { cbn [fragment_from fragment_of fr_delivery_sequence fr_channel fr_type fr_index fr_count fr_original_length
      fr_data fr_len]. change (fr_len (fragment_from id o i)) with
      (zlen (fragment_slice (or_payload o) (Z.of_nat i))) in Hl. rewrite Hl.
    assert (data_of (fragment_slice (or_payload o) (Z.of_nat i)) = Some (fragment_slice (or_payload o) (Z.of_nat i)))
      as -> by (unfold data_of; rewrite decide_False; [done|]; intros He; rewrite He in Hl; simpl in Hl; lia).
    unfold write_fragment_payload. rewrite !bool_decide_eq_false_2 by done.
    rewrite write_bytes_take; [reflexivity|].
    rewrite length_drop. change NetConfig.MaxFragmentDataBytes with 1212. lia. }
Qed.

Section sender.
Context {HN : Ntop} {HS : Sodium} {HL : SodiumLaws}.

(** The queue after [sps] joined it one by one. *)
Definition joined (sps : list ServerPacket) (q : list ServerPacket) : list ServerPacket :=
  foldl (λ q sp, insert_packet sp q) q sps.

Lemma insert_packet_length p q : zlen (insert_packet p q) = zlen q + 1.
Proof.
  rewrite <- (length_fmap as_pending (insert_packet p q)), insert_packet_pending, insert_pending_perm. simpl.
  rewrite length_fmap. lia.
Qed.

(** [sps] carry the fragments of [o] from [i] on, numbered from [n]. *)
Definition carry_fragments (s : PeerSession) (m : U64) (o : Original) (n : U64) (i : nat)
    (sps : list ServerPacket) : Prop :=
  ∀ j sp, sps !! j = Some sp → addressed s (n + Z.of_nat j) (fragment_frame m o (i + j)%nat) sp.

Lemma addressed_numbered s n frame sp : addressed (numbered s) n frame sp → addressed s n frame sp.
Proof. exact id. Qed.

Lemma srv_fragments_done options m o left i w id s :
  so_channel options = or_channel o → channel_is_reliable (or_channel o) = false →
  is_u64 m → m ≠ 0 → original_ok o → original_typed o → bytes_ok (or_payload o) →
  (i + left = fragments o)%nat → ((0 < left)%nat → srv_ready w id s) → ps_send_seq s + Z.of_nat left <= U64_MAX →
  zlen (s_pending (sw_server w)) + Z.of_nat left <= server_max_pending_packets (s_config (sw_server w)) →
  ∃ w' sps, srv_send_fragments left id options m (or_seq o) (or_type o) (or_payload o) (Z.of_nat i) w
      = (Done tt, w') ∧
    s_pending (sw_server w') = joined sps (s_pending (sw_server w)) ∧
    length sps = left ∧ carry_fragments s m o (ps_send_seq s) i sps.
Proof.
  intros Hso Hch Hm H0 Ho Ht Hb. pose proof (fragments_bound o Ho) as [Hc Hn].
  revert i w s. induction left as [|left IH]; intros i w s Hil Hw Hseq Hroom.
  { exists w, []. split_and!; [reflexivity..|]. intros j sp Hj. done. }
  specialize (Hw (Nat.lt_0_succ left)). cbn [srv_send_fragments]. rewrite Hso, Hch.
  pose proof (proj1 Ho) as Hlen. rewrite (w16_id (zlen (or_payload o))) by ulia. cbv zeta.
  rewrite write_slice_done by (done || lia). unfold mbind at 1, io_bind at 1, lift.
  pose proof (fragment_body_length m o i Ho ltac:(lia)) as Hbl.
  rewrite (w16_id (zlen (fragment_body m o i))), (w16_id (Z.of_nat i + 1)) by ulia.
  destruct (srv_internal_done w id s Channel.Control ControlType.Fragment (fragment_body m o i)
    (so_priority options) Hw fragment_type_u8) as (w1 & sp & H1 & Hp & Ha).
  { by apply fragment_body_ok. }
  { change NetConfig.MaxMessageBytes with 1252. lia. }
  rewrite data_of_fragment in H1. cbv iota. unfold mbind at 1, io_bind at 1. rewrite H1.
  destruct (pushed_tally _ _ _ _ _ Stat.fragments_sent Hp) as (w2 & H2 & Hp2).
  unfold mbind at 1, io_bind at 1. rewrite H2.
  replace (Z.of_nat i + 1) with (Z.of_nat (S i)) by lia.
  assert (ps_send_seq (numbered s) = ps_send_seq s + 1) as Hns.
  { pose proof (sr_seq _ _ _ Hw). cbn. rewrite w64_id; [done|ulia]. }
  assert (zlen (s_pending (sw_server w2)) = zlen (s_pending (sw_server w)) + 1) as Hlq
    by (rewrite (pu_queue _ _ _ _ _ Hp2); apply insert_packet_length).
  destruct (IH (S i) w2 (numbered s)) as (w' & sps & Hrun & Hq & Hls & Hcar).
  - lia.
  - intros Hpos. destruct Hw as [G1 G2 G3 G4 G5 G6]. split; [|exact G2|exact G3|exact G4| |].
    + rewrite (pu_sessions _ _ _ _ _ Hp2). apply lookup_insert_eq.
    + rewrite Hns. ulia.
    + rewrite (pu_config _ _ _ _ _ Hp2). lia.
  - lia.
  - rewrite (pu_config _ _ _ _ _ Hp2). lia.
  - exists w', (sp :: sps). split; [exact Hrun|]. split; [|split].
    + rewrite Hq, (pu_queue _ _ _ _ _ Hp2). reflexivity.
    + cbn. by rewrite Hls.
    + intros [|j] sp' Hj; cbn in Hj.
      * injection Hj as <-. rewrite Z.add_0_r, Nat.add_0_r. exact Ha.
      * apply Hcar in Hj. rewrite Hns in Hj.
        replace (ps_send_seq s + Z.of_nat (S j)) with (ps_send_seq s + 1 + Z.of_nat j) by lia.
        replace (i + S j)%nat with (S i + j)%nat by lia. apply addressed_numbered. exact Hj.
Qed.

(** [send] for a message of several packets that it accepts now. *)
Record srv_large (cfg : FragmentationConfig) (s : PeerSession) (ch : Channel) (t : U8) (bs : list U8) : Prop := {
  sg_state : ps_state s = ConnectionState.Established;
  sg_channel : channel_is_application ch = true ∧ channel_is_reliable ch = false;
  sg_type : is_u8 t;
  sg_bytes : bytes_ok bs;
  sg_large : max_inline_payload_for_channel ch < zlen bs <= U16_MAX;
  sg_enabled : frag_enabled cfg = true;
  sg_limit : zlen bs <= max_reassembled_message_bytes cfg;
  sg_count : fragment_count_for_length (zlen bs) <= max_fragments_per_message cfg;
  sg_id : is_u64 (ps_next_fragment_message_id s) ∧ ps_next_fragment_message_id s ≠ 0;
  sg_sequence : is_u64 (srv_next_sequence ch s);
}.
Definition original (s : PeerSession) (ch : Channel) (t : U8) (bs : list U8) : Original :=
  mkOriginal (srv_next_sequence ch s) ch t bs.

Lemma srv_large_ok cfg s ch t bs :
  srv_large cfg s ch t bs → original_ok (original s ch t bs) ∧ original_typed (original s ch t bs).
Proof.
  intros [_ [Ha _] Ht _ Hl _ _ _ _ Hq]. assert (0 < zlen bs).
  2: { split; (split; [|assumption]); cbn; [lia|exact Hq]. }
  destruct ch; vm_compute (max_inline_payload_for_channel _) in Hl; lia.
Qed.

Lemma set_session_run w id s f :
  s_sessions (sw_server w) !! id = Some s →
  set_session id f w = (Done tt, mkServerWorld
    (sw_server w <| s_sessions := <[id := f s]> (s_sessions (sw_server w)) |>) (sw_net w) (sw_events w)).
Proof. intros Hs. unfold set_session, mbind, io_bind, session. by rewrite Hs. Qed.

(** The numbers [send_fragmented] takes leave what sealing reads. *)
Lemma srv_ready_set w id s f :
  srv_ready w id s →
  ps_conn_id (f s) = ps_conn_id s → ps_keys (f s) = ps_keys s → ps_send_seq (f s) = ps_send_seq s →
  srv_ready (mkServerWorld (sw_server w <| s_sessions := <[id := f s]> (s_sessions (sw_server w)) |>)
    (sw_net w) (sw_events w)) id (f s).
Proof.
  intros [] H1 H2 H3. split; cbn [sw_server]; sfields; rewrite ?H1, ?H2, ?H3; try assumption. apply lookup_insert_eq.
Qed.

Section large.
Context (w : ServerWorld) (id : U64) (s : PeerSession) (options : SendOptions) (t : U8) (bs : list U8).
#[local] Abbreviation ch := (so_channel options).
#[local] Abbreviation v := (sw_server w).
#[local] Abbreviation o := (original s ch t bs).
#[local] Abbreviation message := (ps_next_fragment_message_id s).
Hypothesis Hw : srv_ready w id s.
Hypothesis Hl : srv_large (server_fragmentation (s_config v)) s ch t bs.
Hypothesis Hseq : ps_send_seq s + Z.of_nat (fragments o) <= U64_MAX.
Hypothesis Hroom : zlen (s_pending v) + Z.of_nat (fragments o) <= server_max_pending_packets (s_config v).

Definition all_queued (w' : ServerWorld) (sps : list ServerPacket) : Prop :=
  s_pending (sw_server w') = joined sps (s_pending v) ∧ length sps = fragments o ∧
  carry_fragments s message o (ps_send_seq s) 0 sps.

(** The loop, after [send_fragmented] took the numbers. *)
Lemma srv_fragment_loop w1 s1 :
  srv_ready w1 id s1 → ps_send_seq s1 = ps_send_seq s → ps_keys s1 = ps_keys s →
  ps_endpoint s1 = ps_endpoint s → s_pending (sw_server w1) = s_pending v → s_config (sw_server w1) = s_config v →
  ∃ w' sps, (srv_send_fragments (fragments o) id options message (or_seq o) t bs 0;;
         tally Stat.fragmented_messages_sent;; srv_refresh) w1 = (Done tt, w') ∧ all_queued w' sps.
Proof using HL Hw Hl Hseq Hroom.
  intros Hw1 E1 E2 E3 E4 E5. pose proof (srv_large_ok _ _ _ _ _ Hl) as [Ho Ht].
  destruct Hl as [_ [_ Hch] _ Hb _ _ _ _ [Hm Hm0] _]. pose proof (proj1 (sr_id _ _ _ Hw)) as Hid.
  destruct (srv_fragments_done options message o (fragments o) 0 w1 id s1)
    as (w2 & sps & H2 & Hq & Hls & Hcar); try done; [by rewrite E1|by rewrite E4, E5|].
  unfold mbind at 1, io_bind at 1.
  change (srv_send_fragments (fragments o) id options message (or_seq o) t bs 0 w1) with
    (srv_send_fragments (fragments o) id options message (or_seq o) (or_type o) (or_payload o) (Z.of_nat 0) w1).
  rewrite H2. eexists _, sps. split; [reflexivity|]. split; [|split; [exact Hls|]].
  - rewrite <- E4. exact Hq.
  - intros j sp Hj. specialize (Hcar j sp Hj). rewrite E1 in Hcar.
    destruct Hcar as (C1 & C2 & C3). rewrite E2, (proj1 (sr_id _ _ _ Hw1)), <- Hid in *. by rewrite E3 in C1.
Qed.

Lemma srv_fragmented_done :
  ∃ w' sps, srv_send_fragmented id options t bs w = (Done tt, w') ∧ all_queued w' sps.
Proof using HL Hw Hl Hseq Hroom.
  pose proof srv_fragment_loop as Hloop. pose proof (srv_large_ok _ _ _ _ _ Hl) as [Ho _].
  pose proof (fragments_bound o Ho) as [Hc Hn]. pose proof (sr_session _ _ _ Hw) as Hs.
  destruct Hl as [_ [Happ Hch] _ _ [_ Hmax] Hen Hlim Hcnt _ _].
  unfold srv_send_fragmented. unfold mbind at 1, io_bind at 1, srv. cbv zeta.
  rewrite (w16_id (zlen bs)) by ulia. rewrite Hen, Happ. cbn [negb].
  rewrite (proj2 (Z.ltb_ge _ _) Hlim), (proj2 (Z.ltb_ge _ _) Hcnt), (proj2 (Z.eqb_neq _ 0))
    by (change bs with (or_payload o); lia). cbn [orb].
  unfold mbind at 1, io_bind at 1, session. rewrite Hs.
  unfold mbind at 1, io_bind at 1. rewrite (set_session_run w id s _ Hs).
  set (f1 := λ s0, s0 <| ps_next_fragment_message_id := w64 (message + 1) |>).
  set (f2 := λ s0, s0 <| ps_next_sequenced_sequence := w64 (ps_next_sequenced_sequence s0 + 1) |>).
  pose proof (srv_ready_set w id s f1 Hw eq_refl eq_refl eq_refl) as Hw1.
  change (Z.to_nat (fragment_count_for_length (zlen bs))) with (fragments o).
  unfold original in Hloop |- *. destruct ch eqn:Hso; try discriminate.
  - rewrite !decide_False by done. exact (Hloop _ _ Hw1 eq_refl eq_refl eq_refl eq_refl eq_refl).
  - rewrite decide_False, decide_True by done.
    unfold mbind at 1, io_bind at 1. unfold mbind at 1, io_bind at 1.
    erewrite set_session_run by exact (sr_session _ _ _ Hw1).
    by apply (Hloop _ _ (srv_ready_set _ id (f1 s) f2 Hw1 eq_refl eq_refl eq_refl)).
Qed.

Lemma srv_large_done :
  ∃ w' sps, srv_send (make_peer s) options t bs w = (Done tt, w') ∧ all_queued w' sps.
Proof using HL Hw Hl Hseq Hroom.
  destruct srv_fragmented_done as (w' & sps & Hrun & Hrest). exists w', sps. split; [|exact Hrest].
  destruct Hl as [Hst [Happ _] _ _ [Hin Hmax] _ _ _ _ _].
  pose proof (proj1 (sr_id _ _ _ Hw)) as Hid. pose proof (sr_session _ _ _ Hw) as Hs.
  unfold srv_send. unfold mbind at 1, io_bind at 1, srv. cbv zeta. cbn [make_peer peer_conn_id]. rewrite Hid.
  assert (peer_session (make_peer s) v = Some s) as ->.
  { unfold peer_session, find_session. cbn [make_peer peer_conn_id peer_endpoint]. rewrite Hid, Hs.
    cbn. by rewrite ep_eqb_refl. }
  rewrite bool_decide_eq_true_2 by exact Hst. rewrite Happ. cbn [negb].
  pose proof (Nat2Z.is_nonneg (length bs)) as Hnn.
  rewrite (proj2 (Z.ltb_ge U16_MAX _)), (w16_id (zlen bs)), (proj2 (Z.ltb_lt _ _) Hin) by ulia.
  by apply srv_finish_done.
Qed.
End large.
End sender.

(** ** End to end *)

Section both.
Context {HN : Ntop} {HS : Sodium} {HL : SodiumLaws} {HT : Traversal} {HTL : TraversalLaws}.

(** The packet view of the datagram. *)
Definition parsed (sp : ServerPacket) (p : PacketView) : Prop :=
  parse_packet (Some (take (Z.to_nat (sp_len sp)) (sp_bytes sp))) (sp_len sp) = Done p.

Lemma carried_packets s m o n sps keys order :
  carry_fragments s m o n 0 sps → sk_rx keys = sk_tx (ps_keys s) → length sps = fragments o →
  Forall (λ i, (i < fragments o)%nat) order →
  ∃ vs, Forall2 (λ p i, ∃ sp, sps !! i = Some sp ∧ parsed sp p) vs order ∧
    Forall2 (fragment_packet m o keys (ps_conn_id s) n) vs order.
Proof.
  intros Hcar Hk Hlen. induction 1 as [|i order Hi _ (vs & H1 & H2)]; [by exists []|].
  destruct (lookup_lt_is_Some_2 sps i) as [sp Hsp]; [lia|].
  destruct (Hcar i sp Hsp) as (_ & _ & Hc). destruct (Hc keys Hk) as (p & Hp & Hh & Hop).
  exists (p :: vs). split.
  - constructor; [exists sp; split; [exact Hsp|exact Hp]|exact H1].
  - constructor; [split; [exact Hh|exact Hop]|exact H2].
Qed.

(** C7: a message larger than a packet goes from the server to the client.  On the
    channels without retransmission, when the server may send it (established, the
    limits of the configuration, room for its fragments in the queue) and the
    client's reassembler has room for it, [send] succeeds and queues one packet per
    fragment for the peer's address, and in whatever order the client handles these
    packets, its user gets exactly the message, whole, through every callback
    installed for it, once, and the reassembler is left as it was. *)
Theorem large_message_delivered scfg ccfg sw cw options t bs s :
  let c := w_client cw in let ch := so_channel options in let v := sw_server sw in
  let o := original s ch t bs in
  server_usable scfg → server_reachable scfg sw → client_usable ccfg → reachable ccfg cw →
  s_sessions v !! ps_conn_id s = Some s → srv_large (server_fragmentation (s_config v)) s ch t bs →
  ps_send_seq s + Z.of_nat (fragments o) <= U64_MAX →
  zlen (s_pending v) + Z.of_nat (fragments o) <= server_max_pending_packets (s_config v) →
  attached s c → (∃ h, window_rel (c_packet_window c) h ∧ Forall (λ x, x < ps_send_seq s) h) →
  admits (c_reassembler c) o → ra_entries (c_reassembler c) !! ps_next_fragment_message_id s = None →
  in_turn (crx_windows c) ch (srv_next_sequence ch s) →
  ∃ sw' sps,
    srv_send (make_peer s) options t bs sw = (Done tt, sw') ∧
    s_pending (sw_server sw') = joined sps (s_pending v) ∧
    length sps = fragments o ∧ Forall (λ sp, sp_to sp = ps_endpoint s) sps ∧
    ∀ order, order ≡ₚ List.seq 0 (fragments o) → ∃ ps cw',
      Forall2 (λ p i, ∃ sp, sps !! i = Some sp ∧ parsed sp p) ps order ∧
      handle_packets ps cw = (Done tt, cw') ∧
      heard (w_events cw') = message_events (c_callbacks c) (msg_view ch t bs) ++ heard (w_events cw) ∧
      c_reassembler (w_client cw') = c_reassembler c.
Proof.
  intros c ch v o Hsu [k1 Hsw]%server_reachable_inv Hcu [k2 Hcw]%reachable_inv Hs Hl Hseq Hroom; [|done..].
  intros [Hst Hconn Hkeys [Hk1 Hk2] [Hq0 _]] (h & Hrel & Hh) Hadm Hnew Hturn.
  pose proof (srv_large_ok _ _ _ _ _ Hl) as [Ho Hty]. pose proof (fragments_bound o Ho) as [_ Hn].
  assert (srv_ready sw (ps_conn_id s) s) as Hready by (apply (session_ready scfg k1); try assumption; fold v; lia).
  pose proof (sr_seq _ _ _ Hready) as Hsq.
  destruct (srv_large_done sw (ps_conn_id s) s options t bs Hready Hl Hseq Hroom)
    as (sw' & sps & Hrun & Hpend & Hlen & Hcar).
  exists sw', sps. split; [exact Hrun|]. split; [exact Hpend|]. split; [exact Hlen|]. split.
  { apply Forall_forall. intros sp (j & Hj)%list_elem_of_lookup. apply (Hcar j sp Hj). }
  intros order Horder.
  destruct (carried_packets s _ o _ sps (c_session_keys c) order Hcar Hkeys Hlen) as (ps & Hps & Hfp).
  { apply Forall_forall. intros i Hi. rewrite Horder, elem_of_seq in Hi. lia. }
  destruct Hl as [_ [Happ Hch] _ Hb _ _ _ _ Hid _].
  destruct (client_fragments_done k2 (ps_next_fragment_message_id s) o (c_reassembler c) (c_callbacks c)
    (heard (w_events cw))) with (keys := c_session_keys c) (conn := ps_conn_id s) (base := ps_send_seq s)
    (vs := ps) (order := order) (got := @nil nat) (w := cw) as (cw' & Hrun' & _ & [Hra Hhe]); try assumption.
  - ulia.
  - by rewrite app_nil_r.
  - intros ->. apply Permutation_nil_l in Horder. destruct (fragments o); [lia|done].
  - split; [by split|]. split; [reflexivity|]. split; [exact Hconn|]. exists h. split; [exact Hrel|].
    intros x Hx. left. rewrite Forall_forall in Hh. by apply Hh.
  - split; [reflexivity|exact Hturn|reflexivity..].
  - exists ps, cw'. split_and!; assumption.
Qed.
End both.

(** ** Witness *)

Import Pair.

Definition large_bytes : list U8 := (Z.of_nat <$> List.seq 0 200) ++ replicate 1300 7.

Lemma large_message_delivered_witness :
  let o := original session9 Channel.SequencedUnreliable 7 large_bytes in
  fragments o = 2%nat ∧
  ∃ sw' sps,
    srv_send (make_peer session9) sequenced_options 7 large_bytes server3 = (Done tt, sw') ∧
    s_pending (sw_server sw') = joined sps (s_pending (sw_server server3)) ∧
    length sps = fragments o ∧ Forall (λ sp, sp_to sp = ps_endpoint session9) sps ∧
    ∀ order, order ≡ₚ List.seq 0 (fragments o) → ∃ ps cw',
      Forall2 (λ p i, ∃ sp, sps !! i = Some sp ∧ parsed sp p) ps order ∧
      handle_packets ps client3 = (Done tt, cw') ∧
      heard (w_events cw') =
        message_events (c_callbacks (w_client client3)) (msg_view Channel.SequencedUnreliable 7 large_bytes)
        ++ heard (w_events client3) ∧
      c_reassembler (w_client cw') = c_reassembler (w_client client3).
Proof.
  intros o. split; [vm_compute; reflexivity|].
  apply (large_message_delivered default_server default_client server3 client3 sequenced_options 7 large_bytes session9
    server_default_usable server3_reachable Example.client_default_usable client3_reachable).
  - vm_compute. reflexivity.
  - split.
    + vm_compute. reflexivity.
    + split; reflexivity.
    + split; lia.
    + apply (bool_decide_unpack _). vm_compute. exact I.
    + split; vm_compute; [reflexivity|discriminate].
    + vm_compute. reflexivity.
    + vm_compute. discriminate.
    + vm_compute. discriminate.
    + split; [apply (bool_decide_unpack _); vm_compute; exact I|vm_compute; discriminate].
    + apply (bool_decide_unpack _); vm_compute; exact I.
  - vm_compute. discriminate.
  - vm_compute. discriminate.
  - split; [vm_compute; reflexivity..| |].
    + split; vm_compute; reflexivity.
    + split; vm_compute; [discriminate|reflexivity].
  - exists []. split; [|constructor].
    assert (c_packet_window (w_client client3) = fresh_window) as -> by (vm_compute; reflexivity).
    exact window_rel_fresh.
  - split; vm_compute; [reflexivity|discriminate|discriminate|reflexivity|discriminate|split; discriminate].
  - vm_compute. reflexivity.
  - vm_compute. reflexivity.
Defined.
