(* ===== verification/Link.v ===== *)
(** * The ordered channel over an unreliable network

    The sending half of the reliable-ordered channel ([Client::send] and its
    reliable session), a network that loses, repeats and reorders what it
    carries, and the receiving half (the reliable filter and the ordered window
    of the dispatch code), composed.  Frames are what sealed packets carry; a
    frame that was not sent does not arrive.  Each message fits one frame.  The
    callback that the code hands to the ordered window never fails, and a message
    that finds the window full is dropped, as here. *)
From stdpp Require Import sorting.
From S2P Require Import Prelude Result ByteBuf Config Message Windows Payloads Reliability Ordered.
From S2P Require Import Client ClientInv Sealing Deliver EndToEnd.
#[local] Open Scope Z_scope.

(** ** The system *)

Record Link := mkLink {
  lk_next : U64;                   (* _next_ordered_sequence of the sender *)
  lk_sender : ReliableSession;     (* its _ordered_reliable *)
  lk_wire : list (U8 * list U8);   (* frames in the network: type and body *)
  lk_acks : list (list U8);        (* acknowledgements in the network *)
  lk_receiver : ReliableSession;   (* ordered_reliable of the receiver *)
  lk_window : OrderedReceiveWindow;
  lk_log : list (U8 * list U8);    (* what the user of the receiver got *)
}.

Definition new_link (cfg : ReliabilityConfig) : Link :=
  let s := configure cfg new_reliable_session in
  mkLink 1 s [] [] s (set_max_buffered (ordered_receive_window cfg) (new_ordered 64)) [].

Inductive link_op : Type :=
  | Submit (prio : SendPriority) (life now : U64)
  | SubmitUnsent (prio : SendPriority) (life now : U64)   (* the packet queue is full *)
  | Resend (now : U64)
  | ResendSome (room : nat) (now : U64)                   (* the packet queue takes [room] packets *)
  | Expire (now : U64)
  | Deliver (i : nat)
  | Ack (i : nat) (now : U64)
  | LoseFrame (i : nat)
  | LoseAck (i : nat).

Lemma first_messages_prefix (sent : U64 → U8 * list U8) a b :
  (a <= b)%nat → first_messages sent a `prefix_of` first_messages sent b.
Proof.
  intros Hle. exists ((λ k, sent (Z.of_nat k)) <$> seq (1 + a) (b - a)). unfold first_messages.
  by rewrite <- fmap_app, <- seq_app, Nat.add_sub_assoc, Nat.add_comm, Nat.add_sub by lia.
Qed.

Section link.
(** The [k]-th message that the user submits is [sent k]. *)
Context (sent : U64 → U8 * list U8).

(** The ordered branch of [send].  When [queue_message_packet] takes the packet
    it is on the wire and the session notes it; when it fails, the session forgets
    the message again, and its number stays used. *)
Definition submit (queued : bool) (prio : SendPriority) (life now : U64) (l : Link) : Link :=
  let '(t, bs) := sent (lk_next l) in
  let result s wire :=
    mkLink (w64 (lk_next l + 1)) s wire (lk_acks l) (lk_receiver l) (lk_window l) (lk_log l) in
  match write_to NetConfig.MaxReliableMessageBytes
          (write_ordered_payload (lk_next l) (data_of bs) (zlen bs)) with
  | Done encoded =>
      match enqueue t (Some encoded) (w16 (zlen encoded)) prio life now (lk_sender l) with
      | (Done p, s) =>
          if queued
          then result (note_sent (p_message_id p) now s).2 (lk_wire l ++ [(t, p_encoded_payload p)])
          else result (acknowledge (p_message_id p) now s).2 (lk_wire l)
      | (_, s) => result s (lk_wire l)
      end
  | _ => result (lk_sender l) (lk_wire l)
  end.

Definition frame_of (m : PendingReliableMessage) : U8 * list U8 :=
  (p_user_type m, p_encoded_payload m).

Definition resend (now : U64) (l : Link) : Link :=
  let '(_, s, wire) := resend_due now (record_send frame_of) (lk_sender l) (lk_wire l) in
  mkLink (lk_next l) s wire (lk_acks l) (lk_receiver l) (lk_window l) (lk_log l).

(** A packet queue with room for some packets, which [queue_message_packet] fills. *)
Definition send_some (m : PendingReliableMessage) (x : list (U8 * list U8) * nat)
    : Result * (list (U8 * list U8) * nat) :=
  match x.2 with
  | O => (fail_result Errc.Backpressure "reliable send backpressure", x)
  | S room => (success, (x.1 ++ [frame_of m], room))
  end.

Definition resend_some (room : nat) (now : U64) (l : Link) : Link :=
  let '(_, s, (wire, _)) := resend_due now send_some (lk_sender l) (lk_wire l, room) in
  mkLink (lk_next l) s wire (lk_acks l) (lk_receiver l) (lk_window l) (lk_log l).

Definition set_sender (s : ReliableSession) (l : Link) : Link :=
  mkLink (lk_next l) s (lk_wire l) (lk_acks l) (lk_receiver l) (lk_window l) (lk_log l).

(** A frame arrives: it is acknowledged, filtered, and offered to the ordered
    window, whose callback is the user's. *)
Definition deliver (frame : U8 * list U8) (l : Link) : Link :=
  match read_from (data_of frame.2) (zlen frame.2) read_reliable_payload with
  | Done reliable =>
      let acks := match write_to 16 (write_reliable_ack Channel.ReliableOrdered (pl_id reliable)) with
                  | Done a => lk_acks l ++ [a]
                  | _ => lk_acks l
                  end in
      let '(fresh, r) := accept_incoming (pl_id reliable) (lk_receiver l) in
      let result w log := mkLink (lk_next l) (lk_sender l) (lk_wire l) acks r w log in
      if negb fresh then result (lk_window l) (lk_log l)
      else match read_from (pl_data reliable) (pl_len reliable) read_ordered_payload with
           | Done ordered =>
               let a := accept_ordered (logged accept_any) (pl_id ordered) frame.1 (pl_data ordered)
                          (pl_len ordered) (lk_window l) (tt, lk_log l) in
               result (oa_window a) (oa_state a).2
           | _ => result (lk_window l) (lk_log l)
           end
  | _ => l
  end.

Definition acked (bytes : list U8) (now : U64) (l : Link) : Link :=
  match read_from (data_of bytes) (zlen bytes) read_reliable_ack with
  | Done (_, id) => set_sender (acknowledge id now (lk_sender l)).2 l
  | _ => l
  end.

Definition run_link (op : link_op) (l : Link) : Link :=
  match op with
  | Submit prio life now => submit true prio life now l
  | SubmitUnsent prio life now => submit false prio life now l
  | Resend now => resend now l
  | ResendSome room now => resend_some room now l
  | Expire now => set_sender (expire_old now (lk_sender l)).2 l
  | Deliver i => from_option (λ f, deliver f l) l (lk_wire l !! i)
  | Ack i now => from_option (λ a, acked a now l) l (lk_acks l !! i)
  | LoseFrame i =>
      mkLink (lk_next l) (lk_sender l) (delete i (lk_wire l)) (lk_acks l) (lk_receiver l)
        (lk_window l) (lk_log l)
  | LoseAck i =>
      mkLink (lk_next l) (lk_sender l) (lk_wire l) (delete i (lk_acks l)) (lk_receiver l)
        (lk_window l) (lk_log l)
  end.

Definition run_ops (ops : list link_op) (l : Link) : Link := foldl (λ l op, run_link op l) l ops.

Definition is_submit (op : link_op) : bool := match op with Submit _ _ _ | SubmitUnsent _ _ _ => true | _ => false end.
Definition submits (ops : list link_op) : nat := length (filter (λ op, is_submit op = true) ops).

(** Every message fits one frame. *)
Context (Hsent : ∀ k, is_u8 (sent k).1 ∧ bytes_ok (sent k).2 ∧
                      zlen (sent k).2 <= NetConfig.MaxOrderedMessageBytes).

(** ** Safety *)

(** The frame of the [k]-th message, under some id. *)
Definition genuine (next : U64) (f : U8 * list U8) : Prop :=
  ∃ id k, is_u64 id ∧ id ≠ 0 ∧ 1 <= k < next ∧
    f = ((sent k).1, enc_payload id (enc_payload k (sent k).2)).

Lemma genuine_mono next next' f : next <= next' → genuine next f → genuine next' f.
Proof. intros Hle (id & k & ? & ? & ? & ?). exists id, k. auto with lia. Qed.

Record link_inv (l : Link) : Prop := {
  li_next : 1 <= lk_next l <= U64_MAX;
  li_ids : rs_next_message_id (lk_sender l) <= lk_next l;
  li_sender : rs_inv (lk_sender l);
  li_pending : Forall (λ m, genuine (lk_next l) (frame_of m)) (rs_pending (lk_sender l));
  li_wire : Forall (genuine (lk_next l)) (lk_wire l);
  li_ordered : ordered_inv sent (lk_window l, (tt, lk_log l));
  li_bounded : progress (lk_next l - 1) [] (lk_window l);
}.

Lemma sent_length k : zlen (sent k).2 <= 1236.
Proof. exact (proj2 (proj2 (Hsent k))). Qed.

Lemma same_genuine next q q' :
  Forall2 same_message q q' → Forall (λ m, genuine next (frame_of m)) q →
  Forall (λ m, genuine next (frame_of m)) q'.
Proof.
  induction 1 as [|a b q q' (_ & Ht & Hp & _) _ IH]; intros Hg; [done|].
  apply Forall_cons in Hg as [Ha Hg]. constructor; [|by apply IH].
  unfold frame_of in *. by rewrite <- Ht, <- Hp.
Qed.
Lemma sublist_Forall {A} (P : A → Prop) l k : sublist l k → Forall P k → Forall P l.
Proof. rewrite !Forall_forall. intros Hs HP x Hx. by eapply HP, elem_of_sublist. Qed.

(** What [submit] does: the message is queued and sent under the next id, or the
    queue is full and the message keeps its number. *)
Inductive submitted (queued : bool) (prio : SendPriority) (life now : U64) (l : Link) : Link → Prop :=
  | SubmitFull m :
      max_pending_messages (rs_cfg (lk_sender l)) <= zlen (rs_pending (lk_sender l)) ∨
      max_pending_bytes (rs_cfg (lk_sender l)) <
        w32 (rs_pending_bytes (lk_sender l) + 16 + zlen (sent (lk_next l)).2) →
      enqueue (sent (lk_next l)).1 (data_of (enc_payload (lk_next l) (sent (lk_next l)).2))
        (zlen (enc_payload (lk_next l) (sent (lk_next l)).2)) prio life now (lk_sender l)
        = (Err (fail_result Errc.QueueFull m), lk_sender l) →
      submitted queued prio life now l
        (mkLink (lk_next l + 1) (lk_sender l) (lk_wire l) (lk_acks l) (lk_receiver l) (lk_window l)
           (lk_log l))
  | SubmitDone p s :
      enqueue (sent (lk_next l)).1 (data_of (enc_payload (lk_next l) (sent (lk_next l)).2))
        (zlen (enc_payload (lk_next l) (sent (lk_next l)).2)) prio life now (lk_sender l)
        = (Done p, s) →
      p_message_id p = rs_next_message_id (lk_sender l) → p_lifetime_ms p = life →
      frame_of p = ((sent (lk_next l)).1, enc_payload (rs_next_message_id (lk_sender l))
        (enc_payload (lk_next l) (sent (lk_next l)).2)) →
      rs_next_message_id s = rs_next_message_id (lk_sender l) + 1 →
      rs_pending s = insert_by_priority p (rs_pending (lk_sender l)) →
      submitted queued prio life now l
        (if queued
         then mkLink (lk_next l + 1) (note_sent (p_message_id p) now s).2 (lk_wire l ++ [frame_of p])
                (lk_acks l) (lk_receiver l) (lk_window l) (lk_log l)
         else mkLink (lk_next l + 1) (acknowledge (p_message_id p) now s).2 (lk_wire l)
                (lk_acks l) (lk_receiver l) (lk_window l) (lk_log l)).

Lemma submit_cases queued prio life now l :
  link_inv l → lk_next l < U64_MAX → submitted queued prio life now l (submit queued prio life now l).
Proof.
  intros [Hn Hids Hs _ _ _ _] Hmax. unfold submit. pose proof (sent_length (lk_next l)) as Hl.
  destruct (sent (lk_next l)) as [t bs] eqn:Hk. cbn [snd] in Hl.
  rewrite write_ordered_done by (done || ulia).
  pose proof (enc_payload_length (lk_next l) bs) as Hel.
  rewrite <- data_of_payload, w16_id, (w64_id (lk_next l + 1)) by (rewrite ?Hel; ulia).
  pose proof (enqueue_cases t (enc_payload (lk_next l) bs) prio life now (lk_sender l) Hs) as Hc.
  destruct (enqueue t _ _ prio life now (lk_sender l)) as [o s] eqn:He.
  specialize (Hc ltac:(rewrite Hel; ulia) ltac:(lia)).
  inversion Hc as [m Hfull|Hbig|m Hm _ _ _]; subst.
  - apply (SubmitFull _ _ _ _ _ m); rewrite Hk; [|exact He]. rewrite Hel in Hfull. cbn [snd].
    by replace (rs_pending_bytes (lk_sender l) + 16 + zlen bs)
      with (rs_pending_bytes (lk_sender l) + 8 + (8 + zlen bs)) by lia.
  - change NetConfig.MaxReliableMessageBytes with 1244 in Hbig. lia.
  - match type of He with _ = (Done ?p, ?s) => apply (SubmitDone _ _ _ _ _ p s) end;
      rewrite ?Hk; [exact He|reflexivity..].
Qed.

Lemma note_sent_same id now s :
  rs_inv s → Forall2 same_message (rs_pending s) (rs_pending (note_sent id now s).2) ∧
    rs_next_message_id (note_sent id now s).2 = rs_next_message_id s.
Proof.
  intros Hinv. pose proof (note_loop_facts (rs_cfg s) id now (rs_pending s) (rs_inflight_count s) 0) as Hn.
  unfold note_sent. destruct (note_loop _ _ _ _ _) as [[b q] n]. split; [|done].
  apply Hn; [apply (ri_typed _ Hinv)|done|apply Hinv..].
Qed.

Lemma progress_mono n n' known w : n <= n' → progress n known w → progress n' known w.
Proof. intros Hle [H1 H2 H3]. split; [lia| |done]. intros k Hk%H2. lia. Qed.
Lemma progress_forget n known w : progress n known w → progress n [] w.
Proof. intros [H1 H2 H3]. split; [done..|]. by intros k ?%elem_of_nil. Qed.

Lemma new_link_inv cfg : usable_config cfg → link_inv (new_link cfg).
Proof.
  intros Hc. pose proof (rs_reachable_inv cfg _ Hc (ReachInit cfg)) as Hinv.
  assert (0 <= ordered_receive_window cfg) by apply (proj1 Hc).
  split; cbn [new_link lk_next lk_sender lk_wire lk_window lk_log]; try done.
  split; cbn; [lia|intros k; rewrite lookup_empty; by intros []|by intros k ?%elem_of_nil].
Qed.

Lemma acknowledge_shape id now s :
  sublist (rs_pending (acknowledge id now s).2) (rs_pending s) ∧
  rs_next_message_id (acknowledge id now s).2 = rs_next_message_id s.
Proof.
  unfold acknowledge. destruct (extract id (rs_pending s)) as [[it rest]|] eqn:He; [|done].
  apply extract_perm in He as (_ & Hsub & _). cbv zeta.
  destruct (_ && _); [|done]. by destruct (update_rtt _ _ _).
Qed.

Lemma submit_inv queued prio life now l :
  link_inv l → is_u64 life → lk_next l < U64_MAX → link_inv (submit queued prio life now l).
Proof.
  intros Hl Hlife Hmax. pose proof Hl as [Hn Hids Hs Hp Hw Ho Hb].
  assert (∀ f, genuine (lk_next l) f → genuine (lk_next l + 1) f) as Hmono
    by (intros f; apply genuine_mono; lia).
  assert (progress (lk_next l + 1 - 1) [] (lk_window l)) as Hb' by (eapply progress_mono; [|done]; lia).
  destruct (submit_cases queued prio life now l Hl Hmax) as [m _ _|p s He Hid Hlf Hfr Hns Hps].
  - split; cbn [lk_next lk_sender lk_wire lk_window lk_log]; try done; [lia|lia| |];
      (eapply Forall_impl; [eassumption|]; intros ? ?; by apply Hmono).
  - assert (genuine (lk_next l + 1) (frame_of p)) as Hgp.
    { rewrite Hfr. exists (rs_next_message_id (lk_sender l)), (lk_next l).
      pose proof (ri_next _ Hs). split_and!; [ulia..|done]. }
    pose proof (sent_length (lk_next l)).
    assert (rs_inv s) as Hs'.
    { pose proof (enqueue_inv (sent (lk_next l)).1 (enc_payload (lk_next l) (sent (lk_next l)).2) prio life now
        (lk_sender l) Hs) as Hi. rewrite He in Hi. apply Hi; [|done|lia]. rewrite enc_payload_length. ulia. }
    assert (Forall (λ m, genuine (lk_next l + 1) (frame_of m)) (rs_pending s)) as Hpend.
    { rewrite Hps, insert_perm. constructor; [done|]. eapply Forall_impl; [exact Hp|]. intros m. apply Hmono. }
    assert (Forall (genuine (lk_next l + 1)) (lk_wire l)) as Hwire
      by (eapply Forall_impl; [exact Hw|]; apply Hmono).
    destruct queued.
    + destruct (note_sent_same (p_message_id p) now s Hs') as [Hsame Hnext].
      split; cbn [lk_next lk_sender lk_wire lk_window lk_log]; [lia|lia|by apply note_sent_inv| | |done|done].
      * by eapply same_genuine.
      * apply Forall_app. by split; [|constructor].
    + destruct (acknowledge_shape (p_message_id p) now s) as [Hsub Hnext].
      split; cbn [lk_next lk_sender lk_wire lk_window lk_log];
        [lia|lia|by apply acknowledge_inv| |done|done|done]. by eapply sublist_Forall.
Qed.

(** Changing the sender's queue only. *)
Lemma set_sender_inv s l :
  link_inv l → rs_inv s → rs_next_message_id s = rs_next_message_id (lk_sender l) →
  Forall (λ m, genuine (lk_next l) (frame_of m)) (rs_pending s) → link_inv (set_sender s l).
Proof. intros [] Hs Hn Hp. split; try done. cbn. lia. Qed.

Lemma acknowledge_pending id now s :
  rs_inv s → rs_pending (acknowledge id now s).2 = filter (λ m, p_message_id m ≠ id) (rs_pending s).
Proof.
  intros Hs. unfold acknowledge. destruct (extract id (rs_pending s)) as [[it rest]|] eqn:He.
  - apply extract_filter in He; [|apply (ri_shape _ Hs)]. cbv zeta. destruct (_ && _); [|exact He].
    destruct (update_rtt_ok (rs_cfg s) (now - p_first_send_ms it) (rs_rtt s)) as (t & -> & _); [apply Hs|exact He].
  - apply extract_none in He. cbn. by rewrite filter_other_ids.
Qed.

Lemma acked_inv a now l : link_inv l → link_inv (acked a now l).
Proof.
  intros Hl. unfold acked. destruct (read_from _ _ _) as [[ch id]|rc|]; [|done..].
  destruct (acknowledge_shape id now (lk_sender l)) as [Hsub Hn].
  apply set_sender_inv; [done|by apply acknowledge_inv, Hl|done|].
  eapply sublist_Forall; [exact Hsub|]. apply Hl.
Qed.

Lemma expire_inv now l : link_inv l → link_inv (set_sender (expire_old now (lk_sender l)).2 l).
Proof.
  intros Hl. pose proof (expire_old_spec now (lk_sender l) (li_sender _ Hl)) as He.
  assert (rs_next_message_id (expire_old now (lk_sender l)).2 = rs_next_message_id (lk_sender l)) as Hn
    by (unfold expire_old; by destruct (expire_loop _ _ _ _ _) as [[[]]]).
  destruct (expire_old now (lk_sender l)) as [r s]. destruct He as (Hp & _ & Hs).
  cbn [snd] in *. apply set_sender_inv; [done..|]. rewrite Hp.
  eapply sublist_Forall; [apply sublist_filter|apply Hl].
Qed.

(** Resending with a callback over any state [x], of which [wire] reads the frames. *)
Lemma resend_with_inv {X} (fn : PendingReliableMessage → X → Result * X) (wire : X → list (U8 * list U8)) now l x :
  link_inv l → wire x = lk_wire l →
  (∀ m x, wire (fn m x).2 = wire x ∨ wire (fn m x).2 = wire x ++ [frame_of m]) →
  let '(_, s, x') := resend_due now fn (lk_sender l) x in
  link_inv (mkLink (lk_next l) s (wire x') (lk_acks l) (lk_receiver l) (lk_window l) (lk_log l)).
Proof.
  intros Hl Hx Hfn. pose proof Hl as [Hn Hids Hs Hp Hw Ho Hb]. unfold resend_due.
  pose proof (resend_due_inv now fn (lk_sender l) x Hs) as Hs'. unfold resend_due in Hs'.
  pose proof (resend_loop_same (rs_cfg (lk_sender l)) now fn (rs_pending (lk_sender l))
    (rs_inflight_count (lk_sender l)) (rs_loss (lk_sender l)) x) as Hsame.
  pose proof (resend_loop_state (rs_cfg (lk_sender l)) now fn (λ x, Forall (genuine (lk_next l)) (wire x))
    (rs_pending (lk_sender l)) (rs_inflight_count (lk_sender l)) (rs_loss (lk_sender l)) x) as Hwire.
  destruct (resend_loop _ _ _ _ _ _ _) as [[[[q n] loss] x'] rc]. cbn [fst snd] in *.
  split; cbn [lk_next lk_sender lk_wire lk_window lk_log rs_pending rs_next_message_id]; try done.
  - by eapply same_genuine.
  - apply Hwire; [|by rewrite Hx]. intros m m' y Hm (_ & Ht & He & _) Hy.
    destruct (Hfn m' y) as [->| ->]; [done|].
    apply Forall_app. split; [done|]. constructor; [|done]. rewrite Forall_forall in Hp.
    unfold frame_of. rewrite <- Ht, <- He. by apply Hp.
Qed.

Lemma resend_inv now l : link_inv l → link_inv (resend now l).
Proof.
  intros Hl. unfold resend. pose proof (resend_with_inv (record_send frame_of) id now l (lk_wire l) Hl eq_refl) as H.
  destruct (resend_due now _ _ _) as [[rc s] wire]. apply H. by right.
Qed.

Lemma resend_some_inv room now l : link_inv l → link_inv (resend_some room now l).
Proof.
  intros Hl. unfold resend_some. pose proof (resend_with_inv send_some fst now l (lk_wire l, room) Hl eq_refl) as H.
  destruct (resend_due now _ _ _) as [[rc s] [wire k]]. apply H.
  intros m [w [|k']]; [by left|by right].
Qed.

(** A genuine frame is acknowledged; a fresh one arrives at the ordered window. *)
Lemma deliver_genuine id k l :
  is_u64 id → id ≠ 0 → 1 <= k <= U64_MAX →
  deliver ((sent k).1, enc_payload id (enc_payload k (sent k).2)) l =
    let '(fresh, r) := accept_incoming id (lk_receiver l) in
    let a := if fresh then arrive sent accept_any k (lk_window l, (tt, lk_log l))
             else (lk_window l, (tt, lk_log l)) in
    mkLink (lk_next l) (lk_sender l) (lk_wire l) (lk_acks l ++ [enc_ack (Channel.ReliableOrdered, id)]) r
      a.1 a.2.2.
Proof.
  intros Hid H0 Hk. pose proof (sent_length k). unfold deliver, read_reliable_payload, read_ordered_payload.
  cbn [fst snd]. rewrite read_from_envelope by (done || rewrite enc_payload_length; ulia).
  cbn [payload_view pl_id pl_data pl_len]. rewrite write_ack_done by done.
  destruct (accept_incoming id (lk_receiver l)) as [[|] r]; cbn [negb]; [|done].
  rewrite read_from_envelope by ulia. done.
Qed.

Lemma deliver_inv f l : link_inv l → genuine (lk_next l) f → link_inv (deliver f l).
Proof.
  intros Hl (id & k & Hid & H0 & Hk & ->). pose proof Hl as [Hn Hids Hs Hp Hw Ho Hb].
  rewrite deliver_genuine by (done || lia).
  destruct (accept_incoming id (lk_receiver l)) as [[|] r]; [|by split]. cbv zeta.
  pose proof (arrive_inv sent) as Hai.
  specialize (Hai ltac:(intros j; pose proof (sent_length j); ulia) _ accept_any k
    (lk_window l, (tt, lk_log l)) ltac:(lia) Ho).
  assert (progress (lk_next l - 1) [] (arrive sent accept_any k (lk_window l, (tt, lk_log l))).1) as Hb'.
  { destruct (arrive_step sent accept_any ltac:(done) (lk_next l - 1) [] k (lk_window l, (tt, lk_log l)))
      as (_ & [[Hpr _]|[Hpr _]]); [lia|lia|done|by eapply progress_forget|done]. }
  destruct (arrive sent accept_any k _) as [w' [[] log']]. by split.
Qed.

Definition op_ok (op : link_op) : Prop :=
  match op with Submit _ life _ | SubmitUnsent _ life _ => is_u64 life | _ => True end.

Lemma Forall_delete_list {A} (P : A → Prop) i (l : list A) : Forall P l → Forall P (delete i l).
Proof. apply sublist_Forall, sublist_delete. Qed.

Lemma run_link_inv op l :
  link_inv l → op_ok op → lk_next l < U64_MAX → link_inv (run_link op l).
Proof.
  intros Hl Hop Hn. destruct op as [prio life now|prio life now|now|room now|now|i|i now|i|i]; cbn [run_link].
  - by apply submit_inv.
  - by apply submit_inv.
  - by apply resend_inv.
  - by apply resend_some_inv.
  - by apply expire_inv.
  - destruct (lk_wire l !! i) as [f|] eqn:Hf; [|done]. cbn. apply deliver_inv; [done|].
    eapply Forall_lookup_1; [apply Hl|done].
  - destruct (lk_acks l !! i) as [a|]; [|done]. cbn. by apply acked_inv.
  - destruct Hl. split; try done. by apply Forall_delete_list.
  - by destruct Hl; split.
Qed.

(** Only [submit] takes a number. *)
Lemma run_link_next op l :
  lk_next l < U64_MAX → 0 <= lk_next l →
  lk_next (run_link op l) = lk_next l + (if is_submit op then 1 else 0).
Proof.
  intros Hn H0.
  assert (∀ queued prio life now, lk_next (submit queued prio life now l) = lk_next l + 1) as Hsub.
  { intros queued prio life now. rewrite <- (w64_id (lk_next l + 1)) by ulia. unfold submit.
    destruct (sent (lk_next l)) as [t bs]. destruct (write_to _ _) as [e|rc|]; [|done..].
    destruct (enqueue _ _ _ _ _ _ _) as [[]]; [by destruct queued|done..]. }
  destruct op as [prio life now|prio life now|now|room now|now|i|i now|i|i]; cbn [run_link is_submit];
    try apply Hsub; try (cbn; lia).
  - unfold resend. destruct (resend_due _ _ _ _) as [[] ]. cbn. lia.
  - unfold resend_some. destruct (resend_due _ _ _ _) as [[] []]. cbn. lia.
  - destruct (lk_wire l !! i) as [f|]; cbn; [|lia]. unfold deliver.
    destruct (read_from _ _ read_reliable_payload); [|lia..].
    destruct (accept_incoming _ _) as [[|] r]; cbn [negb]; [|cbn; lia].
    destruct (read_from _ _ read_ordered_payload); cbn; lia.
  - destruct (lk_acks l !! i) as [a|]; cbn; [|lia]. unfold acked.
    destruct (read_from _ _ _) as [[]| |]; cbn; lia.
Qed.

Lemma submits_cons op ops : submits (op :: ops) = ((if is_submit op then 1 else 0) + submits ops)%nat.
Proof. unfold submits. rewrite filter_cons. by destruct (is_submit op). Qed.

Lemma run_ops_inv ops l :
  link_inv l → Forall op_ok ops → lk_next l + Z.of_nat (submits ops) < U64_MAX →
  link_inv (run_ops ops l) ∧ lk_next (run_ops ops l) = lk_next l + Z.of_nat (submits ops).
Proof.
  intros Hl Hops. revert l Hl. induction Hops as [|op ops Hop _ IH]; intros l Hl Hn.
  { split; [done|]. cbn. lia. }
  rewrite submits_cons in *. pose proof (li_next _ Hl).
  pose proof (run_link_next op l ltac:(lia) ltac:(lia)) as Hnext.
  destruct (IH (run_link op l)) as [Hi Hx]; [by apply run_link_inv; [..|lia]|destruct (is_submit op); lia|].
  split; [exact Hi|]. cbn [run_ops foldl]. fold (run_ops ops (run_link op l)). rewrite Hx, Hnext.
  destruct (is_submit op); lia.
Qed.
End link.


(** ** Liveness

    When messages do not expire and each is submitted fewer than [n] numbers after
    the oldest unacknowledged one, [n] within the configured limits and the 64-wide
    receive window, nothing that is acknowledged was lost, and one round of
    retransmission after the timers have run out delivers everything. *)
Lemma frames_due now (q : list PendingReliableMessage) :
  Forall (λ m, due now m = true) q → filter (λ m, due now m = true) q = q.
Proof. induction 1 as [|m q Hm _ IH]; [done|]. by rewrite filter_cons_True, IH. Qed.

Lemma filter_all_ids (q : list PendingReliableMessage) ks :
  (p_message_id <$> q) = ks → filter (λ m, p_message_id m ∉ ks) q = [].
Proof.
  intros <-. assert (∀ q', q' ⊆ q → filter (λ m, p_message_id m ∉ p_message_id <$> q) q' = []) as H;
    [|by apply H].
  induction q' as [|m q' IH]; intros Hsub; [done|]. rewrite filter_cons_False; [apply IH; set_solver|].
  intros Hn. apply Hn, list_elem_of_fmap. exists m. split; [done|]. apply Hsub. left.
Qed.

Section live.
Context (sent : U64 → U8 * list U8) (cfg : ReliabilityConfig) (n : Z).
Context (Hsent : ∀ k, is_u8 (sent k).1 ∧ bytes_ok (sent k).2 ∧
                      zlen (sent k).2 <= NetConfig.MaxOrderedMessageBytes).

(** The limits leave room for [n] messages. *)
Record holds_all : Prop := {
  ha_some : 1 <= n;
  ha_window : n <= 64;
  ha_buffer : n <= ordered_receive_window cfg;
  ha_flight : n <= max_inflight_messages cfg;
  ha_count : n <= max_pending_messages cfg;
  ha_bytes : n * 1252 <= max_pending_bytes cfg;
}.
Context (Hroom : holds_all).

Definition frame (k : U64) : U8 * list U8 := ((sent k).1, enc_payload k (enc_payload k (sent k).2)).

(** [h] are the numbers the receiver has accepted. *)
Record live (h : list U64) (l : Link) : Prop := {
  lv_inv : link_inv sent l;
  lv_span : Forall (λ m, lk_next l - p_message_id m <= n) (rs_pending (lk_sender l));
  lv_ids : rs_next_message_id (lk_sender l) = lk_next l;
  lv_cfg : rs_cfg (lk_sender l) = cfg;
  lv_pending : Forall (λ m, p_lifetime_ms m = 0 ∧ frame_of m = frame (p_message_id m)) (rs_pending (lk_sender l));
  lv_wire : Forall (λ f, ∃ k, 1 <= k < lk_next l ∧ f = frame k) (lk_wire l);
  lv_history : window_rel (rs_received (lk_receiver l)) h;
  lv_accepted : Forall (λ k, 1 <= k < lk_next l) h;
  lv_progress : progress (lk_next l - 1) h (lk_window l);
  lv_buffer : ow_max_buffered (lk_window l) = ordered_receive_window cfg;
  lv_acks : Forall (λ a, ∃ k, a = enc_ack (Channel.ReliableOrdered, k) ∧ k ∈ h) (lk_acks l);
  lv_complete : ∀ k, 1 <= k < lk_next l → k ∈ h ∨ k ∈ p_message_id <$> rs_pending (lk_sender l);
}.

Lemma enqueue_keeps_cfg t p len prio life now s m s' :
  enqueue t p len prio life now s = (Done m, s') → rs_cfg s' = rs_cfg s.
Proof.
  unfold enqueue. case_match; [done|]. cbv zeta. case_match; [done|].
  destruct (write_reliable_payload _ _ _ _) as [[[]|rc|] w]; [|done..]. by intros [= _ <-].
Qed.

Lemma accept_incoming_new h k r :
  window_rel (rs_received r) h → is_u64 k → k ≠ 0 → (k ∉ h → greatest h < k + 64) →
  ∃ r', accept_incoming k r = (bool_decide (k ∉ h), r') ∧
    window_rel (rs_received r') (if bool_decide (k ∈ h) then h else k :: h).
Proof.
  intros Hw Hk H0 Hg. destruct (reliable_accept_refines _ _ k Hw Hk) as [H1 H2].
  unfold accept_incoming. destruct (ReliableReceiveWindow.accept k (rs_received r)) as [b w].
  cbn [fst snd] in *. eexists.
  unfold spec_reliable_accept, spec_accept in *. rewrite (proj2 (Z.eqb_neq k 0) H0) in H1, H2.
  rewrite bool_decide_not in *. destruct (bool_decide_reflect (k ∈ h)) as [Hin|Hin]; cbn [negb] in *.
  - rewrite (bool_decide_eq_false_2 (h = [])) in H1, H2 by (intros ->; set_solver).
    rewrite andb_false_r in H1, H2. cbn [orb fst snd] in *. by subst b.
  - rewrite (proj2 (Z.ltb_lt _ _) (Hg Hin)) in H1, H2. cbn [andb] in *.
    rewrite orb_true_r in H1, H2. cbn [fst snd] in *. by subst b.
Qed.

Lemma progress_same n' h h' w : (∀ k, k ∈ h' → k ∈ h) → progress n' h w → progress n' h' w.
Proof. intros Hs [H1 H2 H3]. split; auto. Qed.

(** What the receiver has not accepted is at most [n] numbers back, so neither
    the filter nor the ordered window is too small for it. *)
Lemma unaccepted_near h k l : live h l → 1 <= k < lk_next l → k ∉ h → lk_next l - k <= n.
Proof.
  intros Hl Hk Hnot. destruct (lv_complete _ _ Hl k Hk) as [?|Hin]; [done|].
  apply list_elem_of_fmap in Hin as (m & -> & Hm). pose proof (lv_span _ _ Hl) as Hs.
  rewrite Forall_forall in Hs. by apply Hs.
Qed.

Lemma buffer_room h l :
  live h l → Z.of_nat (size (ow_buffer (lk_window l))) < ordered_receive_window cfg.
Proof.
  intros Hl. pose proof (progress_size _ _ _ (lv_progress _ _ Hl)).
  destruct (lv_progress _ _ Hl) as [Hnext Hkeys Hknown]. destruct Hroom.
  destruct (decide (ow_next_expected (lk_window l) < lk_next l)); [|lia].
  assert (lk_next l - ow_next_expected (lk_window l) <= n); [|lia].
  apply (unaccepted_near h); [done|lia|]. intros Hin. destruct (Hknown _ Hin) as [|Hs%Hkeys]; lia.
Qed.

(** A frame that arrives is then accepted, for the first time or again. *)
Lemma deliver_live h k l :
  live h l → 1 <= k < lk_next l →
  let l' := deliver (frame k) l in
  ∃ h', live h' l' ∧ k ∈ h' ∧ h ⊆ h' ∧ lk_next l' = lk_next l ∧ lk_sender l' = lk_sender l ∧
    lk_wire l' = lk_wire l ∧ lk_acks l' = lk_acks l ++ [enc_ack (Channel.ReliableOrdered, k)].
Proof.
  intros Hl Hk l'. pose proof Hl as [Hinv Hn Hids Hcf Hp Hw Hh Ha Hpr Hb Hac Hco].
  pose proof (li_next _ _ Hinv) as Hnx. destruct Hroom.
  assert (link_inv sent l') as Hinv'.
  { apply deliver_inv; [done..|]. exists k, k. split_and!; [ulia..|done]. }
  destruct (accept_incoming_new h k (lk_receiver l) Hh) as (r & Hacc & Hrel); [ulia|lia| |].
  { intros Hnot. pose proof (unaccepted_near h k l Hl Hk Hnot). apply greatest_lt; [lia|].
    rewrite Forall_forall in Ha. intros x Hx%Ha. lia. }
  subst l'. unfold frame in *. rewrite deliver_genuine in Hinv' |- * by (done || ulia).
  rewrite Hacc in *. cbv zeta in *. exists (if bool_decide (k ∈ h) then h else k :: h).
  assert (∀ x, x ∈ h ∨ x = k ↔ x ∈ (if bool_decide (k ∈ h) then h else k :: h)) as Hmem.
  { intros x. case_bool_decide; set_solver. }
  split_and!; [|set_solver|intros x; set_solver|done..].
  split; cbn [lk_next lk_sender lk_wire lk_acks lk_receiver lk_window]; try done.
  - case_bool_decide; [done|]. by constructor.
  - rewrite bool_decide_not. case_bool_decide; cbn [negb]; [done|].
    pose proof (buffer_room h l Hl).
    destruct (arrive_step sent accept_any ltac:(done) (lk_next l - 1) h k (lk_window l, (tt, lk_log l)))
      as (_ & [[Hpr' _]|(_ & _ & Hfull)]); [lia|lia|done|done|cbn [fst] in Hfull; lia].
  - destruct (bool_decide (k ∉ h)); [|done].
    destruct (arrive_step sent accept_any ltac:(done) (lk_next l - 1) h k (lk_window l, (tt, lk_log l)))
      as [Hm _]; [lia|lia|done|]. by rewrite Hm.
  - apply Forall_app. split; [|constructor; [exists k; set_solver|done]].
    eapply Forall_impl; [exact Hac|]. intros a (x & -> & Hx). exists x. set_solver.
  - intros x Hx. destruct (Hco x Hx); [left; set_solver|auto].
Qed.

Lemma pending_count h l c :
  live h l → 0 <= c → Forall (λ m, lk_next l - p_message_id m <= c) (rs_pending (lk_sender l)) →
  zlen (rs_pending (lk_sender l)) <= c.
Proof.
  intros Hl H0 Hspan. pose proof (ri_shape _ (li_sender _ _ (lv_inv _ _ Hl))) as [Hids Hnd _ _ _].
  rewrite (lv_ids _ _ Hl) in Hids. rewrite <- (length_fmap p_message_id).
  assert ((p_message_id <$> rs_pending (lk_sender l)) ⊆+ seqZ (lk_next l - c) c) as Hsub.
  { apply NoDup_submseteq; [done|]. intros x Hx. apply elem_of_seqZ.
    apply list_elem_of_fmap in Hx as (m & -> & Hm). rewrite Forall_forall in Hids, Hspan.
    specialize (Hids m Hm). specialize (Hspan m Hm). lia. }
  apply submseteq_length in Hsub. rewrite length_seqZ in Hsub. lia.
Qed.

Lemma pending_bytes h l :
  live h l → 0 <= rs_pending_bytes (lk_sender l) <= 1252 * zlen (rs_pending (lk_sender l)).
Proof.
  intros Hl. rewrite (ri_bytes _ (li_sender _ _ (lv_inv _ _ Hl))).
  assert (queue_bytes (rs_pending (lk_sender l)) <= 1252 * zlen (rs_pending (lk_sender l))).
  { induction (lv_pending _ _ Hl) as [|m q [_ Hm] _ IH]; cbn [queue_bytes foldr length]; [lia|].
    fold (queue_bytes q). injection Hm as _ ->. rewrite !enc_payload_length.
    pose proof (sent_length sent Hsent (p_message_id m)). lia. }
  pose proof (w32_range (queue_bytes (rs_pending (lk_sender l)))).
  pose proof (w32_le _ (queue_bytes_nonneg (rs_pending (lk_sender l)))). ulia.
Qed.

Lemma same_pending q q' :
  Forall2 same_message q q' →
  (Forall (λ m, p_lifetime_ms m = 0 ∧ frame_of m = frame (p_message_id m)) q →
   Forall (λ m, p_lifetime_ms m = 0 ∧ frame_of m = frame (p_message_id m)) q') ∧
  p_message_id <$> q' = p_message_id <$> q.
Proof.
  induction 1 as [|a b q q' (Hid & Ht & Hp & _ & Hl & _) _ [IH1 IH2]]; [done|]. split; [|csimpl; congruence].
  intros [[Ha1 Ha2] Ha]%Forall_cons. constructor; [|by apply IH1]. unfold frame_of in *.
  by rewrite <- Hl, <- Ht, <- Hp, <- Hid.
Qed.

Lemma span_ids c q q' :
  p_message_id <$> q' = p_message_id <$> q →
  Forall (λ m, c - p_message_id m <= n) q → Forall (λ m, c - p_message_id m <= n) q'.
Proof.
  intros Heq H. apply (Forall_fmap p_message_id (λ k, c - k <= n)). rewrite Heq. by apply Forall_fmap.
Qed.

Lemma submit_live h prio now l :
  live h l → lk_next l < U64_MAX →
  Forall (λ m, lk_next l - p_message_id m < n) (rs_pending (lk_sender l)) →
  live h (submit sent true prio 0 now l).
Proof.
  intros Hl Hmax Hlt. pose proof Hl as [Hinv Hn Hids Hcf Hp Hw Hh Ha Hpr Hb Hac Hco]. destruct Hroom.
  assert (zlen (rs_pending (lk_sender l)) <= n - 1).
  { apply (pending_count h); [done|lia|]. eapply Forall_impl; [exact Hlt|]. cbn. lia. }
  pose proof (pending_bytes h l Hl).
  pose proof (sent_length sent Hsent (lk_next l)). pose proof (li_next _ _ Hinv).
  assert (link_inv sent (submit sent true prio 0 now l)) as Hinv' by (apply submit_inv; [done|done|ulia|ulia]).
  destruct (submit_cases sent Hsent true prio 0 now l Hinv ltac:(ulia)) as [m Hfull _|p s He Hid Hlf Hfr Hns Hps].
  { rewrite Hcf in Hfull.
    pose proof (w32_le (rs_pending_bytes (lk_sender l) + 16 + zlen (sent (lk_next l)).2)). lia. }
  assert (rs_inv s) as Hs.
  { pose proof (enqueue_inv (sent (lk_next l)).1 (enc_payload (lk_next l) (sent (lk_next l)).2) prio 0 now
      (lk_sender l) (li_sender _ _ Hinv)) as Hi. rewrite He in Hi. apply Hi; [|done|ulia].
    rewrite enc_payload_length. ulia. }
  destruct (note_sent_same (p_message_id p) now s Hs) as [Hsame Hnext].
  destruct (same_pending _ _ Hsame) as [Hpend Hpids]. rewrite Hids in Hid, Hfr, Hns.
  split; cbn [lk_next lk_sender lk_wire lk_acks lk_receiver lk_window]; try done; try lia.
  - eapply span_ids; [exact Hpids|]. rewrite Hps, insert_perm.
    constructor; [rewrite Hid; lia|]. eapply Forall_impl; [exact Hlt|]. cbn. lia.
  - rewrite note_sent_cfg. pose proof (enqueue_keeps_cfg _ _ _ _ _ _ _ _ _ He). congruence.
  - apply Hpend. rewrite Hps, insert_perm. constructor; [|done]. rewrite Hid. done.
  - apply Forall_app. split; [|constructor; [|done]].
    + eapply Forall_impl; [exact Hw|]. intros f (k & Hk & ->). exists k. split; [lia|done].
    + exists (lk_next l). split; [lia|]. done.
  - eapply Forall_impl; [exact Ha|]. cbn. lia.
  - eapply progress_mono; [|exact Hpr]. lia.
  - intros k Hk. rewrite Hpids, Hps, insert_perm. csimpl. rewrite Hid.
    destruct (decide (k = lk_next l)) as [->|]; [right; left|].
    destruct (Hco k ltac:(lia)); [by left|right; by right].
Qed.

(** Resending with any callback that puts only the frames it is given on the wire. *)
Lemma resend_with_live {X} (fn : PendingReliableMessage → X → Result * X) (wire : X → list (U8 * list U8)) h now l x :
  live h l → wire x = lk_wire l →
  (∀ m x, wire (fn m x).2 = wire x ∨ wire (fn m x).2 = wire x ++ [frame_of m]) →
  let '(_, s, x') := resend_due now fn (lk_sender l) x in
  live h (mkLink (lk_next l) s (wire x') (lk_acks l) (lk_receiver l) (lk_window l) (lk_log l)).
Proof.
  intros Hl Hx Hfn. pose proof Hl as [Hinv Hn Hids Hcf Hp Hw Hh Ha Hpr Hb Hac Hco].
  pose proof (resend_with_inv sent fn wire now l x Hinv Hx Hfn) as Hinv'.
  pose proof (li_sender _ _ Hinv) as Hs. unfold resend_due in *.
  pose proof (resend_loop_same (rs_cfg (lk_sender l)) now fn (rs_pending (lk_sender l))
    (rs_inflight_count (lk_sender l)) (rs_loss (lk_sender l)) x) as Hsame.
  pose proof (resend_loop_state (rs_cfg (lk_sender l)) now fn
    (λ x, Forall (λ f, ∃ k, 1 <= k < lk_next l ∧ f = frame k) (wire x))
    (rs_pending (lk_sender l)) (rs_inflight_count (lk_sender l)) (rs_loss (lk_sender l)) x) as Hwire.
  destruct (resend_loop _ _ _ _ _ _ _) as [[[[q c] loss] x'] rc]. cbn [fst snd] in *.
  destruct (same_pending _ _ Hsame) as [Hpend Hpids].
  split; cbn [lk_next lk_sender lk_wire lk_acks lk_receiver lk_window rs_pending rs_cfg rs_next_message_id];
    try done; [by apply (span_ids _ (rs_pending (lk_sender l)))|by apply Hpend| |by rewrite Hpids].
  apply Hwire; [|by rewrite Hx]. intros m m' y Hm (Hid & Ht & He & _) Hy.
  destruct (Hfn m' y) as [->| ->]; [done|]. apply Forall_app. split; [done|]. constructor; [|done].
  rewrite Forall_forall in Hp. destruct (Hp m Hm) as [_ Hfr]. exists (p_message_id m). split.
  - pose proof (qs_ids _ _ (ri_shape _ Hs)) as Hq. rewrite Forall_forall in Hq. rewrite <- Hids. by apply Hq.
  - unfold frame_of in *. by rewrite <- Ht, <- He.
Qed.

Lemma resend_some_live h room now l : live h l → live h (resend_some room now l).
Proof.
  intros Hl. unfold resend_some.
  pose proof (resend_with_live send_some fst h now l (lk_wire l, room) Hl eq_refl) as H.
  destruct (resend_due now _ _ _) as [[rc s] [wire c]]. apply H. intros m [w [|c']]; [by left|by right].
Qed.

Lemma resent_same now m : same_message m (resent cfg now m).
Proof. unfold resent. destruct (due now m), (p_inflight m); by repeat split. Qed.

(** All that is due goes on the wire, in transmission order. *)
Lemma resend_exact h now l :
  live h l →
  let l' := resend now l in
  live h l' ∧ lk_next l' = lk_next l ∧ lk_acks l' = lk_acks l ∧
  lk_wire l' = lk_wire l ++ (frame_of <$> filter (λ m, due now m = true) (rs_pending (lk_sender l))) ∧
  p_message_id <$> rs_pending (lk_sender l') = p_message_id <$> rs_pending (lk_sender l).
Proof.
  intros Hl l'. pose proof (li_sender _ _ (lv_inv _ _ Hl)) as Hs. destruct Hroom.
  pose proof (pending_count h l n Hl ltac:(lia) (lv_span _ _ Hl)).
  pose proof (resend_with_live (record_send frame_of) id h now l (lk_wire l) Hl eq_refl ltac:(by right)) as Hl'.
  subst l'. unfold resend, resend_due in *. rewrite (lv_cfg _ _ Hl) in *.
  destruct (resend_loop_log frame_of cfg now (rs_pending (lk_sender l)) (rs_inflight_count (lk_sender l))
    (rs_loss (lk_sender l)) (lk_wire l) 0) as [loss Hloop]; [done| |done|apply (ri_inflight _ Hs)|lia|].
  { rewrite <- (lv_cfg _ _ Hl). apply (ri_typed _ Hs). }
  rewrite Hloop in *. split_and!; [exact Hl'|done..|].
  apply same_pending, Forall2_fmap_r, Forall_Forall2_diag, Forall_true. intros m. apply resent_same.
Qed.

(** An acknowledgement removes its message, which the receiver has. *)
Lemma acked_live h k now l :
  live h l → k ∈ h →
  let l' := acked (enc_ack (Channel.ReliableOrdered, k)) now l in
  live h l' ∧ lk_next l' = lk_next l ∧ lk_acks l' = lk_acks l ∧ lk_log l' = lk_log l ∧
  rs_pending (lk_sender l') = filter (λ m, p_message_id m ≠ k) (rs_pending (lk_sender l)).
Proof.
  intros Hl Hk l'. pose proof Hl as [Hinv Hn Hids Hcf Hp Hw Hh Ha Hpr Hb Hac Hco]. destruct Hroom.
  pose proof (acked_inv sent (enc_ack (Channel.ReliableOrdered, k)) now l Hinv) as Hinv'.
  assert (1 <= k < lk_next l) as Hkr by (rewrite Forall_forall in Ha; by apply Ha).
  subst l'. unfold acked in *.
  assert (read_from (data_of (enc_ack (Channel.ReliableOrdered, k))) (zlen (enc_ack (Channel.ReliableOrdered, k)))
    read_reliable_ack = Done (Channel.ReliableOrdered, k)) as Hr.
  { unfold read_from. change (data_of (enc_ack (Channel.ReliableOrdered, k)))
      with (Some (enc_ack (Channel.ReliableOrdered, k))).
    change (mkReader _ _ 0) with (reader_at [] (enc_ack (Channel.ReliableOrdered, k))).
    rewrite (frame_get (rd:=read_reliable_ack)); [done|]. pose proof (li_next _ _ Hinv). split_and!; cbn [snd]; [done|ulia|lia]. }
  rewrite Hr in *. pose proof (li_sender _ _ Hinv) as Hs.
  assert (rs_pending (acknowledge k now (lk_sender l)).2 =
    filter (λ m, p_message_id m ≠ k) (rs_pending (lk_sender l)) ∧
    rs_cfg (acknowledge k now (lk_sender l)).2 = rs_cfg (lk_sender l)) as [Hpend Hcfg].
  { split; [by apply acknowledge_pending|apply acknowledge_cfg, Hs]. }
  destruct (acknowledge_shape k now (lk_sender l)) as [_ Hnext].
  split_and!; [|done..|exact Hpend].
  split; cbn [set_sender lk_next lk_sender lk_wire lk_acks lk_receiver lk_window]; try done; try congruence.
  - rewrite Hpend. eapply sublist_Forall; [apply sublist_filter|done].
  - rewrite Hpend. eapply sublist_Forall; [apply sublist_filter|done].
  - intros x Hx. destruct (Hco x Hx) as [|Hin]; [by left|]. destruct (decide (x = k)) as [->|Hne]; [by left|].
    right. rewrite Hpend. apply list_elem_of_fmap in Hin as (m & -> & Hm). apply list_elem_of_fmap. exists m.
    split; [done|]. by apply list_elem_of_filter.
Qed.

Lemma expire_live h now l : live h l → live h (set_sender (expire_old now (lk_sender l)).2 l).
Proof.
  intros Hl. pose proof Hl as [Hinv Hn Hids Hcf Hp Hw Hh Ha Hpr Hb Hac Hco].
  pose proof (expire_inv sent now l Hinv) as Hinv'. pose proof (expire_old_cfg now (lk_sender l)) as Hcfg.
  pose proof (expire_old_spec now (lk_sender l) (li_sender _ _ Hinv)) as He.
  assert (rs_next_message_id (expire_old now (lk_sender l)).2 = rs_next_message_id (lk_sender l)) as Hnext
    by (unfold expire_old; by destruct (expire_loop _ _ _ _ _) as [[[]]]).
  destruct (expire_old now (lk_sender l)) as [r s]. destruct He as (Hps & _ & _). cbn [snd] in *.
  assert (rs_pending s = rs_pending (lk_sender l)) as Hsame.
  { rewrite Hps. clear -Hp. induction Hp as [|m q [Hm _] _ IH]; [done|].
    rewrite filter_cons_True; [by rewrite IH|]. unfold expired. by rewrite Hm. }
  split; cbn [set_sender lk_next lk_sender lk_wire lk_acks lk_receiver lk_window]; rewrite ?Hsame; try done; congruence.
Qed.

Definition lasting (op : link_op) : Prop :=
  match op with Submit _ life _ => life = 0 | SubmitUnsent _ _ _ => False | _ => True end.

(** Whenever a message is submitted, the oldest unacknowledged one is fewer than
    [n] numbers back. *)
Definition in_span (l : Link) : bool :=
  forallb (λ m, lk_next l - p_message_id m <? n) (rs_pending (lk_sender l)).
Fixpoint unhurried (ops : list link_op) (l : Link) : bool :=
  match ops with
  | [] => true
  | op :: ops => (negb (is_submit op) || in_span l) && unhurried ops (run_link sent op l)
  end.

Lemma run_link_live h op l :
  live h l → lasting op → lk_next l < U64_MAX → negb (is_submit op) || in_span l = true →
  ∃ h', live h' (run_link sent op l).
Proof.
  intros Hl Hop Hmax Hsp. pose proof Hl as [Hinv Hn Hids Hcf Hp Hw Hh Ha Hpr Hb Hac Hco].
  destruct op as [prio life now|prio life now|now|room now|now|i|i now|i|i];
    cbn [run_link is_submit lasting negb orb] in *.
  - subst life. exists h. apply submit_live; [done|done|]. apply Forall_forall. intros m Hm.
    unfold in_span in Hsp. rewrite forallb_forall in Hsp. apply Z.ltb_lt, Hsp. by apply list_elem_of_In.
  - done.
  - exists h. by apply resend_exact.
  - exists h. by apply resend_some_live.
  - exists h. by apply expire_live.
  - destruct (lk_wire l !! i) as [f|] eqn:Hf; [|by exists h]. cbn.
    destruct (Forall_lookup_1 _ _ _ _ Hw Hf) as (k & Hk & ->).
    destruct (deliver_live h k l Hl Hk) as (h' & Hl' & _). by exists h'.
  - destruct (lk_acks l !! i) as [a|] eqn:Hf; [|by exists h]. cbn.
    destruct (Forall_lookup_1 _ _ _ _ Hac Hf) as (k & -> & Hk). exists h. by apply acked_live.
  - exists h. split; try done; [|by apply Forall_delete_list].
    destruct Hinv. split; try done. by apply Forall_delete_list.
  - exists h. split; try done; [|by apply Forall_delete_list]. by destruct Hinv; split.
Qed.

Lemma run_ops_live ops h l :
  live h l → Forall lasting ops → unhurried ops l = true →
  lk_next l + Z.of_nat (submits ops) < U64_MAX →
  ∃ h', live h' (run_ops sent ops l).
Proof.
  intros Hl Hops. revert h l Hl. induction Hops as [|op ops Hop _ IH]; intros h l Hl Hun Hle; [by exists h|].
  rewrite submits_cons in Hle. pose proof (li_next _ _ (lv_inv _ _ Hl)).
  cbn [unhurried] in Hun. apply andb_prop in Hun as [Hsp Hun].
  destruct (run_link_live h op l Hl Hop) as [h1 Hl1]; [lia|done|].
  apply (IH h1); [done|done|]. rewrite run_link_next by lia. destruct (is_submit op); lia.
Qed.

Lemma new_link_live : usable_config cfg → live [] (new_link cfg).
Proof.
  intros Hc. split; cbn [new_link lk_next lk_sender lk_wire lk_acks lk_receiver lk_window]; try done.
  - by apply new_link_inv.
  - split; cbn; [lia|intros k; rewrite lookup_empty; by intros []|by intros k ?%elem_of_nil].
  - intros k Hk. lia.
Qed.

(** An empty queue at the sender means that everything has been delivered. *)
Lemma live_quiet h l :
  live h l → rs_pending (lk_sender l) = [] → lk_log l = first_messages sent (Z.to_nat (lk_next l - 1)).
Proof.
  intros Hl Hp. pose proof Hl as [Hinv Hn _ _ _ _ _ _ [Hnext Hkeys Hknown] _ _ Hco]. rewrite Hp in Hco.
  pose proof (oi_log _ _ (li_ordered _ _ Hinv)) as Hlog. cbn [fst snd] in Hlog. rewrite Hlog.
  assert (ow_next_expected (lk_window l) = lk_next l) as ->; [|done].
  destruct (decide (ow_next_expected (lk_window l) < lk_next l)) as [Hlt|]; [|lia]. exfalso.
  destruct (Hco (ow_next_expected (lk_window l))) as [Hin|Hin]; [lia| |by apply elem_of_nil in Hin].
  destruct (Hknown _ Hin) as [|Hs%Hkeys]; lia.
Qed.

(** ** Recovery *)

Lemma deliver_all ks : ∀ i h l,
  live h l → Forall (λ k, 1 <= k < lk_next l) ks →
  (∀ j k, ks !! j = Some k → lk_wire l !! (i + j)%nat = Some (frame k)) →
  let l' := run_ops sent (Deliver <$> seq i (length ks)) l in
  ∃ h', live h' l' ∧ (∀ k, k ∈ ks → k ∈ h') ∧ h ⊆ h' ∧ lk_next l' = lk_next l ∧ lk_sender l' = lk_sender l ∧
    lk_acks l' = lk_acks l ++ ((λ k, enc_ack (Channel.ReliableOrdered, k)) <$> ks).
Proof.
  induction ks as [|k ks IH]; intros i h l Hl Hks Hw l'.
  { exists h. split_and!; [done|by intros k ?%elem_of_nil|done..|]. by rewrite app_nil_r. }
  apply Forall_cons in Hks as [Hk Hks]. subst l'.
  pose proof (Hw 0%nat k eq_refl) as Hk0. rewrite Nat.add_0_r in Hk0.
  cbn [length seq fmap list_fmap run_ops foldl run_link]. rewrite Hk0. cbn [from_option].
  destruct (deliver_live h k l Hl Hk) as (h1 & Hl1 & Hin1 & Hsub1 & Hn1 & Hs1 & Hw1 & Ha1).
  destruct (IH (S i) h1 (deliver (frame k) l)) as (h2 & Hl2 & Hin2 & Hsub2 & Hn2 & Hs2 & Ha2); [done|by rewrite Hn1| |].
  { intros j x Hj. rewrite Hw1. rewrite Nat.add_succ_comm. by apply Hw. }
  exists h2. split; [exact Hl2|]. split; [|split; [|split; [|split]]].
  - intros x [->|Hx]%elem_of_cons; [by apply Hsub2|by apply Hin2].
  - exact (transitivity Hsub1 Hsub2).
  - exact (eq_trans Hn2 Hn1).
  - exact (eq_trans Hs2 Hs1).
  - refine (eq_trans Ha2 _). by rewrite Ha1, <- app_assoc.
Qed.

Lemma ack_all now ks : ∀ i h l,
  live h l → (∀ k, k ∈ ks → k ∈ h) →
  (∀ j k, ks !! j = Some k → lk_acks l !! (i + j)%nat = Some (enc_ack (Channel.ReliableOrdered, k))) →
  let l' := run_ops sent ((λ i, Ack i now) <$> seq i (length ks)) l in
  live h l' ∧ lk_next l' = lk_next l ∧
  rs_pending (lk_sender l') = filter (λ m, p_message_id m ∉ ks) (rs_pending (lk_sender l)).
Proof.
  induction ks as [|k ks IH]; intros i h l Hl Hks Ha l'.
  { split_and!; [done..|]. cbn. induction (rs_pending (lk_sender l)) as [|m q IHq]; [done|].
    rewrite filter_cons_True; [by rewrite <- IHq|]. by intros ?%elem_of_nil. }
  subst l'. pose proof (Ha 0%nat k eq_refl) as Hk0. rewrite Nat.add_0_r in Hk0.
  cbn [length seq fmap list_fmap run_ops foldl run_link]. rewrite Hk0. cbn [from_option].
  destruct (acked_live h k now l Hl) as (Hl1 & Hn1 & Ha1 & _ & Hp1); [apply Hks; left|].
  destruct (IH (S i) h (acked (enc_ack (Channel.ReliableOrdered, k)) now l)) as (Hl2 & Hn2 & Hp2); [done| | |].
  { intros x Hx. apply Hks. by right. }
  { intros j x Hj. rewrite Ha1. rewrite Nat.add_succ_comm. by apply Ha. }
  split; [exact Hl2|]. split; [exact (eq_trans Hn2 Hn1)|].
  refine (eq_trans Hp2 _). rewrite Hp1, list_filter_filter. apply list_filter_iff. intros m. clear.
  rewrite elem_of_cons. tauto.
Qed.

End live.

(** Retransmit at [now], let the retransmitted frames arrive, and let their
    acknowledgements arrive. *)
Definition recovery (now : U64) (l : Link) : list link_op :=
  let count := length (rs_pending (lk_sender l)) in
  Resend now
  :: (Deliver <$> seq (length (lk_wire l)) count)
  ++ ((λ i, Ack i now) <$> seq (length (lk_acks l)) count).

Lemma run_ops_app sent ops1 ops2 l : run_ops sent (ops1 ++ ops2) l = run_ops sent ops2 (run_ops sent ops1 l).
Proof. apply foldl_app. Qed.

Lemma recovery_live sent cfg n now h l :
  (∀ k, is_u8 (sent k).1 ∧ bytes_ok (sent k).2 ∧ zlen (sent k).2 <= NetConfig.MaxOrderedMessageBytes) →
  holds_all cfg n → live sent cfg n h l → Forall (λ m, due now m = true) (rs_pending (lk_sender l)) →
  let l' := run_ops sent (recovery now l) l in
  rs_pending (lk_sender l') = [] ∧ lk_next l' = lk_next l ∧ ∃ h', live sent cfg n h' l'.
Proof.
  intros Hsent Hroom Hl Hdue. cbv zeta.
  destruct (resend_exact sent cfg n Hroom h now l Hl) as (Hl1 & Hn1 & Ha1 & Hw1 & Hp1).
  rewrite (frames_due _ _ Hdue) in Hw1.
  set (l1 := resend now l) in *. set (ks := p_message_id <$> rs_pending (lk_sender l)) in *.
  assert (length (rs_pending (lk_sender l)) = length ks) as Hlen by (by unfold ks; rewrite length_fmap).
  pose proof (lv_pending _ _ _ _ _ Hl) as Hpend.
  assert (Forall (λ k, 1 <= k < lk_next l1) ks) as Hks.
  { rewrite Hn1, <- (lv_ids _ _ _ _ _ Hl). apply Forall_fmap.
    apply (qs_ids _ _ (ri_shape _ (li_sender _ _ (lv_inv _ _ _ _ _ Hl)))). }
  destruct (deliver_all sent cfg n Hsent Hroom ks (length (lk_wire l)) h l1 Hl1 Hks)
    as (h2 & Hl2 & Hin2 & _ & Hn2 & Hs2 & Ha2).
  { intros j k Hj. rewrite Hw1, lookup_app_r, Nat.add_comm, Nat.add_sub by lia. unfold ks in Hj.
    rewrite list_lookup_fmap in Hj. rewrite list_lookup_fmap. apply fmap_Some in Hj as (m & Hm & ->). rewrite Hm. cbn. f_equal.
    by apply (Forall_lookup_1 _ _ _ _ Hpend Hm). }
  set (l2 := run_ops sent (Deliver <$> seq (length (lk_wire l)) (length ks)) l1) in *.
  destruct (ack_all sent cfg n Hroom now ks (length (lk_acks l)) h2 l2 Hl2 Hin2) as (Hl3 & Hn3 & Hp3).
  { intros j k Hj. rewrite Ha2, Ha1, lookup_app_r, Nat.add_comm, Nat.add_sub by lia.
    by rewrite list_lookup_fmap, Hj. }
  assert (run_ops sent (recovery now l) l =
    run_ops sent ((λ i, Ack i now) <$> seq (length (lk_acks l)) (length ks)) l2) as ->.
  { unfold recovery. rewrite Hlen. cbn [run_ops foldl run_link]. fold l1. apply foldl_app. }
  split; [|split; [by rewrite Hn3, Hn2, Hn1|by exists h2]].
  rewrite Hp3, Hs2. by apply filter_all_ids.
Qed.


(** ** Witnesses *)

(** Three messages; the first two frames are lost, the third arrives twice, and
    its acknowledgement is lost. *)
Definition lossy_run : list link_op :=
  [Submit SendPriority.Normal 0 10; Submit SendPriority.High 0 11; Submit SendPriority.Low 0 12;
   LoseFrame 0; LoseFrame 0; Deliver 0; Deliver 0; LoseAck 0; LoseAck 0].

Lemma sample_sent_ok k :
  is_u8 (sample_sent k).1 ∧ bytes_ok (sample_sent k).2 ∧
  zlen (sample_sent k).2 <= NetConfig.MaxOrderedMessageBytes.
Proof. split_and!; [by split|repeat constructor; apply w8_range || lia|vm_compute; discriminate]. Qed.


(** Seventy messages, each acknowledged before the next, then the lossy run: more
    than the window and the queue would hold at once. *)
Definition steady_run : list link_op :=
  concat (replicate 70 [Submit SendPriority.Normal 0 10; Deliver 0; Ack 0 11; LoseFrame 0; LoseAck 0]).

