(* ===== verification/Address.v ===== *)
(** * Host names

    [src/securecnet/lib/address.cpp] and [lib/socket_init.cpp]: the resolution of
    a host and a service to endpoints, and the calls of the client and the server
    that take names or port numbers: [Client::connect(host, port)] and
    [Server::listen(port)].  [getaddrinfo] is the operating system's and a
    parameter. *)
From stdpp Require Import pretty.
From Stdlib Require Import Ascii.
From S2P Require Import Prelude Result Hoare ByteBuf Config Crypto Endpoint Socket Client.
From S2P Require Import ClientRecv ClientInv ClientProps Server ServerRecv ServerProps.
#[local] Open Scope Z_scope.

(** ** The socket runtime *)

(** [class SocketInit]; [startup] is what [WSAStartup] returns in a Windows
    build and [None] in any other. *)
Record SocketInit := mkSocketInit { si_status : Result; si_started : bool }.

Definition new_SocketInit (startup : option Z) : SocketInit :=
  match startup with
  | Some rc =>
      if negb (rc =? 0)
      then mkSocketInit (fail_result Errc.SocketError "WSAStartup failed") false
      else mkSocketInit success true
  | None => mkSocketInit success false
  end.

(** The destructor: whether [WSACleanup] is called. *)
Definition destroy_SocketInit (s : SocketInit) : bool := si_started s.

(** ** Resolution *)

Definition AF_UNSPEC : Z := 0.
Definition SOCK_DGRAM : Z := 2.
Definition IPPROTO_UDP : Z := 17.
Definition AI_PASSIVE : Z := 1.
Definition AI_NUMERICSERV : Z := 1024.

(** The fields of [struct addrinfo] that a caller fills in. *)
Record hints := mkHints {
  ai_family : Z;
  ai_socktype : Z;
  ai_protocol : Z;
  ai_flags : Z;
}.

(** [getaddrinfo] with its node (null or a C string), service and hints: the
    return code and the addresses of the result list; [gai_strerror]. *)
Class Resolver := {
  getaddrinfo : option (list U8) → list U8 → hints → Z * list Endpoint;
  gai_strerror : Z → string;
}.

(** [ai_addrlen] of an address, and [sizeof(sockaddr_storage)]. *)
Definition ai_addrlen (e : Endpoint) : ST :=
  match e with
  | EpNone => 0
  | EpV4 _ _ => 16
  | EpV6 _ _ _ _ => 28
  | EpOther _ raw => 2 + zlen raw
  end.
Definition sockaddr_storage_bytes : ST := 128.

(** What [getaddrinfo] documents of its results: every address is a valid socket
    address, and [sockaddr_storage] holds all of these. *)
Class ResolverLaws `{Resolver} :=
  addresses_fit node service h :
    Forall (λ e, ai_addrlen e <= sockaddr_storage_bytes) (getaddrinfo node service h).2.

(** The lambda [is_digits]. *)
Definition is_digit (c : U8) : bool := (48 <=? c) && (c <=? 57).
Definition is_digits (s : list U8) : bool :=
  if decide (s = []) then false else forallb is_digit s.

(** [std::string::c_str] as a C function reads it: up to the first NUL. *)
Fixpoint c_str (s : list U8) : list U8 :=
  match s with
  | [] => []
  | c :: rest => if c =? 0 then [] else c :: c_str rest
  end.

(** The loop over the result list: [memcpy] of the address into the endpoint. *)
Fixpoint copy_addresses (res : list Endpoint) : outcome (list Endpoint) :=
  match res with
  | [] => Done []
  | p :: next =>
      if sockaddr_storage_bytes <? ai_addrlen p then UB
      else match copy_addresses next with
           | Done out => Done (p :: out)
           | Err rc => Err rc
           | UB => UB
           end
  end.

Definition resolve_hints (port : list U8) (passive : bool) : hints :=
  let flags := if passive then AI_PASSIVE else 0 in
  let flags := if is_digits port then Z.lor flags AI_NUMERICSERV else flags in
  mkHints AF_UNSPEC SOCK_DGRAM IPPROTO_UDP flags.

Section names.
Context {HR : Resolver} {HN : Ntop} {HS : Sodium} {HT : Traversal}.
Context (startup : option Z).

(** [resolve_endpoints]: the vector [out], which an error leaves empty. *)
Definition resolve_endpoints (host port : list U8) (passive : bool) : outcome (list Endpoint) :=
  let socket_status := si_status (new_SocketInit startup) in
  if negb (ok socket_status) then Err socket_status
  else
    let node := if decide (host = []) then None else Some (c_str host) in
    let '(rc, res) := getaddrinfo node (c_str port) (resolve_hints port passive) in
    if negb (rc =? 0) then Err (fail_result Errc.ResolveError (gai_strerror rc))
    else if decide (res = []) then Err (fail_result Errc.ResolveError "getaddrinfo returned null")
    else copy_addresses res.

(** The endpoint that a name stands for. *)
Definition resolve_one (host port : list U8) (passive : bool) : outcome Endpoint :=
  match resolve_endpoints host port passive with
  | Done eps =>
      match prefer_ipv4 eps with
      | None => Err (fail_result Errc.ResolveError "no endpoints returned")
      | Some ep => Done ep
      end
  | Err rc => Err rc
  | UB => UB
  end.

(** [Client::connect(host, port)], by name and by number. *)
Definition connect_name (runtime : Result) (host port : list U8) : io World unit :=
  server ← lift (resolve_one host port false);
  connect runtime server.
Definition connect_port (runtime : Result) (host : list U8) (port : U16) : io World unit :=
  connect_name runtime host (decimal port).

(** [Server::listen(port)], by name and by number. *)
Definition listen_name (runtime : Result) (port : list U8) : io ServerWorld unit :=
  bind_ep ← lift (resolve_one [] port true);
  listen runtime bind_ep.
Definition listen_port (runtime : Result) (port : U16) : io ServerWorld unit :=
  listen_name runtime (decimal port).
End names.

(** ** The text of a port number *)

Definition digits_value (ds : list U8) : Z := foldl (λ v c, 10 * v + (c - 48)) 0 ds.

(** The text of a decimal number and nothing else. *)
Definition denotes (ds : list U8) (n : Z) : Prop :=
  ds ≠ [] ∧ Forall (λ c, 48 <= c <= 57) ds ∧ digits_value ds = n.

Lemma digit_text r s : (r < 10)%N → text (String (pretty_N_char r) s) = (48 + Z.of_N r) :: text s.
Proof.
  intros Hr. assert (r = 0 ∨ r = 1 ∨ r = 2 ∨ r = 3 ∨ r = 4 ∨ r = 5 ∨ r = 6 ∨ r = 7 ∨ r = 8 ∨ r = 9)%N
    as H by lia. by destruct_or! H; subst r.
Qed.

Lemma denotes_snoc ds q r : denotes ds q → 0 <= r < 10 → denotes (ds ++ [48 + r]) (10 * q + r).
Proof.
  intros (Hne & Hd & Hv) Hr. split_and!.
  - by destruct ds.
  - apply Forall_app_2; [done|]. constructor; [lia|constructor].
  - unfold digits_value in *. rewrite foldl_app, Hv. cbn. lia.
Qed.

Lemma pretty_denotes x s :
  (0 < x)%N → ∃ ds, text (pretty_N_go x s) = ds ++ text s ∧ denotes ds (Z.of_N x).
Proof.
  revert s. induction x as [x IH] using (well_founded_induction N.lt_wf_0). intros s Hx.
  rewrite pretty_N_go_step by done.
  pose proof (N.mod_lt x 10 ltac:(done)) as Hr. pose proof (N.div_mod x 10 ltac:(done)) as Hqr.
  pose proof (N.div_lt x 10 Hx ltac:(done)) as Hlt.
  set (q := (x / 10)%N) in *. set (r := (x mod 10)%N) in *. clearbody q r.
  destruct (decide (q = 0)%N) as [Hq|Hq].
  - exists [48 + Z.of_N r]. rewrite Hq, pretty_N_go_0, digit_text by done. split; [done|].
    split_and!; [done|constructor; [lia|constructor]|]. cbn. lia.
  - destruct (IH q Hlt (String (pretty_N_char r) s) ltac:(lia)) as (ds & Ht & Hd).
    exists (ds ++ [48 + Z.of_N r]). rewrite Ht, digit_text by done. split; [by rewrite <-app_assoc|].
    replace (Z.of_N x) with (10 * Z.of_N q + Z.of_N r) by lia.
    apply denotes_snoc; [done|lia].
Qed.

Lemma decimal_denotes p : 0 <= p → denotes (decimal p) p.
Proof.
  intros Hp. unfold decimal, pretty, pretty_Z. destruct p as [|p|p]; [|clear Hp|lia].
  - split_and!; [done| |done]. constructor; [by vm_compute|constructor].
  - destruct (pretty_denotes (N.pos p) "" ltac:(lia)) as (ds & Ht & Hd).
    change (denotes (text (pretty_N_go (N.pos p) "")) (Z.of_N (N.pos p))). by rewrite Ht, app_nil_r.
Qed.

Lemma denotes_digits ds n : denotes ds n → is_digits ds = true ∧ c_str ds = ds.
Proof.
  intros (Hne & Hd & _). unfold is_digits. rewrite decide_False by done.
  clear Hne. induction Hd as [|c ds Hc _ [IH1 IH2]]; [done|]. cbn [forallb c_str]. split.
  - rewrite IH1. unfold is_digit. by rewrite !(proj2 (Z.leb_le _ _)) by lia.
  - rewrite (proj2 (Z.eqb_neq _ _)) by lia. by rewrite IH2.
Qed.

(** ** Properties *)

Section properties.
Context {HR : Resolver} {HRL : ResolverLaws} {HN : Ntop} {HS : Sodium} {HT : Traversal}.

Lemma copy_addresses_done res :
  Forall (λ e, ai_addrlen e <= sockaddr_storage_bytes) res → copy_addresses res = Done res.
Proof.
  induction 1 as [|e res He _ IH]; [done|]. cbn [copy_addresses].
  rewrite (proj2 (Z.ltb_ge _ _)) by done. by rewrite IH.
Qed.

(** What a result list stands for: its first IPv4 address or else its first. *)
Definition preferred (eps : list Endpoint) (e : Endpoint) : Prop :=
  ∃ before after, eps = before ++ e :: after ∧
    (if decide (sa_family e = AF_INET) then Forall (λ e', sa_family e' ≠ AF_INET) before
     else before = [] ∧ Forall (λ e', sa_family e' ≠ AF_INET) after).

Lemma first_ipv4_spec eps :
  match first_ipv4 eps with
  | Some e => sa_family e = AF_INET ∧
      ∃ before after, eps = before ++ e :: after ∧ Forall (λ e', sa_family e' ≠ AF_INET) before
  | None => Forall (λ e', sa_family e' ≠ AF_INET) eps
  end.
Proof.
  induction eps as [|e eps IH]; cbn [first_ipv4]; [constructor|]. zcases.
  - split; [done|]. exists [], eps. by split.
  - destruct (first_ipv4 eps) as [e'|]; [|by constructor]. destruct IH as (Hf & b & a & -> & Hb).
    split; [done|]. exists (e :: b), a. split; [done|by constructor].
Qed.

Lemma prefer_ipv4_spec eps :
  match prefer_ipv4 eps with Some e => preferred eps e | None => eps = [] end.
Proof.
  unfold prefer_ipv4, preferred. pose proof (first_ipv4_spec eps) as H.
  destruct (first_ipv4 eps) as [e|].
  - destruct H as (Hf & b & a & -> & Hb). exists b, a. by rewrite decide_True by done.
  - destruct eps as [|e eps]; [done|]. inversion_clear H as [|? ? He Ha]. exists [], eps.
    by rewrite decide_False by done.
Qed.

(** The question that [resolve_endpoints] puts to the resolver. *)
Definition question (host port : list U8) (passive : bool) : Z * list Endpoint :=
  getaddrinfo (if decide (host = []) then None else Some (c_str host)) (c_str port)
    (resolve_hints port passive).

Lemma resolve_one_spec startup host port passive :
  si_status (new_SocketInit startup) = success →
  let '(rc, res) := question host port passive in
  if decide (rc = 0 ∧ res ≠ []) then ∃ e, resolve_one startup host port passive = Done e ∧ preferred res e
  else ∃ m, resolve_one startup host port passive = Err (fail_result Errc.ResolveError m).
Proof.
  intros Hs. unfold question, resolve_one, resolve_endpoints. rewrite Hs. change (ok success) with true. cbn [negb].
  match goal with |- context [getaddrinfo ?a ?b ?c] => pose proof (addresses_fit a b c) as Hfit;
    destruct (getaddrinfo a b c) as [rc res] end. cbn [snd] in Hfit.
  destruct (decide (rc = 0 ∧ res ≠ [])) as [[-> Hne]|Hn].
  - rewrite Z.eqb_refl, decide_False by done. cbn [negb]. rewrite copy_addresses_done by done.
    pose proof (prefer_ipv4_spec res) as Hp. destruct (prefer_ipv4 res) as [e|]; [|done]. by exists e.
  - destruct (Z.eqb_spec rc 0) as [->|]; cbn [negb]; [|by eexists].
    destruct (decide (res = [])) as [->|]; [by eexists|tauto].
Qed.

Lemma connect_name_run startup runtime host port w :
  connect_name startup runtime host port w =
  match resolve_one startup host port false with
  | Done e => connect runtime e w
  | Err rc => (Err rc, w)
  | UB => (UB, w)
  end.
Proof. unfold connect_name, mbind, io_bind, lift. by destruct (resolve_one _ _ _ _). Qed.

Lemma listen_name_run startup runtime port w :
  listen_name startup runtime port w =
  match resolve_one startup [] port true with
  | Done e => listen runtime e w
  | Err rc => (Err rc, w)
  | UB => (UB, w)
  end.
Proof. unfold listen_name, mbind, io_bind, lift. by destruct (resolve_one _ _ _ _). Qed.

(** C30: connecting and listening by name.  The resolver is asked for UDP addresses
    of any family; for a numeric port its service is the decimal text of that
    port, marked as numeric.  When the resolver fails or finds nothing the call
    ends in [ResolveError] and leaves the client (the server) as it was, whatever
    it was doing; otherwise the call is [connect] ([listen]) with the first IPv4
    address of the answer, or with the first address when there is none. *)
Theorem names_resolve startup runtime host port w w' :
  si_status (new_SocketInit startup) = success → is_u16 port →
  let service := decimal port in
  let ask := λ h flags,
    getaddrinfo (if decide (h = []) then None else Some (c_str h)) service
      (mkHints AF_UNSPEC SOCK_DGRAM IPPROTO_UDP flags) in
  denotes service port ∧
  (let '(rc, res) := ask host AI_NUMERICSERV in
   if decide (rc = 0 ∧ res ≠ [])
   then ∃ e, preferred res e ∧ connect_port startup runtime host port w = connect runtime e w
   else ∃ m, connect_port startup runtime host port w = (Err (fail_result Errc.ResolveError m), w)) ∧
  (let '(rc, res) := ask [] (Z.lor AI_PASSIVE AI_NUMERICSERV) in
   if decide (rc = 0 ∧ res ≠ [])
   then ∃ e, preferred res e ∧ listen_port startup runtime port w' = listen runtime e w'
   else ∃ m, listen_port startup runtime port w' = (Err (fail_result Errc.ResolveError m), w')).
Proof.
  intros Hs Hp service ask. pose proof (decimal_denotes port ltac:(unfold is_u16 in Hp; lia)) as Hd.
  fold service in Hd. destruct (denotes_digits _ _ Hd) as [Hdig Hstr].
  assert (∀ h (passive : bool), question h service passive =
    ask h (if passive then Z.lor AI_PASSIVE AI_NUMERICSERV else AI_NUMERICSERV)) as Hask.
  { intros h passive. unfold question, ask, resolve_hints. rewrite Hdig, Hstr. by destruct passive. }
  unfold connect_port, listen_port. rewrite connect_name_run, listen_name_run. fold service.
  pose proof (resolve_one_spec startup host service false Hs) as H1.
  pose proof (resolve_one_spec startup [] service true Hs) as H2. rewrite Hask in H1, H2.
  split; [done|]. split.
  - destruct (ask host _) as [rc res]. destruct (decide _); [destruct H1 as (e & -> & ?); by exists e|].
    destruct H1 as [m ->]. by exists m.
  - destruct (ask [] _) as [rc res]. destruct (decide _); [destruct H2 as (e & -> & ?); by exists e|].
    destruct H2 as [m ->]. by exists m.
Qed.
End properties.

(** ** Witness *)

(** A resolver that knows [localhost], with an IPv6 and an IPv4 address, and the
    wildcard address of a service. *)
Module Names.
Definition port_of (service : list U8) : U16 := digits_value service mod 65536.
Definition hosts : Resolver := {|
  getaddrinfo node service h :=
    match node with
    | None => (0, [EpV6 (port_of service) 0 0 in6addr_any; EpV4 (port_of service) INADDR_ANY])
    | Some name =>
        if decide (name = text "localhost")
        then (0, [EpV6 (port_of service) 0 0 in6addr_loopback; EpV4 (port_of service) INADDR_LOOPBACK])
        else (-2, [])
    end;
  gai_strerror _ := "Name or service not known";
|}.
Lemma hosts_laws : @ResolverLaws hosts.
Proof.
  intros [name|] service h; cbn [getaddrinfo hosts]; [case_decide|]; cbn [snd];
    repeat (apply Forall_cons_2 || apply Forall_nil_2); cbn; unfold sockaddr_storage_bytes; lia.
Qed.
End Names.

Import Pair.
#[local] Existing Instances Names.hosts Names.hosts_laws.

Lemma names_resolve_witness :
  (∃ e, preferred [EpV6 4000 0 0 in6addr_loopback; EpV4 4000 INADDR_LOOPBACK] e ∧
     connect_port None success (text "localhost") 4000 Example.idle = connect success e Example.idle) ∧
  (∃ m, connect_port None success (text "nowhere") 4000 Example.established =
     (Err (fail_result Errc.ResolveError m), Example.established)).
Proof.
  assert (is_u16 4000) as Hp by (unfold is_u16; lia). split.
  - exact (proj1 (proj2 (names_resolve None success (text "localhost") 4000 Example.idle server0 eq_refl Hp))).
  - exact (proj1 (proj2 (names_resolve None success (text "nowhere") 4000 Example.established server0 eq_refl Hp))).
Defined.
