(* ===== verification/ClientApi.v ===== *)
(** * The public interface of the client

    The overloads and conveniences of [class Client] in
    [src/securecnet/lib/client.cpp] and [include/securecnet/client.hpp] on top of
    the operations of [Client.v] and [ClientRecv.v]: the constructors and the
    destructor, names and ports, the sending shorthands, the registration of
    callbacks.  Every public call that can change the client is a constructor of
    [client_call]. *)
From S2P Require Import Prelude Result Hoare ByteBuf Config Message Packet Protocol Crypto Stats.
From S2P Require Import Endpoint Socket Client ClientRecv ClientInv ClientProps Server ServerProps IoContext Address.
#[local] Open Scope Z_scope.

(** ** Construction and destruction *)

Section lifetime.
Context {HS : Sodium}.

(** [Client(config, ctx)], with the client's name as a service of the context;
    [Client(ctx)] has the default configuration. *)
Definition new_client_in (config : ClientConfig) (self : service) (now : U64) (ctx : IoContext)
    : outcome (Client * IoContext) :=
  let? c := new_client config now in Done (c, register_service self ctx).

(** [~Client] *)
Definition destroy_client (self : service) (ctx : option IoContext) (w : World)
    : (outcome unit * World) * option IoContext :=
  (stop w, unregister_service self <$> ctx).
End lifetime.

(** ** Sending *)

(** [bytes_of(value)]: a trivially copyable value is its bytes. *)
Definition bytes_of (value : list U8) : list U8 := value.

Section sending.
Context {HS : Sodium}.

(** [send_payload(std::span)] *)
Definition send_payload_span (payload : list U8) : io World unit :=
  send_payload (data_of payload) (zlen payload).

Definition send_on (channel : Channel) (type : U8) (payload : list U8) : io World unit :=
  send (mkSendOptions channel SendPriority.Normal 0) type payload.

(** [send_text(type, text)] *)
Definition send_text_default (type : U8) (text : list U8) : io World unit :=
  send_text type text (mkSendOptions Channel.Unreliable SendPriority.Normal 0).

Definition send_unreliable (type : U8) (payload : list U8) (priority : SendPriority) : io World unit :=
  send (mkSendOptions Channel.Unreliable priority 0) type payload.
Definition send_reliable (type : U8) (payload : list U8) (priority : SendPriority) (lifetime_ms : U64)
    : io World unit :=
  send (mkSendOptions Channel.Reliable priority lifetime_ms) type payload.
Definition send_ordered (type : U8) (payload : list U8) (priority : SendPriority) (lifetime_ms : U64)
    : io World unit :=
  send (mkSendOptions Channel.ReliableOrdered priority lifetime_ms) type payload.
Definition send_latest (type : U8) (payload : list U8) (priority : SendPriority) : io World unit :=
  send (mkSendOptions Channel.SequencedUnreliable priority 0) type payload.

(** The templates, for a value of any supported type. *)
Definition send_unreliable_value (type : U8) (value : list U8) (priority : SendPriority)
    : io World unit :=
  send (mkSendOptions Channel.Unreliable priority 0) type (bytes_of value).
Definition send_reliable_value (type : U8) (value : list U8) (priority : SendPriority)
    (lifetime_ms : U64) : io World unit :=
  send (mkSendOptions Channel.Reliable priority lifetime_ms) type (bytes_of value).
Definition send_ordered_value (type : U8) (value : list U8) (priority : SendPriority)
    (lifetime_ms : U64) : io World unit :=
  send (mkSendOptions Channel.ReliableOrdered priority lifetime_ms) type (bytes_of value).
Definition send_latest_value (type : U8) (value : list U8) (priority : SendPriority) : io World unit :=
  send (mkSendOptions Channel.SequencedUnreliable priority 0) type (bytes_of value).

Definition send_unreliable_text (type : U8) (text : list U8) (priority : SendPriority) : io World unit :=
  send_text type text (mkSendOptions Channel.Unreliable priority 0).
Definition send_reliable_text (type : U8) (text : list U8) (priority : SendPriority)
    (lifetime_ms : U64) : io World unit :=
  send_text type text (mkSendOptions Channel.Reliable priority lifetime_ms).
Definition send_ordered_text (type : U8) (text : list U8) (priority : SendPriority)
    (lifetime_ms : U64) : io World unit :=
  send_text type text (mkSendOptions Channel.ReliableOrdered priority lifetime_ms).
Definition send_latest_text (type : U8) (text : list U8) (priority : SendPriority) : io World unit :=
  send_text type text (mkSendOptions Channel.SequencedUnreliable priority 0).

(** [context_poll] and [reset_stats] *)
Definition context_poll : io World unit := tick.
Definition client_reset_stats : io World unit :=
  update (λ c, c <| c_stats := reset_stats |>);; refresh_runtime_stats.
End sending.

(** ** Callbacks *)

(** Installing a handler for a type, or an empty function. *)
Definition put_handler (type : U8) (set : bool) (handlers : gset U8) : gset U8 :=
  if set then {[type]} ∪ handlers else handlers ∖ {[type]}.

(** The function that [on_binary<T>] installs for a [T] of [size] bytes: the value
    its handler is called with, if it is called. *)
Definition binary_handler (size : ST) (m : MsgView) : option (list U8) :=
  match msg_as size m with Done value => Some value | Err _ | UB => None end.

Inductive callback_slot : Type :=
  | OnPacketFn | OnMessageFn | OnTextFn (type : U8) | OnBinaryFn (type : U8)
  | OnStateChangeFn | OnConnectedFn | OnDisconnectedFn | OnErrorFn | OnBackpressureFn
  | Logger | PacketDebugHook.

(** [on_packet(fn)], [on_message(fn)], ...: [set] says that [fn] is not empty. *)
Definition install (slot : callback_slot) (set : bool) (cb : Callbacks) : Callbacks :=
  let '(mkCallbacks a b c d e f g h i j k) := cb in
  match slot with
  | OnPacketFn => mkCallbacks set b c d e f g h i j k
  | OnMessageFn => mkCallbacks a set c d e f g h i j k
  | OnTextFn type => mkCallbacks a b (put_handler type set c) d e f g h i j k
  | OnBinaryFn type => mkCallbacks a b c ({[type]} ∪ d) e f g h i j k
  | OnStateChangeFn => mkCallbacks a b c d set f g h i j k
  | OnConnectedFn => mkCallbacks a b c d e set g h i j k
  | OnDisconnectedFn => mkCallbacks a b c d e f set h i j k
  | OnErrorFn => mkCallbacks a b c d e f g set i j k
  | OnBackpressureFn => mkCallbacks a b c d e f g h set j k
  | Logger => mkCallbacks a b c d e f g h i set k
  | PacketDebugHook => mkCallbacks a b c d e f g h i j set
  end.
Definition client_install (slot : callback_slot) (set : bool) : io World unit :=
  update (λ c, c <| c_callbacks := install slot set (c_callbacks c) |>).

(** ** Every public call *)

Inductive client_call : Type :=
  | CallStart (server : Endpoint)
  | CallConnectName (host port : list U8)
  | CallConnectPort (host : list U8) (port : U16)
  | CallStop
  | CallTick
  | CallSendPayload (data : ptr) (len : ST)
  | CallSendPayloadSpan (payload : list U8)
  | CallSendMessage (channel : Channel) (type : U8) (data : ptr) (len : U16)
  | CallSend (options : SendOptions) (type : U8) (payload : list U8)
  | CallSendOn (channel : Channel) (type : U8) (payload : list U8)
  | CallSendText (type : U8) (text : list U8)
  | CallSendTextWith (type : U8) (text : list U8) (options : SendOptions)
  | CallSendUnreliable (type : U8) (payload : list U8) (priority : SendPriority)
  | CallSendReliable (type : U8) (payload : list U8) (priority : SendPriority) (lifetime_ms : U64)
  | CallSendOrdered (type : U8) (payload : list U8) (priority : SendPriority) (lifetime_ms : U64)
  | CallSendLatest (type : U8) (payload : list U8) (priority : SendPriority)
  | CallSendUnreliableValue (type : U8) (value : list U8) (priority : SendPriority)
  | CallSendReliableValue (type : U8) (value : list U8) (priority : SendPriority) (lifetime_ms : U64)
  | CallSendOrderedValue (type : U8) (value : list U8) (priority : SendPriority) (lifetime_ms : U64)
  | CallSendLatestValue (type : U8) (value : list U8) (priority : SendPriority)
  | CallSendUnreliableText (type : U8) (text : list U8) (priority : SendPriority)
  | CallSendReliableText (type : U8) (text : list U8) (priority : SendPriority) (lifetime_ms : U64)
  | CallSendOrderedText (type : U8) (text : list U8) (priority : SendPriority) (lifetime_ms : U64)
  | CallSendLatestText (type : U8) (text : list U8) (priority : SendPriority)
  | CallClose (reason : CloseReason)
  | CallResetStats
  | CallInstall (slot : callback_slot) (set : bool).

(** The arguments C++ lets a caller pass: a pointer is null or has its bytes. *)
Definition call_ok (call : client_call) : Prop :=
  match call with
  | CallSendPayload data len => readable data len ∧ 0 <= len
  | CallSendMessage _ _ data len => readable data len
  | _ => True
  end.

Section api.
Context {HR : Resolver} {HS : Sodium} (startup : option Z) (runtime : Result).

Definition run_call (call : client_call) : io World unit :=
  match call with
  | CallStart server => connect runtime server
  | CallConnectName host port => connect_name startup runtime host port
  | CallConnectPort host port => connect_port startup runtime host port
  | CallStop => stop
  | CallTick => context_poll
  | CallSendPayload data len => send_payload data len
  | CallSendPayloadSpan payload => send_payload_span payload
  | CallSendMessage channel type data len => send_message channel type data len
  | CallSend options type payload => send options type payload
  | CallSendOn channel type payload => send_on channel type payload
  | CallSendText type text => send_text_default type text
  | CallSendTextWith type text options => send_text type text options
  | CallSendUnreliable type payload priority => send_unreliable type payload priority
  | CallSendReliable type payload priority life => send_reliable type payload priority life
  | CallSendOrdered type payload priority life => send_ordered type payload priority life
  | CallSendLatest type payload priority => send_latest type payload priority
  | CallSendUnreliableValue type value priority => send_unreliable_value type value priority
  | CallSendReliableValue type value priority life => send_reliable_value type value priority life
  | CallSendOrderedValue type value priority life => send_ordered_value type value priority life
  | CallSendLatestValue type value priority => send_latest_value type value priority
  | CallSendUnreliableText type text priority => send_unreliable_text type text priority
  | CallSendReliableText type text priority life => send_reliable_text type text priority life
  | CallSendOrderedText type text priority life => send_ordered_text type text priority life
  | CallSendLatestText type text priority => send_latest_text type text priority
  | CallClose reason => close reason
  | CallResetStats => client_reset_stats
  | CallInstall slot set => client_install slot set
  end.
End api.

(** ** Properties *)

(** A call does in [w] what at most one operation of the core does: it runs it, or
    it is refused and changes nothing. *)
Definition one_op `{Sodium} (m : io World unit) (w : World) : Prop :=
  (∃ op, m w = run_op op w) ∨ (∃ rc, m w = (Err rc, w)).

Section properties.
Context {HR : Resolver} {HRL : ResolverLaws} {HS : Sodium}.

Lemma one_op_run op w : one_op (run_op op) w.
Proof. left. by exists op. Qed.

Lemma send_one_op options type payload w : one_op (send options type payload) w.
Proof. exact (one_op_run (OpSend options type payload) w). Qed.

Lemma send_text_one_op type text options w : one_op (send_text type text options) w.
Proof. unfold send_text. case_match; [right; by eexists|apply send_one_op]. Qed.

Lemma send_message_one_op channel type data len w :
  readable data len → one_op (send_message channel type data len) w.
Proof.
  intros Hr. unfold send_message. case_match eqn:Hg; [right; by eexists|].
  destruct (bytes_at_readable _ _ Hr Hg) as (bs & Hbs & _). rewrite Hbs. apply send_one_op.
Qed.

(** [send_payload] sees only the bytes it may read. *)
Lemma seal_payload_bytes keys h p n bs :
  (0 <? n) && bool_decide (p = None) = false → bytes_at p n = Done bs → zlen bs = n →
  seal_payload keys h p n = seal_payload keys h (data_of bs) n.
Proof.
  intros Hg Hb Hn. assert ((0 <? n) && bool_decide (data_of bs = None) = false) as Hg'.
  { unfold data_of. destruct bs as [|b bs]; [by subst n|]. by rewrite andb_false_r. }
  assert (bytes_at (data_of bs) n = Done bs) as Hb'.
  { unfold data_of. destruct bs as [|b bs]; [by subst n|]. rewrite decide_False by done. subst n.
    apply bytes_at_all. }
  unfold seal_payload, crypto_aead_encrypt. rewrite Hg, Hg', Hb, Hb'. reflexivity.
Qed.

Lemma send_payload_one_op p n w : readable p n → 0 <= n → one_op (send_payload p n) w.
Proof.
  intros Hr Hn. destruct ((0 <? n) && bool_decide (p = None)) eqn:Hg.
  - right. unfold send_payload, queue_raw_payload, queue_packet. rewrite Hg.
    unfold this, mbind, io_bind. cbn. repeat case_match; simplify_eq; by eexists.
  - destruct (bytes_at_readable _ _ Hr Hg) as (bs & Hb & Hlen). rewrite Z.max_r in Hlen by done.
    left. exists (OpSendPayload bs). cbn [run_op]. rewrite Hlen.
    unfold send_payload, queue_raw_payload, queue_packet. rewrite Hg.
    replace ((0 <? n) && bool_decide (data_of bs = None)) with false.
    2: { unfold data_of. destruct bs as [|b bs]; [by subst n|]. by rewrite andb_false_r. }
    apply bind_ext. intros c w1. do 2 (case_match; [done|]). cbn [negb andb]. apply bind_ext.
    intros c1 w2. apply bind_ext. intros _ w3. apply bind_ext. intros _ w4. case_match; [done|].
    by rewrite (seal_payload_bytes _ _ p n bs).
Qed.

Lemma run_call_one_op startup runtime call w :
  call_ok call → si_status (new_SocketInit startup) = success → one_op (run_call startup runtime call) w.
Proof.
  assert (∀ host port, si_status (new_SocketInit startup) = success →
    one_op (connect_name startup runtime host port) w) as Hname.
  { intros host port Hs. unfold one_op. rewrite connect_name_run.
    pose proof (resolve_one_spec startup host port false Hs) as H.
    destruct (question host port false) as [rc res]. case_decide.
    - destruct H as (e & -> & _). left. by exists (OpConnect runtime e).
    - destruct H as [m ->]. right. by eexists. }
  intros Hok Hs. destruct call; cbn [run_call];
    try exact (send_one_op _ _ _ w); try exact (send_text_one_op _ _ _ w); try (by apply Hname).
  - exact (one_op_run (OpConnect runtime server) w).
  - exact (one_op_run OpStop w).
  - exact (one_op_run OpTick w).
  - destruct Hok. by apply send_payload_one_op.
  - exact (one_op_run (OpSendPayload payload) w).
  - by apply send_message_one_op.
  - exact (one_op_run (OpClose reason) w).
  - exact (one_op_run OpResetStats w).
  - exact (one_op_run (OpCallbacks (install slot set (c_callbacks (w_client w)))) w).
Qed.
End properties.

Lemma client_call_safe `{SodiumLaws} {HR : Resolver} {HRL : ResolverLaws} startup runtime
    (Hs : si_status (new_SocketInit startup) = success) cfg call w :
  client_usable cfg → reachable cfg w → call_ok call →
  (run_call startup runtime call w).1 ≠ UB ∧ reachable cfg (run_call startup runtime call w).2.
Proof.
  intros Hu Hr Hok. destruct (run_call_one_op startup runtime call w Hok Hs) as [[op ->]|[rc ->]]; [|done].
  split; [|by apply ReachOp]. destruct (reachable_inv cfg w Hu Hr) as [k Hk].
  pose proof (run_op_safe k op w Hk) as Hsafe. unfold wp in Hsafe. by destruct (run_op op w) as [[]].
Qed.

(** C20: the whole public interface is safe.  With a usable configuration, from
    every state a client can reach and for all arguments a caller may pass, each
    of the calls of [class Client] ends without undefined behaviour in a state
    that the operations of the core reach as well; it is one such operation or it
    is refused without any effect.  The theorems on runs of the client therefore
    hold for any use of the interface. *)
Theorem client_api_safe `{SodiumLaws} {HR : Resolver} {HRL : ResolverLaws} cfg startup runtime call w :
  client_usable cfg → si_status (new_SocketInit startup) = success → reachable cfg w → call_ok call →
  let '(result, w') := run_call startup runtime call w in
  result ≠ UB ∧ reachable cfg w' ∧
  ((∃ op, (result, w') = run_op op w) ∨ (∃ rc, result = Err rc ∧ w' = w)).
Proof.
  intros Hu Hs Hr Hok. destruct (client_call_safe startup runtime Hs cfg call w Hu Hr Hok) as [Hub Hr'].
  pose proof (run_call_one_op startup runtime call w Hok Hs) as Hone. unfold one_op in Hone.
  destruct (run_call startup runtime call w) as [result w']. split_and!; [exact Hub|exact Hr'|].
  destruct Hone as [[op Hop]|[rc [= -> ->]]]; [left; by exists op|right; by exists rc].
Qed.

(** ** Witness *)

#[local] Existing Instances toy_sodium Names.hosts Names.hosts_laws.

Lemma client_api_safe_witness :
  let '(result, w') := run_call None success (CallSendOrderedText 7 [72; 105] SendPriority.Normal 0)
                         Example.established in
  result = Done tt ∧ reachable default_client w'.
Proof.
  pose proof (client_api_safe default_client None success
    (CallSendOrderedText 7 [72; 105] SendPriority.Normal 0) Example.established
    Example.client_default_usable eq_refl Example.established_reachable I) as H.
  destruct (run_call _ _ _ _) as [result w'] eqn:Hrun. split; [|exact (proj1 (proj2 H))].
  change result with (result, w').1. rewrite <-Hrun. vm_compute. reflexivity.
Defined.
