(* ===== verification/ServerApi.v ===== *)
(** * The public interface of the server

    The overloads and conveniences of [class Server] and of its handle
    [Server::Peer] in [src/securecnet/lib/server.cpp] and
    [include/securecnet/server.hpp], on top of the operations of [ServerSend.v]
    and [ServerRecv.v].  Every public call that can change the server is a
    constructor of [server_call]; [for_each_peer], which calls a function of the user
    for each peer, is a definition of its own. *)
From S2P Require Import Prelude Result Hoare ByteBuf Config Message Packet Protocol Crypto Stats.
From S2P Require Import Endpoint Socket Client ClientRecv ClientInv ClientProps Server ServerSend.
From S2P Require Import ServerRecv ServerInv ServerProps IoContext Address ClientApi.
#[local] Open Scope Z_scope.

(** ** Construction and destruction *)

(** [Server(config, ctx)], with the server's name as a service of the context;
    [Server(ctx)] has the default configuration. *)
Definition new_server_in (config : ServerConfig) (self : service) (ctx : IoContext)
    : Server * IoContext :=
  (new_server config, register_service self ctx).

(** [~Server] *)
Definition destroy_server `{Ntop, Sodium, Traversal} (self : service) (ctx : option IoContext)
    (w : ServerWorld) : (outcome unit * ServerWorld) * option IoContext :=
  (srv_stop w, unregister_service self <$> ctx).

(** [runtime_status]: the context's runtime when there is one. *)
Definition srv_runtime_status `{Sodium} (ctx : option IoContext) (own : Result) : Result :=
  let rc := match ctx with Some io => io_runtime io | None => own end in
  if negb (ok rc) then rc else crypto_runtime_status.

(** ** Helpers that [server.cpp] repeats

    [server.cpp] has its own copies of two helpers of [client.cpp]; both ends of a
    connection compute the same. *)

Definition srv_prefer_ipv4 (eps : list Endpoint) : option Endpoint :=
  match eps with
  | [] => None
  | front :: _ => match first_ipv4 eps with Some ep => Some ep | None => Some front end
  end.

Lemma srv_prefer_ipv4_agrees eps : srv_prefer_ipv4 eps = prefer_ipv4 eps.
Proof. destruct eps as [|e eps]; [done|]. unfold prefer_ipv4. cbn [srv_prefer_ipv4 head]. by case_match. Qed.

Definition srv_write_transcript (hello : ClientHello) (sh : ServerHello) : io ByteWriter unit :=
  write_u16 NetConfig.ProtocolVersion;;
  write_array NetConfig.KeyExchangePublicKeyBytes (client_public_key hello);;
  write_array NetConfig.ClientNonceBytes (client_nonce hello);;
  write_u8 (if ch_has_retry_token hello then 1 else 0);;
  when (ch_has_retry_token hello) (write_retry_token (ch_retry_token hello));;
  write_u8 (if ch_has_resumption_token hello then 1 else 0);;
  when (ch_has_resumption_token hello) (write_resumption_token (ch_resumption_token hello));;
  write_u64 (server_conn_id sh);;
  write_array NetConfig.KeyExchangePublicKeyBytes (server_public_key sh);;
  write_array NetConfig.ServerNonceBytes (server_nonce sh);;
  write_u8 (if sh_has_resumption_token sh then 1 else 0);;
  when (sh_has_resumption_token sh) (write_resumption_token (sh_resumption_token sh)).

(** The server signs the bytes that the client verifies. *)
Lemma srv_transcript_agrees hello sh w : srv_write_transcript hello sh w = write_transcript hello sh w.
Proof.
  unfold srv_write_transcript, write_transcript, write_optional, when.
  repeat first [rewrite !bind_assoc | apply bind_ext; intros ? ?]; reflexivity.
Qed.

(** ** Sending to a peer *)

Section sending.
Context {HN : Ntop} {HS : Sodium} {HT : Traversal}.

(** [send_payload(peer, data, len)] has [send_payload(endpoint, conn_id, data, len)]
    as [srv_send_payload]; this is the overload with a span. *)
Definition srv_send_payload_span (peer : Peer) (payload : list U8) : io ServerWorld unit :=
  srv_send_payload peer (data_of payload) (zlen payload).

Definition srv_send_message (peer : Peer) (channel : Channel) (type : U8) (data : ptr) (len : U16)
    : io ServerWorld unit :=
  if (0 <? len) && bool_decide (data = None) then fail Errc.InvalidArg "message data is null"
  else
    payload ← lift (bytes_at data len);
    srv_send peer (mkSendOptions channel SendPriority.Normal 0) type payload.

Definition srv_send_on (peer : Peer) (channel : Channel) (type : U8) (payload : list U8)
    : io ServerWorld unit :=
  srv_send peer (mkSendOptions channel SendPriority.Normal 0) type payload.

(** [send_text(peer, type, text, options)] and [send_text(peer, type, text)] *)
Definition srv_send_text_with (peer : Peer) (type : U8) (text : list U8) (options : SendOptions)
    : io ServerWorld unit :=
  if 65535 <? zlen text then fail Errc.TooLarge "text payload too large"
  else srv_send peer options type text.
Definition srv_send_text (peer : Peer) (type : U8) (text : list U8) : io ServerWorld unit :=
  srv_send_text_with peer type text (mkSendOptions Channel.Unreliable SendPriority.Normal 0).
Definition srv_send_unreliable (peer : Peer) (type : U8) (payload : list U8) (priority : SendPriority)
    : io ServerWorld unit :=
  srv_send peer (mkSendOptions Channel.Unreliable priority 0) type payload.
Definition srv_send_reliable (peer : Peer) (type : U8) (payload : list U8) (priority : SendPriority) (lifetime_ms : U64)
    : io ServerWorld unit :=
  srv_send peer (mkSendOptions Channel.Reliable priority lifetime_ms) type payload.
Definition srv_send_ordered (peer : Peer) (type : U8) (payload : list U8) (priority : SendPriority) (lifetime_ms : U64)
    : io ServerWorld unit :=
  srv_send peer (mkSendOptions Channel.ReliableOrdered priority lifetime_ms) type payload.
Definition srv_send_latest (peer : Peer) (type : U8) (payload : list U8) (priority : SendPriority)
    : io ServerWorld unit :=
  srv_send peer (mkSendOptions Channel.SequencedUnreliable priority 0) type payload.

(** The templates, for a value of any supported type. *)
Definition srv_send_unreliable_value (peer : Peer) (type : U8) (value : list U8) (priority : SendPriority)
    : io ServerWorld unit :=
  srv_send peer (mkSendOptions Channel.Unreliable priority 0) type (bytes_of value).
Definition srv_send_reliable_value (peer : Peer) (type : U8) (value : list U8) (priority : SendPriority) (lifetime_ms : U64)
    : io ServerWorld unit :=
  srv_send peer (mkSendOptions Channel.Reliable priority lifetime_ms) type (bytes_of value).
Definition srv_send_ordered_value (peer : Peer) (type : U8) (value : list U8) (priority : SendPriority) (lifetime_ms : U64)
    : io ServerWorld unit :=
  srv_send peer (mkSendOptions Channel.ReliableOrdered priority lifetime_ms) type (bytes_of value).
Definition srv_send_latest_value (peer : Peer) (type : U8) (value : list U8) (priority : SendPriority)
    : io ServerWorld unit :=
  srv_send peer (mkSendOptions Channel.SequencedUnreliable priority 0) type (bytes_of value).

Definition srv_send_unreliable_text (peer : Peer) (type : U8) (text : list U8) (priority : SendPriority)
    : io ServerWorld unit :=
  srv_send_text_with peer type text (mkSendOptions Channel.Unreliable priority 0).
Definition srv_send_reliable_text (peer : Peer) (type : U8) (text : list U8) (priority : SendPriority) (lifetime_ms : U64)
    : io ServerWorld unit :=
  srv_send_text_with peer type text (mkSendOptions Channel.Reliable priority lifetime_ms).
Definition srv_send_ordered_text (peer : Peer) (type : U8) (text : list U8) (priority : SendPriority) (lifetime_ms : U64)
    : io ServerWorld unit :=
  srv_send_text_with peer type text (mkSendOptions Channel.ReliableOrdered priority lifetime_ms).
Definition srv_send_latest_text (peer : Peer) (type : U8) (text : list U8) (priority : SendPriority)
    : io ServerWorld unit :=
  srv_send_text_with peer type text (mkSendOptions Channel.SequencedUnreliable priority 0).

(** ** Sending to all *)

Definition broadcast_all (options : SendOptions) (type : U8) (payload : list U8) : io ServerWorld unit :=
  broadcast None options type payload.
Definition broadcast_except (excluded : Peer) (options : SendOptions) (type : U8) (payload : list U8)
    : io ServerWorld unit :=
  broadcast (Some (peer_conn_id excluded)) options type payload.

Definition broadcast_unreliable (type : U8) (payload : list U8) (priority : SendPriority) : io ServerWorld unit :=
  broadcast_all (mkSendOptions Channel.Unreliable priority 0) type payload.
Definition broadcast_reliable (type : U8) (payload : list U8) (priority : SendPriority) (lifetime_ms : U64) : io ServerWorld unit :=
  broadcast_all (mkSendOptions Channel.Reliable priority lifetime_ms) type payload.
Definition broadcast_ordered (type : U8) (payload : list U8) (priority : SendPriority) (lifetime_ms : U64) : io ServerWorld unit :=
  broadcast_all (mkSendOptions Channel.ReliableOrdered priority lifetime_ms) type payload.
Definition broadcast_latest (type : U8) (payload : list U8) (priority : SendPriority) : io ServerWorld unit :=
  broadcast_all (mkSendOptions Channel.SequencedUnreliable priority 0) type payload.

Definition broadcast_unreliable_text (type : U8) (text : list U8) (priority : SendPriority)
    : io ServerWorld unit :=
  broadcast_unreliable type text priority.
Definition broadcast_reliable_text (type : U8) (text : list U8) (priority : SendPriority) (lifetime_ms : U64)
    : io ServerWorld unit :=
  broadcast_reliable type text priority lifetime_ms.
Definition broadcast_ordered_text (type : U8) (text : list U8) (priority : SendPriority) (lifetime_ms : U64)
    : io ServerWorld unit :=
  broadcast_ordered type text priority lifetime_ms.
Definition broadcast_latest_text (type : U8) (text : list U8) (priority : SendPriority)
    : io ServerWorld unit :=
  broadcast_latest type text priority.

Definition broadcast_unreliable_value (type : U8) (value : list U8) (priority : SendPriority)
    : io ServerWorld unit :=
  broadcast_all (mkSendOptions Channel.Unreliable priority 0) type (bytes_of value).
Definition broadcast_reliable_value (type : U8) (value : list U8) (priority : SendPriority) (lifetime_ms : U64)
    : io ServerWorld unit :=
  broadcast_all (mkSendOptions Channel.Reliable priority lifetime_ms) type (bytes_of value).
Definition broadcast_ordered_value (type : U8) (value : list U8) (priority : SendPriority) (lifetime_ms : U64)
    : io ServerWorld unit :=
  broadcast_all (mkSendOptions Channel.ReliableOrdered priority lifetime_ms) type (bytes_of value).
Definition broadcast_latest_value (type : U8) (value : list U8) (priority : SendPriority)
    : io ServerWorld unit :=
  broadcast_all (mkSendOptions Channel.SequencedUnreliable priority 0) type (bytes_of value).

(** [context_poll] and [reset_stats] *)
Definition srv_context_poll : io ServerWorld unit := srv_tick.
Definition srv_reset_stats : io ServerWorld unit :=
  set_srv (λ v, v <| s_stats := reset_stats |>);; srv_refresh.
End sending.

(** ** Peers *)

(** [for_each_peer], with the order in which the table is traversed; a function
    that erases a session ends the traversal in undefined behaviour. *)
Fixpoint for_each_loop (ids : list U64) (fn : Peer → io ServerWorld unit) : io ServerWorld unit :=
  match ids with
  | [] => mret tt
  | id :: rest =>
      s ← session id;
      when (bool_decide (ps_state s = ConnectionState.Established)) (fn (make_peer s));;
      for_each_loop rest fn
  end.
Definition for_each_peer `{Traversal} (fn : option (Peer → io ServerWorld unit)) : io ServerWorld unit :=
  match fn with
  | None => mret tt
  | Some f => v ← srv; for_each_loop (traversal (s_sessions v)) f
  end.

(** [peer_user_data]; 0 is the null pointer. *)
Definition peer_user_data (peer : Peer) (v : Server) : Z :=
  match peer_session peer v with Some s => ps_user_data s | None => 0 end.

Definition peer_count (v : Server) : ST := Z.of_nat (size (s_sessions v)).

(** ** Callbacks *)

Inductive server_slot : Type :=
  | SrvPacketFn | SrvMessageFn | SrvTextFn (type : U8) | SrvBinaryFn (type : U8)
  | SrvPeerConnectedFn | SrvPeerReadyFn | SrvPeerDisconnectedFn | SrvPeerStateChangeFn
  | SrvBackpressureFn | SrvLogger | SrvPacketDebugHook.

(** [on_packet(fn)], [on_message(fn)], ...: [set] says that [fn] is not empty. *)
Definition srv_install_in (slot : server_slot) (set : bool) (cb : ServerCallbacks) : ServerCallbacks :=
  let '(mkServerCallbacks a b c d e f g h i j k) := cb in
  match slot with
  | SrvPacketFn => mkServerCallbacks set b c d e f g h i j k
  | SrvMessageFn => mkServerCallbacks a set c d e f g h i j k
  | SrvTextFn type => mkServerCallbacks a b (put_handler type set c) d e f g h i j k
  | SrvBinaryFn type => mkServerCallbacks a b c ({[type]} ∪ d) e f g h i j k
  | SrvPeerConnectedFn => mkServerCallbacks a b c d set f g h i j k
  | SrvPeerReadyFn => mkServerCallbacks a b c d e set g h i j k
  | SrvPeerDisconnectedFn => mkServerCallbacks a b c d e f set h i j k
  | SrvPeerStateChangeFn => mkServerCallbacks a b c d e f g set i j k
  | SrvBackpressureFn => mkServerCallbacks a b c d e f g h set j k
  | SrvLogger => mkServerCallbacks a b c d e f g h i set k
  | SrvPacketDebugHook => mkServerCallbacks a b c d e f g h i j set
  end.
Definition srv_install (slot : server_slot) (set : bool) : io ServerWorld unit :=
  set_srv (λ v, v <| s_callbacks := srv_install_in slot set (s_callbacks v) |>).

(** ** The handle *)

(** [class Server::Peer]; [ph_owner] says that [_owner] is not null. *)
Record PeerHandle := mkPeerHandle { ph_owner : bool; ph_peer : Peer }.

Definition is_valid (h : PeerHandle) : bool := ph_owner h && negb (peer_conn_id (ph_peer h) =? 0).

(** A method of the handle: what it does through the owner. *)
Definition owned {A} (h : PeerHandle) (m : Peer → io ServerWorld A) : io ServerWorld A :=
  if negb (ph_owner h) then fail Errc.InvalidArg "peer is not bound to a server" else m (ph_peer h).

Section handle.
Context {HN : Ntop} {HS : Sodium} {HT : Traversal}.

Definition peer_send_payload (h : PeerHandle) (data : ptr) (len : ST) : io ServerWorld unit :=
  owned h (λ peer, srv_send_payload peer data len).
Definition peer_send_payload_span (h : PeerHandle) (payload : list U8) : io ServerWorld unit :=
  peer_send_payload h (data_of payload) (zlen payload).
Definition peer_send_message (h : PeerHandle) (channel : Channel) (type : U8) (data : ptr) (len : U16)
    : io ServerWorld unit :=
  owned h (λ peer, srv_send_message peer channel type data len).
Definition peer_send (h : PeerHandle) (options : SendOptions) (type : U8) (payload : list U8)
    : io ServerWorld unit :=
  owned h (λ peer, srv_send peer options type payload).
Definition peer_send_on (h : PeerHandle) (channel : Channel) (type : U8) (payload : list U8)
    : io ServerWorld unit :=
  peer_send h (mkSendOptions channel SendPriority.Normal 0) type payload.
Definition peer_send_text_with (h : PeerHandle) (type : U8) (text : list U8) (options : SendOptions)
    : io ServerWorld unit :=
  if 65535 <? zlen text then fail Errc.TooLarge "text payload too large"
  else peer_send h options type text.
Definition peer_send_text (h : PeerHandle) (type : U8) (text : list U8) : io ServerWorld unit :=
  peer_send_text_with h type text (mkSendOptions Channel.Unreliable SendPriority.Normal 0).

Definition peer_send_unreliable (h : PeerHandle) (type : U8) (payload : list U8) (priority : SendPriority)
    : io ServerWorld unit :=
  peer_send h (mkSendOptions Channel.Unreliable priority 0) type payload.
Definition peer_send_reliable (h : PeerHandle) (type : U8) (payload : list U8) (priority : SendPriority) (lifetime_ms : U64)
    : io ServerWorld unit :=
  peer_send h (mkSendOptions Channel.Reliable priority lifetime_ms) type payload.
Definition peer_send_ordered (h : PeerHandle) (type : U8) (payload : list U8) (priority : SendPriority) (lifetime_ms : U64)
    : io ServerWorld unit :=
  peer_send h (mkSendOptions Channel.ReliableOrdered priority lifetime_ms) type payload.
Definition peer_send_latest (h : PeerHandle) (type : U8) (payload : list U8) (priority : SendPriority)
    : io ServerWorld unit :=
  peer_send h (mkSendOptions Channel.SequencedUnreliable priority 0) type payload.

Definition peer_send_unreliable_value (h : PeerHandle) (type : U8) (value : list U8) (priority : SendPriority)
    : io ServerWorld unit :=
  peer_send h (mkSendOptions Channel.Unreliable priority 0) type (bytes_of value).
Definition peer_send_reliable_value (h : PeerHandle) (type : U8) (value : list U8) (priority : SendPriority) (lifetime_ms : U64)
    : io ServerWorld unit :=
  peer_send h (mkSendOptions Channel.Reliable priority lifetime_ms) type (bytes_of value).
Definition peer_send_ordered_value (h : PeerHandle) (type : U8) (value : list U8) (priority : SendPriority) (lifetime_ms : U64)
    : io ServerWorld unit :=
  peer_send h (mkSendOptions Channel.ReliableOrdered priority lifetime_ms) type (bytes_of value).
Definition peer_send_latest_value (h : PeerHandle) (type : U8) (value : list U8) (priority : SendPriority)
    : io ServerWorld unit :=
  peer_send h (mkSendOptions Channel.SequencedUnreliable priority 0) type (bytes_of value).

Definition peer_send_unreliable_text (h : PeerHandle) (type : U8) (text : list U8) (priority : SendPriority)
    : io ServerWorld unit :=
  peer_send_text_with h type text (mkSendOptions Channel.Unreliable priority 0).
Definition peer_send_reliable_text (h : PeerHandle) (type : U8) (text : list U8) (priority : SendPriority) (lifetime_ms : U64)
    : io ServerWorld unit :=
  peer_send_text_with h type text (mkSendOptions Channel.Reliable priority lifetime_ms).
Definition peer_send_ordered_text (h : PeerHandle) (type : U8) (text : list U8) (priority : SendPriority) (lifetime_ms : U64)
    : io ServerWorld unit :=
  peer_send_text_with h type text (mkSendOptions Channel.ReliableOrdered priority lifetime_ms).
Definition peer_send_latest_text (h : PeerHandle) (type : U8) (text : list U8) (priority : SendPriority)
    : io ServerWorld unit :=
  peer_send_text_with h type text (mkSendOptions Channel.SequencedUnreliable priority 0).

Definition peer_close (h : PeerHandle) (reason : CloseReason) : io ServerWorld unit :=
  owned h (λ peer, close_peer peer reason).
Definition peer_set_user_data (h : PeerHandle) (data : Z) : io ServerWorld unit :=
  owned h (λ peer, set_peer_user_data peer data).
Definition handle_user_data (h : PeerHandle) (v : Server) : Z :=
  if ph_owner h then peer_user_data (ph_peer h) v else 0.
End handle.

(** ** Every public call *)

(** The calls of the handle. *)
Inductive peer_call : Type :=
  | PeerSendPayload (data : ptr) (len : ST)
  | PeerSendPayloadSpan (payload : list U8)
  | PeerSendMessage (channel : Channel) (type : U8) (data : ptr) (len : U16)
  | PeerSend (options : SendOptions) (type : U8) (payload : list U8)
  | PeerSendOn (channel : Channel) (type : U8) (payload : list U8)
  | PeerSendText (type : U8) (text : list U8)
  | PeerSendTextWith (type : U8) (text : list U8) (options : SendOptions)
  | PeerSendUnreliable (type : U8) (payload : list U8) (priority : SendPriority)
  | PeerSendReliable (type : U8) (payload : list U8) (priority : SendPriority) (lifetime_ms : U64)
  | PeerSendOrdered (type : U8) (payload : list U8) (priority : SendPriority) (lifetime_ms : U64)
  | PeerSendLatest (type : U8) (payload : list U8) (priority : SendPriority)
  | PeerSendUnreliableValue (type : U8) (value : list U8) (priority : SendPriority)
  | PeerSendReliableValue (type : U8) (value : list U8) (priority : SendPriority) (lifetime_ms : U64)
  | PeerSendOrderedValue (type : U8) (value : list U8) (priority : SendPriority) (lifetime_ms : U64)
  | PeerSendLatestValue (type : U8) (value : list U8) (priority : SendPriority)
  | PeerSendUnreliableText (type : U8) (text : list U8) (priority : SendPriority)
  | PeerSendReliableText (type : U8) (text : list U8) (priority : SendPriority) (lifetime_ms : U64)
  | PeerSendOrderedText (type : U8) (text : list U8) (priority : SendPriority) (lifetime_ms : U64)
  | PeerSendLatestText (type : U8) (text : list U8) (priority : SendPriority)
  | PeerClose (reason : CloseReason)
  | PeerSetUserData (data : Z).

Inductive server_call : Type :=
  | SrvCallStart (bind_ep : Endpoint)
  | SrvCallListenName (port : list U8)
  | SrvCallListenPort (port : U16)
  | SrvCallStop
  | SrvCallTick
  | SrvCallPeer (peer : Peer) (call : peer_call)
  | SrvCallHandle (h : PeerHandle) (call : peer_call)
  | SrvCallBroadcast (options : SendOptions) (type : U8) (payload : list U8)
  | SrvCallBroadcastExcept (excluded : Peer) (options : SendOptions) (type : U8) (payload : list U8)
  | SrvCallBroadcastUnreliable (type : U8) (payload : list U8) (priority : SendPriority)
  | SrvCallBroadcastReliable (type : U8) (payload : list U8) (priority : SendPriority) (lifetime_ms : U64)
  | SrvCallBroadcastOrdered (type : U8) (payload : list U8) (priority : SendPriority) (lifetime_ms : U64)
  | SrvCallBroadcastLatest (type : U8) (payload : list U8) (priority : SendPriority)
  | SrvCallBroadcastUnreliableValue (type : U8) (value : list U8) (priority : SendPriority)
  | SrvCallBroadcastReliableValue (type : U8) (value : list U8) (priority : SendPriority) (lifetime_ms : U64)
  | SrvCallBroadcastOrderedValue (type : U8) (value : list U8) (priority : SendPriority) (lifetime_ms : U64)
  | SrvCallBroadcastLatestValue (type : U8) (value : list U8) (priority : SendPriority)
  | SrvCallBroadcastUnreliableText (type : U8) (text : list U8) (priority : SendPriority)
  | SrvCallBroadcastReliableText (type : U8) (text : list U8) (priority : SendPriority) (lifetime_ms : U64)
  | SrvCallBroadcastOrderedText (type : U8) (text : list U8) (priority : SendPriority) (lifetime_ms : U64)
  | SrvCallBroadcastLatestText (type : U8) (text : list U8) (priority : SendPriority)
  | SrvCallResetStats
  | SrvCallInstall (slot : server_slot) (set : bool).

(** The arguments C++ lets a caller pass: a pointer is null or has its bytes. *)
Definition peer_call_ok (call : peer_call) : Prop :=
  match call with
  | PeerSendPayload data len => readable data len ∧ 0 <= len
  | PeerSendMessage _ _ data len => readable data len
  | _ => True
  end.
Definition server_call_ok (call : server_call) : Prop :=
  match call with SrvCallPeer _ c | SrvCallHandle _ c => peer_call_ok c | _ => True end.

Section api.
Context {HR : Resolver} {HN : Ntop} {HS : Sodium} {HT : Traversal} (startup : option Z) (runtime : Result).

(** The calls of the server that take the peer as an argument. *)
Definition run_peer (peer : Peer) (call : peer_call) : io ServerWorld unit :=
  match call with
  | PeerSendPayload data len => srv_send_payload peer data len
  | PeerSendPayloadSpan payload => srv_send_payload_span peer payload
  | PeerSendMessage channel type data len => srv_send_message peer channel type data len
  | PeerSend options type payload => srv_send peer options type payload
  | PeerSendOn channel type payload => srv_send_on peer channel type payload
  | PeerSendText type text => srv_send_text peer type text
  | PeerSendTextWith type text options => srv_send_text_with peer type text options
  | PeerSendUnreliable type x priority => srv_send_unreliable peer type x priority
  | PeerSendReliable type x priority life => srv_send_reliable peer type x priority life
  | PeerSendOrdered type x priority life => srv_send_ordered peer type x priority life
  | PeerSendLatest type x priority => srv_send_latest peer type x priority
  | PeerSendUnreliableValue type x priority => srv_send_unreliable_value peer type x priority
  | PeerSendReliableValue type x priority life => srv_send_reliable_value peer type x priority life
  | PeerSendOrderedValue type x priority life => srv_send_ordered_value peer type x priority life
  | PeerSendLatestValue type x priority => srv_send_latest_value peer type x priority
  | PeerSendUnreliableText type x priority => srv_send_unreliable_text peer type x priority
  | PeerSendReliableText type x priority life => srv_send_reliable_text peer type x priority life
  | PeerSendOrderedText type x priority life => srv_send_ordered_text peer type x priority life
  | PeerSendLatestText type x priority => srv_send_latest_text peer type x priority
  | PeerClose reason => close_peer peer reason
  | PeerSetUserData data => set_peer_user_data peer data
  end.

(** The methods of the handle. *)
Definition run_handle (h : PeerHandle) (call : peer_call) : io ServerWorld unit :=
  match call with
  | PeerSendPayload data len => peer_send_payload h data len
  | PeerSendPayloadSpan payload => peer_send_payload_span h payload
  | PeerSendMessage channel type data len => peer_send_message h channel type data len
  | PeerSend options type payload => peer_send h options type payload
  | PeerSendOn channel type payload => peer_send_on h channel type payload
  | PeerSendText type text => peer_send_text h type text
  | PeerSendTextWith type text options => peer_send_text_with h type text options
  | PeerSendUnreliable type x priority => peer_send_unreliable h type x priority
  | PeerSendReliable type x priority life => peer_send_reliable h type x priority life
  | PeerSendOrdered type x priority life => peer_send_ordered h type x priority life
  | PeerSendLatest type x priority => peer_send_latest h type x priority
  | PeerSendUnreliableValue type x priority => peer_send_unreliable_value h type x priority
  | PeerSendReliableValue type x priority life => peer_send_reliable_value h type x priority life
  | PeerSendOrderedValue type x priority life => peer_send_ordered_value h type x priority life
  | PeerSendLatestValue type x priority => peer_send_latest_value h type x priority
  | PeerSendUnreliableText type x priority => peer_send_unreliable_text h type x priority
  | PeerSendReliableText type x priority life => peer_send_reliable_text h type x priority life
  | PeerSendOrderedText type x priority life => peer_send_ordered_text h type x priority life
  | PeerSendLatestText type x priority => peer_send_latest_text h type x priority
  | PeerClose reason => peer_close h reason
  | PeerSetUserData data => peer_set_user_data h data
  end.

Definition run_server_call (call : server_call) : io ServerWorld unit :=
  match call with
  | SrvCallStart bind_ep => listen runtime bind_ep
  | SrvCallListenName port => listen_name startup runtime port
  | SrvCallListenPort port => listen_port startup runtime port
  | SrvCallStop => srv_stop
  | SrvCallTick => srv_context_poll
  | SrvCallPeer peer c => run_peer peer c
  | SrvCallHandle h c => run_handle h c
  | SrvCallBroadcast options type payload => broadcast_all options type payload
  | SrvCallBroadcastExcept excluded options type payload =>
      broadcast_except excluded options type payload
  | SrvCallBroadcastUnreliable type x priority => broadcast_unreliable type x priority
  | SrvCallBroadcastReliable type x priority life => broadcast_reliable type x priority life
  | SrvCallBroadcastOrdered type x priority life => broadcast_ordered type x priority life
  | SrvCallBroadcastLatest type x priority => broadcast_latest type x priority
  | SrvCallBroadcastUnreliableValue type x priority => broadcast_unreliable_value type x priority
  | SrvCallBroadcastReliableValue type x priority life => broadcast_reliable_value type x priority life
  | SrvCallBroadcastOrderedValue type x priority life => broadcast_ordered_value type x priority life
  | SrvCallBroadcastLatestValue type x priority => broadcast_latest_value type x priority
  | SrvCallBroadcastUnreliableText type x priority => broadcast_unreliable_text type x priority
  | SrvCallBroadcastReliableText type x priority life => broadcast_reliable_text type x priority life
  | SrvCallBroadcastOrderedText type x priority life => broadcast_ordered_text type x priority life
  | SrvCallBroadcastLatestText type x priority => broadcast_latest_text type x priority
  | SrvCallResetStats => srv_reset_stats
  | SrvCallInstall slot set => srv_install slot set
  end.
End api.

(** ** Properties *)

(** A call does in [w] what at most one operation of the core does. *)
Definition one_srv_op {HN : Ntop} {HS : Sodium} {HT : Traversal} (m : io ServerWorld unit)
    (w : ServerWorld) : Prop :=
  (∃ op, m w = run_server op w) ∨ (∃ rc, m w = (Err rc, w)).

(** The call is refused and changes nothing. *)
Definition refused (m : io ServerWorld unit) (w : ServerWorld) : Prop := ∃ rc, m w = (Err rc, w).

Section properties.
Context {HR : Resolver} {HRL : ResolverLaws} {HN : Ntop} {HS : Sodium} {HT : Traversal}.

Lemma one_srv_op_run op w : one_srv_op (run_server op) w.
Proof. left. by exists op. Qed.

Lemma srv_send_one_op peer options type payload w : one_srv_op (srv_send peer options type payload) w.
Proof. exact (one_srv_op_run (SrvSend peer options type payload) w). Qed.

Lemma srv_send_text_one_op peer type text options w :
  one_srv_op (srv_send_text_with peer type text options) w.
Proof. unfold srv_send_text_with. case_match; [right; by eexists|apply srv_send_one_op]. Qed.

Lemma srv_send_message_one_op peer channel type data len w :
  readable data len → one_srv_op (srv_send_message peer channel type data len) w.
Proof.
  intros Hr. unfold srv_send_message. case_match eqn:Hg; [right; by eexists|].
  destruct (bytes_at_readable _ _ Hr Hg) as (bs & Hbs & _). rewrite Hbs. apply srv_send_one_op.
Qed.

Lemma broadcast_one_op excluded options type payload w :
  one_srv_op (broadcast excluded options type payload) w.
Proof. exact (one_srv_op_run (SrvBroadcast excluded options type payload) w). Qed.

(** A null pointer is refused by [queue_packet], after a number was taken for the
    packet; any other pointer counts for its bytes. *)
Lemma srv_send_payload_one_op peer p n w :
  readable p n → 0 <= n → one_srv_op (srv_send_payload peer p n) w.
Proof.
  intros Hr Hn. left. destruct ((0 <? n) && bool_decide (p = None)) eqn:Hg.
  - apply andb_true_iff in Hg as [_ Hp%bool_decide_eq_true]. subst p.
    exists (SrvSendNull peer (Z.to_nat n)). cbn [run_server]. by rewrite Z2Nat.id.
  - destruct (bytes_at_readable _ _ Hr Hg) as (bs & Hb & Hlen). rewrite Z.max_r in Hlen by done.
    exists (SrvSendPayload peer bs). cbn [run_server]. rewrite Hlen.
    unfold srv_send_payload, srv_raw_payload, queue_sealed, srv_queue_packet. rewrite Hg.
    replace ((0 <? n) && bool_decide (data_of bs = None)) with false.
    2: { unfold data_of. destruct bs as [|b bs]; [by subst n|]. by rewrite andb_false_r. }
    apply bind_ext. intros v w1. case_match; [|done]. do 2 (case_match; [done|]).
    apply bind_ext. intros q w2. apply bind_ext. intros s w3. cbn [negb andb].
    case_match; [done|]. apply bind_ext. intros b w4. case_match; [done|].
    by rewrite (seal_payload_bytes _ _ p n bs).
Qed.

Lemma run_peer_one_op peer call w : peer_call_ok call → one_srv_op (run_peer peer call) w.
Proof.
  intros Hok. destruct call; cbn [run_peer];
    try exact (srv_send_one_op _ _ _ _ w); try exact (srv_send_text_one_op _ _ _ _ w).
  - destruct Hok. by apply srv_send_payload_one_op.
  - exact (one_srv_op_run (SrvSendPayload peer payload) w).
  - by apply srv_send_message_one_op.
  - exact (one_srv_op_run (SrvClosePeer peer reason) w).
  - exact (one_srv_op_run (SrvSetUserData peer data) w).
Qed.

Lemma run_handle_bound peer call : run_handle (mkPeerHandle true peer) call = run_peer peer call.
Proof. by destruct call. Qed.

Lemma run_handle_unbound peer call w : refused (run_handle (mkPeerHandle false peer) call) w.
Proof.
  assert (∀ type text options,
    refused (peer_send_text_with (mkPeerHandle false peer) type text options) w) as Ht.
  { intros. unfold peer_send_text_with. case_match; by eexists. }
  destruct call; cbn [run_handle]; first [apply Ht|by eexists].
Qed.

Lemma run_server_call_one_op startup runtime call w :
  server_call_ok call → si_status (new_SocketInit startup) = success →
  one_srv_op (run_server_call startup runtime call) w.
Proof.
  assert (∀ port, si_status (new_SocketInit startup) = success →
    one_srv_op (listen_name startup runtime port) w) as Hname.
  { intros port Hs. unfold one_srv_op. rewrite listen_name_run.
    pose proof (resolve_one_spec startup [] port true Hs) as H.
    destruct (question [] port true) as [rc res]. case_decide.
    - destruct H as (e & -> & _). left. by exists (SrvListen runtime e).
    - destruct H as [m ->]. right. by eexists. }
  intros Hok Hs. destruct call; cbn [run_server_call];
    try exact (broadcast_one_op _ _ _ _ w); try (by apply Hname).
  - exact (one_srv_op_run (SrvListen runtime bind_ep) w).
  - exact (one_srv_op_run SrvStop w).
  - exact (one_srv_op_run SrvTick w).
  - by apply run_peer_one_op.
  - destruct h as [[] peer]; [rewrite run_handle_bound; by apply run_peer_one_op|].
    right. apply run_handle_unbound.
  - exact (one_srv_op_run SrvResetStats w).
  - exact (one_srv_op_run (SrvSetCallbacks (srv_install_in slot set (s_callbacks (sw_server w)))) w).
Qed.

(** *** Handles *)

Lemma run_peer_stale peer call w :
  peer_call_ok call → peer_session peer (sw_server w) = None → refused (run_peer peer call) w.
Proof.
  intros Hok Hp.
  assert (∀ options type payload, refused (srv_send peer options type payload) w) as Hsend.
  { intros. eexists. unfold srv_send, srv, mbind, io_bind. by rewrite Hp. }
  assert (∀ type text options, refused (srv_send_text_with peer type text options) w) as Htext.
  { intros. unfold srv_send_text_with. case_match; [by eexists|apply Hsend]. }
  assert (∀ data len, refused (srv_send_payload peer data len) w) as Hpayload.
  { intros. eexists. unfold srv_send_payload, srv, mbind, io_bind. by rewrite Hp. }
  destruct call; cbn [run_peer]; try (by apply Htext); try apply Hsend; try apply Hpayload.
  - unfold srv_send_message. case_match eqn:Hg; [by eexists|].
    destruct (bytes_at_readable _ _ Hok Hg) as (bs & -> & _). apply Hsend.
  - eexists. unfold close_peer, srv, mbind, io_bind. by rewrite Hp.
  - eexists. unfold set_peer_user_data, srv, mbind, io_bind. by rewrite Hp.
Qed.

Lemma set_user_data_run peer d w s :
  peer_session peer (sw_server w) = Some s →
  set_peer_user_data peer d w =
    (Done tt, mkServerWorld (sw_server w <| s_sessions :=
       <[peer_conn_id peer := s <| ps_user_data := d |>]> (s_sessions (sw_server w)) |>)
       (sw_net w) (sw_events w)).
Proof.
  intros Hp. unfold set_peer_user_data, srv, set_session, session, set_srv, mbind, io_bind. rewrite Hp.
  unfold peer_session, find_session, mbind, option_bind in Hp.
  destruct (s_sessions (sw_server w) !! peer_conn_id peer) as [s'|]; [|done].
  destruct (ep_eqb _ _); [|done]. by injection Hp as ->.
Qed.

(** C33: the handle of a peer.  On a handle that is bound to its server every
    method is the server's call for that peer; on one that is not, and on one
    whose session is gone or belongs to another endpoint by now, every method is
    refused and changes nothing.  What [set_user_data] stores for a live session
    is what [user_data] returns, and no other session's data changes. *)
Theorem peer_handles peer call w :
  peer_call_ok call →
  run_handle (mkPeerHandle true peer) call w = run_peer peer call w ∧
  refused (run_handle (mkPeerHandle false peer) call) w ∧
  (peer_session peer (sw_server w) = None → refused (run_handle (mkPeerHandle true peer) call) w) ∧
  (∀ d, is_Some (peer_session peer (sw_server w)) → ∃ w',
     peer_set_user_data (mkPeerHandle true peer) d w = (Done tt, w') ∧
     handle_user_data (mkPeerHandle true peer) (sw_server w') = d ∧
     ∀ other, peer_conn_id other ≠ peer_conn_id peer →
       handle_user_data (mkPeerHandle true other) (sw_server w') =
       handle_user_data (mkPeerHandle true other) (sw_server w)).
Proof.
  intros Hok. split_and!.
  - by rewrite run_handle_bound.
  - apply run_handle_unbound.
  - intros Hp. rewrite run_handle_bound. by apply run_peer_stale.
  - intros d [s Hs]. eexists. split; [exact (set_user_data_run peer d w s Hs)|].
    unfold handle_user_data, peer_user_data, peer_session, find_session, mbind, option_bind.
    cbn [ph_owner ph_peer sw_server]. sfields. split.
    + rewrite lookup_insert_eq. sfields.
      unfold peer_session, find_session, mbind, option_bind in Hs.
      destruct (s_sessions (sw_server w) !! peer_conn_id peer) as [s'|]; [|done].
      destruct (ep_eqb _ _) eqn:He; [|done]. injection Hs as ->. by rewrite He.
    + intros other Hne. by rewrite lookup_insert_ne.
Qed.
End properties.

(** *** Traversal *)

Definition is_established (s : PeerSession) : Prop := ps_state s = ConnectionState.Established.
#[global] Instance is_established_dec s : Decision (is_established s).
Proof. unfold is_established. apply _. Defined.

(** The log after [e] was reported for each of [peers]. *)
Definition reported (e : Peer → ServerEvent) (peers : list Peer) (w : ServerWorld) : ServerWorld :=
  mkServerWorld (sw_server w) (sw_net w) (reverse (e <$> peers) ++ sw_events w).

Lemma for_each_loop_run e ids ss w :
  Forall2 (λ id s, s_sessions (sw_server w) !! id = Some s) ids ss →
  for_each_loop ids (λ p, report (e p)) w =
    (Done tt, reported e (make_peer <$> filter is_established ss) w).
Proof.
  intros H. remember (s_sessions (sw_server w)) as m eqn:Hm. revert w Hm.
  induction H as [|id s ids ss Hs _ IH]; intros w Hm; [by destruct w|].
  cbn [for_each_loop]. unfold session, mbind, io_bind. rewrite <-Hm, Hs. unfold when.
  rewrite filter_cons. case_bool_decide as Hst.
  - rewrite decide_True by done. unfold report. rewrite IH by done. unfold reported.
    cbn [sw_server sw_net sw_events fmap list_fmap]. by rewrite reverse_cons, <-app_assoc.
  - rewrite decide_False by done. cbn. by apply IH.
Qed.

Lemma traversal_sessions `{TraversalLaws} (m : gmap U64 PeerSession) :
  ∃ ss, Forall2 (λ id s, m !! id = Some s) (traversal m) ss ∧ ss ≡ₚ (map_to_list m).*2.
Proof.
  assert (∀ l, (∀ id s, (id, s) ∈ l → m !! id = Some s) →
    Forall2 (λ id s, m !! id = Some s) l.*1 l.*2) as Hall.
  { intros l Hl. induction l as [|[id s] l IH]; constructor; [apply Hl; left|].
    apply IH. intros. apply Hl. by right. }
  pose proof (Hall (map_to_list m) (λ id s, proj1 (elem_of_map_to_list m id s))) as H2.
  destruct (Permutation_Forall2 (symmetry (traversal_keys m)) H2) as (ss & Hss & Hf). by exists ss.
Qed.

(** [for_each_peer] calls the function for every established session, once
    each, and for nothing else; the order is the table's. *)
Theorem for_each_peer_visits {HT : Traversal} {HTL : TraversalLaws} e w :
  ∃ peers, for_each_peer (Some (λ p, report (e p))) w = (Done tt, reported e peers w) ∧
    peers ≡ₚ make_peer <$> filter is_established (map_to_list (s_sessions (sw_server w))).*2.
Proof.
  destruct (traversal_sessions (s_sessions (sw_server w))) as (ss & Hall & Hss).
  exists (make_peer <$> filter is_established ss). split; [|by rewrite Hss].
  exact (for_each_loop_run e _ ss w Hall).
Qed.

Lemma server_call_safe {HR : Resolver} {HRL : ResolverLaws} {HN : Ntop} {HS : Sodium} {HL : SodiumLaws}
    {HT : Traversal} {HTL : TraversalLaws} startup runtime
    (Hs : si_status (new_SocketInit startup) = success) cfg call w :
  server_usable cfg → server_reachable cfg w → server_call_ok call →
  (run_server_call startup runtime call w).1 ≠ UB ∧
  server_reachable cfg (run_server_call startup runtime call w).2.
Proof.
  intros Hu Hr Hok. destruct (run_server_call_one_op startup runtime call w Hok Hs) as [[op ->]|[rc ->]]; [|done].
  split; [|by apply SReachOp]. destruct (server_reachable_inv cfg w Hu Hr) as [k Hk].
  pose proof (run_server_safe cfg k op Hu w Hk) as Hsafe. unfold wp in Hsafe.
  by destruct (run_server op w) as [[]].
Qed.

(** C21: the whole public interface is safe.  With a usable configuration, from
    every state a server can reach and for all arguments a caller may pass, each
    of the calls of [class Server] and [Server::Peer] ends without undefined
    behaviour in a state that the operations of the core reach as well; it is one
    such operation or it is refused without any effect.  The theorems on runs of
    the server therefore hold for any use of the interface. *)
Theorem server_api_safe {HR : Resolver} {HRL : ResolverLaws} {HN : Ntop} {HS : Sodium} {HL : SodiumLaws}
    {HT : Traversal} {HTL : TraversalLaws} cfg startup runtime call w :
  server_usable cfg → si_status (new_SocketInit startup) = success → server_reachable cfg w →
  server_call_ok call →
  let '(result, w') := run_server_call startup runtime call w in
  result ≠ UB ∧ server_reachable cfg w' ∧
  ((∃ op, (result, w') = run_server op w) ∨ (∃ rc, result = Err rc ∧ w' = w)).
Proof.
  intros Hu Hs Hr Hok.
  destruct (server_call_safe startup runtime Hs cfg call w Hu Hr Hok) as [Hub Hr'].
  pose proof (run_server_call_one_op startup runtime call w Hok Hs) as Hone. unfold one_srv_op in Hone.
  destruct (run_server_call startup runtime call w) as [result w']. split_and!; [exact Hub|exact Hr'|].
  destruct Hone as [[op Hop]|[rc [= -> ->]]]; [left; by exists op|right; by exists rc].
Qed.

(** ** Witnesses *)

Import Pair.
#[local] Existing Instances Names.hosts Names.hosts_laws.

(** The peer of the established session, and one with its connection id at another
    address. *)
Definition moved_peer : Peer := mkPeer (EpV4 6666 2130706433) 9 1.

Lemma peer_handles_witness :
  (∃ w', peer_set_user_data (mkPeerHandle true peer) 42 server3 = (Done tt, w') ∧
     handle_user_data (mkPeerHandle true peer) (sw_server w') = 42) ∧
  refused (run_handle (mkPeerHandle true moved_peer) (PeerClose CloseReason.Normal)) server3.
Proof.
  split.
  - destruct (proj2 (proj2 (proj2 (peer_handles peer (PeerClose CloseReason.Normal) server3 I))) 42)
      as (w' & Hset & Hget & _); [by apply (bool_decide_unpack _); vm_compute|].
    exists w'. split; [exact Hset|exact Hget].
  - apply (proj1 (proj2 (proj2 (peer_handles moved_peer (PeerClose CloseReason.Normal) server3 I)))).
    vm_compute. reflexivity.
Defined.

Lemma server_api_safe_witness :
  let '(result, w') := run_server_call None success
    (SrvCallHandle (mkPeerHandle true peer) (PeerSendReliableText 7 [72; 105] SendPriority.High 500)) server3 in
  result = Done tt ∧ server_reachable default_server w'.
Proof.
  pose proof (server_api_safe default_server None success
    (SrvCallHandle (mkPeerHandle true peer) (PeerSendReliableText 7 [72; 105] SendPriority.High 500)) server3
    server_default_usable eq_refl server3_reachable I) as H.
  destruct (run_server_call _ _ _ _) as [result w'] eqn:Hrun. split; [|exact (proj1 (proj2 H))].
  change result with (result, w').1. rewrite <-Hrun. vm_compute. reflexivity.
Defined.
