(* ===== verification/StateSync.v ===== *)
(** * The state synchronisation example

    [examples/state_sync_example.cpp] on top of the library: a server that
    publishes a moving state to its subscriber every 100 ms on the sequenced
    channel and a client that decodes what it gets.  The loops around [tick] that
    print and sleep are left out; one turn of the server's loop is
    [server_step]. *)
From S2P Require Import Prelude Result Hoare ByteBuf Config Message Packet Protocol Windows Payloads.
From S2P Require Import Reliability Ordered Fragmentation Congestion Crypto Stats Endpoint Socket.
From S2P Require Import Client ClientRecv ClientInv ClientSafe Server ServerSend ServerRecv ServerInv.
From S2P Require Import ServerSafe ServerSafeRecv ServerAdmit ServerLoop ClientProps ServerProps ServerAuth.
From S2P Require Import Sealing ServerTx Deliver ClientDeliver EndToEnd Downlink ServerApi.
#[local] Open Scope Z_scope.

Definition kSubscribeType : U8 := 21.
Definition kStateType : U8 := 22.

(** ** The state *)

Record StateSnapshot := mkSnapshot {
  sn_tick : U32;
  sn_x_mm : U32;
  sn_y_mm : U32;
  sn_vx_mm_per_tick : U32;
  sn_vy_mm_per_tick : U32;
}.

Definition encode_state (s : StateSnapshot) : io ByteWriter unit :=
  write_u32 (sn_tick s);;
  write_u32 (sn_x_mm s);;
  write_u32 (sn_y_mm s);;
  write_u32 (sn_vx_mm_per_tick s);;
  write_u32 (sn_vy_mm_per_tick s).

Definition decode_state : io ByteReader StateSnapshot :=
  tick ← read_u32;
  x ← read_u32;
  y ← read_u32;
  vx ← read_u32;
  vy ← read_u32;
  expect_end "extra bytes in state snapshot";;
  mret (mkSnapshot tick x y vx vy).

(** [snapshot.tick += 1; snapshot.x_mm += ...] *)
Definition advance_snapshot (s : StateSnapshot) : StateSnapshot :=
  mkSnapshot (w32 (sn_tick s + 1)) (w32 (sn_x_mm s + sn_vx_mm_per_tick s))
    (w32 (sn_y_mm s + sn_vy_mm_per_tick s)) (sn_vx_mm_per_tick s) (sn_vy_mm_per_tick s).

(** ** The server *)

(** The local variables of [run_server]; the clock is in milliseconds. *)
Record SyncServer := mkSyncServer {
  sy_subscriber : PeerHandle;
  sy_have_subscriber : bool;
  sy_next_send : Z;
  sy_snapshot : StateSnapshot;
}.

(** [Server::Peer{}] *)
Definition unbound_peer : PeerHandle := mkPeerHandle false (mkPeer EpNone 0 0).
Definition initial_sync (now : Z) : SyncServer :=
  mkSyncServer unbound_peer false now (mkSnapshot 0 0 0 125 40).

(** The [on_message] callback. *)
Definition on_subscribe (peer : Peer) (m : MsgView) (st : SyncServer) : SyncServer :=
  if m_type m =? kSubscribeType
  then mkSyncServer (mkPeerHandle true peer) true (sy_next_send st) (sy_snapshot st) else st.

(** The calls of the callback during a tick, from the log (newest first). *)
Definition observe (log : list ServerEvent) (st : SyncServer) : SyncServer :=
  foldr (λ e st, match e with SrvOnMessage peer m => on_subscribe peer m st | _ => st end) st log.

Section example.
Context {HN : Ntop} {HS : Sodium} {HT : Traversal}.

Definition publish (now : Z) (st : SyncServer) : io ServerWorld SyncServer :=
  if sy_have_subscriber st && (sy_next_send st <=? now) then
    let snapshot := advance_snapshot (sy_snapshot st) in
    payload ← lift (write_to 32 (encode_state snapshot));
    send_rc ← attempt (peer_send (sy_subscriber st)
      (mkSendOptions Channel.SequencedUnreliable SendPriority.Normal 0) kStateType payload);
    if negb (ok send_rc)
       && (bool_decide (code send_rc = Errc.Closed) || bool_decide (code send_rc = Errc.StateError))
    then mret (mkSyncServer unbound_peer false (now + 100) snapshot)
    else mret (mkSyncServer (sy_subscriber st) (sy_have_subscriber st) (now + 100) snapshot)
  else mret st.

(** One turn of the loop. *)
Definition server_step (now : Z) (st : SyncServer) : io ServerWorld SyncServer := λ w,
  match srv_tick w with
  | (Done _, w') =>
      publish now (observe (take (length (sw_events w') - length (sw_events w)) (sw_events w')) st) w'
  | (Err rc, w') => (Err rc, w')
  | (UB, w') => (UB, w')
  end.
End example.

(** ** The client *)

(** The callback of [run_client]; [shown] are the states printed so far, newest
    first, so its length is [updates]. *)
Definition on_state (m : MsgView) (shown : list StateSnapshot) : outcome (list StateSnapshot) :=
  if negb (m_type m =? kStateType) then Done shown
  else match read_from (m_data m) (m_len m) decode_state with
       | Done s => Done (s :: shown)
       | Err _ => Done shown
       | UB => UB
       end.

(** What the callback shows for a log of the client's events. *)
Fixpoint shown_of (log : list Event) : outcome (list StateSnapshot) :=
  match log with
  | [] => Done []
  | OnMessage m :: rest => outcome_bind (shown_of rest) (on_state m)
  | _ :: rest => shown_of rest
  end.

(** ** The wire format *)

Definition enc_state (s : StateSnapshot) : list U8 :=
  be 4 (sn_tick s) ++ be 4 (sn_x_mm s) ++ be 4 (sn_y_mm s) ++ be 4 (sn_vx_mm_per_tick s)
  ++ be 4 (sn_vy_mm_per_tick s).
Definition snapshot_ok (s : StateSnapshot) : Prop :=
  is_u32 (sn_tick s) ∧ is_u32 (sn_x_mm s) ∧ is_u32 (sn_y_mm s) ∧ is_u32 (sn_vx_mm_per_tick s) ∧
  is_u32 (sn_vy_mm_per_tick s).

Lemma enc_state_length s : length (enc_state s) = 20%nat.
Proof. unfold enc_state. by rewrite !length_app, !length_be. Qed.
Lemma enc_state_ok s : bytes_ok (enc_state s).
Proof. unfold enc_state. repeat apply bytes_ok_app; apply be_ok. Qed.

#[global] Instance state_frame : WireFrame encode_state decode_state enc_state snapshot_ok.
Proof.
  split.
  - intros s out rest (H1 & H2 & H3 & H4 & H5) Hlen. rewrite enc_state_length in *.
    unfold encode_state, enc_state. do 4 wput. wput_last.
    by rewrite <- !app_assoc, !drop_drop, !length_be.
  - intros s pre (H1 & H2 & H3 & H4 & H5). unfold decode_state, enc_state.
    rewrite <- (app_nil_r (be 4 (sn_vy_mm_per_tick s))). do 5 wget.
    erewrite bind_done by apply expect_end_at. unfold mret, io_ret. rewrite <- !app_assoc. by destruct s.
  - intros s pre rest r' Hok H. unfold decode_state in H. do 5 wcanon H Hok. inv_done H.
    match goal with He : expect_end _ _ = _ |- _ => apply expect_end_inv in He as [-> ->] end.
    unfold mret, io_ret in H. injection H as <- <-. rewrite app_nil_r. unfold enc_state. done.
Qed.

Lemma encode_state_done s : snapshot_ok s → write_to 32 (encode_state s) = Done (enc_state s).
Proof.
  intros Hs. apply write_to_at.
  - intros rest Hr. eexists. by apply (frame_put (wr := encode_state) (rd := decode_state) (enc := enc_state) (valid := snapshot_ok) s []).
  - rewrite enc_state_length. lia.
Qed.

Lemma advance_snapshot_ok s : snapshot_ok s → snapshot_ok (advance_snapshot s).
Proof. intros (_ & _ & _ & H4 & H5). split_and!; try apply w32_range; assumption. Qed.

(** The client shows a state that was encoded. *)
Lemma on_state_encoded s shown :
  snapshot_ok s → on_state (msg_view Channel.SequencedUnreliable kStateType (enc_state s)) shown = Done (s :: shown).
Proof.
  intros Hs. unfold on_state. cbn [msg_view m_type m_data m_len]. rewrite Z.eqb_refl. cbn [negb].
  assert (data_of (enc_state s) = Some (enc_state s)) as ->.
  { unfold data_of. rewrite decide_False; [done|]. intros He%(f_equal length). by rewrite enc_state_length in He. }
  unfold read_from. change (mkReader (Some (enc_state s)) _ 0) with (reader_at [] (enc_state s)).
  by rewrite (frame_get (rd := decode_state)).
Qed.

Lemma shown_heard log : shown_of (heard log) = shown_of log.
Proof.
  induction log as [|e log IH]; [done|]. destruct (is_message e) eqn:He.
  - unfold heard. rewrite filter_cons_True by exact He. fold (heard log). destruct e; cbn [shown_of]; by rewrite ?IH.
  - rewrite heard_skip by exact He. rewrite IH. by destruct e.
Qed.

Lemma shown_message cb m log :
  cb_on_message cb = true → shown_of (message_events cb m ++ log) = outcome_bind (shown_of log) (on_state m).
Proof. intros Hcb. unfold message_events. rewrite Hcb. do 2 case_match; reflexivity. Qed.

(** ** One update, from the server's loop to the client's callback *)

Section update.
Context {HN : Ntop} {HS : Sodium} {HL : SodiumLaws} {HT : Traversal} {HTL : TraversalLaws}.
#[local] Abbreviation sequenced := Channel.SequencedUnreliable.

(** When an update is due and the subscriber is connected, the server queues one
    packet for it and schedules the next update; a client that handles the packet
    shows exactly the new state of the server. *)
Theorem state_update_delivered scfg ccfg sw cw s now st shown :
  let c := w_client cw in let v := sw_server sw in
  server_usable scfg → server_reachable scfg sw → client_usable ccfg → reachable ccfg cw →
  s_sessions v !! ps_conn_id s = Some s → ps_state s = ConnectionState.Established →
  is_u64 (ps_next_sequenced_sequence s) → ps_next_sequenced_sequence s ≠ 0 →
  zlen (s_pending v) < server_max_pending_packets (s_config v) → attached s c →
  in_turn (crx_windows c) sequenced (ps_next_sequenced_sequence s) →
  sy_subscriber st = mkPeerHandle true (make_peer s) → sy_have_subscriber st = true → sy_next_send st <= now →
  snapshot_ok (sy_snapshot st) → cb_on_message (c_callbacks c) = true → shown_of (w_events cw) = Done shown →
  let next := advance_snapshot (sy_snapshot st) in
  ∃ sw' sp p cw',
    publish now st sw = (Done (mkSyncServer (sy_subscriber st) true (now + 100) next), sw') ∧
    s_pending (sw_server sw') = insert_packet sp (s_pending v) ∧ sp_to sp = ps_endpoint s ∧
    parse_packet (Some (take (Z.to_nat (sp_len sp)) (sp_bytes sp))) (sp_len sp) = Done p ∧
    handle_packet p cw = (Done tt, cw') ∧ shown_of (w_events cw') = Done (next :: shown).
Proof.
  intros c v Hsu [k1 Hsw]%server_reachable_inv Hcu [k2 Hcw]%reachable_inv Hs Hst Hq Hq0 Hroom Hat Hturn; [|done..].
  intros Hsub Hhave Hdue Hok Hcb Hshown next. pose proof (advance_snapshot_ok _ Hok) as Hnext.
  destruct (reply_arrives k1 scfg k2 sw cw (mkSendOptions sequenced SendPriority.Normal 0) kStateType
    (enc_state next) s Hsw Hcw Hs) as (sw' & sp & p & cw' & Hrun & Hpend & Hto & Hparse & Hhandle & Hheard).
  - split; cbn [so_channel]; [exact Hst|reflexivity|unfold kStateType; split; lia|apply enc_state_ok| |split; done|done].
    rewrite enc_state_length. vm_compute. discriminate.
  - exact Hroom.
  - exact Hat.
  - exact I.
  - exact Hturn.
  - intros [=].
  - exists sw', sp, p, cw'. split_and!; try assumption.
    + unfold publish. rewrite Hhave, (proj2 (Z.leb_le _ _) Hdue). cbv zeta. cbn [andb]. fold next.
      rewrite encode_state_done by exact Hnext. unfold mbind, io_bind, lift, attempt, peer_send, owned.
      rewrite Hsub. cbn [ph_owner ph_peer negb]. rewrite Hrun. reflexivity.
    + rewrite <- shown_heard, Hheard, shown_message by exact Hcb. rewrite shown_heard, Hshown. cbn [outcome_bind].
      by apply on_state_encoded.
Qed.

(** When the subscriber's session is gone or is closing, the server forgets the
    subscriber; nothing is sent and the library's state is as before. *)
Theorem subscriber_lost sw peer now st :
  let v := sw_server sw in
  sy_subscriber st = mkPeerHandle true peer → sy_have_subscriber st = true → sy_next_send st <= now →
  snapshot_ok (sy_snapshot st) →
  (∀ s, peer_session peer v = Some s → ps_state s ≠ ConnectionState.Established) →
  publish now st sw = (Done (mkSyncServer unbound_peer false (now + 100) (advance_snapshot (sy_snapshot st))), sw).
Proof.
  intros v Hsub Hhave Hdue Hok Hgone. unfold publish. rewrite Hhave, (proj2 (Z.leb_le _ _) Hdue). cbv zeta.
  cbn [andb]. rewrite encode_state_done by (by apply advance_snapshot_ok).
  unfold mbind, io_bind, lift, attempt, peer_send, owned. rewrite Hsub. cbn [ph_owner ph_peer negb].
  unfold srv_send. unfold mbind, io_bind, srv. fold v. destruct (peer_session peer v) as [s|] eqn:Hp; [|reflexivity].
  rewrite bool_decide_eq_false_2 by (by apply Hgone). reflexivity.
Qed.
End update.

(** ** Witnesses *)

Import Pair.

Definition subscribed : SyncServer :=
  observe [SrvOnMessage (make_peer session9) (msg_view Channel.Reliable kSubscribeType [])] (initial_sync 5000).

Lemma state_update_delivered_witness :
  ∃ sw' sp p cw',
    publish 5000 subscribed server3 =
      (Done (mkSyncServer (mkPeerHandle true (make_peer session9)) true 5100 (mkSnapshot 1 125 40 125 40)), sw') ∧
    s_pending (sw_server sw') = insert_packet sp (s_pending (sw_server server3)) ∧ sp_to sp = ps_endpoint session9 ∧
    parse_packet (Some (take (Z.to_nat (sp_len sp)) (sp_bytes sp))) (sp_len sp) = Done p ∧
    handle_packet p client3 = (Done tt, cw') ∧ shown_of (w_events cw') = Done [mkSnapshot 1 125 40 125 40].
Proof.
  apply (state_update_delivered default_server default_client server3 client3 session9 5000 subscribed []
    server_default_usable server3_reachable Example.client_default_usable client3_reachable).
  - vm_compute. reflexivity.
  - vm_compute. reflexivity.
  - apply (bool_decide_unpack _). vm_compute. exact I.
  - vm_compute. discriminate.
  - vm_compute. reflexivity.
  - split; [vm_compute; reflexivity..| |].
    + split; vm_compute; reflexivity.
    + split; vm_compute; [discriminate|reflexivity].
  - vm_compute. reflexivity.
  - reflexivity.
  - reflexivity.
  - vm_compute. discriminate.
  - split_and!; apply (bool_decide_unpack _); vm_compute; exact I.
  - vm_compute. reflexivity.
  - vm_compute. reflexivity.
Defined.

Lemma subscriber_lost_witness :
  publish 5000 (observe [SrvOnMessage moved_peer (msg_view Channel.Reliable kSubscribeType [])] (initial_sync 4000)) server3 =
    (Done (mkSyncServer unbound_peer false 5100 (mkSnapshot 1 125 40 125 40)), server3).
Proof.
  apply (subscriber_lost server3 moved_peer 5000
    (observe [SrvOnMessage moved_peer (msg_view Channel.Reliable kSubscribeType [])] (initial_sync 4000))).
  - reflexivity.
  - reflexivity.
  - vm_compute. discriminate.
  - split_and!; apply (bool_decide_unpack _); vm_compute; exact I.
  - intros s Hs. vm_compute in Hs. discriminate Hs.
Defined.
