(* ===== verification/Async.v ===== *)
(** * The asynchronous facades

    [src/securecnet/include/securecnet/async.hpp] and the [post_task] of
    [io_context.hpp]: [AsyncClient] and [AsyncServer] own an I/O context and a
    client or a server that is registered with it; their calls start the worker
    thread of the context, post a task to it and return a future.

    One user thread calls the facade, and interleaves with the worker as in
    [IoContext.v]; what a task or a poll of the service does is the code of
    [ClientApi.v] and [ServerApi.v]. *)
From S2P Require Import Prelude Result IoContext.
#[local] Open Scope Z_scope.

(** ** What a facade runs

    [C] are the calls of the facade and [W] is the world of the object it owns:
    the task of a call, the [context_poll] of the object, whether the call
    starts the worker before it posts. *)
Class AsyncService (W C : Type) := {
  task_body : C → io W unit;
  service_poll : io W unit;
  starts_worker : C → bool;
}.

(** What the facade relies on: an invariant of the object, which its calls and its
    polls keep and under which they are defined, and what may happen to the
    object's world between them. *)
Class AsyncServiceLaws (W C : Type) `{AsyncService W C} (inv : W → Prop) (env : W → W → Prop) : Prop := {
  task_body_ok c w : inv w → (task_body c w).1 ≠ UB ∧ inv (task_body c w).2;
  service_poll_ok w : inv w → (service_poll w).1 ≠ UB ∧ inv (service_poll w).2;
  env_ok w w' : inv w → env w w' → inv w';
}.

(** [std::future<Result>]: waiting, a value, or an exception. *)
Inductive future : Type :=
  | Waiting
  | Ready (rc : Result)
  | Broken (message : string).

(** What the user thread is doing in the facade: the call with this ticket waits
    for [start], or [stop] waits for [join]. *)
Inductive user_place : Type :=
  | Idle
  | Starting (ticket : nat)
  | Stopping.

Section facade.
Context {W C : Type} `{Hsvc : AsyncService W C}.

(** [AsyncClient] and [AsyncServer].  Every call has a ticket, the index of its
    task and of its future; the callback posted for it has the ticket as its
    name. *)
Record Async := mkAsync {
  as_io : IoContext;
  as_object : W;
  as_started : bool;
  as_tasks : list C;
  as_futures : list future;
  as_user : user_place;
}.

Definition with_io (io : IoContext) (s : Async) : Async :=
  mkAsync io (as_object s) (as_started s) (as_tasks s) (as_futures s) (as_user s).
Definition with_user (u : user_place) (s : Async) : Async :=
  mkAsync (as_io s) (as_object s) (as_started s) (as_tasks s) (as_futures s) u.
Definition with_started (b : bool) (s : Async) : Async :=
  mkAsync (as_io s) (as_object s) b (as_tasks s) (as_futures s) (as_user s).
Definition with_object (w : W) (s : Async) : Async :=
  mkAsync (as_io s) w (as_started s) (as_tasks s) (as_futures s) (as_user s).

(** A new ticket: the [std::promise] of the call and its future. *)
Definition new_ticket (c : C) (s : Async) : nat * Async :=
  (length (as_futures s),
   mkAsync (as_io s) (as_object s) (as_started s) (as_tasks s ++ [c]) (as_futures s ++ [Waiting])
     (as_user s)).

(** [promise.set_value], [promise.set_exception]: a second one throws. *)
Definition settle (n : nat) (f : future) (s : Async) : option Async :=
  match as_futures s !! n with
  | Some Waiting =>
      Some (mkAsync (as_io s) (as_object s) (as_started s) (as_tasks s) (<[n := f]> (as_futures s))
              (as_user s))
  | _ => None
  end.

(** [IoContext::post_task] *)
Definition post_task (n : nat) (s : Async) : option Async :=
  let '(rc, io) := try_post (Some n) (as_io s) in
  let s := with_io io s in
  if negb (ok rc) then settle n (Broken "IoContext post_task failed") s else Some s.

(** A call of the facade up to the point where it returns or waits: [start] and
    [post_task]. *)
Definition begin_call (c : C) (s : Async) : option Async :=
  let '(n, s) := new_ticket c s in
  if starts_worker c && negb (as_started s)
  then Some (with_user (Starting n) (with_io (at_place 0 AsyncEnter (as_io s)) s))
  else post_task n s.

(** [run_async] has returned to the call with ticket [n]. *)
Definition start_returns (n : nat) (rc : Result) (s : Async) : option Async :=
  let s := with_user Idle s in
  if negb (ok rc) then settle n (Ready rc) s
  else post_task n (with_started true s).

(** [stop]: [_io.stop()], then [_io.join()]. *)
Definition begin_stop (s : Async) : Async :=
  with_user Stopping (with_io (at_place 0 JoinEnter (io_stop (as_io s))) s).

(** The posted callback with ticket [n]: the task, then its promise. *)
Definition run_task (n : nat) (s : Async) : option Async :=
  c ← as_tasks s !! n;
  let '(o, w) := task_body c (as_object s) in
  rc ← result_of o;
  settle n (Ready rc) (with_object w s).

(** One step of a thread inside the context.  A task catches what its body
    throws, so a callback never throws here. *)
Definition thread_step (t : thread) (d : choice) (s : Async) : option Async :=
  match io_threads (as_io s) !! t, d with
  | Some (Calling n _ _), Go =>
      s ← run_task n s;
      io ← advance t Go (as_io s);
      Some (with_io io s)
  | Some (Calling _ _ _), _ => None
  | Some (Polling (_ :: _) _), Go =>
      let '(o, w) := service_poll (as_object s) in
      rc ← result_of o;
      io ← advance t (Answer rc) (as_io s);
      Some (with_io io (with_object w s))
  | Some (Polling (_ :: _) _), _ => None
  | _, _ => io ← advance t d (as_io s); Some (with_io io s)
  end.

Inductive async_label : Type :=
  | UserCalls (c : C)
  | UserStops
  | UserReturns
  | Thread (t : thread) (d : choice)
  | Environment (w : W).

Definition async_step (l : async_label) (s : Async) : option Async :=
  match l, as_user s with
  | UserCalls c, Idle => begin_call c s
  | UserStops, Idle => Some (begin_stop s)
  | UserReturns, Starting n =>
      match io_threads (as_io s) !! 0%nat with
      | Some (Returned rc) => start_returns n rc s
      | _ => None
      end
  | UserReturns, Stopping =>
      match io_threads (as_io s) !! 0%nat with
      | Some (Returned _) => Some (with_user Idle (with_started false s))
      | _ => None
      end
  | Thread t d, _ => thread_step t d s
  | Environment w, _ => Some (with_object w s)
  | _, _ => None
  end.

(** [AsyncClient(config)]: the object is the one service of the context. *)
Definition new_async (config : IoContextConfig) (runtime : Result) (w : W) : Async :=
  mkAsync (register_service 0 (new_io config runtime)) w false [] [] Idle.

(** What can happen: a step, the environment within its bounds. *)
Definition allowed (env : W → W → Prop) (l : async_label) (s : Async) : Prop :=
  match l with Environment w => env (as_object s) w | _ => True end.

Inductive async_reachable (config : IoContextConfig) (runtime : Result) (env : W → W → Prop) (w : W)
    : Async → Prop :=
  | AsyncNew : async_reachable config runtime env w (new_async config runtime w)
  | AsyncStep l s s' :
      async_reachable config runtime env w s → allowed env l s → async_step l s = Some s' →
      async_reachable config runtime env w s'.
End facade.
Arguments Async : clear implicits.
Arguments async_label : clear implicits.

(** ** The sequential specification

    The object sees one thing at a time: calls, with the tickets and the results
    of their futures, and polls, newest first. *)
Inductive entry (C : Type) : Type :=
  | Ran (n : nat) (c : C) (rc : Result)
  | Polled (rc : Result).
Arguments Ran {C} n c rc.
Arguments Polled {C} rc.

(** The tickets of the calls in [tr], oldest first. *)
Fixpoint ran {C} (tr : list (entry C)) : list nat :=
  match tr with
  | [] => []
  | Ran n _ _ :: tr => ran tr ++ [n]
  | Polled _ :: tr => ran tr
  end.

Lemma elem_of_ran {C} n (tr : list (entry C)) : n ∈ ran tr ↔ ∃ c rc, Ran n c rc ∈ tr.
Proof.
  induction tr as [|[m c rc|rc] tr IH]; cbn [ran]; [set_solver|rewrite elem_of_app|]; rewrite IH; set_solver.
Qed.

Section sequential.
Context {W C : Type} `{Hsvc : AsyncService W C} (env : W → W → Prop) (w0 : W).

Inductive sequential : list (entry C) → W → Prop :=
  | SeqNew : sequential [] w0
  | SeqRan n c rc tr w o w' :
      sequential tr w → task_body c w = (o, w') → result_of o = Some rc →
      sequential (Ran n c rc :: tr) w'
  | SeqPolled rc tr w o w' :
      sequential tr w → service_poll w = (o, w') → result_of o = Some rc →
      sequential (Polled rc :: tr) w'
  | SeqEnv tr w w' : sequential tr w → env w w' → sequential tr w'.

Lemma sequential_inv `{!AsyncServiceLaws W C inv env} tr w : inv w0 → sequential tr w → inv w.
Proof.
  intros H0. induction 1 as [|n c rc tr w o w' _ IH Hrun _|rc tr w o w' _ IH Hrun _|tr w w' _ IH He].
  - done.
  - destruct (task_body_ok c w IH) as [_ Hi]. by rewrite Hrun in Hi.
  - destruct (service_poll_ok w IH) as [_ Hi]. by rewrite Hrun in Hi.
  - exact (env_ok w w' IH He).
Qed.
End sequential.

(** ** What a step of the context does *)

(** Thread 0 is the user's; every other thread is a worker. *)
Definition place_ok (t : thread) (p : place) : Prop :=
  match p with
  | Returned _ => True
  | AsyncEnter | AsyncSpawn | AsyncAssign _ | AsyncWait | JoinEnter | Joining _ | JoinRead => t = 0%nat
  | RunEnter Worker | LoopTop Worker | LoopBottom Worker | RunExit Worker _ | WorkerExit _ => t ≠ 0%nat
  | Draining _ c | Taken _ _ c | Calling _ _ c | PollCopy c | Polling _ c => t ≠ 0%nat ∧ c = Some Worker
  | RunEnter _ | LoopTop _ | LoopBottom _ | RunExit _ _ | DestroyEnter | DestroyJoin | DestroyWait _ => False
  end.
Definition places_ok (io : IoContext) : Prop := ∀ t p, io_threads io !! t = Some p → place_ok t p.

Lemma places_insert t p io : places_ok io → place_ok t p → places_ok (at_place t p io).
Proof. intros H Hp u q. cbn. intros [[<- <-]|[_ Hq]]%lookup_insert_Some; [done|by apply H]. Qed.

Lemma poll_returns_ok t rc : t ≠ 0%nat → place_ok t (poll_returns (Some Worker) rc).
Proof. intros Ht. cbn. by destruct (ok rc). Qed.

Lemma advance_places t d io io' : places_ok io → advance t d io = Some io' → places_ok io'.
Proof.
  intros Hio. unfold advance. destruct (io_threads io !! t) as [p|] eqn:Hp; [cbn [mbind option_bind]|done].
  pose proof (Hio _ _ Hp) as Hplace.
  assert (∀ q io1, io_threads io1 = io_threads io → place_ok t q → places_ok (at_place t q io1)) as Hmove.
  { intros q io1 Heq Hq. apply places_insert; [|done]. unfold places_ok. by rewrite Heq. }
  destruct p as [[| |]|[| |]|last c|cb last c|cb last c|c|[|v vs] c|[| |]|[| |] rc|rc| | |u| | |u| | | |u|rc];
    cbn [place_ok] in Hplace; try done; 
    try match type of Hplace with _ ∧ _ => destruct Hplace as [Hplace ->] end; destruct d; try done.
  all: try (intros [= <-]; unfold poll_begins; repeat case_match; apply Hmove; try done;
    by apply poll_returns_ok).
  - case_decide as Hw; [|done]. intros [= <-].
    apply places_insert; [|done]. apply places_insert; [done|]. cbn. congruence.
  - intros [= <-]. case_match; [done|by apply Hmove].
  - case_match; [|done]. intros [= <-]. by apply Hmove.
  - repeat case_match; try done. intros [= <-]. by apply Hmove.
Qed.

(** The callback that a thread took from the queue and has not finished. *)
Definition holds (p : place) : option callback :=
  match p with Taken cb _ _ | Calling cb _ _ => Some cb | _ => None end.
Definition held (io : IoContext) (t : thread) : option callback := io_threads io !! t ≫= holds.

(** No thread has a callback, or the one that has is [cb]'s. *)
Definition in_callback (io : IoContext) (cb : callback) : Prop := ∃ t, held io t = Some cb.
Definition calls (io : IoContext) (cs : list callback) : Prop :=
  (cs = [] ∧ ∀ cb, ¬ in_callback io cb) ∨ (∃ cb, cs = [cb] ∧ in_callback io cb).

(** The same queue and the same callbacks in execution. *)
Definition same_queue (io io' : IoContext) : Prop :=
  io_accepted io' = io_accepted io ∧ io_taken io' = io_taken io ∧ io_posted io' = io_posted io ∧
  ∀ t, held io' t = held io t.

Definition is_calling (p : place) : bool := match p with Calling _ _ _ => true | _ => false end.

Lemma same_queue_move t q io1 io :
  io_threads io1 = io_threads io → io_accepted io1 = io_accepted io → io_taken io1 = io_taken io →
  io_posted io1 = io_posted io → held io t = holds q → same_queue io (at_place t q io1).
Proof.
  intros H1 H2 H3 H4 Hq. split_and!; [done..|]. intros u. unfold held in *. cbn. rewrite H1.
  destruct (decide (u = t)) as [->|Hne]; [by rewrite lookup_insert_eq|by rewrite lookup_insert_ne].
Qed.

Lemma poll_returns_holds c rc : holds (poll_returns c rc) = None.
Proof. destruct c; [|done]. cbn. by destruct (ok rc). Qed.
Lemma run_returns_holds k rc : holds (run_returns k rc) = None.
Proof. by destruct k. Qed.

(** A thread that is not in a callback leaves the queue alone, or takes its front. *)
Lemma advance_queue t d p io io' :
  io_threads io !! t = Some p → is_calling p = false → advance t d io = Some io' →
  same_queue io io' ∨
  ∃ cb rest last c, p = Draining last c ∧ io_posted io = cb :: rest ∧
    io' = at_place t (Taken cb last c) (pop_posted cb rest io).
Proof.
  intros Hp Hc. unfold advance. rewrite Hp. cbn [mbind option_bind].
  assert (∀ q io1, io_threads io1 = io_threads io → io_accepted io1 = io_accepted io →
    io_taken io1 = io_taken io → io_posted io1 = io_posted io → holds p = holds q →
    same_queue io (at_place t q io1)) as Hmove.
  { intros. apply same_queue_move; try done. unfold held. by rewrite Hp. }
  destruct p as [k|[| |]|last c|cb last c|cb last c|c|[|v vs] c|k|k rc|rc| | |u| | |u| | | |u|rc]; try done; destruct d; try done.
  all: cbn [destroy]; try (intros [= <-]; left; unfold poll_begins; repeat case_match; apply Hmove; try done;
    first [by rewrite poll_returns_holds|by rewrite run_returns_holds]).
  - intros [= <-]. destruct (io_posted io) as [|cb rest] eqn:Hq; [left|right].
    + apply Hmove; try done. destruct last; [by rewrite poll_returns_holds|done].
    + by exists cb, rest, last, c.
  - case_decide as Hw; [|done]. intros [= <-]. left. split_and!; try done.
    intros u. unfold held. cbn. destruct (decide (u = t)) as [->|Hne].
    { by rewrite lookup_insert_eq, Hp. }
    rewrite lookup_insert_ne by done. destruct (decide (u = worker)) as [->|Hne'].
    { by rewrite lookup_insert_eq, Hw. }
    by rewrite lookup_insert_ne.
  - intros [= <-]. left. case_match; [done|by apply Hmove].
  - case_match; [|done]. intros [= <-]. left. by apply Hmove.
  - repeat case_match; try done. intros [= <-]. left. by apply Hmove.
  - repeat case_match; try done. intros [= <-]. left. by apply Hmove.
Qed.

Lemma calls_same io io' cs : same_queue io io' → calls io cs → calls io' cs.
Proof.
  intros (_ & _ & _ & Hc). assert (∀ cb, in_callback io' cb ↔ in_callback io cb) as Hcb.
  { intros cb. unfold in_callback. split; intros (t & H); exists t; congruence. }
  intros [[-> H]|(cb & -> & H)]; [left|right].
  - split; [done|]. intros cb. by rewrite Hcb.
  - exists cb. by rewrite Hcb.
Qed.

(** Only the thread that runs the loop ever has a callback. *)
Lemma held_alone config io t p u cb :
  io_ok config io → places_ok io → io_threads io !! t = Some p → in_run p = true → held io u = Some cb → u = t.
Proof.
  intros Hok Hpl Hp Hin Hu. unfold held in Hu. destruct (io_threads io !! u) as [q|] eqn:Hq; [|done].
  cbn in Hu. pose proof (Hpl _ _ Hq) as Hplace.
  eapply (ik_single _ _ u t _ _ Hok Hq Hp); [|done]. destruct q; try done; by destruct Hplace as [_ ->].
Qed.

Lemma calls_unique config io t p cs :
  io_ok config io → places_ok io → io_threads io !! t = Some p → in_run p = true → calls io cs →
  cs = option_list (holds p).
Proof.
  intros Hok Hpl Hp Hin Hc. assert (held io t = holds p) as Ht by (unfold held; by rewrite Hp).
  destruct Hc as [[-> Hno]|(cb & -> & u & Hu)].
  - destruct (holds p) as [cb|] eqn:Hh; [|done]. exfalso. apply (Hno cb). by exists t.
  - rewrite (held_alone config io t p u cb Hok Hpl Hp Hin Hu) in Hu. rewrite Ht in Hu. by rewrite Hu.
Qed.

(** ** Invariant *)

Section invariant.
Context {W C : Type} `{Hsvc : AsyncService W C} (config : IoContextConfig) (env : W → W → Prop) (w0 : W).
Implicit Types (s : Async W C) (tr : list (entry C)).

Record async_ok tr s : Prop := {
  ao_io : io_ok config (as_io s);
  ao_places : places_ok (as_io s);
  ao_seq : sequential env w0 tr (as_object s);
  ao_calls : ∃ cs, calls (as_io s) cs ∧ io_taken (as_io s) = ran tr ++ cs;
  ao_tasks : length (as_tasks s) = length (as_futures s);
  ao_unique : NoDup (io_accepted (as_io s));
  ao_issued n : n ∈ io_accepted (as_io s) → (n < length (as_futures s))%nat;
  ao_ran n c rc : Ran n c rc ∈ tr →
    as_tasks s !! n = Some c ∧ as_futures s !! n = Some (Ready rc);
  ao_ready n rc : as_futures s !! n = Some (Ready rc) →
    (∃ c, Ran n c rc ∈ tr) ∨ ((n ∉ io_accepted (as_io s)) ∧ ok rc = false);
  ao_broken n m : as_futures s !! n = Some (Broken m) → n ∉ io_accepted (as_io s);
  ao_waiting n : as_futures s !! n = Some Waiting →
    n ∈ io_accepted (as_io s) ∨ as_user s = Starting n;
  ao_starting n : as_user s = Starting n →
    as_futures s !! n = Some Waiting ∧ n ∉ io_accepted (as_io s);
}.

Lemma user_outside io : places_ok io → from_option in_run false (io_threads io !! 0%nat) = false.
Proof.
  intros H. destruct (io_threads io !! 0%nat) as [p|] eqn:Hp; [|done]. specialize (H _ _ Hp).
  destruct p as [[| |]|[| |]|? ?|? ? ?|? ? ?|?|? ?|[| |]|[| |] ?|?| | |?| | |?| | | |?|?]; cbn in H; try done; by destruct H.
Qed.
Lemma user_hands io :
  places_ok io → held io 0 = None ∧ from_option in_hand_of [] (io_threads io !! 0%nat) = [].
Proof.
  intros H. unfold held. destruct (io_threads io !! 0%nat) as [p|] eqn:Hp; [|done]. specialize (H _ _ Hp).
  destruct p; cbn in H; try done; by destruct H.
Qed.

(** The context moves on without touching the queue. *)
Lemma ok_with_io tr s io :
  async_ok tr s → io_ok config io → places_ok io → same_queue (as_io s) io → async_ok tr (with_io io s).
Proof.
  intros [Hio Hpl Hseq (cs & Hcs & Hst) Ht Hu Hi Hran Hready Hbr Hw Hs] Hio' Hpl' Hq.
  pose proof Hq as (Ha & Hst' & _ & _).
  split; cbn [with_io as_io as_object as_tasks as_futures as_user]; try done; rewrite ?Ha; try done.
  exists cs. split; [by eapply calls_same|]. by rewrite Hst'.
Qed.

Lemma ok_idle tr s : async_ok tr s → (∀ n, as_user s ≠ Starting n) → async_ok tr (with_user Idle s).
Proof.
  intros [] Hn. split; cbn [with_user as_io as_object as_tasks as_futures as_user]; try done.
  intros n Hf. destruct (ao_waiting0 n Hf) as [?|Hst]; [by left|by destruct (Hn n)].
Qed.

Lemma ok_started tr s b : async_ok tr s → async_ok tr (with_started b s).
Proof. by intros []. Qed.

(** The user enters a function of the context. *)
Lemma ok_enter tr s p io :
  async_ok tr s → io_ok config io → io_threads io = io_threads (as_io s) →
  io_accepted io = io_accepted (as_io s) → io_taken io = io_taken (as_io s) →
  io_posted io = io_posted (as_io s) → place_ok 0 p → in_run p = false → holds p = None →
  async_ok tr (with_io (at_place 0 p io) s).
Proof.
  intros Hs Hio Ht Ha Hst Hq Hp Hin Hc. pose proof (ao_places _ _ Hs) as Hpl.
  apply ok_with_io; [done| | |].
  - apply io_ok_move; [done|by rewrite Ht, Hin, user_outside|]. rewrite Ht.
    destruct (user_hands _ Hpl) as [_ ->]. by destruct p.
  - apply places_insert; [|done]. unfold places_ok. by rewrite Ht.
  - apply same_queue_move; try done. by rewrite (proj1 (user_hands _ Hpl)), Hc.
Qed.

(** A new ticket is held by the user. *)
Lemma ok_new_ticket tr s c :
  async_ok tr s → as_user s = Idle →
  async_ok tr (with_user (Starting (new_ticket c s).1) (new_ticket c s).2).
Proof.
  intros [Hio Hpl Hseq Hcs Ht Hu Hi Hran Hready Hbr Hw Hs] Hidle.
  assert (length (as_futures s) ∉ io_accepted (as_io s)) as Hfresh by (intros ?%Hi; lia).
  assert (∀ n (f : future), (as_futures s ++ [Waiting]) !! n = Some f →
    as_futures s !! n = Some f ∨ (n = length (as_futures s) ∧ f = Waiting)) as Hlook.
  { intros n f [?|[? Hx]]%lookup_app_Some; [by left|]. apply list_lookup_singleton_Some in Hx as [? <-].
    right. split; [lia|done]. }
  split; cbn [new_ticket fst snd with_user as_io as_object as_tasks as_futures as_user]; try done.
  - rewrite !length_app. cbn. lia.
  - intros n Hn. rewrite length_app. specialize (Hi n Hn). lia.
  - intros n c' rc Hr. destruct (Hran n c' rc Hr) as [H1 H2]. split; by apply lookup_app_l_Some.
  - intros n rc [H|[-> ?]]%Hlook; [by apply Hready|done].
  - intros n m [H|[-> ?]]%Hlook; [by eapply Hbr|done].
  - intros n [H|[-> _]]%Hlook; [|by right]. destruct (Hw n H) as [?|?]; [by left|congruence].
  - intros n [= <-]. split; [|done]. apply list_lookup_middle. reflexivity.
Qed.

Lemma settle_some n f s : as_futures s !! n = Some Waiting → settle n f s =
  Some (mkAsync (as_io s) (as_object s) (as_started s) (as_tasks s) (<[n := f]> (as_futures s)) (as_user s)).
Proof. intros H. unfold settle. by rewrite H. Qed.

(** The ticket the user holds is settled without the context. *)
Lemma ok_settle_user tr s n f s' :
  async_ok tr s → as_user s = Starting n → (f = Broken "IoContext post_task failed" ∨ ∃ rc, f = Ready rc ∧ ok rc = false) →
  settle n f (with_user Idle s) = Some s' → async_ok tr s'.
Proof.
  intros [Hio Hpl Hseq Hcs Ht Hu Hi Hran Hready Hbr Hw Hs] Hst Hf. destruct (Hs n Hst) as [Hwait Hna].
  rewrite settle_some by done. intros [= <-].
  assert (∀ m (g : future), <[n := f]> (as_futures s) !! m = Some g →
    (m = n ∧ g = f) ∨ (m ≠ n ∧ as_futures s !! m = Some g)) as Hlook.
  { intros m g. destruct (decide (m = n)) as [->|Hne]; [|rewrite list_lookup_insert_ne by done; by right].
    rewrite list_lookup_insert_eq by (by eapply lookup_lt_Some). intros [= <-]. by left. }
  split; cbn [with_user as_io as_object as_tasks as_futures as_user]; try done.
  - by rewrite length_insert.
  - intros m. rewrite length_insert. apply Hi.
  - intros m c rc Hr. destruct (Hran m c rc Hr) as [H1 H2]. split; [done|].
    destruct (decide (m = n)) as [->|Hne]; [congruence|]. by rewrite list_lookup_insert_ne.
  - intros m rc [[-> <-]|[Hne H]]%Hlook; [|by apply Hready].
    right. destruct Hf as [?|(rc' & [= ->] & Hrc)]; [done|]. by split.
  - intros m msg [[-> Heq]|[Hne H]]%Hlook; [done|by eapply Hbr].
  - intros m [[-> Heq]|[Hne H]]%Hlook; [destruct Hf as [->|(rc & -> & _)]; done|].
    destruct (Hw m H) as [?|?]; [by left|congruence].
Qed.

Lemma ok_post tr s n s' :
  async_ok tr s → as_user s = Starting n → post_task n (with_user Idle s) = Some s' → async_ok tr s'.
Proof.
  intros Hok Hst. unfold post_task. cbn [with_user as_io].
  destruct (try_post (Some n) (as_io s)) as [rc io] eqn:Hpost.
  pose proof (try_post_ok config (Some n) (as_io s) (ao_io _ _ Hok)) as Hio'. rewrite Hpost in Hio'. cbn [snd] in Hio'.
  unfold try_post in Hpost. cbv zeta in Hpost.
  destruct (_ && _) eqn:Hfull; injection Hpost as <- <-.
  - change (ok (fail_result Errc.QueueFull _)) with false. cbn [negb].
    intros Hs'. eapply ok_settle_user; [exact Hok|exact Hst|by left|exact Hs'].
  - change (ok success) with true. cbn [negb]. intros [= <-].
    destruct Hok as [Hio Hpl Hseq (cs & Hcs & Hrun) Ht Hu Hi Hran Hready Hbr Hw Hs].
    destruct (Hs n Hst) as [Hwait Hna].
    split; cbn [with_user with_io as_io as_object as_tasks as_futures as_user io_accepted]; try done.
    + by exists cs.
    + apply NoDup_app. split_and!; [done| |apply NoDup_singleton]. by intros m Hm ->%list_elem_of_singleton.
    + intros m [Hm| ->%list_elem_of_singleton]%elem_of_app; [by apply Hi|by eapply lookup_lt_Some].
    + intros m rc H. destruct (Hready m rc H) as [?|[Hm ?]]; [by left|right]. split; [|done].
      intros [?| ->%list_elem_of_singleton]%elem_of_app; congruence.
    + intros m msg H [?| ->%list_elem_of_singleton]%elem_of_app; [by eapply Hbr|congruence].
    + intros m H. left. apply elem_of_app. destruct (Hw m H) as [?|?]; [by left|right].
      apply list_elem_of_singleton. congruence.
Qed.

(** A thread moves that is not in a callback; it may take the front of the queue. *)
Lemma ok_advance tr s t d p io :
  async_ok tr s → io_threads (as_io s) !! t = Some p → is_calling p = false →
  advance t d (as_io s) = Some io → async_ok tr (with_io io s).
Proof.
  intros Hok Hp Hc Hadv. pose proof (advance_ok config t d _ _ (ao_io _ _ Hok) Hadv) as Hio'.
  pose proof (advance_places t d _ _ (ao_places _ _ Hok) Hadv) as Hpl'.
  destruct (advance_queue t d p _ _ Hp Hc Hadv) as [Hq|(cb & rest & last & c & -> & Hq & ->)];
    [by apply ok_with_io|].
  destruct Hok as [Hio Hpl Hseq (cs & Hcs & Hst) Ht Hu Hi Hran Hready Hbr Hw Hs].
  destruct (Hpl _ _ Hp) as [Hne ->].
  pose proof (calls_unique config _ t _ _ Hio Hpl Hp eq_refl Hcs) as Hnil. cbn in Hnil. subst cs.
  split; cbn [with_io as_io as_object as_tasks as_futures as_user]; try done.
  exists [cb]. split.
  - right. exists cb. split; [done|]. exists t. unfold held. cbn. by rewrite lookup_insert_eq.
  - cbn. by rewrite Hst, app_nil_r.
Qed.

(** The callback in execution holds a promise that nothing has set. *)
Lemma called_waiting tr s t n p :
  async_ok tr s → io_threads (as_io s) !! t = Some p → holds p = Some n →
  io_taken (as_io s) = ran tr ++ [n] ∧ as_futures s !! n = Some Waiting.
Proof.
  intros [Hio Hpl Hseq (cs & Hcs & Hst) Ht Hu Hi Hran Hready Hbr Hw Hs] Hp Hn.
  assert (in_run p = true) as Hin.
  { pose proof (Hpl _ _ Hp) as Hplace. destruct p; try done; by destruct Hplace as [_ ->]. }
  pose proof (calls_unique config _ t _ _ Hio Hpl Hp Hin Hcs) as Hone. rewrite Hn in Hone. cbn in Hone. subst cs.
  split; [done|]. pose proof (ik_fifo _ _ Hio) as Hfifo. rewrite Hst, <-app_assoc in Hfifo.
  assert (n ∈ io_accepted (as_io s)) as Hacc by (rewrite Hfifo; set_solver).
  assert (n ∉ ran tr) as Hnew.
  { rewrite Hfifo in Hu. apply NoDup_app in Hu as (_ & Hd & _). intros Hin'. apply (Hd n Hin'). set_solver. }
  destruct (lookup_lt_is_Some_2 (as_futures s) n (Hi n Hacc)) as [f Hf]. rewrite Hf.
  destruct f as [|rc|m]; [done| |by destruct (Hbr n m Hf)].
  destruct (Hready n rc Hf) as [[c0 Hr]|[? _]]; [|done]. destruct Hnew. apply elem_of_ran. by exists c0, rc.
Qed.

Lemma ok_run_task tr s t n last c s1 io :
  async_ok tr s → io_threads (as_io s) !! t = Some (Calling n last c) →
  run_task n s = Some s1 → advance t Go (as_io s1) = Some io →
  ∃ task rc, async_ok (Ran n task rc :: tr) (with_io io s1).
Proof.
  intros Hok Hp. destruct (called_waiting _ _ _ _ _ Hok Hp eq_refl) as [Hst Hwait]. unfold run_task.
  destruct (as_tasks s !! n) as [task|] eqn:Htask; [cbn [mbind option_bind]|done].
  destruct (task_body task (as_object s)) as [o w] eqn:Hbody.
  destruct (result_of o) as [rc|] eqn:Hrc; [cbn [mbind option_bind]|done].
  rewrite settle_some by done. intros [= <-] Hadv. cbn [with_object as_io] in Hadv.
  pose proof (advance_ok config t Go _ _ (ao_io _ _ Hok) Hadv) as Hio'.
  pose proof (advance_places t Go _ _ (ao_places _ _ Hok) Hadv) as Hpl'.
  exists task, rc. unfold advance in Hadv. rewrite Hp in Hadv. injection Hadv as <-.
  destruct Hok as [Hio Hpl Hseq _ Ht Hu Hi Hran Hready Hbr Hw Hs].
  pose proof (lookup_lt_Some _ _ _ Hwait) as Hlt.
  assert (n ∈ io_accepted (as_io s)) as Hacc.
  { rewrite (ik_fifo _ _ Hio), Hst. set_solver. }
  assert (∀ m (g : future), <[n := Ready rc]> (as_futures s) !! m = Some g →
    (m = n ∧ g = Ready rc) ∨ (m ≠ n ∧ as_futures s !! m = Some g)) as Hlook.
  { intros m g. destruct (decide (m = n)) as [->|Hne]; [|rewrite list_lookup_insert_ne by done; by right].
    rewrite list_lookup_insert_eq by done. intros [= <-]. by left. }
  split; cbn [with_io with_object as_io as_object as_tasks as_futures as_user]; try done.
  - by eapply SeqRan.
  - exists []. cbn [ran]. split; [|by rewrite app_nil_r]. left. split; [done|].
    intros cb (u & Hu'). unfold held in Hu'. cbn in Hu'. destruct (decide (u = t)) as [->|Hne].
    { by rewrite lookup_insert_eq in Hu'. }
    rewrite lookup_insert_ne in Hu' by done. destruct (Hpl _ _ Hp) as [_ ->].
    by eapply Hne, (held_alone config _ _ _ _ _ Hio Hpl Hp eq_refl).
  - by rewrite length_insert.
  - intros m. rewrite length_insert. apply Hi.
  - intros m c' rc' [Heq|Hr]%elem_of_cons.
    + injection Heq as -> -> ->. split; [done|]. by rewrite list_lookup_insert_eq.
    + destruct (Hran m c' rc' Hr) as [H1 H2]. split; [done|].
      rewrite list_lookup_insert_ne; [done|congruence].
  - intros m rc' [[-> [= ->]]|[Hne H]]%Hlook; [left; exists task; by left|].
    destruct (Hready m rc' H) as [[c' ?]|?]; [left; exists c'; by right|by right].
  - intros m msg [[-> ?]|[Hne H]]%Hlook; [done|by eapply Hbr].
  - intros m [[-> ?]|[Hne H]]%Hlook; [done|by apply Hw].
  - intros m Hm. destruct (Hs m Hm) as [H Hna]. split; [|done].
    rewrite list_lookup_insert_ne; [done|congruence].
Qed.

Lemma ok_poll tr s t vs v c rc o w io :
  async_ok tr s → io_threads (as_io s) !! t = Some (Polling (v :: vs) c) →
  service_poll (as_object s) = (o, w) → result_of o = Some rc →
  advance t (Answer rc) (as_io s) = Some io → async_ok (Polled rc :: tr) (with_io io (with_object w s)).
Proof.
  intros Hok Hp Hpoll Hrc Hadv. pose proof (ok_advance _ _ _ _ _ _ Hok Hp eq_refl Hadv) as [].
  split; cbn [with_io with_object as_io as_object as_tasks as_futures as_user] in *; try done.
  - eapply SeqPolled; [apply (ao_seq _ _ Hok)|exact Hpoll|exact Hrc].
  - intros n c' rc' [?|Hr]%elem_of_cons; [done|]. by apply ao_ran0.
  - intros n rc' H. destruct (ao_ready0 n rc' H) as [[c' ?]|?]; [left; exists c'; by right|by right].
Qed.

Lemma ok_thread_step tr s t d s' :
  async_ok tr s → thread_step t d s = Some s' → ∃ tr', async_ok tr' s'.
Proof.
  intros Hok. unfold thread_step.
  assert (∀ p, io_threads (as_io s) !! t = Some p → is_calling p = false →
    (io ← advance t d (as_io s); Some (with_io io s)) = Some s' → ∃ tr', async_ok tr' s') as Hplain.
  { intros p Hp Hc. destruct (advance t d (as_io s)) as [io|] eqn:Hadv; [|done]. intros [= <-].
    exists tr. by eapply ok_advance. }
  destruct (io_threads (as_io s) !! t) as [p|] eqn:Hp; [|unfold advance; by rewrite Hp].
  destruct p as [k|k|last c|cb last c|cb last c|c|[|v vs] c|k|k rc|rc| | |u| | |u| | | |u|rc]; try (by eapply Hplain).
  - destruct d; try done. destruct (run_task cb s) as [s1|] eqn:Hrun; [cbn [mbind option_bind]|done].
    destruct (advance t Go (as_io s1)) as [io|] eqn:Hadv; [|done]. intros [= <-].
    destruct (ok_run_task _ _ _ _ _ _ _ _ Hok Hp Hrun Hadv) as (task & rc & H). by eexists.
  - destruct d; try done. destruct (service_poll (as_object s)) as [o w] eqn:Hpoll.
    destruct (result_of o) as [rc|] eqn:Hrc; [cbn [mbind option_bind]|done].
    destruct (advance t (Answer rc) (as_io s)) as [io|] eqn:Hadv; [|done]. intros [= <-].
    eexists. by eapply ok_poll.
Qed.

Lemma ok_async_step tr s l s' :
  async_ok tr s → allowed env l s → async_step l s = Some s' → ∃ tr', async_ok tr' s'.
Proof.
  intros Hok Hall. unfold async_step.
  destruct l as [c| | |t d|w]; destruct (as_user s) as [|n|] eqn:Hu; try done.
  - pose proof (ok_new_ticket _ _ c Hok Hu) as Hnew. unfold begin_call. cbn [new_ticket fst snd] in *.
    destruct (_ && _); intros Hs'; exists tr.
    + injection Hs' as <-. refine (ok_enter _ _ AsyncEnter _ Hnew (ao_io _ _ Hnew) _ _ _ _ _ _ _); reflexivity.
    + eapply ok_post; [exact Hnew|reflexivity|]. cbn [with_user as_io as_object as_started as_tasks as_futures] in *.
      by rewrite Hu in Hs'.
  - intros [= <-]. exists tr. pose proof (ok_idle _ _ Hok) as Hi. rewrite Hu in Hi. specialize (Hi ltac:(done)).
    pose proof (ok_enter _ _ JoinEnter (io_stop (as_io s)) Hi (io_ok_stop _ true _ (ao_io _ _ Hok))
      eq_refl eq_refl eq_refl eq_refl eq_refl eq_refl eq_refl) as [].
    split; cbn [begin_stop with_io with_user as_io as_object as_tasks as_futures as_user] in *; try done.
    intros m Hm. destruct (ao_waiting0 m Hm); [by left|done].
  - destruct (io_threads (as_io s) !! 0%nat) as [[]|]; try done. unfold start_returns.
    destruct (ok rc) eqn:Hrc; cbn [negb]; intros Hs'; exists tr.
    + eapply ok_post; [exact (ok_started _ _ true Hok)|exact Hu|exact Hs'].
    + eapply ok_settle_user; [exact Hok|exact Hu| |exact Hs']. right. by exists rc.
  - destruct (io_threads (as_io s) !! 0%nat) as [[]|]; try done. intros [= <-]. exists tr.
    apply ok_idle; [by apply ok_started|]. cbn. intros m. by rewrite Hu.
  - intros H. by eapply ok_thread_step.
  - intros H. by eapply ok_thread_step.
  - intros H. by eapply ok_thread_step.
  - intros [= <-]. exists tr. destruct Hok. split; try done. by eapply SeqEnv.
  - intros [= <-]. exists tr. destruct Hok. split; try done. by eapply SeqEnv.
  - intros [= <-]. exists tr. destruct Hok. split; try done. by eapply SeqEnv.
Qed.

Lemma async_reachable_ok runtime s :
  async_reachable config runtime env w0 s → ∃ tr, async_ok tr s.
Proof.
  induction 1 as [|l s s' _ [tr IH] Hall Hstep]; [|by eapply ok_async_step].
  exists []. split; cbn; try done; try lia.
  - eapply (io_step_ok config (Register 0)); [apply (new_io_ok config runtime)|reflexivity].
  - constructor.
  - exists []. split; [|done]. left. split; [done|]. by intros cb (t & H).
  - constructor.
  - by intros n ?%elem_of_nil.
  - by intros n c rc ?%elem_of_nil.
Qed.
End invariant.

(** ** Properties *)

(** A thread runs alone. *)
Fixpoint run_thread {W C} `{AsyncService W C} (t : thread) (k : nat) (s : Async W C) : option (Async W C) :=
  match k with
  | O => Some s
  | S k => s' ← async_step (Thread t Go) s; run_thread t k s'
  end.

Section properties.
Context {W C : Type} `{Hsvc : AsyncService W C} (inv : W → Prop) (env : W → W → Prop).
Context `{!AsyncServiceLaws W C inv env} (config : IoContextConfig) (runtime : Result) (w0 : W).
Implicit Types (s : Async W C) (tr : list (entry C)).

(** A settled future tells the truth, and a waiting one has its call to come. *)
Definition future_ok tr (cs : list callback) s (n : nat) (f : future) : Prop :=
  match f with
  | Ready rc => (∃ c, Ran n c rc ∈ tr) ∨ ((n ∉ io_accepted (as_io s)) ∧ ok rc = false)
  | Broken _ => n ∉ io_accepted (as_io s)
  | Waiting => n ∈ cs ++ io_posted (as_io s) ∨ as_user s = Starting n
  end.

Lemma async_ok_future tr cs s n f :
  async_ok config env w0 tr s → calls (as_io s) cs → io_taken (as_io s) = ran tr ++ cs →
  as_futures s !! n = Some f → future_ok tr cs s n f.
Proof.
  intros Hok Hcs Hst Hf. destruct f as [|rc|m]; cbn [future_ok].
  - destruct (ao_waiting _ _ _ _ _ Hok n Hf) as [Hacc|?]; [left|by right].
    rewrite (ik_fifo _ _ (ao_io _ _ _ _ _ Hok)), Hst, <-app_assoc in Hacc.
    apply elem_of_app in Hacc as [Hr|?]; [|done]. apply elem_of_ran in Hr as (c & rc & Hr).
    destruct (ao_ran _ _ _ _ _ Hok _ _ _ Hr) as [_ Hf']. congruence.
  - by eapply ao_ready.
  - by eapply ao_broken.
Qed.

Lemma run_task_progress tr s t n last c :
  inv w0 → async_ok config env w0 tr s → io_threads (as_io s) !! t = Some (Calling n last c) →
  ∃ s', async_step (Thread t Go) s = Some s' ∧ as_io s' = at_place t (Draining last c) (as_io s).
Proof.
  intros H0 Hok Hp. destruct (called_waiting _ _ _ _ _ _ _ _ Hok Hp eq_refl) as [_ Hwait].
  pose proof (lookup_lt_Some _ _ _ Hwait) as Hlt. rewrite <-(ao_tasks _ _ _ _ _ Hok) in Hlt.
  destruct (lookup_lt_is_Some_2 _ _ Hlt) as [task Htask].
  destruct (task_body_ok task (as_object s) (sequential_inv env w0 _ _ H0 (ao_seq _ _ _ _ _ Hok))) as [Hub _].
  unfold async_step, thread_step, run_task. rewrite Hp, Htask. cbn [mbind option_bind].
  destruct (task_body task (as_object s)) as [o w]. cbn [fst] in Hub.
  assert (∃ rc, result_of o = Some rc) as [rc Hrc] by (destruct o; [by eexists..|done]).
  rewrite Hrc. cbn [mbind option_bind]. rewrite settle_some by done. cbn [mbind option_bind with_object as_io].
  unfold advance. rewrite Hp. cbn [mbind option_bind]. eexists. split; reflexivity.
Qed.

(** C22: the asynchronous facade is a sequential object.  Under every interleaving
    of its user with the worker thread, the client or server behind it sees one
    call or poll at a time, in a state its own operations can reach; the calls run
    in the order in which the context accepted them, each once; the future of a
    call that ran has exactly the result which that call had there; a future with
    any other error belongs to a call that was never accepted, and a future that
    is still waiting belongs to a call that is running, queued, or waiting for the
    worker to start.  No promise is set twice: a callback that was taken from the
    queue can always finish. *)
Theorem async_linearises s :
  inv w0 → async_reachable config runtime env w0 s →
  ∃ tr cs, sequential env w0 tr (as_object s) ∧ inv (as_object s) ∧
    NoDup (ran tr ++ cs ++ io_posted (as_io s)) ∧
    io_accepted (as_io s) = ran tr ++ cs ++ io_posted (as_io s) ∧ calls (as_io s) cs ∧
    (∀ n c rc, Ran n c rc ∈ tr → as_tasks s !! n = Some c ∧ as_futures s !! n = Some (Ready rc)) ∧
    (∀ n f, as_futures s !! n = Some f → future_ok tr cs s n f) ∧
    (∀ t n, held (as_io s) t = Some n → is_Some (async_step (Thread t Go) s)).
Proof.
  intros H0 [tr Hok]%async_reachable_ok. pose proof Hok as [Hio Hpl Hseq (cs & Hcs & Hst) Ht Hu Hi Hran _ _ _ _].
  assert (io_accepted (as_io s) = ran tr ++ cs ++ io_posted (as_io s)) as Hacc.
  { by rewrite (ik_fifo _ _ Hio), Hst, <-app_assoc. }
  exists tr, cs. split_and!; [done|by eapply sequential_inv|by rewrite <-Hacc|done|done|done| |].
  - intros n f. by apply async_ok_future.
  - intros t n. unfold held. destruct (io_threads (as_io s) !! t) as [p|] eqn:Hp; [|done]. cbn [mbind option_bind].
    destruct p as [| | |cb last c|cb last c| | | | | | | | | | | | | | | |]; try done; intros _.
    + unfold async_step, thread_step, advance. rewrite Hp. by eexists.
    + destruct (run_task_progress _ _ _ _ _ _ H0 Hok Hp) as (s' & -> & _). by eexists.
Qed.

Lemma drain_queue tr s t last c :
  inv w0 → async_ok config env w0 tr s → io_threads (as_io s) !! t = Some (Draining last c) →
  ∃ s' tr', run_thread t (3 * length (io_posted (as_io s))) s = Some s' ∧ async_ok config env w0 tr' s' ∧
    io_threads (as_io s') !! t = Some (Draining last c) ∧
    io_posted (as_io s') = [] ∧ io_accepted (as_io s') = io_accepted (as_io s).
Proof.
  intros H0. remember (io_posted (as_io s)) as q eqn:Hq. revert tr s Hq.
  induction q as [|n q IH]; intros tr s Hq Hok Hp; [by exists s, tr|].
  replace (3 * length (n :: q))%nat with (S (S (S (3 * length q)))) by (cbn [length]; lia).
  cbn [run_thread].
  assert (async_step (Thread t Go) s =
    Some (with_io (at_place t (Taken n last c) (pop_posted n q (as_io s))) s)) as Hpop.
  { unfold async_step, thread_step, advance. rewrite Hp. cbn [mbind option_bind]. by rewrite <-Hq. }
  rewrite Hpop. cbn [mbind option_bind].
  destruct (ok_thread_step _ _ _ _ _ t Go _ Hok Hpop) as [tr1 Hok1]. set (s1 := with_io _ s) in *.
  assert (io_threads (as_io s1) !! t = Some (Taken n last c)) as Hp1 by apply lookup_insert_eq.
  assert (async_step (Thread t Go) s1 =
    Some (with_io (at_place t (Calling n last c) (call_posted n (as_io s1))) s1)) as Hcall.
  { unfold async_step, thread_step, advance. by rewrite Hp1. }
  rewrite Hcall. cbn [mbind option_bind].
  destruct (ok_thread_step _ _ _ _ _ t Go _ Hok1 Hcall) as [tr2 Hok2]. set (s2 := with_io _ s1) in *.
  assert (io_threads (as_io s2) !! t = Some (Calling n last c)) as Hp2 by apply lookup_insert_eq.
  destruct (run_task_progress _ _ _ _ _ _ H0 Hok2 Hp2) as (s3 & Hrun & Hio3). rewrite Hrun. cbn [mbind option_bind].
  destruct (ok_thread_step _ _ _ _ _ t Go _ Hok2 Hrun) as [tr3 Hok3].
  destruct (IH tr3 s3) as (s' & tr' & Hrest & Hok' & Hp' & Hq' & Ha'); [by rewrite Hio3|done| |].
  { rewrite Hio3. apply lookup_insert_eq. }
  exists s', tr'. split_and!; [done..|]. by rewrite Ha', Hio3.
Qed.

(** C31: the worker keeps its promises.  When the worker is at its queue it runs,
    without help from any other thread, every call that is in it: after three
    steps for each call (it is taken from the queue, called, and returns) the queue
    is empty and all their futures are ready. *)
Theorem async_drains s t last c :
  inv w0 → async_reachable config runtime env w0 s →
  io_threads (as_io s) !! t = Some (Draining last c) →
  ∃ s', run_thread t (3 * length (io_posted (as_io s))) s = Some s' ∧ io_posted (as_io s') = [] ∧
    ∀ n, n ∈ io_posted (as_io s) → ∃ rc, as_futures s' !! n = Some (Ready rc).
Proof.
  intros H0 [tr Hok]%async_reachable_ok Hp.
  destruct (drain_queue tr s t last c H0 Hok Hp) as (s' & tr' & Hrun & Hok' & Hp' & Hq' & Ha').
  exists s'. split_and!; [done..|]. intros n Hn.
  destruct (ao_calls _ _ _ _ _ Hok') as (cs & Hcs & Hst).
  destruct (ao_places _ _ _ _ _ Hok' _ _ Hp') as [_ ->].
  pose proof (calls_unique config _ t _ _ (ao_io _ _ _ _ _ Hok') (ao_places _ _ _ _ _ Hok') Hp' eq_refl Hcs) as ->.
  assert (n ∈ ran tr') as (task & rc & Hr)%elem_of_ran.
  { rewrite app_nil_r in Hst. rewrite <-Hst. pose proof (ik_fifo _ _ (ao_io _ _ _ _ _ Hok')) as Hf.
    rewrite Hq', app_nil_r in Hf. rewrite <-Hf, Ha', (ik_fifo _ _ (ao_io _ _ _ _ _ Hok)). set_solver. }
  exists rc. by eapply ao_ran.
Qed.
End properties.
