(* ===== verification/Facades.v ===== *)
(** * The facades of the client and the server

    [src/securecnet/include/securecnet/async.hpp] and [local_session.hpp]:
    [AsyncClient] and [AsyncServer] are instances of the facade of [Async.v] on
    the calls of [ClientApi.v] and [ServerApi.v], and [LocalSession] is a server
    and a client on one context. *)
From S2P Require Import Prelude Result Hoare ByteBuf Config Message Packet Protocol Crypto Stats.
From S2P Require Import Endpoint Socket Client ClientRecv ClientInv ClientProps Server ServerSend.
From S2P Require Import ServerRecv ServerInv ServerProps IoContext Address ClientApi ServerApi Async.
#[local] Open Scope Z_scope.

(** ** [AsyncClient] *)

Inductive async_client_call : Type :=
  | AsyncConnect (server : Endpoint)
  | AsyncConnectPort (host : list U8) (port : U16)
  | AsyncSend (options : SendOptions) (type : U8) (payload : list U8)
  | AsyncSendText (type : U8) (text : list U8) (options : SendOptions)
  | AsyncSendUnreliableText (type : U8) (text : list U8)
  | AsyncSendReliableText (type : U8) (text : list U8) (lifetime_ms : U64)
  | AsyncSendOrderedText (type : U8) (text : list U8) (lifetime_ms : U64)
  | AsyncSendLatestText (type : U8) (text : list U8)
  | AsyncClose (reason : CloseReason).

Section client.
Context {HR : Resolver} {HS : Sodium} (startup : option Z) (runtime : Result).

(** The lambdas that the calls post. *)
Definition client_task (c : async_client_call) : io World unit :=
  match c with
  | AsyncConnect server => connect runtime server
  | AsyncConnectPort host port => connect_port startup runtime host port
  | AsyncSend options type payload => send options type payload
  | AsyncSendText type text options => send_text type text options
  | AsyncSendUnreliableText type text => send_unreliable_text type text SendPriority.Normal
  | AsyncSendReliableText type text life => send_reliable_text type text SendPriority.Normal life
  | AsyncSendOrderedText type text life => send_ordered_text type text SendPriority.Normal life
  | AsyncSendLatestText type text => send_latest_text type text SendPriority.Normal
  | AsyncClose reason => close reason
  end.

(** Every call of [AsyncClient] starts the worker. *)
Definition client_service : AsyncService World async_client_call := {|
  task_body := client_task;
  service_poll := context_poll;
  starts_worker _ := true;
|}.
End client.

(** The call of [ClientApi.v] behind a task. *)
Definition client_call_of (c : async_client_call) : client_call :=
  match c with
  | AsyncConnect server => CallStart server
  | AsyncConnectPort host port => CallConnectPort host port
  | AsyncSend options type payload => CallSend options type payload
  | AsyncSendText type text options => CallSendTextWith type text options
  | AsyncSendUnreliableText type text => CallSendUnreliableText type text SendPriority.Normal
  | AsyncSendReliableText type text life => CallSendReliableText type text SendPriority.Normal life
  | AsyncSendOrderedText type text life => CallSendOrderedText type text SendPriority.Normal life
  | AsyncSendLatestText type text => CallSendLatestText type text SendPriority.Normal
  | AsyncClose reason => CallClose reason
  end.

(** The network of a client does anything at any time. *)
Definition client_network (w w' : World) : Prop :=
  ∃ net, w' = mkWorld (w_client w) net (w_events w).

(** ** [AsyncServer] *)

Inductive async_server_call : Type :=
  | AsyncListen (endpoint : Endpoint)
  | AsyncListenPort (port : U16)
  | AsyncClosePeer (peer : Peer) (reason : CloseReason).

Section server.
Context {HR : Resolver} {HN : Ntop} {HS : Sodium} {HT : Traversal} (startup : option Z) (runtime : Result).

Definition server_task (c : async_server_call) : io ServerWorld unit :=
  match c with
  | AsyncListen endpoint => listen runtime endpoint
  | AsyncListenPort port => listen_port startup runtime port
  | AsyncClosePeer peer reason => close_peer peer reason
  end.

(** [close_peer] posts without a call of [start]. *)
Definition server_service : AsyncService ServerWorld async_server_call := {|
  task_body := server_task;
  service_poll := srv_context_poll;
  starts_worker c := match c with AsyncClosePeer _ _ => false | _ => true end;
|}.
End server.

Definition server_call_of (c : async_server_call) : server_call :=
  match c with
  | AsyncListen endpoint => SrvCallStart endpoint
  | AsyncListenPort port => SrvCallListenPort port
  | AsyncClosePeer peer reason => SrvCallPeer peer (PeerClose reason)
  end.

Definition server_network (w w' : ServerWorld) : Prop :=
  ∃ net, w' = mkServerWorld (sw_server w) net (sw_events w).

(** ** [LocalSession] *)

Record LocalSession := mkLocalSession {
  ls_io : IoContext;
  ls_server : ServerWorld;
  ls_client : World;
}.

Section local.
Context {HR : Resolver} {HN : Ntop} {HS : Sodium} {HT : Traversal} (startup : option Z) (runtime : Result).

(** [listen_and_connect]; [run_async] is what that call of the context returns and
    leaves behind. *)
Definition listen_and_connect (run_async : IoContext → Result * IoContext) (port : U16) (host : list U8)
    (l : LocalSession) : outcome unit * LocalSession :=
  match listen_port startup runtime port (ls_server l) with
  | (UB, sv) => (UB, mkLocalSession (ls_io l) sv (ls_client l))
  | (Err rc, sv) => (Err rc, mkLocalSession (ls_io l) sv (ls_client l))
  | (Done _, sv) =>
      match connect_port startup runtime host port (ls_client l) with
      | (UB, cl) => (UB, mkLocalSession (ls_io l) sv cl)
      | (Err rc, cl) =>
          let '(stopped, sv) := srv_stop sv in
          (match stopped with UB => UB | _ => Err rc end, mkLocalSession (ls_io l) sv cl)
      | (Done _, cl) =>
          let '(rc, io) := run_async (ls_io l) in
          (if io_running io || bool_decide (code rc = Errc.StateError) then Done tt
           else if ok rc then Done tt else Err rc, mkLocalSession io sv cl)
      end
  end.
End local.

(** ** The facades refine their objects *)

Section laws.
Context {HR : Resolver} {HRL : ResolverLaws} {HN : Ntop} {HS : Sodium} {HL : SodiumLaws}.
Context {HT : Traversal} {HTL : TraversalLaws}.
Context (startup : option Z) (runtime : Result) (Hs : si_status (new_SocketInit startup) = success).

Lemma client_service_laws cfg :
  client_usable cfg →
  @AsyncServiceLaws World async_client_call (client_service startup runtime) (reachable cfg) client_network.
Proof.
  intros Hu. split.
  - intros c w Hw. replace (task_body c) with (run_call startup runtime (client_call_of c)) by (by destruct c).
    apply client_call_safe; [done|done|done|by destruct c].
  - intros w Hw. exact (client_call_safe startup runtime Hs cfg CallTick w Hu Hw I).
  - intros w w' Hw [net ->]. by apply ReachNet.
Qed.

Lemma server_service_laws cfg :
  server_usable cfg →
  @AsyncServiceLaws ServerWorld async_server_call (server_service startup runtime) (server_reachable cfg)
    server_network.
Proof.
  intros Hu. split.
  - intros c w Hw. replace (task_body c) with (run_server_call startup runtime (server_call_of c)) by (by destruct c).
    apply server_call_safe; [done|done|done|by destruct c].
  - intros w Hw. exact (server_call_safe startup runtime Hs cfg SrvCallTick w Hu Hw I).
  - intros w w' Hw [net ->]. by apply SReachNet.
Qed.
End laws.

(** ** The local session *)

Lemma srv_stop_done w :
  ∃ w', srv_stop w = (Done tt, w') ∧ s_sessions (sw_server w') = ∅ ∧ s_pending (sw_server w') = [] ∧
    n_open (sw_net w') = false.
Proof.
  unfold srv_stop, set_srv, os, UdpSocket.close, UdpSocket.is_open, UdpSocket.set_open, srv_refresh, set_srv,
    mbind, io_bind, mret, io_ret. cbn [sw_net].
  destruct (n_open (sw_net w)) eqn:Ho; eexists; (split; [reflexivity|]); done.
Qed.

(** [listen_and_connect] is all or nothing for the server.  From any states of
    the two objects it ends without undefined behaviour in states they can reach.
    When it succeeds both [listen] and [connect] have; when [listen] fails the
    client is untouched, and when [connect] fails the server is stopped again, its
    socket closed and its tables empty; in both cases the context is untouched and
    the caller gets that error. *)
Theorem local_session_outcome {HR : Resolver} {HRL : ResolverLaws} {HN : Ntop} {HS : Sodium}
    {HL : SodiumLaws} {HT : Traversal} {HTL : TraversalLaws} startup runtime ccfg scfg run_async port host l :
  si_status (new_SocketInit startup) = success → client_usable ccfg → server_usable scfg →
  reachable ccfg (ls_client l) → server_reachable scfg (ls_server l) →
  let '(r, l') := listen_and_connect startup runtime run_async port host l in
  r ≠ UB ∧ reachable ccfg (ls_client l') ∧ server_reachable scfg (ls_server l') ∧
  match listen_port startup runtime port (ls_server l) with
  | (Done _, sv) =>
      match connect_port startup runtime host port (ls_client l) with
      | (Done _, cl) => ls_server l' = sv ∧ ls_client l' = cl ∧ ls_io l' = (run_async (ls_io l)).2
      | (failed, cl) => r = failed ∧ ls_client l' = cl ∧ ls_io l' = ls_io l ∧
          s_sessions (sw_server (ls_server l')) = ∅ ∧ s_pending (sw_server (ls_server l')) = [] ∧
          n_open (sw_net (ls_server l')) = false
      end
  | (failed, sv) => r = failed ∧ ls_server l' = sv ∧ ls_client l' = ls_client l ∧ ls_io l' = ls_io l
  end.
Proof.
  intros Hs Hcu Hsu Hc Hsv. unfold listen_and_connect.
  destruct (server_call_safe startup runtime Hs scfg (SrvCallListenPort port) (ls_server l) Hsu Hsv I) as [Hub Hr].
  cbn [run_server_call] in Hub, Hr.
  destruct (listen_port startup runtime port (ls_server l)) as [[[]|rc|] sv]; cbn [fst snd] in *; [|done|done].
  destruct (client_call_safe startup runtime Hs ccfg (CallConnectPort host port) (ls_client l) Hcu Hc I) as [Hub' Hr'].
  cbn [run_call] in Hub', Hr'.
  destruct (connect_port startup runtime host port (ls_client l)) as [[[]|rc|] cl]; cbn [fst snd] in *; [| |done].
  - destruct (run_async (ls_io l)) as [rc io]. split_and!; [|done..]. repeat case_match; done.
  - destruct (srv_stop_done sv) as (sv' & Hstop & He1 & He2 & He3). rewrite Hstop.
    split_and!; [done|done| |done..]. pose proof (SReachOp scfg sv SrvStop Hr) as H. cbn [run_server] in H.
    by rewrite Hstop in H.
Qed.

(** ** Witnesses *)

Import Pair.
#[local] Existing Instances Names.hosts Names.hosts_laws.
#[local] Instance witness_client : AsyncService World async_client_call := client_service None success.
#[local] Instance witness_client_laws :
    AsyncServiceLaws World async_client_call (reachable default_client) client_network :=
  client_service_laws None success eq_refl default_client Example.client_default_usable.

(** Two texts are posted while the worker is in its loop; the first has run. *)
Definition facade : Async World async_client_call :=
  new_async (mkIoConfig 65536) success Example.established.
Fixpoint follow_async (ls : list (async_label World async_client_call)) (s : Async World async_client_call)
    : option (Async World async_client_call) :=
  match ls with
  | [] => Some s
  | l :: rest => s' ← async_step l s; follow_async rest s'
  end.
Definition text_call (b : U8) : async_client_call := AsyncSendOrderedText 7 [b] 0.
Definition starting : list (async_label World async_client_call) :=
  [UserCalls (text_call 65); Thread 0 Go; Thread 0 (Spawns 1); Thread 0 Go; Thread 1 Go; Thread 0 Go; UserReturns].
Definition half_way : option (Async World async_client_call) :=
  follow_async (starting ++ [UserCalls (text_call 66); Thread 1 Go; Thread 1 Go; Thread 1 Go; Thread 1 Go]) facade.

Lemma follow_async_reachable config runtime env w ls s s' :
  async_reachable config runtime env w s → Forall (λ l, ∀ s, allowed env l s) ls →
  follow_async ls s = Some s' → async_reachable config runtime env w s'.
Proof.
  intros Hs Hls. revert s Hs. induction Hls as [|l ls Hl _ IH]; intros s Hs; cbn [follow_async];
    [by intros [= <-]|].
  destruct (async_step l s) as [s1|] eqn:Hstep; [|done]. cbn [mbind option_bind]. apply IH.
  by eapply AsyncStep.
Qed.

Lemma half_way_reachable s :
  half_way = Some s → async_reachable (mkIoConfig 65536) success client_network Example.established s.
Proof. apply follow_async_reachable; [constructor|]. repeat constructor. Qed.

Lemma async_linearises_witness :
  (as_futures <$> half_way) = Some [Ready success; Waiting] ∧
  ∀ s, half_way = Some s → ∃ tr cs, sequential client_network Example.established tr (as_object s) ∧
    io_accepted (as_io s) = ran tr ++ cs ++ io_posted (as_io s).
Proof.
  split; [vm_compute; reflexivity|]. intros s Hs.
  destruct (async_linearises (reachable default_client) client_network (mkIoConfig 65536) success
    Example.established s Example.established_reachable (half_way_reachable s Hs))
    as (tr & cs & Hseq & _ & _ & Hacc & _). exists tr, cs. split; [exact Hseq|exact Hacc].
Defined.

Lemma async_drains_witness :
  ((λ s, (io_threads (as_io s) !! 1%nat, io_posted (as_io s))) <$> half_way)
    = Some (Some (Draining false (Some Worker)), [1%nat]) ∧
  ∀ s, half_way = Some s → io_threads (as_io s) !! 1%nat = Some (Draining false (Some Worker)) →
    ∃ s', run_thread 1 (3 * length (io_posted (as_io s))) s = Some s' ∧ io_posted (as_io s') = [].
Proof.
  split; [vm_compute; reflexivity|]. intros s Hs Hp.
  destruct (async_drains (reachable default_client) client_network (mkIoConfig 65536) success
    Example.established s 1 false (Some Worker) Example.established_reachable (half_way_reachable s Hs) Hp)
    as (s' & Hrun & Hq & _). exists s'. split; [exact Hrun|exact Hq].
Defined.

(** The loopback address is resolved, the server listens, the client starts its
    handshake. *)
Definition session0 : LocalSession := mkLocalSession default_io server0 Example.idle.
Definition started_io (io : IoContext) : Result * IoContext :=
  (success, begin_run (at_place 1 (LoopTop Worker) (set_worker (Some 1%nat) io))).

Lemma server0_reachable : server_reachable default_server server0.
Proof. apply SReachNew. Qed.
Lemma idle_reachable : reachable default_client Example.idle.
Proof. apply ReachOp. apply (ReachNew _ 1000). vm_compute. reflexivity. Qed.

Lemma local_session_outcome_witness :
  let '(r, l') := listen_and_connect None success started_io 4000 (text "localhost") session0 in
  r = Done tt ∧ reachable default_client (ls_client l') ∧ server_reachable default_server (ls_server l').
Proof.
  pose proof (local_session_outcome None success default_client default_server started_io 4000
    (text "localhost") session0 eq_refl Example.client_default_usable server_default_usable
    idle_reachable server0_reachable) as H.
  destruct (listen_and_connect _ _ _ _ _ _) as [r l'] eqn:Hrun. destruct H as (_ & Hc & Hs & _).
  split; [|split; [exact Hc|exact Hs]]. change r with (r, l').1. rewrite <-Hrun. vm_compute. reflexivity.
Defined.

(** ** Where the facades fall short

    The worker ends when a poll fails, and [_started] stays set: later calls are
    posted to a context that nobody runs, and their futures wait for ever. *)
Definition broken_network : World :=
  let w := Example.established in let n := w_net w in
  mkWorld (w_client w)
    (mkNet (n_now n) (n_clock n) (n_open n) (n_calls n) (n_sends n) [OsRecvError false] (n_random n) (n_sent n))
    (w_events w).
Definition orphaned : option (Async World async_client_call) :=
  follow_async (starting ++ replicate 9 (Thread 1 Go) ++ [UserCalls (text_call 66)])
    (new_async (mkIoConfig 65536) success broken_network).

(** Nothing can happen in the facade. *)
Definition stalled {W C} `{AsyncService W C} (s : Async W C) : Prop :=
  (∀ t d, thread_step t d s = None) ∧ async_step UserReturns s = None.

Lemma stalled_spec {W C} `{AsyncService W C} (s : Async W C) :
  as_user s = Idle → Forall (λ e, ∃ rc, e.2 = Returned rc) (map_to_list (io_threads (as_io s))) → stalled s.
Proof.
  intros Hu Hall. split; [|unfold async_step; by rewrite Hu]. intros t d. unfold thread_step, advance.
  destruct (io_threads (as_io s) !! t) as [p|] eqn:Hp; [|done].
  apply elem_of_map_to_list in Hp. rewrite Forall_forall in Hall. destruct (Hall _ Hp) as [rc Heq].
  cbn in Heq. subst p. done.
Qed.

Example async_orphaned_call :
  ∃ s, orphaned = Some s ∧ as_started s = true ∧ as_futures s !! 1%nat = Some Waiting ∧ stalled s.
Proof.
  assert ((λ s, (as_started s, as_futures s !! 1%nat, as_user s, (map_to_list (io_threads (as_io s)))))
    <$> orphaned = Some (true, Some Waiting, Idle,
      [(1%nat, Returned (fail_result Errc.SocketError "recv() failed")); (0%nat, Returned success)])) as H
    by (vm_compute; reflexivity).
  destruct orphaned as [s|]; [|discriminate H]. injection H as H1 H2 H3 H4. exists s.
  split; [reflexivity|]. split; [exact H1|]. split; [exact H2|].
  apply stalled_spec; [exact H3|]. rewrite H4. repeat constructor; by eexists.
Qed.

(** [AsyncServer::close_peer] does not start the worker. *)
#[local] Instance witness_server : AsyncService ServerWorld async_server_call := server_service None success.
Example async_close_peer_waits :
  ∃ s, async_step (UserCalls (AsyncClosePeer peer CloseReason.Normal))
         (new_async (mkIoConfig 65536) success server3) = Some s ∧
    as_futures s = [Waiting] ∧ stalled s.
Proof.
  eexists. split; [reflexivity|]. split; [reflexivity|]. apply stalled_spec; [reflexivity|].
  cbn. constructor.
Qed.

(** When the worker of the context has ended on its own [run_async] fails, because
    the thread was not joined, and [listen_and_connect] takes that error for a
    context that is running. *)
Definition ended : option IoContext :=
  follow [Register 0; Enter 5 CallRunAsync; Advance 5 Go; Advance 5 (Spawns 1); Advance 5 Go; Advance 1 Go; Advance 5 Go;
          Advance 1 Go; Advance 1 Go; Advance 1 Go; Advance 1 (Answer (fail_result Errc.SocketError "recv() failed"));
          Advance 1 Go; Advance 1 Go] default_io.
Example local_session_not_running :
  ∃ io rc io',
    ended = Some io ∧ follow [Enter 5 CallRunAsync; Advance 5 Go] io = Some io' ∧
    io_threads io' !! 5%nat = Some (Returned rc) ∧ io_running io' = false ∧
    (listen_and_connect None success (λ _, (rc, io')) 4000 (text "localhost")
       (mkLocalSession io server0 Example.idle)).1 = Done tt.
Proof. do 3 eexists. repeat (split; [vm_compute; reflexivity|]). vm_compute. reflexivity. Qed.
