(* ===== verification/Sockets.v ===== *)
(** * Ownership of socket descriptors

    The resource side of [class UdpSocket] in [src/securecnet/lib/udp_socket.cpp]:
    objects hold a descriptor of the operating system or [kInvalidSocket], open
    and close it, and hand it over when they are moved; and [local_endpoint] of
    the socket, the client and the server. *)
From S2P Require Import Prelude Result Endpoint Socket Client Server.
#[local] Open Scope Z_scope.

(** ** Objects and descriptors *)

Abbreviation object := nat (only parsing).
Abbreviation descriptor := Z (only parsing).

(** The objects that are alive, with their [_s] ([None] is [kInvalidSocket]); the
    descriptors that are open in the process; whether [close] was ever called on a
    descriptor that was not open. *)
Record Sockets := mkSockets {
  sk_objects : gmap object (option descriptor);
  sk_open : gset descriptor;
  sk_bad_close : bool;
}.
Definition no_sockets : Sockets := mkSockets ∅ ∅ false.

Definition set_s (n : object) (s : option descriptor) (k : Sockets) : Sockets :=
  mkSockets (<[n := s]> (sk_objects k)) (sk_open k) (sk_bad_close k).

(** [close_sock(s)] *)
Definition close_sock (fd : descriptor) (k : Sockets) : Sockets :=
  mkSockets (sk_objects k) (sk_open k ∖ {[fd]})
    (sk_bad_close k || negb (bool_decide (fd ∈ sk_open k))).

(** [close] on an object whose [_s] is [s]. *)
Definition sock_close (n : object) (s : option descriptor) (k : Sockets) : Sockets :=
  match s with
  | None => k
  | Some fd => set_s n None (close_sock fd k)
  end.

(** [open]; [answer] is what [socket] returns. *)
Definition sock_open (n : object) (s answer : option descriptor) (k : Sockets) : Sockets :=
  match s, answer with
  | Some _, _ => k
  | None, None => set_s n None k
  | None, Some fd => mkSockets (<[n := Some fd]> (sk_objects k)) ({[fd]} ∪ sk_open k) (sk_bad_close k)
  end.

(** The move constructor of [n] from [m], whose [_s] is [s]. *)
Definition sock_move (n m : object) (s : option descriptor) (k : Sockets) : Sockets :=
  set_s m None (set_s n s k).

(** [operator=(UdpSocket&&)] *)
Definition sock_assign (n m : object) (sn sm : option descriptor) (k : Sockets) : Sockets :=
  if decide (n = m) then k else set_s m None (set_s n sm (sock_close n sn k)).

(** [~UdpSocket] *)
Definition sock_destroy (n : object) (s : option descriptor) (k : Sockets) : Sockets :=
  let k := sock_close n s k in
  mkSockets (delete n (sk_objects k)) (sk_open k) (sk_bad_close k).

(** What a program does with its sockets. *)
Inductive sock_op : Type :=
  | Construct (n : object)
  | Open (n : object) (answer : option descriptor)
  | Close (n : object)
  | MoveConstruct (n m : object)
  | MoveAssign (n m : object)
  | Destroy (n : object).

(** Constructors make a new object and the other operations are on objects that
    are alive; [socket] returns a descriptor that was not open. *)
Definition sock_step (op : sock_op) (k : Sockets) : option Sockets :=
  match op with
  | Construct n => if decide (sk_objects k !! n = None) then Some (set_s n None k) else None
  | Open n answer =>
      s ← sk_objects k !! n;
      if from_option (λ fd, bool_decide (fd ∈ sk_open k)) false answer then None
      else Some (sock_open n s answer k)
  | Close n => s ← sk_objects k !! n; Some (sock_close n s k)
  | MoveConstruct n m =>
      s ← sk_objects k !! m;
      if decide (sk_objects k !! n = None) then Some (sock_move n m s k) else None
  | MoveAssign n m => sn ← sk_objects k !! n; sm ← sk_objects k !! m; Some (sock_assign n m sn sm k)
  | Destroy n => s ← sk_objects k !! n; Some (sock_destroy n s k)
  end.

Fixpoint sock_run (ops : list sock_op) (k : Sockets) : option Sockets :=
  match ops with
  | [] => Some k
  | op :: rest => k' ← sock_step op k; sock_run rest k'
  end.

(** ** [local_endpoint] *)

(** [getsockname] on the socket of a process: its return code and the address. *)
Class SockName := getsockname : Net → Z * Endpoint.

Definition local_endpoint `{SockName} : io Net Endpoint :=
  opened ← UdpSocket.is_open;
  if negb opened then fail Errc.InvalidArg "socket not open"
  else λ n,
    let '(rc, out) := getsockname n in
    if negb (rc =? 0) then fail Errc.SocketError "getsockname() failed" n else (Done out, n).

(** [Client::local_endpoint], [Server::local_endpoint]; the overloads that return
    a [ResultT] have the same outcome. *)
Definition client_local_endpoint `{SockName} : io World Endpoint := sys local_endpoint.
Definition server_local_endpoint `{SockName} : io ServerWorld Endpoint := os local_endpoint.

(** ** Invariant *)

Definition owns (k : Sockets) (n : object) (fd : descriptor) : Prop := sk_objects k !! n = Some (Some fd).

Record owned (k : Sockets) : Prop := {
  ow_open n fd : owns k n fd → fd ∈ sk_open k;
  ow_one n m fd : owns k n fd → owns k m fd → n = m;
  ow_held fd : fd ∈ sk_open k → ∃ n, owns k n fd;
  ow_good : sk_bad_close k = false;
}.

Lemma owns_set k n s m fd :
  owns (set_s n s k) m fd ↔ (m = n ∧ s = Some fd) ∨ (m ≠ n ∧ owns k m fd).
Proof.
  unfold owns. cbn. destruct (decide (m = n)) as [->|Hne].
  - rewrite lookup_insert_eq. naive_solver.
  - rewrite lookup_insert_ne by done. naive_solver.
Qed.

(** An object without a descriptor may be made, cleared or destroyed. *)
Lemma owned_clear k n : owned k → (∀ fd, ¬ owns k n fd) → owned (set_s n None k).
Proof.
  intros [Ho H1 Hh Hg] Hn. split; cbn; try done.
  - intros m fd [[_ ?]|[_ H]]%owns_set; [done|by eapply Ho].
  - intros m m' fd [[_ ?]|[_ H]]%owns_set [[_ ?]|[_ H']]%owns_set; try done. by eapply H1.
  - intros fd Hfd. destruct (Hh fd Hfd) as [m Hm]. exists m. apply owns_set. right. split; [|done].
    intros ->. by eapply Hn.
Qed.

Lemma owned_close k n s :
  owned k → sk_objects k !! n = Some s → owned (sock_close n s k) ∧ ∀ fd, ¬ owns (sock_close n s k) n fd.
Proof.
  intros [Ho H1 Hh Hg] Hn. destruct s as [fd|]; cbn [sock_close].
  2: { split; [by split|]. intros fd Hfd. unfold owns in Hfd. congruence. }
  assert (owns k n fd) as Hown by done.
  assert (∀ m x, owns (set_s n None (close_sock fd k)) m x ↔ m ≠ n ∧ owns k m x) as Howns.
  { intros m x. rewrite owns_set. unfold owns, close_sock. cbn. naive_solver. }
  split; [|intros x [? _]%Howns; done]. split.
  - intros m x [Hne Hx]%Howns. cbn. apply elem_of_difference. split; [by eapply Ho|].
    intros ->%elem_of_singleton. by apply Hne, (H1 _ _ fd).
  - intros m m' x [_ Hx]%Howns [_ Hx']%Howns. by eapply H1.
  - intros x [Hx Hne]%elem_of_difference. destruct (Hh x Hx) as [m Hm]. exists m. apply Howns.
    split; [|done]. intros ->. unfold owns in Hm, Hown. set_solver.
  - cbn. rewrite Hg, bool_decide_eq_true_2; [done|by eapply Ho].
Qed.

(** A descriptor changes hands. *)
Lemma owned_move k n m s :
  owned k → n ≠ m → sk_objects k !! m = Some s → (∀ fd, ¬ owns k n fd) → owned (set_s m None (set_s n s k)).
Proof.
  intros [Ho H1 Hh Hg] Hne Hm Hn.
  assert (∀ x fd, owns (set_s m None (set_s n s k)) x fd ↔
    (x = n ∧ owns k m fd) ∨ (x ≠ n ∧ x ≠ m ∧ owns k x fd)) as Howns.
  { intros x fd. rewrite !owns_set. unfold owns. rewrite Hm. naive_solver. }
  split; cbn; try done.
  - intros x fd [[-> H]|(_ & _ & H)]%Howns; by eapply Ho.
  - intros x y fd [[-> H]|(? & ? & H)]%Howns [[-> H']|(? & ? & H')]%Howns;
      [done| | |by eapply H1]; by destruct (H1 _ _ _ H H').
  - intros fd Hfd. destruct (Hh fd Hfd) as [x Hx]. destruct (decide (x = m)) as [->|Hxm].
    + exists n. apply Howns. by left.
    + exists x. apply Howns. right. split; [|done]. intros ->. by eapply Hn.
Qed.

Lemma sock_step_owned op k k' : owned k → sock_step op k = Some k' → owned k'.
Proof.
  intros Hk. destruct op as [n|n answer|n|n m|n m|n]; cbn [sock_step].
  - case_decide as Hn; [|done]. intros [= <-]. apply owned_clear; [done|]. unfold owns. intros fd. congruence.
  - destruct (sk_objects k !! n) as [s|] eqn:Hn; [|done]. cbn [mbind option_bind]. destruct (from_option _ _ _) eqn:Hnew; [done|].
    intros [= <-]. destruct s as [fd|]; [done|]. assert (∀ fd, ¬ owns k n fd) as Hno by (unfold owns; congruence).
    destruct answer as [fd|]; [|by apply owned_clear]. cbn [sock_open].
    assert (fd ∉ sk_open k) as Hfd by (by apply bool_decide_eq_false in Hnew).
    assert (∀ x y, owns (mkSockets (<[n:=Some fd]> (sk_objects k)) ({[fd]} ∪ sk_open k) (sk_bad_close k)) x y ↔
      (x = n ∧ y = fd) ∨ (x ≠ n ∧ owns k x y)) as Howns.
    { intros x y. pose proof (owns_set k n (Some fd) x y). unfold owns in *. cbn in *. naive_solver. }
    destruct Hk as [Ho H1 Hh Hg]. split; try done.
    + intros x y [[-> ->]|[_ H]]%Howns; cbn; [set_solver|]. apply Ho in H. set_solver.
    + intros x y z [[-> ->]|[Hx H]]%Howns [[-> E]|[Hy H']]%Howns; [done| | |by eapply H1];
        subst; [by apply Ho in H'|by apply Ho in H].
    + cbn. intros y [->%elem_of_singleton|Hy]%elem_of_union; [exists n; apply Howns; by left|].
      destruct (Hh y Hy) as [x Hx]. exists x. apply Howns. right. split; [|done]. intros ->. by eapply Hno.
  - destruct (sk_objects k !! n) as [s|] eqn:Hn; [|done]. intros [= <-]. by apply owned_close.
  - destruct (sk_objects k !! m) as [s|] eqn:Hm; [|done]. cbn [mbind option_bind]. case_decide as Hn; [|done].
    intros [= <-]. apply owned_move; [done|congruence|done|]. unfold owns. intros fd. congruence.
  - destruct (sk_objects k !! n) as [sn|] eqn:Hn; [|done]. destruct (sk_objects k !! m) as [sm|] eqn:Hm; [|done].
    intros [= <-]. unfold sock_assign. case_decide as Hnm; [done|].
    destruct (owned_close k n sn Hk Hn) as [Hk' Hno]. apply owned_move; [done|done| |done].
    destruct sn; [|done]. cbn. by rewrite lookup_insert_ne.
  - destruct (sk_objects k !! n) as [s|] eqn:Hn; [|done]. intros [= <-]. unfold sock_destroy.
    destruct (owned_close k n s Hk Hn) as [[Ho H1 Hh Hg] Hno].
    assert (∀ x y, owns (mkSockets (delete n (sk_objects (sock_close n s k))) (sk_open (sock_close n s k))
      (sk_bad_close (sock_close n s k))) x y ↔ owns (sock_close n s k) x y) as Howns.
    { intros x y. unfold owns at 1. cbn. destruct (decide (x = n)) as [->|Hne].
      - rewrite lookup_delete_eq. specialize (Hno y). naive_solver.
      - by rewrite lookup_delete_ne. }
    split; try done.
    + intros x y H%Howns. by eapply Ho.
    + intros x y z H%Howns H'%Howns. by eapply H1.
    + intros y Hy. destruct (Hh y Hy) as [x Hx]. exists x. by apply Howns.
Qed.

Lemma sock_run_owned ops k k' : owned k → sock_run ops k = Some k' → owned k'.
Proof.
  revert k. induction ops as [|op ops IH]; intros k Hk; cbn [sock_run]; [by intros [= <-]|].
  destruct (sock_step op k) as [k1|] eqn:Hstep; [|done]. cbn [mbind option_bind]. apply IH.
  by eapply sock_step_owned.
Qed.

(** ** Property *)

(** C32: descriptors are neither leaked nor closed twice.  Whatever a program does
    with its sockets, opening, closing, moving (also onto itself) and destroying
    them in any order, every open descriptor is held by exactly one object, no
    object holds a closed one, [close] is never called on a descriptor that is not
    open, and when the last object is gone no descriptor is left open. *)
Theorem descriptors_owned ops k :
  sock_run ops no_sockets = Some k →
  sk_bad_close k = false ∧ (∀ fd, fd ∈ sk_open k ↔ ∃ n, owns k n fd) ∧
  (∀ n m fd, owns k n fd → owns k m fd → n = m) ∧ (sk_objects k = ∅ → sk_open k = ∅).
Proof.
  intros Hrun. destruct (sock_run_owned ops no_sockets k) as [Ho H1 Hh Hg]; [by split|done|].
  assert (∀ fd, fd ∈ sk_open k ↔ ∃ n, owns k n fd) as Hiff.
  { intros fd. split; [apply Hh|]. intros [n Hn]. by eapply Ho. }
  split_and!; [done..|]. intros He. apply set_eq. intros fd. rewrite Hiff. unfold owns. rewrite He.
  set_solver.
Qed.

Definition shuffled : list sock_op :=
  [Construct 1; Open 1 (Some 5); Construct 2; Open 2 (Some 6); MoveAssign 1 2; MoveAssign 1 1;
   MoveConstruct 3 1; Close 2; Destroy 1; Destroy 2].

Lemma descriptors_owned_witness :
  (λ k, (map_to_list (sk_objects k), elements (sk_open k))) <$> sock_run shuffled no_sockets
    = Some ([(3%nat, Some 6)], [6]) ∧
  ∀ k, sock_run shuffled no_sockets = Some k → sk_bad_close k = false.
Proof.
  split; [vm_compute; reflexivity|]. intros k Hk. exact (proj1 (descriptors_owned shuffled k Hk)).
Defined.
