(* ===== verification/WireTypes.v ===== *)
(** * The types of what is read from the network

    Every parser of the library on any bytes: it does not leave its buffer, and
    what it accepts is a well-formed value of its struct, with every integer
    within its width and every array of its size. *)
From S2P Require Import Prelude Result ByteBuf Config Message Packet Protocol Payloads Reliability.
From S2P Require Import Fragmentation Stream Endpoint NatHints Socket Client Codec RequestReply.
#[local] Open Scope Z_scope.

(** A parser's outcome: never undefined, and a [T] when it accepts. *)
Definition typed {A} (T : A → Prop) (o : outcome A) : Prop :=
  match o with Done a => T a | Err _ => True | UB => False end.
Definition reads {A} (rd : io ByteReader A) (bs : list U8) : outcome A := (rd (reader_at [] bs)).1.

(** A pointer and a length that describe a byte string. *)
Definition bytes_view (data : ptr) (len : Z) : Prop :=
  ∃ bs, data = data_of bs ∧ len = zlen bs ∧ bytes_ok bs ∧ zlen bs <= U16_MAX.

Definition packet_typed (v : PacketView) : Prop :=
  header_typed (pv_h v) ∧ validate_packet_header (pv_h v) = success ∧
  ∃ bs, pv_payload v = data_of bs ∧ payload_len (pv_h v) = zlen bs ∧ bytes_ok bs.
Definition message_typed (m : MsgView) : Prop := is_u8 (m_type m) ∧ bytes_view (m_data m) (m_len m).
Definition payload_typed (v : PayloadView) : Prop :=
  is_u64 (pl_id v) ∧ pl_id v ≠ 0 ∧ bytes_view (pl_data v) (pl_len v).
Definition fragment_typed (f : FragmentView) : Prop :=
  is_u64 (fr_message_id f) ∧ fr_message_id f ≠ 0 ∧ is_u64 (fr_delivery_sequence f) ∧
  channel_is_application (fr_channel f) = true ∧ is_u8 (fr_type f) ∧
  is_u16 (fr_original_length f) ∧ fr_count f = fragment_count_for_length (fr_original_length f) ∧
  0 <= fr_index f < fr_count f ∧ fr_len f = fragment_size_for_index (fr_original_length f) (fr_index f) ∧
  bytes_view (fr_data f) (fr_len f).
Definition stream_typed (f : StreamFrameView) : Prop :=
  is_u16 (sf_stream_id f) ∧ sf_stream_id f ≠ 0 ∧ is_u8 (sf_flags f) ∧ sf_len f <= max_stream_frame_payload ∧
  bytes_view (sf_data f) (sf_len f).
Definition reply_typed (f : RequestReplyFrame) : Prop :=
  is_u64 (rf_request_id f) ∧ rf_request_id f ≠ 0 ∧ is_u8 (rf_type f) ∧ bytes_view (rf_data f) (rf_len f).

(** A safe parser of a canonical format is typed. *)
Lemma typed_reads {A} (rd : io ByteReader A) (T : A → Prop) bs `{!ReaderSafe rd} :
  (∀ a r', rd (reader_at [] bs) = (Done a, r') → T a) → typed T (reads rd bs).
Proof.
  intros H. unfold reads, typed. destruct (reader_safe (m := rd) (reader_at [] bs) (reader_wf_at _ _)) as [Hub _].
  destruct (rd (reader_at [] bs)) as [[a|rc|] r'] eqn:Hr; [by eapply H|done|done].
Qed.

Lemma typed_frame {A} wr (rd : io ByteReader A) enc valid bs `{!ReaderSafe rd} `{!WireFrame wr rd enc valid} :
  bytes_ok bs → typed valid (reads rd bs).
Proof. intros Hok. apply typed_reads; [done|]. intros a r' H. by apply (frame_canon (rd:=rd)) in H as [? _]. Qed.

Lemma fragment_size_range l i : 0 <= fragment_size_for_index l i <= U16_MAX.
Proof.
  unfold fragment_size_for_index. cbv zeta. destruct (_ || _); [unfold U16_MAX; lia|].
  pose proof (w16_range (Z.min (w16 (l - w16 (i * NetConfig.MaxFragmentDataBytes))) (w16 NetConfig.MaxFragmentDataBytes)))
    as H. unfold is_u16, U16_MAX in *. lia.
Qed.

Lemma read_fragment_typed bs : bytes_ok bs → typed fragment_typed (reads read_fragment_payload bs).
Proof.
  intros Hok. apply typed_reads; [apply _|]. intros f r' H. unfold read_fragment_payload in H.
  erewrite bind_done in H by reflexivity. case_match; [done|]. do 7 wcanon H Hok. cbv zeta in H.
  destruct ((a =? 0) || (channel_value Channel.SequencedUnreliable <? a1)) eqn:HG1; [done|].
  destruct ((a4 =? 0) || (a4 <=? a3) || (a5 =? 0)) eqn:HG2; [done|].
  destruct ((fragment_count_for_length a5 =? 0) || negb (a4 =? fragment_count_for_length a5)) eqn:HG3; [done|].
  destruct (fragment_size_for_index a5 a3 =? 0) eqn:HG4; [done|]. erewrite bind_done in H by reflexivity.
  rewrite r_remaining_at in H. destruct (Z.eqb_spec (zlen x) (fragment_size_for_index a5 a3)) as [Hlen|];
    [cbn [negb] in H|done].
  pose proof (fragment_size_range a5 a3). rewrite w16_id in H by (unfold is_u16, U16_MAX in *; lia).
  rewrite peek_data_all in H. erewrite bind_done in H by apply skip_all. unfold mret, io_ret in H.
  injection H as <- <-. unfold fragment_typed.
  cbn [fr_message_id fr_delivery_sequence fr_channel fr_type fr_index fr_count fr_original_length fr_data fr_len].
  apply orb_false_iff in HG1 as [Ha0%Z.eqb_neq Hch%Z.ltb_ge].
  apply orb_false_iff in HG2 as [[Hc0%Z.eqb_neq Hi%Z.leb_gt]%orb_false_iff Ho%Z.eqb_neq].
  apply orb_false_iff in HG3 as [_ Hc%negb_false_iff%Z.eqb_eq].
  split_and!; try done.
  - unfold is_u8 in *. cbn in Hch. assert (a1 = 0 ∨ a1 = 1 ∨ a1 = 2 ∨ a1 = 3) as Hv by lia.
    by destruct_or! Hv; subst a1.
  - unfold is_u16 in *. lia.
  - exists x. split_and!; [done..|lia].
Qed.

Lemma read_stream_typed bs : bytes_ok bs → typed stream_typed (reads read_stream_frame bs).
Proof.
  intros Hok. apply typed_reads; [apply _|]. intros f r' H. unfold read_stream_frame in H. do 3 wcanon H Hok.
  destruct (Z.eqb_spec a 0); [done|]. destruct (Z.ltb_spec max_stream_frame_payload a1); [done|].
  erewrite bind_done in H by reflexivity. rewrite r_remaining_at in H.
  destruct (Z.ltb_spec (zlen x) a1); [done|]. cbv zeta in H.
  assert (0 <= a1 <= 65535) as Ha1 by (unfold is_u16 in *; lia).
  set (body := take (Z.to_nat a1) x). set (rest := drop (Z.to_nat a1) x).
  assert (zlen body = a1) as Hb by (unfold body; rewrite length_take; lia).
  rewrite <-(take_drop (Z.to_nat a1) x) in H. fold body rest in H.
  erewrite bind_done in H by (by apply skip_r_app). inv_done H. apply expect_end_inv in Hm as [Hnil ->].
  unfold mret, io_ret in H. injection H as <- <-. unfold stream_typed.
  cbn [sf_stream_id sf_flags sf_data sf_len]. split_and!; try done. exists body. split_and!.
  - rewrite Hnil, app_nil_r, <-Hb, <-peek_data_all with (pre := (([] ++ be 2 a) ++ be 1 a0) ++ be 2 a1).
    destruct (Z.ltb_spec 0 (zlen body)), (Z.eqb_spec (zlen body) 0); lia || (by rewrite Hb) || done.
  - done.
  - by apply Forall_take.
  - unfold U16_MAX. lia.
Qed.

Lemma payload_view_typed id bs :
  is_u64 id → id ≠ 0 → zlen bs <= U16_MAX → bytes_ok bs → payload_typed (payload_view id bs).
Proof. intros. split_and!; [done..|]. by exists bs. Qed.

Lemma read_envelope_typed m1 m2 m3 bs :
  bytes_ok bs → typed payload_typed (reads (read_envelope m1 m2 m3) bs).
Proof.
  intros Hok. apply typed_reads; [apply _|]. intros v r' H.
  apply read_envelope_inv in H as (body & -> & Hid & H0 & Hlen & Hb & _); [|done]. by apply payload_view_typed.
Qed.

Lemma read_message_typed bs : bytes_ok bs → typed message_typed (reads read_message bs).
Proof.
  intros Hok. apply typed_reads; [apply _|]. intros m r' H.
  apply read_message_inv in H as (body & rest & -> & Ht & Hlen & Hb & _); [|done].
  split; [exact Ht|]. by exists body.
Qed.

Lemma parse_packet_typed bs : bytes_ok bs → typed packet_typed (parse_packet (Some bs) (zlen bs)).
Proof.
  intros Hok. destruct (parse_packet (Some bs) (zlen bs)) as [v|rc|] eqn:Hp; [|done|].
  - apply parse_packet_inv in Hp as (p & Hv & _ & Ht & Hval & Hlen & Hb); [|done]. split_and!; [done..|].
    exists p. by rewrite Hv.
  - by apply parse_packet_safe in Hp.
Qed.

Lemma read_reply_typed bs : bytes_ok bs → typed reply_typed (read_request_reply_frame bs).
Proof.
  intros Hok. destruct (read_request_reply_frame bs) as [f|rc|] eqn:Hf; [|done|].
  - apply parse_reply_inv in Hf as (p & _ & (Hid & H0 & Ht & Hlen & Hb) & ->); [|done].
    split_and!; [done..|]. by exists p.
  - unfold read_request_reply_frame in Hf. destruct (_ <? _); [done|].
    change (mkReader _ _ 0) with (reader_at [] bs) in Hf.
    by destruct (reader_safe (m := parse_request_reply) (reader_at [] bs) (reader_wf_at _ _)).
Qed.

(** ** Property *)

(** C29: what is read from the network is well typed.  On any bytes, each parser of
    the library, for packets, handshake messages, message frames, the payloads of
    the reliable, ordered and sequenced channels, acknowledgements, fragments,
    stream frames, requests and replies, NAT hints and punches, stays within its
    buffer, and whatever it accepts has every integer within its width, every
    array of its size, ids that are not zero, an index below its count and a data
    pointer that has exactly the bytes its length says. *)
Theorem parsers_typed bs :
  bytes_ok bs →
  typed packet_typed (parse_packet (Some bs) (zlen bs)) ∧
  typed client_hello_valid (reads read_client_hello bs) ∧
  typed server_hello_valid (reads read_server_hello bs) ∧
  typed retry_token_valid (reads read_retry bs) ∧
  typed (λ _, True) (reads read_close_frame bs) ∧
  typed message_typed (reads read_message bs) ∧
  typed payload_typed (reads read_reliable_payload bs) ∧
  typed payload_typed (reads read_ordered_payload bs) ∧
  typed payload_typed (reads read_sequenced_payload bs) ∧
  typed ack_valid (reads read_reliable_ack bs) ∧
  typed fragment_typed (reads read_fragment_payload bs) ∧
  typed stream_typed (reads read_stream_frame bs) ∧
  typed reply_typed (read_request_reply_frame bs) ∧
  typed hint_valid (reads read_nat_peer_hint bs) ∧
  typed punch_valid (reads read_nat_punch_frame bs).
Proof.
  intros Hok. split_and!; try exact (typed_frame _ _ _ _ bs Hok); try (by apply read_envelope_typed).
  - by apply parse_packet_typed.
  - by apply read_message_typed.
  - by apply read_fragment_typed.
  - by apply read_stream_typed.
  - by apply read_reply_typed.
Qed.

(** An acknowledgement of message 7 on the ordered channel. *)
Definition ack_bytes : list U8 := be 1 (channel_value Channel.ReliableOrdered) ++ be 8 7.

Lemma parsers_typed_witness :
  reads read_reliable_ack ack_bytes = Done (Channel.ReliableOrdered, 7) ∧
  typed ack_valid (reads read_reliable_ack ack_bytes).
Proof.
  split; [vm_compute; reflexivity|].
  refine (proj1 (proj2 (proj2 (proj2 (proj2 (proj2 (proj2 (proj2 (proj2 (proj2
    (parsers_typed ack_bytes _))))))))))).
  apply (bool_decide_unpack _). vm_compute. exact I.
Defined.
