(* ===== verification/Builders.v ===== *)
(** * Configuration builders

    [ClientConfig::Builder] and [ServerConfig::Builder] of
    [src/securecnet/include/securecnet/config.hpp]: a chain of setters on the
    default configuration. *)
From S2P Require Import Prelude Result Config.
#[local] Open Scope Z_scope.

(** ** Assignment to the fields *)

Definition rel_eta (x : ReliabilityConfig) : ReliabilityConfig :=
  mkReliabilityConfig (initial_rto_ms x) (min_rto_ms x) (max_rto_ms x) (max_pending_messages x)
    (max_pending_bytes x) (max_inflight_messages x) (ordered_receive_window x).
#[local] Instance set_initial_rto_ms : Assign initial_rto_ms := ltac:(derive_assign rel_eta).
#[local] Instance set_min_rto_ms : Assign min_rto_ms := ltac:(derive_assign rel_eta).
#[local] Instance set_max_rto_ms : Assign max_rto_ms := ltac:(derive_assign rel_eta).
#[local] Instance set_max_pending_messages : Assign max_pending_messages := ltac:(derive_assign rel_eta).
#[local] Instance set_max_pending_bytes : Assign max_pending_bytes := ltac:(derive_assign rel_eta).
#[local] Instance set_max_inflight_messages : Assign max_inflight_messages := ltac:(derive_assign rel_eta).
#[local] Instance set_ordered_receive_window : Assign ordered_receive_window := ltac:(derive_assign rel_eta).

Definition frag_eta (x : FragmentationConfig) : FragmentationConfig :=
  mkFragmentationConfig (frag_enabled x) (max_fragments_per_message x)
    (max_reassembled_message_bytes x) (max_concurrent_reassemblies_per_peer x)
    (max_total_reassembly_memory_per_peer x) (reassembly_timeout_ms x).
#[local] Instance set_frag_enabled : Assign frag_enabled := ltac:(derive_assign frag_eta).
#[local] Instance set_max_reassembled_message_bytes : Assign max_reassembled_message_bytes := ltac:(derive_assign frag_eta).

Definition cong_eta (x : CongestionControlConfig) : CongestionControlConfig :=
  mkCongestionControlConfig (cong_enabled x) (min_rate_bytes_per_second x)
    (initial_rate_bytes_per_second x) (max_rate_bytes_per_second x)
    (additive_increase_bytes_per_ack x) (multiplicative_decrease_per_mille x)
    (backpressure_decrease_per_mille x) (min_window_bytes x) (max_window_bytes x)
    (loss_cooldown_ms x) (backpressure_cooldown_ms x).
#[local] Instance set_cong_enabled : Assign cong_enabled := ltac:(derive_assign cong_eta).

Definition abuse_eta (x : AbuseConfig) : AbuseConfig :=
  mkAbuseConfig (per_ip_handshake_rate_limit_per_second x) (invalid_packet_ban_threshold x)
    (invalid_packet_ban_ms x) (max_sessions_per_ip x) (anti_amplification_factor x)
    (anti_amplification_slack_bytes x) (max_queued_reliable_bytes_per_peer x)
    (max_total_reassembly_memory_server x).
#[local] Instance set_max_queued_reliable_bytes_per_peer : Assign max_queued_reliable_bytes_per_peer := ltac:(derive_assign abuse_eta).
#[local] Instance set_max_total_reassembly_memory_server : Assign max_total_reassembly_memory_server := ltac:(derive_assign abuse_eta).

Definition ccfg_eta (x : ClientConfig) : ClientConfig :=
  mkClientConfig (client_reliability x) (client_fragmentation x) (client_congestion x)
    (client_handshake_timeout_ms x) (client_idle_timeout_ms x)
    (client_keepalive_interval_ms x) (client_close_drain_ms x)
    (client_max_pending_packets x) (client_send_budget_bytes_per_second x)
    (client_enable_session_resumption x) (client_enable_packet_debug_dumps x).
#[local] Instance set_client_reliability : Assign client_reliability := ltac:(derive_assign ccfg_eta).
#[local] Instance set_client_fragmentation : Assign client_fragmentation := ltac:(derive_assign ccfg_eta).
#[local] Instance set_client_congestion : Assign client_congestion := ltac:(derive_assign ccfg_eta).
#[local] Instance set_client_handshake_timeout_ms : Assign client_handshake_timeout_ms := ltac:(derive_assign ccfg_eta).
#[local] Instance set_client_idle_timeout_ms : Assign client_idle_timeout_ms := ltac:(derive_assign ccfg_eta).
#[local] Instance set_client_keepalive_interval_ms : Assign client_keepalive_interval_ms := ltac:(derive_assign ccfg_eta).
#[local] Instance set_client_close_drain_ms : Assign client_close_drain_ms := ltac:(derive_assign ccfg_eta).
#[local] Instance set_client_max_pending_packets : Assign client_max_pending_packets := ltac:(derive_assign ccfg_eta).
#[local] Instance set_client_send_budget_bytes_per_second : Assign client_send_budget_bytes_per_second := ltac:(derive_assign ccfg_eta).
#[local] Instance set_client_enable_session_resumption : Assign client_enable_session_resumption := ltac:(derive_assign ccfg_eta).
#[local] Instance set_client_enable_packet_debug_dumps : Assign client_enable_packet_debug_dumps := ltac:(derive_assign ccfg_eta).

Definition scfg_eta (x : ServerConfig) : ServerConfig :=
  mkServerConfig (server_reliability x) (server_fragmentation x) (server_congestion x)
    (server_abuse x) (server_handshake_timeout_ms x) (server_idle_timeout_ms x)
    (server_keepalive_interval_ms x) (server_close_drain_ms x)
    (server_max_pending_packets x) (server_send_budget_bytes_per_second x)
    (server_max_peer_sessions x) (server_enable_session_resumption x)
    (server_enable_packet_debug_dumps x).
#[local] Instance set_server_reliability : Assign server_reliability := ltac:(derive_assign scfg_eta).
#[local] Instance set_server_fragmentation : Assign server_fragmentation := ltac:(derive_assign scfg_eta).
#[local] Instance set_server_congestion : Assign server_congestion := ltac:(derive_assign scfg_eta).
#[local] Instance set_server_abuse : Assign server_abuse := ltac:(derive_assign scfg_eta).
#[local] Instance set_server_handshake_timeout_ms : Assign server_handshake_timeout_ms := ltac:(derive_assign scfg_eta).
#[local] Instance set_server_idle_timeout_ms : Assign server_idle_timeout_ms := ltac:(derive_assign scfg_eta).
#[local] Instance set_server_keepalive_interval_ms : Assign server_keepalive_interval_ms := ltac:(derive_assign scfg_eta).
#[local] Instance set_server_close_drain_ms : Assign server_close_drain_ms := ltac:(derive_assign scfg_eta).
#[local] Instance set_server_max_pending_packets : Assign server_max_pending_packets := ltac:(derive_assign scfg_eta).
#[local] Instance set_server_send_budget_bytes_per_second : Assign server_send_budget_bytes_per_second := ltac:(derive_assign scfg_eta).
#[local] Instance set_server_max_peer_sessions : Assign server_max_peer_sessions := ltac:(derive_assign scfg_eta).
#[local] Instance set_server_enable_session_resumption : Assign server_enable_session_resumption := ltac:(derive_assign scfg_eta).
#[local] Instance set_server_enable_packet_debug_dumps : Assign server_enable_packet_debug_dumps := ltac:(derive_assign scfg_eta).

(** The setters of [ClientConfig::Builder]. *)
Inductive client_setting : Type :=
  | CReliabilityConfig (v : ReliabilityConfig)
  | CFragmentationConfig (v : FragmentationConfig)
  | CCongestionControlConfig (v : CongestionControlConfig)
  | CAdaptiveCongestionControl (v : bool)
  | CHandshakeTimeoutMs (v : U64)
  | CIdleTimeoutMs (v : U64)
  | CKeepaliveIntervalMs (v : U64)
  | CCloseDrainMs (v : U64)
  | CMaxPendingPackets (v : U32)
  | CSendBudgetBytesPerSecond (v : U32)
  | CSessionResumption (v : bool)
  | CPacketDebugDumps (v : bool)
  | CMaxPendingReliableMessages (v : U32)
  | CMaxInflightReliableMessages (v : U32)
  | CMaxPendingReliableBytes (v : U32)
  | COrderedWindow (v : U32)
  | CRtoMs (i lo hi : U64)
  | CFragmentationEnabled (v : bool)
  | CMaxReassembledBytes (v : U32).

Definition client_set (s : client_setting) (c : ClientConfig) : ClientConfig :=
  match s with
  | CReliabilityConfig v =>
      c <| client_reliability := v |>
  | CFragmentationConfig v =>
      c <| client_fragmentation := v |>
  | CCongestionControlConfig v =>
      c <| client_congestion := v |>
  | CAdaptiveCongestionControl v =>
      c <| client_congestion := client_congestion c <| cong_enabled := v |> |>
  | CHandshakeTimeoutMs v =>
      c <| client_handshake_timeout_ms := v |>
  | CIdleTimeoutMs v =>
      c <| client_idle_timeout_ms := v |>
  | CKeepaliveIntervalMs v =>
      c <| client_keepalive_interval_ms := v |>
  | CCloseDrainMs v =>
      c <| client_close_drain_ms := v |>
  | CMaxPendingPackets v =>
      c <| client_max_pending_packets := v |>
  | CSendBudgetBytesPerSecond v =>
      c <| client_send_budget_bytes_per_second := v |>
  | CSessionResumption v =>
      c <| client_enable_session_resumption := v |>
  | CPacketDebugDumps v =>
      c <| client_enable_packet_debug_dumps := v |>
  | CMaxPendingReliableMessages v =>
      c <| client_reliability := client_reliability c <| max_pending_messages := v |> |>
  | CMaxInflightReliableMessages v =>
      c <| client_reliability := client_reliability c <| max_inflight_messages := v |> |>
  | CMaxPendingReliableBytes v =>
      c <| client_reliability := client_reliability c <| max_pending_bytes := v |> |>
  | COrderedWindow v =>
      c <| client_reliability := client_reliability c <| ordered_receive_window := v |> |>
  | CRtoMs i lo hi =>
      c <| client_reliability := client_reliability c <| initial_rto_ms := i |> <| min_rto_ms := lo |> <| max_rto_ms := hi |> |>
  | CFragmentationEnabled v =>
      c <| client_fragmentation := client_fragmentation c <| frag_enabled := v |> |>
  | CMaxReassembledBytes v =>
      c <| client_fragmentation := client_fragmentation c <| max_reassembled_message_bytes := v |> |>
  end.

(** The setters of [ServerConfig::Builder]. *)
Inductive server_setting : Type :=
  | SReliabilityConfig (v : ReliabilityConfig)
  | SFragmentationConfig (v : FragmentationConfig)
  | SCongestionControlConfig (v : CongestionControlConfig)
  | SAdaptiveCongestionControl (v : bool)
  | SAbuseConfig (v : AbuseConfig)
  | SHandshakeTimeoutMs (v : U64)
  | SIdleTimeoutMs (v : U64)
  | SKeepaliveIntervalMs (v : U64)
  | SCloseDrainMs (v : U64)
  | SMaxPendingPackets (v : U32)
  | SSendBudgetBytesPerSecond (v : U32)
  | SMaxPeerSessions (v : ST)
  | SSessionResumption (v : bool)
  | SPacketDebugDumps (v : bool)
  | SMaxPendingReliableMessages (v : U32)
  | SMaxInflightReliableMessages (v : U32)
  | SMaxPendingReliableBytes (v : U32)
  | SOrderedWindow (v : U32)
  | SFragmentationEnabled (v : bool)
  | SMaxReassembledBytes (v : U32)
  | SMaxTotalReassemblyMemoryServer (v : U64).

Definition server_set (s : server_setting) (c : ServerConfig) : ServerConfig :=
  match s with
  | SReliabilityConfig v =>
      c <| server_reliability := v |>
  | SFragmentationConfig v =>
      c <| server_fragmentation := v |>
  | SCongestionControlConfig v =>
      c <| server_congestion := v |>
  | SAdaptiveCongestionControl v =>
      c <| server_congestion := server_congestion c <| cong_enabled := v |> |>
  | SAbuseConfig v =>
      c <| server_abuse := v |>
  | SHandshakeTimeoutMs v =>
      c <| server_handshake_timeout_ms := v |>
  | SIdleTimeoutMs v =>
      c <| server_idle_timeout_ms := v |>
  | SKeepaliveIntervalMs v =>
      c <| server_keepalive_interval_ms := v |>
  | SCloseDrainMs v =>
      c <| server_close_drain_ms := v |>
  | SMaxPendingPackets v =>
      c <| server_max_pending_packets := v |>
  | SSendBudgetBytesPerSecond v =>
      c <| server_send_budget_bytes_per_second := v |>
  | SMaxPeerSessions v =>
      c <| server_max_peer_sessions := v |>
  | SSessionResumption v =>
      c <| server_enable_session_resumption := v |>
  | SPacketDebugDumps v =>
      c <| server_enable_packet_debug_dumps := v |>
  | SMaxPendingReliableMessages v =>
      c <| server_reliability := server_reliability c <| max_pending_messages := v |> |>
  | SMaxInflightReliableMessages v =>
      c <| server_reliability := server_reliability c <| max_inflight_messages := v |> |>
  | SMaxPendingReliableBytes v =>
      c <| server_reliability := server_reliability c <| max_pending_bytes := v |> |>
        <| server_abuse := server_abuse c <| max_queued_reliable_bytes_per_peer :=
             Z.max (max_queued_reliable_bytes_per_peer (server_abuse c)) v |> |>
  | SOrderedWindow v =>
      c <| server_reliability := server_reliability c <| ordered_receive_window := v |> |>
  | SFragmentationEnabled v =>
      c <| server_fragmentation := server_fragmentation c <| frag_enabled := v |> |>
  | SMaxReassembledBytes v =>
      c <| server_fragmentation := server_fragmentation c <| max_reassembled_message_bytes := v |> |>
  | SMaxTotalReassemblyMemoryServer v =>
      c <| server_abuse := server_abuse c <| max_total_reassembly_memory_server := v |> |>
  end.

(** [builder()], a chain of setters, [build()]. *)
Definition client_build (settings : list client_setting) : ClientConfig :=
  foldl (λ c s, client_set s c) default_client settings.
Definition server_build (settings : list server_setting) : ServerConfig :=
  foldl (λ c s, server_set s c) default_server settings.

(** ** Properties *)

(** The arguments of a setter are values of its parameter types. *)
Definition client_setting_typed (s : client_setting) : Prop :=
  match s with
  | CReliabilityConfig v => reliability_typed v
  | CFragmentationConfig v => fragmentation_typed v
  | CCongestionControlConfig v => congestion_typed v
  | CHandshakeTimeoutMs v | CIdleTimeoutMs v | CKeepaliveIntervalMs v | CCloseDrainMs v => is_u64 v
  | CMaxPendingPackets v | CSendBudgetBytesPerSecond v | CMaxPendingReliableMessages v
  | CMaxInflightReliableMessages v | CMaxPendingReliableBytes v | COrderedWindow v
  | CMaxReassembledBytes v => is_u32 v
  | CRtoMs i lo hi => is_u64 i ∧ is_u64 lo ∧ is_u64 hi
  | CAdaptiveCongestionControl _ | CSessionResumption _ | CPacketDebugDumps _
  | CFragmentationEnabled _ => True
  end.
Definition server_setting_typed (s : server_setting) : Prop :=
  match s with
  | SReliabilityConfig v => reliability_typed v
  | SFragmentationConfig v => fragmentation_typed v
  | SCongestionControlConfig v => congestion_typed v
  | SAbuseConfig v => abuse_typed v
  | SHandshakeTimeoutMs v | SIdleTimeoutMs v | SKeepaliveIntervalMs v | SCloseDrainMs v
  | SMaxPeerSessions v | SMaxTotalReassemblyMemoryServer v => is_u64 v
  | SMaxPendingPackets v | SSendBudgetBytesPerSecond v | SMaxPendingReliableMessages v
  | SMaxInflightReliableMessages v | SMaxPendingReliableBytes v | SOrderedWindow v
  | SMaxReassembledBytes v => is_u32 v
  | SAdaptiveCongestionControl _ | SSessionResumption _ | SPacketDebugDumps _
  | SFragmentationEnabled _ => True
  end.

Lemma client_set_typed s c : client_setting_typed s → client_typed c → client_typed (client_set s c).
Proof.
  unfold client_typed, reliability_typed, fragmentation_typed, congestion_typed.
  destruct s; cbn; unfold reliability_typed, fragmentation_typed, congestion_typed; tauto.
Qed.

Lemma max_u32 a b : is_u32 a → is_u32 b → is_u32 (Z.max a b).
Proof. unfold is_u32. lia. Qed.

Lemma server_set_typed s c : server_setting_typed s → server_typed c → server_typed (server_set s c).
Proof.
  unfold server_typed, reliability_typed, fragmentation_typed, congestion_typed, abuse_typed.
  pose proof (max_u32 (max_queued_reliable_bytes_per_peer (server_abuse c))) as Hm.
  destruct s; cbn; unfold reliability_typed, fragmentation_typed, congestion_typed, abuse_typed;
    try specialize (Hm v); tauto.
Qed.

(** A setter that replaces one limit, not a group of them. *)
Definition single_limit (s : server_setting) : bool :=
  match s with SReliabilityConfig _ | SAbuseConfig _ => false | _ => true end.

(** The server may queue for a peer what a reliable session may hold. *)
Definition quota_covers (c : ServerConfig) : Prop :=
  max_pending_bytes (server_reliability c) <= max_queued_reliable_bytes_per_peer (server_abuse c).

Lemma server_set_covers s c : single_limit s = true → quota_covers c → quota_covers (server_set s c).
Proof. unfold quota_covers. destruct s; cbn; try done; lia. Qed.

(** A builder fed with values of its parameter types yields a configuration whose
    fields have their types; and setting the limits of the server one by one keeps
    the quota of reliable bytes for a peer above what a session may hold, which is
    what [validate_server_config] asks for. *)
Theorem builders_sound cs ss :
  Forall client_setting_typed cs → Forall server_setting_typed ss →
  client_typed (client_build cs) ∧ server_typed (server_build ss) ∧
  (forallb single_limit ss = true → quota_covers (server_build ss)).
Proof.
  intros Hcs Hss. unfold client_build, server_build.
  assert (client_typed default_client) as Hc by (apply (bool_decide_unpack _); vm_compute; exact I).
  assert (server_typed default_server) as Hs by (apply (bool_decide_unpack _); vm_compute; exact I).
  assert (quota_covers default_server) as Hq by (by vm_compute).
  split_and!.
  - revert Hc. generalize default_client. induction Hcs as [|s cs Hx _ IH]; intros c Hc; [done|].
    cbn [foldl]. by apply IH, client_set_typed.
  - revert Hs. generalize default_server. induction Hss as [|s ss Hx _ IH]; intros c Hd; [done|].
    cbn [foldl]. by apply IH, server_set_typed.
  - clear Hss Hs. revert Hq. generalize default_server. induction ss as [|s ss IH]; intros c Hd; [done|].
    cbn [foldl forallb]. intros [H1 H2]%andb_true_iff. apply IH; [by apply server_set_covers|done].
Qed.
